(* ===== verification/_CoqProject ===== *)
-Q . S2P
Prelude.v
Image.v
Layout.v
Kernel.v
DiskFormat.v
Discard.v
Journal.v
MetaBuf.v
Alloc.v
Retire.v
ExtentBuf.v
ExtentTree.v
Owned.v
Errno.v
InodeTable.v
FileRange.v
FileMap.v
FileWrite.v
FileZero.v
DirIndex.v
Xattr.v
DirSpec.v
Acl.v
Rebuild.v
Super.v
FileOps.v
FileOpsSpec.v
FileIo.v
FileIoSpec.v
Namespace.v
NamespaceSpec.v
CreateSpec.v
Mkfs.v
MkfsSpec.v
MkfsMain.v
ModuleInit.v
Witnesses.v
FileWitnesses.v
CString.v
NfsCore.v
NfsServer.v
NfsXdr.v
NfsRpc.v
NfsSpec.v
NfsWire.v
NfsWitnesses.v
VimText.v
Vim.v
VimSpec.v
VimEnds.v
VimLines.v
VimSave.v
VimDraw.v
VimTerm.v
VimWitnesses.v
