(* ===== verification/Prelude.v ===== *)
(** * A verification of simplefs, an NFS server and an editor

    The repository's programs with a core logic of their own are three.

    simplefs (src/simplefs/) is a Linux file system: a kernel module and the
    program that makes its devices.  A device holds a superblock, an inode table,
    an inode bitmap, a block bitmap, data blocks and a JBD2 journal at its end.
    A file is a two-level extent tree; a directory is a file of 15-entry blocks
    with a name cache; extended attributes take one block per inode.

    user-nfsd (src/docs/kernel/fs/nfs/user-nfsd/) is an NFSv3 server without state:
    a file handle carries a path below the exported directory, and every procedure
    makes system calls on it.

    mini-vim (src/docs/kernel/tty/vim/) is an editor in the manner of vi: one buffer
    of bytes, three modes, a terminal in raw mode, and files saved by renaming.

    ** How the code is modelled

    A block in memory is a nonnegative number whose byte [k] is its bits
    [8k .. 8k+7] (Image), so a C structure is a set of bit ranges and a cast is
    nothing.  A 32-bit value is a [Z]; every expression of the source that can
    leave the range is wrapped ([u32], [s32], [u64]).  Stateful code is a
    computation of the state monad [ST] below on the [world] of Kernel: the
    superblock information, the blocks of the device as the page cache shows them,
    the inodes in core, the running task and a trace of the calls made.  An error
    is the negated error number the source returns, an error pointer a negative
    number.

    What simplefs calls and the repository does not contain (JBD2, the page and
    buffer caches, the block layer, memory allocation, the VFS, the ACL library) is
    a parameter: the class [Kernel] answers every call with an arbitrary number,
    so a theorem covers every failure the environment can produce; [Vfs] holds the
    functions of the ACL library and of the security modules, [Posix] the system
    calls of mkfs, [PageCache] and [DataPath] the functions that write out, zero and
    move file data.  Where a theorem needs a law of the environment it is a named
    hypothesis or a class ([nothing_to_replay], [Errno] and [Errnos]: these calls return 0 or a
    negative code; [DevLaws]: how the kernel packs a device number; [ThroughCallbacks]: the page cache changes the file system only
    through its callbacks; [DataLaws]: what transfers report).

    The two user programs are computations of the same monad on their own states, which
    log every system call with its answer.  The operating system is a parameter there
    too ([NfsServer.Posix], [Tty]) and may answer anything; so are the XDR routines of
    the C library ([XdrLib]) and the characters of the locale ([Locale]).  Their laws
    are classes: [PosixErrno], [PosixWire] and [TtyLaws] (a call that fails says why,
    [pread] gives no more than asked for, a write of bytes writes some), [ReadsDir] (a
    stream gives a directory's entries in order), [XdrLaws] (values in range can be
    read back), [LocaleLaws] and [DisplayLaws] (a character has at least one byte and
    no control bytes).  A process that ends is the outcome [Exited]; a loop that still
    retries a call which signals interrupt, after [patience] attempts, is the outcome
    [Retrying], which is neither a result nor an error.

    A C loop is a structural recursion on the number of its iterations, which the
    caller computes as the code bounds it: the lengths of lists and ranges, 13
    halvings of a length of at most 8192, [convert_fuel] for the scan that restarts
    after each conversion, one round per byte for the retries of a direct write.
    [dir_trim_ends], [convert_range_ends] and [direct_write_counts] show that the
    loops whose bound is not syntactic end within it; the trim, zeroing and
    preallocation loops advance in every round and run on the length of their range.
    READDIR reads at most its cookie and one page of entries; reading and writing a
    file move a byte per round; the editor's main loop is given the number of rounds.

    ** The files

    - Prelude (this file), Image: machine integers, error numbers, the monad with
      its weakest preconditions, invariants and tactics; memory images, bitmaps.
    - Layout, DiskFormat (simplefs.h): constants, structures, extent accessors,
      and their readers and writers with round trips.
    - Kernel (simplefs.h, simplefs_dir_index.c): the in-core structures, the calls
      of the environment, the world.
    - Journal (simplefs_journal.c): the adapter to JBD2, refined against a small
      machine of idle and held states; the interface classes [KStable], [JStable]
      that say which predicates its operations keep.
    - MetaBuf, Retire (simplefs_metabuf.c): reading, zeroing, retiring metadata.
    - Discard (simplefs_super.c): the queue of freed blocks.
    - Alloc (simplefs_bitmap.h): bitmaps and counters, with the invariant
      [alloc_inv] and the interface classes [AStable], [BStable], [FStable].
    - ExtentBuf (simplefs_extent.c, simplefs_file.c), ExtentTree
      (simplefs_extent.c): extents in memory and on the device.
    - Owned, Errno: which blocks a file owns and that its operations keep them; the
      sign of error codes.
    - InodeTable (simplefs_super.c, simplefs_inode.c): inode records.
    - FileRange, FileMap, FileWrite, FileZero (simplefs_file.c, simplefs_inode.c):
      the extent tree of a file under truncation, punching, collapsing and
      inserting, block lookup and allocation, the iomap callbacks, conversion of
      unwritten blocks and zeroing, each against a map from file blocks to blocks.
    - FileOps, FileOpsSpec (simplefs_file.c, simplefs_inode.c, simplefs_dir.c):
      truncate, fallocate, fsync, FIEMAP, FITRIM, ioctls, attributes.
    - FileIo, FileIoSpec (simplefs_file.c): read, write, page fault, direct I/O,
      write-back and its completion.
    - DirIndex (simplefs_dir_index.c): the name cache over a directory's blocks;
      DirSpec: the same as a finite map, for the operations that use it.
    - Xattr (simplefs_xattr.c), Acl (simplefs_acl.c): extended attributes, lists.
    - Rebuild, Super (simplefs_super.c): reconstructing the block bitmap; mount,
      synchronisation, unmount, eviction.
    - Namespace (simplefs_inode.c): lookup, creation, links, removal, renames;
      NamespaceSpec, CreateSpec: these operations as updates of finite maps.
    - Mkfs (mkfs_common.c), MkfsSpec: making a file system, and mounting it;
      MkfsMain (user_mkfs.c): the command.
    - ModuleInit (simplefs_fs.c): loading the module, mount options.
    - Witnesses, FileWitnesses: the theorems at concrete inputs.
    - CString: C strings and buffers, for the user programs.
    - NfsCore (user_nfsd_core.c): safe paths and handles; NfsServer (user_nfsd.c):
      the procedures, the command; NfsXdr (nfs3_xdr.c, mount3_xdr.c, nfs3.h): the
      messages; NfsRpc (nfs3_svc.c, mount3_svc.c): calls and replies; NfsSpec,
      NfsWire: their theorems; NfsWitnesses.
    - VimText, Vim (mini-vim.c, backend-ansi.c, backend.h): lines and characters; the
      editor.  VimSpec, VimEnds (why it stops), VimLines, VimSave, VimDraw, VimTerm:
      their theorems; VimWitnesses.

    ** What the theorems show

    The allocator's invariant survives every operation on every path; allocation
    is first fit and answers 0 only when the system refused something or no run is
    free, frees are guarded, discards touch only free queued blocks.  The
    journal adapter never leaves a handle behind, starts one exactly when it may,
    latches the first failure, and
    every metadata write is announced to JBD2 first.  An extent tree that was
    synchronised loads back as the same mapping, a failed synchronisation
    leaves the old tree, and exactly the sound trees are accepted.  Splitting and normalising extents keep the mapping.
    Truncating, punching, collapsing, inserting, zeroing and converting are the
    corresponding functions on the map of a sound file, with the freed blocks back
    in the bitmap; an allocation adds exactly the run it reports, which was free,
    and finds one while a block is free.  Any sequence of file operations keeps
    the allocator's invariant and the write-ahead rule; fsync commits after the
    data and the inode are out; FIEMAP reports the map, FITRIM discards free runs
    only.  Every write, fallocate, fsync, release and truncation returns the locks and
    pages it took; a direct write counts its bytes and ends;
    waiting for write-back means every conversion was made.  Inode records,
    extended attributes and directories round-trip; a directory is a finite map, which
    reading it lists exactly over any number of calls,
    and unlinking, creating and renaming are updates of it, with the exact state
    after each failure.  A rebuilt bitmap marks exactly the blocks some inode
    owns; a mount reads what is on the device, a synchronised file system survives
    a remount, and a new one mounts with the counters mkfs computed; the command
    that makes one refuses a device that has one.  Some theorems record defects: a
    file of 4 GiB loses its size, a device with a large number becomes another one, a regular file stores stale memory, a failed
    eviction keeps its handle, a large device is made without a superblock, a new
    file system fails its own verification.

    The NFS server, whatever bytes it is sent, calls the system only on paths below
    the exported directory and leaves nothing open; every procedure number runs its own
    procedure and no other number runs any; arguments and results survive the
    wire, and a client reads exactly what the procedure returned; a write it reports
    is on the disk, a handle names the file it was made for, and a directory is listed
    completely whatever the page size.  CREATE with a path too long for a handle is
    shown to fail after creating the file.

    The editor keeps its buffer, cursor and arrays in bounds for any input; saving
    replaces the file by the whole text or leaves it alone; no key that is handled loses
    text that was not saved, and a key ends the process only after the system refused
    memory or the trace file; line commands act on the list of lines; what is drawn has no control
    bytes and stays on the screen with the cursor in view; and however the editor
    ends, the last attributes it sets are those the terminal had before it set any.

    ** What is not modelled

    Concurrency is modelled for the completion of write-back, as interleaved steps;
    elsewhere an operation runs alone, and locks are flags or calls in the trace that
    show who holds them; the mutexes of an inode's extent tree (extent_lock) and of a
    directory's cache, which one function takes and gives back around its body, are left
    out.  The contents of file data, and readahead, mmap and seeking,
    which only forward to the kernel, are left out, as are the branches for kernels
    without ioend flags (simplefs_file.c, lines 1235 to 1274).  Tracing and
    debug output have no state of their own.  Of the NFS server, the transport, the
    freeing of decoded arguments and symbolic links (paths are followed by name) are
    left out; of the editor, the trace file, what goes to stderr, the growth of the
    frame buffer and the backends on ncurses.  The other programs of the notes are
    demonstrations of system calls and kernel interfaces, each on its own. *)

From stdpp Require Import base list numbers.

Local Open Scope Z_scope.

(** ** Machine integers

    A [uint32_t] is a [Z] in [0, 2^32); every C expression that can leave that
    range is wrapped with [u32]. *)

Definition U32_MAX : Z := 4294967295.
Definition u32 (z : Z) : Z := z mod 4294967296.
Definition u64 (z : Z) : Z := z mod 18446744073709551616.
Definition is_u32 (z : Z) : Prop := 0 <= z <= U32_MAX.

Lemma u32_id z : is_u32 z -> u32 z = z.
Proof. unfold is_u32, u32, U32_MAX. intros. apply Z.mod_small. lia. Qed.

Lemma u32_range z : is_u32 (u32 z).
Proof.
  unfold is_u32, u32, U32_MAX.
  pose proof (Z.mod_pos_bound z 4294967296). lia.
Qed.

Lemma u32_idem z : u32 (u32 z) = u32 z.
Proof. apply u32_id, u32_range. Qed.

(** Sign extension of a 32-bit field, the cast [(int32_t)] of the code. *)
Definition s32 (z : Z) : Z :=
  let y := u32 z in if y <? 2147483648 then y else y - 4294967296.

Lemma s32_u32 z : -2147483648 <= z <= 2147483647 -> s32 (u32 z) = z.
Proof.
  intros H. unfold s32. rewrite u32_idem. unfold u32.
  destruct (Z_lt_le_dec z 0).
  - rewrite <- (Z_mod_plus_full z 1), Z.mod_small by lia.
    destruct (Z.ltb_spec (z + 1 * 4294967296) 2147483648); lia.
  - rewrite Z.mod_small by lia.
    destruct (Z.ltb_spec z 2147483648); lia.
Qed.

(** ** Error codes, as the kernel numbers them; functions return them negated. *)

Definition EPERM : Z := 1.
Definition ENOENT : Z := 2.
Definition EIO : Z := 5.
Definition E2BIG : Z := 7.
Definition ECHILD : Z := 10.
Definition EAGAIN : Z := 11.
Definition ENOMEM : Z := 12.
Definition EACCES : Z := 13.
Definition EEXIST : Z := 17.
Definition EXDEV : Z := 18.
Definition ENOTDIR : Z := 20.
Definition EISDIR : Z := 21.
Definition EINVAL : Z := 22.
Definition ENOTTY : Z := 25.
Definition EFBIG : Z := 27.
Definition ENOSPC : Z := 28.
Definition EROFS : Z := 30.
Definition ERANGE : Z := 34.
Definition ENAMETOOLONG : Z := 36.
Definition ENOTEMPTY : Z := 39.
Definition ENODATA : Z := 61.
Definition EOPNOTSUPP : Z := 95.
Definition ESHUTDOWN : Z := 108.
Definition ESTALE : Z := 116.
Definition EUCLEAN : Z := 117.
Definition EFSCORRUPTED : Z := EUCLEAN.

(** A C pointer that may carry an error: [IS_ERR]/[PTR_ERR]. *)
Definition IS_ERR (p : Z) : bool := (p <? 0).

(** ** The state monad in which the stateful code is written *)

Definition ST (S A : Type) : Type := S -> A * S.

Section Monad.
Context {S : Type}.

Definition ret {A} (a : A) : ST S A := fun s => (a, s).
Definition bind {A B} (m : ST S A) (k : A -> ST S B) : ST S B :=
  fun s => let '(a, s') := m s in k a s'.
Definition gets {A} (f : S -> A) : ST S A := fun s => (f s, s).
Definition modify (f : S -> S) : ST S unit := fun s => (tt, f s).
Definition when (b : bool) (m : ST S unit) : ST S unit := if b then m else ret tt.

(** [for (i = lo; i < lo + n; i++) body], stopping at the first nonzero code. *)
Fixpoint for_z (n : nat) (i : Z) (body : Z -> ST S Z) : ST S Z :=
  match n with
  | O => ret 0
  | Datatypes.S n' =>
      bind (body i) (fun r => if r =? 0 then for_z n' (i + 1) body else ret r)
  end.

(** The same loop over the elements of an array. *)
Fixpoint for_list {A} (l : list A) (body : A -> ST S Z) : ST S Z :=
  match l with
  | [] => ret 0
  | x :: l' => bind (body x) (fun r => if r =? 0 then for_list l' body else ret r)
  end.

(** A loop over an array whose body's code is ignored. *)
Fixpoint each_list {A} (l : list A) (body : A -> ST S unit) : ST S unit :=
  match l with
  | [] => ret tt
  | x :: l' => bind (body x) (fun _ => each_list l' body)
  end.

(** *** Weakest preconditions *)

Definition wp {A} (m : ST S A) (Q : A -> S -> Prop) (s : S) : Prop :=
  Q (fst (m s)) (snd (m s)).

Lemma wp_ret {A} (a : A) Q s : Q a s -> wp (ret a) Q s.
Proof. exact id. Qed.

Lemma wp_bind {A B} (m : ST S A) (k : A -> ST S B) Q s :
  wp m (fun a s' => wp (k a) Q s') s -> wp (bind m k) Q s.
Proof. unfold wp, bind. by destruct (m s). Qed.

Lemma wp_gets {A} (f : S -> A) Q s : Q (f s) s -> wp (gets f) Q s.
Proof. exact id. Qed.

Lemma wp_modify (f : S -> S) Q s : Q tt (f s) -> wp (modify f) Q s.
Proof. exact id. Qed.

Lemma wp_mono {A} (m : ST S A) (P Q : A -> S -> Prop) s :
  wp m P s -> (forall a s', P a s' -> Q a s') -> wp m Q s.
Proof. unfold wp. auto. Qed.

Lemma wp_conj {A} (m : ST S A) (P Q : A -> S -> Prop) s :
  wp m P s -> wp m Q s -> wp m (fun a s' => P a s' /\ Q a s') s.
Proof. unfold wp. auto. Qed.

(** *** Frames: a projection of the state that a computation leaves alone *)

Definition frame {A B} (f : S -> B) (m : ST S A) : Prop :=
  forall s, f (snd (m s)) = f s.

Lemma frame_ret {A B} (f : S -> B) (a : A) : frame f (ret a).
Proof. by intros s. Qed.

Lemma frame_gets {A B} (f : S -> B) (g : S -> A) : frame f (gets g).
Proof. by intros s. Qed.

Lemma frame_bind {A B C} (f : S -> C) (m : ST S A) (k : A -> ST S B) :
  frame f m -> (forall a, frame f (k a)) -> frame f (bind m k).
Proof.
  intros Hm Hk s. unfold bind. specialize (Hm s).
  destruct (m s) as [a s']; simpl in *. by rewrite Hk.
Qed.

Lemma frame_modify {B} (f : S -> B) (g : S -> S) :
  (forall s, f (g s) = f s) -> frame f (modify g).
Proof. intros H s. apply H. Qed.

Lemma frame_if {A B} (f : S -> B) (b : bool) (m1 m2 : ST S A) :
  frame f m1 -> frame f m2 -> frame f (if b then m1 else m2).
Proof. by destruct b. Qed.

Lemma frame_when {B} (f : S -> B) b m : frame f m -> frame f (when b m).
Proof. destruct b; [done | intros; apply frame_ret]. Qed.

Lemma frame_for_z {B} (f : S -> B) n body : forall i,
  (forall j, frame f (body j)) -> frame f (for_z n i body).
Proof.
  induction n as [|n IH]; intros i H; simpl; [apply frame_ret|].
  apply frame_bind; [apply H|]. intros r. apply frame_if; [by apply IH|apply frame_ret].
Qed.

Lemma frame_for_list {A B} (f : S -> B) (l : list A) body :
  (forall x, frame f (body x)) -> frame f (for_list l body).
Proof.
  intros H; induction l as [|x l IH]; simpl; [apply frame_ret|].
  apply frame_bind; [apply H|]. intros r. apply frame_if; [done|apply frame_ret].
Qed.

Lemma frame_each_list {A B} (f : S -> B) (l : list A) body :
  (forall x, frame f (body x)) -> frame f (each_list l body).
Proof.
  intros H; induction l as [|x l IH]; simpl; [apply frame_ret|].
  by apply frame_bind.
Qed.

(** *** Invariants: a property of the state that a computation preserves *)

Definition preserves {A} (I : S -> Prop) (m : ST S A) : Prop :=
  forall s, I s -> I (snd (m s)).

Lemma preserves_ret {A} I (a : A) : preserves I (ret a).
Proof. by intros s. Qed.

Lemma preserves_gets {A} I (g : S -> A) : preserves I (gets g).
Proof. by intros s. Qed.

Lemma preserves_bind {A B} I (m : ST S A) (k : A -> ST S B) :
  preserves I m -> (forall a, preserves I (k a)) -> preserves I (bind m k).
Proof.
  intros Hm Hk s Hs. unfold bind. specialize (Hm s Hs).
  destruct (m s) as [a s']; simpl in *. by apply Hk.
Qed.

Lemma preserves_if {A} I (b : bool) (m1 m2 : ST S A) :
  preserves I m1 -> preserves I m2 -> preserves I (if b then m1 else m2).
Proof. by destruct b. Qed.

Lemma preserves_when I b m : preserves I m -> preserves I (when b m).
Proof. destruct b; [done | intros; apply preserves_ret]. Qed.

Lemma preserves_modify I (g : S -> S) :
  (forall s, I s -> I (g s)) -> preserves I (modify g).
Proof. intros H s. apply H. Qed.

Lemma preserves_for_z I n body : forall i,
  (forall j, preserves I (body j)) -> preserves I (for_z n i body).
Proof.
  induction n as [|n IH]; intros i H; simpl; [apply preserves_ret|].
  apply preserves_bind; [apply H|]. intros r.
  apply preserves_if; [by apply IH|apply preserves_ret].
Qed.

Lemma preserves_for_z_range I n body : forall i,
  (forall j, (i <= j < i + Z.of_nat n)%Z -> preserves I (body j)) -> preserves I (for_z n i body).
Proof.
  induction n as [|n IH]; intros i H; simpl; [apply preserves_ret|].
  apply preserves_bind; [apply H; lia|]. intros r.
  apply preserves_if; [apply IH; intros; apply H; lia|apply preserves_ret].
Qed.

Lemma preserves_for_list {A} I (l : list A) body :
  (forall x, preserves I (body x)) -> preserves I (for_list l body).
Proof.
  intros H; induction l as [|x l IH]; simpl; [apply preserves_ret|].
  apply preserves_bind; [apply H|]. intros r.
  apply preserves_if; [done|apply preserves_ret].
Qed.

Lemma preserves_for_list_in {A} I (l : list A) body :
  (forall x, In x l -> preserves I (body x)) -> preserves I (for_list l body).
Proof.
  intros H; induction l as [|x l IH]; simpl; [apply preserves_ret|].
  apply preserves_bind; [apply H; by left|]. intros r.
  apply preserves_if; [apply IH; intros; apply H; by right|apply preserves_ret].
Qed.

Lemma preserves_each_list {A} I (l : list A) body :
  (forall x, preserves I (body x)) -> preserves I (each_list l body).
Proof.
  intros H; induction l as [|x l IH]; simpl; [apply preserves_ret|].
  by apply preserves_bind.
Qed.

(** An invariant of framed projections is preserved. *)
Lemma frame_preserves {A B} (f : S -> B) (P : B -> Prop) (m : ST S A) :
  frame f m -> preserves (fun s => P (f s)) m.
Proof. intros H s. by rewrite H. Qed.

Lemma frame_wp {A B} (f : S -> B) (m : ST S A) s :
  frame f m -> wp m (fun _ s' => f s' = f s) s.
Proof. intros H. apply H. Qed.

Lemma wp_pres {A} (I : S -> Prop) (m : ST S A) s :
  preserves I m -> I s -> wp m (fun _ s' => I s') s.
Proof. intros H. apply H. Qed.

Lemma wp_imp_pres {A} (I : S -> Prop) (m : ST S A) s :
  preserves I m -> wp m (fun _ s' => I s -> I s') s.
Proof. intros H. exact (H s). Qed.

End Monad.

Declare Scope fs_scope.
Delimit Scope fs_scope with fs.

Notation "'let!' x := m 'in' k" := (bind m (fun x => k))
  (at level 10, x pattern, m at level 200, k at level 200) : fs_scope.
Notation "'run!' m 'in' k" := (bind m (fun _ => k))
  (at level 10, m at level 200, k at level 200) : fs_scope.

(** ** Hint databases of the development

    [frame] and [pres] hold the structural rules; each file adds the lemmas of
    its own operations. *)

Create HintDb frame.
Create HintDb pres.
#[export] Hint Resolve frame_ret frame_gets frame_when frame_if : frame.
#[export] Hint Resolve preserves_ret preserves_gets preserves_when preserves_if : pres.

(** Walk through a computation, closing each leaf with the frame lemmas. *)
Ltac frame_step :=
  match goal with
  | |- frame _ (bind _ _) => apply frame_bind; [|intros ?]
  | |- frame _ (ret _) => apply frame_ret
  | |- frame _ (gets _) => apply frame_gets
  | |- frame _ (when _ _) => apply frame_when
  | |- frame _ (for_z _ _ _) => apply frame_for_z; intros ?
  | |- frame _ (for_list _ _) => apply frame_for_list; intros ?
  | |- frame _ (each_list _ _) => apply frame_each_list; intros ?
  | |- frame _ (modify _) => apply frame_modify; intros ?; reflexivity
  | |- frame _ (match ?x with _ => _ end) => destruct x
  | |- frame _ (let '(_, _) := ?x in _) => destruct x
  | |- frame _ _ => solve [eauto 2 with frame]
  end.
Ltac frames := repeat frame_step.

Ltac pres_step :=
  match goal with
  | |- preserves _ (bind _ _) => apply preserves_bind; [|intros ?]
  | |- preserves _ (ret _) => apply preserves_ret
  | |- preserves _ (gets _) => apply preserves_gets
  | |- preserves _ (when _ _) => apply preserves_when
  | |- preserves _ (for_z _ _ _) => apply preserves_for_z; intros ?
  | |- preserves _ (for_list _ _) => apply preserves_for_list; intros ?
  | |- preserves _ (each_list _ _) => apply preserves_each_list; intros ?
  | |- preserves _ (match ?x with _ => _ end) => destruct x
  | |- preserves _ _ => solve [eauto 4 with pres]
  end.
Ltac pres := repeat pres_step.

(** Backward symbolic execution of a weakest precondition. *)
Ltac wp_step :=
  match goal with
  | |- wp (bind _ _) _ _ => apply wp_bind
  | |- wp (ret _) _ _ => apply wp_ret
  | |- wp (gets _) _ _ => apply wp_gets
  | |- wp (modify _) _ _ => apply wp_modify
  | |- wp (when ?b _) _ _ => unfold when
  end.
Ltac wps := repeat (wp_step; cbv beta).

(** Split on the next test of the code. *)
Ltac wp_if := match goal with |- wp (if ?b then _ else _) _ _ => destruct b eqn:? end.

(** Name the current state. *)
Ltac wp_name w1 := match goal with |- wp _ _ ?w0 => set (w1 := w0) end.

(** Case analysis on the boolean tests of the code, with the arithmetic facts. *)
Ltac bool_hyps :=
  repeat match goal with
  | H : (_ =? _) = true |- _ => apply Z.eqb_eq in H
  | H : (_ =? _) = false |- _ => apply Z.eqb_neq in H
  | H : (_ <? _) = true |- _ => apply Z.ltb_lt in H
  | H : (_ <? _) = false |- _ => apply Z.ltb_ge in H
  | H : (_ <=? _) = true |- _ => apply Z.leb_le in H
  | H : (_ <=? _) = false |- _ => apply Z.leb_gt in H
  | H : (_ && _) = true |- _ => apply andb_true_iff in H as [? ?]
  | H : (_ || _) = false |- _ => apply orb_false_iff in H as [? ?]
  | H : negb _ = true |- _ => apply negb_true_iff in H
  | H : negb _ = false |- _ => apply negb_false_iff in H
  end.
Ltac ifs :=
  repeat match goal with
  | |- context [if ?b then _ else _] =>
      lazymatch b with
      | context [if _ then _ else _] => fail
      | _ => destruct b eqn:?
      end
  end.

(** ** Integer ranges as lists *)

Lemma seqZ_split s n k :
  0 <= k <= n -> seqZ s n = seqZ s k ++ seqZ (s + k) (n - k).
Proof.
  intros H. rewrite <- (seqZ_app s k (n - k)) by lia. f_equal; lia.
Qed.

(** Decide tests of a concrete error code against 0. *)
Ltac errno :=
  repeat match goal with
  | |- context [- ?e =? 0] =>
      let b := eval vm_compute in (- e =? 0) in
      match b with true => idtac | false => idtac end; change (- e =? 0) with b
  end;
  change (0 =? 0) with true; cbn [negb].
