(* ===== verification/Image.v ===== *)
(** * Memory images and bitmaps

    A block of memory is a nonnegative [Z]: byte [k] of the image is bits
    [8k .. 8k+7], so the number is the little-endian value of the memory.  A
    field of a C struct is a [slice] of the image, a store into it a [splice].
    The kernel's [unsigned long *] bitmaps are the same numbers, bit [k] of the
    bitmap being bit [k] of the number; [find_next_bit], [bitmap_set],
    [bitmap_clear] and [bitmap_weight] are the library functions of the same
    names. *)

From stdpp Require Import base list numbers.
From S2P Require Import Prelude.

Local Open Scope Z_scope.

(** ** Slices *)

Definition slice (b o n : Z) : Z := Z.land (Z.shiftr b o) (Z.ones n).
Definition splice (b o n v : Z) : Z :=
  Z.lor (Z.ldiff b (Z.shiftl (Z.ones n) o)) (Z.shiftl (Z.land v (Z.ones n)) o).

Lemma ones_testbit n i : 0 <= n -> 0 <= i -> Z.testbit (Z.ones n) i = (i <? n).
Proof.
  intros Hn Hi. destruct (Z.ltb_spec i n).
  - by apply Z.ones_spec_low.
  - by apply Z.ones_spec_high.
Qed.

Lemma slice_testbit b o n i :
  0 <= o -> 0 <= n -> 0 <= i ->
  Z.testbit (slice b o n) i = (i <? n) && Z.testbit b (i + o).
Proof.
  intros. unfold slice.
  rewrite Z.land_spec, Z.shiftr_spec, ones_testbit by lia. apply andb_comm.
Qed.

Lemma shiftl_testbit a o i :
  0 <= o -> 0 <= i -> Z.testbit (Z.shiftl a o) i = (o <=? i) && Z.testbit a (i - o).
Proof.
  intros. rewrite Z.shiftl_spec by lia.
  destruct (Z.leb_spec o i); simpl; [done|]. apply Z.testbit_neg_r. lia.
Qed.

Lemma splice_testbit b o n v i :
  0 <= o -> 0 <= n -> 0 <= i ->
  Z.testbit (splice b o n v) i =
    if (o <=? i) && (i <? o + n) then Z.testbit v (i - o) else Z.testbit b i.
Proof.
  intros. unfold splice.
  rewrite Z.lor_spec, Z.ldiff_spec, !shiftl_testbit by lia.
  destruct (Z.leb_spec o i); simpl.
  - rewrite Z.land_spec, !ones_testbit by lia.
    replace (i - o <? n) with (i <? o + n) by (destruct (Z.ltb_spec i (o + n)), (Z.ltb_spec (i - o) n); lia).
    destruct (i <? o + n), (Z.testbit b i), (Z.testbit v (i - o)); done.
  - by destruct (Z.testbit b i).
Qed.

(** Decide an equation between images bit by bit. *)
Ltac bit_cases :=
  repeat match goal with
  | |- context [?a <? ?b] => destruct (Z.ltb_spec a b)
  | |- context [?a <=? ?b] => destruct (Z.leb_spec a b)
  end; simpl.
Ltac bit_rewrite :=
  repeat first [ rewrite slice_testbit by lia | rewrite splice_testbit by lia
               | rewrite Z.land_spec | rewrite Z.lor_spec | rewrite Z.ldiff_spec
               | rewrite shiftl_testbit by lia | rewrite ones_testbit by lia
               | rewrite Z.testbit_0_l ].
Ltac bits :=
  apply Z.bits_inj'; intros ?i ?Hi;
  bit_rewrite; bit_cases; try lia; bit_rewrite; bit_cases;
  try lia; try done; try (f_equal; lia).

Lemma slice_nonneg b o n : 0 <= n -> 0 <= slice b o n.
Proof.
  intros. unfold slice. apply Z.land_nonneg. right.
  rewrite Z.ones_equiv. pose proof (Z.pow_pos_nonneg 2 n). lia.
Qed.

Lemma slice_lt b o n : 0 <= n -> slice b o n < 2 ^ n.
Proof.
  intros. unfold slice. rewrite Z.land_ones by lia. apply Z.mod_pos_bound.
  apply Z.pow_pos_nonneg; lia.
Qed.

Lemma slice_small v n : 0 <= n -> 0 <= v < 2 ^ n -> slice v 0 n = v.
Proof.
  intros. unfold slice. rewrite Z.shiftr_0_r, Z.land_ones by lia.
  by apply Z.mod_small.
Qed.

Lemma slice_splice_same b o n v :
  0 <= o -> 0 <= n -> slice (splice b o n v) o n = slice v 0 n.
Proof. intros. bits. Qed.

Lemma slice_splice_disjoint b o n v p m :
  0 <= o -> 0 <= n -> 0 <= p -> 0 <= m -> p + m <= o \/ o + n <= p ->
  slice (splice b o n v) p m = slice b p m.
Proof. intros. bits. Qed.

(** A field inside a copied region is read from the source. *)
Lemma slice_splice_inside b o n v p m :
  0 <= o -> 0 <= n -> o <= p -> 0 <= m -> p + m <= o + n ->
  slice (splice b o n v) p m = slice v (p - o) m.
Proof. intros. bits. Qed.

Lemma splice_splice_same b o n v v' :
  0 <= o -> 0 <= n -> splice (splice b o n v) o n v' = splice b o n v'.
Proof. intros. bits. Qed.

Lemma splice_slice_id b o n : 0 <= o -> 0 <= n -> splice b o n (slice b o n) = b.
Proof. intros. bits. Qed.

Lemma slice_slice b o n p m :
  0 <= o -> 0 <= n -> 0 <= p -> 0 <= m -> p + m <= n ->
  slice (slice b o n) p m = slice b (o + p) m.
Proof. intros. bits. Qed.

Lemma slice_0 o n : 0 <= o -> 0 <= n -> slice 0 o n = 0.
Proof. intros. bits. Qed.

Lemma splice_nonneg b o n v :
  0 <= b -> 0 <= o -> 0 <= n -> 0 <= splice b o n v.
Proof.
  intros. unfold splice. apply Z.lor_nonneg. split.
  - apply Z.ldiff_nonneg. by left.
  - apply Z.shiftl_nonneg. apply Z.land_nonneg. right.
    rewrite Z.ones_equiv. pose proof (Z.pow_pos_nonneg 2 n). lia.
Qed.

(** ** Fields at byte offsets *)

Definition get_u8 (img off : Z) : Z := slice img (8 * off) 8.
Definition get_u16 (img off : Z) : Z := slice img (8 * off) 16.
Definition get_u32 (img off : Z) : Z := slice img (8 * off) 32.
Definition put_u8 (img off v : Z) : Z := splice img (8 * off) 8 v.
Definition put_u16 (img off v : Z) : Z := splice img (8 * off) 16 v.
Definition put_u32 (img off v : Z) : Z := splice img (8 * off) 32 v.
(** [memcpy]/[memset(.., 0, ..)] on [n] bytes, the bytes being an image. *)
Definition get_bytes (img off n : Z) : Z := slice img (8 * off) (8 * n).
Definition put_bytes (img off n v : Z) : Z := splice img (8 * off) (8 * n) v.

Lemma get_u32_range img off : is_u32 (get_u32 img off).
Proof.
  unfold is_u32, U32_MAX, get_u32.
  pose proof (slice_nonneg img (8 * off) 32). pose proof (slice_lt img (8 * off) 32).
  lia.
Qed.

Lemma get_u16_range img off : 0 <= get_u16 img off < 65536.
Proof.
  unfold get_u16.
  pose proof (slice_nonneg img (8 * off) 16). pose proof (slice_lt img (8 * off) 16).
  lia.
Qed.

Lemma get_u8_range img off : 0 <= get_u8 img off < 256.
Proof.
  unfold get_u8.
  pose proof (slice_nonneg img (8 * off) 8). pose proof (slice_lt img (8 * off) 8).
  lia.
Qed.

Lemma get_put_u32 img off v : 0 <= off -> is_u32 v -> get_u32 (put_u32 img off v) off = v.
Proof.
  unfold is_u32, U32_MAX. intros. unfold get_u32, put_u32.
  rewrite slice_splice_same by lia. apply slice_small; lia.
Qed.

Lemma get_put_u16 img off v : 0 <= off -> 0 <= v < 65536 -> get_u16 (put_u16 img off v) off = v.
Proof.
  intros. unfold get_u16, put_u16.
  rewrite slice_splice_same by lia. apply slice_small; lia.
Qed.

Lemma get_put_u8 img off v : 0 <= off -> 0 <= v < 256 -> get_u8 (put_u8 img off v) off = v.
Proof.
  intros. unfold get_u8, put_u8.
  rewrite slice_splice_same by lia. apply slice_small; lia.
Qed.

(** Reads of one field are not disturbed by writes to another; the side
    conditions are linear in the offsets. *)
Ltac fields :=
  unfold get_u8, get_u16, get_u32, put_u8, put_u16, put_u32, get_bytes, put_bytes;
  repeat rewrite slice_splice_disjoint by lia.

(** ** Bitmaps *)

Definition test_bit (bm k : Z) : bool := Z.testbit bm k.
Definition bitmap_set (bm s n : Z) : Z := Z.lor bm (Z.shiftl (Z.ones n) s).
Definition bitmap_clear (bm s n : Z) : Z := Z.ldiff bm (Z.shiftl (Z.ones n) s).

Lemma bitmap_set_testbit bm s n k :
  0 <= s -> 0 <= n -> 0 <= k ->
  test_bit (bitmap_set bm s n) k = ((s <=? k) && (k <? s + n)) || test_bit bm k.
Proof.
  intros. unfold test_bit, bitmap_set.
  rewrite Z.lor_spec, shiftl_testbit by lia.
  destruct (Z.leb_spec s k); simpl; [|by rewrite orb_false_r].
  rewrite ones_testbit by lia. rewrite orb_comm. f_equal.
  destruct (Z.ltb_spec (k - s) n), (Z.ltb_spec k (s + n)); lia.
Qed.

Lemma bitmap_clear_testbit bm s n k :
  0 <= s -> 0 <= n -> 0 <= k ->
  test_bit (bitmap_clear bm s n) k = test_bit bm k && negb ((s <=? k) && (k <? s + n)).
Proof.
  intros. unfold test_bit, bitmap_clear.
  rewrite Z.ldiff_spec, shiftl_testbit by lia. f_equal. f_equal.
  destruct (Z.leb_spec s k); simpl; [|done].
  rewrite ones_testbit by lia.
  destruct (Z.ltb_spec (k - s) n), (Z.ltb_spec k (s + n)); lia.
Qed.

(** All of [s, s+n) is set (resp. clear). *)
Definition all_set (bm s n : Z) : Prop := forall k, s <= k < s + n -> test_bit bm k = true.
Definition all_clear (bm s n : Z) : Prop := forall k, s <= k < s + n -> test_bit bm k = false.

Lemma bitmap_set_clear bm s n :
  0 <= s -> 0 <= n -> all_set bm s n -> bitmap_set (bitmap_clear bm s n) s n = bm.
Proof.
  intros Hs Hn H. apply Z.bits_inj'. intros k Hk.
  change (test_bit (bitmap_set (bitmap_clear bm s n) s n) k = test_bit bm k).
  rewrite bitmap_set_testbit, bitmap_clear_testbit by lia.
  destruct (Z.leb_spec s k), (Z.ltb_spec k (s + n)); simpl; try by rewrite andb_true_r.
  symmetry. apply H. lia.
Qed.

Lemma bitmap_clear_set bm s n :
  0 <= s -> 0 <= n -> all_clear bm s n -> bitmap_clear (bitmap_set bm s n) s n = bm.
Proof.
  intros Hs Hn H. apply Z.bits_inj'. intros k Hk.
  change (test_bit (bitmap_clear (bitmap_set bm s n) s n) k = test_bit bm k).
  rewrite bitmap_clear_testbit, bitmap_set_testbit by lia.
  destruct (Z.leb_spec s k), (Z.ltb_spec k (s + n)); simpl;
    rewrite ?andb_true_r, ?andb_false_r; try done.
  symmetry. apply H. lia.
Qed.

(** [for (k = s; k < s+n; k++) if (!test_bit(k)) ...]: are all bits set? *)
Definition all_setb (bm s n : Z) : bool := forallb (test_bit bm) (seqZ s n).
Definition none_setb (bm s n : Z) : bool := forallb (fun k => negb (test_bit bm k)) (seqZ s n).

Lemma all_setb_spec bm s n : all_setb bm s n = true <-> all_set bm s n.
Proof.
  unfold all_setb, all_set. rewrite forallb_forall.
  split; intros H k Hk; apply H.
  - apply list_elem_of_In, elem_of_seqZ. lia.
  - apply list_elem_of_In, elem_of_seqZ in Hk. lia.
Qed.

Lemma none_setb_spec bm s n : none_setb bm s n = true <-> all_clear bm s n.
Proof.
  unfold none_setb, all_clear. rewrite forallb_forall.
  split; intros H k Hk.
  - apply negb_true_iff, H. apply list_elem_of_In, elem_of_seqZ. lia.
  - apply negb_true_iff, H. apply list_elem_of_In, elem_of_seqZ in Hk. lia.
Qed.

(** *** Weight *)

Fixpoint weight_from (bm : Z) (s : Z) (n : nat) : Z :=
  match n with
  | O => 0
  | S n' => (if test_bit bm s then 1 else 0) + weight_from bm (s + 1) n'
  end.
Definition bitmap_weight (bm n : Z) : Z := weight_from bm 0 (Z.to_nat n).

Lemma weight_from_bounds bm n : forall s, 0 <= weight_from bm s n <= Z.of_nat n.
Proof.
  induction n as [|n IH]; intros s; cbn [weight_from]; [lia|].
  specialize (IH (s + 1)). destruct (test_bit bm s); lia.
Qed.

Lemma weight_from_app bm n m : forall s,
  weight_from bm s (n + m) = weight_from bm s n + weight_from bm (s + Z.of_nat n) m.
Proof.
  induction n as [|n IH]; intros s; cbn [weight_from Nat.add].
  - rewrite Z.add_0_l. f_equal. lia.
  - rewrite IH. replace (s + 1 + Z.of_nat n) with (s + Z.of_nat (S n)) by lia. lia.
Qed.

Lemma weight_from_ext bm bm' n : forall s,
  (forall k, s <= k < s + Z.of_nat n -> test_bit bm k = test_bit bm' k) ->
  weight_from bm s n = weight_from bm' s n.
Proof.
  induction n as [|n IH]; intros s H; cbn [weight_from]; [done|].
  rewrite (H s) by lia. f_equal. apply IH. intros k Hk. apply H. lia.
Qed.

Lemma weight_from_all bm n s :
  all_set bm s (Z.of_nat n) -> weight_from bm s n = Z.of_nat n.
Proof.
  revert s; induction n as [|n IH]; intros s H; cbn [weight_from]; [done|].
  rewrite (H s) by lia. rewrite IH; [lia|]. intros k Hk. apply H. lia.
Qed.

Lemma weight_from_none bm n s :
  all_clear bm s (Z.of_nat n) -> weight_from bm s n = 0.
Proof.
  revert s; induction n as [|n IH]; intros s H; cbn [weight_from]; [done|].
  rewrite (H s) by lia. rewrite IH; [lia|]. intros k Hk. apply H. lia.
Qed.

(** The weight below [size] splits at a range [s, s+n). *)
Lemma bitmap_weight_split bm s n size :
  0 <= s -> 0 <= n -> s + n <= size ->
  bitmap_weight bm size =
    weight_from bm 0 (Z.to_nat s) + weight_from bm s (Z.to_nat n) +
    weight_from bm (s + n) (Z.to_nat (size - s - n)).
Proof.
  intros. unfold bitmap_weight.
  replace (Z.to_nat size) with (Z.to_nat s + (Z.to_nat n + Z.to_nat (size - s - n)))%nat by lia.
  rewrite !weight_from_app. rewrite !Z2Nat.id by lia.
  replace (0 + s) with s by lia. lia.
Qed.

Lemma bitmap_weight_clear bm s n size :
  0 <= s -> 0 <= n -> s + n <= size -> all_set bm s n ->
  bitmap_weight (bitmap_clear bm s n) size = bitmap_weight bm size - n.
Proof.
  intros Hs Hn Hsz H.
  rewrite (bitmap_weight_split (bitmap_clear bm s n) s n), (bitmap_weight_split bm s n) by lia.
  rewrite (weight_from_all bm (Z.to_nat n)) by (rewrite Z2Nat.id by lia; done).
  rewrite (weight_from_none (bitmap_clear bm s n) (Z.to_nat n)).
  2: { intros k Hk. rewrite Z2Nat.id in Hk by lia.
       rewrite bitmap_clear_testbit by lia. bit_cases; [|lia..]. apply andb_false_r. }
  rewrite (weight_from_ext (bitmap_clear bm s n) bm (Z.to_nat s)).
  2: { intros k Hk. rewrite bitmap_clear_testbit by lia. bit_cases; try lia. apply andb_true_r. }
  rewrite (weight_from_ext (bitmap_clear bm s n) bm (Z.to_nat (size - s - n))).
  2: { intros k Hk. rewrite bitmap_clear_testbit by lia. bit_cases; try lia. apply andb_true_r. }
  lia.
Qed.

Lemma bitmap_weight_set bm s n size :
  0 <= s -> 0 <= n -> s + n <= size -> all_clear bm s n ->
  bitmap_weight (bitmap_set bm s n) size = bitmap_weight bm size + n.
Proof.
  intros Hs Hn Hsz H.
  rewrite <- (bitmap_clear_set bm s n) at 2 by done.
  rewrite bitmap_weight_clear; [lia|done..|].
  intros k Hk. rewrite bitmap_set_testbit by lia. bit_cases; lia.
Qed.

(** *** [find_next_bit], [find_next_zero_bit] *)

Fixpoint find_next (p : Z -> bool) (fuel : nat) (k size : Z) : Z :=
  match fuel with
  | O => size
  | S f => if k <? size then if p k then k else find_next p f (k + 1) size else size
  end.
Definition find_next_bit (bm size k : Z) : Z :=
  find_next (test_bit bm) (Z.to_nat (size - k)) k size.
Definition find_next_zero_bit (bm size k : Z) : Z :=
  find_next (fun i => negb (test_bit bm i)) (Z.to_nat (size - k)) k size.

Lemma find_next_spec p fuel : forall k size,
  k <= size -> Z.of_nat fuel = size - k ->
  k <= find_next p fuel k size <= size /\
  (forall j, k <= j < find_next p fuel k size -> p j = false) /\
  (find_next p fuel k size < size -> p (find_next p fuel k size) = true).
Proof.
  induction fuel as [|f IH]; intros k size Hk Hf; simpl.
  - split; [lia|]. split; intros; lia.
  - destruct (Z.ltb_spec k size); [|lia].
    destruct (p k) eqn:E.
    + split; [lia|]. split; [intros; lia | done].
    + destruct (IH (k + 1) size) as (H1 & H2 & H3); [lia..|].
      split; [lia|]. split; [|done].
      intros j Hj. destruct (Z.eq_dec j k) as [->|]; [done|]. apply H2. lia.
Qed.

Lemma find_next_bit_spec bm size k :
  k <= size ->
  k <= find_next_bit bm size k <= size /\
  (forall j, k <= j < find_next_bit bm size k -> test_bit bm j = false) /\
  (find_next_bit bm size k < size -> test_bit bm (find_next_bit bm size k) = true).
Proof. intros. apply find_next_spec; lia. Qed.

Lemma find_next_zero_bit_spec bm size k :
  k <= size ->
  k <= find_next_zero_bit bm size k <= size /\
  (forall j, k <= j < find_next_zero_bit bm size k -> test_bit bm j = true) /\
  (find_next_zero_bit bm size k < size -> test_bit bm (find_next_zero_bit bm size k) = false).
Proof.
  intros H. destruct (find_next_spec (fun i => negb (test_bit bm i)) (Z.to_nat (size - k)) k size)
    as (H1 & H2 & H3); [lia..|].
  split; [done|]. split.
  - intros j Hj. apply negb_false_iff. by apply H2.
  - intros Hlt. apply negb_true_iff. by apply H3.
Qed.

#[global] Arguments slice : simpl never.
#[global] Arguments splice : simpl never.
#[global] Arguments get_u8 : simpl never.
#[global] Arguments get_u16 : simpl never.
#[global] Arguments get_u32 : simpl never.
#[global] Arguments put_u8 : simpl never.
#[global] Arguments put_u16 : simpl never.
#[global] Arguments put_u32 : simpl never.
#[global] Arguments get_bytes : simpl never.
#[global] Arguments put_bytes : simpl never.
#[global] Arguments test_bit : simpl never.
#[global] Arguments bitmap_set : simpl never.
#[global] Arguments bitmap_clear : simpl never.
#[global] Arguments bitmap_weight : simpl never.
