(* ===== verification/Layout.v ===== *)
(** * Layout: constants, structures and extent accessors of simplefs.h

    The on-disk structures with their sizes and offsets, and the inline
    accessors of [struct simplefs_extent].  A length field keeps the written
    state in its top bit; the accessors never let one disturb the other. *)

From stdpp Require Import base list numbers.
From S2P Require Import Prelude Image.

Local Open Scope Z_scope.

(** ** Constants *)

Definition SIMPLEFS_MAGIC : Z := 14593486.              (* 0xDEADCELL: 0xDEADCE with the suffix LL *)
Definition SIMPLEFS_DISK_MAGIC : Z := 3735932418.       (* 0xDEADCE02 *)
Definition SIMPLEFS_SB_BLOCK_NR : Z := 0.
Definition SIMPLEFS_EXTENT_ROOT_MAGIC : Z := 4110450177. (* 0xF5007E01 *)
Definition SIMPLEFS_EXTENT_LEAF_MAGIC : Z := 4110450178. (* 0xF5007E02 *)
Definition SIMPLEFS_BLOCK_SIZE : Z := 4096.

Definition sizeof_extent : Z := 12.
Definition sizeof_extent_index : Z := 16.
Definition sizeof_extent_root_header : Z := 8.
Definition sizeof_extent_leaf_header : Z := 8.
Definition sizeof_simplefs_inode : Z := 104.  (* 18 words and i_data[32] *)
Definition sizeof_simplefs_file : Z := 260.   (* 4 + 255, padded to a word *)

Definition SIMPLEFS_FILE_EXTENTS_PER_LEAF : Z :=
  (SIMPLEFS_BLOCK_SIZE - sizeof_extent_leaf_header) / sizeof_extent.
Definition SIMPLEFS_FILE_INDEX_SLOTS : Z :=
  (SIMPLEFS_BLOCK_SIZE - sizeof_extent_root_header) / sizeof_extent_index.
Definition SIMPLEFS_MAX_BLOCKS_PER_EXTENT : Z := 8192.
Definition SIMPLEFS_MAX_FILE_EXTENTS : Z :=
  SIMPLEFS_FILE_EXTENTS_PER_LEAF * SIMPLEFS_FILE_INDEX_SLOTS.
Definition SIMPLEFS_MAX_FILESIZE : Z :=
  SIMPLEFS_MAX_BLOCKS_PER_EXTENT * SIMPLEFS_BLOCK_SIZE * SIMPLEFS_MAX_FILE_EXTENTS.
Definition SIMPLEFS_FILENAME_LEN : Z := 255.
Definition SIMPLEFS_FILES_PER_BLOCK : Z := SIMPLEFS_BLOCK_SIZE / sizeof_simplefs_file.
Definition SIMPLEFS_INODES_PER_BLOCK : Z := SIMPLEFS_BLOCK_SIZE / sizeof_simplefs_inode.
Definition SIMPLEFS_MAX_DIR_BLOCKS : Z := U32_MAX / SIMPLEFS_BLOCK_SIZE.
Definition SIMPLEFS_JOURNAL_BLOCKS : Z := 1024.

Definition simplefs_blocks_to_sectors (blocks : Z) : Z :=
  u64 (blocks * (SIMPLEFS_BLOCK_SIZE / 512)).
Definition simplefs_sectors_to_blocks (sectors : Z) : Z :=
  sectors / (SIMPLEFS_BLOCK_SIZE / 512).

Lemma sectors_blocks_roundtrip n :
  is_u32 n -> simplefs_sectors_to_blocks (simplefs_blocks_to_sectors n) = n.
Proof.
  unfold is_u32, U32_MAX, simplefs_sectors_to_blocks, simplefs_blocks_to_sectors, u64.
  intros. change (SIMPLEFS_BLOCK_SIZE / 512) with 8.
  rewrite Z.mod_small by lia. apply Z.div_mul. lia.
Qed.

(** ** Extents *)

Record extent := Extent {
  ee_block : Z;   (* first logical block *)
  ee_len : Z;     (* low 31 bits: length, bit 31: unwritten *)
  ee_start : Z    (* first physical block *)
}.

#[export] Instance extent_eq_dec : EqDecision extent.
Proof. solve_decision. Defined.

Definition SIMPLEFS_EXTENT_UNWRITTEN : Z := 2147483648.
Definition SIMPLEFS_EXTENT_LEN_MASK : Z := 2147483647.

Definition simplefs_ext_len (ext : extent) : Z :=
  let len := Z.land (ee_len ext) SIMPLEFS_EXTENT_LEN_MASK in
  if len >? SIMPLEFS_MAX_BLOCKS_PER_EXTENT then SIMPLEFS_MAX_BLOCKS_PER_EXTENT else len.

Definition simplefs_ext_unwritten (ext : extent) : bool :=
  negb (Z.land (ee_len ext) SIMPLEFS_EXTENT_UNWRITTEN =? 0).

Definition simplefs_ext_set_len (ext : extent) (len : Z) : extent :=
  Extent (ee_block ext)
    (Z.lor (Z.land (ee_len ext) SIMPLEFS_EXTENT_UNWRITTEN)
           (Z.land len SIMPLEFS_EXTENT_LEN_MASK))
    (ee_start ext).

Definition simplefs_ext_set_unwritten (ext : extent) (unwritten : bool) : extent :=
  let l := Z.land (ee_len ext) SIMPLEFS_EXTENT_LEN_MASK in
  Extent (ee_block ext)
    (if unwritten then Z.lor l SIMPLEFS_EXTENT_UNWRITTEN else l) (ee_start ext).

Definition simplefs_ext_init (block len start : Z) (unwritten : bool) : extent :=
  let l := Z.land len SIMPLEFS_EXTENT_LEN_MASK in
  Extent block (if unwritten then Z.lor l SIMPLEFS_EXTENT_UNWRITTEN else l) start.

Definition simplefs_ext_end (ext : extent) : Z :=
  u32 (ee_block ext + simplefs_ext_len ext).

Definition simplefs_extent_is_empty (ext : extent) : bool :=
  (ee_start ext =? 0) || (simplefs_ext_len ext =? 0).

Definition simplefs_extent_clear (ext : extent) : extent := Extent 0 0 0.

(** ** Facts about the accessors *)

Lemma len_mask_ones : SIMPLEFS_EXTENT_LEN_MASK = Z.ones 31.
Proof. reflexivity. Qed.

Lemma unwritten_shift : SIMPLEFS_EXTENT_UNWRITTEN = Z.shiftl (Z.ones 1) 31.
Proof. reflexivity. Qed.

Lemma land_unwritten_testbit x :
  negb (Z.land x SIMPLEFS_EXTENT_UNWRITTEN =? 0) = Z.testbit x 31.
Proof.
  destruct (Z.testbit x 31) eqn:E.
  - apply negb_true_iff, Z.eqb_neq. intros H.
    apply (f_equal (fun y => Z.testbit y 31)) in H.
    rewrite Z.land_spec, E in H. discriminate H.
  - apply negb_false_iff, Z.eqb_eq. rewrite unwritten_shift. apply Z.bits_inj'. intros i Hi.
    rewrite Z.land_spec, shiftl_testbit, Z.testbit_0_l by lia.
    destruct (Z.leb_spec 31 i); simpl; [|apply andb_false_r].
    rewrite ones_testbit by lia. destruct (Z.ltb_spec (i - 31) 1); [|apply andb_false_r].
    replace i with 31 by lia. by rewrite E.
Qed.

Lemma ext_unwritten_bit e : simplefs_ext_unwritten e = Z.testbit (ee_len e) 31.
Proof. apply land_unwritten_testbit. Qed.

Lemma ext_len_bounds e : 0 <= simplefs_ext_len e <= SIMPLEFS_MAX_BLOCKS_PER_EXTENT.
Proof.
  unfold simplefs_ext_len, SIMPLEFS_MAX_BLOCKS_PER_EXTENT.
  assert (0 <= Z.land (ee_len e) SIMPLEFS_EXTENT_LEN_MASK).
  { apply Z.land_nonneg. right. done. }
  rewrite Z.gtb_ltb. destruct (Z.ltb_spec 8192 (Z.land (ee_len e) SIMPLEFS_EXTENT_LEN_MASK)); lia.
Qed.

Lemma len_mask_small n :
  0 <= n <= SIMPLEFS_MAX_BLOCKS_PER_EXTENT -> Z.land n SIMPLEFS_EXTENT_LEN_MASK = n.
Proof.
  unfold SIMPLEFS_MAX_BLOCKS_PER_EXTENT. intros.
  rewrite len_mask_ones, Z.land_ones by lia. apply Z.mod_small. lia.
Qed.

Lemma small_testbit31 n : 0 <= n <= SIMPLEFS_MAX_BLOCKS_PER_EXTENT -> Z.testbit n 31 = false.
Proof.
  unfold SIMPLEFS_MAX_BLOCKS_PER_EXTENT. intros.
  rewrite <- (Z.mod_small n (2 ^ 31)) by lia. by apply Z.mod_pow2_bits_high.
Qed.

Lemma ext_len_of_mask b l s :
  Z.land l SIMPLEFS_EXTENT_LEN_MASK <= SIMPLEFS_MAX_BLOCKS_PER_EXTENT ->
  simplefs_ext_len (Extent b l s) = Z.land l SIMPLEFS_EXTENT_LEN_MASK.
Proof.
  intros H. unfold simplefs_ext_len; simpl. rewrite Z.gtb_ltb.
  destruct (Z.ltb_spec SIMPLEFS_MAX_BLOCKS_PER_EXTENT (Z.land l SIMPLEFS_EXTENT_LEN_MASK)); lia.
Qed.

(** The two fields packed in [ee_len] are independent. *)
Lemma land_lor_mask u n :
  0 <= n <= SIMPLEFS_MAX_BLOCKS_PER_EXTENT ->
  Z.land (Z.lor (Z.land u SIMPLEFS_EXTENT_UNWRITTEN) n) SIMPLEFS_EXTENT_LEN_MASK = n.
Proof.
  intros H. rewrite <- (len_mask_small n H) at 2.
  rewrite len_mask_ones, unwritten_shift. apply Z.bits_inj'. intros i Hi.
  rewrite !Z.land_spec, Z.lor_spec, Z.land_spec, shiftl_testbit by lia.
  rewrite (ones_testbit 31) by lia.
  destruct (Z.ltb_spec i 31); [|by rewrite !andb_false_r].
  destruct (Z.leb_spec 31 i); [lia|]. by rewrite !andb_false_r.
Qed.

Lemma ext_set_len_len e n :
  0 <= n <= SIMPLEFS_MAX_BLOCKS_PER_EXTENT -> simplefs_ext_len (simplefs_ext_set_len e n) = n.
Proof.
  intros H. unfold simplefs_ext_set_len. rewrite (len_mask_small n H).
  rewrite ext_len_of_mask; rewrite land_lor_mask by done; lia.
Qed.

Lemma ext_set_len_unwritten e n :
  0 <= n <= SIMPLEFS_MAX_BLOCKS_PER_EXTENT ->
  simplefs_ext_unwritten (simplefs_ext_set_len e n) = simplefs_ext_unwritten e.
Proof.
  intros H. rewrite !ext_unwritten_bit. unfold simplefs_ext_set_len; cbn [ee_len].
  rewrite (len_mask_small n H), Z.lor_spec, Z.land_spec, (small_testbit31 n H).
  rewrite orb_false_r. change (Z.testbit SIMPLEFS_EXTENT_UNWRITTEN 31) with true.
  apply andb_true_r.
Qed.

Lemma ext_init_len b n s u :
  0 <= n <= SIMPLEFS_MAX_BLOCKS_PER_EXTENT ->
  simplefs_ext_len (simplefs_ext_init b n s u) = n.
Proof.
  intros H. unfold simplefs_ext_init. rewrite (len_mask_small n H).
  destruct u; rewrite ext_len_of_mask.
  - rewrite Z.lor_comm. apply (land_lor_mask (-1)). done.
  - rewrite Z.lor_comm. rewrite (land_lor_mask (-1)) by done. lia.
  - by apply len_mask_small.
  - rewrite len_mask_small by done. lia.
Qed.

Lemma ext_init_unwritten b n s u :
  0 <= n <= SIMPLEFS_MAX_BLOCKS_PER_EXTENT ->
  simplefs_ext_unwritten (simplefs_ext_init b n s u) = u.
Proof.
  intros H. rewrite ext_unwritten_bit. unfold simplefs_ext_init; cbn [ee_len].
  rewrite (len_mask_small n H). destruct u.
  - rewrite Z.lor_spec. change (Z.testbit SIMPLEFS_EXTENT_UNWRITTEN 31) with true.
    apply orb_true_r.
  - by apply small_testbit31.
Qed.

Lemma ext_set_unwritten_state e u :
  simplefs_ext_unwritten (simplefs_ext_set_unwritten e u) = u.
Proof.
  rewrite ext_unwritten_bit. unfold simplefs_ext_set_unwritten; cbn [ee_len]. destruct u.
  - rewrite Z.lor_spec. change (Z.testbit SIMPLEFS_EXTENT_UNWRITTEN 31) with true.
    apply orb_true_r.
  - rewrite Z.land_spec. apply andb_false_r.
Qed.

Lemma ext_set_unwritten_len e u :
  simplefs_ext_len (simplefs_ext_set_unwritten e u) = simplefs_ext_len e.
Proof.
  unfold simplefs_ext_len, simplefs_ext_set_unwritten; cbn [ee_len].
  assert (Z.land (if u then Z.lor (Z.land (ee_len e) SIMPLEFS_EXTENT_LEN_MASK)
            SIMPLEFS_EXTENT_UNWRITTEN else Z.land (ee_len e) SIMPLEFS_EXTENT_LEN_MASK)
          SIMPLEFS_EXTENT_LEN_MASK = Z.land (ee_len e) SIMPLEFS_EXTENT_LEN_MASK) as ->; [|done].
  destruct u.
  - rewrite Z.land_lor_distr_l. change (Z.land SIMPLEFS_EXTENT_UNWRITTEN SIMPLEFS_EXTENT_LEN_MASK) with 0.
    by rewrite Z.lor_0_r, <- Z.land_assoc, Z.land_diag.
  - by rewrite <- Z.land_assoc, Z.land_diag.
Qed.

(** ** The in-memory extent buffer

    [extents] is the valid prefix of the array ([nr_extents] is its length),
    [capacity] the room allocated, [leaf_blocks] the leaf block numbers the
    buffer owns ([nr_leaf_blocks] is its length). *)
Record extent_buffer := ExtentBuffer {
  eb_extents : list extent;
  eb_capacity : Z;
  eb_leaf_blocks : list Z
}.
Definition nr_extents (buf : extent_buffer) : Z := Z.of_nat (length (eb_extents buf)).
Definition nr_leaf_blocks (buf : extent_buffer) : Z := Z.of_nat (length (eb_leaf_blocks buf)).
Definition eb_empty : extent_buffer := ExtentBuffer [] 0 [].
Definition eb_set_extents (buf : extent_buffer) (l : list extent) : extent_buffer :=
  ExtentBuffer l (eb_capacity buf) (eb_leaf_blocks buf).
