(* ===== verification/Kernel.v ===== *)
(** * Kernel: the environment, the in-memory state and the effects

    Everything the file system calls but the repository does not contain (JBD2,
    the page cache and buffer cache, the block layer, the allocators of the
    kernel, the VFS) is the parameter [Kernel]: a state type [KW] and a step
    function that answers each call of [kcall] with a C [int].  No law is
    assumed of it here: a theorem that needs one names it as a hypothesis.

    The state of the file system is the record [world]: the superblock
    information with its bitmaps, the images of the metadata blocks in the
    block-device mapping, the in-core inodes, and the trace of the calls made to
    the environment with their answers. *)

From stdpp Require Import base list numbers gmap.
From S2P Require Import Prelude Image Layout.

Local Open Scope Z_scope.

(** ** Calls to the environment *)

Inductive kcall :=
  (* allocators: 0 is success, anything else a NULL pointer *)
  | Kmalloc
  (* page cache of the block device; block numbers *)
  | ReadMappingFolio (n : Z)
  | FolioMarkDirty (n : Z)
  | FilemapWriteAndWait (n len : Z)
  | InvalidatePages (n len : Z)
  | MappingSetError (err : Z)
  | TruncateBdevPages
  | SyncBlockdev
  (* buffer cache *)
  | SbGetblk (n : Z)               (* nonzero: NULL *)
  | SbFindGetBlock (n : Z)         (* nonzero: a buffer exists *)
  | BufferJbd (n : Z)
  | JhBTransaction (n : Z)
  | JhBNextTransaction (n : Z)
  | JhRecycled (n : Z)             (* jh->b_bh != bh *)
  | BufferRevoked (n : Z)
  | SbBread (n : Z)                (* nonzero: NULL *)
  | SyncDirtyBuffer (n : Z)
  | BufferUptodate (n : Z)         (* nonzero: uptodate *)
  (* block layer *)
  | BdevReadOnly
  | BlkdevIssueFlush
  | BlkdevIssueZeroout (n len : Z)
  | SbIssueDiscard (n len : Z)
  | BdevDiscardGranularity
  (* JBD2; a handle is a nonzero number *)
  | Jbd2InitDev (start len : Z)
  | Jbd2Load
  | Jbd2Destroy
  | Jbd2Start (credits : Z)        (* negative: ERR_PTR, else the handle *)
  | Jbd2Stop (h : Z)
  | Jbd2Abort (err : Z)
  | IsJournalAborted
  | JournalCurrentHandle           (* the task's handle on this journal, or 0 *)
  | HRevokeCredits (h : Z)
  | Jbd2GetWriteAccess (h n : Z)
  | Jbd2DirtyMetadata (h n : Z)
  | Jbd2Revoke (h n : Z)
  | Jbd2Flush
  | Jbd2ForceCommit
  (* VFS *)
  | MarkInodeDirty (ino : Z)
  | SetCachedAcl (ino type : Z) (acl : option (Z * Z))   (* the list in its external form *)
  | ClearInode (ino : Z)
  | IsBadInode (ino : Z)
  | DMakeRoot                      (* nonzero: NULL *)
  | InitOwnerUid (ino : Z)         (* what inode_init_owner chooses *)
  | InitOwnerGid (ino : Z)
  | CurrentTimeSec
  | CurrentTimeNsec
  | GetRandomU32
  | RhashInit
  | RhashInsert (key : Z)          (* nonzero: the table cannot grow *)
  | DirEmitDots (pos : Z)          (* the new position; below 2 the buffer is full *)
  | DirEmit (key ino : Z)          (* nonzero: the buffer is full *)
  | IgetLocked (ino : Z)           (* nonzero: NULL *)
  | NewInode                       (* nonzero: NULL *)
  | InsertInodeLocked (ino : Z)    (* nonzero: the number is already hashed *)
  | MakeBadInode (ino : Z)
  | Iput (ino : Z)                 (* nonzero: that was the last reference *)
  | InitSecurity (ino dir : Z)     (* a security module refuses the new inode *)
  | DSpliceAlias (ino : Z)
  | DInstantiate (ino : Z)
  | DTmpfile (ino : Z)
  | FinishOpenSimple (ino : Z)
  | SetattrPrepare (ino attr : Z)
  | TruncateInodePages (ino : Z)
  (* page cache of a file *)
  | InodeDioWait (ino : Z)
  | WaitIoendConversions (ino : Z)
  | TruncateSetsize (ino size : Z)
  | IomapTruncatePage (ino pos : Z)
  | IomapZeroRange (ino pos len : Z)
  | FilemapWriteInode (ino start len : Z)
  | TruncatePagecache (ino start len : Z)
  | FilemapWriteAndWaitAll
  | ZeroRange (ino start len : Z)
  (* file operations *)
  | FileModified (ino : Z)
  | InodeNewsizeOk (ino size : Z)
  | PagecacheIsizeExtended (ino from to : Z)
  | FiemapFill (logical phys len flags : Z)   (* 1: the reader's buffer is full *)
  | FinishIoends (ino error : Z)
  | GenericFileOpen (ino : Z)
  | SpliceRead (ino : Z)
  | UserCopy                       (* nonzero: a bad user address *)
  | Capable                        (* nonzero: CAP_SYS_ADMIN *)
  | AclChmod (ino mode : Z)
  (* reading and writing files *)
  | BdevLogicalBlockSize
  | MappingMapped (ino : Z)        (* nonzero: some task maps the file *)
  | FileUpdateTime (ino : Z)
  | InvalidateMappingPages (ino first last : Z)
  | IoendWritebackSubmit (ino error : Z)
  (* the module *)
  | KmemCacheCreate                (* nonzero: NULL *)
  | KmemCacheDestroy
  | DebugfsCreateDir               (* negative: ERR_PTR *)
  | DebugfsRemove
  | RegisterFilesystem
  | UnregisterFilesystem
  | FsParse (key : Z)              (* the number of the option, or an error *)
  (* locks of the file operations and pinned pages *)
  | InodeLock (ino : Z)
  | InodeUnlock (ino : Z)
  | InodeLockShared (ino : Z)
  | InodeUnlockShared (ino : Z)
  | InvalidateLock (ino : Z)
  | InvalidateUnlock (ino : Z)
  | InvalidateLockShared (ino : Z)
  | InvalidateUnlockShared (ino : Z)
  | PinUserPage (page : Z)
  | UnpinUserPage (page : Z).

(** ** In-memory superblock information: [struct simplefs_sb_info]

    [sb_disk] is the part the superblock block stores, [sb_info] adds the
    fields under [__KERNEL__].  [s_journal] is the adapter's [struct
    simplefs_journal], [j_jbd2] saying whether its JBD2 journal is open; a task
    and a handle are numbers, 0 standing for NULL. *)

Record sb_disk := SbDisk {
  magic : Z;
  nr_blocks : Z;
  nr_inodes : Z;
  nr_istore_blocks : Z;
  nr_ifree_blocks : Z;
  nr_bfree_blocks : Z;
  nr_free_inodes : Z;
  nr_free_blocks : Z;
  s_journal_present : Z;
  s_journal_start : Z;
  s_journal_mode : Z;
  s_volume_name : Z;
  s_needs_recovery : Z
}.
Definition set_nr_free_inodes (v : Z) (r : sb_disk) : sb_disk :=
    SbDisk (magic r) (nr_blocks r) (nr_inodes r) (nr_istore_blocks r) (nr_ifree_blocks r)
    (nr_bfree_blocks r) v (nr_free_blocks r) (s_journal_present r) (s_journal_start r)
    (s_journal_mode r) (s_volume_name r) (s_needs_recovery r).
Definition set_nr_free_blocks (v : Z) (r : sb_disk) : sb_disk :=
    SbDisk (magic r) (nr_blocks r) (nr_inodes r) (nr_istore_blocks r) (nr_ifree_blocks r)
    (nr_bfree_blocks r) (nr_free_inodes r) v (s_journal_present r) (s_journal_start r)
    (s_journal_mode r) (s_volume_name r) (s_needs_recovery r).
Definition set_s_journal_mode (v : Z) (r : sb_disk) : sb_disk :=
    SbDisk (magic r) (nr_blocks r) (nr_inodes r) (nr_istore_blocks r) (nr_ifree_blocks r)
    (nr_bfree_blocks r) (nr_free_inodes r) (nr_free_blocks r) (s_journal_present r)
    (s_journal_start r) v (s_volume_name r) (s_needs_recovery r).
Definition set_s_volume_name (v : Z) (r : sb_disk) : sb_disk :=
    SbDisk (magic r) (nr_blocks r) (nr_inodes r) (nr_istore_blocks r) (nr_ifree_blocks r)
    (nr_bfree_blocks r) (nr_free_inodes r) (nr_free_blocks r) (s_journal_present r)
    (s_journal_start r) (s_journal_mode r) v (s_needs_recovery r).
Definition set_s_needs_recovery (v : Z) (r : sb_disk) : sb_disk :=
    SbDisk (magic r) (nr_blocks r) (nr_inodes r) (nr_istore_blocks r) (nr_ifree_blocks r)
    (nr_bfree_blocks r) (nr_free_inodes r) (nr_free_blocks r) (s_journal_present r)
    (s_journal_start r) (s_journal_mode r) (s_volume_name r) v.

Record journal := Journal {
  j_jbd2 : bool;
  j_handle_mutex : bool;
  j_handle_owner : Z;
  j_active_handle : Z
}.
Definition set_j_jbd2 (v : bool) (r : journal) : journal :=
  Journal v (j_handle_mutex r) (j_handle_owner r) (j_active_handle r).
Definition set_j_handle_mutex (v : bool) (r : journal) : journal :=
  Journal (j_jbd2 r) v (j_handle_owner r) (j_active_handle r).
Definition set_j_handle_owner (v : Z) (r : journal) : journal :=
  Journal (j_jbd2 r) (j_handle_mutex r) v (j_active_handle r).
Definition set_j_active_handle (v : Z) (r : journal) : journal :=
  Journal (j_jbd2 r) (j_handle_mutex r) (j_handle_owner r) v.

Record sb_info := SbInfo {
  sbi_disk :> sb_disk;
  ifree_bitmap : Z;
  bfree_bitmap : Z;
  discard_pending : option Z;
  bitmap_lock : bool;
  s_discard : bool;
  s_journal : option journal;
  s_shutdown : bool
}.
Definition set_sbi_disk (v : sb_disk) (r : sb_info) : sb_info :=
    SbInfo v (ifree_bitmap r) (bfree_bitmap r) (discard_pending r) (bitmap_lock r)
    (s_discard r) (s_journal r) (s_shutdown r).
Definition set_ifree_bitmap (v : Z) (r : sb_info) : sb_info :=
    SbInfo (sbi_disk r) v (bfree_bitmap r) (discard_pending r) (bitmap_lock r) (s_discard r)
    (s_journal r) (s_shutdown r).
Definition set_bfree_bitmap (v : Z) (r : sb_info) : sb_info :=
    SbInfo (sbi_disk r) (ifree_bitmap r) v (discard_pending r) (bitmap_lock r) (s_discard r)
    (s_journal r) (s_shutdown r).
Definition set_discard_pending (v : option Z) (r : sb_info) : sb_info :=
    SbInfo (sbi_disk r) (ifree_bitmap r) (bfree_bitmap r) v (bitmap_lock r) (s_discard r)
    (s_journal r) (s_shutdown r).
Definition set_bitmap_lock (v : bool) (r : sb_info) : sb_info :=
    SbInfo (sbi_disk r) (ifree_bitmap r) (bfree_bitmap r) (discard_pending r) v (s_discard
    r) (s_journal r) (s_shutdown r).
Definition set_s_discard (v : bool) (r : sb_info) : sb_info :=
    SbInfo (sbi_disk r) (ifree_bitmap r) (bfree_bitmap r) (discard_pending r) (bitmap_lock
    r) v (s_journal r) (s_shutdown r).
Definition set_s_journal (v : option journal) (r : sb_info) : sb_info :=
    SbInfo (sbi_disk r) (ifree_bitmap r) (bfree_bitmap r) (discard_pending r) (bitmap_lock
    r) (s_discard r) v (s_shutdown r).
Definition set_s_shutdown (v : bool) (r : sb_info) : sb_info :=
    SbInfo (sbi_disk r) (ifree_bitmap r) (bfree_bitmap r) (discard_pending r) (bitmap_lock
    r) (s_discard r) (s_journal r) v.

Definition upd_disk (f : sb_disk -> sb_disk) (s : sb_info) : sb_info :=
  set_sbi_disk (f (sbi_disk s)) s.

(** ** Directory index: [struct simplefs_dir_index]

    A name is the zero-padded 256-byte image of its characters.  The hash table
    [names] owns the entry objects, keyed by name; [entries] maps a slot to the
    key of the object it points to, so a change to an object is seen through
    both.  [di_blocks] is the valid prefix of the block array ([nr_blocks] is
    its length). *)

Record dir_name := DirName { dn_ino : Z; dn_slot : Z }.
Record dir_index := DirIndex {
  di_mapping : extent_buffer;
  di_names : gmap Z dir_name;
  di_entries : gmap Z Z;
  di_used : Z;
  di_blocks : list Z;
  di_nr_files : Z;
  di_capacity : Z;
  di_next_free : Z;
  di_valid : bool
}.
Definition set_di_mapping (v : extent_buffer) (r : dir_index) : dir_index :=
    DirIndex v (di_names r) (di_entries r) (di_used r) (di_blocks r) (di_nr_files r)
    (di_capacity r) (di_next_free r) (di_valid r).
Definition set_di_names (v : gmap Z dir_name) (r : dir_index) : dir_index :=
    DirIndex (di_mapping r) v (di_entries r) (di_used r) (di_blocks r) (di_nr_files r)
    (di_capacity r) (di_next_free r) (di_valid r).
Definition set_di_entries (v : gmap Z Z) (r : dir_index) : dir_index :=
    DirIndex (di_mapping r) (di_names r) v (di_used r) (di_blocks r) (di_nr_files r)
    (di_capacity r) (di_next_free r) (di_valid r).
Definition set_di_used (v : Z) (r : dir_index) : dir_index :=
    DirIndex (di_mapping r) (di_names r) (di_entries r) v (di_blocks r) (di_nr_files r)
    (di_capacity r) (di_next_free r) (di_valid r).
Definition set_di_blocks (v : list Z) (r : dir_index) : dir_index :=
    DirIndex (di_mapping r) (di_names r) (di_entries r) (di_used r) v (di_nr_files r)
    (di_capacity r) (di_next_free r) (di_valid r).
Definition set_di_nr_files (v : Z) (r : dir_index) : dir_index :=
    DirIndex (di_mapping r) (di_names r) (di_entries r) (di_used r) (di_blocks r) v
    (di_capacity r) (di_next_free r) (di_valid r).
Definition set_di_capacity (v : Z) (r : dir_index) : dir_index :=
    DirIndex (di_mapping r) (di_names r) (di_entries r) (di_used r) (di_blocks r)
    (di_nr_files r) v (di_next_free r) (di_valid r).
Definition set_di_next_free (v : Z) (r : dir_index) : dir_index :=
    DirIndex (di_mapping r) (di_names r) (di_entries r) (di_used r) (di_blocks r)
    (di_nr_files r) (di_capacity r) v (di_valid r).
Definition set_di_valid (v : bool) (r : dir_index) : dir_index :=
    DirIndex (di_mapping r) (di_names r) (di_entries r) (di_used r) (di_blocks r)
    (di_nr_files r) (di_capacity r) (di_next_free r) v.
Definition di_nr_blocks (ix : dir_index) : Z := Z.of_nat (length (di_blocks ix)).

(** ** In-core inode: the VFS fields the code uses and [struct simplefs_inode_info]

    [i_blocks] counts 512-byte sectors, as the VFS does; [i_data] is the image
    of the 32-byte array. *)

Record inode := Inode {
  i_ino : Z;
  i_mode : Z;
  i_uid : Z;
  i_gid : Z;
  i_size : Z;
  i_ctime : Z;
  i_ctime_nsec : Z;
  i_atime : Z;
  i_atime_nsec : Z;
  i_mtime : Z;
  i_mtime_nsec : Z;
  i_blocks : Z;
  i_nlink : Z;
  i_generation : Z;
  i_rdev : Z;
  i_vfs_flags : Z;
  ei_block : Z;
  i_xattr_block : Z;
  i_flags : Z;
  i_crtime : Z;
  i_crtime_nsec : Z;
  i_data : Z;
  prealloc_block : Z;
  prealloc_len : Z;
  i_dir_index : option dir_index
}.
Definition set_i_ino (v : Z) (r : inode) : inode :=
    Inode v (i_mode r) (i_uid r) (i_gid r) (i_size r) (i_ctime r) (i_ctime_nsec r) (i_atime
    r) (i_atime_nsec r) (i_mtime r) (i_mtime_nsec r) (i_blocks r) (i_nlink r) (i_generation
    r) (i_rdev r) (i_vfs_flags r) (ei_block r) (i_xattr_block r) (i_flags r) (i_crtime r)
    (i_crtime_nsec r) (i_data r) (prealloc_block r) (prealloc_len r) (i_dir_index r).
Definition set_i_mode (v : Z) (r : inode) : inode :=
    Inode (i_ino r) v (i_uid r) (i_gid r) (i_size r) (i_ctime r) (i_ctime_nsec r) (i_atime
    r) (i_atime_nsec r) (i_mtime r) (i_mtime_nsec r) (i_blocks r) (i_nlink r) (i_generation
    r) (i_rdev r) (i_vfs_flags r) (ei_block r) (i_xattr_block r) (i_flags r) (i_crtime r)
    (i_crtime_nsec r) (i_data r) (prealloc_block r) (prealloc_len r) (i_dir_index r).
Definition set_i_uid (v : Z) (r : inode) : inode :=
    Inode (i_ino r) (i_mode r) v (i_gid r) (i_size r) (i_ctime r) (i_ctime_nsec r) (i_atime
    r) (i_atime_nsec r) (i_mtime r) (i_mtime_nsec r) (i_blocks r) (i_nlink r) (i_generation
    r) (i_rdev r) (i_vfs_flags r) (ei_block r) (i_xattr_block r) (i_flags r) (i_crtime r)
    (i_crtime_nsec r) (i_data r) (prealloc_block r) (prealloc_len r) (i_dir_index r).
Definition set_i_gid (v : Z) (r : inode) : inode :=
    Inode (i_ino r) (i_mode r) (i_uid r) v (i_size r) (i_ctime r) (i_ctime_nsec r) (i_atime
    r) (i_atime_nsec r) (i_mtime r) (i_mtime_nsec r) (i_blocks r) (i_nlink r) (i_generation
    r) (i_rdev r) (i_vfs_flags r) (ei_block r) (i_xattr_block r) (i_flags r) (i_crtime r)
    (i_crtime_nsec r) (i_data r) (prealloc_block r) (prealloc_len r) (i_dir_index r).
Definition set_i_size (v : Z) (r : inode) : inode :=
    Inode (i_ino r) (i_mode r) (i_uid r) (i_gid r) v (i_ctime r) (i_ctime_nsec r) (i_atime
    r) (i_atime_nsec r) (i_mtime r) (i_mtime_nsec r) (i_blocks r) (i_nlink r) (i_generation
    r) (i_rdev r) (i_vfs_flags r) (ei_block r) (i_xattr_block r) (i_flags r) (i_crtime r)
    (i_crtime_nsec r) (i_data r) (prealloc_block r) (prealloc_len r) (i_dir_index r).
Definition set_i_ctime (v : Z) (r : inode) : inode :=
    Inode (i_ino r) (i_mode r) (i_uid r) (i_gid r) (i_size r) v (i_ctime_nsec r) (i_atime r)
    (i_atime_nsec r) (i_mtime r) (i_mtime_nsec r) (i_blocks r) (i_nlink r) (i_generation r)
    (i_rdev r) (i_vfs_flags r) (ei_block r) (i_xattr_block r) (i_flags r) (i_crtime r)
    (i_crtime_nsec r) (i_data r) (prealloc_block r) (prealloc_len r) (i_dir_index r).
Definition set_i_ctime_nsec (v : Z) (r : inode) : inode :=
    Inode (i_ino r) (i_mode r) (i_uid r) (i_gid r) (i_size r) (i_ctime r) v (i_atime r)
    (i_atime_nsec r) (i_mtime r) (i_mtime_nsec r) (i_blocks r) (i_nlink r) (i_generation r)
    (i_rdev r) (i_vfs_flags r) (ei_block r) (i_xattr_block r) (i_flags r) (i_crtime r)
    (i_crtime_nsec r) (i_data r) (prealloc_block r) (prealloc_len r) (i_dir_index r).
Definition set_i_atime (v : Z) (r : inode) : inode :=
    Inode (i_ino r) (i_mode r) (i_uid r) (i_gid r) (i_size r) (i_ctime r) (i_ctime_nsec r) v
    (i_atime_nsec r) (i_mtime r) (i_mtime_nsec r) (i_blocks r) (i_nlink r) (i_generation r)
    (i_rdev r) (i_vfs_flags r) (ei_block r) (i_xattr_block r) (i_flags r) (i_crtime r)
    (i_crtime_nsec r) (i_data r) (prealloc_block r) (prealloc_len r) (i_dir_index r).
Definition set_i_atime_nsec (v : Z) (r : inode) : inode :=
    Inode (i_ino r) (i_mode r) (i_uid r) (i_gid r) (i_size r) (i_ctime r) (i_ctime_nsec r)
    (i_atime r) v (i_mtime r) (i_mtime_nsec r) (i_blocks r) (i_nlink r) (i_generation r)
    (i_rdev r) (i_vfs_flags r) (ei_block r) (i_xattr_block r) (i_flags r) (i_crtime r)
    (i_crtime_nsec r) (i_data r) (prealloc_block r) (prealloc_len r) (i_dir_index r).
Definition set_i_mtime (v : Z) (r : inode) : inode :=
    Inode (i_ino r) (i_mode r) (i_uid r) (i_gid r) (i_size r) (i_ctime r) (i_ctime_nsec r)
    (i_atime r) (i_atime_nsec r) v (i_mtime_nsec r) (i_blocks r) (i_nlink r) (i_generation
    r) (i_rdev r) (i_vfs_flags r) (ei_block r) (i_xattr_block r) (i_flags r) (i_crtime r)
    (i_crtime_nsec r) (i_data r) (prealloc_block r) (prealloc_len r) (i_dir_index r).
Definition set_i_mtime_nsec (v : Z) (r : inode) : inode :=
    Inode (i_ino r) (i_mode r) (i_uid r) (i_gid r) (i_size r) (i_ctime r) (i_ctime_nsec r)
    (i_atime r) (i_atime_nsec r) (i_mtime r) v (i_blocks r) (i_nlink r) (i_generation r)
    (i_rdev r) (i_vfs_flags r) (ei_block r) (i_xattr_block r) (i_flags r) (i_crtime r)
    (i_crtime_nsec r) (i_data r) (prealloc_block r) (prealloc_len r) (i_dir_index r).
Definition set_i_blocks (v : Z) (r : inode) : inode :=
    Inode (i_ino r) (i_mode r) (i_uid r) (i_gid r) (i_size r) (i_ctime r) (i_ctime_nsec r)
    (i_atime r) (i_atime_nsec r) (i_mtime r) (i_mtime_nsec r) v (i_nlink r) (i_generation r)
    (i_rdev r) (i_vfs_flags r) (ei_block r) (i_xattr_block r) (i_flags r) (i_crtime r)
    (i_crtime_nsec r) (i_data r) (prealloc_block r) (prealloc_len r) (i_dir_index r).
Definition set_i_nlink (v : Z) (r : inode) : inode :=
    Inode (i_ino r) (i_mode r) (i_uid r) (i_gid r) (i_size r) (i_ctime r) (i_ctime_nsec r)
    (i_atime r) (i_atime_nsec r) (i_mtime r) (i_mtime_nsec r) (i_blocks r) v (i_generation
    r) (i_rdev r) (i_vfs_flags r) (ei_block r) (i_xattr_block r) (i_flags r) (i_crtime r)
    (i_crtime_nsec r) (i_data r) (prealloc_block r) (prealloc_len r) (i_dir_index r).
Definition set_i_generation (v : Z) (r : inode) : inode :=
    Inode (i_ino r) (i_mode r) (i_uid r) (i_gid r) (i_size r) (i_ctime r) (i_ctime_nsec r)
    (i_atime r) (i_atime_nsec r) (i_mtime r) (i_mtime_nsec r) (i_blocks r) (i_nlink r) v
    (i_rdev r) (i_vfs_flags r) (ei_block r) (i_xattr_block r) (i_flags r) (i_crtime r)
    (i_crtime_nsec r) (i_data r) (prealloc_block r) (prealloc_len r) (i_dir_index r).
Definition set_i_rdev (v : Z) (r : inode) : inode :=
    Inode (i_ino r) (i_mode r) (i_uid r) (i_gid r) (i_size r) (i_ctime r) (i_ctime_nsec r)
    (i_atime r) (i_atime_nsec r) (i_mtime r) (i_mtime_nsec r) (i_blocks r) (i_nlink r)
    (i_generation r) v (i_vfs_flags r) (ei_block r) (i_xattr_block r) (i_flags r) (i_crtime
    r) (i_crtime_nsec r) (i_data r) (prealloc_block r) (prealloc_len r) (i_dir_index r).
Definition set_i_vfs_flags (v : Z) (r : inode) : inode :=
    Inode (i_ino r) (i_mode r) (i_uid r) (i_gid r) (i_size r) (i_ctime r) (i_ctime_nsec r)
    (i_atime r) (i_atime_nsec r) (i_mtime r) (i_mtime_nsec r) (i_blocks r) (i_nlink r)
    (i_generation r) (i_rdev r) v (ei_block r) (i_xattr_block r) (i_flags r) (i_crtime r)
    (i_crtime_nsec r) (i_data r) (prealloc_block r) (prealloc_len r) (i_dir_index r).
Definition set_ei_block (v : Z) (r : inode) : inode :=
    Inode (i_ino r) (i_mode r) (i_uid r) (i_gid r) (i_size r) (i_ctime r) (i_ctime_nsec r)
    (i_atime r) (i_atime_nsec r) (i_mtime r) (i_mtime_nsec r) (i_blocks r) (i_nlink r)
    (i_generation r) (i_rdev r) (i_vfs_flags r) v (i_xattr_block r) (i_flags r) (i_crtime r)
    (i_crtime_nsec r) (i_data r) (prealloc_block r) (prealloc_len r) (i_dir_index r).
Definition set_i_xattr_block (v : Z) (r : inode) : inode :=
    Inode (i_ino r) (i_mode r) (i_uid r) (i_gid r) (i_size r) (i_ctime r) (i_ctime_nsec r)
    (i_atime r) (i_atime_nsec r) (i_mtime r) (i_mtime_nsec r) (i_blocks r) (i_nlink r)
    (i_generation r) (i_rdev r) (i_vfs_flags r) (ei_block r) v (i_flags r) (i_crtime r)
    (i_crtime_nsec r) (i_data r) (prealloc_block r) (prealloc_len r) (i_dir_index r).
Definition set_i_flags (v : Z) (r : inode) : inode :=
    Inode (i_ino r) (i_mode r) (i_uid r) (i_gid r) (i_size r) (i_ctime r) (i_ctime_nsec r)
    (i_atime r) (i_atime_nsec r) (i_mtime r) (i_mtime_nsec r) (i_blocks r) (i_nlink r)
    (i_generation r) (i_rdev r) (i_vfs_flags r) (ei_block r) (i_xattr_block r) v (i_crtime
    r) (i_crtime_nsec r) (i_data r) (prealloc_block r) (prealloc_len r) (i_dir_index r).
Definition set_i_crtime (v : Z) (r : inode) : inode :=
    Inode (i_ino r) (i_mode r) (i_uid r) (i_gid r) (i_size r) (i_ctime r) (i_ctime_nsec r)
    (i_atime r) (i_atime_nsec r) (i_mtime r) (i_mtime_nsec r) (i_blocks r) (i_nlink r)
    (i_generation r) (i_rdev r) (i_vfs_flags r) (ei_block r) (i_xattr_block r) (i_flags r) v
    (i_crtime_nsec r) (i_data r) (prealloc_block r) (prealloc_len r) (i_dir_index r).
Definition set_i_crtime_nsec (v : Z) (r : inode) : inode :=
    Inode (i_ino r) (i_mode r) (i_uid r) (i_gid r) (i_size r) (i_ctime r) (i_ctime_nsec r)
    (i_atime r) (i_atime_nsec r) (i_mtime r) (i_mtime_nsec r) (i_blocks r) (i_nlink r)
    (i_generation r) (i_rdev r) (i_vfs_flags r) (ei_block r) (i_xattr_block r) (i_flags r)
    (i_crtime r) v (i_data r) (prealloc_block r) (prealloc_len r) (i_dir_index r).
Definition set_i_data (v : Z) (r : inode) : inode :=
    Inode (i_ino r) (i_mode r) (i_uid r) (i_gid r) (i_size r) (i_ctime r) (i_ctime_nsec r)
    (i_atime r) (i_atime_nsec r) (i_mtime r) (i_mtime_nsec r) (i_blocks r) (i_nlink r)
    (i_generation r) (i_rdev r) (i_vfs_flags r) (ei_block r) (i_xattr_block r) (i_flags r)
    (i_crtime r) (i_crtime_nsec r) v (prealloc_block r) (prealloc_len r) (i_dir_index r).
Definition set_prealloc_block (v : Z) (r : inode) : inode :=
    Inode (i_ino r) (i_mode r) (i_uid r) (i_gid r) (i_size r) (i_ctime r) (i_ctime_nsec r)
    (i_atime r) (i_atime_nsec r) (i_mtime r) (i_mtime_nsec r) (i_blocks r) (i_nlink r)
    (i_generation r) (i_rdev r) (i_vfs_flags r) (ei_block r) (i_xattr_block r) (i_flags r)
    (i_crtime r) (i_crtime_nsec r) (i_data r) v (prealloc_len r) (i_dir_index r).
Definition set_prealloc_len (v : Z) (r : inode) : inode :=
    Inode (i_ino r) (i_mode r) (i_uid r) (i_gid r) (i_size r) (i_ctime r) (i_ctime_nsec r)
    (i_atime r) (i_atime_nsec r) (i_mtime r) (i_mtime_nsec r) (i_blocks r) (i_nlink r)
    (i_generation r) (i_rdev r) (i_vfs_flags r) (ei_block r) (i_xattr_block r) (i_flags r)
    (i_crtime r) (i_crtime_nsec r) (i_data r) (prealloc_block r) v (i_dir_index r).
Definition set_i_dir_index (v : option dir_index) (r : inode) : inode :=
    Inode (i_ino r) (i_mode r) (i_uid r) (i_gid r) (i_size r) (i_ctime r) (i_ctime_nsec r)
    (i_atime r) (i_atime_nsec r) (i_mtime r) (i_mtime_nsec r) (i_blocks r) (i_nlink r)
    (i_generation r) (i_rdev r) (i_vfs_flags r) (ei_block r) (i_xattr_block r) (i_flags r)
    (i_crtime r) (i_crtime_nsec r) (i_data r) (prealloc_block r) (prealloc_len r) v.

(** The object a number with no in-core inode stands for. *)
Definition default_inode : inode :=
  Inode 0 0 0 0 0 0 0 0 0 0 0 0 0 0 0 0 0 0 0 0 0 0 0 0 None.

(** The device numbers of the kernel: [MAJOR], [MINOR] and [MKDEV] of
    <linux/kdev_t.h>. *)
Definition MAJOR (dev : Z) : Z := Z.shiftr dev 20.
Definition MINOR (dev : Z) : Z := Z.land dev (Z.ones 20).
Definition MKDEV (major minor : Z) : Z := Z.lor (Z.shiftl major 20) minor.

(** ** The environment

    [kstep] answers a call.  [old_encode_dev] and [old_decode_dev] are the
    kernel's packing of a device number, [slab_inode] what a new object of the
    inode cache holds: [kmem_cache_alloc] does not clear it.  [jbd2_replay] is
    what the recovery of a loaded journal leaves in the block-device mapping. *)

Class Kernel := {
  KW : Type;
  kstep : KW -> kcall -> Z * KW;
  old_encode_dev : Z -> Z;
  old_decode_dev : Z -> Z;
  slab_inode : KW -> inode;
  jbd2_replay : KW -> gmap Z Z -> gmap Z Z
}.

(** ** The world *)

Section World.
Context {K : Kernel}.

Record world := World {
  w_kernel : KW;
  w_trace : list (kcall * Z);
  w_sbi : sb_info;
  w_fs_info : bool;
  w_bdev : gmap Z Z;
  w_inodes : gmap Z inode;
  w_rdonly : bool;
  w_root : bool;
  w_current : Z
}.
Definition set_w_kernel (v : KW) (r : world) : world :=
    World v (w_trace r) (w_sbi r) (w_fs_info r) (w_bdev r) (w_inodes r) (w_rdonly r) (w_root
    r) (w_current r).
Definition set_w_trace (v : list (kcall * Z)) (r : world) : world :=
    World (w_kernel r) v (w_sbi r) (w_fs_info r) (w_bdev r) (w_inodes r) (w_rdonly r)
    (w_root r) (w_current r).
Definition set_w_sbi (v : sb_info) (r : world) : world :=
    World (w_kernel r) (w_trace r) v (w_fs_info r) (w_bdev r) (w_inodes r) (w_rdonly r)
    (w_root r) (w_current r).
Definition set_w_fs_info (v : bool) (r : world) : world :=
    World (w_kernel r) (w_trace r) (w_sbi r) v (w_bdev r) (w_inodes r) (w_rdonly r) (w_root
    r) (w_current r).
Definition set_w_bdev (v : gmap Z Z) (r : world) : world :=
    World (w_kernel r) (w_trace r) (w_sbi r) (w_fs_info r) v (w_inodes r) (w_rdonly r)
    (w_root r) (w_current r).
Definition set_w_inodes (v : gmap Z inode) (r : world) : world :=
    World (w_kernel r) (w_trace r) (w_sbi r) (w_fs_info r) (w_bdev r) v (w_rdonly r) (w_root
    r) (w_current r).
Definition set_w_rdonly (v : bool) (r : world) : world :=
    World (w_kernel r) (w_trace r) (w_sbi r) (w_fs_info r) (w_bdev r) (w_inodes r) v (w_root
    r) (w_current r).
Definition set_w_root (v : bool) (r : world) : world :=
    World (w_kernel r) (w_trace r) (w_sbi r) (w_fs_info r) (w_bdev r) (w_inodes r) (w_rdonly
    r) v (w_current r).
Definition set_w_current (v : Z) (r : world) : world :=
    World (w_kernel r) (w_trace r) (w_sbi r) (w_fs_info r) (w_bdev r) (w_inodes r) (w_rdonly
    r) (w_root r) v.

End World.

(** ** Effects *)

Section Effects.
Context {K : Kernel}.

Definition M (A : Type) : Type := ST world A.

Definition kdo (c : kcall) : M Z := fun w =>
  let '(r, k) := kstep (w_kernel w) c in
  (r, set_w_trace ((c, r) :: w_trace w) (set_w_kernel k w)).

(** An allocation: does it succeed? *)
Definition kmalloc : M bool := bind (kdo Kmalloc) (fun r => ret (r =? 0)).

Definition get_sbi : M sb_info := gets w_sbi.
Definition upd_sbi (f : sb_info -> sb_info) : M unit :=
  modify (fun w => set_w_sbi (f (w_sbi w)) w).

(** The image of metadata block [n] in the block-device mapping. *)
Definition block_image (w : world) (n : Z) : Z := default 0 (w_bdev w !! n).
Definition read_image (n : Z) : M Z := gets (fun w => block_image w n).
Definition write_image (n img : Z) : M unit :=
  modify (fun w => set_w_bdev (<[n := img]> (w_bdev w)) w).

Definition inode_of (w : world) (ino : Z) : inode := default default_inode (w_inodes w !! ino).
Definition get_inode (ino : Z) : M inode := gets (fun w => inode_of w ino).
Definition upd_inode (ino : Z) (f : inode -> inode) : M unit :=
  modify (fun w => set_w_inodes (<[ino := f (inode_of w ino)]> (w_inodes w)) w).

(** [mutex_lock]/[mutex_unlock] of [bitmap_lock]: the flag records who holds it. *)
Definition lock_bitmap : M unit := upd_sbi (set_bitmap_lock true).
Definition unlock_bitmap : M unit := upd_sbi (set_bitmap_lock false).

End Effects.

(** ** Frame and weakest-precondition rules of the effects *)

Section Rules.
Context {K : Kernel}.

Lemma frame_kdo_sbi c : frame w_sbi (kdo c).
Proof. intros w. unfold kdo. by destruct (kstep _ _). Qed.
Lemma frame_kdo_bdev c : frame w_bdev (kdo c).
Proof. intros w. unfold kdo. by destruct (kstep _ _). Qed.
Lemma frame_kdo_inodes c : frame w_inodes (kdo c).
Proof. intros w. unfold kdo. by destruct (kstep _ _). Qed.
Lemma frame_kdo_current c : frame w_current (kdo c).
Proof. intros w. unfold kdo. by destruct (kstep _ _). Qed.
Lemma frame_kdo_fs_info c : frame w_fs_info (kdo c).
Proof. intros w. unfold kdo. by destruct (kstep _ _). Qed.
Lemma frame_kdo_rdonly c : frame w_rdonly (kdo c).
Proof. intros w. unfold kdo. by destruct (kstep _ _). Qed.

(** A call changes only the environment and the trace. *)
Lemma wp_kdo c (Q : Z -> world -> Prop) w :
  (forall r k, kstep (w_kernel w) c = (r, k) ->
     Q r (set_w_trace ((c, r) :: w_trace w) (set_w_kernel k w))) ->
  wp (kdo c) Q w.
Proof. intros H. unfold wp, kdo. destruct (kstep _ c) eqn:E. by apply H. Qed.

Lemma frame_kmalloc {B} (f : world -> B) : (forall c, frame f (kdo c)) -> frame f kmalloc.
Proof. intros H. unfold kmalloc. frames. Qed.

Lemma frame_upd_sbi_bdev g : frame w_bdev (upd_sbi g).
Proof. by intros w. Qed.
Lemma frame_upd_sbi_inodes g : frame w_inodes (upd_sbi g).
Proof. by intros w. Qed.
Lemma frame_upd_sbi_current g : frame w_current (upd_sbi g).
Proof. by intros w. Qed.
Lemma frame_write_image_sbi n v : frame w_sbi (write_image n v).
Proof. by intros w. Qed.
Lemma frame_write_image_inodes n v : frame w_inodes (write_image n v).
Proof. by intros w. Qed.
Lemma frame_upd_inode_sbi n g : frame w_sbi (upd_inode n g).
Proof. by intros w. Qed.
Lemma frame_upd_inode_bdev n g : frame w_bdev (upd_inode n g).
Proof. by intros w. Qed.

(** A frame of the superblock information narrows to any of its fields. *)
Lemma frame_field {A B} (g : sb_info -> B) (m : M A) :
  frame w_sbi m -> frame (fun w => g (w_sbi w)) m.
Proof. intros H w. by rewrite H. Qed.

Lemma frame_upd_sbi_field {B} (g : sb_info -> B) f :
  (forall s, g (f s) = g s) -> frame (fun w => g (w_sbi w)) (upd_sbi f).
Proof. intros H w. apply H. Qed.

Lemma block_image_insert w n v m :
  block_image (set_w_bdev (<[n := v]> (w_bdev w)) w) m =
  if decide (n = m) then v else block_image w m.
Proof.
  unfold block_image. simpl. rewrite lookup_insert. by destruct (decide (n = m)).
Qed.

End Rules.

#[export] Hint Resolve frame_kdo_sbi frame_kdo_bdev frame_kdo_inodes frame_kdo_current
  frame_kdo_fs_info frame_kdo_rdonly frame_kmalloc frame_upd_sbi_bdev
  frame_upd_sbi_inodes frame_upd_sbi_current frame_write_image_sbi
  frame_write_image_inodes frame_upd_inode_sbi frame_upd_inode_bdev : frame.

(** Symbolic execution through the effects that only touch [world]. *)
Ltac kwp_step :=
  match goal with
  | |- wp get_sbi _ _ => unfold get_sbi
  | |- wp (upd_sbi _) _ _ => unfold upd_sbi
  | |- wp lock_bitmap _ _ => unfold lock_bitmap
  | |- wp unlock_bitmap _ _ => unfold unlock_bitmap
  | |- wp (read_image _) _ _ => unfold read_image
  | |- wp (write_image _ _) _ _ => unfold write_image
  | |- wp (get_inode _) _ _ => unfold get_inode
  | |- wp (upd_inode _ _) _ _ => unfold upd_inode
  | |- wp kmalloc _ _ => unfold kmalloc
  | |- wp (kdo _) _ _ => apply wp_kdo; intros ?r ?k ?Hk
  | |- wp _ _ _ => wp_step
  end.
Ltac kwp := repeat (kwp_step; cbv beta).
(** The same, splitting on the tests of the code. *)
Ltac kwpc :=
  repeat (first [kwp_step; cbv beta
                | match goal with |- wp (if ?b then _ else _) _ _ => destruct b eqn:? end]).

(** ** A concrete environment for witnesses

    Every call succeeds: allocations and I/O return 0, JBD2 hands out handle 1
    with a large revoke budget, buffers carry no old journal lifetime.  The
    state counts the calls. *)
Definition ok_answer (c : kcall) : Z :=
  match c with
  | Jbd2Start _ => 1
  | HRevokeCredits _ => 64
  | BufferUptodate _ => 1
  | BdevDiscardGranularity => 4096
  | GetRandomU32 => 7
  | DirEmitDots _ => 2
  | BdevLogicalBlockSize => 512
  | MappingMapped _ => 1
  | _ => 0
  end.
Definition ok_kernel : Kernel := {|
  KW := nat;
  kstep := fun n c => (ok_answer c, S n);
  old_encode_dev := fun d => Z.land (Z.lor (Z.shiftl (MAJOR d) 8) (MINOR d)) (Z.ones 16);
  old_decode_dev := fun v => MKDEV (Z.land (Z.shiftr v 8) 255) (Z.land v 255);
  slab_inode := fun _ => default_inode;
  jbd2_replay := fun _ m => m
|}.
