(* ===== verification/DiskFormat.v ===== *)
(** * DiskFormat: the structures of simplefs.h inside block images

    Readers and writers of arrays of 32-bit words, extents, extent indexes,
    superblock fields and inode records at their byte offsets, with the round
    trips and the non-interference of disjoint regions. *)

From stdpp Require Import base list numbers gmap.
From S2P Require Import Prelude Image Layout Kernel.

Local Open Scope Z_scope.

(** ** Arrays of 32-bit words *)

Fixpoint get_words (img off : Z) (n : nat) : list Z :=
  match n with
  | O => []
  | S n' => get_u32 img off :: get_words img (off + 4) n'
  end.

Fixpoint put_words (img off : Z) (l : list Z) : Z :=
  match l with
  | [] => img
  | x :: l' => put_words (put_u32 img off x) (off + 4) l'
  end.

(** A bit range apart from the written words is unchanged. *)
Lemma put_words_slice l : forall img off p m,
  0 <= off -> 0 <= p -> 0 <= m ->
  p + m <= 8 * off \/ 8 * (off + 4 * Z.of_nat (length l)) <= p ->
  slice (put_words img off l) p m = slice img p m.
Proof.
  induction l as [|x l IH]; intros img off p m Ho Hp Hm H; cbn [put_words length]; [done|].
  cbn [length] in H. rewrite IH by lia. unfold put_u32. apply slice_splice_disjoint; lia.
Qed.

Lemma get_words_ext n : forall img img' off,
  (forall k, 0 <= k < Z.of_nat n -> get_u32 img (off + 4 * k) = get_u32 img' (off + 4 * k)) ->
  get_words img off n = get_words img' off n.
Proof.
  induction n as [|n IH]; intros img img' off H; cbn [get_words]; [done|].
  f_equal.
  - specialize (H 0). replace (off + 4 * 0) with off in H by lia. apply H. lia.
  - apply IH. intros k Hk. specialize (H (k + 1)).
    replace (off + 4 + 4 * k) with (off + 4 * (k + 1)) by lia. apply H. lia.
Qed.

Lemma get_put_words l : forall img off,
  0 <= off -> Forall is_u32 l -> get_words (put_words img off l) off (length l) = l.
Proof.
  induction l as [|x l IH]; intros img off Ho Hl; cbn [get_words put_words length]; [done|].
  apply Forall_cons in Hl as [Hx Hl]. f_equal.
  - unfold get_u32 at 1. rewrite put_words_slice by lia. by apply get_put_u32.
  - apply IH; [lia|done].
Qed.

Lemma get_words_length img n : forall off, length (get_words img off n) = n.
Proof. induction n as [|n IH]; intros off; cbn; [done|]. by rewrite IH. Qed.

Lemma get_words_u32 img n : forall off, Forall is_u32 (get_words img off n).
Proof.
  induction n as [|n IH]; intros off; cbn; constructor; [apply get_u32_range|apply IH].
Qed.

Lemma get_words_app img n m : forall off,
  get_words img off (n + m) = get_words img off n ++ get_words img (off + 4 * Z.of_nat n) m.
Proof.
  induction n as [|n IH]; intros off; cbn [get_words Nat.add app].
  - f_equal. lia.
  - rewrite IH. do 3 f_equal. lia.
Qed.

(** ** Extents *)

Definition ext_u32 (e : extent) : Prop :=
  is_u32 (ee_block e) /\ is_u32 (ee_len e) /\ is_u32 (ee_start e).

Definition ext_words (e : extent) : list Z := [ee_block e; ee_len e; ee_start e].

Definition get_extent (img off : Z) : extent :=
  Extent (get_u32 img off) (get_u32 img (off + 4)) (get_u32 img (off + 8)).

Fixpoint get_extents (img off : Z) (n : nat) : list extent :=
  match n with
  | O => []
  | S n' => get_extent img off :: get_extents img (off + sizeof_extent) n'
  end.

Definition put_extents (img off : Z) (l : list extent) : Z :=
  put_words img off (concat (map ext_words l)).

Lemma length_ext_words l : length (concat (map ext_words l)) = (3 * length l)%nat.
Proof. induction l; simpl in *; lia. Qed.

Lemma put_extents_slice l img off p m :
  0 <= off -> 0 <= p -> 0 <= m ->
  p + m <= 8 * off \/ 8 * (off + 12 * Z.of_nat (length l)) <= p ->
  slice (put_extents img off l) p m = slice img p m.
Proof.
  intros. unfold put_extents. apply put_words_slice; try lia. rewrite length_ext_words. lia.
Qed.

Lemma get_put_extents l : forall img off,
  0 <= off -> Forall ext_u32 l -> get_extents (put_extents img off l) off (length l) = l.
Proof.
  induction l as [|e l IH]; intros img off Ho Hl; cbn [get_extents length]; [done|].
  apply Forall_cons in Hl as [(Hb & Hn & Hs) Hl].
  unfold put_extents. cbn [map concat ext_words app put_words].
  set (img' := put_u32 _ _ _). f_equal.
  - unfold get_extent, get_u32. rewrite !put_words_slice by lia. subst img'.
    destruct e as [eb el es]; cbn [ee_block ee_len ee_start] in *. f_equal.
    + unfold put_u32. rewrite !slice_splice_disjoint by lia. by apply get_put_u32.
    + unfold put_u32 at 1. rewrite slice_splice_disjoint by lia. apply get_put_u32; [lia|done].
    + replace (off + 4 + 4) with (off + 8) by lia. apply get_put_u32; [lia|done].
  - unfold sizeof_extent. replace (off + 4 + 4 + 4) with (off + 12) by lia.
    apply (IH img' (off + 12)); [lia|done].
Qed.

Lemma get_extents_u32 img n : forall off, Forall ext_u32 (get_extents img off n).
Proof.
  induction n as [|n IH]; intros off; cbn; constructor; [|apply IH].
  split_and!; apply get_u32_range.
Qed.

Lemma get_extents_length img n : forall off, length (get_extents img off n) = n.
Proof. induction n as [|n IH]; intros off; cbn; [done|]. by rewrite IH. Qed.

(** The extents of a region depend only on its bytes. *)
Lemma get_extents_slice n : forall img img' off,
  0 <= off ->
  (forall p, 8 * off <= p -> p + 32 <= 8 * (off + 12 * Z.of_nat n) -> slice img p 32 = slice img' p 32) ->
  get_extents img off n = get_extents img' off n.
Proof.
  induction n as [|n IH]; intros img img' off Ho H; cbn [get_extents]; [done|].
  f_equal.
  - unfold get_extent, get_u32. f_equal; apply H; lia.
  - unfold sizeof_extent. apply IH; [lia|]. intros p Hp Hp'. apply H; lia.
Qed.

(** ** Extent root and leaf headers

    Both headers start with a 32-bit magic and a 16-bit entry count; the last
    half-word is the depth of a root and the capacity of a leaf. *)

Definition eh_magic (img : Z) : Z := get_u32 img 0.
Definition eh_entries (img : Z) : Z := get_u16 img 4.
Definition eh_depth (img : Z) : Z := get_u16 img 6.
Definition eh_max (img : Z) : Z := get_u16 img 6.

Record extent_index := ExtentIndex {
  ix_block : Z; ix_leaf_block : Z; ix_nr_extents : Z; ix_last_block : Z
}.
Definition index_words (x : extent_index) : list Z :=
  [ix_block x; ix_leaf_block x; ix_nr_extents x; ix_last_block x].
Definition root_index (img i : Z) : extent_index :=
  let off := sizeof_extent_root_header + i * sizeof_extent_index in
  ExtentIndex (get_u32 img off) (get_u32 img (off + 4)) (get_u32 img (off + 8))
              (get_u32 img (off + 12)).
Definition put_root_index (img i : Z) (x : extent_index) : Z :=
  put_words img (sizeof_extent_root_header + i * sizeof_extent_index) (index_words x).

(** ** Superblock fields *)

Definition sb_off_magic : Z := 0.
Definition sb_off_nr_free_inodes : Z := 24.
Definition sb_off_nr_free_blocks : Z := 28.
Definition sb_off_volume_name : Z := 44.
Definition sb_off_needs_recovery : Z := 108.
Definition SIMPLEFS_VOLUME_NAME_LEN : Z := 64.

(** [memcpy(sbi, csb, sizeof(struct simplefs_sb_info))], the on-disk part. *)
Definition sb_of_image (img : Z) : sb_disk :=
  SbDisk (get_u32 img 0) (get_u32 img 4) (get_u32 img 8) (get_u32 img 12) (get_u32 img 16)
    (get_u32 img 20) (get_u32 img 24) (get_u32 img 28) (get_u32 img 32) (get_u32 img 36)
    (get_u32 img 40) (get_bytes img 44 64) (get_u32 img 108).

(** ** Inode records *)

Record disk_inode := DiskInode {
  d_mode : Z; d_uid : Z; d_gid : Z; d_size : Z; d_ctime : Z; d_atime : Z; d_mtime : Z;
  d_ctime_nsec : Z; d_atime_nsec : Z; d_mtime_nsec : Z; d_blocks : Z; d_nlink : Z;
  d_ei_block : Z; d_xattr_block : Z; d_generation : Z; d_flags : Z; d_crtime : Z;
  d_crtime_nsec : Z; d_data : Z
}.

Definition inode_words (d : disk_inode) : list Z :=
  [d_mode d; d_uid d; d_gid d; d_size d; d_ctime d; d_atime d; d_mtime d; d_ctime_nsec d;
   d_atime_nsec d; d_mtime_nsec d; d_blocks d; d_nlink d; d_ei_block d; d_xattr_block d;
   d_generation d; d_flags d; d_crtime d; d_crtime_nsec d].

Definition get_disk_inode (img off : Z) : disk_inode :=
  let w k := get_u32 img (off + 4 * k) in
  DiskInode (w 0) (w 1) (w 2) (w 3) (w 4) (w 5) (w 6) (w 7) (w 8) (w 9) (w 10) (w 11) (w 12)
    (w 13) (w 14) (w 15) (w 16) (w 17) (get_bytes img (off + 72) 32).

Definition put_disk_inode (img off : Z) (d : disk_inode) : Z :=
  put_bytes (put_words img off (inode_words d)) (off + 72) 32 (d_data d).

Definition disk_inode_wf (d : disk_inode) : Prop :=
  Forall is_u32 (inode_words d) /\ 0 <= d_data d < 2 ^ 256.

Lemma put_disk_inode_slice img off d p m :
  0 <= off -> 0 <= p -> 0 <= m -> p + m <= 8 * off \/ 8 * (off + 104) <= p ->
  slice (put_disk_inode img off d) p m = slice img p m.
Proof.
  intros. unfold put_disk_inode, put_bytes.
  rewrite slice_splice_disjoint by lia. apply put_words_slice; cbn [length inode_words]; lia.
Qed.

Lemma get_words_18 img off :
  get_words img off 18 = inode_words (get_disk_inode img off).
Proof.
  unfold inode_words, get_disk_inode. cbn [get_words d_mode d_uid d_gid d_size d_ctime d_atime
    d_mtime d_ctime_nsec d_atime_nsec d_mtime_nsec d_blocks d_nlink d_ei_block d_xattr_block
    d_generation d_flags d_crtime d_crtime_nsec].
  rewrite <- !Z.add_assoc. cbn [Z.add Z.mul Pos.add Pos.mul Pos.succ Pos.add_carry].
  by rewrite Z.add_0_r.
Qed.

Lemma get_put_disk_inode img off d :
  0 <= off -> disk_inode_wf d -> get_disk_inode (put_disk_inode img off d) off = d.
Proof.
  intros Ho [Hw Hd].
  assert (Hwords : inode_words (get_disk_inode (put_disk_inode img off d) off) = inode_words d).
  { rewrite <- get_words_18. transitivity (get_words (put_words img off (inode_words d)) off 18).
    - apply get_words_ext. intros k Hk. unfold put_disk_inode, put_bytes, get_u32.
      apply slice_splice_disjoint; lia.
    - by apply (get_put_words (inode_words d)). }
  assert (Hdata : d_data (get_disk_inode (put_disk_inode img off d) off) = d_data d).
  { unfold get_disk_inode, put_disk_inode, get_bytes, put_bytes; cbn [d_data].
    rewrite slice_splice_same by lia. apply slice_small; [lia|]. exact Hd. }
  destruct d; unfold inode_words in Hwords; cbn [d_data] in Hdata.
  destruct (get_disk_inode _ off); cbn in *. by simplify_eq.
Qed.
