(* ===== verification/Discard.v ===== *)
(** * Discard: delayed online discard of freed blocks (simplefs_super.c)

    [simplefs_issue_pending_discards] walks the pending bitmap after a commit,
    merges runs that are still free and sends only whole discard units.  The
    theorem of this file is the safety of that walk: no discard ever touches a
    block that is allocated or was not queued. *)

From stdpp Require Import base list numbers gmap.
From S2P Require Import Prelude Image Layout Kernel.

Local Open Scope Z_scope.
Local Open Scope fs_scope.

(** The kernel's [round_up]/[round_down] on [unsigned long]. *)
Definition round_up (x y : Z) : Z := u64 (Z.lor (u64 (x - 1)) (y - 1) + 1).
Definition round_down (x y : Z) : Z := Z.ldiff x (y - 1).
Definition DIV_ROUND_UP (n d : Z) : Z := (n + d - 1) / d.

Section Discard.
Context {K : Kernel}.

Definition pending (s : sb_info) : Z := default 0 (discard_pending s).

(** End of the run of queued, still free blocks that starts at [block]: the
    inner [while] over [end]. *)
Definition discard_run_end (s : sb_info) (block : Z) : Z :=
  find_next (fun k => negb (test_bit (pending s) k && test_bit (bfree_bitmap s) k))
    (Z.to_nat (nr_blocks s - (block + 1))) (block + 1) (nr_blocks s).

(** The [while (block < nr_blocks)] loop.  Each iteration advances [block], so
    [nr_blocks] iterations are enough. *)
Fixpoint discard_loop (fuel : nat) (gran_blocks block : Z) : M Z :=
  match fuel with
  | O => ret 0
  | S fuel' =>
      let! s := get_sbi in
      if negb (block <? nr_blocks s) then ret 0 else
      let block := find_next_bit (pending s) (nr_blocks s) block in
      if nr_blocks s <=? block then ret 0 else
      if negb (test_bit (bfree_bitmap s) block) then
        run! upd_sbi (fun s => set_discard_pending
                               (option_map (fun p => bitmap_clear p block 1) (discard_pending s)) s) in
        discard_loop fuel' gran_blocks (block + 1)
      else
      let end_ := discard_run_end s block in
      let discard_start := round_up block gran_blocks in
      let discard_end := round_down end_ gran_blocks in
      if discard_end <=? discard_start then discard_loop fuel' gran_blocks end_ else
      let! r := kdo (SbIssueDiscard discard_start (discard_end - discard_start)) in
      if negb (r =? 0) then ret r else
      run! upd_sbi (fun s => set_discard_pending
             (option_map (fun p => bitmap_clear p discard_start (discard_end - discard_start))
                         (discard_pending s)) s) in
      discard_loop fuel' gran_blocks end_
  end.

Definition simplefs_issue_pending_discards : M Z :=
  let! s := get_sbi in
  if negb (s_discard s) || negb (bool_decide (is_Some (discard_pending s))) then ret 0 else
  let! g := kdo BdevDiscardGranularity in
  let granularity := Z.max (u32 g) SIMPLEFS_BLOCK_SIZE in
  let gran_blocks := DIV_ROUND_UP granularity SIMPLEFS_BLOCK_SIZE in
  run! lock_bitmap in
  let! r := discard_loop (Z.to_nat (nr_blocks s)) gran_blocks 0 in
  run! unlock_bitmap in
  ret r.

(** ** Only free, queued blocks are discarded *)

(** What a recorded discard may be, relative to the bitmaps [bf] and [pd] and
    the device's unit [gran]: a range of queued free blocks, made of whole units
    (a device's unit is a power of two). *)
Definition discard_ok (gran size bf pd : Z) (c : kcall) : Prop :=
  match c with
  | SbIssueDiscard n len =>
      0 <= n /\ 0 < len /\ n + len <= size /\ all_set bf n len /\ all_set pd n len /\
      (forall k, 0 <= k <= 64 -> gran = 2 ^ k -> (gran | n) /\ (gran | len))
  | _ => False
  end.

Definition discard_inv (gran : Z) (w0 w : world) : Prop :=
  sbi_disk (w_sbi w) = sbi_disk (w_sbi w0) /\
  bfree_bitmap (w_sbi w) = bfree_bitmap (w_sbi w0) /\
  (forall k, 0 <= k -> test_bit (pending (w_sbi w)) k = true ->
             test_bit (pending (w_sbi w0)) k = true) /\
  exists new, w_trace w = new ++ w_trace w0 /\
    Forall (fun cr => discard_ok gran (nr_blocks (w_sbi w0)) (bfree_bitmap (w_sbi w0))
                                 (pending (w_sbi w0)) cr.1) new.

Lemma lor_ge_l x m : 0 <= x -> 0 <= m -> x <= Z.lor x m.
Proof.
  intros Hx Hm. apply Z.ldiff_le; [apply Z.lor_nonneg; lia|].
  apply Z.bits_inj'. intros i Hi. rewrite Z.ldiff_spec, Z.lor_spec, Z.testbit_0_l.
  by destruct (Z.testbit x i).
Qed.

Lemma lor_lt_pow2 n x m :
  0 <= n -> 0 <= x < 2 ^ n -> 0 <= m < 2 ^ n -> 0 <= Z.lor x m < 2 ^ n.
Proof.
  intros Hn Hx Hm. split; [apply Z.lor_nonneg; lia|].
  rewrite <- (slice_small x n), <- (slice_small m n) by lia.
  assert (Z.lor (slice x 0 n) (slice m 0 n) = slice (Z.lor x m) 0 n) as ->.
  { apply Z.bits_inj'. intros i Hi. rewrite Z.lor_spec, !slice_testbit, Z.lor_spec by lia.
    bit_cases; simpl; try done; lia. }
  by apply slice_lt.
Qed.

Lemma round_up_ge x y :
  0 <= x < 2 ^ 62 -> 0 < y < 2 ^ 62 -> 0 <= x <= round_up x y.
Proof.
  intros Hx Hy. split; [lia|]. unfold round_up.
  assert (0 <= u64 (Z.lor (u64 (x - 1)) (y - 1) + 1)) by (apply Z.mod_pos_bound; lia).
  destruct (Z.eq_dec x 0) as [->|]; [done|].
  unfold u64 in *. rewrite (Z.mod_small (x - 1)) by lia.
  pose proof (lor_ge_l (x - 1) (y - 1)). pose proof (lor_lt_pow2 62 (x - 1) (y - 1)).
  rewrite Z.mod_small by lia. lia.
Qed.

Lemma round_down_le x y : 0 <= x -> round_down x y <= x.
Proof.
  intros. unfold round_down. apply Z.ldiff_le; [done|].
  apply Z.bits_inj'. intros i Hi. rewrite !Z.ldiff_spec, Z.testbit_0_l.
  by destruct (Z.testbit x i), (Z.testbit (y - 1) i).
Qed.

Lemma u64_divide e z : 0 <= e <= 64 -> (2 ^ e | z) -> (2 ^ e | u64 z).
Proof.
  intros He H. unfold u64. rewrite Z.mod_eq by lia. apply Z.divide_sub_r; [done|].
  apply Z.divide_mul_l. exists (2 ^ (64 - e)). rewrite <- Z.pow_add_r by lia.
  by replace (64 - e + e) with 64 by lia.
Qed.

Lemma round_up_divide x e : 0 <= e <= 64 -> (2 ^ e | round_up x (2 ^ e)).
Proof.
  intros He. unfold round_up. apply u64_divide; [done|].
  replace (2 ^ e - 1) with (Z.ones e) by (rewrite Z.ones_equiv; lia).
  set (a := Z.lor _ _). apply Z.mod_divide; [apply Z.pow_nonzero; lia|].
  assert (Ha : a mod 2 ^ e = 2 ^ e - 1).
  { rewrite <- Z.land_ones by lia. unfold a. rewrite Z.land_comm, Z.land_lor_distr_r.
    rewrite Z.land_diag.
    replace (2 ^ e - 1) with (Z.ones e) by (rewrite Z.ones_equiv; lia).
    apply Z.bits_inj'. intros i Hi. rewrite Z.lor_spec, Z.land_spec.
    by destruct (Z.testbit (Z.ones e) i), (Z.testbit (u64 (x - 1)) i). }
  rewrite Z.add_mod, Ha by (apply Z.pow_nonzero; lia).
  pose proof (Z.pow_pos_nonneg 2 e ltac:(lia) ltac:(lia)).
  destruct (Z.eq_dec e 0) as [->|]; [done|].
  rewrite (Z.mod_small 1); [replace (2 ^ e - 1 + 1) with (2 ^ e) by lia; apply Z.mod_same; lia|].
  split; [lia|]. apply Z.pow_gt_1; lia.
Qed.

Lemma round_down_divide x e : 0 <= e -> (2 ^ e | round_down x (2 ^ e)).
Proof.
  intros He. unfold round_down.
  replace (2 ^ e - 1) with (Z.ones e) by (rewrite Z.ones_equiv; lia).
  rewrite Z.ldiff_ones_r, Z.shiftl_mul_pow2 by lia. apply Z.divide_factor_r.
Qed.

(** The run found from a queued free block is queued and free throughout. *)
Lemma discard_run_end_spec (s : sb_info) block :
  0 <= block < nr_blocks s ->
  test_bit (pending s) block = true -> test_bit (bfree_bitmap s) block = true ->
  block < discard_run_end s block <= nr_blocks s /\
  (forall k, block <= k < discard_run_end s block ->
     test_bit (pending s) k = true /\ test_bit (bfree_bitmap s) k = true).
Proof.
  intros Hb Hp Hf. unfold discard_run_end.
  set (p := fun k => negb _).
  destruct (find_next_spec p (Z.to_nat (nr_blocks s - (block + 1))) (block + 1) (nr_blocks s))
    as (H1 & H2 & _); [lia..|].
  split; [lia|]. intros k Hk. destruct (Z.eq_dec k block) as [->|]; [done|].
  apply andb_true_iff, negb_false_iff, H2. lia.
Qed.

(** Clearing part of the queue keeps the invariant. *)
Lemma discard_inv_clear gran w0 w s n :
  0 <= s -> 0 <= n -> discard_inv gran w0 w ->
  discard_inv gran w0 (set_w_sbi (set_discard_pending
     (option_map (fun p => bitmap_clear p s n) (discard_pending (w_sbi w))) (w_sbi w)) w).
Proof.
  intros Hs Hn (H1 & H2 & H3 & H4). split; [done|]. split; [done|]. split; [|done].
  intros k Hk. unfold pending; cbn. specialize (H3 k Hk). unfold pending in H3.
  destruct (discard_pending (w_sbi w)) as [p|]; cbn in *; [|done].
  rewrite bitmap_clear_testbit by done. intros [Hp _]%andb_true_iff. auto.
Qed.

Lemma discard_loop_inv w0 gran fuel : forall block,
  0 < gran < 2 ^ 62 -> 0 <= block -> nr_blocks (w_sbi w0) < 2 ^ 62 ->
  preserves (discard_inv gran w0) (discard_loop fuel gran block).
Proof.
  induction fuel as [|fuel IH]; intros block Hg Hb Hn w Hw; [done|].
  cbn [discard_loop]. unfold get_sbi.
  unfold bind at 1, gets at 1. cbn [fst snd].
  destruct (Z.ltb_spec block (nr_blocks (w_sbi w))); [|done]. cbn [negb].
  pose proof Hw as (Hd & Hbf & Hp & _).
  destruct (find_next_bit_spec (pending (w_sbi w)) (nr_blocks (w_sbi w)) block)
    as (F1 & _ & F3); [lia|].
  set (blk := find_next_bit _ _ _) in *.
  destruct (Z.leb_spec (nr_blocks (w_sbi w)) blk) as [|Hlt]; [done|].
  specialize (F3 Hlt).
  destruct (test_bit (bfree_bitmap (w_sbi w)) blk) eqn:Hfree; cbn [negb].
  2:{ unfold bind at 1, upd_sbi at 1, modify at 1. apply IH; [done|lia|done|].
      apply discard_inv_clear; [lia..|done]. }
  destruct (discard_run_end_spec (w_sbi w) blk) as (R1 & R2); [lia|done..|].
  set (end_ := discard_run_end _ _) in *.
  destruct (Z.leb_spec (round_down end_ gran) (round_up blk gran)).
  { by apply IH; [|lia|..]. }
  rewrite Hd in *.
  pose proof (round_up_ge blk gran ltac:(lia) Hg).
  pose proof (round_down_le end_ gran ltac:(lia)).
  unfold bind at 1, kdo. destruct (kstep _ _) as [r k].
  assert (Hw' : discard_inv gran w0 (set_w_trace
      ((SbIssueDiscard (round_up blk gran) (round_down end_ gran - round_up blk gran), r)
        :: w_trace w) (set_w_kernel k w))).
  { destruct Hw as (_ & _ & _ & new & Ht & Hall).
    split; [done|]. split; [done|]. split; [done|].
    eexists (_ :: new). split; [cbn; by rewrite Ht|]. constructor; [|done].
    cbn. split_and!; try lia.
    - intros j Hj. destruct (R2 j); [lia|]. by rewrite <- Hbf.
    - intros j Hj. destruct (R2 j); [lia|]. apply Hp; [lia|done].
    - intros e He ->. pose proof (round_up_divide blk e He).
      pose proof (round_down_divide end_ e ltac:(lia)).
      split; [done|]. by apply Z.divide_sub_r. }
  destruct (r =? 0); cbn [negb]; [|done].
  unfold bind at 1, upd_sbi at 1, modify at 1. apply IH; [done|lia|done|].
  apply discard_inv_clear; [lia..|done].
Qed.

(** [gran_blocks] of the code, from the device's answer. *)
Definition gran_blocks_of (g : Z) : Z :=
  DIV_ROUND_UP (Z.max (u32 g) SIMPLEFS_BLOCK_SIZE) SIMPLEFS_BLOCK_SIZE.

Lemma gran_blocks_of_bounds g : 0 < gran_blocks_of g < 2 ^ 62.
Proof.
  unfold gran_blocks_of, DIV_ROUND_UP, SIMPLEFS_BLOCK_SIZE.
  pose proof (u32_range g) as Hr. unfold is_u32, U32_MAX in Hr.
  split; [apply Z.div_str_pos; lia|apply Z.div_lt_upper_bound; lia].
Qed.

(** The queue after a walk, relative to the one before: same everything, fewer
    pending bits. *)
Definition drained (s s0 : sb_info) : Prop :=
  sbi_disk s = sbi_disk s0 /\ ifree_bitmap s = ifree_bitmap s0 /\
  bfree_bitmap s = bfree_bitmap s0 /\ s_discard s = s_discard s0 /\
  (is_Some (discard_pending s) <-> is_Some (discard_pending s0)) /\
  (forall k, 0 <= k -> test_bit (pending s) k = true -> test_bit (pending s0) k = true).

Lemma discard_loop_drained gran fuel s0 : forall block,
  preserves (fun w => ifree_bitmap (w_sbi w) = ifree_bitmap s0 /\
                      s_discard (w_sbi w) = s_discard s0 /\
                      (is_Some (discard_pending (w_sbi w)) <-> is_Some (discard_pending s0)))
            (discard_loop fuel gran block).
Proof.
  set (I := fun w => _).
  assert (Hu : forall f, preserves I (upd_sbi (fun s => set_discard_pending
    (option_map f (discard_pending s)) s))).
  { intros f w (H1 & H2 & H3). split_and!; [done..|]. cbn.
    rewrite <- H3. destruct (discard_pending (w_sbi w)); cbn; by split; intros []. }
  induction fuel as [|fuel IH]; intros block; cbn [discard_loop]; [apply preserves_ret|].
  unfold get_sbi. repeat (pres_step || apply IH || apply Hu).
  intros w Hw. unfold kdo. by destruct (kstep _ _).
Qed.

Lemma issue_discards_safe w :
  is_u32 (nr_blocks (w_sbi w)) ->
  wp simplefs_issue_pending_discards (fun _ w' =>
    (w_trace w' = w_trace w /\ w_sbi w' = w_sbi w) \/
    (exists g ds, w_trace w' = ds ++ (BdevDiscardGranularity, g) :: w_trace w /\
       Forall (fun cr => discard_ok (gran_blocks_of g) (nr_blocks (w_sbi w))
          (bfree_bitmap (w_sbi w)) (pending (w_sbi w)) cr.1) ds) /\
    bitmap_lock (w_sbi w') = false /\ drained (w_sbi w') (w_sbi w)) w.
Proof.
  unfold is_u32, U32_MAX. intros Hn. unfold simplefs_issue_pending_discards.
  kwp. destruct (negb _ || negb _); kwp; [by left|].
  fold (gran_blocks_of r). match goal with |- wp _ _ ?x => set (w1 := x) end.
  pose proof (discard_loop_inv w1 (gran_blocks_of r) (Z.to_nat (nr_blocks (w_sbi w))) 0
    (gran_blocks_of_bounds r) ltac:(lia) ltac:(cbn; lia) w1) as Hinv.
  pose proof (discard_loop_drained (gran_blocks_of r) (Z.to_nat (nr_blocks (w_sbi w)))
    (w_sbi w) 0 w1) as Hdr.
  unfold wp at 1. destruct (discard_loop _ _ _ w1) as [x w2]; cbn [fst snd] in *.
  destruct Hinv as (H1 & H2 & H3 & ds & Ht & Hall).
  { split_and!; try done. by exists []. }
  destruct Hdr as (D1 & D2 & D3); [done|].
  kwp. right. split_and!; [|done|by split_and!]. exists r, ds. by cbn; rewrite Ht.
Qed.

(** online discard is safe: whatever the device answers, every discard
    request that [simplefs_issue_pending_discards] sends covers only blocks inside
    the device that are free in the bitmap and were queued, in whole discard units
    when the unit is a power of two; the bitmaps and counters are unchanged, the
    queue only shrinks and the bitmap lock is released. *)
Theorem discards_only_free_queued_units w :
  is_u32 (nr_blocks (w_sbi w)) ->
  wp simplefs_issue_pending_discards (fun _ w' =>
    (w_trace w' = w_trace w /\ w_sbi w' = w_sbi w) \/
    (exists g ds, w_trace w' = ds ++ (BdevDiscardGranularity, g) :: w_trace w /\
       Forall (fun cr => discard_ok (gran_blocks_of g) (nr_blocks (w_sbi w))
          (bfree_bitmap (w_sbi w)) (pending (w_sbi w)) cr.1) ds) /\
    bitmap_lock (w_sbi w') = false /\ drained (w_sbi w') (w_sbi w)) w.
Proof. apply issue_discards_safe. Qed.
End Discard.
