(* ===== verification/Journal.v ===== *)
(** * Journal: the JBD2 adapter (simplefs_journal.c)

    One function per function of the file.  A [struct simplefs_handle *] is a
    [handle]: an error pointer, NULL (no journal, or joined to the handle the
    task already holds) or an open handle with its JBD2 handle.  JBD2 and the
    buffer cache answer through [kdo].

    The file also states what the adapter promises to its callers: every one of
    its operations preserves any predicate that does not look at the environment,
    the journal adapter, the shutdown flag or (for those that publish an image)
    the metadata images.  [KStable] and [JStable] name those predicates; the
    callers' invariants are instances. *)

From stdpp Require Import base list numbers gmap.
From S2P Require Import Prelude Image Layout Kernel DiskFormat Discard.

Local Open Scope Z_scope.
Local Open Scope fs_scope.

Inductive handle :=
  | HErr (e : Z)
  | HNull
  | HOpen (h : Z).

Definition HANDLE_IS_ERR (h : handle) : bool :=
  match h with HErr _ => true | _ => false end.
Definition HANDLE_PTR_ERR (h : handle) : Z :=
  match h with HErr e => e | _ => 0 end.

(** [journal && journal->j_jbd2] *)
Definition has_jbd2 (j : option journal) : bool :=
  match j with Some j => j_jbd2 j | None => false end.

Section Ops.
Context {K : Kernel}.

Definition upd_journal (f : journal -> journal) : M unit :=
  upd_sbi (fun s => set_s_journal (option_map f (s_journal s)) s).

Definition simplefs_is_shutdown : M bool := gets (fun w => s_shutdown (w_sbi w)).

Definition simplefs_journal_mark_shutdown : M unit := upd_sbi (set_s_shutdown true).

Definition simplefs_journal_fail (err : Z) : M unit :=
  run! upd_sbi (set_s_shutdown true) in
  run! kdo (MappingSetError err) in
  let! s := get_sbi in
  when (has_jbd2 (s_journal s)) (run! kdo (Jbd2Abort err) in ret tt).

(** The log block [block] of a journal of [total_len] blocks, as a device block;
    [sbi] is NULL before [fill_super] publishes it. *)
Definition simplefs_journal_bmap (sbi : option sb_info) (total_len block : Z) : Z * Z :=
  match sbi with
  | None => (- EIO, block)
  | Some s => if total_len <=? block then (- EFSCORRUPTED, block)
              else (0, u64 (block + s_journal_start s))
  end.

Definition simplefs_journal_free (j : option journal) : M unit :=
  when (has_jbd2 j) (run! kdo Jbd2Destroy in ret tt).

Definition simplefs_journal_set_needs_recovery (dirty : bool) : M Z :=
  let! s := get_sbi in
  if s_needs_recovery s =? Z.b2z dirty then ret 0 else
  let! ro := kdo BdevReadOnly in
  if negb (ro =? 0) then ret (- EROFS) else
  let! bh := kdo (SbBread SIMPLEFS_SB_BLOCK_NR) in
  if negb (bh =? 0) then ret (- EIO) else
  let! img := read_image SIMPLEFS_SB_BLOCK_NR in
  run! write_image SIMPLEFS_SB_BLOCK_NR (put_u32 img sb_off_needs_recovery (Z.b2z dirty)) in
  run! kdo (SyncDirtyBuffer SIMPLEFS_SB_BLOCK_NR) in
  let! up := kdo (BufferUptodate SIMPLEFS_SB_BLOCK_NR) in
  let! r := (if up =? 0 then ret (- EIO) else kdo BlkdevIssueFlush) in
  run! when (r =? 0) (upd_sbi (upd_disk (set_s_needs_recovery (Z.b2z dirty)))) in
  ret r.

(** [jbd2_journal_load] has replayed the committed transactions. *)
Definition jbd2_recovered : M unit :=
  let! k := gets w_kernel in
  modify (fun w => set_w_bdev (jbd2_replay k (w_bdev w)) w).

Definition simplefs_journal_load : M Z :=
  let! s := get_sbi in
  if (s_journal_mode s =? 1) || (s_journal_present s =? 0) then
    run! upd_sbi (set_s_journal None) in ret 0
  else
  let! ok := kmalloc in
  if negb ok then ret (- ENOMEM) else
  let journal_blocks := u32 (nr_blocks s - s_journal_start s) in
  let! jbd2 := kdo (Jbd2InitDev (s_journal_start s) journal_blocks) in
  if IS_ERR jbd2 then
    run! simplefs_journal_free (Some (Journal false false 0 0)) in ret jbd2
  else
  let j := Journal true false 0 0 in
  if s_journal_mode s =? 2 then
    run! kdo Jbd2Destroy in
    run! upd_sbi (set_s_journal (Some (set_j_jbd2 false j))) in ret 0
  else
  let! ro := kdo BdevReadOnly in
  if negb (ro =? 0) then
    if negb (s_needs_recovery s =? 0) then
      run! simplefs_journal_free (Some j) in ret (- EROFS)
    else
      run! kdo Jbd2Destroy in
      run! upd_sbi (set_s_journal (Some (set_j_jbd2 false j))) in ret 0
  else
  let! r := kdo Jbd2Load in
  if negb (r =? 0) then run! simplefs_journal_free (Some j) in ret r else
  run! jbd2_recovered in
  run! upd_sbi (set_s_journal (Some j)) in
  let! rdonly := gets w_rdonly in
  let! r := (if negb rdonly then simplefs_journal_set_needs_recovery true
             else if negb (s_needs_recovery s =? 0)
                  then simplefs_journal_set_needs_recovery false
                  else ret 0) in
  if negb (r =? 0) then
    run! upd_sbi (set_s_journal None) in
    run! simplefs_journal_free (Some j) in ret r
  else ret 0.

Definition simplefs_journal_destroy : M unit :=
  let! s := get_sbi in
  run! simplefs_journal_free (s_journal s) in
  upd_sbi (set_s_journal None).

(** The task's JBD2 handle on this journal, 0 when it has none. *)
Definition simplefs_current_jbd2_handle : M Z :=
  let! s := get_sbi in
  match s_journal s with
  | None => ret 0
  | Some j =>
      if negb (j_jbd2 j) then ret 0 else
      let! h := kdo JournalCurrentHandle in
      if negb (h =? 0) then ret h else
      let! cur := gets w_current in
      if j_handle_owner j =? cur then ret (j_active_handle j) else ret 0
  end.

Definition simplefs_journal_start_internal (blocks : Z) : M handle :=
  let credits := Z.max blocks 64 in
  let! down := simplefs_is_shutdown in
  if down then ret (HErr (- EIO)) else
  let! s := get_sbi in
  match s_journal s with
  | None => ret HNull
  | Some j =>
      if negb (j_jbd2 j) then ret HNull else
      let! cur := gets w_current in
      if j_handle_owner j =? cur then ret HNull else
      run! upd_journal (set_j_handle_mutex true) in
      let! down := simplefs_is_shutdown in
      if down then run! upd_journal (set_j_handle_mutex false) in ret (HErr (- EIO)) else
      let! ok := kmalloc in
      if negb ok then run! upd_journal (set_j_handle_mutex false) in ret (HErr (- ENOMEM)) else
      let! h := kdo (Jbd2Start credits) in
      if IS_ERR h then
        let! ab := kdo IsJournalAborted in
        run! when (negb (ab =? 0)) simplefs_journal_mark_shutdown in
        run! upd_journal (set_j_handle_mutex false) in
        ret (HErr h)
      else
      run! upd_journal (set_j_active_handle h) in
      run! upd_journal (set_j_handle_owner cur) in
      ret (HOpen h)
  end.

Definition simplefs_journal_start (blocks : Z) : M handle :=
  simplefs_journal_start_internal blocks.

Definition simplefs_journal_start_sb (blocks : Z) : M handle :=
  let! down := simplefs_is_shutdown in
  if down then ret (HErr (- EIO)) else
  let! s := get_sbi in
  if negb (has_jbd2 (s_journal s)) then ret HNull else
  let! cur := simplefs_current_jbd2_handle in
  if negb (cur =? 0) then ret HNull else
  simplefs_journal_start_internal blocks.

Definition simplefs_journal_stop (hd : handle) : M Z :=
  match hd with
  | HOpen h =>
      let! r := kdo (Jbd2Stop h) in
      run! when (negb (r =? 0))
             (let! ab := kdo IsJournalAborted in
              when (negb (ab =? 0)) simplefs_journal_mark_shutdown) in
      run! upd_journal (set_j_handle_owner 0) in
      run! upd_journal (set_j_active_handle 0) in
      run! upd_journal (set_j_handle_mutex false) in
      ret r
  | _ => ret 0
  end.

(** Only traces the failure: nothing is rolled back. *)
Definition simplefs_journal_abort (hd : handle) (err : Z) : M unit := ret tt.

(** [source_folio] is a folio's position and size in bytes, or NULL with the
    snapshot in [data].  A folio of the block-device mapping is the buffer's own
    folio, so its image is already in place. *)
Definition simplefs_jbd2_dirty (h block_nr data : Z) (source_folio : option (Z * Z)) : M Z :=
  let block_pos := block_nr * SIMPLEFS_BLOCK_SIZE in
  if match source_folio with
     | Some (pos, size) =>
         (block_pos <? pos) || (pos + size <? block_pos + SIMPLEFS_BLOCK_SIZE)
     | None => false
     end
  then ret (- EFSCORRUPTED) else
  let! bh := kdo (SbGetblk block_nr) in
  if negb (bh =? 0) then ret (- ENOMEM) else
  let! r := kdo (Jbd2GetWriteAccess h block_nr) in
  if negb (r =? 0) then
    let! ab := kdo IsJournalAborted in
    run! when (negb (ab =? 0)) simplefs_journal_mark_shutdown in
    ret r
  else
  run! (match source_folio with
        | Some _ => ret tt
        | None => write_image block_nr data
        end) in
  kdo (Jbd2DirtyMetadata h block_nr).

Definition simplefs_journal_dirty_metadata (hd : handle) (block_nr data : Z)
    (folio : option (Z * Z)) : M Z :=
  match hd with
  | HOpen h => simplefs_jbd2_dirty h block_nr data folio
  | _ => ret 0
  end.

(** [w_fs_info] is false while [sb->s_fs_info] is NULL. *)
Definition simplefs_journal_prepare_current (block_nr : Z) : M Z :=
  let! fs := gets w_fs_info in
  if negb fs then ret 0 else
  let! h := simplefs_current_jbd2_handle in
  if h =? 0 then ret 0 else
  let! bh := kdo (SbGetblk block_nr) in
  if negb (bh =? 0) then ret (- ENOMEM) else
  kdo (Jbd2GetWriteAccess h block_nr).

Definition simplefs_journal_zero_current (block_nr : Z) : M Z :=
  let! h := simplefs_current_jbd2_handle in
  if h =? 0 then ret 0 else
  let! bh := kdo (SbGetblk block_nr) in
  if negb (bh =? 0) then ret (- ENOMEM) else
  let! r := kdo (Jbd2GetWriteAccess h block_nr) in
  run! when (r =? 0) (write_image block_nr 0) in
  ret r.

(** Does an existing buffer of the block still belong to a transaction? *)
Definition buffer_transaction_owned (n : Z) : M bool :=
  let! jbd := kdo (BufferJbd n) in
  if jbd =? 0 then ret false else
  let! t := kdo (JhBTransaction n) in
  let! owned := (if negb (t =? 0) then ret true
                 else let! nt := kdo (JhBNextTransaction n) in ret (negb (nt =? 0))) in
  let! rec := kdo (JhRecycled n) in
  ret (if negb (rec =? 0) then true else owned).

Definition prepare_new_block (n : Z) : M Z :=
  let! found := kdo (SbFindGetBlock n) in
  if found =? 0 then ret 0 else
  let! owned := buffer_transaction_owned n in
  let! rv := kdo (BufferRevoked n) in
  ret (if negb (rv =? 0) || owned then - EAGAIN else 0).

Definition simplefs_journal_prepare_new_blocks (block_nr len : Z) : M Z :=
  let! fs := gets w_fs_info in
  let! s := get_sbi in
  if negb fs || negb (bool_decide (is_Some (s_journal s))) then ret 0 else
  let! h := simplefs_current_jbd2_handle in
  if h =? 0 then ret 0 else
  for_z (Z.to_nat len) 0 (fun i => prepare_new_block (u32 (block_nr + i))).

Definition simplefs_journal_has_current_handle : M bool :=
  let! h := simplefs_current_jbd2_handle in ret (negb (h =? 0)).

Definition simplefs_journal_dirty_current (block_nr data : Z) : M Z :=
  let! s := get_sbi in
  let! h := simplefs_current_jbd2_handle in
  if h =? 0 then ret (if has_jbd2 (s_journal s) then - EUCLEAN else 0)
  else simplefs_jbd2_dirty h block_nr data None.

(** [simplefs_journal_block] *)
Definition simplefs_journal_block (block_nr data : Z) : M Z :=
  simplefs_journal_dirty_current block_nr data.

(** The folio a caller passes covers the block ([simplefs_read_metadata] found it
    by that block number). *)
Definition simplefs_journal_dirty_folio (block_nr : Z) (folio : Z * Z) : M Z :=
  let! s := get_sbi in
  let! h := simplefs_current_jbd2_handle in
  if negb (h =? 0) then simplefs_jbd2_dirty h block_nr 0 (Some folio) else
  if negb (has_jbd2 (s_journal s)) then run! kdo (FolioMarkDirty block_nr) in ret 0
  else ret (- EUCLEAN).

Definition simplefs_journal_forget_current (block_nr : Z) : M Z :=
  let! h := simplefs_current_jbd2_handle in
  if h =? 0 then ret (- EAGAIN) else
  let! credits := kdo (HRevokeCredits h) in
  if credits <=? 0 then ret (- ENOSPC) else
  let! bh := kdo (SbGetblk block_nr) in
  if negb (bh =? 0) then ret (- ENOMEM) else
  run! kdo (BufferRevoked block_nr) in
  kdo (Jbd2Revoke h block_nr).

Definition simplefs_journal_checkpoint : M Z :=
  let! s := get_sbi in
  if negb (has_jbd2 (s_journal s)) then ret 0 else
  run! upd_journal (set_j_handle_mutex true) in
  let! r := kdo Jbd2Flush in
  run! upd_journal (set_j_handle_mutex false) in
  ret r.

Definition simplefs_journal_force_commit : M Z :=
  let! s := get_sbi in
  if negb (has_jbd2 (s_journal s)) then ret 0 else
  run! upd_journal (set_j_handle_mutex true) in
  let! r := kdo Jbd2ForceCommit in
  let! s := get_sbi in
  let! r := (if (r =? 0) && s_discard s &&
                negb (none_setb (default 0 (discard_pending s)) 0 (nr_blocks s))
             then simplefs_issue_pending_discards else ret r) in
  let! r := (if r =? 0 then kdo BlkdevIssueFlush else ret r) in
  run! upd_journal (set_j_handle_mutex false) in
  ret r.

Definition simplefs_journal_shutdown : M unit :=
  let! s := get_sbi in
  if negb (has_jbd2 (s_journal s)) then ret tt else
  let! ab := kdo IsJournalAborted in
  if negb (ab =? 0) then ret tt else
  run! kdo (Jbd2Abort (- ESHUTDOWN)) in ret tt.

End Ops.

(** ** What the adapter promises its callers

    A predicate is [KStable] when it survives a call to the environment, a
    change of the adapter's own record and the latching of the shutdown flag;
    the calls it may constrain are [jbd2_journal_dirty_metadata], which the
    adapter only makes on a buffer it has write access to, and the locks of the
    file operations, which nothing below these touches; [LStable] predicates do not
    look at those locks either.  [JStable] predicates
    also survive the publication of a metadata image, [DStable] ones the
    discard queue and the bitmap lock. *)

Definition lock_call (c : kcall) : Prop :=
  match c with
  | InodeLock _ | InodeUnlock _ | InodeLockShared _ | InodeUnlockShared _
  | InvalidateLock _ | InvalidateUnlock _ | InvalidateLockShared _ | InvalidateUnlockShared _
  | PinUserPage _ | UnpinUserPage _ => True
  | _ => False
  end.
Definition plain_call (c : kcall) : Prop :=
  match c with
  | Jbd2DirtyMetadata _ _
  | InodeLock _ | InodeUnlock _ | InodeLockShared _ | InodeUnlockShared _
  | InvalidateLock _ | InvalidateUnlock _ | InvalidateLockShared _ | InvalidateUnlockShared _
  | PinUserPage _ | UnpinUserPage _ => False
  | _ => True
  end.

Section Stable.
Context {K : Kernel}.

Class KStable (I : world -> Prop) : Prop := {
  ks_call : forall c, plain_call c -> preserves I (kdo c);
  ks_dirty : forall h n w, In (Jbd2GetWriteAccess h n, 0) (w_trace w) -> I w ->
             I (snd (kdo (Jbd2DirtyMetadata h n) w));
  ks_upd_journal : forall f, preserves I (upd_journal f);
  ks_shutdown : preserves I (upd_sbi (set_s_shutdown true))
}.

Class LStable (I : world -> Prop) : Prop := ls_call : forall c, lock_call c -> preserves I (kdo c).

Class JStable (I : world -> Prop) : Prop := {
  js_kstable :: KStable I;
  js_image : forall n v, preserves I (write_image n v)
}.

Class DStable (I : world -> Prop) : Prop := {
  ds_pending : forall f, preserves I (upd_sbi (fun s => set_discard_pending (f s) s));
  ds_lock : forall b, preserves I (upd_sbi (set_bitmap_lock b))
}.

(** A view of the state that no call and none of those updates changes. *)
Lemma kdo_view {B} (f : world -> B) :
  (forall k t w, f (set_w_trace t (set_w_kernel k w)) = f w) ->
  forall c, frame f (kdo c).
Proof. intros H c w. unfold kdo. destruct (kstep _ _). apply H. Qed.

(** A predicate of a state view that ignores everything the adapter changes. *)
Lemma view_jstable {B} (f : world -> B) (P : B -> Prop) :
  (forall k t w, f (set_w_trace t (set_w_kernel k w)) = f w) ->
  (forall j w, f (set_w_sbi (set_s_journal j (w_sbi w)) w) = f w) ->
  (forall w, f (set_w_sbi (set_s_shutdown true (w_sbi w)) w) = f w) ->
  (forall n v w, f (set_w_bdev (<[n := v]> (w_bdev w)) w) = f w) ->
  JStable (fun w => P (f w)).
Proof.
  intros Hk Hj Hs Hi. split; [split|].
  - intros c _. apply frame_preserves, kdo_view, Hk.
  - intros h n w _. by rewrite (kdo_view f Hk).
  - intros g w. unfold upd_journal, upd_sbi, modify. cbn [snd]. by rewrite Hj.
  - intros w. cbn. by rewrite Hs.
  - intros n v w. cbn. by rewrite Hi.
Qed.

(** In particular the images, the inodes and the task are left alone. *)
Lemma kstable_view {A B} (f : world -> B) (m : M A) :
  (forall k t w, f (set_w_trace t (set_w_kernel k w)) = f w) ->
  (forall s w, f (set_w_sbi s w) = f w) ->
  (forall I, KStable I -> preserves I m) -> frame f m.
Proof.
  intros Hk Hs H w. apply (H (fun w' => f w' = f w)); [|done]. split.
  - intros c _ w' Hw. by rewrite (kdo_view f Hk).
  - intros h n w' _ Hw. by rewrite (kdo_view f Hk).
  - intros g w' Hw. unfold upd_journal, upd_sbi, modify. cbn [snd]. by rewrite Hs.
  - intros w' Hw. cbn. by rewrite Hs.
Qed.

Context (I : world -> Prop).

Lemma kdo_pres `{!KStable I} c : plain_call c -> preserves I (kdo c).
Proof. apply ks_call. Qed.
Lemma kmalloc_pres `{!KStable I} : preserves I kmalloc.
Proof. unfold kmalloc. apply preserves_bind; [by apply ks_call|]. intros. apply preserves_ret. Qed.
Lemma get_sbi_pres : preserves I get_sbi.
Proof. apply preserves_gets. Qed.
Lemma read_image_pres n : preserves I (read_image n).
Proof. apply preserves_gets. Qed.
Lemma get_inode_pres n : preserves I (get_inode n).
Proof. apply preserves_gets. Qed.

End Stable.

#[export] Hint Extern 3 (preserves _ (kdo _)) => (apply ks_call; exact Logic.I) : pres.
#[export] Hint Resolve kmalloc_pres get_sbi_pres read_image_pres get_inode_pres
  ks_upd_journal ks_shutdown js_image ds_pending ds_lock : pres.
#[export] Hint Extern 1 (KStable _) => typeclasses eauto : pres.
#[export] Hint Extern 1 (JStable _) => typeclasses eauto : pres.
#[export] Hint Extern 1 (DStable _) => typeclasses eauto : pres.

Section Preserve.
Context {K : Kernel} (I : world -> Prop) `{HK : !KStable I}.

Lemma mark_shutdown_pres : preserves I simplefs_journal_mark_shutdown.
Proof. apply ks_shutdown. Qed.
Lemma is_shutdown_pres : preserves I simplefs_is_shutdown.
Proof. apply preserves_gets. Qed.
Local Hint Resolve mark_shutdown_pres is_shutdown_pres : pres.

Lemma journal_fail_pres e : preserves I (simplefs_journal_fail e).
Proof. unfold simplefs_journal_fail. pres. Qed.
Lemma journal_free_pres j : preserves I (simplefs_journal_free j).
Proof. unfold simplefs_journal_free. pres. Qed.
Lemma current_handle_pres : preserves I simplefs_current_jbd2_handle.
Proof. unfold simplefs_current_jbd2_handle. pres. Qed.
Local Hint Resolve journal_fail_pres journal_free_pres current_handle_pres : pres.
Lemma journal_start_internal_pres n : preserves I (simplefs_journal_start_internal n).
Proof. unfold simplefs_journal_start_internal. pres. Qed.
Local Hint Resolve journal_start_internal_pres : pres.
Lemma journal_start_pres n : preserves I (simplefs_journal_start n).
Proof. unfold simplefs_journal_start. pres. Qed.
Lemma journal_start_sb_pres n : preserves I (simplefs_journal_start_sb n).
Proof. unfold simplefs_journal_start_sb. pres. Qed.
Lemma journal_stop_pres h : preserves I (simplefs_journal_stop h).
Proof. unfold simplefs_journal_stop. pres. Qed.
Lemma journal_abort_pres h e : preserves I (simplefs_journal_abort h e).
Proof. apply preserves_ret. Qed.
Lemma prepare_current_pres n : preserves I (simplefs_journal_prepare_current n).
Proof. unfold simplefs_journal_prepare_current. pres. Qed.
Lemma buffer_transaction_owned_pres n : preserves I (buffer_transaction_owned n).
Proof. unfold buffer_transaction_owned. pres. Qed.
Local Hint Resolve buffer_transaction_owned_pres : pres.
Lemma prepare_new_block_pres n : preserves I (prepare_new_block n).
Proof. unfold prepare_new_block. pres. Qed.
Local Hint Resolve prepare_new_block_pres : pres.
Lemma prepare_new_blocks_pres n len : preserves I (simplefs_journal_prepare_new_blocks n len).
Proof. unfold simplefs_journal_prepare_new_blocks. pres. Qed.
Lemma has_current_handle_pres : preserves I simplefs_journal_has_current_handle.
Proof. unfold simplefs_journal_has_current_handle. pres. Qed.
Lemma forget_current_pres n : preserves I (simplefs_journal_forget_current n).
Proof. unfold simplefs_journal_forget_current. pres. Qed.
Lemma checkpoint_pres : preserves I simplefs_journal_checkpoint.
Proof. unfold simplefs_journal_checkpoint. pres. Qed.
Lemma journal_shutdown_pres : preserves I simplefs_journal_shutdown.
Proof. unfold simplefs_journal_shutdown. pres. Qed.
(** Only the end of a mount drops the record. *)
Lemma journal_destroy_pres : preserves I (upd_sbi (set_s_journal None)) ->
  preserves I simplefs_journal_destroy.
Proof. intros. unfold simplefs_journal_destroy. pres. Qed.

(** Write access is taken, and still on record, when the buffer is dirtied. *)
Lemma jbd2_dirty_pres `{HJ : !JStable I} h n data fo :
  preserves I (simplefs_jbd2_dirty h n data fo).
Proof.
  unfold simplefs_jbd2_dirty. pres_step; [apply preserves_ret|].
  pres_step; [pres|]. pres_step; [apply preserves_ret|].
  intros w Hw. unfold bind at 1, kdo at 1.
  pose proof (ks_call (Jbd2GetWriteAccess h n) Logic.I w Hw) as Hw1. unfold kdo in Hw1.
  destruct (kstep (w_kernel w) _) as [r k]; cbn [snd] in Hw1.
  destruct (Z.eqb_spec r 0) as [->|]; cbn [negb].
  2:{ match goal with |- I (snd (?m _)) => assert (preserves I m) as Hp by pres end. by apply Hp. }
  destruct fo; [by apply ks_dirty; [left|]|].
  unfold bind, write_image, modify. apply ks_dirty; [by left|]. by apply (js_image n data).
Qed.
(** A folio's image is already in place, so nothing is published. *)
Lemma jbd2_dirty_folio_pres h n data fo : preserves I (simplefs_jbd2_dirty h n data (Some fo)).
Proof.
  unfold simplefs_jbd2_dirty. pres_step; [apply preserves_ret|].
  pres_step; [pres|]. pres_step; [apply preserves_ret|].
  intros w Hw. unfold bind at 1, kdo at 1.
  pose proof (ks_call (Jbd2GetWriteAccess h n) Logic.I w Hw) as Hw1. unfold kdo in Hw1.
  destruct (kstep (w_kernel w) _) as [r k]; cbn [snd] in Hw1.
  destruct (Z.eqb_spec r 0) as [->|]; cbn [negb]; [by apply ks_dirty; [left|]|].
  match goal with |- I (snd (?m _)) => assert (preserves I m) as Hp by pres end. by apply Hp.
Qed.
Local Hint Resolve jbd2_dirty_pres jbd2_dirty_folio_pres : pres.
Lemma dirty_metadata_pres `{!JStable I} hd n data fo :
  preserves I (simplefs_journal_dirty_metadata hd n data fo).
Proof. unfold simplefs_journal_dirty_metadata. pres. Qed.
Lemma dirty_current_pres `{!JStable I} n data : preserves I (simplefs_journal_dirty_current n data).
Proof. unfold simplefs_journal_dirty_current. pres. Qed.
Lemma journal_block_pres `{!JStable I} n data : preserves I (simplefs_journal_block n data).
Proof. apply dirty_current_pres. Qed.
Lemma dirty_folio_pres n fo : preserves I (simplefs_journal_dirty_folio n fo).
Proof. unfold simplefs_journal_dirty_folio. pres. Qed.
Lemma zero_current_pres `{!JStable I} n : preserves I (simplefs_journal_zero_current n).
Proof. unfold simplefs_journal_zero_current. pres. Qed.

Lemma discard_loop_pres `{!DStable I} g f : forall b, preserves I (discard_loop f g b).
Proof.
  induction f as [|f IH]; intros b; cbn [discard_loop]; pres;
    first [apply IH | apply ds_pending].
Qed.
Local Hint Resolve discard_loop_pres : pres.
Lemma issue_discards_pres `{!DStable I} : preserves I simplefs_issue_pending_discards.
Proof. unfold simplefs_issue_pending_discards, lock_bitmap, unlock_bitmap. pres. Qed.
Local Hint Resolve issue_discards_pres : pres.
Lemma force_commit_pres `{!DStable I} : preserves I simplefs_journal_force_commit.
Proof. unfold simplefs_journal_force_commit. pres. Qed.

End Preserve.

#[export] Hint Resolve mark_shutdown_pres is_shutdown_pres journal_fail_pres journal_free_pres
  current_handle_pres journal_start_pres journal_start_sb_pres journal_stop_pres
  journal_abort_pres prepare_current_pres prepare_new_blocks_pres has_current_handle_pres
  forget_current_pres checkpoint_pres journal_shutdown_pres journal_destroy_pres
  dirty_metadata_pres dirty_current_pres journal_block_pres dirty_folio_pres
  zero_current_pres issue_discards_pres force_commit_pres : pres.

(** ** The handle discipline

    Abstractly the adapter is a lock with an owner: idle, or held by one task
    with one JBD2 handle.  [hstate_of] reads that state off the record; a record
    that is neither has none. *)

Inductive hstate :=
  | Idle
  | Held (task h : Z).

Definition hstate_of (j : journal) : option hstate :=
  if j_handle_mutex j then
    if j_handle_owner j =? 0 then None else Some (Held (j_handle_owner j) (j_active_handle j))
  else if (j_handle_owner j =? 0) && (j_active_handle j =? 0) then Some Idle else None.

(** The transitions of [start] for task [t] that asks for [n] blocks: whether the file
    system is latched shut, the state, the calls made (newest first), the handle and
    the new state. *)
Inductive start_step (t n : Z) :
    bool -> hstate -> list (kcall * Z) -> handle -> hstate -> Prop :=
  | start_down st : start_step t n true st [] (HErr (- EIO)) st
  | start_join h : start_step t n false (Held t h) [] HNull (Held t h)
  | start_open h : 0 <= h ->
      start_step t n false Idle [(Jbd2Start (Z.max n 64), h); (Kmalloc, 0)] (HOpen h) (Held t h)
  | start_nomem r : r <> 0 -> start_step t n false Idle [(Kmalloc, r)] (HErr (- ENOMEM)) Idle
  | start_refused e a : e < 0 ->
      start_step t n false Idle [(IsJournalAborted, a); (Jbd2Start (Z.max n 64), e); (Kmalloc, 0)]
        (HErr e) Idle.

(** [start_sb] first asks whether the task already runs in a transaction of this
    journal: NULL if JBD2 or the adapter says so. *)
Inductive start_sb_step (t n : Z) :
    bool -> hstate -> list (kcall * Z) -> handle -> hstate -> Prop :=
  | sb_down st : start_sb_step t n true st [] (HErr (- EIO)) st
  | sb_nested h st : h <> 0 -> start_sb_step t n false st [(JournalCurrentHandle, h)] HNull st
  | sb_joined h : start_sb_step t n false (Held t h) [(JournalCurrentHandle, 0)] HNull (Held t h)
  | sb_start ev hd st' : start_step t n false Idle ev hd st' ->
      start_sb_step t n false Idle (ev ++ [(JournalCurrentHandle, 0)]) hd st'.

Section Discipline.
Context {K : Kernel}.

Definition journal_in (w : world) (st : hstate) : Prop :=
  exists j, s_journal (w_sbi w) = Some j /\ j_jbd2 j = true /\ hstate_of j = Some st.

Lemma hstate_idle j : hstate_of j = Some Idle ->
  j_handle_mutex j = false /\ j_handle_owner j = 0 /\ j_active_handle j = 0.
Proof. unfold hstate_of. intros H. repeat case_match; bool_hyps; naive_solver. Qed.

Lemma hstate_held j t h : hstate_of j = Some (Held t h) ->
  j_handle_mutex j = true /\ t <> 0 /\ j_handle_owner j = t /\ j_active_handle j = h.
Proof. unfold hstate_of. intros H. repeat case_match; bool_hyps; naive_solver. Qed.

Lemma journal_in_fun w st st' : journal_in w st -> journal_in w st' -> st = st'.
Proof. intros (j & H1 & _ & H2) (j' & H1' & _ & H2'). congruence. Qed.

(** Taking the adapter from idle: every exit leaves it idle or held. *)
Lemma start_internal_spec n w st :
  w_current w <> 0 -> journal_in w st ->
  (st = Idle \/ exists h, st = Held (w_current w) h) ->
  wp (simplefs_journal_start_internal n)
     (fun hd w' => exists ev st', w_trace w' = ev ++ w_trace w /\
        start_step (w_current w) n (s_shutdown (w_sbi w)) st ev hd st' /\ journal_in w' st') w.
Proof.
  intros Hcur Hin Hst. pose proof Hin as (j & Hj & Hl & Hs).
  unfold simplefs_journal_start_internal, simplefs_is_shutdown. kwp.
  destruct (s_shutdown (w_sbi w)) eqn:Hdown; kwp.
  { exists [], st. split_and!; [done|constructor|done]. }
  rewrite Hj, Hl. cbn [negb]. kwp.
  destruct (Z.eqb_spec (j_handle_owner j) (w_current w)) as [Ho|Ho]; kwp.
  { destruct Hst as [->|[h ->]]; [apply hstate_idle in Hs as (_ & ? & _); congruence|].
    exists [], (Held (w_current w) h). split_and!; [done|constructor|done]. }
  destruct Hst as [->|[h ->]]; [|apply hstate_held in Hs as (_ & _ & ? & _); congruence].
  apply hstate_idle in Hs as (Hm & Hown & Hact).
  destruct j as [jl jm jo ja]; cbn in Hl, Hm, Hown, Hact; subst.
  assert (Hidle : forall w', s_journal (w_sbi w') = Some (Journal true false 0 0) ->
    journal_in w' Idle) by (intros w' E; eexists; split_and!; [exact E|done..]).
  kwp. unfold upd_journal. kwp. cbn. rewrite Hj, Hdown; cbn.
  kwp. destruct (Z.eqb_spec r 0) as [->|Hr]; cbn [negb]; kwp;
    [|exists [(Kmalloc, r)], Idle; split_and!; [done|by constructor|by apply Hidle]].
  destruct (IS_ERR r) eqn:Herr; kwp; unfold IS_ERR in Herr; bool_hyps.
  - unfold simplefs_journal_mark_shutdown.
    destruct (negb (r0 =? 0)); kwp; exists [(IsJournalAborted, r0); (Jbd2Start (Z.max n 64), r); (Kmalloc, 0)], Idle;
      (split_and!; [done|by constructor|by apply Hidle]).
  - exists [(Jbd2Start (Z.max n 64), r); (Kmalloc, 0)], (Held (w_current w) r). split_and!; [done|by constructor|].
    eexists. cbn. split_and!; [done|done|]. unfold hstate_of; cbn.
    by destruct (Z.eqb_spec (w_current w) 0).
Qed.

(** The current handle: JBD2's answer, or the adapter's when it has none. *)
Lemma current_handle_spec w st : journal_in w st ->
  wp simplefs_current_jbd2_handle (fun r w' => w_sbi w' = w_sbi w /\ w_current w' = w_current w /\
    exists h, w_trace w' = (JournalCurrentHandle, h) :: w_trace w /\
      r = if negb (h =? 0) then h else
          match st with Held t a => if t =? w_current w then a else 0 | Idle => 0 end) w.
Proof.
  intros (j & Hj & Hl & Hs). unfold simplefs_current_jbd2_handle. kwp. rewrite Hj, Hl. cbn [negb]. kwp.
  destruct (Z.eqb_spec r 0) as [->|Hr]; cbn [negb]; kwp.
  2:{ split_and!; [done|done|]. exists r. split; [done|]. by rewrite (proj2 (Z.eqb_neq _ _) Hr). }
  cbn [w_current set_w_trace set_w_kernel].
  destruct st as [|t a]; [apply hstate_idle in Hs as (_ & -> & Ha)|apply hstate_held in Hs as (_ & _ & -> & <-)];
    wp_if; kwp; (split_and!; [done|done|]); exists 0; (split; [done|]); cbn [Z.eqb negb]; try done.
Qed.

(** An error pointer carries a negative code. *)
Lemma start_internal_err n w :
  wp (simplefs_journal_start_internal n)
     (fun hd _ => match hd with HErr e => e < 0 | _ => True end) w.
Proof.
  unfold simplefs_journal_start_internal, simplefs_is_shutdown, upd_journal,
    simplefs_journal_mark_shutdown. kwp.
  destruct (s_shutdown _); kwp; [done|]. destruct (s_journal _) as [j|]; kwp; [|done].
  kwpc; try done; by apply Z.ltb_lt.
Qed.
Lemma start_sb_err n w :
  wp (simplefs_journal_start_sb n)
     (fun hd _ => match hd with HErr e => e < 0 | _ => True end) w.
Proof.
  unfold simplefs_journal_start_sb, simplefs_is_shutdown. kwp.
  destruct (s_shutdown _); kwp; [done|]. destruct (negb _); kwp; [done|].
  eapply (wp_mono _ (fun _ _ => True)); [done|]. intros h w1 _.
  destruct (negb _); kwp; [done|]. apply start_internal_err.
Qed.

Lemma stop_spec w t h :
  journal_in w (Held t h) ->
  wp (simplefs_journal_stop (HOpen h)) (fun _ w' => journal_in w' Idle) w.
Proof.
  intros (j & Hj & Hl & Hs). destruct j as [jl jm jo ja]; cbn in Hl; subst.
  unfold simplefs_journal_stop, simplefs_journal_mark_shutdown, upd_journal.
  kwp. destruct (negb (r =? 0)); [kwp; destruct (negb (r0 =? 0))|];
    kwp; eexists; cbn; rewrite Hj; cbn; split_and!; done.
Qed.
End Discipline.

(** ** Write-ahead discipline as a trace property

    In the trace (newest first), every dirtied buffer has an older successful
    write access under the same handle. *)
Fixpoint wal_ok (t : list (kcall * Z)) : Prop :=
  match t with
  | [] => True
  | (Jbd2DirtyMetadata h n, _) :: t' => In (Jbd2GetWriteAccess h n, 0) t' /\ wal_ok t'
  | _ :: t' => wal_ok t'
  end.

Section Instances.
Context {K : Kernel}.

#[export] Instance wal_jstable : JStable (fun w => wal_ok (w_trace w)).
Proof.
  split; [split|]; [| |(intros; intros w Hw; exact Hw)..].
  - intros c Hc w Hw. unfold kdo. destruct (kstep _ c); cbn. by destruct c.
  - intros h n w Hin Hw. unfold kdo. by destruct (kstep _ _).
Qed.

#[export] Instance wal_dstable : DStable (fun w => wal_ok (w_trace w)).
Proof. split; intros; intros w Hw; exact Hw. Qed.

(** Some call made after [w0] had an answer in [P]. *)
Definition answered_since (w0 : world) (P : kcall -> Z -> Prop) (w : world) : Prop :=
  exists ev, w_trace w = ev ++ w_trace w0 /\ Exists (fun e => P e.1 e.2) ev.

Lemma answered_cons w0 (P : kcall -> Z -> Prop) w w' c r t :
  w_trace w = t ++ w_trace w0 -> w_trace w' = (c, r) :: w_trace w -> P c r -> answered_since w0 P w'.
Proof. intros Ht Ht' HP. exists ((c, r) :: t). rewrite Ht', Ht. split; [done|by constructor]. Qed.

Lemma answered_kdo w0 P c : preserves (answered_since w0 P) (kdo c).
Proof.
  intros w (ev & Ht & He). unfold kdo. destruct (kstep _ c) as [r k]. exists ((c, r) :: ev). cbn. rewrite Ht.
  split; [done|by apply Exists_cons_tl].
Qed.
#[export] Instance answered_jstable w0 P : JStable (answered_since w0 P).
Proof.
  split; [split|]; [| |(intros; intros w Hw; exact Hw)..].
  - intros. apply answered_kdo.
  - intros h n w _. apply answered_kdo.
Qed.
#[export] Instance answered_dstable w0 P : DStable (answered_since w0 P).
Proof. split; intros; intros w Hw; exact Hw. Qed.

(** No call of before [w0] is forgotten. *)
Definition extends (w0 w : world) : Prop := exists ev, w_trace w = ev ++ w_trace w0.
#[export] Instance extends_jstable w0 : JStable (extends w0).
Proof.
  assert (Hk : forall c, preserves (extends w0) (kdo c)).
  { intros c w (ev & Ht). unfold kdo. destruct (kstep _ c) as [r k]. exists ((c, r) :: ev). cbn. by rewrite Ht. }
  split; [split|]; [| |(intros; intros w Hw; exact Hw)..]; [intros; apply Hk|intros h n w _ Hw; by apply Hk].
Qed.
#[export] Instance extends_dstable w0 : DStable (extends w0).
Proof. split; intros; intros w Hw; exact Hw. Qed.
Lemma extends_refl w : extends w w.
Proof. by exists []. Qed.
Lemma answered_extends w0 w1 w P : extends w0 w1 -> answered_since w1 P w -> answered_since w0 P w.
Proof. intros (ev & Ht) (ev1 & Ht1 & He). exists (ev1 ++ ev). rewrite Ht1, Ht, app_assoc. split; [done|]. apply Exists_app. by left. Qed.

#[export] Instance shutdown_jstable : JStable (fun w => s_shutdown (w_sbi w) = true).
Proof.
  split; [split|]; [| |(intros; intros w Hw; first [exact Hw|reflexivity])..].
  - intros c _ w. unfold kdo. by destruct (kstep _ _).
  - intros h n w _. unfold kdo. by destruct (kstep _ _).
Qed.

#[export] Instance shutdown_dstable : DStable (fun w => s_shutdown (w_sbi w) = true).
Proof. split; intros; intros w Hw; exact Hw. Qed.

End Instances.

(** ** Loading the journal at mount: no JBD2 journal is leaked *)

(** Journals opened minus journals closed, over a trace. *)
Fixpoint jbd2_open_count (t : list (kcall * Z)) : Z :=
  match t with
  | [] => 0
  | (Jbd2InitDev _ _, r) :: t' => (if IS_ERR r then 0 else 1) + jbd2_open_count t'
  | (Jbd2Destroy, _) :: t' => jbd2_open_count t' - 1
  | _ :: t' => jbd2_open_count t'
  end.

Lemma needs_recovery_frame {K : Kernel} d :
  frame (fun w => (jbd2_open_count (w_trace w), s_journal (w_sbi w)))
        (simplefs_journal_set_needs_recovery d).
Proof.
  assert (Hk : forall c, match c with Jbd2InitDev _ _ | Jbd2Destroy => False | _ => True end ->
    frame (fun w => (jbd2_open_count (w_trace w), s_journal (w_sbi w))) (kdo c)).
  { intros c Hc w. unfold kdo. destruct (kstep _ c). by destruct c. }
  unfold simplefs_journal_set_needs_recovery, get_sbi, read_image, write_image, upd_sbi.
  frames; by apply Hk.
Qed.

Section Claims.
Context {K : Kernel}.

(** C3: [simplefs_journal_start] and [simplefs_journal_start_sb] implement the
    abstract handle lock: from a live journal that is idle or held by the calling
    task, they make exactly the calls of one transition of the lock, return its
    handle and end in its state.  A file system latched shut gives -EIO and no call is
    made; a task that holds the lock gets NULL and keeps its handle; from idle, a
    handle is opened with at least 64 credits and the lock is held for the task with
    it, or memory or JBD2 fails, its code is returned and the lock is idle.
    [simplefs_journal_start_sb] returns NULL from idle only when JBD2 reports that
    the task runs in a transaction.  No exit leaves the mutex taken without an owner. *)
Theorem journal_start_refines n w st :
  w_current w <> 0 -> journal_in w st ->
  (st = Idle \/ exists h, st = Held (w_current w) h) ->
  wp (simplefs_journal_start n)
     (fun hd w' => exists ev st', w_trace w' = ev ++ w_trace w /\
        start_step (w_current w) n (s_shutdown (w_sbi w)) st ev hd st' /\ journal_in w' st') w /\
  wp (simplefs_journal_start_sb n)
     (fun hd w' => exists ev st', w_trace w' = ev ++ w_trace w /\
        start_sb_step (w_current w) n (s_shutdown (w_sbi w)) st ev hd st' /\ journal_in w' st') w.
Proof.
  intros Hcur Hin Hst. split; [by apply start_internal_spec|].
  unfold simplefs_journal_start_sb, simplefs_is_shutdown. kwp.
  destruct (s_shutdown (w_sbi w)) eqn:Hdown; kwp; [exists [], st; split_and!; [done|constructor|done]|].
  pose proof Hin as (j & Hj & Hl & _). rewrite Hj. cbn [has_jbd2]. rewrite Hl. cbn [negb]. kwp.
  eapply wp_mono; [by apply (current_handle_spec w st)|].
  intros r w1 (Es & Ec & h & Ht & Er). assert (Hin1 : journal_in w1 st) by (unfold journal_in; by rewrite Es).
  destruct (Z.eqb_spec h 0) as [->|Hh]; cbn [negb] in Er.
  2:{ subst r. rewrite (proj2 (Z.eqb_neq _ _) Hh). cbn [negb]. kwp.
      exists [(JournalCurrentHandle, h)], st. split_and!; [done|by apply sb_nested|done]. }
  destruct (Z.eqb_spec r 0) as [E0|Hr]; cbn [negb]; kwp.
  - eapply wp_mono; [apply (start_internal_spec n w1 st); by rewrite ?Ec|].
    intros hd w2 (ev & st' & Ht2 & Hstep & Hin2). rewrite Es, Ec, Hdown in Hstep. rewrite Ht in Ht2.
    exists (ev ++ [(JournalCurrentHandle, 0)]), st'. rewrite <- app_assoc. split_and!; [done| |done].
    destruct Hst as [->|[a ->]]; [by apply sb_start|]. inversion Hstep; subst. apply sb_joined.
  - destruct Hst as [->|[a ->]]; [done|].
    exists [(JournalCurrentHandle, 0)], (Held (w_current w) a). split_and!; [done|apply sb_joined|done].
Qed.

(** a start/stop pair on an idle live journal returns it to idle on every
    path: whatever JBD2 answers, and whether the start failed or not, the handle
    mutex is released and the owner and active handle are cleared. *)
Theorem journal_start_stop_idle n w :
  w_current w <> 0 -> journal_in w Idle ->
  wp (let! hd := simplefs_journal_start n in
      if HANDLE_IS_ERR hd then ret (HANDLE_PTR_ERR hd) else simplefs_journal_stop hd)
     (fun _ w' => journal_in w' Idle) w.
Proof.
  intros Hcur Hin. apply wp_bind.
  eapply wp_mono; [apply start_internal_spec; eauto|].
  intros hd w' (ev & st' & _ & Hstep & Hin'). inversion Hstep; subst; cbn [HANDLE_IS_ERR HANDLE_PTR_ERR];
    [by kwp|by eapply stop_spec|by kwp|by kwp].
Qed.

(** after [simplefs_journal_fail] the file system is latched shut: a later
    start, nested or not, returns -EIO and asks JBD2 for nothing, and no adapter
    operation in between can clear the latch. *)
Theorem journal_fail_latches e n w (m : M Z) :
  preserves (fun w => s_shutdown (w_sbi w) = true) m ->
  wp (run! simplefs_journal_fail e in run! m in
      let! w1 := gets w_trace in
      let! h1 := simplefs_journal_start n in
      let! h2 := simplefs_journal_start_sb n in
      let! w2 := gets w_trace in ret (h1, h2, w1, w2))
     (fun '(h1, h2, t1, t2) w' =>
        h1 = HErr (- EIO) /\ h2 = HErr (- EIO) /\ t1 = t2 /\ s_shutdown (w_sbi w') = true) w.
Proof.
  intros Hm. apply wp_bind.
  eapply (wp_mono _ (fun _ w' => s_shutdown (w_sbi w') = true)).
  { unfold simplefs_journal_fail. kwp. destruct (has_jbd2 _); kwp; done. }
  intros _ w1 H1. apply wp_bind. eapply wp_mono; [by apply (wp_pres _ _ _ Hm)|].
  intros ? w2 H2; cbn beta in *.
  unfold simplefs_journal_start, simplefs_journal_start_sb, simplefs_journal_start_internal,
    simplefs_is_shutdown.
  kwp. rewrite H2. kwp. rewrite H2. kwp. done.
Qed.

(** a metadata folio changed without a handle on a live journal is refused
    with -EUCLEAN and never handed to JBD2 or marked dirty; without a live journal
    it takes the ordinary dirty-folio path and succeeds. *)
Theorem dirty_folio_needs_handle n fo w :
  (forall k, fst (kstep k JournalCurrentHandle) = 0) ->
  match s_journal (w_sbi w) with Some j => j_handle_owner j <> w_current w | None => True end ->
  wp (simplefs_journal_dirty_folio n fo) (fun r w' =>
    if has_jbd2 (s_journal (w_sbi w))
    then r = - EUCLEAN /\ w_trace w' = (JournalCurrentHandle, 0) :: w_trace w
    else r = 0 /\ exists a, w_trace w' = (FolioMarkDirty n, a) :: w_trace w) w.
Proof.
  intros Hnone Hown. unfold simplefs_journal_dirty_folio, simplefs_current_jbd2_handle.
  kwp. destruct (s_journal (w_sbi w)) as [j|] eqn:Hj; cbn [has_jbd2].
  2:{ kwp. cbn. kwp. split; [done|]. by eexists. }
  destruct (j_jbd2 j) eqn:Hl; cbn [negb].
  2:{ kwp. cbn. kwp. split; [done|]. by eexists. }
  kwp. assert (r = 0) as -> by (rewrite <- (Hnone (w_kernel w)); by rewrite Hk).
  cbn. kwp. cbn. rewrite (proj2 (Z.eqb_neq _ _) Hown). kwp. cbn. kwp. done.
Qed.

(** [simplefs_journal_load] never leaks a JBD2 journal: on every exit the
    journals it opened minus those it destroyed is one exactly when it succeeded
    with a live journal in the superblock, and zero otherwise (also when the
    recovery marker cannot be written after the log was replayed). *)
Theorem journal_load_no_leak w :
  s_journal (w_sbi w) = None ->
  wp simplefs_journal_load (fun r w' =>
    jbd2_open_count (w_trace w') = jbd2_open_count (w_trace w) +
      (if has_jbd2 (s_journal (w_sbi w')) then 1 else 0) /\
    (r <> 0 -> s_journal (w_sbi w') = None)) w.
Proof.
  intros Hj. unfold simplefs_journal_load, simplefs_journal_free, jbd2_recovered.
  repeat (kwpc; try match goal with
    |- wp (simplefs_journal_set_needs_recovery ?d) _ ?w => 
      eapply wp_mono; [apply (frame_wp _ _ w (needs_recovery_frame d))|];
      let E1 := fresh in let E2 := fresh in
      intros ? ? [= E1 E2]; cbn beta in * end);
  cbn in *; simplify_eq; bool_hyps;
  repeat match goal with
  | H : IS_ERR _ = _ |- _ => rewrite H in *; clear H
  | H : s_journal (w_sbi ?x) = _ |- context [s_journal (w_sbi ?x)] => rewrite H
  end; cbn; try congruence; (split; [lia|congruence || done]).
Qed.

(** the log-to-device translation handed to JBD2 keeps every log block
    inside the reserved tail of the device, is injective there, and refuses a
    block outside the log. *)
Theorem journal_bmap_in_region (s : sb_info) len b :
  is_u32 (nr_blocks s) -> 0 <= s_journal_start s <= nr_blocks s -> 0 <= b < 2 ^ 63 ->
  len = nr_blocks s - s_journal_start s ->
  (fst (simplefs_journal_bmap (Some s) len b) = 0 <-> b < len) /\
  (b < len -> s_journal_start s <= snd (simplefs_journal_bmap (Some s) len b) < nr_blocks s /\
     forall b', 0 <= b' < len ->
       snd (simplefs_journal_bmap (Some s) len b) = snd (simplefs_journal_bmap (Some s) len b') ->
       b = b').
Proof.
  unfold is_u32, U32_MAX, simplefs_journal_bmap, EFSCORRUPTED, EUCLEAN, u64.
  intros Hn Hs Hb Hlen. destruct (Z.leb_spec len b); cbn [fst snd].
  - split; [lia|lia].
  - rewrite (Z.mod_small (b + _)) by lia. split; [lia|]. intros _. split; [lia|].
    intros b' Hb'. destruct (Z.leb_spec len b'); cbn [snd]; [lia|].
    rewrite Z.mod_small by lia. lia.
Qed.

(** the recovery marker: on success the superblock image and the in-memory
    flag both hold the requested value (the image when it had to be written), and
    every failure leaves the in-memory flag as it was, so a later attempt is not
    skipped. *)
Theorem needs_recovery_marker d w :
  wp (simplefs_journal_set_needs_recovery d) (fun r w' =>
    if r =? 0 then
      s_needs_recovery (w_sbi w') = Z.b2z d /\
      (s_needs_recovery (w_sbi w) <> Z.b2z d ->
       get_u32 (block_image w' SIMPLEFS_SB_BLOCK_NR) sb_off_needs_recovery = Z.b2z d)
    else w_sbi w' = w_sbi w) w.
Proof.
  assert (Hbit : is_u32 (Z.b2z d)) by (unfold is_u32, U32_MAX; destruct d; cbn; lia).
  unfold simplefs_journal_set_needs_recovery. kwpc; bool_hyps; subst; cbn; try done;
    try (by destruct (_ =? 0) eqn:?; bool_hyps).
  split; [done|]. intros _. unfold block_image at 1; cbn. rewrite lookup_insert_eq.
  by apply get_put_u32.
Qed.
End Claims.
