(* ===== verification/MetaBuf.v ===== *)
(** * MetaBuf: access to metadata folios (simplefs_metabuf.c)

    A metadata block is read through the block-device mapping; a reader that
    means to change it first takes JBD2 write access.  The functions return 0 or
    an error pointer's code; the mapped bytes are the block's image. *)

From stdpp Require Import base list numbers gmap.
From S2P Require Import Prelude Image Layout Kernel DiskFormat Discard Journal.

Local Open Scope Z_scope.
Local Open Scope fs_scope.

Section MetaBuf.
Context {K : Kernel}.

(** The folio found at block [n]: it covers that block. *)
Definition folio_of (n : Z) : Z * Z := (n * SIMPLEFS_BLOCK_SIZE, SIMPLEFS_BLOCK_SIZE).

Definition simplefs_read_metadata (n : Z) : M Z :=
  let! r := kdo (ReadMappingFolio n) in
  ret (if IS_ERR r then r else 0).

Definition simplefs_get_folio (n : Z) : M Z :=
  let! r := simplefs_read_metadata n in
  if IS_ERR r then ret r else
  let! p := simplefs_journal_prepare_current n in
  ret (if negb (p =? 0) then - EIO else 0).

Definition simplefs_get_zeroed_folio (n : Z) : M Z :=
  let! r := simplefs_journal_zero_current n in
  if negb (r =? 0) then ret r else
  let! r := simplefs_read_metadata n in
  if IS_ERR r then ret r else
  run! write_image n 0 in ret 0.

Section Preserve.
Context (I : world -> Prop).

Lemma read_metadata_pres `{!KStable I} n : preserves I (simplefs_read_metadata n).
Proof. unfold simplefs_read_metadata. pres. Qed.
Local Hint Resolve read_metadata_pres : pres.
Lemma get_folio_pres `{!KStable I} n : preserves I (simplefs_get_folio n).
Proof. unfold simplefs_get_folio. pres. Qed.
Lemma get_zeroed_folio_pres `{!JStable I} n : preserves I (simplefs_get_zeroed_folio n).
Proof. unfold simplefs_get_zeroed_folio. pres. Qed.
End Preserve.

(** A read leaves the metadata images alone, and so does taking write access. *)
Lemma current_handle_frame_bdev : frame w_bdev simplefs_current_jbd2_handle.
Proof. unfold simplefs_current_jbd2_handle. frames. Qed.
Lemma current_handle_frame_sbi : frame w_sbi simplefs_current_jbd2_handle.
Proof. unfold simplefs_current_jbd2_handle. frames. Qed.
Lemma read_metadata_frame_bdev n : frame w_bdev (simplefs_read_metadata n).
Proof. unfold simplefs_read_metadata. frames. Qed.
Lemma read_metadata_frame_sbi n : frame w_sbi (simplefs_read_metadata n).
Proof. unfold simplefs_read_metadata. frames. Qed.
Local Hint Resolve current_handle_frame_bdev current_handle_frame_sbi
  read_metadata_frame_bdev read_metadata_frame_sbi : frame.
Lemma get_folio_frame_bdev n : frame w_bdev (simplefs_get_folio n).
Proof. unfold simplefs_get_folio, simplefs_journal_prepare_current. frames. Qed.
Lemma get_folio_frame_sbi n : frame w_sbi (simplefs_get_folio n).
Proof. unfold simplefs_get_folio, simplefs_journal_prepare_current. frames. Qed.

End MetaBuf.

#[export] Hint Resolve read_metadata_pres get_folio_pres get_zeroed_folio_pres : pres.
#[export] Hint Resolve current_handle_frame_bdev current_handle_frame_sbi
  read_metadata_frame_bdev read_metadata_frame_sbi
  get_folio_frame_bdev get_folio_frame_sbi : frame.
