(* ===== verification/Alloc.v ===== *)
(** * Alloc: the inode and block bitmaps (simplefs_bitmap.h)

    In-memory bitmaps with one bit per inode or block, 1 meaning free, and the
    free counters beside them, persisted through the journal adapter.  The
    theorems: first-fit search, the exact effect of allocation and release on
    every branch, the counters always equal to the number of free bits, and the
    discard queue always inside the free map. *)

From stdpp Require Import base list numbers gmap.
From S2P Require Import Prelude Image Layout Kernel DiskFormat Discard Journal MetaBuf.

Local Open Scope Z_scope.
Local Open Scope fs_scope.

Definition BITS_PER_BLOCK : Z := SIMPLEFS_BLOCK_SIZE * 8.

(** The bitmap block [index] of an in-memory bitmap. *)
Definition bitmap_block (bm index : Z) : Z :=
  get_bytes bm (index * SIMPLEFS_BLOCK_SIZE) SIMPLEFS_BLOCK_SIZE.

(** The [for_each_set_bit_from] loop of [get_first_free_bits_from]: [bit] is the
    next position to look at; the result is the found bit and the map. *)
Fixpoint first_free_loop (fuel : nat) (freemap size len bit prev count : Z) : Z * Z :=
  match fuel with
  | O => (0, freemap)
  | S fuel' =>
      let bit := find_next_bit freemap size bit in
      if negb (bit <? size) then (0, freemap) else
      let count := if negb (prev =? u32 (bit - 1)) then 0 else count in
      let prev := bit in
      let count := u32 (count + 1) in
      if count =? len then
        (bit - len + 1, bitmap_clear freemap (bit - len + 1) len)
      else first_free_loop fuel' freemap size len (bit + 1) prev count
  end.

(** Each iteration moves [bit] up, so [size - start + 1] of them are enough. *)
Definition get_first_free_bits_from (freemap size len start : Z) : Z * Z :=
  first_free_loop (Z.to_nat (size - start + 1)) freemap size len start 0 0.

Definition get_first_free_bits (freemap size len : Z) : Z * Z :=
  get_first_free_bits_from freemap size len 0.

Definition put_free_bits (freemap size i len : Z) : Z * Z :=
  if (len =? 0) || (size <=? i) || (size - i <? len) then (- EINVAL, freemap)
  else (0, bitmap_set freemap i len).

(** [1 + nr_istore_blocks + nr_ifree_blocks + nr_bfree_blocks] *)
Definition root_dir_block (s : sb_info) : Z :=
  u32 (1 + nr_istore_blocks s + nr_ifree_blocks s + nr_bfree_blocks s).

(** [!bno || !len || bno >= nr_blocks || len > nr_blocks - bno] *)
Definition bad_block_range (s : sb_info) (bno len : Z) : bool :=
  (bno =? 0) || (len =? 0) || (nr_blocks s <=? bno) || (nr_blocks s - bno <? len).

Section Ops.
Context {K : Kernel}.

Definition simplefs_journal_bitmap (inode_map : bool) (bit len : Z) : M Z :=
  let! s := get_sbi in
  if negb (bool_decide (is_Some (s_journal s))) || (len =? 0) then ret 0 else
  let index := bit / BITS_PER_BLOCK in
  let last := u32 (bit + len - 1) / BITS_PER_BLOCK in
  for_z (Z.to_nat (last - index + 1)) index (fun index =>
    let! s := get_sbi in
    if inode_map then
      simplefs_journal_block (u32 (1 + nr_istore_blocks s + index))
                             (bitmap_block (ifree_bitmap s) index)
    else
      simplefs_journal_block (u32 (1 + nr_istore_blocks s + nr_ifree_blocks s + index))
                             (bitmap_block (bfree_bitmap s) index)).

Definition simplefs_journal_free_counts : M Z :=
  let! s := get_sbi in
  if negb (bool_decide (is_Some (s_journal s))) then ret 0 else
  let! r := simplefs_get_folio SIMPLEFS_SB_BLOCK_NR in
  if IS_ERR r then ret r else
  let! img := read_image SIMPLEFS_SB_BLOCK_NR in
  run! write_image SIMPLEFS_SB_BLOCK_NR
         (put_u32 (put_u32 img sb_off_nr_free_inodes (nr_free_inodes s))
                  sb_off_nr_free_blocks (nr_free_blocks s)) in
  simplefs_journal_dirty_folio SIMPLEFS_SB_BLOCK_NR (folio_of SIMPLEFS_SB_BLOCK_NR).

Definition simplefs_persist_bitmap (inode_map : bool) (bit len : Z) : M Z :=
  let! r := simplefs_journal_bitmap inode_map bit len in
  let! r := (if r =? 0 then simplefs_journal_free_counts else ret r) in
  run! when (negb (r =? 0)) (simplefs_journal_fail r) in
  ret r.

Definition get_free_inode : M Z :=
  let! handle := simplefs_journal_start_sb 1 in
  if HANDLE_IS_ERR handle then ret 0 else
  run! lock_bitmap in
  let! s := get_sbi in
  let '(r, map) := get_first_free_bits (ifree_bitmap s) (nr_inodes s) 1 in
  run! upd_sbi (set_ifree_bitmap map) in
  let! r := (if negb (r =? 0) then
               run! upd_sbi (upd_disk (fun d => set_nr_free_inodes (u32 (nr_free_inodes d - 1)) d)) in
               let! p := simplefs_persist_bitmap true r 1 in
               ret (if negb (p =? 0) then 0 else r)
             else ret r) in
  run! unlock_bitmap in
  let! st := simplefs_journal_stop handle in
  ret (if negb (st =? 0) then 0 else r).

(** Cancel the pending discard of a range, if there is a queue. *)
Definition cancel_discard (bno len : Z) (s : sb_info) : sb_info :=
  set_discard_pending (option_map (fun p => bitmap_clear p bno len) (discard_pending s)) s.

(** The [for (;;)] of [__simplefs_get_free_blocks]; [None] when the fuel runs out. *)
Fixpoint get_free_blocks_loop (fuel : nat) (len search : Z) : M (option Z) :=
  match fuel with
  | O => ret None
  | S fuel' =>
      let! s := get_sbi in
      let '(r, map) := get_first_free_bits_from (bfree_bitmap s) (nr_blocks s) len search in
      run! upd_sbi (set_bfree_bitmap map) in
      if r =? 0 then ret (Some 0) else
      let! p := simplefs_journal_prepare_new_blocks r len in
      if negb (p =? 0) then
        run! upd_sbi (fun s => set_bfree_bitmap (bitmap_set (bfree_bitmap s) r len) s) in
        if p =? - EAGAIN then get_free_blocks_loop fuel' len (u32 (r + 1))
        else ret (Some 0)
      else
      run! upd_sbi (upd_disk (fun d => set_nr_free_blocks (u32 (nr_free_blocks d - len)) d)) in
      run! upd_sbi (cancel_discard r len) in
      let! p := simplefs_persist_bitmap false r len in
      ret (Some (if negb (p =? 0) then 0 else r))
  end.

(** Stands for a loop that did not end within its fuel: no block has this number. *)
Definition out_of_fuel : Z := -1.

(** Every retry raises [search], which stays below [nr_blocks]. *)
Definition get_free_blocks (len : Z) : M Z :=
  let! handle := simplefs_journal_start_sb 1 in
  if HANDLE_IS_ERR handle then ret 0 else
  run! lock_bitmap in
  let! s := get_sbi in
  let! r := get_free_blocks_loop (Z.to_nat (nr_blocks s + 2)) len 0 in
  run! unlock_bitmap in
  let! st := simplefs_journal_stop handle in
  ret (if negb (st =? 0) then 0 else default out_of_fuel r).

Definition simplefs_blocks_are_free (bno len : Z) : M bool :=
  let! s := get_sbi in
  if bad_block_range s bno len then ret false else
  run! lock_bitmap in
  let! s := get_sbi in
  let free := all_setb (bfree_bitmap s) bno len in
  run! unlock_bitmap in
  ret free.

Definition simplefs_take_exact_blocks (bno len : Z) : M bool :=
  let! s := get_sbi in
  if bad_block_range s bno len then ret false else
  let! handle := simplefs_journal_start_sb 1 in
  if HANDLE_IS_ERR handle then ret false else
  let out_false := run! unlock_bitmap in run! simplefs_journal_stop handle in ret false in
  run! lock_bitmap in
  let! s := get_sbi in
  if negb (all_setb (bfree_bitmap s) bno len) then out_false else
  run! upd_sbi (fun s => set_bfree_bitmap (bitmap_clear (bfree_bitmap s) bno len) s) in
  let! p := simplefs_journal_prepare_new_blocks bno len in
  if negb (p =? 0) then
    run! upd_sbi (fun s => set_bfree_bitmap (bitmap_set (bfree_bitmap s) bno len) s) in
    out_false
  else
  run! upd_sbi (cancel_discard bno len) in
  run! upd_sbi (upd_disk (fun d => set_nr_free_blocks (u32 (nr_free_blocks d - len)) d)) in
  let! p := simplefs_persist_bitmap false bno len in
  if negb (p =? 0) then out_false else
  run! unlock_bitmap in
  let! st := simplefs_journal_stop handle in
  ret (st =? 0).

Definition put_inode (ino : Z) : M unit :=
  let ino := u32 ino in
  let! handle := simplefs_journal_start_sb 1 in
  if HANDLE_IS_ERR handle then ret tt else
  run! lock_bitmap in
  let! s := get_sbi in
  run! (if (ino =? 0) || (nr_inodes s <=? ino) then ret tt else
        if test_bit (ifree_bitmap s) ino then ret tt else
        let '(r, map) := put_free_bits (ifree_bitmap s) (nr_inodes s) ino 1 in
        run! upd_sbi (set_ifree_bitmap map) in
        if negb (r =? 0) then ret tt else
        run! upd_sbi (upd_disk (fun d => set_nr_free_inodes (u32 (nr_free_inodes d + 1)) d)) in
        run! simplefs_persist_bitmap true ino 1 in ret tt) in
  run! unlock_bitmap in
  run! simplefs_journal_stop handle in ret tt.

Definition put_blocks (bno len : Z) : M unit :=
  let bno := u32 bno in
  let len := u32 len in
  let! handle := simplefs_journal_start_sb 1 in
  if HANDLE_IS_ERR handle then ret tt else
  run! lock_bitmap in
  let! s := get_sbi in
  let root := root_dir_block s in
  run! (if bad_block_range s bno len then ret tt else
        if (bno <=? root) && (root <? u32 (bno + len)) then ret tt else
        if negb (none_setb (bfree_bitmap s) bno len) then ret tt else
        let '(r, map) := put_free_bits (bfree_bitmap s) (nr_blocks s) bno len in
        run! upd_sbi (set_bfree_bitmap map) in
        if negb (r =? 0) then ret tt else
        run! upd_sbi (upd_disk (fun d => set_nr_free_blocks (u32 (nr_free_blocks d + len)) d)) in
        run! when (s_discard s) (upd_sbi (fun s => set_discard_pending
               (option_map (fun p => bitmap_set p bno len) (discard_pending s)) s)) in
        run! simplefs_persist_bitmap false bno len in ret tt) in
  run! unlock_bitmap in
  let! st := simplefs_journal_stop handle in
  let! s := get_sbi in
  if negb (st =? 0) then ret tt else
  if s_discard s && negb (has_jbd2 (s_journal s)) then
    run! simplefs_issue_pending_discards in ret tt
  else ret tt.

End Ops.

(** ** First fit *)

(** The scan state: nothing seen yet, or a run of [count] set bits that ends
    just before [bit] and cannot be extended to the left. *)
Definition scan_state (fm start bit prev count : Z) : Prop :=
  (bit = start /\ prev = 0 /\ count = 0) \/
  (1 <= count /\ prev = bit - 1 /\ start <= bit - count /\ all_set fm (bit - count) count /\
   (bit - count = start \/ test_bit fm (bit - count - 1) = false)).

Definition no_run_before (fm start len bound : Z) : Prop :=
  forall r', start <= r' -> r' + len <= bound -> ~ all_set fm r' len.

(** What the search returns. *)
Definition first_fit (fm size len start r map : Z) : Prop :=
  (0 < len /\ start <= r /\ r + len <= size /\ all_set fm r len /\
   map = bitmap_clear fm r len /\ no_run_before fm start len (r + len - 1)) \/
  (r = 0 /\ map = fm /\ (0 < len -> no_run_before fm start len size)).

(** The run that ends at the set bit [b], found from [bit]. *)
Definition next_count (b prev count : Z) : Z :=
  u32 ((if negb (prev =? u32 (b - 1)) then 0 else count) + 1).

Lemma scan_step fm size start bit prev count b :
  0 <= start <= bit -> bit <= b < size -> size <= U32_MAX -> prev < size ->
  scan_state fm start bit prev count ->
  (forall j, bit <= j < b -> test_bit fm j = false) -> test_bit fm b = true ->
  1 <= next_count b prev count /\ scan_state fm start (b + 1) b (next_count b prev count).
Proof.
  unfold U32_MAX. intros Hs Hb Hsz Hp Hst Hclr Hset.
  assert (Hreset : forall c, c = 1 -> 1 <= c /\ (b = start \/ test_bit fm (b - 1) = false ->
            scan_state fm start (b + 1) b c)).
  { intros c ->. split; [lia|]. intros Hl. right. split_and!; try lia.
    - intros k Hk. by replace k with b by lia.
    - destruct Hl; [left; lia|right]. by replace (b + 1 - 1 - 1) with (b - 1) by lia. }
  assert (Hgap : bit < b -> b = start \/ test_bit fm (b - 1) = false) by (right; apply Hclr; lia).
  unfold next_count.
  destruct Hst as [(-> & -> & ->)|(Hc & -> & Hlo & Hall & Hmax)].
  - replace (if negb _ then 0 else 0) with 0 by by case_match.
    destruct (Hreset (u32 (0 + 1))) as [H1 H2]; [done|]. split; [done|]. apply H2.
    destruct (Z.eq_dec b start); [by left|]. apply Hgap. lia.
  - destruct (Z.eqb_spec (bit - 1) (u32 (b - 1))) as [He|He]; cbn [negb].
    + rewrite u32_id in He by (unfold is_u32, U32_MAX; lia).
      rewrite u32_id by (unfold is_u32, U32_MAX; lia). split; [lia|]. right.
      assert (b = bit) as -> by lia. split_and!; try lia.
      * intros k Hk. destruct (Z.eq_dec k bit) as [->|]; [done|]. apply Hall. lia.
      * replace (bit + 1 - (count + 1)) with (bit - count) by lia. done.
    + destruct (Hreset (u32 (0 + 1))) as [H1 H2]; [done|]. split; [done|]. apply H2, Hgap.
      destruct (Z.eq_dec b bit) as [->|]; [|lia].
      rewrite u32_id in He by (unfold is_u32, U32_MAX; lia). lia.
Qed.

(** A run cannot end inside the clear gap before [b]. *)
Lemma no_run_gap fm start len bit b :
  0 < len -> bit <= b -> no_run_before fm start len bit ->
  (forall j, bit <= j < b -> test_bit fm j = false) -> no_run_before fm start len b.
Proof.
  intros Hl Hb Hno Hclr r' Hr' Hend Hall.
  destruct (Z_le_gt_dec (r' + len) bit); [by apply (Hno r')|].
  assert (test_bit fm (r' + len - 1) = true) by (apply Hall; lia).
  rewrite Hclr in H by lia. done.
Qed.

(** A run that is shorter than [len] when its last bit is reached does not fit. *)
Lemma no_run_short fm start len b count :
  count < len -> scan_state fm start (b + 1) b count -> 1 <= count ->
  no_run_before fm start len b -> no_run_before fm start len (b + 1).
Proof.
  intros Hlt Hst Hc Hno r' Hr' Hend Hall.
  destruct (Z_le_gt_dec (r' + len) b); [by apply (Hno r')|].
  destruct Hst as [(? & ? & ?)|(_ & _ & Hlo & _ & [Hm|Hm])]; [lia|lia|].
  rewrite Hall in Hm by lia. done.
Qed.

Lemma first_free_loop_spec fm size len start : forall fuel bit prev count,
  0 <= start <= bit -> size <= U32_MAX -> 0 <= len -> prev < size -> 0 <= count ->
  (0 < len -> count < len) ->
  size - bit + 1 <= Z.of_nat fuel ->
  scan_state fm start bit prev count -> (0 < len -> no_run_before fm start len bit) ->
  let '(r, map) := first_free_loop fuel fm size len bit prev count in
  first_fit fm size len start r map.
Proof.
  induction fuel as [|fuel IH]; intros bit prev count Hs Hsz Hl Hp Hc0 Hc Hf Hst Hno; cbn [first_free_loop].
  - right. split_and!; [done..|]. intros Hl' r' Hr' Hend. apply Hno; [done..|lia].
  - destruct (Z_le_gt_dec bit size) as [Hle|Hgt].
    2:{ assert (find_next_bit fm size bit = size) as ->.
        { unfold find_next_bit. by replace (Z.to_nat (size - bit)) with 0%nat by lia. }
        rewrite Z.ltb_irrefl. right. split_and!; [done..|].
        intros Hl' r' Hr' Hend. apply Hno; [done..|lia]. }
    destruct (find_next_bit_spec fm size bit Hle) as (F1 & F2 & F3).
    set (b := find_next_bit fm size bit) in *.
    assert (Hnob : 0 < len -> no_run_before fm start len b)
      by (intros Hl'; apply (no_run_gap fm start len bit b); auto; lia).
    destruct (Z.ltb_spec b size) as [Hlt|Hge]; cbn [negb].
    2:{ right. split_and!; [done..|]. by replace size with b by lia. }
    fold (next_count b prev count).
    destruct (scan_step fm size start bit prev count b) as [Hc1 Hst']; [lia..|done|done|auto|].
    destruct (Z.eqb_spec (next_count b prev count) len) as [He|Hne].
    + left. destruct Hst' as [(? & ? & ?)|(_ & _ & Hlo & Hall & _)]; [lia|].
      rewrite He in *. replace (b + 1 - len) with (b - len + 1) in * by lia.
      split_and!; [lia..|done|done|]. replace (b - len + 1 + len - 1) with b by lia.
      apply Hnob. lia.
    + assert (Hcl : 0 < len -> next_count b prev count < len).
      { intros Hl'. assert (next_count b prev count <= count + 1); [|specialize (Hc Hl'); lia].
        unfold next_count, u32. case_match; [change ((0 + 1) mod 4294967296) with 1; lia|].
        apply Z.mod_le; lia. }
      apply IH; try done; try lia. intros Hl'. by apply (no_run_short fm start len b (next_count b prev count)); auto.
Qed.

Lemma first_free_bits_spec fm size len start r map :
  0 <= start -> 0 < size <= U32_MAX -> 0 <= len ->
  get_first_free_bits_from fm size len start = (r, map) -> first_fit fm size len start r map.
Proof.
  intros Hs Hsz Hl E. pose proof (first_free_loop_spec fm size len start
    (Z.to_nat (size - start + 1)) start 0 0) as H.
  unfold get_first_free_bits_from in E. rewrite E in H.
  destruct (Z_le_gt_dec start (size + 1)).
  - apply H; try lia.
    + by left.
    + intros Hl' r' Hr' Hend Hall. lia.
  - replace (Z.to_nat (size - start + 1)) with 0%nat in E by lia. cbn in E. simplify_eq.
    right. split_and!; [done..|]. intros _ r' ? ?. lia.
Qed.

(** ** The allocator's state and what leaves it alone *)

(** What the allocator reads and writes; everything but the journal adapter and
    the shutdown flag. *)
Definition astate_of (s : sb_info) :=
  (sbi_disk s, ifree_bitmap s, bfree_bitmap s, discard_pending s, s_discard s, bitmap_lock s).

Section Frames.
Context {K : Kernel}.

Definition astate (w : world) := astate_of (w_sbi w).

#[export] Instance astate_jstable v : JStable (fun w => astate w = v).
Proof. by apply (view_jstable astate (fun x => x = v)). Qed.

(** Whatever the adapter promises to leave alone includes the allocator's state. *)
Lemma astate_frame {A} (m : M A) :
  (forall I, JStable I -> preserves I m) -> frame astate m.
Proof. intros H w. exact (H _ (astate_jstable (astate w)) w eq_refl). Qed.

Section Pres.
Context (I : world -> Prop) `{HJ : !JStable I}.

Lemma journal_bitmap_pres b bit len : preserves I (simplefs_journal_bitmap b bit len).
Proof. unfold simplefs_journal_bitmap. pres. Qed.
Lemma free_counts_pres : preserves I simplefs_journal_free_counts.
Proof. unfold simplefs_journal_free_counts. pres. Qed.
Local Hint Resolve journal_bitmap_pres free_counts_pres : pres.
Lemma persist_bitmap_pres b bit len : preserves I (simplefs_persist_bitmap b bit len).
Proof. unfold simplefs_persist_bitmap. pres. Qed.
End Pres.

Lemma start_sb_astate n : frame astate (simplefs_journal_start_sb n).
Proof. apply astate_frame. intros; pres. Qed.
Lemma stop_astate h : frame astate (simplefs_journal_stop h).
Proof. apply astate_frame. intros; pres. Qed.
Lemma prepare_new_blocks_astate n len : frame astate (simplefs_journal_prepare_new_blocks n len).
Proof. apply astate_frame. intros; pres. Qed.
Lemma persist_astate b bit len : frame astate (simplefs_persist_bitmap b bit len).
Proof. apply astate_frame. intros I HI. by apply persist_bitmap_pres. Qed.

(** A failure to persist latches the shutdown flag. *)
Lemma persist_spec b bit len w :
  wp (simplefs_persist_bitmap b bit len) (fun r w' =>
    astate w' = astate w /\ (r <> 0 -> s_shutdown (w_sbi w') = true)) w.
Proof.
  apply wp_conj; [apply (frame_wp astate), persist_astate|].
  unfold simplefs_persist_bitmap. apply wp_bind. eapply wp_mono; [by apply (wp_pres (fun _ => True))|].
  intros r1 w1 _. apply wp_bind. eapply wp_mono; [by apply (wp_pres (fun _ => True))|].
  intros r2 w2 _. apply wp_bind. destruct (Z.eqb_spec r2 0) as [->|]; cbn [negb]; kwp; [done|].
  unfold simplefs_journal_fail. kwp. destruct (has_jbd2 _); kwp; done.
Qed.

End Frames.

(** ** The abstract operations

    On the allocator's state: taking or giving back a run of blocks. *)

Definition take_blocks (r len : Z) (s : sb_info) : sb_info :=
  cancel_discard r len
    (upd_disk (fun d => set_nr_free_blocks (u32 (nr_free_blocks d - len)) d)
       (set_bfree_bitmap (bitmap_clear (bfree_bitmap s) r len) s)).

Definition give_blocks (r len : Z) (s : sb_info) : sb_info :=
  let s' := upd_disk (fun d => set_nr_free_blocks (u32 (nr_free_blocks d + len)) d)
              (set_bfree_bitmap (bitmap_set (bfree_bitmap s) r len) s) in
  if s_discard s then
    set_discard_pending (option_map (fun p => bitmap_set p r len) (discard_pending s)) s'
  else s'.

(** Two superblock records that agree on the allocator's state. *)
Definition aeq (s s' : sb_info) : Prop := astate_of s = astate_of s'.
#[export] Instance aeq_equiv : Equivalence aeq.
Proof. split; unfold aeq; [intros ?|intros ? ?|intros ? ? ?]; congruence. Qed.

Lemma astate_inv (s s' : sb_info) : aeq s s' ->
  sbi_disk s = sbi_disk s' /\ ifree_bitmap s = ifree_bitmap s' /\
  bfree_bitmap s = bfree_bitmap s' /\ discard_pending s = discard_pending s' /\
  s_discard s = s_discard s' /\ bitmap_lock s = bitmap_lock s'.
Proof. unfold aeq, astate_of. by intros [= -> -> -> -> -> ->]. Qed.

#[export] Instance take_blocks_proper r len : Proper (aeq ==> aeq) (take_blocks r len).
Proof.
  intros s s' (E1 & E2 & E3 & E4 & E5 & E6)%astate_inv. unfold aeq, astate_of; cbn.
  by rewrite E1, E2, E3, E4, E5, E6.
Qed.
#[export] Instance give_blocks_proper r len : Proper (aeq ==> aeq) (give_blocks r len).
Proof.
  intros s s' (E1 & E2 & E3 & E4 & E5 & E6)%astate_inv. unfold aeq, astate_of, give_blocks.
  rewrite E5. destruct (s_discard s') eqn:E7; cbn; by rewrite E1, E2, E3, E4, E5, E6, E7.
Qed.

(** A run of free blocks inside the device. *)
Definition free_run (s : sb_info) (r len : Z) : Prop :=
  0 < r /\ 0 < len /\ r + len <= nr_blocks s /\ all_set (bfree_bitmap s) r len.

(** The device's geometry and the two reserved bits. *)
Definition geometry_ok (s : sb_info) : Prop :=
  0 < nr_blocks s <= U32_MAX /\ 0 < nr_inodes s <= U32_MAX /\
  test_bit (bfree_bitmap s) 0 = false /\ test_bit (ifree_bitmap s) 0 = false.


Lemma first_fit_nonzero fm size len start r map :
  test_bit fm 0 = false -> 0 <= start ->
  first_fit fm size len start r map ->
  (r <> 0 /\ 0 < r /\ start <= r /\ 0 < len /\ r + len <= size /\ all_set fm r len /\
   map = bitmap_clear fm r len) \/ (r = 0 /\ map = fm).
Proof.
  intros H0 Hs [(Hl & Hr & He & Hall & Hm & _)|(-> & -> & _)]; [|by right].
  destruct (Z.eq_dec r 0) as [->|]; [rewrite Hall in H0 by lia; done|].
  left. split_and!; try done; lia.
Qed.

(** ** What the allocator leaves alone

    [AStable] predicates also survive the allocator's own updates, [IStable] ones
    every change to the in-core inodes too; the write-ahead discipline and the
    shutdown latch are both. *)
Section AStable.
Context {K : Kernel}.

Class AStable (I : world -> Prop) : Prop := {
  as_jstable :: JStable I;
  as_dstable :: DStable I;
  as_upd : forall f, (forall s, s_shutdown (f s) = s_shutdown s) -> (forall s, s_journal (f s) = s_journal s) ->
    preserves I (upd_sbi f)
}.

Class IStable (I : world -> Prop) : Prop := {
  is_astable :: AStable I;
  is_inodes : forall f, preserves I (modify (fun w => set_w_inodes (f (w_inodes w)) w))
}.

#[export] Instance wal_astable : IStable (fun w => wal_ok (w_trace w)).
Proof. split; [split; [apply _..|]|]; [intros f _ _ w Hw|intros f w Hw]; exact Hw. Qed.
#[export] Instance shutdown_astable : IStable (fun w => s_shutdown (w_sbi w) = true).
Proof.
  split; [split; [apply _..|]|]; [intros f Hf _ w Hw; cbn; by rewrite Hf|intros f w Hw; exact Hw].
Qed.
#[export] Instance answered_astable w0 P : IStable (answered_since w0 P).
Proof. split; [split; [apply _..|]|]; [intros f _ _ w Hw|intros f w Hw]; exact Hw. Qed.
#[export] Instance extends_astable w0 : IStable (extends w0).
Proof. split; [split; [apply _..|]|]; [intros f _ _ w Hw|intros f w Hw]; exact Hw. Qed.
(** A file system mounted without a journal stays so. *)
#[export] Instance unjournaled_astable : IStable (fun w => s_journal (w_sbi w) = None).
Proof.
  split; [split|]; [split; [split|]|split|intros f _ Hf w Hw; cbn; by rewrite Hf|intros f w Hw; exact Hw].
  all: try (intros; intros w Hw; exact Hw).
  - intros c _ w Hw. unfold kdo. by destruct (kstep _ c).
  - intros h n w _ Hw. unfold kdo. by destruct (kstep _ _).
  - intros f w Hw. cbn. by rewrite Hw.
Qed.
(** The allocator changes no inode. *)
#[export] Instance inodes_astable (P : gmap Z inode -> Prop) : AStable (fun w => P (w_inodes w)).
Proof.
  split.
  - by apply (view_jstable w_inodes P).
  - split; intros; intros w Hw; exact Hw.
  - intros f _ _ w Hw. exact Hw.
Qed.

Context (I : world -> Prop) `{HA : !AStable I}.

Ltac apres :=
  unfold lock_bitmap, unlock_bitmap in *;
  repeat (pres_step || (apply as_upd; by intros)).

Local Hint Resolve persist_bitmap_pres : pres.

Lemma get_free_inode_apres : preserves I get_free_inode.
Proof. unfold get_free_inode. apres. Qed.
Lemma get_free_blocks_loop_apres len fuel : forall s, preserves I (get_free_blocks_loop fuel len s).
Proof.
  induction fuel as [|fuel IH]; intros s; cbn [get_free_blocks_loop]; [pres|].
  repeat (pres_step || (apply as_upd; by intros) || apply IH).
Qed.
Local Hint Resolve get_free_blocks_loop_apres : pres.
Lemma get_free_blocks_apres len : preserves I (get_free_blocks len).
Proof. unfold get_free_blocks. apres. Qed.
Lemma blocks_are_free_apres b len : preserves I (simplefs_blocks_are_free b len).
Proof. unfold simplefs_blocks_are_free. apres. Qed.
Lemma take_exact_apres b len : preserves I (simplefs_take_exact_blocks b len).
Proof. unfold simplefs_take_exact_blocks. apres. Qed.
Lemma put_inode_apres ino : preserves I (put_inode ino).
Proof. unfold put_inode. apres. Qed.
Lemma put_blocks_apres b len : preserves I (put_blocks b len).
Proof. unfold put_blocks. apres. Qed.
End AStable.

(** An answer for which an allocation gives up: no memory for a handle, no handle, or
    a buffer of a block found in memory, whose transaction must end first. *)
Definition refusal (c : kcall) (r : Z) : Prop :=
  match c with
  | Kmalloc | SbFindGetBlock _ => r <> 0
  | Jbd2Start _ => r < 0
  | _ => False
  end.

Section Specs.
Context {K : Kernel}.

Lemma prepare_new_blocks_refusal n len w :
  wp (simplefs_journal_prepare_new_blocks n len) (fun r w' => r = 0 \/ answered_since w refusal w') w.
Proof.
  assert (Hone : forall b w1, extends w w1 -> wp (prepare_new_block b) (fun r w2 => extends w w2 /\ (r = 0 \/ answered_since w refusal w2)) w1).
  { intros b w1 H1. apply wp_conj; [apply (wp_pres (extends w)); [unfold prepare_new_block, buffer_transaction_owned; pres|done]|].
    unfold prepare_new_block. apply wp_bind, wp_kdo. intros r k Hk.
    destruct (Z.eqb_spec r 0); [apply wp_ret; by left|].
    eapply wp_mono; [apply (wp_pres (answered_since w refusal)); [unfold buffer_transaction_owned; pres|]|by right].
    destruct H1 as (t & Ht). by apply (answered_cons w refusal w1 _ (SbFindGetBlock b) r t). }
  unfold simplefs_journal_prepare_new_blocks. kwp. wp_if; [apply wp_ret; by left|]. kwp.
  eapply wp_mono; [apply (wp_pres (extends w)); [pres|apply extends_refl]|]. intros h w1 H1.
  wp_if; [apply wp_ret; by left|]. revert w1 H1.
  assert (Hloop : forall m i w1, extends w w1 -> wp (for_z m i (fun i => prepare_new_block (u32 (n + i))))
    (fun r w' => r = 0 \/ answered_since w refusal w') w1); [|by intros; apply Hloop].
  induction m as [|m IH]; intros i w1 H1; cbn [for_z].
  { apply wp_ret. by left. }
  apply wp_bind. eapply wp_mono; [by apply Hone|]. intros r w2 [H2 Hr].
  destruct (Z.eqb_spec r 0) as [->|Hne]; [by apply IH|]. apply wp_ret. destruct Hr; [done|by right].
Qed.

(** The retry loop: it ends (never [None]), and what it did to the state is
    nothing, or one run taken; the number is returned unless persisting failed.
    Nothing is taken only when no run is free or the journal refused one. *)
Lemma get_free_blocks_loop_spec len fuel : forall search w,
  0 <= len <= U32_MAX -> geometry_ok (w_sbi w) -> 0 <= search ->
  (0 < fuel)%nat -> nr_blocks (w_sbi w) - search + 2 <= Z.of_nat fuel ->
  wp (get_free_blocks_loop fuel len search) (fun r w' =>
    (r = Some 0 /\ aeq (w_sbi w') (w_sbi w) /\
     ((forall b, search <= b -> ~ free_run (w_sbi w) b len) \/ answered_since w refusal w')) \/
    exists b, free_run (w_sbi w) b len /\ aeq (w_sbi w') (take_blocks b len (w_sbi w)) /\
      (r = Some b \/ (r = Some 0 /\ s_shutdown (w_sbi w') = true))) w.
Proof.
  induction fuel as [|fuel IH]; intros search w Hlen Hg Hs Hf0 Hf; [lia|].
  pose proof Hg as (Hnb & _ & H0 & _). unfold U32_MAX in *.
  cbn [get_free_blocks_loop]. kwp.
  destruct (get_first_free_bits_from _ _ len search) as [r map] eqn:E.
  apply first_free_bits_spec in E; [|unfold U32_MAX; lia..]. pose proof E as Efit.
  apply first_fit_nonzero in E; [|done..].
  kwp. destruct E as [(Hr & Hpos & Hsr & Hl & He & Hall & ->)|(-> & ->)].
  2:{ kwp. left. split_and!; [done|by cbn; destruct (w_sbi w)|]. left. intros b Hb (F1 & F2 & F3 & F4).
      destruct Efit as [(_ & _ & _ & Hall & _)|(_ & _ & Hno)]; [by rewrite Hall in H0 by lia|].
      apply (Hno F2 b); [lia..|done]. }
  rewrite (proj2 (Z.eqb_neq r 0) Hr). kwp.
  eapply wp_mono; [apply wp_conj; [apply (frame_wp astate), prepare_new_blocks_astate|apply prepare_new_blocks_refusal]|].
  intros p w1 [H1 Href]; cbn beta in *. apply (astate_inv (w_sbi w1)) in H1 as (D1 & D2 & D3 & D4 & D5 & D6); cbn in *.
  destruct (Z.eqb_spec p 0) as [->|Hp]; cbn [negb]; kwp.
  - eapply wp_mono; [apply persist_spec|]. intros p' w2 [Ha Hsd]; kwp.
    right. exists r. split; [done|]. split.
    { unfold aeq. change (astate w2 = astate_of (take_blocks r len (w_sbi w))).
      rewrite Ha. unfold astate, astate_of. cbn. by rewrite D1, D2, D3, D4, D5, D6. }
    destruct (Z.eqb_spec p' 0); cbn [negb]; auto.
  - destruct Href as [|Href]; [done|]. change (answered_since w refusal w1) in Href.
    set (w2 := set_w_sbi _ _). change (answered_since w refusal w2) in Href.
    assert (Hback : aeq (w_sbi w2) (w_sbi w)).
    { unfold aeq, w2, astate_of. cbn. rewrite D1, D2, D3, D4, D5, D6.
      by rewrite bitmap_set_clear by lia || done. }
    apply astate_inv in Hback as B. destruct B as (B1 & B2 & B3 & B4 & B5 & B6).
    destruct (p =? - EAGAIN); kwp; [|left; split_and!; [done|exact Hback|by right]].
    assert (Hu : u32 (r + 1) = r + 1) by (apply u32_id; unfold is_u32, U32_MAX; lia).
    rewrite Hu.
    eapply wp_mono; [apply wp_conj; [apply (IH (r + 1) w2)|
      apply (wp_pres (answered_since w refusal)); [apply (get_free_blocks_loop_apres _)|exact Href]]|].
    + unfold U32_MAX; lia.
    + unfold geometry_ok. by rewrite B1, B2, B3.
    + lia.
    + lia.
    + rewrite B1. lia.
    + intros r' w' [[(-> & Ha & _)|(b & (F1 & F2 & F3 & F4) & Ha & Hr')] Hsince].
      * left. split_and!; [done|by rewrite Ha|by right].
      * right. exists b. rewrite B1 in F3. rewrite B3 in F4. split; [done|]. split; [|done].
        by rewrite Ha, Hback.
Qed.

(** Closing a handle: the allocator's state and the latch survive, and a failure
    is on record. *)
Lemma stop_alloc hd w :
  wp (simplefs_journal_stop hd) (fun r w' =>
    aeq (w_sbi w') (w_sbi w) /\ (s_shutdown (w_sbi w) = true -> s_shutdown (w_sbi w') = true) /\
    (r <> 0 -> exists h, hd = HOpen h /\ In (Jbd2Stop h, r) (w_trace w'))) w.
Proof.
  apply wp_conj; [apply (frame_wp astate), stop_astate|]. apply wp_conj.
  - intros Hs. by apply (journal_stop_pres (fun w => s_shutdown (w_sbi w) = true)).
  - destruct hd as [e| |h]; cbn [simplefs_journal_stop]; kwp; try done.
    unfold simplefs_journal_mark_shutdown, upd_journal.
    kwpc; cbn; intros; exists h; cbn; auto.
Qed.

Lemma start_sb_alloc n w :
  wp (simplefs_journal_start_sb n) (fun _ w' => aeq (w_sbi w') (w_sbi w)) w.
Proof. apply (frame_wp astate), start_sb_astate. Qed.

(** A handle can only be refused after a shutdown or by a live journal. *)
Lemma start_sb_refused n w :
  wp (simplefs_journal_start_sb n) (fun hd _ =>
    match hd with
    | HNull => True
    | HErr _ => s_shutdown (w_sbi w) = true \/ has_jbd2 (s_journal (w_sbi w)) = true
    | HOpen _ => has_jbd2 (s_journal (w_sbi w)) = true
    end) w.
Proof.
  unfold simplefs_journal_start_sb, simplefs_is_shutdown. kwp.
  destruct (s_shutdown (w_sbi w)); kwp; [by left|].
  destruct (has_jbd2 _) eqn:E; cbn [negb]; kwp; [|done].
  eapply (wp_mono _ (fun _ _ => True)); [done|]. intros h w1 _.
  apply (wp_mono _ (fun _ _ => True)); [done|]. intros [] ? _; auto.
Qed.

(** What refused it, precisely. *)
Lemma start_sb_refusal n w :
  wp (simplefs_journal_start_sb n) (fun hd w' => extends w w' /\
    (HANDLE_IS_ERR hd = true -> s_shutdown (w_sbi w) = true \/ answered_since w refusal w')) w.
Proof.
  apply wp_conj; [apply (wp_pres (extends w)); [pres|apply extends_refl]|].
  unfold simplefs_journal_start_sb, simplefs_is_shutdown. kwp.
  destruct (s_shutdown (w_sbi w)) eqn:Hd; kwp; [by left|]. wp_if; [by apply wp_ret|]. kwp.
  eapply wp_mono.
  { apply wp_conj; [apply (wp_pres (extends w)); [pres|apply extends_refl]|].
    apply (frame_wp w_sbi). unfold simplefs_current_jbd2_handle. frames. }
  intros h w1 [(t & Ht) Hs]. wp_if; [by apply wp_ret|].
  unfold simplefs_journal_start_internal, simplefs_is_shutdown. kwp. rewrite Hs, Hd.
  destruct (s_journal (w_sbi w)) as [j|] eqn:Ej; kwp; [|rewrite Hs, Ej; by apply wp_ret].
  rewrite Hs, Ej. wp_if; [by apply wp_ret|]. kwp. wp_if; [by apply wp_ret|]. unfold upd_journal. kwp.
  wp_if; [cbn in *; congruence|]. kwp. destruct (Z.eqb_spec r 0) as [->|Hr]; cbn [negb]; kwp.
  - wp_if; [|kwp; by intros]. unfold IS_ERR in *. bool_hyps. kwp.
    wp_if; kwp; intros _; right; eexists (_ :: (_, r) :: (_, 0) :: t); cbn; rewrite Ht; (split; [done|]); by apply Exists_cons_tl, Exists_cons_hd.
  - intros _. right. eexists ((_, r) :: t). cbn. rewrite Ht. split; [done|by constructor].
Qed.

(** Why an operation that changed the bitmaps may still report failure. *)
Definition persist_failed (w0 w : world) : Prop :=
  s_shutdown (w_sbi w) = true \/
  (has_jbd2 (s_journal (w_sbi w0)) = true /\ exists h e, e <> 0 /\ In (Jbd2Stop h, e) (w_trace w)).

Lemma unlock_aeq s s1 s0 : bitmap_lock s0 = false -> aeq s1 s0 ->
  aeq s (set_bitmap_lock true s1) -> aeq (set_bitmap_lock false s) s0.
Proof.
  intros Hl (F1 & F2 & F3 & F4 & F5 & F6)%astate_inv (E1 & E2 & E3 & E4 & E5 & E6)%astate_inv.
  cbn in *. unfold aeq, astate_of. cbn. congruence.
Qed.

Lemma geometry_aeq s s' : aeq s s' -> geometry_ok s -> geometry_ok s'.
Proof. intros (E1 & E2 & E3 & _)%astate_inv. unfold geometry_ok. by rewrite E1, E2, E3. Qed.

Lemma free_run_aeq s s' r len : aeq s s' -> free_run s r len -> free_run s' r len.
Proof. intros (E1 & _ & E3 & _)%astate_inv. unfold free_run. by rewrite E1, E3. Qed.

(** Why an allocation may give nothing. *)
Definition no_blocks (len : Z) (w w' : world) : Prop :=
  (forall b, ~ free_run (w_sbi w) b len) \/ s_shutdown (w_sbi w) = true \/ answered_since w refusal w'.

Lemma get_free_blocks_full len w :
  0 <= len <= U32_MAX -> geometry_ok (w_sbi w) -> bitmap_lock (w_sbi w) = false ->
  wp (get_free_blocks len) (fun r w' =>
    (r = 0 /\ aeq (w_sbi w') (w_sbi w) /\ no_blocks len w w') \/
    exists b, free_run (w_sbi w) b len /\ aeq (w_sbi w') (take_blocks b len (w_sbi w)) /\
      (r = b \/ (r = 0 /\ persist_failed w w'))) w.
Proof.
  intros Hlen Hg Hlock. unfold get_free_blocks. apply wp_bind.
  eapply wp_mono; [apply wp_conj; [apply start_sb_alloc|apply wp_conj; [apply start_sb_refused|apply start_sb_refusal]]|].
  intros hd w1 (H1 & Href & Hext & Hwhy); cbn beta in *.
  destruct (HANDLE_IS_ERR hd); kwp; [left; split_and!; [done|done|right; by apply Hwhy]|]. cbn.
  pose proof (geometry_aeq _ _ (symmetry H1) Hg) as Hg1.
  eapply wp_mono; [apply get_free_blocks_loop_spec; [done|exact Hg1|lia|destruct Hg1; cbn; lia..]|].
  intros r w2 Hr; cbn beta in Hr. cbn [set_w_sbi w_sbi] in Hr. kwp.
  eapply wp_mono; [apply wp_conj; [apply stop_alloc|apply (wp_imp_pres (answered_since w refusal)); pres]|].
  intros st w3 [(Ha & Hsd & Hst) Hsi]; kwp; cbn in Ha, Hsd.
  destruct Hr as [(-> & Hr & Hno)|(b & Hf & Hr & Hres)].
  - left. split_and!; [by destruct (st =? 0)| |].
    + rewrite Ha. by apply (unlock_aeq _ _ _ Hlock H1).
    + destruct Hno as [Hno|Hno].
      * left. intros b Hb. apply (Hno b); [destruct Hb; lia|]. exact (free_run_aeq _ _ _ _ (symmetry H1) Hb).
      * right. right. apply Hsi. apply (answered_extends w w1); [done|]. exact Hno.
  - right. exists b. split; [by apply (free_run_aeq _ _ _ _ H1)|]. split.
    { rewrite Ha. apply (unlock_aeq _ (take_blocks b len (w_sbi w1))); [done| |exact Hr].
      by rewrite H1. }
    unfold persist_failed. destruct (Z.eqb_spec st 0) as [->|Hne]; cbn [negb].
    + destruct Hres as [->|[-> Hs]]; [by left|]. right. split; [done|]. left. auto.
    + right. split; [done|]. right. destruct (Hst Hne) as (h & -> & Hin). split; [done|]. by exists h, st.
Qed.

Lemma get_free_blocks_spec len w :
  0 <= len <= U32_MAX -> geometry_ok (w_sbi w) -> bitmap_lock (w_sbi w) = false ->
  wp (get_free_blocks len) (fun r w' =>
    (r = 0 /\ aeq (w_sbi w') (w_sbi w)) \/
    exists b, free_run (w_sbi w) b len /\ aeq (w_sbi w') (take_blocks b len (w_sbi w)) /\
      (r = b \/ (r = 0 /\ persist_failed w w'))) w.
Proof.
  intros. eapply wp_mono; [by apply get_free_blocks_full|]. intros r w' [(? & ? & _)|?]; auto.
Qed.

Lemma bad_range_false s bno len : 0 <= bno -> 0 <= len ->
  bad_block_range s bno len = false -> 0 < bno /\ 0 < len /\ bno + len <= nr_blocks s.
Proof. unfold bad_block_range. intros ? ? H. bool_hyps. lia. Qed.

Lemma take_exact_spec bno len w :
  0 <= bno -> 0 <= len -> bitmap_lock (w_sbi w) = false ->
  wp (simplefs_take_exact_blocks bno len) (fun ok w' =>
    (ok = false /\ aeq (w_sbi w') (w_sbi w)) \/
    (free_run (w_sbi w) bno len /\ aeq (w_sbi w') (take_blocks bno len (w_sbi w)) /\
     (ok = true \/ (ok = false /\ persist_failed w w')))) w.
Proof.
  intros Hb Hl Hlock. unfold simplefs_take_exact_blocks. kwp.
  destruct (bad_block_range _ bno len) eqn:Hbad; kwp; [by left|].
  apply bad_range_false in Hbad as (B1 & B2 & B3); [|done..].
  eapply wp_mono; [apply wp_conj; [apply start_sb_alloc|apply start_sb_refused]|].
  intros hd w1 [H1 Href]; cbn beta in *.
  destruct (HANDLE_IS_ERR hd); kwp; [by left|]. cbn [set_w_sbi w_sbi set_bitmap_lock bfree_bitmap].
  assert (Hout : forall w2 (P : bool -> world -> Prop),
    (forall w3, aeq (w_sbi w3) (set_bitmap_lock false (w_sbi w2)) ->
       (s_shutdown (w_sbi w2) = true -> s_shutdown (w_sbi w3) = true) -> P false w3) ->
    wp (run! unlock_bitmap in run! simplefs_journal_stop hd in ret false) P w2).
  { intros w2 P HP. kwp. eapply wp_mono; [apply stop_alloc|].
    intros st w3 (Ha & Hsd & _). kwp. by apply HP. }
  destruct (all_setb (bfree_bitmap (w_sbi w1)) bno len) eqn:Hall; cbn [negb].
  2:{ apply Hout. intros w3 H3 _. left. split; [done|]. rewrite H3.
      by apply (unlock_aeq _ _ _ Hlock H1). }
  apply all_setb_spec in Hall.
  assert (Hfree : free_run (w_sbi w1) bno len).
  { split_and!; [done..| |done]. apply astate_inv in H1 as (-> & _). lia. }
  kwp. eapply wp_mono; [apply (frame_wp astate), prepare_new_blocks_astate|].
  intros p w2 H2; cbn beta in *. change (aeq (w_sbi w2) (set_bfree_bitmap
    (bitmap_clear (bfree_bitmap (w_sbi w1)) bno len) (set_bitmap_lock true (w_sbi w1)))) in H2.
  apply astate_inv in H2 as (D1 & D2 & D3 & D4 & D5 & D6); cbn in D1, D2, D3, D4, D5, D6.
  destruct (p =? 0); cbn [negb]; [kwp|].
  2:{ apply wp_bind, wp_modify, Hout. intros w3 H3 _. left. split; [done|]. rewrite H3.
      apply (unlock_aeq _ _ _ Hlock H1). unfold aeq, astate_of; cbn.
      rewrite D1, D2, D3, D4, D5, D6, bitmap_set_clear by (done || lia). done. }
  eapply wp_mono; [apply persist_spec|]. intros p' w3 [Ha Hsd]; cbn beta in *.
  assert (Ht : aeq (set_bitmap_lock false (w_sbi w3)) (take_blocks bno len (w_sbi w))).
  { apply (unlock_aeq _ (take_blocks bno len (w_sbi w1))); [done|by rewrite H1|].
    unfold aeq. change (astate w3 = astate_of (set_bitmap_lock true (take_blocks bno len (w_sbi w1)))).
    rewrite Ha. unfold astate, astate_of. cbn. by rewrite D1, D2, D3, D4, D5, D6. }
  destruct (Z.eqb_spec p' 0) as [->|Hp]; cbn [negb].
  - kwp. eapply wp_mono; [apply stop_alloc|]. intros st w4 (Ha4 & _ & Hst). kwp. right.
    split; [by apply (free_run_aeq _ _ _ _ H1)|]. split; [by rewrite Ha4|].
    destruct (Z.eqb_spec st 0) as [->|Hne]; [by left|right; split; [done|right]].
    destruct (Hst Hne) as (h & -> & Hin). split; [done|]. by exists h, st.
  - apply Hout. intros w4 H4 Hs4. right. split; [by apply (free_run_aeq _ _ _ _ H1)|].
    split; [by rewrite H4|]. right. split; [done|left]. auto.
Qed.

(** What [put_blocks] accepts: a range inside the device that does not cover the
    root directory block and has no free bit. *)
Definition may_free (s : sb_info) (bno len : Z) : bool :=
  negb (bad_block_range s bno len) &&
  negb ((bno <=? root_dir_block s) && (root_dir_block s <? u32 (bno + len))) &&
  none_setb (bfree_bitmap s) bno len.

Lemma may_free_aeq s s' bno len : aeq s s' -> may_free s bno len = may_free s' bno len.
Proof.
  intros (E1 & _ & E3 & _)%astate_inv.
  unfold may_free, bad_block_range, root_dir_block. by rewrite E1, E3.
Qed.

Lemma drained_refl s : drained s s.
Proof. by split_and!. Qed.

Lemma drained_aeq s s0 s1 : drained s s0 -> aeq s0 s1 -> drained s s1.
Proof.
  unfold drained, pending. intros (H1 & H2 & H3 & H4 & H5 & H6) (E1 & E2 & E3 & E4 & E5 & _)%astate_inv.
  rewrite <- E1, <- E2, <- E3, <- E4, <- E5. done.
Qed.

Lemma aeq_drained s s0 : aeq s s0 -> drained s s0.
Proof. intros H. eapply drained_aeq; [apply drained_refl|done]. Qed.

Lemma put_free_bits_ok fm size i len :
  0 < len -> i + len <= size -> put_free_bits fm size i len = (0, bitmap_set fm i len).
Proof.
  intros. unfold put_free_bits.
  destruct (Z.eqb_spec len 0), (Z.leb_spec size i), (Z.ltb_spec (size - i) len); cbn; try lia. done.
Qed.

(** The arguments are converted to [uint32_t]. *)
Lemma put_blocks_u32 bno len : put_blocks bno len = put_blocks (u32 bno) (u32 len).
Proof. unfold put_blocks. by rewrite !u32_idem. Qed.

Lemma put_blocks_spec bno len w :
  is_u32 bno -> is_u32 len -> is_u32 (nr_blocks (w_sbi w)) -> bitmap_lock (w_sbi w) = false ->
  wp (put_blocks bno len) (fun _ w' => bitmap_lock (w_sbi w') = false /\
    ((drained (w_sbi w') (w_sbi w) /\
      (may_free (w_sbi w) bno len = false \/ s_shutdown (w_sbi w) = true \/
       has_jbd2 (s_journal (w_sbi w)) = true)) \/
     (may_free (w_sbi w) bno len = true /\
      drained (w_sbi w') (give_blocks bno len (w_sbi w))))) w.
Proof.
  intros Hbu Hlu Hn Hlock. unfold put_blocks. rewrite (u32_id bno), (u32_id len) by done. cbv zeta.
  destruct Hbu as [Hb _], Hlu as [Hl _]. apply wp_bind.
  eapply wp_mono; [apply wp_conj; [apply start_sb_alloc|apply start_sb_refused]|].
  intros hd w1 [H1 Href]; cbn beta in *.
  destruct (HANDLE_IS_ERR hd) eqn:Hhd; kwp.
  { split; [by apply astate_inv in H1 as (_ & _ & _ & _ & _ & ->)|].
    left. split; [by apply aeq_drained|]. destruct hd; auto; done. }
  set (w1l := set_w_sbi _ w1).
  eapply (wp_mono _ (fun _ w2 =>
    (may_free (w_sbi w) bno len = false /\ aeq (w_sbi w2) (w_sbi w1l)) \/
    (may_free (w_sbi w) bno len = true /\ aeq (w_sbi w2) (give_blocks bno len (w_sbi w1l))))).
  { rewrite <- (may_free_aeq _ _ bno len H1).
    change (may_free (w_sbi w1) bno len) with (may_free (w_sbi w1l) bno len). unfold may_free.
    destruct (bad_block_range (w_sbi w1l) bno len) eqn:Hbad; kwp; [by left|].
    destruct ((_ <=? _) && _); kwp; [by left|].
    destruct (none_setb _ _ _) eqn:Hn0; cbn [negb andb]; kwp; [|by left].
    apply bad_range_false in Hbad as (B1 & B2 & B3); [|done..].
    rewrite put_free_bits_ok by lia. kwp. cbn [Z.eqb negb]. kwp.
    unfold give_blocks; destruct (s_discard (w_sbi w1l)); kwp;
      (eapply wp_mono; [apply (frame_wp astate), persist_astate|]);
      intros r w2 H2; kwp; right; by split. }
  intros _ w2 H2; cbn beta in *. kwp.
  eapply wp_mono; [apply stop_alloc|]. intros st w3 (Ha & _ & _); cbn in Ha.
  assert (H3 : bitmap_lock (w_sbi w3) = false /\
    ((may_free (w_sbi w) bno len = false /\ aeq (w_sbi w3) (w_sbi w)) \/
    (may_free (w_sbi w) bno len = true /\ aeq (w_sbi w3) (give_blocks bno len (w_sbi w))))).
  { split; [by apply astate_inv in Ha as (_ & _ & _ & _ & _ & ->)|].
    destruct H2 as [[Hm H2]|[Hm H2]]; [left|right]; (split; [done|]); rewrite Ha.
    - by apply (unlock_aeq _ _ _ Hlock H1).
    - apply (unlock_aeq _ (give_blocks bno len (w_sbi w1))); [|by rewrite H1|].
      + unfold give_blocks. by destruct (s_discard (w_sbi w)).
      + rewrite H2. unfold give_blocks, w1l; cbn. by destruct (s_discard (w_sbi w1)). }
  destruct H3 as [Hlk H3].
  assert (Hend : forall s, drained s (w_sbi w3) -> (drained s (w_sbi w) /\
    (may_free (w_sbi w) bno len = false \/ s_shutdown (w_sbi w) = true \/
       has_jbd2 (s_journal (w_sbi w)) = true)) \/
    (may_free (w_sbi w) bno len = true /\ drained s (give_blocks bno len (w_sbi w)))).
  { intros s Hs. destruct H3 as [[Hm H3]|[Hm H3]]; [left|right; split; [done|]].
    - split; [by eapply drained_aeq|by left].
    - by eapply drained_aeq. }
  kwp. destruct (negb (st =? 0)); kwp; [split; [done|apply Hend, drained_refl]|].
  destruct (_ && _); kwp; [|split; [done|apply Hend, drained_refl]].
  eapply wp_mono; [apply issue_discards_safe|].
  - assert (sbi_disk (w_sbi w3) = sbi_disk (give_blocks bno len (w_sbi w)) \/
      sbi_disk (w_sbi w3) = sbi_disk (w_sbi w)) as [E|E].
    { destruct H3 as [[_ H3]|[_ H3]]; apply astate_inv in H3 as (H3 & _); auto. }
    all: rewrite E; unfold give_blocks; by try destruct (s_discard _).
  - intros r w4 [[_ E]|(_ & E & D)]; kwp.
    + rewrite E. split; [done|apply Hend, drained_refl].
    + split; [done|by apply Hend].
Qed.

(** Taking and giving back an inode number. *)
Definition take_inode (ino : Z) (s : sb_info) : sb_info :=
  upd_disk (fun d => set_nr_free_inodes (u32 (nr_free_inodes d - 1)) d)
    (set_ifree_bitmap (bitmap_clear (ifree_bitmap s) ino 1) s).
Definition give_inode (ino : Z) (s : sb_info) : sb_info :=
  upd_disk (fun d => set_nr_free_inodes (u32 (nr_free_inodes d + 1)) d)
    (set_ifree_bitmap (bitmap_set (ifree_bitmap s) ino 1) s).

#[export] Instance take_inode_proper ino : Proper (aeq ==> aeq) (take_inode ino).
Proof.
  intros s s' (E1 & E2 & E3 & E4 & E5 & E6)%astate_inv. unfold aeq, astate_of; cbn.
  by rewrite E1, E2, E3, E4, E5, E6.
Qed.
#[export] Instance give_inode_proper ino : Proper (aeq ==> aeq) (give_inode ino).
Proof.
  intros s s' (E1 & E2 & E3 & E4 & E5 & E6)%astate_inv. unfold aeq, astate_of; cbn.
  by rewrite E1, E2, E3, E4, E5, E6.
Qed.

(** The lowest free inode number. *)
Definition first_free_inode (s : sb_info) (ino : Z) : Prop :=
  0 < ino < nr_inodes s /\ test_bit (ifree_bitmap s) ino = true /\
  forall j, 0 <= j < ino -> test_bit (ifree_bitmap s) j = false.

Lemma first_free_inode_aeq s s' ino :
  aeq s s' -> first_free_inode s ino -> first_free_inode s' ino.
Proof. intros (E1 & E2 & _)%astate_inv. unfold first_free_inode. by rewrite E1, E2. Qed.

Lemma get_first_free_inode s r map : geometry_ok s ->
  get_first_free_bits (ifree_bitmap s) (nr_inodes s) 1 = (r, map) ->
  (first_free_inode s r /\ map = bitmap_clear (ifree_bitmap s) r 1) \/
  (r = 0 /\ map = ifree_bitmap s).
Proof.
  intros (_ & Hn & _ & H0) E. unfold get_first_free_bits in E.
  apply first_free_bits_spec in E; [|lia..].
  pose proof (first_fit_nonzero _ _ _ _ _ _ H0 (Z.le_refl 0) E) as [(Hr & Hp & _ & _ & He & Hall & Hm)|?];
    [left|by right].
  destruct E as [(_ & _ & _ & _ & _ & Hno)|(? & _)]; [|done].
  split; [|done]. split; [lia|]. split; [apply Hall; lia|].
  intros j Hj. destruct (test_bit (ifree_bitmap s) j) eqn:E; [|done]. exfalso.
  apply (Hno j); [lia..|]. intros k Hk. by replace k with j by lia.
Qed.

Lemma get_free_inode_spec w :
  geometry_ok (w_sbi w) -> bitmap_lock (w_sbi w) = false ->
  wp get_free_inode (fun r w' =>
    (r = 0 /\ aeq (w_sbi w') (w_sbi w)) \/
    exists ino, first_free_inode (w_sbi w) ino /\ aeq (w_sbi w') (take_inode ino (w_sbi w)) /\
      (r = ino \/ (r = 0 /\ persist_failed w w'))) w.
Proof.
  intros Hg Hlock. unfold get_free_inode. apply wp_bind.
  eapply wp_mono; [apply wp_conj; [apply start_sb_alloc|apply start_sb_refused]|].
  intros hd w1 [H1 Href]; cbn beta in *.
  destruct (HANDLE_IS_ERR hd); kwp; [by left|]. cbn [set_w_sbi w_sbi set_bitmap_lock ifree_bitmap].
  pose proof (geometry_aeq _ _ (symmetry H1) Hg) as Hg1.
  destruct (get_first_free_bits _ _ 1) as [r map] eqn:E. apply (get_first_free_inode (w_sbi w1)) in E; [|done].
  kwp. destruct E as [[Hf ->]|[-> ->]]; cbn [Z.eqb negb]; kwp.
  - rewrite (proj2 (Z.eqb_neq r 0)) by (destruct Hf; lia). cbn [negb]. kwp.
    eapply wp_mono; [apply persist_spec|]. intros p w2 [Ha Hsd]; cbn beta in *. kwp.
    eapply wp_mono; [apply stop_alloc|]. intros st w3 (Ha3 & Hsd3 & Hst). kwp.
    right. exists r. split; [by apply (first_free_inode_aeq _ _ _ H1)|]. split.
    { rewrite Ha3. apply (unlock_aeq _ (take_inode r (w_sbi w1))); [done|by rewrite H1|].
      exact Ha. }
    unfold persist_failed. destruct (Z.eqb_spec st 0) as [->|Hne]; cbn [negb].
    + destruct (Z.eqb_spec p 0); cbn [negb]; [by left|]. right. split; [done|]. left. auto.
    + right. split; [done|]. right. destruct (Hst Hne) as (h & -> & Hin). split; [done|]. by exists h, st.
  - eapply wp_mono; [apply stop_alloc|]. intros st w3 (Ha3 & _). kwp. left.
    split; [by destruct (st =? 0)|]. rewrite Ha3. apply (unlock_aeq _ (w_sbi w1)); [done|done|].
    by cbn; destruct (w_sbi w1).
Qed.

Definition may_free_inode (s : sb_info) (ino : Z) : bool :=
  negb ((ino =? 0) || (nr_inodes s <=? ino)) && negb (test_bit (ifree_bitmap s) ino).

Lemma put_inode_u32 ino : put_inode ino = put_inode (u32 ino).
Proof. unfold put_inode. by rewrite !u32_idem. Qed.

Lemma put_inode_spec ino w :
  is_u32 ino -> bitmap_lock (w_sbi w) = false ->
  wp (put_inode ino) (fun _ w' =>
    (aeq (w_sbi w') (w_sbi w) /\
      (may_free_inode (w_sbi w) ino = false \/ s_shutdown (w_sbi w) = true \/
       has_jbd2 (s_journal (w_sbi w)) = true)) \/
    (may_free_inode (w_sbi w) ino = true /\ aeq (w_sbi w') (give_inode ino (w_sbi w)))) w.
Proof.
  intros Hiu Hlock. unfold put_inode. rewrite (u32_id ino) by done. cbv zeta.
  destruct Hiu as [Hi _]. apply wp_bind.
  eapply wp_mono; [apply wp_conj; [apply start_sb_alloc|apply start_sb_refused]|].
  intros hd w1 [H1 Href]; cbn beta in *.
  destruct (HANDLE_IS_ERR hd) eqn:Hhd; kwp; [left; destruct hd; auto; done|].
  assert (may_free_inode (w_sbi w) ino = may_free_inode (w_sbi w1) ino) as ->.
  { apply astate_inv in H1 as (E1 & E2 & _). unfold may_free_inode. by rewrite E1, E2. }
  eapply (wp_mono _ (fun _ w2 =>
    (may_free_inode (w_sbi w1) ino = false /\ aeq (w_sbi w2) (set_bitmap_lock true (w_sbi w1))) \/
    (may_free_inode (w_sbi w1) ino = true /\
     aeq (w_sbi w2) (set_bitmap_lock true (give_inode ino (w_sbi w1)))))).
  - unfold may_free_inode. cbn [set_w_sbi w_sbi set_bitmap_lock ifree_bitmap sbi_disk].
    destruct ((ino =? 0) || _) eqn:Hbad; kwp; [by left|].
    destruct (test_bit _ ino); kwp; [by left|]. bool_hyps.
    rewrite put_free_bits_ok by (cbn; lia). kwp. cbn [Z.eqb negb]. kwp.
    eapply wp_mono; [apply (frame_wp astate), persist_astate|]. intros r w2 H2. kwp. by right.
  - intros _ w2 H2; cbn beta in *. kwp. eapply wp_mono; [apply stop_alloc|].
    intros st w3 (Ha & _). kwp. rewrite Ha. cbn.
    destruct H2 as [[Hm H2]|[Hm H2]]; [left|right]; (split; [|by auto]) || (split; [done|]).
    + by apply (unlock_aeq _ _ _ Hlock H1).
    + by apply (unlock_aeq _ (give_inode ino (w_sbi w1))); [|rewrite H1|].
Qed.
End Specs.

(** ** The allocator invariant *)

Definition alloc_inv (s : sb_info) : Prop :=
  geometry_ok s /\
  nr_free_blocks s = bitmap_weight (bfree_bitmap s) (nr_blocks s) /\
  nr_free_inodes s = bitmap_weight (ifree_bitmap s) (nr_inodes s) /\
  (forall k, 0 <= k -> test_bit (pending s) k = true -> test_bit (bfree_bitmap s) k = true) /\
  bitmap_lock s = false.

Lemma drained_inv s s' : drained s' s -> bitmap_lock s' = false -> alloc_inv s -> alloc_inv s'.
Proof.
  intros (E1 & E2 & E3 & E4 & E5 & E6) Hl (Hg & Hb & Hi & Hp & _). unfold alloc_inv, geometry_ok in *.
  rewrite E1, E2, E3. split_and!; try done; try apply Hg. intros k Hk H. apply Hp; auto.
Qed.

Lemma alloc_inv_aeq s s' : aeq s' s -> alloc_inv s -> alloc_inv s'.
Proof.
  intros H Hinv. pose proof (astate_inv _ _ H) as (_ & _ & _ & _ & _ & E6).
  apply (drained_inv s); [by apply aeq_drained| |done]. destruct Hinv as (_ & _ & _ & _ & ?). congruence.
Qed.

Lemma weight_bounds bm size : 0 <= size -> 0 <= bitmap_weight bm size <= size.
Proof. intros. pose proof (weight_from_bounds bm (Z.to_nat size) 0). unfold bitmap_weight. lia. Qed.

Lemma u32_weight_clear bm s n size :
  0 <= s -> 0 <= n -> s + n <= size -> size <= U32_MAX -> all_set bm s n ->
  u32 (bitmap_weight bm size - n) = bitmap_weight (bitmap_clear bm s n) size.
Proof.
  intros. rewrite bitmap_weight_clear by done. apply u32_id.
  pose proof (weight_bounds (bitmap_clear bm s n) size).
  rewrite bitmap_weight_clear in * by done. pose proof (weight_bounds bm size). split; lia.
Qed.

Lemma u32_weight_set bm s n size :
  0 <= s -> 0 <= n -> s + n <= size -> size <= U32_MAX -> all_clear bm s n ->
  u32 (bitmap_weight bm size + n) = bitmap_weight (bitmap_set bm s n) size.
Proof.
  intros. rewrite bitmap_weight_set by done. apply u32_id.
  pose proof (weight_bounds (bitmap_set bm s n) size).
  rewrite bitmap_weight_set in * by done. pose proof (weight_bounds bm size). split; lia.
Qed.

Lemma take_blocks_inv s r len : alloc_inv s -> free_run s r len -> alloc_inv (take_blocks r len s).
Proof.
  intros ((G1 & G2 & G3 & G4) & Hb & Hi & Hp & Hl) (F1 & F2 & F3 & F4).
  unfold alloc_inv, geometry_ok; cbn. split_and!; try done; try lia.
  - rewrite bitmap_clear_testbit, G3 by lia. done.
  - rewrite Hb. apply u32_weight_clear; try done; lia.
  - intros k Hk. unfold pending in *; cbn. specialize (Hp k Hk).
    destruct (discard_pending s) as [p|]; cbn in *; [|unfold test_bit; by rewrite Z.testbit_0_l].
    rewrite !bitmap_clear_testbit by lia. intros [H1 ->]%andb_true_iff. by rewrite Hp.
Qed.

Lemma may_free_spec s bno len : 0 <= bno -> 0 <= len -> may_free s bno len = true ->
  0 < bno /\ 0 < len /\ bno + len <= nr_blocks s /\ all_clear (bfree_bitmap s) bno len.
Proof.
  unfold may_free. intros Hb Hl H. apply andb_true_iff in H as [[H1 _]%andb_true_iff H2].
  apply none_setb_spec in H2. apply negb_true_iff, bad_range_false in H1 as (? & ? & ?); [|done..]. done.
Qed.

Lemma give_blocks_inv s r len : 0 <= r -> 0 <= len ->
  alloc_inv s -> may_free s r len = true -> alloc_inv (give_blocks r len s).
Proof.
  intros Hr Hl' ((G1 & G2 & G3 & G4) & Hb & Hi & Hp & Hl) (F1 & F2 & F3 & F4)%may_free_spec; [|done..].
  assert (H0 : test_bit (bitmap_set (bfree_bitmap s) r len) 0 = false).
  { rewrite bitmap_set_testbit, G3 by lia. bit_cases; lia. }
  assert (Hw : u32 (nr_free_blocks s + len) =
    bitmap_weight (bitmap_set (bfree_bitmap s) r len) (nr_blocks s)).
  { rewrite Hb. apply u32_weight_set; try done; lia. }
  unfold give_blocks, alloc_inv, geometry_ok, pending in *.
  destruct (s_discard s); cbn; split_and!; try done; try lia; intros k Hk; specialize (Hp k Hk).
  - destruct (discard_pending s) as [p|]; cbn in *; [|unfold test_bit; by rewrite Z.testbit_0_l].
    rewrite !bitmap_set_testbit by lia. intros [->|H]%orb_true_iff; [done|].
    rewrite Hp by done. apply orb_true_r.
  - intros H. rewrite bitmap_set_testbit, Hp by done || lia. apply orb_true_r.
Qed.

Lemma take_inode_inv s ino : alloc_inv s -> first_free_inode s ino -> alloc_inv (take_inode ino s).
Proof.
  intros ((G1 & G2 & G3 & G4) & Hb & Hi & Hp & Hl) (F1 & F2 & F3).
  unfold alloc_inv, geometry_ok; cbn. split_and!; try done; try lia.
  - rewrite bitmap_clear_testbit, G4 by lia. done.
  - rewrite Hi. apply u32_weight_clear; try done; try lia.
    intros k Hk. by replace k with ino by lia.
Qed.

Lemma give_inode_inv s ino : 0 <= ino ->
  alloc_inv s -> may_free_inode s ino = true -> alloc_inv (give_inode ino s).
Proof.
  unfold may_free_inode. intros Hi0 ((G1 & G2 & G3 & G4) & Hb & Hi & Hp & Hl) H. bool_hyps.
  unfold alloc_inv, geometry_ok; cbn. split_and!; try done; try lia.
  - rewrite bitmap_set_testbit, G4 by lia. bit_cases; lia.
  - rewrite Hi. apply u32_weight_set; try done; try lia.
    intros k Hk. by replace k with ino by lia.
Qed.

(** ** Without a journal *)

Section NoJournal.
Context {K : Kernel}.

Definition no_journal (w : world) : Prop :=
  s_journal (w_sbi w) = None /\ s_shutdown (w_sbi w) = false.

Lemma persist_no_journal b bit len w : no_journal w ->
  simplefs_persist_bitmap b bit len w = (0, w).
Proof.
  intros [Hj _]. unfold simplefs_persist_bitmap, simplefs_journal_bitmap,
    simplefs_journal_free_counts, bind, get_sbi, gets, ret.
  rewrite Hj, bool_decide_eq_false_2 by (by intros []). cbn. rewrite Hj. done.
Qed.

Lemma start_sb_no_journal n w : no_journal w -> simplefs_journal_start_sb n w = (HNull, w).
Proof.
  intros [Hj Hs]. unfold simplefs_journal_start_sb, simplefs_is_shutdown, bind, gets, get_sbi, ret.
  rewrite Hs. unfold gets. by rewrite Hj.
Qed.

Lemma prepare_new_blocks_no_journal n len w : no_journal w ->
  simplefs_journal_prepare_new_blocks n len w = (0, w).
Proof.
  intros [Hj Hs]. unfold simplefs_journal_prepare_new_blocks, bind, gets, get_sbi, ret.
  unfold gets. rewrite Hj. by destruct (w_fs_info w).
Qed.

Lemma get_free_blocks_no_journal len : preserves no_journal (get_free_blocks len).
Proof.
  assert (Hupd : forall f, (forall s, s_journal (f s) = s_journal s /\ s_shutdown (f s) = s_shutdown s) ->
    preserves no_journal (upd_sbi f)).
  { intros f Hf w [Hj Hs]. destruct (Hf (w_sbi w)) as [E1 E2].
    split; cbn; by rewrite ?E1, ?E2. }
  assert (Hloop : forall fuel search, preserves no_journal (get_free_blocks_loop fuel len search)).
  { induction fuel as [|fuel IH]; intros search; cbn [get_free_blocks_loop]; [apply preserves_ret|].
    unfold get_sbi. repeat (pres_step || apply IH || (apply Hupd; by intros));
      intros w Hw; [by rewrite prepare_new_blocks_no_journal|by rewrite persist_no_journal]. }
  intros w Hw. unfold get_free_blocks. unfold bind at 1.
  rewrite start_sb_no_journal by done. cbn [HANDLE_IS_ERR simplefs_journal_stop].
  match goal with |- no_journal (snd (?m _)) => assert (preserves no_journal m) as Hm end; [|by apply Hm].
  unfold get_sbi, lock_bitmap, unlock_bitmap. repeat (pres_step || apply Hloop || (apply Hupd; by intros)).
Qed.
End NoJournal.

Section Claims.
Context {K : Kernel}.

(** [get_first_free_bits_from] is first fit: it returns the lowest start, not
    below [start], of a run of [len] set bits inside the map and clears exactly
    that run; when it returns no run (0, map unchanged) no such run exists. *)
Theorem first_free_bits_first_fit fm size len start r map :
  0 <= start -> 0 < size <= U32_MAX -> 0 < len -> test_bit fm 0 = false ->
  get_first_free_bits_from fm size len start = (r, map) ->
  if r =? 0 then map = fm /\ no_run_before fm start len size
  else start <= r /\ r + len <= size /\ all_set fm r len /\ map = bitmap_clear fm r len /\
       no_run_before fm start len (r + len - 1).
Proof.
  intros Hs Hsz Hl H0 E. apply first_free_bits_spec in E; [|lia..].
  destruct (Z.eqb_spec r 0) as [->|Hr].
  - destruct E as [(_ & _ & _ & Hall & _)|(_ & -> & Hno)]; [|auto].
    rewrite Hall in H0 by lia. done.
  - destruct E as [(_ & ? & ? & ? & ? & ?)|(? & _)]; [by split_and!|done].
Qed.


(** releasing blocks is guarded: a range that is empty, outside the device,
    covers the root directory block or contains a block that is already free
    (double free) changes neither bitmap nor counter; an accepted range becomes
    free, the count rises by its length and, with discard on, it is queued. *)
Theorem put_blocks_guarded bno len w :
  is_u32 bno -> is_u32 len -> is_u32 (nr_blocks (w_sbi w)) -> bitmap_lock (w_sbi w) = false ->
  wp (put_blocks bno len) (fun _ w' => bitmap_lock (w_sbi w') = false /\
    if may_free (w_sbi w) bno len then
      drained (w_sbi w') (give_blocks bno len (w_sbi w)) \/
      (drained (w_sbi w') (w_sbi w) /\
       (s_shutdown (w_sbi w) = true \/ has_jbd2 (s_journal (w_sbi w)) = true))
    else drained (w_sbi w') (w_sbi w)) w.
Proof.
  intros. eapply wp_mono; [by apply put_blocks_spec|]. intros _ w' [Hl H']; cbn beta in *.
  split; [done|]. destruct (may_free _ _ _); intuition (auto; congruence).
Qed.

(** allocation and release are inverse: on a file system without a journal,
    a run that [get_free_blocks] hands out and [put_blocks] takes back leaves the
    block bitmap, the free count and every other superblock field as they were,
    provided the root directory block was in use. *)
Theorem alloc_free_roundtrip len w :
  0 < len <= U32_MAX -> alloc_inv (w_sbi w) -> no_journal w ->
  test_bit (bfree_bitmap (w_sbi w)) (root_dir_block (w_sbi w)) = false ->
  wp (let! b := get_free_blocks len in
      if b =? 0 then ret tt else put_blocks b len)
     (fun _ w' => sbi_disk (w_sbi w') = sbi_disk (w_sbi w) /\
        bfree_bitmap (w_sbi w') = bfree_bitmap (w_sbi w) /\
        ifree_bitmap (w_sbi w') = ifree_bitmap (w_sbi w)) w.
Proof.
  intros Hlen Hinv Hnj Hroot. pose proof Hinv as (Hg & Hcnt & _ & _ & Hlock).
  apply wp_bind. eapply wp_mono.
  { apply wp_conj; [apply get_free_blocks_spec; [lia|done..]|].
    apply (wp_pres _ _ _ (get_free_blocks_no_journal len) Hnj). }
  intros b w1 [Hb [Hj1 Hs1]]; cbn beta in *.
  destruct Hb as [[-> Ha]|(b' & Hf & Ha & Hb)].
  { cbn [Z.eqb]. kwp. by apply astate_inv in Ha as (-> & -> & -> & _). }
  pose proof Hf as (F1 & F2 & F3 & F4).
  destruct Hb as [->|[_ [?|[? _]]]]; [|congruence|by destruct Hnj as [Hj _]; rewrite Hj in *].
  rewrite (proj2 (Z.eqb_neq b' 0)) by lia.
  assert (Hgive : may_free (w_sbi w1) b' len = true).
  { rewrite (may_free_aeq _ _ _ _ Ha). unfold may_free. apply andb_true_iff; split; [apply andb_true_iff; split|].
    - unfold bad_block_range; cbn. apply negb_true_iff. rewrite !orb_false_iff.
      split_and!; [apply Z.eqb_neq|apply Z.eqb_neq|apply Z.leb_gt|apply Z.ltb_ge]; lia.
    - apply negb_true_iff, not_true_iff_false. intros [R1 R2]%andb_true_iff. bool_hyps.
      destruct Hg as (Hg & _).
      change (root_dir_block (take_blocks b' len (w_sbi w))) with (root_dir_block (w_sbi w)) in *.
      rewrite (u32_id (b' + len)) in R2 by (unfold is_u32; lia).
      rewrite F4 in Hroot; [done|]. lia.
    - apply none_setb_spec. intros k Hk. cbn. rewrite bitmap_clear_testbit by lia.
      bit_cases; try lia; apply andb_false_r. }
  eapply wp_mono; [apply put_blocks_spec; [unfold is_u32; destruct Hg as (Hg & _); lia|unfold is_u32; lia| |]|].
  - apply astate_inv in Ha as (-> & _). cbn. destruct Hg as (Hg & _). unfold is_u32. lia.
  - by apply astate_inv in Ha as (_ & _ & _ & _ & _ & ->).
  - intros _ w2 [_ [[_ [?|[?|?]]]|[_ (D1 & D2 & D3 & _)]]]; [congruence..|by rewrite Hj1 in *|].
    pose proof (give_blocks_proper b' len _ _ Ha) as (G1 & G2 & G3 & _)%astate_inv.
    rewrite D1, D2, D3, G1, G2, G3. unfold give_blocks.
    assert (Hback : bitmap_set (bitmap_clear (bfree_bitmap (w_sbi w)) b' len) b' len =
      bfree_bitmap (w_sbi w)) by (apply bitmap_set_clear; [lia..|done]).
    assert (Hn : u32 (u32 (nr_free_blocks (w_sbi w) - len) + len) = nr_free_blocks (w_sbi w)).
    { destruct Hg as (Hg & _). rewrite Hcnt, (u32_weight_clear _ b') by (done || lia).
      rewrite (u32_weight_set _ b'), Hback by
        (try lia; intros k Hk; rewrite bitmap_clear_testbit by lia; bit_cases; try lia; apply andb_false_r).
      done. }
    destruct (s_discard _); cbn; rewrite Hback, Hn; (split_and!; [|done|done]);
      by destruct (sbi_disk (w_sbi w)).
Qed.

(** inode numbers: [get_free_inode] takes the lowest free number, and
    [put_inode] refuses number 0, a number outside the table and a number that is
    already free; on every branch the free count moves with the bitmap. *)
Theorem inode_bitmap_ops ino w :
  is_u32 ino -> geometry_ok (w_sbi w) -> bitmap_lock (w_sbi w) = false ->
  wp get_free_inode (fun r w' =>
    (r = 0 /\ aeq (w_sbi w') (w_sbi w)) \/
    exists ino, first_free_inode (w_sbi w) ino /\ aeq (w_sbi w') (take_inode ino (w_sbi w)) /\
      (r = ino \/ (r = 0 /\ persist_failed w w'))) w /\
  wp (put_inode ino) (fun _ w' =>
    if may_free_inode (w_sbi w) ino then
      aeq (w_sbi w') (give_inode ino (w_sbi w)) \/
      (aeq (w_sbi w') (w_sbi w) /\
       (s_shutdown (w_sbi w) = true \/ has_jbd2 (s_journal (w_sbi w)) = true))
    else aeq (w_sbi w') (w_sbi w)) w.
Proof.
  intros Hi Hg Hl. split; [by apply get_free_inode_spec|].
  eapply wp_mono; [by apply put_inode_spec|]. intros ? w' H'; cbn beta in *.
  destruct (may_free_inode _ _); intuition (auto; congruence).
Qed.
End Claims.

(** Every operation of the allocator keeps the invariant. *)
Section Invariant.
Context {K : Kernel}.

Lemma get_free_blocks_inv len : 0 <= len <= U32_MAX ->
  preserves (fun w => alloc_inv (w_sbi w)) (get_free_blocks len).
Proof.
  intros Hl w Hw. pose proof Hw as (Hg & _ & _ & _ & Hk).
  destruct (get_free_blocks_spec len w Hl Hg Hk) as [[_ H]|(b & Hf & H & _)];
    (eapply alloc_inv_aeq; [exact H|]); [done|by apply take_blocks_inv].
Qed.

Lemma take_exact_inv b len : 0 <= b -> 0 <= len ->
  preserves (fun w => alloc_inv (w_sbi w)) (simplefs_take_exact_blocks b len).
Proof.
  intros Hb Hl w Hw. pose proof Hw as (_ & _ & _ & _ & Hk).
  destruct (take_exact_spec b len w Hb Hl Hk) as [[_ H]|(Hf & H & _)];
    (eapply alloc_inv_aeq; [exact H|]); [done|by apply take_blocks_inv].
Qed.

Lemma put_blocks_inv b len : preserves (fun w => alloc_inv (w_sbi w)) (put_blocks b len).
Proof.
  rewrite put_blocks_u32. intros w Hw. pose proof Hw as ((Hg & _) & _ & _ & _ & Hk).
  pose proof (u32_range b) as Hb. pose proof (u32_range len) as Hl.
  destruct (put_blocks_spec _ _ w Hb Hl ltac:(unfold is_u32; lia) Hk) as [Hk' [[H _]|[Hm H]]];
    (eapply drained_inv; [exact H|done|]); [done|apply give_blocks_inv; [apply Hb|apply Hl|done..]].
Qed.

Lemma get_free_inode_inv : preserves (fun w => alloc_inv (w_sbi w)) get_free_inode.
Proof.
  intros w Hw. pose proof Hw as (Hg & _ & _ & _ & Hk).
  destruct (get_free_inode_spec w Hg Hk) as [[_ H]|(b & Hf & H & _)];
    (eapply alloc_inv_aeq; [exact H|]); [done|by apply take_inode_inv].
Qed.

Lemma put_inode_inv ino : preserves (fun w => alloc_inv (w_sbi w)) (put_inode ino).
Proof.
  rewrite put_inode_u32. intros w Hw. pose proof Hw as (_ & _ & _ & _ & Hk).
  pose proof (u32_range ino) as Hi. destruct (put_inode_spec _ w Hi Hk) as [[H _]|[Hm H]];
    (eapply alloc_inv_aeq; [exact H|]); [done|by apply give_inode_inv; [apply Hi|..]].
Qed.

(** C2: the allocator invariant holds after every operation, whatever the
    journal and the device answer: both free counters equal the number of free
    bits, blocks 0 and inode 0 stay reserved, every queued discard is of a free
    block and the bitmap lock is released. *)
Theorem allocator_invariant len b ino :
  0 <= len <= U32_MAX -> 0 <= b -> 0 <= ino ->
  preserves (fun w => alloc_inv (w_sbi w)) (get_free_blocks len) /\
  preserves (fun w => alloc_inv (w_sbi w)) (simplefs_take_exact_blocks b len) /\
  preserves (fun w => alloc_inv (w_sbi w)) (put_blocks b len) /\
  preserves (fun w => alloc_inv (w_sbi w)) get_free_inode /\
  preserves (fun w => alloc_inv (w_sbi w)) (put_inode ino).
Proof.
  intros. split_and!; [by apply get_free_blocks_inv|apply take_exact_inv; lia|
    apply put_blocks_inv; lia|apply get_free_inode_inv|by apply put_inode_inv].
Qed.
End Invariant.

(** ** What the allocator promises its clients

    [BStable] is the interface a client of the allocator needs of a predicate:
    it survives the journal adapter, the publication of images and every
    allocator operation; [FStable] predicates also survive the changes to the
    in-core inodes.  The preservation lemmas of the layers above are proved
    against these classes; the allocator invariant, the write-ahead discipline
    and the shutdown latch are instances. *)
Section Interface.
Context {K : Kernel}.

Class BStable (I : world -> Prop) : Prop := {
  bs_jstable :: JStable I;
  bs_get_blocks : forall len, is_u32 len -> preserves I (get_free_blocks len);
  bs_put_blocks : forall b len, preserves I (put_blocks b len);
  bs_get_inode : preserves I get_free_inode;
  bs_put_inode : forall ino, preserves I (put_inode ino);
  bs_take : forall b len, is_u32 b -> is_u32 len -> preserves I (simplefs_take_exact_blocks b len);
  bs_free : forall b len, preserves I (simplefs_blocks_are_free b len)
}.

Class FStable (I : world -> Prop) : Prop := {
  fs_bstable :: BStable I;
  fs_inodes : forall f, preserves I (modify (fun w => set_w_inodes (f (w_inodes w)) w))
}.

#[export] Instance astable_bstable I `{!AStable I} : BStable I.
Proof.
  split; [apply _|intros..].
  - apply (get_free_blocks_apres I).
  - apply (put_blocks_apres I).
  - apply (get_free_inode_apres I).
  - apply (put_inode_apres I).
  - apply (take_exact_apres I).
  - apply (blocks_are_free_apres I).
Qed.

#[export] Instance istable_fstable I `{!IStable I} : FStable I.
Proof. split; [apply _|]. apply is_inodes. Qed.

#[export] Instance alloc_inv_fstable : FStable (fun w => alloc_inv (w_sbi w)).
Proof.
  assert (Hv : forall w w', astate w' = astate w -> alloc_inv (w_sbi w) -> alloc_inv (w_sbi w')).
  { intros w w' H. by apply alloc_inv_aeq. }
  split; [split|].
  - split; [split|]; [intros c _ w Hw|intros h n w _ Hw|intros g w Hw|intros w Hw|
      intros n v w Hw]; refine (Hv _ _ _ Hw); try done; by apply (kdo_view astate).
  - intros. by apply get_free_blocks_inv.
  - intros. apply put_blocks_inv.
  - apply get_free_inode_inv.
  - intros. apply put_inode_inv.
  - intros b len [? _] [? _]. by apply take_exact_inv.
  - intros b len w Hw. unfold simplefs_blocks_are_free, lock_bitmap, unlock_bitmap, upd_sbi, get_sbi.
    unfold bind, gets, modify. cbn. destruct (bad_block_range _ _ _); cbn; [done|].
    apply (alloc_inv_aeq (w_sbi w)); [|done]. unfold aeq, astate_of; cbn.
    by destruct Hw as (_ & _ & _ & _ & ->).
  - intros f w Hw. exact Hw.
Qed.

Lemma upd_inode_pres (I : world -> Prop) `{!FStable I} ino f : preserves I (upd_inode ino f).
Proof. apply (fs_inodes (fun m => <[ino := f (default default_inode (m !! ino))]> m)). Qed.
End Interface.

#[export] Hint Resolve persist_bitmap_pres upd_inode_pres bs_put_blocks bs_get_inode bs_put_inode bs_free : pres.
#[export] Hint Extern 2 (preserves _ (get_free_blocks _)) =>
  (apply bs_get_blocks; unfold is_u32, U32_MAX; lia) : pres.
#[export] Hint Extern 2 (preserves _ (simplefs_take_exact_blocks _ _)) =>
  (apply bs_take; first [apply u32_range | unfold is_u32, U32_MAX; lia]) : pres.
#[export] Hint Extern 1 (AStable _) => typeclasses eauto : pres.
#[export] Hint Extern 1 (IStable _) => typeclasses eauto : pres.
#[export] Hint Extern 1 (BStable _) => typeclasses eauto : pres.
#[export] Hint Extern 1 (FStable _) => typeclasses eauto : pres.
