(* ===== verification/Retire.v ===== *)
(** * Retire: giving metadata blocks back (simplefs_metabuf.c)

    A metadata block may return to the allocator only when nothing can write its
    old image any more: with a journal after its revoke record is in the running
    transaction, without one after its folio has been written back and dropped. *)

From stdpp Require Import base list numbers gmap.
From S2P Require Import Prelude Image Layout Kernel DiskFormat Discard Journal MetaBuf.
From S2P Require Import Alloc.

Local Open Scope Z_scope.
Local Open Scope fs_scope.

Section Retire.
Context {K : Kernel}.

Definition simplefs_retire_metadata_blocks (bno len : Z) : M Z :=
  let! s := get_sbi in
  if has_jbd2 (s_journal s) then
    let! has := simplefs_journal_has_current_handle in
    let own_handle := negb has in
    let! root := gets w_root in
    if own_handle && negb root then ret (- EIO) else
    let! handle := (if own_handle then simplefs_journal_start len else ret HNull) in
    if HANDLE_IS_ERR handle then ret (HANDLE_PTR_ERR handle) else
    let! r := for_z (Z.to_nat len) 0
                (fun i => simplefs_journal_forget_current (u32 (bno + i))) in
    if negb (r =? 0) then
      run! when own_handle
        (run! simplefs_journal_abort handle r in
         run! simplefs_journal_stop handle in ret tt) in
      ret r
    else
    run! put_blocks bno len in
    if negb own_handle then ret 0 else
    let! r := simplefs_journal_stop handle in
    if negb (r =? 0) then ret r else
    run! kdo (InvalidatePages bno len) in
    ret 0
  else
  let! r := kdo (FilemapWriteAndWait bno len) in
  if negb (r =? 0) then ret r else
  let! r := kdo (InvalidatePages bno len) in
  if negb (r =? 0) then ret r else
  run! put_blocks bno len in
  ret 0.

Lemma retire_apres (I : world -> Prop) `{!BStable I} bno len :
  preserves I (simplefs_retire_metadata_blocks bno len).
Proof. unfold simplefs_retire_metadata_blocks. pres. Qed.

End Retire.

#[export] Hint Resolve retire_apres : pres.

(** ** Data blocks keep their images

    Persisting a bitmap publishes bitmap blocks and the superblock only, so an
    image outside the metadata area survives every allocator operation. *)

Definition layout_of (s : sb_info) : Z * Z * Z * Z * Z :=
  (nr_blocks s, nr_inodes s, nr_istore_blocks s, nr_ifree_blocks s, nr_bfree_blocks s).

(** The layout the formatter produces: the areas follow each other and the
    bitmaps are large enough for what they map. *)
Definition layout_ok (s : sb_info) : Prop :=
  0 <= nr_istore_blocks s /\ 0 <= nr_ifree_blocks s /\ 0 <= nr_bfree_blocks s /\
  1 + nr_istore_blocks s + nr_ifree_blocks s + nr_bfree_blocks s <= U32_MAX /\
  nr_blocks s <= nr_bfree_blocks s * BITS_PER_BLOCK /\
  nr_inodes s <= nr_ifree_blocks s * BITS_PER_BLOCK.

Lemma layout_ok_eq s s' : layout_of s = layout_of s' -> layout_ok s -> layout_ok s'.
Proof. unfold layout_of, layout_ok. by intros [= -> -> -> -> ->]. Qed.

Section ImageFrames.
Context {K : Kernel}.

(** Block [n], outside the metadata area of layout [s0], holds [v]. *)
Definition data_image (s0 : sb_info) (n v : Z) (w : world) : Prop :=
  layout_of (w_sbi w) = layout_of s0 /\ block_image w n = v.

#[export] Instance data_image_kstable s0 n v : KStable (data_image s0 n v).
Proof.
  split.
  - intros c _ w [H1 H2]. unfold kdo. destruct (kstep _ c). by split.
  - intros h m w _ [H1 H2]. unfold kdo. destruct (kstep _ _). by split.
  - intros f w H. exact H.
  - intros w H. exact H.
Qed.
#[export] Instance data_image_dstable s0 n v : DStable (data_image s0 n v).
Proof. split; intros; intros w H; exact H. Qed.

Lemma data_image_upd s0 n v f : (forall s, layout_of (f s) = layout_of s) ->
  preserves (data_image s0 n v) (upd_sbi f).
Proof. intros Hf w [H1 H2]. split; [|done]. cbn. by rewrite Hf. Qed.

Lemma data_image_write s0 n v m img : n <> m -> preserves (data_image s0 n v) (write_image m img).
Proof.
  intros Hn w [H1 H2]. split; [done|]. unfold block_image in *; cbn.
  by rewrite lookup_insert_ne by congruence.
Qed.

Lemma data_image_block s0 n v m data : n <> m ->
  preserves (data_image s0 n v) (simplefs_journal_block m data).
Proof.
  intros Hn. unfold simplefs_journal_block, simplefs_journal_dirty_current. pres.
  unfold simplefs_jbd2_dirty. pres_step; [pres|]. pres_step; [apply preserves_ret|].
  intros w Hw. unfold bind at 1, kdo at 1.
  match goal with |- context [kstep _ ?c] =>
    pose proof (ks_call c Logic.I w Hw) as Hw1 end. unfold kdo in Hw1.
  destruct (kstep (w_kernel w) _) as [r k]; cbn [snd] in Hw1.
  destruct (Z.eqb_spec r 0) as [->|]; cbn [negb].
  - unfold bind, write_image, modify. apply ks_dirty; [by left|].
    by apply (data_image_write s0 n v m data Hn).
  - match goal with |- ?I (snd (?f _)) => assert (preserves I f) as Hp by pres end. by apply Hp.
Qed.

(** The bitmap blocks of bits in range lie in the metadata area. *)
Lemma journal_bitmap_data s0 n v (im : bool) bit len :
  layout_ok s0 -> root_dir_block s0 <= n -> 0 <= bit -> 0 < len ->
  bit + len <= (if im then nr_inodes s0 else nr_blocks s0) <= U32_MAX ->
  preserves (data_image s0 n v) (simplefs_journal_bitmap im bit len).
Proof.
  intros (L1 & L2 & L3 & L4 & L5 & L6) Hn Hb Hl Hend. unfold simplefs_journal_bitmap.
  unfold root_dir_block, U32_MAX in *. rewrite u32_id in Hn by (unfold is_u32, U32_MAX; lia).
  pres_step; [apply get_sbi_pres|]. pres_step; [apply preserves_ret|].
  rewrite u32_id by (unfold is_u32, U32_MAX; lia).
  apply preserves_for_z_range. intros idx Hidx w Hw.
  assert (Hr : 0 <= idx <= (bit + len - 1) / BITS_PER_BLOCK).
  { unfold BITS_PER_BLOCK, SIMPLEFS_BLOCK_SIZE in *. Z.to_euclidean_division_equations. lia. }
  assert (Hx : idx < (if im then nr_ifree_blocks s0 else nr_bfree_blocks s0)).
  { apply Z.le_lt_trans with ((bit + len - 1) / BITS_PER_BLOCK); [lia|].
    unfold BITS_PER_BLOCK, SIMPLEFS_BLOCK_SIZE in *.
    apply Z.div_lt_upper_bound; [lia|]. destruct im; lia. }
  unfold bind, get_sbi, gets. pose proof Hw as [Hlay _].
  unfold layout_of in Hlay. injection Hlay as E1 E2 E3 E4 E5.
  destruct im; apply data_image_block; try done;
    rewrite ?E3, ?E4; rewrite u32_id by (unfold is_u32, U32_MAX; lia); lia.
Qed.

Lemma free_counts_data s0 n v : 0 < n -> preserves (data_image s0 n v) simplefs_journal_free_counts.
Proof.
  intros Hn. unfold simplefs_journal_free_counts. pres.
  apply data_image_write. unfold SIMPLEFS_SB_BLOCK_NR. lia.
Qed.

Lemma persist_data s0 n v (im : bool) bit len :
  layout_ok s0 -> root_dir_block s0 <= n -> 0 <= bit -> 0 < len ->
  bit + len <= (if im then nr_inodes s0 else nr_blocks s0) <= U32_MAX ->
  preserves (data_image s0 n v) (simplefs_persist_bitmap im bit len).
Proof.
  intros Hlay Hn Hb Hl Hend. unfold simplefs_persist_bitmap.
  assert (0 < n).
  { destruct Hlay as (L1 & L2 & L3 & L4 & _). unfold root_dir_block, U32_MAX in *.
    rewrite u32_id in Hn by (unfold is_u32, U32_MAX; lia). lia. }
  pres_step; [by apply journal_bitmap_data|]. pres. by apply free_counts_data.
Qed.

Lemma put_blocks_data s0 n v bno0 len0 :
  layout_ok s0 -> root_dir_block s0 <= n -> nr_blocks s0 <= U32_MAX ->
  preserves (data_image s0 n v) (put_blocks bno0 len0).
Proof.
  intros Hlay Hn Hmax. unfold put_blocks, lock_bitmap, unlock_bitmap.
  destruct (u32_range bno0) as [Hb _], (u32_range len0) as [Hl _].
  set (bno := u32 bno0) in *. set (len := u32 len0) in *. cbv zeta.
  pres_step; [pres|]. pres_step; [apply preserves_ret|].
  pres_step; [by apply data_image_upd|].
  intros w Hw. unfold bind at 1, get_sbi at 1, gets at 1.
  match goal with |- data_image _ _ _ (snd (?m w)) => assert (preserves (data_image s0 n v) m) as Hp end;
    [|by apply Hp]. pose proof Hw as [Hl0 _]. unfold layout_of in Hl0. injection Hl0 as E1 _ _ _ _.
  pres_step; [|pres; by apply data_image_upd].
  destruct (bad_block_range (w_sbi w) bno len) eqn:Hbad; [apply preserves_ret|].
  apply bad_range_false in Hbad as (B1 & B2 & B3); [|done..]. rewrite E1 in B3.
  repeat (pres_step || (apply data_image_upd; by intros) || (apply persist_data; (done || lia))).
Qed.

Lemma retire_data s0 n v bno len :
  layout_ok s0 -> root_dir_block s0 <= n -> nr_blocks s0 <= U32_MAX ->
  preserves (data_image s0 n v) (simplefs_retire_metadata_blocks bno len).
Proof.
  intros. unfold simplefs_retire_metadata_blocks.
  repeat (pres_step || by apply put_blocks_data).
Qed.

Lemma get_free_blocks_loop_data s0 n v len fuel : forall search,
  layout_ok s0 -> root_dir_block s0 <= n -> 0 <= len <= U32_MAX -> 0 < nr_blocks s0 <= U32_MAX ->
  0 <= search -> preserves (data_image s0 n v) (get_free_blocks_loop fuel len search).
Proof.
  induction fuel as [|fuel IH]; intros search Hlay Hn Hl Hmax Hs; cbn [get_free_blocks_loop]; [pres|].
  intros w Hw. unfold bind at 1, get_sbi at 1, gets at 1.
  pose proof Hw as [Hl0 _]. unfold layout_of in Hl0. injection Hl0 as E1 _ _ _ _.
  destruct (get_first_free_bits_from _ _ len search) as [r map] eqn:E.
  apply first_free_bits_spec in E; [|rewrite ?E1; lia..]. rewrite E1 in E.
  match goal with |- data_image _ _ _ (snd (?m w)) => assert (preserves (data_image s0 n v) m) as Hp end;
    [|by apply Hp].
  pres_step; [by apply data_image_upd|].
  destruct (Z.eqb_spec r 0) as [->|Hr]; [pres|].
  assert (Hrange : 0 < r /\ 0 < len /\ r + len <= nr_blocks s0).
  { destruct E as [(? & ? & ? & _)|(? & _)]; lia. }
  pres_step; [pres|]. pres_step.
  - pres_step; [by apply data_image_upd|]. pres_step; [|pres]. apply IH; try done.
    unfold u32. apply Z.mod_pos_bound. lia.
  - pres_step; [by apply data_image_upd|]. pres_step; [by apply data_image_upd|].
    pres_step; [|pres]. apply persist_data; try done; lia.
Qed.

Lemma get_free_blocks_data s0 n v len :
  layout_ok s0 -> root_dir_block s0 <= n -> 0 <= len <= U32_MAX -> 0 < nr_blocks s0 <= U32_MAX ->
  preserves (data_image s0 n v) (get_free_blocks len).
Proof.
  intros. unfold get_free_blocks, lock_bitmap, unlock_bitmap.
  repeat (pres_step || (apply data_image_upd; by intros) || apply get_free_blocks_loop_data); done.
Qed.
End ImageFrames.
