(* ===== verification/ExtentBuf.v ===== *)
(** * ExtentBuf: the in-memory extent list (simplefs_extent.c, simplefs_file.c)

    The operations on [struct simplefs_extent_buffer] that every mapping change
    is built from: growing and appending, search, removal, insertion, splitting
    an extent to change the written state of part of it, and normalisation.

    The abstract view of a buffer is the relation [maps]: logical block, physical
    block, unwritten.  The theorems say what each operation does to it. *)

From stdpp Require Import base list numbers gmap sorting.
From S2P Require Import Prelude Image Layout Kernel DiskFormat Discard Journal.

Local Open Scope Z_scope.
Local Open Scope fs_scope.

(** ** Pure list operations *)

(** [while (new_capacity < min_capacity) new_capacity *= 2]; 32 doublings of a
    nonzero [uint32_t] reach any capacity up to 2^31. *)
Fixpoint double_capacity (fuel : nat) (capacity min_capacity : Z) : Z :=
  match fuel with
  | O => capacity
  | S fuel' => if capacity <? min_capacity
               then double_capacity fuel' (u32 (capacity * 2)) min_capacity else capacity
  end.

(** The scan of [simplefs_file_find_extent]: whether [iblock] is mapped, and the
    index of its extent or the place to insert one. *)
Fixpoint find_extent_from (i : Z) (l : list extent) (iblock : Z) : bool * Z :=
  match l with
  | [] => (false, i)
  | ext :: l' =>
      if iblock <? ee_block ext then (false, i) else
      if (ee_block ext <=? iblock) && (iblock <? simplefs_ext_end ext) then (true, i) else
      find_extent_from (i + 1) l' iblock
  end.
Definition simplefs_file_find_extent (buf : extent_buffer) (iblock : Z) : bool * Z :=
  find_extent_from 0 (eb_extents buf) iblock.

(** The [memmove] of an element out of, or into, an array. *)
Definition remove_at (i : nat) (l : list extent) : list extent := take i l ++ drop (S i) l.
Definition insert_at (i : nat) (e : extent) (l : list extent) : list extent :=
  take i l ++ e :: drop i l.

Definition simplefs_file_remove_extent (buf : extent_buffer) (extent_idx : Z) : Z * extent_buffer :=
  if nr_extents buf <=? extent_idx then (- EINVAL, buf)
  else (0, eb_set_extents buf (remove_at (Z.to_nat extent_idx) (eb_extents buf))).

(** The inner loop of the exchange sort: [x] is [extents[i]], the list what
    follows it. *)
Fixpoint sort_pass (x : extent) (l : list extent) : extent * list extent :=
  match l with
  | [] => (x, [])
  | y :: l' => if ee_block x >? ee_block y
               then let '(m, r) := sort_pass y l' in (m, x :: r)
               else let '(m, r) := sort_pass x l' in (m, y :: r)
  end.
Fixpoint exchange_sort (n : nat) (l : list extent) : list extent :=
  match n, l with
  | S n', x :: l' => let '(m, r) := sort_pass x l' in m :: exchange_sort n' r
  | _, _ => l
  end.

(** Two neighbours that continue each other, logically and physically. *)
Definition mergeable (cur next : extent) : bool :=
  Bool.eqb (simplefs_ext_unwritten cur) (simplefs_ext_unwritten next) &&
  (simplefs_ext_end cur =? ee_block next) &&
  (u32 (ee_start cur + simplefs_ext_len cur) =? ee_start next) &&
  (simplefs_ext_len cur + simplefs_ext_len next <=? SIMPLEFS_MAX_BLOCKS_PER_EXTENT).
Definition merge (cur next : extent) : extent :=
  simplefs_ext_set_len cur (simplefs_ext_len cur + simplefs_ext_len next).

(** The second loop of [simplefs_file_normalize_extents], on the array from [i];
    every iteration shortens it. *)
Fixpoint merge_loop (n : nat) (l : list extent) : list extent :=
  match n, l with
  | S n', cur :: l' =>
      if simplefs_extent_is_empty cur then merge_loop n' l' else
      match l' with
      | next :: l'' =>
          if mergeable cur next then merge_loop n' (merge cur next :: l'')
          else cur :: merge_loop n' l'
      | [] => cur :: merge_loop n' l'
      end
  | _, _ => l
  end.

Definition normalize (l : list extent) : list extent :=
  let s := exchange_sort (length l) l in merge_loop (length s) s.
Definition simplefs_file_normalize_extents (buf : extent_buffer) : extent_buffer :=
  eb_set_extents buf (normalize (eb_extents buf)).

Definition ext_at (l : list extent) (i : Z) : extent :=
  nth (Z.to_nat i) l (Extent 0 0 0).

Section Ops.
Context {K : Kernel}.

Definition simplefs_file_grow_extent_buffer (buf : extent_buffer) (min_capacity : Z)
    : M (Z * extent_buffer) :=
  if min_capacity <=? eb_capacity buf then ret (0, buf) else
  let start := if negb (eb_capacity buf =? 0) then eb_capacity buf
               else SIMPLEFS_FILE_EXTENTS_PER_LEAF in
  let new_capacity := double_capacity 32 start min_capacity in
  let! ok := kmalloc in
  if negb ok then ret (- ENOMEM, buf) else
  ret (0, ExtentBuffer (eb_extents buf) new_capacity (eb_leaf_blocks buf)).

Definition simplefs_file_append_extent (buf : extent_buffer) (ext : extent)
    : M (Z * extent_buffer) :=
  let! (r, buf) := simplefs_file_grow_extent_buffer buf (nr_extents buf + 1) in
  if negb (r =? 0) then ret (r, buf) else
  ret (0, eb_set_extents buf (eb_extents buf ++ [ext])).

Definition simplefs_file_destroy_extents (buf : extent_buffer) : extent_buffer := eb_empty.

Definition simplefs_file_insert_extent (buf : extent_buffer) (insert_idx : Z) (ext : extent)
    : M (Z * extent_buffer) :=
  let l := eb_extents buf in
  let! (r, buf) := simplefs_file_append_extent buf ext in
  if negb (r =? 0) then ret (r, buf) else
  ret (0, eb_set_extents buf (insert_at (Z.to_nat insert_idx) ext l)).

(** The common body of [simplefs_convert_unwritten_extent] ([from] = true) and
    [simplefs_mark_unwritten_extent] ([from] = false): the part [iblock, +map_len)
    of extent [extent_idx] changes state, the head and tail keep theirs. *)
Definition split_extent (from : bool) (buf : extent_buffer) (extent_idx iblock map_len : Z)
    : M (Z * extent_buffer) :=
  let orig := ext_at (eb_extents buf) extent_idx in
  let orig_len := simplefs_ext_len orig in
  let head_len := u32 (iblock - ee_block orig) in
  if negb (Bool.eqb (simplefs_ext_unwritten orig) from) then ret (0, buf) else
  let map_len := Z.min map_len (u32 (orig_len - head_len)) in
  let tail_len := u32 (orig_len - head_len - map_len) in
  let data := Extent iblock map_len (u32 (ee_start orig + head_len)) in
  let buf := eb_set_extents buf (<[Z.to_nat extent_idx := data]> (eb_extents buf)) in
  let! (r, buf) :=
    (if negb (head_len =? 0)
     then simplefs_file_insert_extent buf extent_idx
            (simplefs_ext_init (ee_block orig) head_len (ee_start orig) from)
     else ret (0, buf)) in
  if negb (r =? 0) then ret (r, buf) else
  let extent_idx := if negb (head_len =? 0) then extent_idx + 1 else extent_idx in
  let! (r, buf) :=
    (if negb (tail_len =? 0)
     then simplefs_file_insert_extent buf (extent_idx + 1)
            (simplefs_ext_init (u32 (iblock + map_len)) tail_len
               (u32 (ee_start orig + head_len + map_len)) from)
     else ret (0, buf)) in
  if negb (r =? 0) then ret (r, buf) else
  ret (0, eb_set_extents buf
            (alter (fun e => simplefs_ext_set_unwritten e (negb from))
                   (Z.to_nat extent_idx) (eb_extents buf))).

Definition simplefs_convert_unwritten_extent := split_extent true.
Definition simplefs_mark_unwritten_extent := split_extent false.

Definition simplefs_append_extent_slice (buf : extent_buffer) (src : extent)
    (logical_start logical_len physical_start : Z) : M (Z * extent_buffer) :=
  if logical_len =? 0 then ret (0, buf) else
  simplefs_file_append_extent buf
    (simplefs_ext_init logical_start logical_len physical_start (simplefs_ext_unwritten src)).

End Ops.

(** ** The abstract view *)

Definition ext_maps (e : extent) (b p : Z) (u : bool) : Prop :=
  simplefs_extent_is_empty e = false /\
  ee_block e <= b < ee_block e + simplefs_ext_len e /\
  p = ee_start e + (b - ee_block e) /\ u = simplefs_ext_unwritten e.
Definition maps (l : list extent) (b p : Z) (u : bool) : Prop :=
  exists e, In e l /\ ext_maps e b p u.

(** An extent whose ranges do not wrap. *)
Definition ext_ok (e : extent) : Prop :=
  0 <= ee_block e /\ 0 <= ee_start e /\
  ee_block e + simplefs_ext_len e <= U32_MAX /\ ee_start e + simplefs_ext_len e <= U32_MAX.

Definition ext_le (a b : extent) : Prop := ee_block a <= ee_block b.
Definition nonempty (e : extent) : Prop := simplefs_extent_is_empty e = false.

(** Two extents that do not overlap logically. *)
Definition disj (a b : extent) : Prop :=
  simplefs_extent_is_empty a = true \/ simplefs_extent_is_empty b = true \/
  ee_block a + simplefs_ext_len a <= ee_block b \/ ee_block b + simplefs_ext_len b <= ee_block a.

(** The nonempty extents of [l] follow each other without overlap, from [lo]. *)
Fixpoint chain (lo : Z) (l : list extent) : Prop :=
  match l with
  | [] => True
  | e :: l' => if simplefs_extent_is_empty e then chain lo l'
               else lo <= ee_block e /\ chain (ee_block e + simplefs_ext_len e) l'
  end.

(** What a well-formed extent list is: ordered, disjoint, no empty entry. *)
Definition wf_extents (l : list extent) : Prop :=
  chain 0 l /\ Forall ext_ok l /\ Forall nonempty l.

Lemma maps_cons e l b p u : maps (e :: l) b p u <-> ext_maps e b p u \/ maps l b p u.
Proof.
  split.
  - intros (x & [->|Hin] & Hx); [by left|]. right. by exists x.
  - intros [H|(x & Hin & Hx)]; [exists e|exists x]; split; auto; [by left|by right].
Qed.
Lemma maps_nil b p u : maps [] b p u <-> False.
Proof. split; [by intros (x & [] & _)|done]. Qed.
Lemma maps_app l k b p u : maps (l ++ k) b p u <-> maps l b p u \/ maps k b p u.
Proof.
  induction l as [|e l IH]; cbn [app]; [rewrite maps_nil; tauto|].
  rewrite !maps_cons, IH. tauto.
Qed.
Lemma maps_perm l k b p u : Permutation l k -> maps l b p u <-> maps k b p u.
Proof.
  intros Hp. split; intros (x & Hin & Hx); exists x; split; auto;
    [by rewrite <- Hp|by rewrite Hp].
Qed.

Lemma nonempty_len e : nonempty e <-> ee_start e <> 0 /\ 0 < simplefs_ext_len e.
Proof.
  pose proof (ext_len_bounds e). unfold nonempty, simplefs_extent_is_empty.
  rewrite orb_false_iff, !Z.eqb_neq. lia.
Qed.

Lemma empty_maps e b p u : simplefs_extent_is_empty e = true -> ~ ext_maps e b p u.
Proof. intros H (H1 & _). congruence. Qed.

Lemma ext_end_ok e : ext_ok e -> simplefs_ext_end e = ee_block e + simplefs_ext_len e.
Proof.
  intros (H1 & _ & H2 & _). pose proof (ext_len_bounds e).
  apply u32_id. unfold is_u32. lia.
Qed.

(** ** The exchange sort *)

Lemma sort_pass_spec l : forall x m r, sort_pass x l = (m, r) ->
  Permutation (x :: l) (m :: r) /\ ext_le m x /\ Forall (ext_le m) r /\ length r = length l.
Proof.
  induction l as [|y l IH]; intros x m r E; cbn [sort_pass] in E.
  { simplify_eq. split_and!; [done|unfold ext_le; lia|done|done]. }
  rewrite Z.gtb_ltb in E. destruct (Z.ltb_spec (ee_block y) (ee_block x)) as [Hlt|Hle].
  - destruct (sort_pass y l) as [m' r'] eqn:E'. injection E as <- <-.
    destruct (IH _ _ _ E') as (Hp & Hle & Hall & Hlen). unfold ext_le in *.
    split_and!; [|lia|constructor; [lia|done]|cbn; lia].
    rewrite (Permutation_swap x m'). by rewrite <- Hp.
  - destruct (sort_pass x l) as [m' r'] eqn:E'. injection E as <- <-.
    destruct (IH _ _ _ E') as (Hp & Hle' & Hall & Hlen). unfold ext_le in *.
    split_and!; [|lia|constructor; [lia|done]|cbn; lia].
    rewrite (Permutation_swap y m'), <- Hp. apply Permutation_swap.
Qed.

Lemma exchange_sort_spec n : forall l, length l = n ->
  Permutation l (exchange_sort n l) /\ StronglySorted ext_le (exchange_sort n l).
Proof.
  induction n as [|n IH]; intros l Hl.
  { destruct l; [|done]. split; [done|constructor]. }
  destruct l as [|x l]; [done|]. cbn [exchange_sort].
  destruct (sort_pass x l) as [m r] eqn:E. apply sort_pass_spec in E as (Hp & _ & Hall & Hlen).
  destruct (IH r) as [Hp' Hs]; [cbn in Hl; lia|].
  split; [by rewrite Hp, <- Hp'|]. constructor; [done|]. by rewrite <- Hp'.
Qed.

Lemma sort_pass_id x l : Forall (ext_le x) l -> sort_pass x l = (x, l).
Proof.
  induction l as [|y l IH]; intros H; cbn [sort_pass]; [done|].
  apply Forall_cons in H as [Hx H]. rewrite IH by done.
  unfold ext_le in Hx. rewrite Z.gtb_ltb. by destruct (Z.ltb_spec (ee_block y) (ee_block x)); [lia|].
Qed.

Lemma exchange_sort_id n : forall l, StronglySorted ext_le l -> exchange_sort n l = l.
Proof.
  induction n as [|n IH]; intros l H; [done|]. destruct l as [|x l]; [done|].
  cbn [exchange_sort]. apply StronglySorted_inv in H as [Hs Hx].
  rewrite sort_pass_id by done. by rewrite IH.
Qed.

(** ** The merge loop *)

Lemma mergeable_spec cur next : ext_ok cur -> mergeable cur next = true ->
  simplefs_ext_unwritten cur = simplefs_ext_unwritten next /\
  ee_block next = ee_block cur + simplefs_ext_len cur /\
  ee_start next = ee_start cur + simplefs_ext_len cur /\
  simplefs_ext_len cur + simplefs_ext_len next <= SIMPLEFS_MAX_BLOCKS_PER_EXTENT.
Proof.
  intros Hok H. unfold mergeable in H. bool_hyps.
  rewrite (ext_end_ok cur Hok) in *. destruct Hok as (O1 & O2 & O3 & O4).
  pose proof (ext_len_bounds cur). rewrite u32_id in * by (unfold is_u32; lia).
  split_and!; try lia. by apply eqb_prop.
Qed.

Lemma merge_fields cur next :
  simplefs_ext_len cur + simplefs_ext_len next <= SIMPLEFS_MAX_BLOCKS_PER_EXTENT ->
  simplefs_ext_len (merge cur next) = simplefs_ext_len cur + simplefs_ext_len next /\
  simplefs_ext_unwritten (merge cur next) = simplefs_ext_unwritten cur /\
  ee_block (merge cur next) = ee_block cur /\ ee_start (merge cur next) = ee_start cur.
Proof.
  intros H. pose proof (ext_len_bounds cur). pose proof (ext_len_bounds next).
  unfold merge. rewrite ext_set_len_len, ext_set_len_unwritten by lia. done.
Qed.

Lemma merge_spec cur next :
  ext_ok cur -> ext_ok next -> nonempty cur -> mergeable cur next = true ->
  ext_ok (merge cur next) /\ nonempty (merge cur next) /\
  forall b p u, ext_maps (merge cur next) b p u <-> ext_maps cur b p u \/ ext_maps next b p u.
Proof.
  intros Hc Hn Hne Hm. apply mergeable_spec in Hm as (Hu & Hb & Hs & Hl); [|done].
  destruct (merge_fields cur next Hl) as (L & U & B & S).
  pose proof (ext_len_bounds next). pose proof Hne as [N1 N2]%nonempty_len.
  destruct Hc as (C1 & C2 & C3 & C4), Hn as (D1 & D2 & D3 & D4).
  assert (Hnm : nonempty (merge cur next)) by (apply nonempty_len; rewrite S, L; lia).
  split_and!; [unfold ext_ok; rewrite B, S, L; lia|done|].
  intros b p u. unfold ext_maps. rewrite B, S, L, U.
  destruct (simplefs_extent_is_empty next) eqn:En.
  - assert (simplefs_ext_len next = 0).
    { unfold simplefs_extent_is_empty in En. apply orb_true_iff in En as [En|En]; bool_hyps; lia. }
    split; [|intros [?|(? & _)]; [|congruence]]; intuition (try congruence; try lia).
  - split.
    + intros (_ & H1 & H2 & H3).
      destruct (Z_lt_le_dec b (ee_block cur + simplefs_ext_len cur)); [left|right];
        intuition (try congruence; try lia).
    + intros [(_ & H1 & H2 & H3)|(_ & H1 & H2 & H3)]; intuition (try congruence; try lia).
Qed.

Lemma merge_loop_spec n : forall l, length l = n -> Forall ext_ok l ->
  Forall ext_ok (merge_loop n l) /\ Forall nonempty (merge_loop n l) /\
  (length (merge_loop n l) <= n)%nat /\
  (forall b p u, maps (merge_loop n l) b p u <-> maps l b p u) /\
  (forall lo, chain lo l -> chain lo (merge_loop n l)).
Proof.
  induction n as [|n IH]; intros l Hl Hok.
  { destruct l; [|done]. cbn. split_and!; try constructor; try done. }
  destruct l as [|cur l]; [done|]. cbn [merge_loop]. injection Hl as Hl.
  apply Forall_cons in Hok as [Hc Hok].
  destruct (simplefs_extent_is_empty cur) eqn:Ee.
  { destruct (IH l Hl Hok) as (H1 & H2 & H3 & H4 & H5). split_and!; [done..|lia| |].
    - intros b p u. rewrite H4, maps_cons. pose proof (empty_maps cur b p u Ee). tauto.
    - intros lo. cbn [chain]. rewrite Ee. apply H5. }
  assert (Hskip : Forall ext_ok (cur :: merge_loop n l) /\ Forall nonempty (cur :: merge_loop n l) /\
    (length (cur :: merge_loop n l) <= S n)%nat /\
    (forall b p u, maps (cur :: merge_loop n l) b p u <-> maps (cur :: l) b p u) /\
    (forall lo, chain lo (cur :: l) -> chain lo (cur :: merge_loop n l))).
  { destruct (IH l Hl Hok) as (H1 & H2 & H3 & H4 & H5).
    split_and!; [by constructor|by constructor|cbn; lia| |].
    - intros b p u. rewrite !maps_cons, H4. done.
    - intros lo. cbn [chain]. rewrite Ee. intros [? ?]. split; [done|by apply H5]. }
  destruct l as [|next l]; [done|]. destruct (mergeable cur next) eqn:Em; [|done]. clear Hskip.
  apply Forall_cons in Hok as [Hn Hok].
  destruct (merge_spec cur next Hc Hn Ee Em) as (M1 & M2 & M3).
  destruct (IH (merge cur next :: l)) as (H1 & H2 & H3 & H4 & H5); [done|by constructor|].
  split_and!; [done..|lia| |].
  - intros b p u. rewrite H4, !maps_cons, M3. tauto.
  - intros lo Hch. apply H5. cbn [chain] in *. rewrite Ee in Hch. rewrite M2.
    apply mergeable_spec in Em as (_ & Hb & Hs & Hlen); [|done].
    destruct (merge_fields cur next Hlen) as (L & _ & B & _). rewrite L, B.
    destruct Hch as [Hlo Hch]. split; [done|].
    destruct (simplefs_extent_is_empty next) eqn:En; [|rewrite Hb in Hch; destruct Hch as [_ Hch]].
    + assert (simplefs_ext_len next = 0) as ->; [|by rewrite Z.add_0_r].
      apply nonempty_len in Ee as [? ?].
      unfold simplefs_extent_is_empty in En. destruct Hc as (? & ? & ? & ?).
      apply orb_true_iff in En as [En|En]; bool_hyps; lia.
    + by rewrite Z.add_assoc.
Qed.

(** Sorting a list of pairwise disjoint extents chains them. *)
Lemma chain_sorted l : forall lo, Forall ext_ok l -> StronglySorted ext_le l ->
  ForallOrdPairs disj l -> Forall (fun e => nonempty e -> lo <= ee_block e) l -> chain lo l.
Proof.
  induction l as [|e l IH]; intros lo Hok Hs Hd Hlo; cbn [chain]; [done|].
  apply Forall_cons in Hok as [He Hok]. apply StronglySorted_inv in Hs as [Hs Hle].
  apply Forall_cons in Hlo as [Hlo Hlos]. inversion Hd as [|? ? Hde Hd']; subst.
  destruct (simplefs_extent_is_empty e) eqn:Ee; [by apply IH|].
  split; [by apply Hlo|]. apply IH; [done..|].
  rewrite Forall_forall in *. intros x Hx Hne.
  pose proof (proj1 (nonempty_len e) Ee) as [_ ?]. pose proof (proj1 (nonempty_len x) Hne) as [_ ?].
  specialize (Hle x Hx). unfold ext_le in Hle.
  destruct (Hde x Hx) as [H1|[H1|[H1|H1]]]; [congruence|unfold nonempty in Hne; congruence|done|lia].
Qed.

Lemma disj_sym a b : disj a b -> disj b a.
Proof. unfold disj. tauto. Qed.

Lemma pairs_perm l k : Permutation l k -> ForallOrdPairs disj l -> ForallOrdPairs disj k.
Proof.
  induction 1 as [|x l k Hp IH|x y l|l k m H1 IH1 H2 IH2]; intros H; auto.
  - inversion H; subst. constructor; [by rewrite <- Hp|auto].
  - inversion H as [|? ? Hy H']; subst. inversion H' as [|? ? Hx H'']; subst.
    apply Forall_cons in Hy as [Hyx Hy].
    constructor; [constructor; [by apply disj_sym|done]|by constructor].
Qed.

Lemma normalize_spec l : Forall ext_ok l ->
  Forall ext_ok (normalize l) /\ Forall nonempty (normalize l) /\
  (length (normalize l) <= length l)%nat /\
  (forall b p u, maps (normalize l) b p u <-> maps l b p u) /\
  (ForallOrdPairs disj l -> chain 0 (normalize l)).
Proof.
  intros Hok. unfold normalize.
  destruct (exchange_sort_spec (length l) l eq_refl) as [Hp Hs].
  set (s := exchange_sort (length l) l) in *.
  assert (Hoks : Forall ext_ok s) by (by rewrite <- Hp).
  destruct (merge_loop_spec (length s) s eq_refl Hoks) as (H1 & H2 & H3 & H4 & H5).
  split_and!; [done|done|by rewrite (Permutation_length Hp)| |].
  - intros b p u. rewrite H4. symmetry. by apply maps_perm.
  - intros Hd. apply H5, chain_sorted; [done..|by apply (pairs_perm l)|].
    eapply Forall_impl; [exact Hoks|]. intros e (He & _) _. done.
Qed.

(** A list in normal form: no neighbour continues the one before it. *)
Fixpoint unmergeable (l : list extent) : Prop :=
  match l with
  | e :: ((next :: _) as l') => mergeable e next = false /\ unmergeable l'
  | _ => True
  end.

(** Merging more into [next] does not make it a continuation of [cur]. *)
Lemma mergeable_longer cur next next' :
  mergeable cur next = false -> ee_block next' = ee_block next -> ee_start next' = ee_start next ->
  simplefs_ext_unwritten next' = simplefs_ext_unwritten next ->
  simplefs_ext_len next <= simplefs_ext_len next' -> mergeable cur next' = false.
Proof.
  unfold mergeable. intros H -> -> -> Hl.
  destruct (Bool.eqb _ _), (_ =? ee_block next), (_ =? ee_start next); try done.
  cbn [andb] in *. apply Z.leb_gt. apply Z.leb_gt in H. lia.
Qed.

(** The head of the merged list extends the head it started from. *)
Lemma merge_loop_head n cur l : nonempty cur -> length (cur :: l) = n ->
  Forall ext_ok (cur :: l) -> Forall nonempty l ->
  exists e r, merge_loop n (cur :: l) = e :: r /\ ee_block e = ee_block cur /\
    ee_start e = ee_start cur /\ simplefs_ext_unwritten e = simplefs_ext_unwritten cur /\
    simplefs_ext_len cur <= simplefs_ext_len e /\ unmergeable (e :: r).
Proof.
  revert cur l. induction n as [|n IH]; intros cur l Hne Hlen Hok Hnl; [done|].
  injection Hlen as Hlen. cbn [merge_loop]. rewrite Hne.
  apply Forall_cons in Hok as [Hc Hok].
  destruct l as [|next l].
  { subst n. cbn. exists cur, []. by split_and!. }
  apply Forall_cons in Hok as [Hn Hok]. apply Forall_cons in Hnl as [Hnn Hnl].
  destruct (mergeable cur next) eqn:Em.
  - destruct (merge_spec cur next Hc Hn Hne Em) as (M1 & M2 & _).
    apply mergeable_spec in Em as (_ & _ & _ & Hl); [|done].
    destruct (merge_fields cur next Hl) as (L & U & B & S).
    destruct (IH (merge cur next) l) as (e & r & E1 & E2 & E3 & E4 & E5 & E6);
      [done|done|by constructor|done|].
    pose proof (ext_len_bounds next). exists e, r. split_and!; try congruence; try done; lia.
  - destruct (IH next l) as (e & r & E1 & E2 & E3 & E4 & E5 & E6);
      [done|done|by constructor|done|].
    exists cur, (e :: r). rewrite E1. split_and!; try done. split; [|done].
    by apply (mergeable_longer cur next).
Qed.

Lemma merge_loop_id n : forall l, length l = n -> Forall nonempty l -> unmergeable l ->
  merge_loop n l = l.
Proof.
  induction n as [|n IH]; intros l Hl Hne Hu; [by destruct l|].
  destruct l as [|cur l]; [done|]. injection Hl as Hl.
  apply Forall_cons in Hne as [Hc Hne]. cbn [merge_loop]. rewrite Hc.
  destruct l as [|next l]; [by rewrite IH|]. destruct Hu as [-> Hu]. by rewrite IH.
Qed.

Lemma chain_sorted_inv l : forall lo, Forall ext_ok l -> Forall nonempty l -> chain lo l ->
  StronglySorted ext_le l /\ Forall (fun e => lo <= ee_block e) l.
Proof.
  induction l as [|e l IH]; intros lo Hok Hne Hc; [split; constructor|].
  apply Forall_cons in Hok as [He Hok]. apply Forall_cons in Hne as [Hn Hne].
  cbn [chain] in Hc. rewrite Hn in Hc. destruct Hc as [Hlo Hc].
  destruct (IH _ Hok Hne Hc) as [Hs Hall]. pose proof (ext_len_bounds e).
  split.
  - constructor; [done|]. eapply Forall_impl; [exact Hall|]. unfold ext_le. intros x Hx. cbn in Hx. lia.
  - constructor; [done|]. eapply Forall_impl; [exact Hall|]. intros x Hx. cbn in Hx. lia.
Qed.

(** ** Search *)

Lemma find_extent_spec l : forall i lo b, Forall ext_ok l -> Forall nonempty l -> chain lo l ->
  let '(found, k) := find_extent_from i l b in
  i <= k <= i + Z.of_nat (length l) /\
  (if found then exists e, l !! Z.to_nat (k - i) = Some e /\
                   ee_block e <= b < ee_block e + simplefs_ext_len e
   else (forall p u, ~ maps l b p u) /\
        Forall (fun e => ee_block e + simplefs_ext_len e <= b) (take (Z.to_nat (k - i)) l) /\
        Forall (fun e => b < ee_block e) (drop (Z.to_nat (k - i)) l)).
Proof.
  induction l as [|e l IH]; intros i lo b Hok Hne Hc; cbn [find_extent_from].
  { split; [cbn; lia|]. rewrite take_nil, drop_nil. split_and!; [|done|done].
    by intros p u ?%maps_nil. }
  apply Forall_cons in Hok as [He Hok]. apply Forall_cons in Hne as [Hn Hne].
  pose proof (proj1 (nonempty_len e) Hn) as [_ Hlen].
  pose proof Hc as Hc'. cbn [chain] in Hc. rewrite Hn in Hc. destruct Hc as [Hlo Hc].
  destruct (chain_sorted_inv (e :: l) lo) as [Hs _]; [by constructor..|done|].
  destruct (chain_sorted_inv l _ Hok Hne Hc) as [_ Hall].
  destruct (Z.ltb_spec b (ee_block e)) as [Hlt|Hge].
  { split; [cbn; lia|]. rewrite Z.sub_diag. cbn [Z.to_nat take drop].
    assert (Hgt : Forall (fun x => b < ee_block x) (e :: l)).
    { constructor; [done|]. eapply Forall_impl; [exact Hall|]. intros x Hx. cbn in Hx. lia. }
    split_and!; [|done|done]. intros p u (x & Hin & (_ & Hx & _)).
    rewrite Forall_forall in Hgt. apply list_elem_of_In, Hgt in Hin. lia. }
  rewrite (proj2 (Z.leb_le _ _)), (ext_end_ok e He) by lia. cbn [andb].
  destruct (Z.ltb_spec b (ee_block e + simplefs_ext_len e)) as [Hin|Hout].
  { split; [cbn; lia|]. exists e. rewrite Z.sub_diag. split; [done|lia]. }
  specialize (IH (i + 1) _ b Hok Hne Hc).
  destruct (find_extent_from (i + 1) l b) as [found k]. destruct IH as [Hk IH].
  split; [cbn [length]; lia|].
  replace (Z.to_nat (k - i)) with (S (Z.to_nat (k - (i + 1)))) by lia.
  destruct found; [done|]. destruct IH as (H1 & H2 & H3). split_and!; [|by constructor|done].
  intros p u. rewrite maps_cons. intros [(_ & Hx & _)|Hx]; [lia|by eapply H1].
Qed.

(** ** Growing, appending, inserting *)

Lemma double_capacity_ge fuel : forall cap min,
  0 < cap -> min <= 2 ^ 31 -> min <= cap * 2 ^ Z.of_nat fuel ->
  min <= double_capacity fuel cap min.
Proof.
  induction fuel as [|fuel IH]; intros cap min Hc Hm H; cbn [double_capacity].
  { cbn in H. lia. }
  destruct (Z.ltb_spec cap min); [|done].
  assert (u32 (cap * 2) = cap * 2) as -> by (apply u32_id; unfold is_u32, U32_MAX; lia).
  apply IH; [lia..|]. rewrite Nat2Z.inj_succ, Z.pow_succ_r in H by lia. lia.
Qed.

Section Specs.
Context {K : Kernel}.

Lemma grow_spec buf n w :
  wp (simplefs_file_grow_extent_buffer buf n) (fun rb _ => let '(r, buf') := rb in
    eb_extents buf' = eb_extents buf /\ eb_leaf_blocks buf' = eb_leaf_blocks buf /\
    ((r = 0 /\ (0 <= eb_capacity buf -> n <= 2 ^ 31 -> n <= eb_capacity buf')) \/
     (r = - ENOMEM /\ buf' = buf))) w.
Proof.
  unfold simplefs_file_grow_extent_buffer.
  destruct (Z.leb_spec n (eb_capacity buf)); kwp; [by auto|].
  destruct (r =? 0); cbn [negb]; kwp; [|by auto].
  split_and!; [done..|]. left. split; [done|]. intros Hc Hn. cbn [eb_capacity].
  destruct (Z.eqb_spec (eb_capacity buf) 0) as [->|]; cbn [negb];
    (apply double_capacity_ge; [try done; lia|lia|]); change (2 ^ Z.of_nat 32) with 4294967296;
    change SIMPLEFS_FILE_EXTENTS_PER_LEAF with 340; lia.
Qed.

Lemma append_spec buf e w :
  wp (simplefs_file_append_extent buf e) (fun rb _ => let '(r, buf') := rb in
    eb_leaf_blocks buf' = eb_leaf_blocks buf /\
    ((r = 0 /\ eb_extents buf' = eb_extents buf ++ [e]) \/ (r = - ENOMEM /\ buf' = buf))) w.
Proof.
  unfold simplefs_file_append_extent. apply wp_bind.
  eapply wp_mono; [apply grow_spec|]. intros [r buf'] w' (H1 & H2 & [[-> _]|[-> ->]]); cbn; kwp.
  - split; [done|]. left. by rewrite H1.
  - by split; [|right].
Qed.

Lemma insert_spec buf i e w :
  wp (simplefs_file_insert_extent buf i e) (fun rb _ => let '(r, buf') := rb in
    eb_leaf_blocks buf' = eb_leaf_blocks buf /\
    ((r = 0 /\ eb_extents buf' = insert_at (Z.to_nat i) e (eb_extents buf)) \/ r = - ENOMEM)) w.
Proof.
  unfold simplefs_file_insert_extent. apply wp_bind.
  eapply wp_mono; [apply append_spec|]. intros [r buf'] w' (H2 & [[-> _]|[-> ->]]); cbn; kwp.
  - split; [done|]. by left.
  - split; [done|]. by right.
Qed.

(** ** Changing the written state of part of an extent *)

Definition split_head (from : bool) (e : extent) (iblock : Z) : list extent :=
  let h := iblock - ee_block e in
  if h =? 0 then [] else [simplefs_ext_init (ee_block e) h (ee_start e) from].
Definition split_data (from : bool) (e : extent) (iblock n : Z) : extent :=
  let h := iblock - ee_block e in
  simplefs_ext_set_unwritten
    (Extent iblock (Z.min n (simplefs_ext_len e - h)) (ee_start e + h)) (negb from).
Definition split_tail (from : bool) (e : extent) (iblock n : Z) : list extent :=
  let h := iblock - ee_block e in
  let m := Z.min n (simplefs_ext_len e - h) in
  if simplefs_ext_len e - h - m =? 0 then []
  else [simplefs_ext_init (iblock + m) (simplefs_ext_len e - h - m) (ee_start e + h + m) from].

Lemma split_extent_spec from buf pre e post iblock n w :
  eb_extents buf = pre ++ e :: post -> ext_ok e -> simplefs_ext_unwritten e = from ->
  ee_block e <= iblock < ee_block e + simplefs_ext_len e -> 0 < n ->
  wp (split_extent from buf (Z.of_nat (length pre)) iblock n) (fun rb _ => let '(r, buf') := rb in
    eb_leaf_blocks buf' = eb_leaf_blocks buf /\
    ((r = 0 /\ eb_extents buf' = pre ++ split_head from e iblock ++
        split_data from e iblock n :: split_tail from e iblock n ++ post) \/ r = - ENOMEM)) w.
Proof.
  intros Hl Hok Hu Hb Hn. pose proof Hok as (O1 & O2 & O3 & O4). unfold U32_MAX in *.
  unfold split_extent. unfold ext_at. rewrite Hl, Nat2Z.id, nth_middle.
  rewrite Hu, Bool.eqb_reflx. cbn [negb].
  rewrite !(u32_id (iblock - ee_block e)) by (unfold is_u32, U32_MAX; lia).
  set (h := iblock - ee_block e) in *.
  rewrite !(u32_id (simplefs_ext_len e - h)) by (unfold is_u32, U32_MAX; lia).
  set (m := Z.min n (simplefs_ext_len e - h)) in *.
  rewrite !(u32_id (simplefs_ext_len e - h - m)) by (unfold is_u32, U32_MAX; lia).
  rewrite !(u32_id (ee_start e + h)) by (unfold is_u32, U32_MAX; lia).
  rewrite !(u32_id (iblock + m)) by (unfold is_u32, U32_MAX; lia).
  rewrite !(u32_id (ee_start e + h + m)) by (unfold is_u32, U32_MAX; lia).
  rewrite insert_app_r_alt, Nat.sub_diag by done. cbn [list_insert].
  unfold split_head, split_data, split_tail. fold h. fold m.
  set (data := Extent iblock m (ee_start e + h)). set (hd := simplefs_ext_init _ h _ _).
  set (tl := simplefs_ext_init (iblock + m) _ _ _).
  change (<[0%nat := data]> (e :: post)) with (data :: post).
  assert (Hfin : forall b1 pre1 idx w1, eb_leaf_blocks b1 = eb_leaf_blocks buf ->
    eb_extents b1 = pre1 ++ data :: post -> idx = Z.of_nat (length pre1) ->
    wp (let! (r, buf) := (if negb (simplefs_ext_len e - h - m =? 0)
          then simplefs_file_insert_extent b1 (idx + 1) tl else ret (0, b1)) in
        if negb (r =? 0) then ret (r, buf) else
        ret (0, eb_set_extents buf (alter (fun x => simplefs_ext_set_unwritten x (negb from))
                  (Z.to_nat idx) (eb_extents buf))))
      (fun rb _ => let '(r, buf') := rb in eb_leaf_blocks buf' = eb_leaf_blocks buf /\
        ((r = 0 /\ eb_extents buf' = pre1 ++ simplefs_ext_set_unwritten data (negb from) ::
           (if simplefs_ext_len e - h - m =? 0 then [] else [tl]) ++ post) \/ r = - ENOMEM)) w1).
  { intros b1 pre1 idx w1 Hlf Hx ->. apply wp_bind. destruct (_ - m =? 0); cbn [negb].
    - kwp. cbn. split; [done|]. left. split; [done|].
      by rewrite Hx, Nat2Z.id, alter_app_r_alt, Nat.sub_diag.
    - eapply wp_mono; [apply insert_spec|].
      intros [r b2] w2 (Hlf2 & [[-> Hx2]| ->]); kwp; cbn; [|split; [congruence|by right]].
      split; [congruence|]. left. split; [done|]. rewrite Hx2, Hx. unfold insert_at.
      replace (Z.to_nat (Z.of_nat (length pre1) + 1)) with (length pre1 + 1)%nat by lia.
      rewrite take_app_add, drop_app_add, <- app_assoc, Nat2Z.id. cbn.
      by rewrite alter_app_r_alt, Nat.sub_diag. }
  apply wp_bind. destruct (Z.eqb_spec h 0) as [Eh|Eh]; cbn [negb].
  - kwp. cbn [Z.eqb negb]. by apply Hfin.
  - eapply wp_mono; [apply insert_spec|].
    intros [r b1] w1 (Hlf & [[-> Hx]| ->]); cbn [Z.eqb negb Z.opp ENOMEM];
      [|kwp; split; [done|by right]].
    eapply wp_mono; [apply (Hfin b1 (pre ++ [hd])); [done| |rewrite length_app; cbn; lia]|].
    + rewrite Hx. unfold insert_at. rewrite Nat2Z.id. cbn [eb_extents eb_set_extents].
      rewrite take_app_length, drop_app_length, <- app_assoc. done.
    + intros [r b2] w2 (L & [[-> X]| ->]); (split; [done|]); [left|by right].
      by rewrite X, <- app_assoc.
Qed.

End Specs.

Lemma ext_init_maps b n s u0 x p u :
  0 < n <= SIMPLEFS_MAX_BLOCKS_PER_EXTENT -> s <> 0 ->
  ext_maps (simplefs_ext_init b n s u0) x p u <-> (b <= x < b + n /\ p = s + (x - b) /\ u = u0).
Proof.
  intros Hn Hs. unfold ext_maps, simplefs_extent_is_empty.
  rewrite ext_init_len, ext_init_unwritten by lia. cbn [ee_start ee_block simplefs_ext_init].
  rewrite (proj2 (Z.eqb_neq s 0) Hs), (proj2 (Z.eqb_neq n 0)) by lia. cbn [orb]. tauto.
Qed.

Lemma split_data_init from e iblock n :
  0 < n -> iblock < ee_block e + simplefs_ext_len e -> ee_block e <= iblock ->
  split_data from e iblock n =
  simplefs_ext_init iblock (Z.min n (simplefs_ext_len e - (iblock - ee_block e)))
    (ee_start e + (iblock - ee_block e)) (negb from).
Proof. done. Qed.

(** Splitting changes the state of the chosen range and nothing else. *)
Lemma split_maps from e iblock n x p u :
  ext_ok e -> nonempty e -> simplefs_ext_unwritten e = from -> 0 < n ->
  ee_block e <= iblock < ee_block e + simplefs_ext_len e ->
  maps (split_head from e iblock ++ split_data from e iblock n :: split_tail from e iblock n) x p u <->
  exists u0, ext_maps e x p u0 /\ u = if (iblock <=? x) && (x <? iblock + n) then negb from else u0.
Proof.
  intros (O1 & O2 & _ & _) Hne Hu Hn Hb. pose proof (ext_len_bounds e) as Hlen.
  pose proof (proj1 (nonempty_len e) Hne) as [Hs _].
  rewrite maps_app, maps_cons, split_data_init by lia. rewrite ext_init_maps by lia.
  set (h := iblock - ee_block e). set (m := Z.min n (simplefs_ext_len e - h)).
  assert (Hhead : maps (split_head from e iblock) x p u <->
    (ee_block e <= x < iblock /\ p = ee_start e + (x - ee_block e) /\ u = from)).
  { unfold split_head. fold h. destruct (Z.eqb_spec h 0).
    - rewrite maps_nil. lia.
    - rewrite maps_cons, maps_nil, ext_init_maps by lia. intuition lia. }
  assert (Htail : maps (split_tail from e iblock n) x p u <->
    (iblock + m <= x < ee_block e + simplefs_ext_len e /\
     p = ee_start e + (x - ee_block e) /\ u = from)).
  { unfold split_tail. fold h. fold m. destruct (Z.eqb_spec (simplefs_ext_len e - h - m) 0).
    - rewrite maps_nil. lia.
    - rewrite maps_cons, maps_nil, ext_init_maps by lia. intuition lia. }
  rewrite Hhead, Htail. unfold ext_maps. fold (nonempty e). rewrite Hu. split.
  - intros [(H1 & H2 & ->)|[(H1 & H2 & ->)|(H1 & H2 & ->)]]; exists from;
      destruct (Z.leb_spec iblock x), (Z.ltb_spec x (iblock + n)); cbn [andb];
      split_and!; try done; lia.
  - intros (u0 & (_ & H1 & H2 & ->) & ->).
    destruct (Z.leb_spec iblock x), (Z.ltb_spec x (iblock + n)); cbn [andb].
    + right. left. split_and!; try done; lia.
    + right. right. split_and!; try done; lia.
    + left. split_and!; try done; lia.
    + left. split_and!; try done; lia.
Qed.

Lemma chain_replace e es post : forall pre lo,
  (forall lo', chain lo' (e :: post) -> chain lo' (es ++ post)) ->
  chain lo (pre ++ e :: post) -> chain lo (pre ++ es ++ post).
Proof.
  induction pre as [|x pre IH]; intros lo Hr H; cbn [app]; [by apply Hr|].
  cbn [app chain] in *. destruct (simplefs_extent_is_empty x); [by apply IH|].
  destruct H; split; [done|by apply IH].
Qed.

Lemma ext_init_nonempty b n s u :
  0 < n <= SIMPLEFS_MAX_BLOCKS_PER_EXTENT -> s <> 0 -> nonempty (simplefs_ext_init b n s u).
Proof.
  intros. apply nonempty_len. rewrite ext_init_len by lia. cbn [simplefs_ext_init ee_start]. lia.
Qed.

Lemma split_chain from e iblock n post lo :
  ext_ok e -> nonempty e -> 0 < n -> ee_block e <= iblock < ee_block e + simplefs_ext_len e ->
  chain lo (e :: post) ->
  chain lo ((split_head from e iblock ++ split_data from e iblock n :: split_tail from e iblock n) ++ post).
Proof.
  intros (O1 & O2 & _ & _) Hne Hn Hb Hc. cbn [chain] in Hc. rewrite Hne in Hc. destruct Hc as [Hlo Hc].
  pose proof (ext_len_bounds e) as Hlen. pose proof (proj1 (nonempty_len e) Hne) as [Hs _].
  rewrite split_data_init by lia. unfold split_head, split_tail.
  set (h := iblock - ee_block e) in *. set (m := Z.min n (simplefs_ext_len e - h)) in *.
  assert (Htail : chain (iblock + m) ((if simplefs_ext_len e - h - m =? 0 then [] else
    [simplefs_ext_init (iblock + m) (simplefs_ext_len e - h - m) (ee_start e + h + m) from]) ++ post)).
  { destruct (Z.eqb_spec (simplefs_ext_len e - h - m) 0); cbn [app chain].
    - by replace (iblock + m) with (ee_block e + simplefs_ext_len e) by lia.
    - rewrite (ext_init_nonempty (iblock + m)) by lia. cbn [simplefs_ext_init ee_block] in *.
      split; [lia|]. fold (simplefs_ext_init (iblock + m) (simplefs_ext_len e - h - m) (ee_start e + h + m) from).
      rewrite ext_init_len by lia.
      by replace (iblock + m + (simplefs_ext_len e - h - m)) with (ee_block e + simplefs_ext_len e) by lia. }
  rewrite <- app_assoc. cbn [app].
  assert (Hdata : forall lo, lo <= iblock -> chain lo (simplefs_ext_init iblock m (ee_start e + h) (negb from) ::
    (if simplefs_ext_len e - h - m =? 0 then [] else
    [simplefs_ext_init (iblock + m) (simplefs_ext_len e - h - m) (ee_start e + h + m) from]) ++ post)).
  { intros lo' Hlo'. cbn [chain]. rewrite (ext_init_nonempty iblock) by lia.
    rewrite ext_init_len by lia. cbn [simplefs_ext_init ee_block]. split; [lia|done]. }
  destruct (Z.eqb_spec h 0); cbn [app].
  - apply Hdata. lia.
  - cbn [chain]. rewrite (ext_init_nonempty (ee_block e)) by lia. rewrite ext_init_len by lia.
    split; [done|]. apply Hdata. cbn [simplefs_ext_init ee_block]. lia.
Qed.

(** [simplefs_file_normalize_extents] keeps the mapping: on extents that do
    not wrap, every logical block is mapped to the same physical block with the
    same written state before and after, no entry is empty and no entry is added;
    if the extents did not overlap, the result is sorted and disjoint. *)
Theorem normalize_keeps_mapping buf :
  Forall ext_ok (eb_extents buf) ->
  let buf' := simplefs_file_normalize_extents buf in
  (forall b p u, maps (eb_extents buf') b p u <-> maps (eb_extents buf) b p u) /\
  Forall nonempty (eb_extents buf') /\ nr_extents buf' <= nr_extents buf /\
  eb_leaf_blocks buf' = eb_leaf_blocks buf /\
  (ForallOrdPairs disj (eb_extents buf) -> wf_extents (eb_extents buf')).
Proof.
  intros Hok. cbn. destruct (normalize_spec (eb_extents buf) Hok) as (H1 & H2 & H3 & H4 & H5).
  split_and!; [done|done|unfold nr_extents; cbn; lia|done|]. intros Hd. split_and!; auto.
Qed.

(** normalisation reaches a normal form: from nonempty extents no two
    neighbours can still be merged, and normalising again changes nothing. *)
Theorem normalize_idempotent l :
  Forall ext_ok l -> Forall nonempty l -> ForallOrdPairs disj l ->
  unmergeable (normalize l) /\ normalize (normalize l) = normalize l.
Proof.
  intros Hok Hne Hd. destruct (normalize_spec l Hok) as (H1 & H2 & _ & _ & H5).
  destruct (chain_sorted_inv _ 0 H1 H2 (H5 Hd)) as [Hs _].
  assert (Hu : unmergeable (normalize l)).
  { unfold normalize. destruct (exchange_sort_spec (length l) l eq_refl) as [Hp _].
    set (s := exchange_sort (length l) l) in *.
    assert (Forall ext_ok s) as Hok' by (by rewrite <- Hp).
    assert (Forall nonempty s) as Hne' by (by rewrite <- Hp). destruct s as [|x s]; [done|].
    apply Forall_cons in Hne' as [Hx Hne'].
    destruct (merge_loop_head _ x s Hx eq_refl Hok' Hne') as (e & r & -> & _ & _ & _ & _ & Hu). done. }
  split; [done|]. unfold normalize at 1. rewrite exchange_sort_id by done.
  by apply merge_loop_id.
Qed.

(** [simplefs_file_find_extent] on a well-formed buffer: it finds a block
    exactly when it is mapped, at the index of the extent that covers it, and
    otherwise returns the index that keeps the buffer ordered. *)
Theorem find_extent_correct buf b :
  wf_extents (eb_extents buf) ->
  let '(found, i) := simplefs_file_find_extent buf b in
  0 <= i <= nr_extents buf /\
  (found = true <-> exists p u, maps (eb_extents buf) b p u) /\
  (found = true -> exists e, eb_extents buf !! Z.to_nat i = Some e /\
     ext_maps e b (ee_start e + (b - ee_block e)) (simplefs_ext_unwritten e)) /\
  (found = false ->
     Forall (fun e => ee_block e + simplefs_ext_len e <= b) (take (Z.to_nat i) (eb_extents buf)) /\
     Forall (fun e => b < ee_block e) (drop (Z.to_nat i) (eb_extents buf))).
Proof.
  intros (Hc & Hok & Hne). unfold simplefs_file_find_extent.
  pose proof (find_extent_spec (eb_extents buf) 0 0 b Hok Hne Hc) as H.
  destruct (find_extent_from 0 _ b) as [found i]. rewrite Z.sub_0_r in H.
  destruct H as [Hi H]. unfold nr_extents. split; [lia|]. destruct found.
  - destruct H as (e & He & Hb).
    assert (Hm : ext_maps e b (ee_start e + (b - ee_block e)) (simplefs_ext_unwritten e)).
    { split_and!; try done; try lia. rewrite Forall_lookup in Hne. by eapply Hne. }
    split_and!; [|by exists e|done]. split; [|done]. intros _. do 2 eexists. exists e.
    split; [|exact Hm]. apply list_elem_of_In. by eapply list_elem_of_lookup_2.
  - destruct H as (H1 & H2 & H3). split_and!; [|done|done]. split; [done|].
    intros (p & u & Hm). by destruct (H1 p u).
Qed.

(** converting part of an unwritten extent to written (after the data is on
    disk), or part of a written one to unwritten, changes exactly the state of the
    blocks asked for: every block stays mapped to the same physical block, the
    state flips inside [iblock, iblock + n) and is kept outside, and the buffer
    stays ordered and disjoint; the only failure is out of memory. *)
Theorem split_extent_effect {K : Kernel} from buf pre e post iblock n w :
  eb_extents buf = pre ++ e :: post -> wf_extents (eb_extents buf) ->
  simplefs_ext_unwritten e = from ->
  ee_block e <= iblock < ee_block e + simplefs_ext_len e -> 0 < n ->
  wp (split_extent from buf (Z.of_nat (length pre)) iblock n) (fun rb _ => let '(r, buf') := rb in
    r = - ENOMEM \/
    (r = 0 /\ chain 0 (eb_extents buf') /\
     forall x p u, maps (eb_extents buf') x p u <->
       maps pre x p u \/ maps post x p u \/
       exists u0, ext_maps e x p u0 /\
         u = if (iblock <=? x) && (x <? iblock + n) then negb from else u0)) w.
Proof.
  intros Hl (Hc & Hok & Hne) Hu Hb Hn. rewrite Hl in Hc, Hok, Hne.
  apply Forall_app in Hok as [_ [Hoke _]%Forall_cons].
  apply Forall_app in Hne as [_ [Hnee _]%Forall_cons].
  eapply wp_mono; [by apply (split_extent_spec from buf pre e post)|].
  intros [r buf'] w' (_ & [[-> ->]| ->]); [right|by left].
  replace (split_head from e iblock ++ split_data from e iblock n :: split_tail from e iblock n ++ post)
    with ((split_head from e iblock ++ split_data from e iblock n :: split_tail from e iblock n) ++ post)
    by (by rewrite <- app_assoc).
  split_and!; [done| |].
  - apply (chain_replace e); [|done]. intros lo'. by apply split_chain.
  - intros x p u. rewrite !maps_app, <- (maps_app (split_head _ _ _)), split_maps by done. tauto.
Qed.
