(* ===== verification/ExtentTree.v ===== *)
(** * ExtentTree: the on-disk extent tree (simplefs_extent.c)

    A file's root block holds either its extents inline (depth 0) or indexes of
    leaf blocks (depth 1).  [simplefs_file_load_extents] reads the tree into a
    buffer, [simplefs_file_sync_extents] writes a buffer back in one transaction:
    leaves before the root, old leaves retired last. *)

From stdpp Require Import base list numbers gmap.
From S2P Require Import Prelude Image Layout Kernel DiskFormat Discard Journal MetaBuf.
From S2P Require Import Alloc Retire ExtentBuf.

Local Open Scope Z_scope.
Local Open Scope fs_scope.

(** ** Images *)

Definition sizeof_extent_root : Z := 4088.  (* header, and the larger of the two arrays *)

(** [simplefs_file_init_extent_root] clears the structure, not the last 8 bytes
    of the block. *)
Definition simplefs_file_init_extent_root (img : Z) : Z :=
  put_u16 (put_u32 (put_bytes img 0 sizeof_extent_root 0) 0 SIMPLEFS_EXTENT_ROOT_MAGIC) 6 0.

(** [simplefs_file_init_extent_leaf], on a zeroed block. *)
Definition simplefs_file_init_extent_leaf : Z :=
  put_u16 (put_u32 0 0 SIMPLEFS_EXTENT_LEAF_MAGIC) 6 SIMPLEFS_FILE_EXTENTS_PER_LEAF.

(** The leaf that holds [chunk]. *)
Definition leaf_image (chunk : list extent) : Z :=
  put_extents (put_u16 simplefs_file_init_extent_leaf 4 (Z.of_nat (length chunk))) 8 chunk.

(** The extents of leaf [i]. *)
Definition leaf_chunk (l : list extent) (i : Z) : list extent :=
  take (Z.to_nat SIMPLEFS_FILE_EXTENTS_PER_LEAF)
       (drop (Z.to_nat (i * SIMPLEFS_FILE_EXTENTS_PER_LEAF)) l).

Definition chunk_index (chunk : list extent) (leaf : Z) : extent_index :=
  ExtentIndex (ee_block (ext_at chunk 0)) leaf (Z.of_nat (length chunk))
    (simplefs_ext_end (ext_at chunk (Z.of_nat (length chunk) - 1))).

(** The loop that fills [root->indexes]. *)
Fixpoint put_indexes (img i : Z) (l : list extent) (leaf_blocks : list Z) : Z :=
  match leaf_blocks with
  | [] => img
  | leaf :: rest =>
      put_indexes (put_root_index img i (chunk_index (leaf_chunk l i) leaf)) (i + 1) l rest
  end.

Definition root_image (img : Z) (l : list extent) (leaf_blocks : list Z) : Z :=
  let n := Z.of_nat (length leaf_blocks) in
  let img := simplefs_file_init_extent_root img in
  let img := put_indexes img 0 l leaf_blocks in
  let img := if (n =? 0) && negb (Z.of_nat (length l) =? 0) then put_extents img 8 l else img in
  let img := put_u16 img 6 (if n =? 0 then 0 else 1) in
  put_u16 img 4 (if n =? 0 then Z.of_nat (length l) else n).

(** Does a physical range of the file contain its own root or a leaf? *)
Definition extent_covers (e : extent) (b : Z) : bool :=
  (ee_start e <=? b) && (b <? u32 (ee_start e + simplefs_ext_len e)).
Definition ownership_overlap (l : list extent) (root : Z) (leaf_blocks : list Z) : bool :=
  existsb (fun e => extent_covers e root || existsb (extent_covers e) leaf_blocks) l.

Definition leaf_count (n : Z) : Z :=
  if n <=? SIMPLEFS_FILE_EXTENTS_PER_LEAF then 0
  else DIV_ROUND_UP n SIMPLEFS_FILE_EXTENTS_PER_LEAF.

Section Ops.
Context {K : Kernel}.

(** ** Loading *)

Definition simplefs_file_load_leaf (leaf_block : Z) (buf : extent_buffer)
    : M (Z * extent_buffer) :=
  let! r := simplefs_read_metadata leaf_block in
  if IS_ERR r then ret (r, buf) else
  let! img := read_image leaf_block in
  if negb (eh_magic img =? SIMPLEFS_EXTENT_LEAF_MAGIC) then
    ret (if eh_magic img =? 0 then - EIO else - EINVAL, buf)
  else
  if SIMPLEFS_FILE_EXTENTS_PER_LEAF <? eh_entries img then ret (- EINVAL, buf) else
  let! (r, buf) := simplefs_file_grow_extent_buffer buf (nr_extents buf + eh_entries img) in
  if negb (r =? 0) then ret (r, buf) else
  ret (0, eb_set_extents buf
            (eb_extents buf ++ get_extents img 8 (Z.to_nat (eh_entries img)))).

(** The loop over the indexes of a depth-1 root: [n] entries from [i]. *)
Fixpoint load_leaves (n : nat) (i root_img : Z) (buf : extent_buffer) : M (Z * extent_buffer) :=
  match n with
  | O => ret (0, buf)
  | S n' =>
      let leaf := ix_leaf_block (root_index root_img i) in
      let buf := ExtentBuffer (eb_extents buf) (eb_capacity buf) (eb_leaf_blocks buf ++ [leaf]) in
      let! (r, buf) := simplefs_file_load_leaf leaf buf in
      if negb (r =? 0) then ret (r, simplefs_file_destroy_extents buf)
      else load_leaves n' (i + 1) root_img buf
  end.

Definition simplefs_file_load_extents (root_block : Z) : M (Z * extent_buffer) :=
  let! r := simplefs_read_metadata root_block in
  if IS_ERR r then ret (r, eb_empty) else
  let! img := read_image root_block in
  if negb (eh_magic img =? SIMPLEFS_EXTENT_ROOT_MAGIC) then
    ret (if (eh_magic img =? 0) && (eh_entries img =? 0) then - EIO else - EINVAL, eb_empty)
  else
  let nr_entries := eh_entries img in
  if eh_depth img =? 0 then
    if SIMPLEFS_FILE_EXTENTS_PER_LEAF <? nr_entries then ret (- EFSCORRUPTED, eb_empty) else
    let! (r, buf) := simplefs_file_grow_extent_buffer eb_empty nr_entries in
    if negb (r =? 0) then ret (r, buf) else
    ret (0, eb_set_extents buf (get_extents img 8 (Z.to_nat nr_entries)))
  else
  if negb (eh_depth img =? 1) || (SIMPLEFS_FILE_INDEX_SLOTS <? nr_entries) then
    ret (- EINVAL, eb_empty)
  else
  let! ok := (if negb (nr_entries =? 0) then kmalloc else ret true) in
  if negb ok then ret (- ENOMEM, eb_empty) else
  load_leaves (Z.to_nat nr_entries) 0 img eb_empty.

(** ** Writing back *)

Definition simplefs_writeback_metadata_block (block : Z) : M Z :=
  kdo (FilemapWriteAndWait block 1).

(** [for (i = old_leaf_count; i < new_leaf_count; i++)]: the leaf array and the
    blocks allocated for it. *)
Fixpoint alloc_leaves (n : nat) (leaf_blocks : list Z) : M (Z * list Z) :=
  match n with
  | O => ret (0, leaf_blocks)
  | S n' =>
      let! b := get_free_blocks 1 in
      if b =? 0 then ret (- ENOSPC, leaf_blocks)
      else alloc_leaves n' (leaf_blocks ++ [b])
  end.

(** One iteration of the leaf loop; the flag says whether a block was changed. *)
Definition sync_leaf (l : list extent) (old_leaf_count i leaf : Z) : M (Z * bool) :=
  let chunk := leaf_chunk l i in
  let! same :=
    (if i <? old_leaf_count then
       let! r := simplefs_read_metadata leaf in
       if IS_ERR r then ret (inl r) else
       let! img := read_image leaf in
       ret (inr ((eh_magic img =? SIMPLEFS_EXTENT_LEAF_MAGIC) &&
                 (eh_entries img =? Z.of_nat (length chunk)) &&
                 bool_decide (get_extents img 8 (length chunk) = chunk)))
     else ret (inr false)) in
  match same with
  | inl e => ret (e, false)
  | inr true => ret (0, false)
  | inr false =>
      let! r := simplefs_get_zeroed_folio leaf in
      if IS_ERR r then ret (r, true) else
      run! write_image leaf (leaf_image chunk) in
      let! r := simplefs_journal_dirty_folio leaf (folio_of leaf) in
      ret (r, true)
  end.

Fixpoint sync_leaves (l : list extent) (old_leaf_count i : Z) (leaf_blocks : list Z)
    (changed : bool) : M (Z * bool) :=
  match leaf_blocks with
  | [] => ret (0, changed)
  | leaf :: rest =>
      let! (r, c) := sync_leaf l old_leaf_count i leaf in
      if negb (r =? 0) then ret (r, changed || c)
      else sync_leaves l old_leaf_count (i + 1) rest (changed || c)
  end.

(** From the allocation of the new leaves to the label [out]: the code, the leaf
    array, [metadata_changed] and [root_updated]. *)
Definition sync_body (ei_block : Z) (buf : extent_buffer) (new_leaf_count : Z)
    : M (Z * list Z * bool * bool) :=
  let old_leaf_count := nr_leaf_blocks buf in
  let l := eb_extents buf in
  let kept := take (Z.to_nat (Z.min old_leaf_count new_leaf_count)) (eb_leaf_blocks buf) in
  let! (r, leaf_blocks) := alloc_leaves (Z.to_nat (new_leaf_count - old_leaf_count)) kept in
  if negb (r =? 0) then ret (r, leaf_blocks, false, false) else
  if ownership_overlap l ei_block leaf_blocks then
    ret (- EUCLEAN, leaf_blocks, false, false)
  else
  let! r := simplefs_get_folio ei_block in
  if IS_ERR r then ret (r, leaf_blocks, false, false) else
  let! (r, changed) := sync_leaves l old_leaf_count 0 leaf_blocks false in
  if negb (r =? 0) then ret (r, leaf_blocks, changed, false) else
  let! has := simplefs_journal_has_current_handle in
  let! r := (if negb has then for_list leaf_blocks simplefs_writeback_metadata_block
             else ret 0) in
  if negb (r =? 0) then ret (r, leaf_blocks, changed, false) else
  let! img := read_image ei_block in
  run! write_image ei_block (root_image img l leaf_blocks) in
  let! r := simplefs_journal_dirty_folio ei_block (folio_of ei_block) in
  if negb (r =? 0) then ret (r, leaf_blocks, true, false) else
  let! has := simplefs_journal_has_current_handle in
  let! r := (if negb has then simplefs_writeback_metadata_block ei_block else ret 0) in
  if negb (r =? 0) then ret (r, leaf_blocks, true, true) else
  let! r := for_list (drop (Z.to_nat new_leaf_count) (eb_leaf_blocks buf))
              (fun b => simplefs_retire_metadata_blocks b 1) in
  ret (r, leaf_blocks, true, true).

Definition simplefs_file_sync_extents (ino : Z) (buf : extent_buffer) : M (Z * extent_buffer) :=
  let old_leaf_count := nr_leaf_blocks buf in
  let buf := simplefs_file_normalize_extents buf in
  if SIMPLEFS_MAX_FILE_EXTENTS <? nr_extents buf then ret (- EFBIG, buf) else
  let new_leaf_count := leaf_count (nr_extents buf) in
  let! ok := (if negb (new_leaf_count =? 0) then kmalloc else ret true) in
  if negb ok then ret (- ENOMEM, buf) else
  let! handle := simplefs_journal_start_sb (new_leaf_count + old_leaf_count + 8) in
  if HANDLE_IS_ERR handle then ret (HANDLE_PTR_ERR handle, buf) else
  let! inode := get_inode ino in
  let! (r, leaf_blocks, metadata_changed, root_updated) :=
    sync_body (ei_block inode) buf new_leaf_count in
  let! buf :=
    (if r =? 0 then
       run! upd_inode ino (fun i => set_i_blocks
              (if old_leaf_count <=? new_leaf_count
               then u64 (i_blocks i + simplefs_blocks_to_sectors (new_leaf_count - old_leaf_count))
               else u64 (i_blocks i - simplefs_blocks_to_sectors (old_leaf_count - new_leaf_count))) i) in
       run! kdo (MarkInodeDirty ino) in
       ret (ExtentBuffer (eb_extents buf) (eb_capacity buf) leaf_blocks)
     else ret buf) in
  run! when (negb (r =? 0) && metadata_changed) (simplefs_journal_fail r) in
  run! when (negb (r =? 0) && negb metadata_changed && negb root_updated)
    (each_list (drop (Z.to_nat old_leaf_count) leaf_blocks)
       (fun b => run! simplefs_retire_metadata_blocks b 1 in ret tt)) in
  let! stop_ret := simplefs_journal_stop handle in
  ret (if r =? 0 then stop_ret else r, buf).

(** The first error of the retire calls, the walk going on past it. *)
Fixpoint retire_all (l : list Z) (first_error : Z) : M Z :=
  match l with
  | [] => ret first_error
  | b :: rest =>
      let! r := simplefs_retire_metadata_blocks b 1 in
      retire_all rest (if negb (r =? 0) && (first_error =? 0) then r else first_error)
  end.

Definition simplefs_file_free_extent_tree (root_block : Z) : M Z :=
  let! (r, buf) := simplefs_file_load_extents root_block in
  if negb (r =? 0) then ret r else
  retire_all (eb_leaf_blocks buf ++ [root_block]) 0.

End Ops.

(** ** What a block holds *)

Definition leaf_holds (img : Z) (chunk : list extent) : Prop :=
  eh_magic img = SIMPLEFS_EXTENT_LEAF_MAGIC /\ eh_entries img = Z.of_nat (length chunk) /\
  get_extents img 8 (length chunk) = chunk.

Definition root_holds (img : Z) (l : list extent) (leaves : list Z) : Prop :=
  eh_magic img = SIMPLEFS_EXTENT_ROOT_MAGIC /\
  match leaves with
  | [] => eh_depth img = 0 /\ eh_entries img = Z.of_nat (length l) /\ get_extents img 8 (length l) = l
  | _ => eh_depth img = 1 /\ eh_entries img = Z.of_nat (length leaves) /\
         forall i leaf, leaves !! i = Some leaf -> ix_leaf_block (root_index img (Z.of_nat i)) = leaf
  end.

Ltac hdr_fields :=
  unfold eh_magic, eh_entries, eh_depth, get_u16, get_u32, put_u16, put_u32, put_bytes;
  repeat first [rewrite slice_splice_same by lia | rewrite slice_splice_disjoint by lia
               | rewrite put_extents_slice by lia].

Lemma leaf_image_holds chunk :
  Forall ext_u32 chunk -> Z.of_nat (length chunk) <= SIMPLEFS_FILE_EXTENTS_PER_LEAF ->
  leaf_holds (leaf_image chunk) chunk.
Proof.
  change SIMPLEFS_FILE_EXTENTS_PER_LEAF with 340. intros Hu Hl.
  unfold leaf_holds, leaf_image, simplefs_file_init_extent_leaf. split_and!.
  - hdr_fields. done.
  - hdr_fields. apply slice_small; lia.
  - apply get_put_extents; [lia|done].
Qed.

(** The index array leaves the rest of the root alone and reads back. *)
Lemma put_indexes_slice l leaves : forall img i p m, 0 <= i -> 0 <= p -> 0 <= m ->
  p + m <= 8 * (8 + 16 * i) \/ 8 * (8 + 16 * (i + Z.of_nat (length leaves))) <= p ->
  slice (put_indexes img i l leaves) p m = slice img p m.
Proof.
  induction leaves as [|leaf leaves IH]; intros img i p m Hi Hp Hm H; cbn [put_indexes]; [done|].
  cbn [length] in H. rewrite IH by lia. unfold put_root_index, sizeof_extent_root_header, sizeof_extent_index.
  apply put_words_slice; cbn [length index_words]; lia.
Qed.

Lemma put_indexes_leaf l leaves : forall img i k leaf, 0 <= i -> Forall is_u32 leaves ->
  leaves !! k = Some leaf ->
  ix_leaf_block (root_index (put_indexes img i l leaves) (i + Z.of_nat k)) = leaf.
Proof.
  induction leaves as [|leaf leaves IH]; intros img i k x Hi Hu Hk; [done|].
  apply Forall_cons in Hu as [Hx Hu]. cbn [put_indexes]. destruct k as [|k]; cbn in Hk.
  - simplify_eq. rewrite Z.add_0_r. unfold root_index, sizeof_extent_root_header, sizeof_extent_index.
    cbn [ix_leaf_block]. unfold get_u32. rewrite put_indexes_slice by lia.
    unfold put_root_index, sizeof_extent_root_header, sizeof_extent_index, index_words.
    cbn [put_words chunk_index ix_block ix_leaf_block ix_nr_extents ix_last_block].
    hdr_fields. apply slice_small; [lia|].
    unfold is_u32, U32_MAX in Hx. lia.
  - replace (i + Z.of_nat (S k)) with (i + 1 + Z.of_nat k) by lia. apply IH; [lia|done..].
Qed.

Lemma root_image_holds img l leaves :
  Forall ext_u32 l -> Forall is_u32 leaves ->
  Z.of_nat (length leaves) <= SIMPLEFS_FILE_INDEX_SLOTS ->
  (leaves = [] -> Z.of_nat (length l) <= SIMPLEFS_FILE_EXTENTS_PER_LEAF) ->
  root_holds (root_image img l leaves) l leaves.
Proof.
  change SIMPLEFS_FILE_EXTENTS_PER_LEAF with 340. change SIMPLEFS_FILE_INDEX_SLOTS with 255.
  intros Hu Hlu Hn Hl. unfold root_holds, root_image, simplefs_file_init_extent_root, sizeof_extent_root.
  destruct leaves as [|leaf leaves].
  - specialize (Hl eq_refl). cbn [length put_indexes]. change (Z.of_nat 0 =? 0) with true. cbn [andb].
    destruct (Z.eqb_spec (Z.of_nat (length l)) 0) as [E|E]; cbn [negb].
    + assert (l = []) as -> by (by destruct l). cbn [length]. split_and!; [by hdr_fields..|done].
    + split_and!; [by hdr_fields|by hdr_fields|hdr_fields; apply slice_small; lia|].
      etransitivity; [|apply (get_put_extents l (put_u16 (put_u32 (put_bytes img 0 4088 0) 0
        SIMPLEFS_EXTENT_ROOT_MAGIC) 6 0) 8); [lia|done]].
      apply get_extents_slice; [lia|]. intros p Hp _. by hdr_fields.
  - set (n := Z.of_nat (length (leaf :: leaves))) in *.
    assert (Hn0 : 0 < n) by (unfold n; cbn; lia).
    rewrite (proj2 (Z.eqb_neq n 0)) by lia. cbn [andb].
    split_and!.
    + hdr_fields. rewrite put_indexes_slice by lia. by hdr_fields.
    + by hdr_fields.
    + hdr_fields. apply slice_small; lia.
    + intros i x Hx. erewrite <- (put_indexes_leaf l (leaf :: leaves) _ 0 i x); [|lia|done|done].
      rewrite Z.add_0_l. unfold root_index. cbn [ix_leaf_block].
      unfold sizeof_extent_root_header, sizeof_extent_index, get_u32, put_u16.
      by rewrite !slice_splice_disjoint by lia.
Qed.

Section Load.
Context {K : Kernel}.

(** The tree at [root] holds the extents [l] in the leaf blocks [leaves]. *)
Definition tree_holds (w : world) (root : Z) (l : list extent) (leaves : list Z) : Prop :=
  root_holds (block_image w root) l leaves /\
  Z.of_nat (length leaves) = leaf_count (Z.of_nat (length l)) /\
  forall i leaf, leaves !! i = Some leaf ->
    leaf_holds (block_image w leaf) (leaf_chunk l (Z.of_nat i)).

(** Why a load of a good tree may fail: no memory, or the device. *)
Definition load_failed (r : Z) (w : world) : Prop :=
  r = - ENOMEM \/ (r < 0 /\ exists n, In (ReadMappingFolio n, r) (w_trace w)).

Lemma read_metadata_spec n w :
  wp (simplefs_read_metadata n) (fun r w' => w_bdev w' = w_bdev w /\
    if IS_ERR r then load_failed r w' else r = 0) w.
Proof.
  unfold simplefs_read_metadata. kwp. split; [done|].
  destruct (IS_ERR r) eqn:E; [|done]. rewrite E. apply Z.ltb_lt in E.
  right. split; [done|]. exists n. by left.
Qed.

Lemma grow_frame_bdev buf n : frame w_bdev (simplefs_file_grow_extent_buffer buf n).
Proof. unfold simplefs_file_grow_extent_buffer. frames. Qed.

Lemma chunk_length l i : Z.of_nat (length (leaf_chunk l i)) <= SIMPLEFS_FILE_EXTENTS_PER_LEAF.
Proof.
  unfold leaf_chunk. rewrite length_take. change SIMPLEFS_FILE_EXTENTS_PER_LEAF with 340. lia.
Qed.

Lemma load_leaf_spec leaf chunk buf w :
  leaf_holds (block_image w leaf) chunk ->
  Z.of_nat (length chunk) <= SIMPLEFS_FILE_EXTENTS_PER_LEAF ->
  wp (simplefs_file_load_leaf leaf buf) (fun rb w' => let '(r, buf') := rb in
    w_bdev w' = w_bdev w /\
    if r =? 0 then eb_extents buf' = eb_extents buf ++ chunk /\
                   eb_leaf_blocks buf' = eb_leaf_blocks buf
    else load_failed r w') w.
Proof.
  intros (Hm & He & Hx) Hl. unfold simplefs_file_load_leaf. apply wp_bind.
  eapply wp_mono; [apply read_metadata_spec|]. intros r w1 [Hb Hr]; cbn beta in *.
  destruct (IS_ERR r) eqn:E; kwp.
  { split; [done|]. apply Z.ltb_lt in E. by rewrite (proj2 (Z.eqb_neq r 0)) by lia. }
  unfold block_image in *. rewrite Hb, Hm, Z.eqb_refl. cbn [negb].
  rewrite He, (proj2 (Z.ltb_ge _ _)) by done. kwp.
  eapply wp_mono; [apply wp_conj; [apply grow_spec|apply (frame_wp w_bdev), grow_frame_bdev]|].
  intros [g buf'] w2 [(X1 & X2 & [[-> _]|[-> ->]]) Hb2]; cbn beta in *;
    errno; kwp; errno.
  - split; [congruence|]. cbn [eb_extents eb_leaf_blocks eb_set_extents].
    by rewrite X1, X2, Nat2Z.id, Hx.
  - split; [congruence|]. by left.
Qed.

Lemma leaf_chunk_drop l i :
  0 <= i -> drop (Z.to_nat (i * SIMPLEFS_FILE_EXTENTS_PER_LEAF)) l =
  leaf_chunk l i ++ drop (Z.to_nat ((i + 1) * SIMPLEFS_FILE_EXTENTS_PER_LEAF)) l.
Proof.
  intros Hi. unfold leaf_chunk. change SIMPLEFS_FILE_EXTENTS_PER_LEAF with 340.
  rewrite <- (take_drop (Z.to_nat 340) (drop (Z.to_nat (i * 340)) l)) at 1.
  rewrite drop_drop. do 2 f_equal. lia.
Qed.

Lemma load_leaves_spec l img leaves : forall i buf w,
  0 <= i ->
  (forall k leaf, leaves !! k = Some leaf ->
     ix_leaf_block (root_index img (i + Z.of_nat k)) = leaf /\
     leaf_holds (block_image w leaf) (leaf_chunk l (i + Z.of_nat k))) ->
  wp (load_leaves (length leaves) i img buf) (fun rb w' => let '(r, buf') := rb in
    if r =? 0 then
      eb_extents buf' ++ drop (Z.to_nat ((i + Z.of_nat (length leaves)) * SIMPLEFS_FILE_EXTENTS_PER_LEAF)) l =
      eb_extents buf ++ drop (Z.to_nat (i * SIMPLEFS_FILE_EXTENTS_PER_LEAF)) l /\
      eb_leaf_blocks buf' = eb_leaf_blocks buf ++ leaves
    else load_failed r w') w.
Proof.
  induction leaves as [|leaf leaves IH]; intros i buf w Hi H; cbn [load_leaves length].
  { kwp. cbn. rewrite Z.add_0_r, app_nil_r. done. }
  destruct (H 0%nat leaf eq_refl) as [Hix Hleaf]. cbn [Z.of_nat] in *. rewrite Z.add_0_r in Hix, Hleaf.
  rewrite Hix. apply wp_bind. eapply wp_mono; [apply load_leaf_spec; [exact Hleaf|apply chunk_length]|].
  intros [r buf'] w1 [Hb Hr]; cbn beta in *.
  destruct (Z.eqb_spec r 0) as [->|Hne]; cbn [negb]; kwp.
  2:{ by rewrite (proj2 (Z.eqb_neq r 0) Hne). }
  destruct Hr as [X1 X2]. cbn [eb_extents eb_leaf_blocks] in *.
  eapply wp_mono; [apply IH; [lia|]|].
  - intros k x Hk. unfold block_image. rewrite Hb.
    specialize (H (S k) x Hk). replace (i + 1 + Z.of_nat k) with (i + Z.of_nat (S k)) by lia. done.
  - intros [r2 buf2] w2 Hr2; cbn beta in *. destruct (r2 =? 0); [|done]. destruct Hr2 as [Y1 Y2].
    rewrite X1 in Y1. rewrite X2, <- app_assoc in Y2. split; [|done].
    rewrite (leaf_chunk_drop l i Hi), app_assoc, <- Y1. do 3 f_equal. lia.
Qed.

Lemma leaf_count_cover n : 0 <= n -> leaf_count n <> 0 ->
  n <= leaf_count n * SIMPLEFS_FILE_EXTENTS_PER_LEAF.
Proof.
  unfold leaf_count, DIV_ROUND_UP. change SIMPLEFS_FILE_EXTENTS_PER_LEAF with 340.
  intros Hn H. destruct (Z.leb_spec n 340); [done|]. Z.to_euclidean_division_equations. lia.
Qed.

Lemma load_extents_spec w root l leaves :
  tree_holds w root l leaves -> Z.of_nat (length l) <= SIMPLEFS_MAX_FILE_EXTENTS ->
  wp (simplefs_file_load_extents root) (fun rb w' => let '(r, buf) := rb in
    if r =? 0 then eb_extents buf = l /\ eb_leaf_blocks buf = leaves
    else load_failed r w') w.
Proof.
  intros ((Hm & Hroot) & Hn & Hleaf) Hl. unfold simplefs_file_load_extents. apply wp_bind.
  eapply wp_mono; [apply read_metadata_spec|]. intros r w1 [Hb Hr]; cbn beta in *.
  destruct (IS_ERR r) eqn:E; kwp.
  { apply Z.ltb_lt in E. by rewrite (proj2 (Z.eqb_neq r 0)) by lia. }
  unfold block_image in *. rewrite Hb, Hm, Z.eqb_refl. cbn [negb].
  destruct leaves as [|leaf leaves].
  - destruct Hroot as (Hd & He & Hx). rewrite Hd, He. cbn [Z.eqb].
    assert (Hlen : Z.of_nat (length l) <= SIMPLEFS_FILE_EXTENTS_PER_LEAF).
    { destruct (Z_le_gt_dec (Z.of_nat (length l)) SIMPLEFS_FILE_EXTENTS_PER_LEAF); [done|].
      unfold leaf_count, DIV_ROUND_UP in Hn. change SIMPLEFS_FILE_EXTENTS_PER_LEAF with 340 in *.
      rewrite (proj2 (Z.leb_gt _ _)) in Hn by lia. cbn [length] in Hn.
      Z.to_euclidean_division_equations. lia. }
    rewrite (proj2 (Z.ltb_ge _ _)) by done. kwp.
    eapply wp_mono; [apply grow_spec|].
    intros [g buf'] w2 (X1 & X2 & [[-> _]|[-> ->]]);
      errno; kwp; errno.
    + cbn. by rewrite Nat2Z.id, Hx, X2.
    + cbn. by left.
  - destruct Hroot as (Hd & He & Hix). rewrite Hd, He.
    change (1 =? 0) with false. change (1 =? 1) with true.
    set (n := Z.of_nat (length (leaf :: leaves))) in *.
    assert (Hn0 : 0 < n) by (unfold n; cbn; lia).
    assert (Hn2 : n <= SIMPLEFS_FILE_INDEX_SLOTS).
    { rewrite Hn. unfold leaf_count, DIV_ROUND_UP. unfold SIMPLEFS_MAX_FILE_EXTENTS in Hl.
      change SIMPLEFS_FILE_EXTENTS_PER_LEAF with 340 in *. change SIMPLEFS_FILE_INDEX_SLOTS with 255 in *.
      destruct (_ <=? 340); [lia|]. Z.to_euclidean_division_equations. lia. }
    rewrite (proj2 (Z.ltb_ge SIMPLEFS_FILE_INDEX_SLOTS n) Hn2), (proj2 (Z.eqb_neq n 0)) by lia.
    cbn [negb orb]. kwp.
    assert (Hgo : forall w2, w_bdev w2 = w_bdev w1 ->
      wp (load_leaves (Z.to_nat n) 0 (default 0 (w_bdev w !! root)) eb_empty)
       (fun rb w' => let '(r, buf) := rb in
          if r =? 0 then eb_extents buf = l /\ eb_leaf_blocks buf = leaf :: leaves
          else load_failed r w') w2).
    { intros w2 Hb2. unfold n. rewrite Nat2Z.id.
      eapply wp_mono; [apply (load_leaves_spec l _ (leaf :: leaves) 0 eb_empty w2); [lia|]|].
      - intros j x Hj. rewrite Z.add_0_l. split; [by apply Hix|].
        unfold block_image. rewrite Hb2, Hb. by apply Hleaf.
      - intros [r2 buf] w3 H3; cbn beta in *. destruct (r2 =? 0); [|done]. destruct H3 as [Y1 Y2].
        split; [|done]. rewrite Z.add_0_l in Y1. fold n in Y1.
        rewrite (drop_ge l (Z.to_nat (n * _))) in Y1.
        + cbn in Y1. by rewrite app_nil_r in Y1.
        + pose proof (leaf_count_cover (Z.of_nat (length l))). rewrite <- Hn in *. lia. }
    destruct (r0 =? 0); cbn [negb]; kwp; [by apply Hgo|]. cbn. by left.
Qed.

End Load.

(** ** Writing the tree *)

Lemma ext_set_len_u32 e n : ext_u32 e -> ext_u32 (simplefs_ext_set_len e n).
Proof.
  intros (H1 & H2 & H3). split_and!; [done| |done]. cbn [simplefs_ext_set_len ee_len].
  unfold is_u32, U32_MAX in *.
  assert (Hm : forall x, 0 <= Z.land x SIMPLEFS_EXTENT_LEN_MASK < 2 ^ 32).
  { intros x. rewrite len_mask_ones, Z.land_ones by lia.
    pose proof (Z.mod_pos_bound x (2 ^ 31)). lia. }
  assert (Hu : 0 <= Z.land (ee_len e) SIMPLEFS_EXTENT_UNWRITTEN < 2 ^ 32).
  { split; [apply Z.land_nonneg; lia|]. apply Z.le_lt_trans with (ee_len e); [|lia].
    apply Z.ldiff_le; [lia|]. apply Z.bits_inj'. intros i Hi.
    rewrite Z.ldiff_spec, Z.land_spec, Z.testbit_0_l.
    by destruct (Z.testbit (ee_len e) i), (Z.testbit SIMPLEFS_EXTENT_UNWRITTEN i). }
  pose proof (lor_lt_pow2 32 _ _ ltac:(lia) Hu (Hm n)). lia.
Qed.

Lemma normalize_u32 l : Forall ext_u32 l -> Forall ext_u32 (normalize l).
Proof.
  intros H. unfold normalize. destruct (exchange_sort_spec (length l) l eq_refl) as [Hp _].
  set (s := exchange_sort (length l) l) in *.
  assert (Hs : Forall ext_u32 s) by (by rewrite <- Hp). clearbody s. clear H Hp l.
  remember (length s) as n eqn:En. revert s En Hs.
  induction n as [|n IH]; intros s En Hs; [by destruct s|].
  destruct s as [|cur s]; [done|]. injection En as En. cbn [merge_loop].
  apply Forall_cons in Hs as [Hc Hs].
  destruct (simplefs_extent_is_empty cur); [by apply IH|].
  destruct s as [|next s]; [constructor; [done|by apply IH]|].
  destruct (mergeable cur next); [|constructor; [done|by apply IH]].
  apply Forall_cons in Hs as [Hn Hs].
  apply IH; [done|]. constructor; [by apply ext_set_len_u32|done].
Qed.

Lemma chunk_u32 l i : Forall ext_u32 l -> Forall ext_u32 (leaf_chunk l i).
Proof. intros H. unfold leaf_chunk. by apply Forall_take, Forall_drop. Qed.

Section Sync.
Context {K : Kernel}.

(** The images outside [ns] are the same in both worlds, and the layout too. *)
Definition same_images (ns : list Z) (w w' : world) : Prop :=
  layout_of (w_sbi w') = layout_of (w_sbi w) /\
  forall n, root_dir_block (w_sbi w) <= n -> ~ In n ns -> block_image w' n = block_image w n.

Lemma same_images_refl ns w : same_images ns w w.
Proof. by split. Qed.

Lemma root_dir_layout s s' : layout_of s = layout_of s' -> root_dir_block s = root_dir_block s'.
Proof. unfold layout_of, root_dir_block. by intros [= _ _ -> -> ->]. Qed.

Lemma same_images_trans ns w1 w2 w3 :
  same_images ns w1 w2 -> same_images ns w2 w3 -> same_images ns w1 w3.
Proof.
  intros [L1 I1] [L2 I2]. split; [congruence|]. intros n Hn Hin.
  rewrite I2; [by apply I1| |done]. by rewrite (root_dir_layout _ _ L1).
Qed.

Lemma same_images_sub ns ns' w w' : (forall n, In n ns -> In n ns') ->
  same_images ns w w' -> same_images ns' w w'.
Proof. intros H [L I]. split; [done|]. intros n Hn Hin. apply I; [done|]. intros ?. by apply Hin, H. Qed.

(** A computation that preserves every image but those of [ns]. *)
Lemma same_images_wp {A} ns (m : M A) w :
  (forall n, root_dir_block (w_sbi w) <= n -> ~ In n ns ->
     preserves (data_image (w_sbi w) n (block_image w n)) m) ->
  layout_of (w_sbi (snd (m w))) = layout_of (w_sbi w) ->
  wp m (fun _ w' => same_images ns w w') w.
Proof. intros H Hf. split; [done|]. intros n Hn Hin. by apply (H n Hn Hin w). Qed.

Lemma kstable_same_images {A} (m : M A) w :
  (forall I, KStable I -> preserves I m) -> wp m (fun _ w' => same_images [] w w') w.
Proof.
  intros H. apply same_images_wp.
  - intros n Hn _. apply H, _.
  - apply (H (fun w' => layout_of (w_sbi w') = layout_of (w_sbi w))); [|done].
    split.
    + intros c _ w2 H2. unfold kdo. by destruct (kstep _ c).
    + intros h n w2 _ H2. unfold kdo. by destruct (kstep _ _).
    + intros f w2 H2. exact H2.
    + intros w2 H2. exact H2.
Qed.

Lemma get_zeroed_folio_images n w :
  wp (simplefs_get_zeroed_folio n) (fun _ w' => same_images [n] w w') w.
Proof.
  apply same_images_wp.
  - intros k Hk Hin. assert (k <> n) by (intros ->; apply Hin; by left).
    unfold simplefs_get_zeroed_folio, simplefs_journal_zero_current.
    repeat (pres_step || by apply data_image_write).
  - set (L := layout_of (w_sbi w)).
    assert (JStable (fun w => layout_of (w_sbi w) = L)).
    { by apply (view_jstable (fun w => layout_of (w_sbi w)) (fun x => x = L)). }
    by apply (get_zeroed_folio_pres (fun w => layout_of (w_sbi w) = L) n w).
Qed.

Lemma sync_leaf_spec l old i leaf w : Forall ext_u32 l ->
  wp (sync_leaf l old i leaf) (fun rc w' => let '(r, c) := rc in
    same_images [leaf] w w' /\ (c = false -> same_images [] w w') /\
    (r = 0 -> leaf_holds (block_image w' leaf) (leaf_chunk l i))) w.
Proof.
  intros Hu. unfold sync_leaf.
  assert (Hsub : forall a b, same_images [] a b -> same_images [leaf] a b)
    by (intros a b; apply same_images_sub; intros ? []).
  (* the rewrite of the leaf *)
  assert (Hwrite : forall w1, same_images [] w w1 ->
    wp (let! r := simplefs_get_zeroed_folio leaf in
        if IS_ERR r then ret (r, true) else
        run! write_image leaf (leaf_image (leaf_chunk l i)) in
        let! r := simplefs_journal_dirty_folio leaf (folio_of leaf) in ret (r, true))
      (fun rc w' => let '(r, c) := rc in
        same_images [leaf] w w' /\ (c = false -> same_images [] w w') /\
        (r = 0 -> leaf_holds (block_image w' leaf) (leaf_chunk l i))) w1).
  { intros w1 H1. apply wp_bind. eapply wp_mono; [apply get_zeroed_folio_images|].
    intros r w2 H2; cbn beta in *. pose proof (same_images_trans _ _ _ _ (Hsub _ _ H1) H2) as H12.
    destruct (IS_ERR r) eqn:Er; kwp.
    { apply Z.ltb_lt in Er. split_and!; [done|done|lia]. }
    set (w3 := set_w_bdev _ w2).
    assert (Hw3 : block_image w3 leaf = leaf_image (leaf_chunk l i)).
    { unfold w3, block_image; cbn. by rewrite lookup_insert_eq. }
    assert (H23 : same_images [leaf] w2 w3).
    { split; [done|]. intros n _ Hin. unfold w3, block_image; cbn.
      rewrite lookup_insert_ne; [done|]. intros ->. apply Hin. by left. }
    eapply wp_mono.
    { apply wp_conj; [apply kstable_same_images; intros; pres|].
      apply (wp_pres (data_image (w_sbi w3) leaf (block_image w3 leaf))); [apply dirty_folio_pres, _|done]. }
    intros d w4 [H34 [_ Him]]; cbn beta in *. kwp. split_and!.
    - eapply same_images_trans; [exact H12|]. eapply same_images_trans; [exact H23|]. by apply Hsub.
    - done.
    - intros _. rewrite Him, Hw3. apply leaf_image_holds; [by apply chunk_u32|apply chunk_length]. }
  apply wp_bind. destruct (i <? old); [|by apply wp_ret, Hwrite, same_images_refl].
  kwp.
  eapply wp_mono; [apply kstable_same_images; intros; pres|]. intros r w1 H1; cbn beta in *.
  destruct (IS_ERR r) eqn:Er; kwp.
  { apply Z.ltb_lt in Er. split_and!; [by apply Hsub|done|lia]. }
  set (img := block_image w1 leaf).
  destruct ((eh_magic img =? _) && _ && _) eqn:Hsame; [|by apply Hwrite].
  kwp. split_and!; [by apply Hsub|done|]. intros _. apply andb_true_iff in Hsame as [Hs Hx].
  bool_hyps. apply bool_decide_eq_true in Hx. by split_and!.
Qed.

Lemma sync_leaves_spec l old leaves : forall i c w, Forall ext_u32 l -> NoDup leaves ->
  Forall (fun n => root_dir_block (w_sbi w) <= n) leaves ->
  wp (sync_leaves l old i leaves c) (fun rc w' => let '(r, c') := rc in
    same_images leaves w w' /\ (c' = false -> c = false /\ same_images [] w w') /\
    (r = 0 -> forall k leaf, leaves !! k = Some leaf ->
       leaf_holds (block_image w' leaf) (leaf_chunk l (i + Z.of_nat k)))) w.
Proof.
  induction leaves as [|leaf leaves IH]; intros i c w Hu Hnd Hge; cbn [sync_leaves].
  { kwp. split_and!; [apply same_images_refl|by split|by intros _ []]. }
  apply NoDup_cons in Hnd as [Hnotin Hnd]. apply Forall_cons in Hge as [Hg Hge].
  apply wp_bind. eapply wp_mono; [by apply sync_leaf_spec|].
  intros [r c1] w1 (S1 & C1 & L1); cbn beta in *.
  assert (Hsub : forall a b, same_images [leaf] a b -> same_images (leaf :: leaves) a b)
    by (intros a b; apply same_images_sub; intros ? [->|[]]; by left).
  destruct (Z.eqb_spec r 0) as [->|Hr]; cbn [negb].
  2:{ kwp. split_and!; [by apply Hsub| |done]. intros [-> ->]%orb_false_iff. auto. }
  eapply wp_mono; [apply IH; [done|done|]|].
  { destruct S1 as [Lay _]. by rewrite (root_dir_layout _ _ Lay). }
  intros [r2 c2] w2 (S2 & C2 & L2); cbn beta in *. split_and!.
  - eapply same_images_trans; [by apply Hsub|]. eapply same_images_sub; [|exact S2]. intros; by right.
  - intros Hc. destruct (C2 Hc) as [[-> ->]%orb_false_iff S2']. split; [done|].
    eapply same_images_trans; [by apply C1|done].
  - intros -> k x Hk. destruct k as [|k]; cbn in Hk.
    + simplify_eq. rewrite Z.add_0_r. destruct S1 as [Lay _].
      destruct S2 as [_ Him]. rewrite Him; [by apply L1| |].
      * by rewrite (root_dir_layout _ _ Lay).
      * by rewrite <- list_elem_of_In.
    + replace (i + Z.of_nat (S k)) with (i + 1 + Z.of_nat k) by lia. by apply L2.
Qed.

(** A block of the data area that is in use. *)
Definition used (s : sb_info) (b : Z) : Prop :=
  is_u32 b /\ root_dir_block s <= b /\ test_bit (bfree_bitmap s) b = false.

(** What a write-back relies on: a sound allocator whose metadata area is in use,
    and a root and leaves that are distinct blocks in use. *)
Definition sync_ok (s : sb_info) (owned : list Z) : Prop :=
  alloc_inv s /\ layout_ok s /\ all_clear (bfree_bitmap s) 0 (root_dir_block s) /\
  Forall (used s) owned /\ NoDup owned.

Lemma alloc_leaves_spec n : forall kept w,
  alloc_inv (w_sbi w) -> layout_ok (w_sbi w) ->
  all_clear (bfree_bitmap (w_sbi w)) 0 (root_dir_block (w_sbi w)) ->
  NoDup kept -> Forall (used (w_sbi w)) kept ->
  wp (alloc_leaves n kept) (fun rl w' => let '(r, leaves) := rl in
    same_images [] w w' /\ NoDup leaves /\ Forall (used (w_sbi w')) leaves /\
    (exists new, leaves = kept ++ new /\
       Forall (fun b => test_bit (bfree_bitmap (w_sbi w)) b = true) new) /\
    (r = 0 -> length leaves = (length kept + n)%nat)) w.
Proof.
  induction n as [|n IH]; intros kept w Hinv Hlay Hmeta Hnd Hu; cbn [alloc_leaves].
  { kwp. split_and!; [apply same_images_refl|done|done|exists []; by rewrite app_nil_r|lia]. }
  pose proof Hinv as (Hg & _ & _ & _ & Hlock). pose proof Hg as (Hnb & _).
  apply wp_bind. eapply wp_mono.
  { apply wp_conj; [apply get_free_blocks_spec; [unfold U32_MAX; lia|done|done]|].
    apply wp_conj; [apply (wp_pres (fun w => alloc_inv (w_sbi w))); [apply get_free_blocks_inv; unfold U32_MAX; lia|done]|].
    apply same_images_wp.
    - intros k Hk _. apply get_free_blocks_data; try done; unfold U32_MAX; lia.
    - apply (get_free_blocks_data (w_sbi w) (root_dir_block (w_sbi w))
        (block_image w (root_dir_block (w_sbi w)))); try done; unfold U32_MAX; lia. }
  intros b w1 (Hb & Hinv1 & Him); cbn beta in *.
  assert (Hmono : forall k, 0 <= k -> test_bit (bfree_bitmap (w_sbi w)) k = false ->
    test_bit (bfree_bitmap (w_sbi w1)) k = false).
  { intros k Hk Hf. destruct Hb as [[_ Ha]|(b' & (F1 & F2 & F3 & F4) & Ha & _)];
      apply astate_inv in Ha as (_ & _ & -> & _); [done|].
    cbn. by rewrite bitmap_clear_testbit, Hf by lia. }
  pose proof (proj1 Him) as Hl1. pose proof (root_dir_layout _ _ Hl1) as Hrd.
  assert (Hroot : 0 <= root_dir_block (w_sbi w)) by apply u32_range.
  assert (Hu1 : Forall (used (w_sbi w1)) kept).
  { eapply Forall_impl; [exact Hu|]. intros x (X1 & X2 & X3). split_and!; [done|by rewrite Hrd|].
    apply Hmono; [lia|done]. }
  destruct (Z.eqb_spec b 0) as [->|Hne]; kwp.
  { split_and!; try done. exists []. by rewrite app_nil_r. }
  destruct Hb as [[? _]|(b' & (F1 & F2 & F3 & F4) & Ha & [->|[? _]])]; [done| |done].
  assert (Hfree : test_bit (bfree_bitmap (w_sbi w)) b' = true) by (apply F4; lia).
  assert (Hub : used (w_sbi w1) b').
  { split_and!.
    - unfold is_u32. lia.
    - rewrite Hrd. destruct (Z_le_gt_dec (root_dir_block (w_sbi w)) b'); [done|].
      rewrite Hmeta in Hfree by lia. done.
    - apply astate_inv in Ha as (_ & _ & -> & _). cbn. rewrite bitmap_clear_testbit by lia.
      bit_cases; try lia; apply andb_false_r. }
  eapply wp_mono; [apply IH; try done|].
  - by apply (layout_ok_eq (w_sbi w)).
  - intros k Hk. rewrite Hrd in Hk. apply Hmono; [lia|]. apply Hmeta. lia.
  - apply NoDup_app. split_and!; [done| |apply NoDup_singleton].
    intros x Hx ->%list_elem_of_singleton. rewrite Forall_forall in Hu.
    destruct (Hu b' Hx) as (_ & _ & H3). congruence.
  - apply Forall_app. split; [done|]. by constructor.
  - intros [r leaves] w2 (S2 & N2 & U2 & (new & -> & Hn2) & Hlen); cbn beta in *. split_and!.
    + eapply same_images_trans; [exact Him|done].
    + done.
    + done.
    + exists (b' :: new). rewrite <- app_assoc. split; [done|]. constructor; [done|].
      eapply Forall_impl; [exact Hn2|]. intros x Hx. cbn in Hx.
      destruct (test_bit (bfree_bitmap (w_sbi w)) x) eqn:E; [done|].
      destruct (Z_le_gt_dec 0 x); [by rewrite Hmono in Hx|].
      destruct x; try lia. done.
    + intros Hr. rewrite (Hlen Hr), length_app. cbn. lia.
Qed.

Lemma leaf_count_slots n : 0 <= n <= SIMPLEFS_MAX_FILE_EXTENTS ->
  0 <= leaf_count n <= SIMPLEFS_FILE_INDEX_SLOTS /\
  (leaf_count n = 0 <-> n <= SIMPLEFS_FILE_EXTENTS_PER_LEAF).
Proof.
  unfold leaf_count, DIV_ROUND_UP, SIMPLEFS_MAX_FILE_EXTENTS.
  change SIMPLEFS_FILE_EXTENTS_PER_LEAF with 340. change SIMPLEFS_FILE_INDEX_SLOTS with 255.
  intros Hn. destruct (Z.leb_spec n 340); [lia|]. Z.to_euclidean_division_equations. lia.
Qed.

(** The tree survives a computation that keeps the images. *)
Lemma tree_holds_same w w' root l leaves :
  same_images [] w w' -> Forall (fun n => root_dir_block (w_sbi w) <= n) (root :: leaves) ->
  tree_holds w root l leaves -> tree_holds w' root l leaves.
Proof.
  intros [_ Him] Hge (H1 & H2 & H3). apply Forall_cons in Hge as [Hr Hge]. split_and!.
  - by rewrite Him by (done || by intros []).
  - done.
  - intros i leaf Hi. rewrite Forall_lookup in Hge.
    rewrite Him; [by apply H3|by eapply Hge|by intros []].
Qed.

(** The last phase: old leaves go back while the new tree stays in place. *)
Lemma retire_leaves_images l w :
  nr_blocks (w_sbi w) <= U32_MAX -> layout_ok (w_sbi w) -> Forall (fun b => 0 <= b) l ->
  wp (for_list l (fun b => simplefs_retire_metadata_blocks b 1))
     (fun _ w' => same_images [] w w') w.
Proof.
  intros Hnb Hlay Hl. rewrite Forall_forall in Hl.
  assert (Hp : forall n, root_dir_block (w_sbi w) <= n ->
    preserves (data_image (w_sbi w) n (block_image w n))
      (for_list l (fun b => simplefs_retire_metadata_blocks b 1))).
  { intros n Hn. apply preserves_for_list_in. intros b Hb.
    apply retire_data; done || lia. }
  apply same_images_wp; [auto|]. by apply (Hp (root_dir_block (w_sbi w))); [lia|].
Qed.

Lemma retire_each_images l w :
  nr_blocks (w_sbi w) <= U32_MAX -> layout_ok (w_sbi w) -> Forall (fun b => 0 <= b) l ->
  wp (each_list l (fun b => run! simplefs_retire_metadata_blocks b 1 in ret tt))
     (fun _ w' => same_images [] w w') w.
Proof.
  intros Hnb Hlay Hl.
  assert (Hp : forall n, root_dir_block (w_sbi w) <= n ->
    preserves (data_image (w_sbi w) n (block_image w n))
      (each_list l (fun b => run! simplefs_retire_metadata_blocks b 1 in ret tt))).
  { intros n Hn. induction Hl as [|b l Hb Hl IH]; cbn [each_list]; [apply preserves_ret|].
    pres_step; [|done]. pres_step; [by apply retire_data|apply preserves_ret]. }
  apply same_images_wp; [auto|]. by apply (Hp (root_dir_block (w_sbi w))); [lia|].
Qed.

Definition sync_post (w : world) (root : Z) (l : list extent)
    (res : Z * list Z * bool * bool) (w' : world) : Prop :=
  let '(r, leaves, changed, _) := res in
  (r = 0 -> tree_holds w' root l leaves) /\ (changed = false -> same_images [] w w') /\
  Forall (fun b => 0 <= b) leaves.

Lemma sync_body_spec root buf w :
  sync_ok (w_sbi w) (root :: eb_leaf_blocks buf) -> Forall ext_u32 (eb_extents buf) ->
  nr_extents buf <= SIMPLEFS_MAX_FILE_EXTENTS ->
  wp (sync_body root buf (leaf_count (nr_extents buf))) (sync_post w root (eb_extents buf)) w.
Proof.
  intros (Hinv & Hlay & Hmeta & Hused & Hnd) Hu Hmax. unfold sync_body.
  set (l := eb_extents buf) in *. set (old := eb_leaf_blocks buf) in *.
  destruct (leaf_count_slots (nr_extents buf)) as [Hslots Hzero]; [unfold nr_extents in *; lia|].
  set (new := leaf_count (nr_extents buf)) in *.
  apply Forall_cons in Hused as [Hur Huo]. apply NoDup_cons in Hnd as [Hnr Hndo].
  apply wp_bind. eapply wp_mono.
  { apply alloc_leaves_spec; try done; [|by apply Forall_take].
    eapply sublist_NoDup; [exact Hndo|apply sublist_take]. }
  intros [r leaves] w1 (S1 & N1 & U1 & (fresh & Hlv & Hfresh) & Hlen); cbn beta in *.
  assert (Hpos : Forall (fun b => 0 <= b) leaves).
  { eapply Forall_impl; [exact U1|]. by intros x ([? _] & _). }
  assert (Hdone : forall e c, e <> 0 -> forall w', (c = false -> same_images [] w w') ->
    sync_post w root l (e, leaves, c, false) w') by (intros e c He w' Hc; by split_and!).
  destruct (Z.eqb_spec r 0) as [->|Hr]; cbn [negb]; [|apply wp_ret; by apply Hdone].
  specialize (Hlen eq_refl).
  destruct (ownership_overlap l root leaves); [apply wp_ret; by apply Hdone|].
  apply wp_bind. eapply wp_mono; [apply kstable_same_images; intros; pres|].
  intros r w2 S2; cbn beta in *. pose proof (same_images_trans _ _ _ _ S1 S2) as S12.
  destruct (IS_ERR r) eqn:Er; [apply wp_ret; apply Hdone; [apply Z.ltb_lt in Er; lia|done]|].
  pose proof (root_dir_layout _ _ (proj1 S12)) as Hrd.
  assert (Hgel : Forall (fun n => root_dir_block (w_sbi w2) <= n) leaves).
  { eapply Forall_impl; [exact U1|]. intros x (_ & Hx & _).
    by rewrite Hrd, <- (root_dir_layout _ _ (proj1 S1)). }
  apply wp_bind. eapply wp_mono; [by apply sync_leaves_spec|].
  intros [r3 c3] w3 (S3 & C3 & L3); cbn beta in *.
  assert (Hc3 : c3 = false -> same_images [] w w3).
  { intros Hc. destruct (C3 Hc) as [_ H3]. by eapply same_images_trans. }
  destruct (Z.eqb_spec r3 0) as [->|Hr3]; cbn [negb]; [|apply wp_ret; by apply Hdone].
  specialize (L3 eq_refl). apply wp_bind.
  eapply wp_mono; [apply kstable_same_images; intros; pres|]. intros has w4 S4; cbn beta in *.
  apply wp_bind. eapply wp_mono.
  { apply kstable_same_images. intros I HI. unfold simplefs_writeback_metadata_block. pres. }
  intros r5 w5 S5; cbn beta in *. pose proof (same_images_trans _ _ _ _ S4 S5) as S35.
  destruct (Z.eqb_spec r5 0) as [->|Hr5]; cbn [negb].
  2:{ apply wp_ret, Hdone; [done|]. intros Hc. eapply same_images_trans; [by apply Hc3|done]. }
  (* the root *)
  apply wp_bind, wp_gets. apply wp_bind, wp_modify. set (w6 := set_w_bdev _ w5).
  assert (Hroot_notin : ~ In root leaves).
  { rewrite <- list_elem_of_In, Hlv. rewrite elem_of_app. intros [Hin|Hin].
    - apply elem_of_take in Hin as (j & Hj & _). apply Hnr. by eapply list_elem_of_lookup_2.
    - rewrite Forall_forall in Hfresh. destruct Hur as (_ & _ & Hb). rewrite Hfresh in Hb by done. done. }
  assert (Hge : Forall (fun n => root_dir_block (w_sbi w6) <= n) (root :: leaves)).
  { assert (root_dir_block (w_sbi w6) = root_dir_block (w_sbi w2)) as ->.
    { cbn. apply root_dir_layout. destruct S35 as [-> _]. by destruct S3 as [-> _]. }
    constructor; [rewrite Hrd; by destruct Hur as (_ & ? & _)|done]. }
  assert (Hlens : Z.of_nat (length leaves) = new).
  { rewrite Hlen, length_take. unfold nr_leaf_blocks. fold old. lia. }
  assert (Htree : tree_holds w6 root l leaves).
  { split_and!.
    - unfold block_image at 1, w6. cbn [set_w_bdev w_bdev]. rewrite lookup_insert_eq. cbn.
      apply root_image_holds; [done| |lia|].
      + eapply Forall_impl; [exact U1|]. by intros x (? & _).
      + intros ->. cbn in Hlens. apply Hzero. lia.
    - exact Hlens.
    - intros k leaf Hk. unfold block_image, w6. cbn [set_w_bdev w_bdev].
      rewrite lookup_insert_ne by (intros ->; apply Hroot_notin, list_elem_of_In; by eapply list_elem_of_lookup_2).
      fold (block_image w5 leaf). destruct S35 as [_ Him35]. rewrite Him35; [by apply (L3 k)| |by intros []].
      rewrite Forall_lookup in Hgel.
      rewrite (root_dir_layout _ _ (proj1 S3)). by eapply Hgel. }
  apply wp_bind. eapply wp_mono; [apply kstable_same_images; intros; pres|].
  intros r7 w7 S7; cbn beta in *. pose proof (tree_holds_same _ _ _ _ _ S7 Hge Htree) as T7.
  assert (Hok : forall w', tree_holds w' root l leaves -> forall e b,
    sync_post w root l (e, leaves, true, b) w') by (by intros; split_and!).
  destruct (negb (r7 =? 0)); [apply wp_ret; by apply Hok|].
  assert (Hge7 : Forall (fun n => root_dir_block (w_sbi w7) <= n) (root :: leaves))
    by (by rewrite (root_dir_layout _ _ (proj1 S7))).
  apply wp_bind. eapply wp_mono; [apply kstable_same_images; intros; pres|].
  intros has8 w8 S8; cbn beta in *. apply wp_bind. eapply wp_mono.
  { apply kstable_same_images. intros I HI. unfold simplefs_writeback_metadata_block. pres. }
  intros r9 w9 S9; cbn beta in *. pose proof (same_images_trans _ _ _ _ S8 S9) as S79.
  pose proof (tree_holds_same _ _ _ _ _ S79 Hge7 T7) as T9.
  destruct (negb (r9 =? 0)); [apply wp_ret; by apply Hok|].
  assert (Hlay9 : layout_of (w_sbi w9) = layout_of (w_sbi w)).
  { destruct S79 as [-> _], S7 as [-> _]. cbn. destruct S35 as [-> _], S3 as [-> _]. by destruct S12. }
  apply wp_bind. eapply wp_mono; [apply retire_leaves_images|].
  - unfold layout_of in Hlay9. injection Hlay9 as -> _ _ _ _. destruct Hinv as ((? & _) & _). lia.
  - by apply (layout_ok_eq (w_sbi w)).
  - apply Forall_drop. eapply Forall_impl; [exact Huo|]. intros x ([? _] & _). done.
  - intros r10 w10 S10; cbn beta in *. apply wp_ret, Hok.
    apply (tree_holds_same w9); [done| |done]. by rewrite (root_dir_layout _ _ (proj1 S79)).
Qed.

Lemma sync_ok_aeq s s' owned : aeq s s' -> sync_ok s owned -> sync_ok s' owned.
Proof.
  intros H (H1 & H2 & H3 & H4 & H5). pose proof (astate_inv _ _ H) as (E1 & _ & E3 & _).
  unfold sync_ok, used, layout_ok, root_dir_block in *. rewrite <- E1, <- E3.
  split; [apply (alloc_inv_aeq s); [by symmetry|done]|]. split; [exact H2|by split].
Qed.

(** What the tail of [simplefs_file_sync_extents] does to a tree in place. *)
Lemma sync_extents_spec ino buf w :
  let root := ei_block (inode_of w ino) in
  sync_ok (w_sbi w) (root :: eb_leaf_blocks buf) -> Forall ext_u32 (eb_extents buf) ->
  wp (simplefs_file_sync_extents ino buf) (fun rb w' => let '(r, buf') := rb in
    r = 0 -> eb_extents buf' = normalize (eb_extents buf) /\
      nr_extents buf' <= SIMPLEFS_MAX_FILE_EXTENTS /\
      tree_holds w' root (eb_extents buf') (eb_leaf_blocks buf')) w.
Proof.
  intros root Hok Hu. unfold simplefs_file_sync_extents.
  set (nb := simplefs_file_normalize_extents buf).
  destruct (Z.ltb_spec SIMPLEFS_MAX_FILE_EXTENTS (nr_extents nb)) as [|Hmax]; [kwp; done|].
  assert (Hsame : forall {A} (m : M A) w1 (Q : A -> world -> Prop),
    (forall I, JStable I -> preserves I m) -> (forall I, KStable I -> preserves I m) ->
    aeq (w_sbi w1) (w_sbi w) -> ei_block (inode_of w1 ino) = root ->
    (forall a w2, aeq (w_sbi w2) (w_sbi w) -> ei_block (inode_of w2 ino) = root -> Q a w2) ->
    wp m Q w1).
  { intros A m w1 Q HJ HK Ha Hi HQ. eapply wp_mono.
    - apply wp_conj; [apply (frame_wp astate), astate_frame, HJ|].
      by apply (frame_wp w_inodes), (kstable_view w_inodes).
    - intros a w2 [Ha2 Hi2]; cbn beta in *. apply HQ; [by rewrite <- Ha|].
      unfold inode_of in *. by rewrite Hi2. }
  apply wp_bind. apply Hsame; [intros; pres..|done|done|]. intros ok w1 A1 I1.
  destruct (negb ok); [kwp; done|]. apply wp_bind.
  eapply wp_mono; [apply wp_conj; [apply start_sb_err|
    apply (Hsame _ _ w1 (fun _ w2 => aeq (w_sbi w2) (w_sbi w) /\ ei_block (inode_of w2 ino) = root));
      [intros; pres..|done|done|by intros]]|].
  intros hd w2 [He [A2 I2]]; cbn beta in *.
  destruct (HANDLE_IS_ERR hd) eqn:Eh; [kwp; by destruct hd; cbn; intros; [lia|..]|].
  apply wp_bind, wp_gets. rewrite I2. apply wp_bind.
  assert (Hok2 : sync_ok (w_sbi w2) (root :: eb_leaf_blocks nb)).
  { eapply sync_ok_aeq; [|exact Hok]. by symmetry. }
  eapply wp_mono; [apply sync_body_spec; [exact Hok2|by apply normalize_u32|done]|].
  intros [[[r leaves] changed] ru] w3 (Htree & _ & _); cbn beta in *.
  destruct (Z.eqb_spec r 0) as [->|Hr].
  - specialize (Htree eq_refl). kwp. cbn [negb andb when]. kwp.
    set (w4 := set_w_trace _ _).
    eapply wp_mono; [apply (frame_wp w_bdev), (kstable_view w_bdev); [done..|intros; pres]|].
    intros st w5 Hb; cbn beta in Hb. kwp. intros _. split_and!; [done|done|].
    destruct Htree as (T1 & T2 & T3). unfold tree_holds, block_image in *. by rewrite Hb.
  - kwp. apply (wp_mono _ (fun _ _ => True)); [done|]. intros _ w4 _. kwp.
    apply (wp_mono _ (fun _ _ => True)); [done|]. intros _ w5 _. kwp.
    apply (wp_mono _ (fun _ _ => True)); [done|]. intros st w6 _. kwp. done.
Qed.

(** ** What a load accepts *)

Lemma load_leaf_bounds leaf buf w :
  Forall ext_u32 (eb_extents buf) ->
  wp (simplefs_file_load_leaf leaf buf) (fun rb _ => let '(r, buf') := rb in
    r = 0 -> nr_extents buf' <= nr_extents buf + SIMPLEFS_FILE_EXTENTS_PER_LEAF /\
             Forall ext_u32 (eb_extents buf')) w.
Proof.
  intros Hu. unfold simplefs_file_load_leaf. apply wp_bind.
  eapply wp_mono; [apply read_metadata_spec|]. intros r w1 _.
  destruct (IS_ERR r) eqn:Er; kwp; [intros ->; done|].
  set (img := block_image w1 leaf).
  destruct (negb _); kwp; [by destruct (eh_magic img =? 0)|].
  destruct (Z.ltb_spec SIMPLEFS_FILE_EXTENTS_PER_LEAF (eh_entries img)); kwp; [done|].
  eapply wp_mono; [apply grow_spec|]. intros [g buf'] w2 (X1 & _ & [[-> _]|[-> ->]]); errno; kwp.
  - intros _. unfold nr_extents. cbn. rewrite X1, length_app, get_extents_length.
    pose proof (get_u16_range img 4). unfold eh_entries in *. split; [lia|].
    apply Forall_app. split; [done|apply get_extents_u32].
  - done.
Qed.

Lemma load_leaves_bounds img n : forall i buf w, Forall ext_u32 (eb_extents buf) ->
  wp (load_leaves n i img buf) (fun rb _ => let '(r, buf') := rb in
    (r = 0 -> nr_extents buf' <= nr_extents buf + Z.of_nat n * SIMPLEFS_FILE_EXTENTS_PER_LEAF /\
              Forall ext_u32 (eb_extents buf')) /\ (r <> 0 -> buf' = eb_empty)) w.
Proof.
  induction n as [|n IH]; intros i buf w Hu; cbn [load_leaves].
  { kwp. split; [intros _; split; [lia|done]|done]. }
  apply wp_bind. eapply wp_mono; [by apply load_leaf_bounds|].
  intros [r buf1] w1 H1; cbn beta in *. destruct (Z.eqb_spec r 0) as [->|Hr]; cbn [negb].
  - destruct (H1 eq_refl) as [B1 U1]. eapply wp_mono; [by apply IH|].
    intros [r2 buf2] w2 [B2 E2]; cbn beta in *. split; [|done]. intros ->.
    destruct (B2 eq_refl) as [B3 U3]. split; [|done]. unfold nr_extents in *; cbn in *. lia.
  - kwp. by split.
Qed.

Lemma load_extents_bounds root w :
  wp (simplefs_file_load_extents root) (fun rb _ => let '(r, buf) := rb in
    (r = 0 -> eh_magic (block_image w root) = SIMPLEFS_EXTENT_ROOT_MAGIC /\
              nr_extents buf <= SIMPLEFS_MAX_FILE_EXTENTS /\ Forall ext_u32 (eb_extents buf)) /\
    (r <> 0 -> buf = eb_empty)) w.
Proof.
  unfold simplefs_file_load_extents. apply wp_bind.
  eapply wp_mono; [apply read_metadata_spec|]. intros r w1 [Hb Hr]; cbn beta in *.
  destruct (IS_ERR r) eqn:Er; kwp.
  { apply Z.ltb_lt in Er. split; [lia|done]. }
  unfold block_image. rewrite Hb. set (img := default 0 (w_bdev w !! root)).
  destruct (Z.eqb_spec (eh_magic img) SIMPLEFS_EXTENT_ROOT_MAGIC) as [Hm|Hm]; cbn [negb]; kwp.
  2:{ by destruct (_ && _). }
  pose proof (get_u16_range img 4) as Hr16. fold (eh_entries img) in Hr16.
  destruct (eh_depth img =? 0).
  - destruct (Z.ltb_spec SIMPLEFS_FILE_EXTENTS_PER_LEAF (eh_entries img)); kwp; [done|].
    eapply wp_mono; [apply grow_spec|].
    intros [g buf'] w2 (X1 & _ & [[-> _]|[-> ->]]); errno; kwp; [|by split].
    split; [|done]. intros _. split_and!; [done| |apply get_extents_u32].
    unfold nr_extents; cbn. rewrite get_extents_length. unfold SIMPLEFS_MAX_FILE_EXTENTS.
    change SIMPLEFS_FILE_EXTENTS_PER_LEAF with 340 in *. change SIMPLEFS_FILE_INDEX_SLOTS with 255. lia.
  - destruct (negb _ || _) eqn:Ec; [kwp; by split|]. bool_hyps. apply wp_bind.
    apply (wp_mono _ (fun _ _ => True)); [done|]. intros ok w2 _. destruct (negb ok); [kwp; by split|].
    eapply wp_mono; [apply load_leaves_bounds; constructor|].
    intros [r2 buf2] w3 [B E]; cbn beta in *. split; [|done]. intros ->.
    destruct (B eq_refl) as [B1 B2]. split_and!; [done| |done]. cbn in B1.
    unfold SIMPLEFS_MAX_FILE_EXTENTS. change SIMPLEFS_FILE_EXTENTS_PER_LEAF with 340 in *.
    change SIMPLEFS_FILE_INDEX_SLOTS with 255 in *. unfold nr_extents in *; cbn in *. lia.
Qed.

(** ** What makes a tree well-formed on the device *)

Definition leaf_sound (img : Z) : Prop :=
  eh_magic img = SIMPLEFS_EXTENT_LEAF_MAGIC /\ eh_entries img <= SIMPLEFS_FILE_EXTENTS_PER_LEAF.

(** The leaf blocks that the root [img] points to. *)
Definition tree_leaves (img : Z) : list Z :=
  if eh_depth img =? 0 then []
  else map (fun i => ix_leaf_block (root_index img i)) (seqZ 0 (eh_entries img)).

Definition tree_sound (image : Z -> Z) (root : Z) : Prop :=
  let img := image root in
  eh_magic img = SIMPLEFS_EXTENT_ROOT_MAGIC /\
  (eh_depth img = 0 /\ eh_entries img <= SIMPLEFS_FILE_EXTENTS_PER_LEAF \/
   eh_depth img = 1 /\ eh_entries img <= SIMPLEFS_FILE_INDEX_SLOTS /\
     Forall (fun b => leaf_sound (image b)) (tree_leaves img)).

Definition node_extents (img : Z) : list extent := get_extents img 8 (Z.to_nat (eh_entries img)).
Definition tree_extents (image : Z -> Z) (root : Z) : list extent :=
  let img := image root in
  if eh_depth img =? 0 then node_extents img
  else concat (map (fun b => node_extents (image b)) (tree_leaves img)).

(** The answer that made a load fail with [r]. *)
Definition load_refused (r : Z) (c : kcall) (a : Z) : Prop :=
  match c with
  | Kmalloc => a <> 0 /\ r = - ENOMEM
  | ReadMappingFolio _ => a < 0 /\ r = a
  | _ => False
  end.

Lemma read_metadata_refused w0 n w : extends w0 w ->
  wp (simplefs_read_metadata n) (fun r w' => extends w0 w' /\ w_bdev w' = w_bdev w /\
    (IS_ERR r = true -> answered_since w0 (load_refused r) w')) w.
Proof.
  intros (t & Ht). unfold simplefs_read_metadata. kwp. split_and!; [|done|].
  - eexists ((_, r) :: t). cbn. by rewrite Ht.
  - intros H. destruct (IS_ERR r) eqn:E; [|done]. unfold IS_ERR in E. bool_hyps.
    by apply (answered_cons w0 _ w _ (ReadMappingFolio n) r t).
Qed.

Lemma grow_refused w0 buf n w : extends w0 w ->
  wp (simplefs_file_grow_extent_buffer buf n) (fun rb w' => let '(r, buf') := rb in
    extends w0 w' /\ w_bdev w' = w_bdev w /\ eb_extents buf' = eb_extents buf /\
    eb_leaf_blocks buf' = eb_leaf_blocks buf /\
    (r <> 0 -> buf' = buf /\ answered_since w0 (load_refused r) w')) w.
Proof.
  intros (t & Ht). unfold simplefs_file_grow_extent_buffer. wp_if; kwp; [split_and!; [by exists t|done..]|].
  assert (He : forall w', w_trace w' = (Kmalloc, r) :: w_trace w -> extends w0 w')
    by (intros w' E; exists ((Kmalloc, r) :: t); by rewrite E, Ht).
  destruct (Z.eqb_spec r 0) as [->|Hr]; cbn [negb]; kwp; (split_and!; [by apply He|done..|]); [done|].
  intros _. split; [done|]. by apply (answered_cons w0 _ w _ Kmalloc r t).
Qed.

Lemma load_leaf_full w0 leaf buf w : extends w0 w ->
  wp (simplefs_file_load_leaf leaf buf) (fun rb w' => let '(r, buf') := rb in
    let img := block_image w leaf in extends w0 w' /\ w_bdev w' = w_bdev w /\
    (r = 0 -> leaf_sound img /\ eb_extents buf' = eb_extents buf ++ node_extents img /\
              eb_leaf_blocks buf' = eb_leaf_blocks buf) /\
    (r <> 0 -> ~ leaf_sound img \/ answered_since w0 (load_refused r) w')) w.
Proof.
  intros He. unfold simplefs_file_load_leaf. apply wp_bind.
  eapply wp_mono; [by apply (read_metadata_refused w0)|]. intros r w1 (He1 & Hb & Hr).
  destruct (IS_ERR r) eqn:E; kwp.
  { unfold IS_ERR in E. bool_hyps. split_and!; [done|done|lia|]. auto. }
  unfold block_image. rewrite Hb. set (img := default 0 (w_bdev w !! leaf)). unfold leaf_sound.
  destruct (Z.eqb_spec (eh_magic img) SIMPLEFS_EXTENT_LEAF_MAGIC) as [Hm|Hm]; cbn [negb]; kwp.
  2:{ split_and!; [done|done|by destruct (_ =? 0)|]. intros _. left. by intros [? _]. }
  destruct (Z.ltb_spec SIMPLEFS_FILE_EXTENTS_PER_LEAF (eh_entries img)); kwp.
  { split_and!; [done|done|done|]. intros _. left. intros [_ ?]. lia. }
  eapply wp_mono; [by apply (grow_refused w0)|]. intros [g buf'] w2 (He2 & Hb2 & X1 & X2 & Hg).
  destruct (Z.eqb_spec g 0) as [->|Hne]; cbn [negb]; kwp; (split_and!; [done|congruence| |]); try done.
  - intros _. split; [done|]. cbn. by rewrite X1.
  - intros Hn. right. by apply Hg.
Qed.

Lemma load_leaves_full w0 img n : forall i buf w, extends w0 w ->
  let leaves := map (fun i => ix_leaf_block (root_index img i)) (seqZ i (Z.of_nat n)) in
  wp (load_leaves n i img buf) (fun rb w' => let '(r, buf') := rb in
    (r = 0 -> Forall (fun b => leaf_sound (block_image w b)) leaves /\
              eb_extents buf' = eb_extents buf ++ concat (map (fun b => node_extents (block_image w b)) leaves) /\
              eb_leaf_blocks buf' = eb_leaf_blocks buf ++ leaves) /\
    (r <> 0 -> buf' = eb_empty /\ (~ Forall (fun b => leaf_sound (block_image w b)) leaves \/
                                  answered_since w0 (load_refused r) w'))) w.
Proof.
  induction n as [|n IH]; intros i buf w He leaves; cbn [load_leaves].
  { kwp. subst leaves. cbn. rewrite !app_nil_r. by split. }
  subst leaves. rewrite Nat2Z.inj_succ, seqZ_cons by lia. cbn [map concat]. replace (Z.pred (Z.succ _)) with (Z.of_nat n) by lia.
  apply wp_bind. eapply wp_mono; [by apply (load_leaf_full w0)|].
  intros [r buf1] w1 (He1 & Hb1 & Hok & Hbad); cbn beta in *. destruct (Z.eqb_spec r 0) as [->|Hr]; cbn [negb].
  - destruct (Hok eq_refl) as (Hl & Hx & Hlv). eapply wp_mono; [by apply (IH (i + 1) buf1 w1)|].
    intros [r2 buf2] w2 [B2 E2]; cbn beta in *. cbn [eb_extents eb_leaf_blocks] in *.
    replace (Z.succ i) with (i + 1) by lia. unfold block_image in *. rewrite Hb1 in B2, E2. split.
    + intros Hr2. destruct (B2 Hr2) as (F & X & L). split_and!; [by constructor| |].
      * by rewrite X, Hx, <- app_assoc.
      * by rewrite L, Hlv, <- app_assoc.
    + intros Hr2. destruct (E2 Hr2) as [-> Hw]. split; [done|]. destruct Hw as [Hw|Hw]; [left|by right].
      intros [_ ?]%Forall_cons. by apply Hw.
  - kwp. split; [done|]. intros _. split; [done|]. destruct (Hbad Hr) as [Hw|Hw]; [left|by right].
    intros [? _]%Forall_cons. by apply Hw.
Qed.

Lemma load_extents_full root w :
  wp (simplefs_file_load_extents root) (fun rb w' => let '(r, buf) := rb in
    (r = 0 -> tree_sound (block_image w) root /\ eb_extents buf = tree_extents (block_image w) root /\
              eb_leaf_blocks buf = tree_leaves (block_image w root)) /\
    (r <> 0 -> buf = eb_empty /\
       (~ tree_sound (block_image w) root \/ answered_since w (load_refused r) w'))) w.
Proof.
  unfold simplefs_file_load_extents, tree_sound, tree_extents, tree_leaves. apply wp_bind.
  eapply wp_mono; [apply (read_metadata_refused w), extends_refl|]. intros r w1 (He1 & Hb & Hr); cbn beta in *.
  destruct (IS_ERR r) eqn:E; kwp.
  { unfold IS_ERR in E. bool_hyps. split; [lia|]. auto. }
  assert (Him : block_image w1 = block_image w) by (unfold block_image; by rewrite Hb).
  rewrite Him. set (img := block_image w root).
  destruct (Z.eqb_spec (eh_magic img) SIMPLEFS_EXTENT_ROOT_MAGIC) as [Hm|Hm]; cbn [negb]; kwp.
  2:{ split; [by destruct (_ && _)|]. intros _. split; [done|]. left. by intros [? _]. }
  destruct (Z.eqb_spec (eh_depth img) 0) as [Hd|Hd].
  - destruct (Z.ltb_spec SIMPLEFS_FILE_EXTENTS_PER_LEAF (eh_entries img)); kwp.
    { split; [done|]. intros _. split; [done|]. left. intros (_ & [[_ ?]|[? _]]); lia. }
    eapply wp_mono; [by apply (grow_refused w)|]. intros [g buf'] w2 (He2 & Hb2 & X1 & X2 & Hg).
    destruct (Z.eqb_spec g 0) as [->|Hne]; cbn [negb]; kwp; (split; [|]); try done.
    + intros _. split_and!; [done|by left|done|]. cbn. by rewrite X2.
    + intros Hn. destruct (Hg Hn) as [-> ?]. auto.
  - destruct (Z.eqb_spec (eh_depth img) 1) as [Hd1|Hd1]; cbn [negb orb].
    2:{ kwp. split; [done|]. intros _. split; [done|]. left. intros (_ & [[? _]|[? _]]); lia. }
    destruct (Z.ltb_spec SIMPLEFS_FILE_INDEX_SLOTS (eh_entries img)); kwp.
    { split; [done|]. intros _. split; [done|]. left. intros (_ & [[? _]|(_ & ? & _)]); lia. }
    pose proof (get_u16_range img 4) as H16. fold (eh_entries img) in H16.
    eapply (wp_mono _ (fun (ok : bool) w2 => extends w w2 /\ w_bdev w2 = w_bdev w /\
      (ok = false -> answered_since w (load_refused (- ENOMEM)) w2))).
    { destruct He1 as (t & Ht). destruct (negb (eh_entries img =? 0)); kwp; [|by split_and!; [exists t|..]].
      split_and!; [exists ((Kmalloc, r0) :: t); cbn; by rewrite Ht|done|]. intros Hz. bool_hyps.
      by apply (answered_cons w _ w1 _ Kmalloc r0 t). }
    intros ok w2 (He2 & Hb2 & Hok). destruct ok; cbn [negb]; [|kwp; split; [done|]; auto].
    assert (Him2 : block_image w2 = block_image w) by (unfold block_image; by rewrite Hb2).
    eapply wp_mono; [by apply (load_leaves_full w)|]. rewrite Z2Nat.id, Him2 by lia. cbn [eb_extents eb_leaf_blocks eb_empty app].
    intros [r2 buf2] w3 [B2 E2]; cbn beta in *. split.
    + intros Hr2. destruct (B2 Hr2) as (F & X & L). split_and!; [done|by right|done|done].
    + intros Hr2. destruct (E2 Hr2) as [-> Hw]. split; [done|]. destruct Hw as [Hw|Hw]; [left|by right].
      intros (_ & [[? _]|(_ & _ & ?)]); [lia|]. by apply Hw.
Qed.

(** C1: the extent tree round trip: whatever the journal and the device answer,
    when [simplefs_file_sync_extents] reports success, a later load of the file's
    root gives exactly the normalised extents and leaf blocks back (or fails only
    for lack of memory or a device error); so every logical block is mapped as it
    was in the buffer that was written. *)
Theorem extent_tree_roundtrip ino buf w :
  let root := ei_block (inode_of w ino) in
  sync_ok (w_sbi w) (root :: eb_leaf_blocks buf) ->
  Forall ext_u32 (eb_extents buf) -> Forall ext_ok (eb_extents buf) ->
  wp (simplefs_file_sync_extents ino buf) (fun rb w' => let '(r, buf') := rb in
    r = 0 -> wp (simplefs_file_load_extents root) (fun rl w'' => let '(r2, buf2) := rl in
      if r2 =? 0 then
        eb_extents buf2 = eb_extents (simplefs_file_normalize_extents buf) /\
        eb_leaf_blocks buf2 = eb_leaf_blocks buf' /\
        forall b p u, maps (eb_extents buf2) b p u <-> maps (eb_extents buf) b p u
      else load_failed r2 w'') w') w.
Proof.
  intros root Hok Hu Hext. eapply wp_mono; [by apply sync_extents_spec|].
  intros [r buf'] w' H1 Hr; cbn beta in *. destruct (H1 Hr) as (E1 & E2 & Htree).
  eapply wp_mono; [apply load_extents_spec; [exact Htree|exact E2]|].
  intros [r2 buf2] w'' H2; cbn beta in *. destruct (r2 =? 0); [|done]. destruct H2 as [X1 X2].
  rewrite E1 in X1. split_and!; [done|done|]. intros b p u. rewrite X1. by apply normalize_spec.
Qed.

(** C23: [simplefs_file_load_extents] accepts exactly the well-formed trees and reads
    exactly what they hold.  It succeeds only if the root has the root's magic and is
    inline with at most a leaf's worth of extents, or has depth 1, at most as many
    indexes as there are slots, and every leaf it points to has the leaf's magic and a
    count in range; the buffer then holds the extents of the root or of all leaves in
    order and the leaf blocks, within the limits of the format.  It fails, with an empty
    buffer, only on a tree that is not well-formed, or with -ENOMEM when an allocation
    of this call failed, or with the code with which a read of this call failed. *)
Theorem load_extents_validates root w :
  wp (simplefs_file_load_extents root) (fun rb w' => let '(r, buf) := rb in
    (r = 0 -> tree_sound (block_image w) root /\
              eb_extents buf = tree_extents (block_image w) root /\
              eb_leaf_blocks buf = tree_leaves (block_image w root) /\
              nr_extents buf <= SIMPLEFS_MAX_FILE_EXTENTS /\ Forall ext_u32 (eb_extents buf)) /\
    (r <> 0 -> buf = eb_empty /\
       (~ tree_sound (block_image w) root \/ answered_since w (load_refused r) w'))) w.
Proof.
  eapply wp_mono; [apply wp_conj; [apply load_extents_bounds|apply load_extents_full]|].
  intros [r buf] w' [[H1 _] [H2 H3]]; cbn beta in *. split; [|done]. intros Hr.
  destruct (H1 Hr) as (_ & ? & ?), (H2 Hr) as (? & ? & ?). by split_and!.
Qed.

(** C5: a failed write-back is safe: if [simplefs_file_sync_extents] fails and the
    file system is not latched shut, no metadata block in the data area has
    changed, so the old tree is still in place (unless the only failure was that
    of closing the transaction). *)
Theorem sync_extents_failure_safe ino buf w :
  let root := ei_block (inode_of w ino) in
  sync_ok (w_sbi w) (root :: eb_leaf_blocks buf) -> Forall ext_u32 (eb_extents buf) ->
  wp (simplefs_file_sync_extents ino buf) (fun rb w' => let '(r, _) := rb in
    r <> 0 -> s_shutdown (w_sbi w') = true \/ same_images [] w w' \/
              exists h, In (Jbd2Stop h, r) (w_trace w')) w.
Proof.
  intros root Hok Hu. unfold simplefs_file_sync_extents.
  set (nb := simplefs_file_normalize_extents buf).
  destruct (Z.ltb_spec SIMPLEFS_MAX_FILE_EXTENTS (nr_extents nb)) as [|Hmax].
  { kwp. intros _. right. left. apply same_images_refl. }
  apply wp_bind. eapply wp_mono.
  { apply wp_conj; [apply (kstable_same_images)|apply (frame_wp (fun w => (w_sbi w, w_inodes w)))];
      [intros; pres|unfold kmalloc; intros w0; destruct (negb _); [|done]].
    unfold bind, ret, kdo. by destruct (kstep _ _). }
  intros ok w1 [S1 [= Hs1 Hi1]]; cbn beta in *.
  destruct (negb ok); [kwp; auto|]. apply wp_bind. eapply wp_mono.
  { apply wp_conj; [apply kstable_same_images; intros; pres|].
    apply wp_conj; [apply start_sb_alloc|].
    apply (frame_wp w_inodes), (kstable_view w_inodes); [done..|intros; pres]. }
  intros hd w2 (S2 & A2 & Hi2); cbn beta in *. pose proof (same_images_trans _ _ _ _ S1 S2) as S12.
  destruct (HANDLE_IS_ERR hd); [kwp; auto|].
  apply wp_bind, wp_gets. unfold inode_of at 1. rewrite Hi2, Hi1. fold (inode_of w ino). fold root.
  apply wp_bind.
  assert (Hok2 : sync_ok (w_sbi w2) (root :: eb_leaf_blocks nb)).
  { apply (sync_ok_aeq (w_sbi w)); [|exact Hok]. rewrite <- Hs1. by symmetry. }
  eapply wp_mono; [apply sync_body_spec; [exact Hok2|by apply normalize_u32|done]|].
  intros [[[r leaves] changed] ru] w3 (_ & Hc & Hpos); cbn beta in *.
  assert (Hfin : forall e w4, (e <> 0 -> s_shutdown (w_sbi w4) = true \/ same_images [] w w4) ->
    wp (simplefs_journal_stop hd) (fun st w' => (if e =? 0 then st else e) <> 0 ->
         s_shutdown (w_sbi w') = true \/ same_images [] w w' \/
         exists h, In (Jbd2Stop h, if e =? 0 then st else e) (w_trace w')) w4).
  { intros e w4 H4. eapply wp_mono.
    { apply wp_conj; [apply stop_alloc|apply kstable_same_images; intros; pres]. }
    intros st w5 [(_ & Hsd & Hst) S5] Hne; cbn beta in *.
    destruct (Z.eqb_spec e 0) as [->|He]; [destruct (Hst Hne) as (h & _ & Hin); eauto|].
    destruct (H4 He) as [H5|H5]; [left; auto|]. right. left. by eapply same_images_trans. }
  assert (Hend : forall e b w4, (e <> 0 -> s_shutdown (w_sbi w4) = true \/ same_images [] w w4) ->
    wp (simplefs_journal_stop hd) (fun st w' => wp (ret (if e =? 0 then st else e, b : extent_buffer))
      (fun rb w' => let '(r, _) := rb in r <> 0 -> s_shutdown (w_sbi w') = true \/
         same_images [] w w' \/ exists h, In (Jbd2Stop h, r) (w_trace w')) w') w4).
  { intros e b w4 H4. eapply wp_mono; [by apply (Hfin e)|]. intros st w5 H5. kwp. done. }
  destruct (Z.eqb_spec r 0) as [->|Hr]; cbn [negb andb].
  { kwp. cbn [negb andb]. kwp. by apply (Hend 0). }
  pose proof (Hend r nb) as He. rewrite (proj2 (Z.eqb_neq r 0) Hr) in He. kwp.
  destruct changed; cbn [negb andb].
  - eapply (wp_mono _ (fun _ w4 => s_shutdown (w_sbi w4) = true)).
    { unfold simplefs_journal_fail. kwp. destruct (has_jbd2 _); kwp; done. }
    intros _ w4 H4. kwp. apply He. by left.
  - kwp. specialize (Hc eq_refl). pose proof (same_images_trans _ _ _ _ S12 Hc) as S3.
    destruct ru; cbn [negb]; kwp; [apply He; by right|].
    eapply wp_mono; [apply retire_each_images|].
    + destruct S3 as [L3 _]. unfold layout_of in L3. injection L3 as -> _ _ _ _.
      destruct Hok as (((? & _) & _) & _). lia.
    + apply (layout_ok_eq (w_sbi w)); [by destruct S3|]. by destruct Hok as (_ & ? & _).
    + by apply Forall_drop.
    + intros ? w4 S4. kwp. apply He. intros _. right. by eapply same_images_trans.
Qed.
End Sync.

(** ** What the tree operations leave alone *)
Section Pres.
Context {K : Kernel} (I : world -> Prop).

Lemma grow_pres `{!KStable I} buf n : preserves I (simplefs_file_grow_extent_buffer buf n).
Proof. unfold simplefs_file_grow_extent_buffer. pres. Qed.
Local Hint Resolve grow_pres : pres.
Lemma append_pres `{!KStable I} buf e : preserves I (simplefs_file_append_extent buf e).
Proof. unfold simplefs_file_append_extent. pres. Qed.
Local Hint Resolve append_pres : pres.
Lemma insert_pres `{!KStable I} buf i e : preserves I (simplefs_file_insert_extent buf i e).
Proof. unfold simplefs_file_insert_extent. pres. Qed.
Local Hint Resolve insert_pres : pres.
Lemma split_pres `{!KStable I} f buf i b n : preserves I (split_extent f buf i b n).
Proof. unfold split_extent. pres. Qed.
Lemma slice_pres `{!KStable I} buf s a b c : preserves I (simplefs_append_extent_slice buf s a b c).
Proof. unfold simplefs_append_extent_slice. pres. Qed.
Lemma load_leaf_pres `{!KStable I} leaf buf : preserves I (simplefs_file_load_leaf leaf buf).
Proof. unfold simplefs_file_load_leaf. pres. Qed.
Local Hint Resolve load_leaf_pres : pres.
Lemma load_leaves_pres `{!KStable I} n img : forall i buf, preserves I (load_leaves n i img buf).
Proof.
  induction n as [|n IH]; intros i buf; cbn [load_leaves]; [pres|]. pres.
Qed.
Local Hint Resolve load_leaves_pres : pres.
Lemma load_extents_pres `{!KStable I} root : preserves I (simplefs_file_load_extents root).
Proof. unfold simplefs_file_load_extents. pres. Qed.

Lemma alloc_leaves_apres `{!BStable I} n : forall l, preserves I (alloc_leaves n l).
Proof. induction n as [|n IH]; intros l; cbn [alloc_leaves]; [pres|]. pres. Qed.
Lemma sync_leaf_apres `{!BStable I} l o i leaf : preserves I (sync_leaf l o i leaf).
Proof. unfold sync_leaf. pres. Qed.
Local Hint Resolve alloc_leaves_apres sync_leaf_apres : pres.
Lemma sync_leaves_apres `{!BStable I} l o lv : forall i c, preserves I (sync_leaves l o i lv c).
Proof. induction lv as [|x lv IH]; intros i c; cbn [sync_leaves]; [pres|]. pres. Qed.
Lemma writeback_pres `{!KStable I} b : preserves I (simplefs_writeback_metadata_block b).
Proof. unfold simplefs_writeback_metadata_block. pres. Qed.
Local Hint Resolve sync_leaves_apres writeback_pres : pres.
Lemma sync_body_apres `{!BStable I} root buf n : preserves I (sync_body root buf n).
Proof. unfold sync_body. pres. Qed.
Local Hint Resolve sync_body_apres : pres.
Lemma sync_extents_apres `{!FStable I} ino buf : preserves I (simplefs_file_sync_extents ino buf).
Proof. unfold simplefs_file_sync_extents. pres. Qed.
Lemma retire_all_apres `{!BStable I} l : forall e, preserves I (retire_all l e).
Proof. induction l as [|x l IH]; intros e; cbn [retire_all]; [pres|]. pres. Qed.
Local Hint Resolve load_extents_pres retire_all_apres : pres.
Lemma free_extent_tree_apres `{!BStable I} root : preserves I (simplefs_file_free_extent_tree root).
Proof. unfold simplefs_file_free_extent_tree. pres. Qed.
End Pres.

#[export] Hint Resolve grow_pres append_pres insert_pres split_pres slice_pres load_extents_pres
  sync_extents_apres free_extent_tree_apres : pres.
