(* ===== verification/Owned.v ===== *)
(** * Owned: blocks that stay in use

    [busy L S]: the allocator is sound, the layout is [L], and every block of the
    set [S] is marked in use.  Allocation adds to such a set, a release keeps what
    lies outside the released range, and writing an extent tree back keeps every
    block but the leaves it retires.  The range operations of FileRange and the
    mapping of FileMap are proved against these facts. *)

From stdpp Require Import base list numbers gmap.
From S2P Require Import Prelude Image Layout Kernel DiskFormat Discard Journal MetaBuf.
From S2P Require Import Alloc Retire ExtentBuf ExtentTree.

Local Open Scope Z_scope.
Local Open Scope fs_scope.

(** What every run of a computation returns. *)
Definition always {S A} (P : A -> Prop) (m : ST S A) : Prop := forall s, P (fst (m s)).
Lemma always_bind {S A B} (P : B -> Prop) (m : ST S A) (k : A -> ST S B) :
  (forall a, always P (k a)) -> always P (bind m k).
Proof. intros H s. unfold bind. destruct (m s) as [a s']. apply H. Qed.
Lemma always_ret {S A} (P : A -> Prop) (a : A) : P a -> always (S := S) P (ret a).
Proof. by intros H s. Qed.
Ltac always :=
  repeat match goal with
  | |- always _ (bind _ _) => apply always_bind; intros ?
  | |- always _ (ret _) => apply always_ret
  | |- always _ (if ?b then _ else _) => destruct b
  | |- always _ (match ?x with _ => _ end) => destruct x
  end.

Lemma preserves_each_list_in {S A} (I : S -> Prop) (l : list A) body :
  (forall x, In x l -> preserves I (body x)) -> preserves I (each_list l body).
Proof.
  intros H; induction l as [|x l IH]; simpl; [apply preserves_ret|].
  apply preserves_bind; [apply H; by left|]. intros _. apply IH. intros; apply H. by right.
Qed.

Lemma wp_latch {S A} (I : S -> Prop) (m : ST S A) s :
  preserves I m -> wp m (fun _ s' => I s -> I s') s.
Proof. intros H. exact (H s). Qed.
Lemma wp_all {S A B} (m : ST S A) (Q : B -> A -> S -> Prop) s :
  (forall b, wp m (Q b) s) -> wp m (fun a s' => forall b, Q b a s') s.
Proof. intros H b. exact (H b). Qed.

Section Busy.
Context {K : Kernel}.
Implicit Types (S : Z -> Prop).

Definition busy (L : Z * Z * Z * Z * Z) (S : Z -> Prop) (w : world) : Prop :=
  alloc_inv (w_sbi w) /\ layout_of (w_sbi w) = L /\
  forall p, S p -> 0 <= p /\ test_bit (bfree_bitmap (w_sbi w)) p = false.

Lemma busy_sub L S S' w : (forall p, S' p -> S p) -> busy L S w -> busy L S' w.
Proof. intros H (H1 & H2 & H3). split_and!; auto. Qed.

Lemma busy_aeq L S w w' : aeq (w_sbi w') (w_sbi w) -> busy L S w -> busy L S w'.
Proof.
  intros Ha (H1 & H2 & H3). pose proof (astate_inv _ _ Ha) as (E1 & _ & E3 & _). split_and!.
  - by apply (alloc_inv_aeq (w_sbi w)).
  - rewrite <- H2. unfold layout_of. by rewrite E1.
  - intros p Hp. rewrite E3. by apply H3.
Qed.

#[export] Instance busy_jstable L S : JStable (busy L S).
Proof.
  assert (Hv : forall w w', astate w' = astate w -> busy L S w -> busy L S w').
  { intros w w' H. by apply busy_aeq. }
  split; [split|]; [intros c _ w Hw|intros h n w _ Hw|intros g w Hw|intros w Hw|
    intros n v w Hw]; refine (Hv _ _ _ Hw); try done; by apply (kdo_view astate).
Qed.

Lemma busy_inodes L S f : preserves (busy L S) (modify (fun w => set_w_inodes (f (w_inodes w)) w)).
Proof. by intros w. Qed.

(** A bitmap that differs from a sound one in taken bits only. *)
Lemma take_busy L S b len w w' : busy L S w -> alloc_inv (w_sbi w') -> free_run (w_sbi w) b len ->
  aeq (w_sbi w') (take_blocks b len (w_sbi w)) ->
  busy L (fun p => S p \/ b <= p < b + len) w' /\ forall p, b <= p < b + len -> ~ S p.
Proof.
  intros (H1 & H2 & H3) Hinv (F1 & F2 & F3 & F4) Ha. apply astate_inv in Ha as (E1 & _ & E3 & _). split.
  - split_and!; [done|rewrite <- H2; unfold layout_of; rewrite E1; done|].
    intros p Hp. rewrite E3. cbn. destruct Hp as [Hp|Hp].
    + destruct (H3 p Hp) as [H0 Hb]. split; [done|]. rewrite bitmap_clear_testbit by lia. by rewrite Hb.
    + split; [lia|]. rewrite bitmap_clear_testbit by lia. bit_cases; try lia; apply andb_false_r.
  - intros p Hp Hs. destruct (H3 p Hs) as [_ Hb]. rewrite F4 in Hb by lia. done.
Qed.

Lemma get_free_blocks_busy L S len w : 0 <= len <= U32_MAX -> busy L S w ->
  wp (get_free_blocks len) (fun b w' => busy L S w' /\
    (b <> 0 -> free_run (w_sbi w) b len /\ (forall p, b <= p < b + len -> ~ S p) /\
               busy L (fun p => S p \/ b <= p < b + len) w')) w.
Proof.
  intros Hlen Hb. pose proof Hb as (Hinv & _). pose proof Hinv as (Hg & _ & _ & _ & Hlock).
  eapply wp_mono.
  { apply wp_conj; [by apply get_free_blocks_spec|].
    apply (wp_pres (fun w => alloc_inv (w_sbi w))); [by apply get_free_blocks_inv|done]. }
  intros b w' [Hr Hinv']; cbn beta in *. destruct Hr as [[-> Ha]|(b' & Hf & Ha & Hr)].
  { split; [by eapply busy_aeq|done]. }
  destruct (take_busy L S b' len w w' Hb Hinv' Hf Ha) as [B1 B2]. split.
  - eapply busy_sub; [|exact B1]. by left.
  - destruct Hr as [->|[-> _]]; [done|done].
Qed.

Lemma take_exact_busy L S bno len w : is_u32 bno -> is_u32 len -> busy L S w ->
  wp (simplefs_take_exact_blocks bno len) (fun ok w' => busy L S w' /\
    (ok = true -> free_run (w_sbi w) bno len /\ (forall p, bno <= p < bno + len -> ~ S p) /\
                  busy L (fun p => S p \/ bno <= p < bno + len) w')) w.
Proof.
  intros Hbu Hlu Hb. pose proof Hb as (Hinv & _). pose proof Hinv as (Hg & _ & _ & _ & Hlock).
  eapply wp_mono.
  { apply wp_conj; [apply take_exact_spec; [destruct Hbu|destruct Hlu|]; done|].
    apply (wp_pres (fun w => alloc_inv (w_sbi w))); [by apply bs_take|done]. }
  intros ok w' [Hr Hinv']; cbn beta in *. destruct Hr as [[-> Ha]|(Hf & Ha & Hr)].
  { split; [by eapply busy_aeq|done]. }
  destruct (take_busy L S bno len w w' Hb Hinv' Hf Ha) as [B1 B2]. split; [|done].
  eapply busy_sub; [|exact B1]. by left.
Qed.

Lemma give_bits bno len s : bfree_bitmap (give_blocks bno len s) = bitmap_set (bfree_bitmap s) bno len.
Proof. unfold give_blocks. by destruct (s_discard s). Qed.
Lemma give_layout bno len s : layout_of (give_blocks bno len s) = layout_of s.
Proof. unfold give_blocks, layout_of. by destruct (s_discard s). Qed.

(** A release keeps what lies outside its range. *)
Lemma put_blocks_busy L S bno len w : is_u32 bno -> is_u32 len ->
  (forall p, S p -> ~ bno <= p < bno + len) -> busy L S w -> wp (put_blocks bno len) (fun _ w' => busy L S w') w.
Proof.
  intros Hbu Hlu Hout Hb. pose proof Hb as (Hinv & HL & HS). pose proof Hinv as (Hg & _ & _ & _ & Hlock).
  destruct Hg as (Hnb & _).
  eapply wp_mono.
  { apply wp_conj; [apply put_blocks_spec; try done; unfold is_u32; lia|].
    apply (wp_pres (fun w => alloc_inv (w_sbi w))); [apply put_blocks_inv|done]. }
  intros _ w' [[_ Hr] Hinv']; cbn beta in *.
  assert (HD : forall s, drained (w_sbi w') s -> layout_of s = layout_of (w_sbi w) ->
    (forall p, 0 <= p -> ~ bno <= p < bno + len ->
       test_bit (bfree_bitmap s) p = test_bit (bfree_bitmap (w_sbi w)) p) -> busy L S w').
  { intros s (E1 & _ & E3 & _) Hl Hbit. split_and!; [done|unfold layout_of in *; rewrite E1; congruence|].
    intros p Hp. destruct (HS p Hp) as [H0 Hp0]. split; [done|]. rewrite E3, Hbit; auto. }
  destruct Hr as [[Hd _]|[Hm Hd]]; [by apply (HD (w_sbi w))|].
  apply (HD (give_blocks bno len (w_sbi w))); [done| |].
  - apply give_layout.
  - intros p Hp Hnot. destruct Hbu, Hlu. rewrite give_bits, bitmap_set_testbit by lia.
    bit_cases; try lia; by rewrite ?orb_false_r.
Qed.

Lemma put_blocks_keeps L S bno len : is_u32 bno -> is_u32 len ->
  (forall p, S p -> ~ bno <= p < bno + len) -> preserves (busy L S) (put_blocks bno len).
Proof. intros H1 H2 H3 w Hw. exact (put_blocks_busy L S bno len w H1 H2 H3 Hw). Qed.

Lemma retire_keeps L S bno : is_u32 bno -> ~ S bno ->
  preserves (busy L S) (simplefs_retire_metadata_blocks bno 1).
Proof.
  intros Hb Hn. assert (Hp : preserves (busy L S) (put_blocks bno 1)).
  { apply put_blocks_keeps; [done|done|]. intros p Hp ?. by replace p with bno in Hp by lia. }
  unfold simplefs_retire_metadata_blocks. repeat (pres_step || exact Hp).
Qed.

(** The leaf blocks [leaves] are distinct, outside [S], and in use with it. *)
Definition leaves_busy (L : Z * Z * Z * Z * Z) S (leaves : list Z) (w : world) : Prop :=
  busy L (fun p => S p \/ p ∈ leaves) w /\ NoDup leaves /\ Forall (fun p => is_u32 p /\ ~ S p) leaves.

Lemma leaves_busy_jstable L S leaves : JStable (leaves_busy L S leaves).
Proof.
  assert (Hv : forall w w', astate w' = astate w -> leaves_busy L S leaves w -> leaves_busy L S leaves w').
  { intros w w' H [H1 H2]. split; [by eapply busy_aeq|done]. }
  split; [split|]; [intros c _ w Hw|intros h n w _ Hw|intros g w Hw|intros w Hw|
    intros n v w Hw]; refine (Hv _ _ _ Hw); try done; by apply (kdo_view astate).
Qed.

Lemma leaves_busy_out L S leaves w : leaves_busy L S leaves w -> busy L S w.
Proof. intros [H _]. eapply busy_sub; [|exact H]. by left. Qed.

Lemma alloc_leaves_busy L S n : forall kept w, leaves_busy L S kept w ->
  wp (alloc_leaves n kept) (fun rl w' => leaves_busy L S (snd rl) w' /\
    exists new, snd rl = kept ++ new) w.
Proof.
  induction n as [|n IH]; intros kept w Hk; cbn [alloc_leaves].
  { kwp. split; [done|]. exists []. by rewrite app_nil_r. }
  apply wp_bind. pose proof Hk as (Hb & Hnd & Hall).
  eapply wp_mono; [apply (get_free_blocks_busy L (fun p => S p \/ p ∈ kept)); [unfold U32_MAX; lia|exact Hb]|].
  intros b w1 [B1 B2]; cbn beta in *. destruct (Z.eqb_spec b 0) as [->|Hne]; kwp.
  { split; [by split|]. exists []. by rewrite app_nil_r. }
  destruct (B2 Hne) as ((F1 & F2 & F3 & F4) & Hn & Hb2).
  assert (Hnb : ~ S b /\ b ∉ kept) by (split; intros ?; apply (Hn b); [lia|tauto|lia|tauto]).
  destruct Hb as ((( Hnr & _) & _) & _).
  eapply wp_mono; [apply (IH (kept ++ [b])); split_and!|].
  - eapply busy_sub; [|exact Hb2]. intros p [Hp|Hp]; [tauto|].
    apply elem_of_app in Hp as [Hp|Hp%list_elem_of_singleton]; [tauto|]. right. lia.
  - apply NoDup_app. split_and!; [done| |apply NoDup_singleton].
    intros x Hx ->%list_elem_of_singleton. by apply Hnb.
  - apply Forall_app. split; [done|]. constructor; [|done]. split; [unfold is_u32; lia|by apply Hnb].
  - intros [r leaves] w2 [H2 (new & E)]; cbn [snd] in *. subst leaves. split; [done|]. exists (b :: new).
    by rewrite <- app_assoc.
Qed.

Lemma sync_leaf_jpres I `{!JStable I} l o i leaf : preserves I (sync_leaf l o i leaf).
Proof. unfold sync_leaf. pres. Qed.
Lemma sync_leaves_jpres I `{!JStable I} l o lv : forall i c, preserves I (sync_leaves l o i lv c).
Proof.
  induction lv as [|x lv IH]; intros i c; cbn [sync_leaves]; [pres|].
  repeat first [apply sync_leaf_jpres; done|pres_step].
Qed.

(** What is left of the old leaves when the new tree has [n] of them. *)
Lemma sync_body_busy L S root buf n w : leaves_busy L S (eb_leaf_blocks buf) w ->
  wp (sync_body root buf n) (fun res w' => leaves_busy L S (snd (fst (fst res))) w') w.
Proof.
  intros (Hb & Hnd & Hall). unfold sync_body. set (old := eb_leaf_blocks buf) in *.
  set (k := Z.to_nat (Z.min (nr_leaf_blocks buf) n)). set (rest := drop (Z.to_nat n) old).
  set (S' := fun p => S p \/ p ∈ rest).
  assert (Hrest : forall p, p ∈ take k old -> p ∉ rest).
  { intros p Hp Hr. rewrite <- (take_drop k old) in Hnd. apply NoDup_app in Hnd as (_ & Hnd & _).
    apply (Hnd p Hp). unfold rest, k, nr_leaf_blocks, old in *.
    apply list_elem_of_lookup in Hr as [i Hi]. rewrite lookup_drop in Hi.
    pose proof (lookup_lt_Some _ _ _ Hi). apply (list_elem_of_lookup_2 _ (Z.to_nat n + i - Z.to_nat (Z.min (Z.of_nat (length (eb_leaf_blocks buf))) n))).
    rewrite lookup_drop, <- Hi. f_equal. lia. }
  apply wp_bind. eapply wp_mono; [apply (alloc_leaves_busy L S'); split_and!|].
  - eapply busy_sub; [|exact Hb]. intros p [[Hp|Hp]|Hp]; [by left|right|right].
    + apply list_elem_of_lookup in Hp as [i Hi]. unfold rest in Hi. rewrite lookup_drop in Hi. by eapply list_elem_of_lookup_2.
    + by apply elem_of_take in Hp as (i & Hi & _); eapply list_elem_of_lookup_2.
  - eapply sublist_NoDup; [exact Hnd|apply sublist_take].
  - apply Forall_forall. intros p Hp. rewrite Forall_forall in Hall.
    assert (p ∈ old) as Hpo by (by apply elem_of_take in Hp as (i & Hi & _); eapply list_elem_of_lookup_2).
    destruct (Hall p Hpo). split; [done|]. intros [?|?]; [done|]. by eapply Hrest.
  - intros [r leaves] w1 [Hl _]; cbn [snd] in Hl.
    assert (Hb1 : leaves_busy L S leaves w1).
    { destruct Hl as (B1 & B2 & B3). split_and!; [|done|].
      - eapply busy_sub; [|exact B1]. intros p [?|?]; [left; by left|by right].
      - eapply Forall_impl; [exact B3|]. intros p [? Hp]. split; [done|]. intros ?. apply Hp. by left. }
    assert (Hret : forall b, b ∈ rest -> preserves (leaves_busy L S leaves) (simplefs_retire_metadata_blocks b 1)).
    { intros b Hr. assert (b ∈ old) as Ho.
      { apply list_elem_of_lookup in Hr as [i Hi]. unfold rest in Hi. rewrite lookup_drop in Hi.
        by eapply list_elem_of_lookup_2. }
      rewrite Forall_forall in Hall. destruct (Hall b Ho) as [Hu Hns].
      intros w' [B1 B2]. split; [|done]. apply retire_keeps; [done| |done].
      intros [?|Hin]; [done|]. destruct Hl as (_ & _ & B3). rewrite Forall_forall in B3.
      destruct (B3 b Hin) as [_ H3]. apply H3. by right. }
    clear Hl Hb. pose proof (leaves_busy_jstable L S leaves) as HJ. revert w1 Hb1.
    match goal with |- forall w, _ -> wp ?m _ w =>
      assert (Hp : preserves (leaves_busy L S leaves) m);
      [|assert (Ha : always (fun res => snd (fst (fst res)) = leaves) m) by (always; done)] end.
    { unfold simplefs_writeback_metadata_block.
      repeat lazymatch goal with
      | |- preserves _ (for_list rest _) =>
          apply preserves_for_list_in; intros ? ?; apply Hret; by apply list_elem_of_In
      | |- preserves _ (sync_leaves _ _ _ _ _) => by apply sync_leaves_jpres
      | |- _ => pres_step end. }
    intros w1 H1. unfold wp. rewrite Ha. by apply Hp.
Qed.

(** Writing the tree back keeps every block of [S] in use on every path; when it
    succeeds the blocks it leaves in the buffer are the tree's leaves. *)
Lemma sync_extents_busy L S ino buf w : leaves_busy L S (eb_leaf_blocks buf) w ->
  wp (simplefs_file_sync_extents ino buf) (fun rb w' => busy L S w' /\
    (fst rb = 0 -> leaves_busy L S (eb_leaf_blocks (snd rb)) w')) w.
Proof.
  intros Hw. pose proof (leaves_busy_jstable L S (eb_leaf_blocks buf)) as HJ.
  unfold simplefs_file_sync_extents. set (nb := simplefs_file_normalize_extents buf).
  change (eb_leaf_blocks buf) with (eb_leaf_blocks nb) in *.
  assert (Hstop : forall e w', e <> 0 -> leaves_busy L S (eb_leaf_blocks nb) w' ->
    busy L S w' /\ (fst (e, nb) = 0 -> leaves_busy L S (eb_leaf_blocks (snd (e, nb))) w')).
  { intros e w' He H. split; [by eapply leaves_busy_out|done]. }
  destruct (SIMPLEFS_MAX_FILE_EXTENTS <? _); [apply wp_ret; by apply Hstop|].
  apply wp_bind. eapply wp_mono; [apply (wp_pres (leaves_busy L S (eb_leaf_blocks nb))); [pres|done]|].
  intros ok w1 H1; cbn beta in H1. destruct (negb ok); [apply wp_ret; by apply Hstop|].
  apply wp_bind. eapply wp_mono; [apply wp_conj; [apply start_sb_err|apply (wp_pres (leaves_busy L S (eb_leaf_blocks nb))); [pres|done]]|].
  intros hd w2 [He H2]; cbn beta in *.
  destruct (HANDLE_IS_ERR hd) eqn:Eh; [apply wp_ret; apply Hstop; [destruct hd; cbn in *; lia|done]|].
  apply wp_bind, wp_gets. apply wp_bind. eapply wp_mono; [by apply (sync_body_busy L S)|].
  intros [[[r leaves] changed] ru] w3 H3; cbn [fst snd] in H3.
  pose proof (leaves_busy_jstable L S leaves) as HJ3.
  destruct (Z.eqb_spec r 0) as [->|Hr].
  - kwp. cbn [negb andb when]. kwp. eapply wp_mono.
    { apply (wp_pres (leaves_busy L S leaves)); [pres|]. exact H3. }
    intros st w5 H5; cbn beta in H5. kwp. split; [by eapply leaves_busy_out|]. intros _. exact H5.
  - apply wp_bind, wp_ret. cbn [negb andb]. apply wp_bind.
    eapply wp_mono; [apply (wp_pres (leaves_busy L S leaves)); [pres|done]|].
    intros u4 w4 H4; cbn beta in H4. pose proof (busy_jstable L S) as HB. apply wp_bind.
    eapply wp_mono; [apply (wp_pres (busy L S)); [|by eapply leaves_busy_out]|].
    + apply preserves_when, preserves_each_list_in. intros b Hb. destruct H4 as (_ & _ & H4).
      rewrite Forall_forall in H4. destruct (H4 b) as [Hu Hn].
      { apply list_elem_of_In, list_elem_of_lookup in Hb as [i Hi]. rewrite lookup_drop in Hi.
        by eapply list_elem_of_lookup_2. }
      pose proof (retire_keeps L S b Hu Hn). pres.
    + intros u5 w5 H5; cbn beta in H5. apply wp_bind.
      eapply wp_mono; [apply (wp_pres (busy L S)); [pres|done]|]. intros st w6 H6. kwp. by split.
Qed.

(** ** A list of releases *)

(** Blocks that are free stay free, whatever is released. *)
Lemma put_blocks_free p bno len :
  preserves (fun w => alloc_inv (w_sbi w) /\ 0 <= p /\ test_bit (bfree_bitmap (w_sbi w)) p = true)
    (put_blocks bno len).
Proof.
  rewrite put_blocks_u32. intros w (Hinv & H0 & Hp). pose proof Hinv as ((Hnb & _) & _ & _ & _ & Hlock).
  pose proof (u32_range bno) as Hb. pose proof (u32_range len) as Hl.
  pose proof (put_blocks_inv (u32 bno) (u32 len) w Hinv) as Hinv'.
  destruct (put_blocks_spec (u32 bno) (u32 len) w Hb Hl ltac:(unfold is_u32; lia) Hlock) as [_ Hd].
  split_and!; try done. destruct Hd as [[(_ & _ & -> & _) _]|[_ (_ & _ & -> & _)]]; [done|]. destruct Hb, Hl. rewrite give_bits, bitmap_set_testbit by lia. rewrite Hp. by rewrite ?orb_true_r.
Qed.

(** A range the allocator gives out: inside the device, behind the metadata. *)
Definition range_ok (s : sb_info) (r : Z * Z) : Prop :=
  root_dir_block s < fst r /\ 0 < snd r /\ fst r + snd r <= nr_blocks s.

Definition range_of (r : Z * Z) (p : Z) : Prop := fst r <= p < fst r + snd r.

Lemma put_range_frees r w :
  alloc_inv (w_sbi w) -> s_journal (w_sbi w) = None -> range_ok (w_sbi w) r ->
  (forall p, range_of r p -> test_bit (bfree_bitmap (w_sbi w)) p = false) ->
  wp (put_blocks (fst r) (snd r)) (fun _ w' => s_shutdown (w_sbi w') = true \/
    forall p, range_of r p -> test_bit (bfree_bitmap (w_sbi w')) p = true) w.
Proof.
  intros Hinv Hj (R1 & R2 & R3) Hc. pose proof Hinv as ((Hnb & _) & _ & _ & _ & Hlock).
  assert (Hroot : 0 <= root_dir_block (w_sbi w)) by apply u32_range.
  assert (Hm : may_free (w_sbi w) (fst r) (snd r) = true).
  { unfold may_free, bad_block_range. unfold U32_MAX in *.
    rewrite (proj2 (none_setb_spec _ _ _)) by (intros k Hk; by apply Hc).
    destruct (Z.eqb_spec (fst r) 0), (Z.eqb_spec (snd r) 0), (Z.leb_spec (nr_blocks (w_sbi w)) (fst r)),
      (Z.ltb_spec (nr_blocks (w_sbi w) - fst r) (snd r)), (Z.leb_spec (fst r) (root_dir_block (w_sbi w)));
      cbn; try lia; done. }
  eapply wp_mono.
  { apply wp_conj; [apply put_blocks_spec; try done; unfold is_u32, U32_MAX in *; lia|].
    apply (wp_latch (fun w => s_shutdown (w_sbi w) = true)). pres. }
  intros u w' [[_ Hr] Hlatch]; cbn beta in *. destruct Hr as [[_ [H|[H|H]]]|[_ (_ & _ & E3 & _)]].
  - congruence.
  - left. by apply Hlatch.
  - rewrite Hj in H. done.
  - right. intros p Hp. unfold range_of in Hp. rewrite E3, give_bits, bitmap_set_testbit by lia.
    bit_cases; try lia; apply orb_true_r.
Qed.

(** The ranges of [fr] do not overlap. *)
Definition ranges_apart (fr : list (Z * Z)) : Prop :=
  ForallOrdPairs (fun a b => forall p, range_of a p -> ~ range_of b p) fr.

Definition put_all (fr : list (Z * Z)) : M unit := each_list fr (fun r => put_blocks (fst r) (snd r)).

Lemma put_all_keeps L S fr :
  Forall (fun r => is_u32 (fst r) /\ is_u32 (snd r) /\ forall p, S p -> ~ range_of r p) fr ->
  preserves (busy L S) (put_all fr).
Proof.
  intros H. apply preserves_each_list_in. intros r Hr. rewrite Forall_forall in H.
  destruct (H r) as (H1 & H2 & H3); [by apply list_elem_of_In|]. by apply put_blocks_keeps.
Qed.

Lemma put_all_frees fr : forall w,
  alloc_inv (w_sbi w) -> s_journal (w_sbi w) = None -> Forall (range_ok (w_sbi w)) fr -> ranges_apart fr ->
  (forall r p, In r fr -> range_of r p -> test_bit (bfree_bitmap (w_sbi w)) p = false) ->
  wp (put_all fr) (fun _ w' => s_shutdown (w_sbi w') = true \/
    forall r p, In r fr -> range_of r p -> test_bit (bfree_bitmap (w_sbi w')) p = true) w.
Proof.
  induction fr as [|r fr IH]; intros w Hinv Hj Hok Hap Hc; cbn [put_all each_list].
  { apply wp_ret. right. by intros r p []. }
  apply Forall_cons in Hok as [Hr Hok]. inversion Hap as [|? ? Hd Hap']; subst.
  set (S := fun p => exists r', In r' fr /\ range_of r' p).
  assert (Hroot : 0 <= root_dir_block (w_sbi w)) by apply u32_range.
  assert (Hb : busy (layout_of (w_sbi w)) S w).
  { split_and!; [done|done|]. intros p (r' & Hin & Hp). split; [|by apply (Hc r'); [right|]].
    rewrite Forall_forall in Hok. destruct (Hok r') as (? & _); [by apply list_elem_of_In|]. unfold range_of in Hp. lia. }
  pose proof Hr as (R1 & R2 & R3). pose proof Hinv as ((Hnb & _) & _).
  apply wp_bind. eapply wp_mono.
  { apply wp_conj; [apply put_range_frees; try done; intros p; apply Hc; by left|].
    apply wp_conj; [apply (put_blocks_busy (layout_of (w_sbi w)) S); [unfold is_u32; lia|unfold is_u32; lia| |done]|].
    - intros p (r' & Hin & Hp) Hp'. rewrite Forall_forall in Hd. by apply (Hd r') in Hp'; [|apply list_elem_of_In].
    - apply (wp_pres (fun w => s_journal (w_sbi w) = None)); [pres|done]. }
  intros u w1 (Hfree & Hb1 & Hj1); cbn beta in *. pose proof Hb1 as (Hinv1 & HL1 & HS1).
  destruct Hfree as [Hs|Hfree].
  { eapply wp_mono; [apply (wp_pres (fun w => s_shutdown (w_sbi w) = true)); [unfold put_all; pres|done]|].
    intros u' w' H. by left. }
  eapply wp_mono.
  { apply wp_conj; [apply IH; try done|].
    - eapply Forall_impl; [exact Hok|]. intros x (X1 & X2 & X3). unfold range_ok.
      rewrite (root_dir_layout _ _ HL1). split_and!; [done|done|].
      unfold layout_of in HL1. by injection HL1 as -> _ _ _ _.
    - intros r' p Hin Hp. apply HS1. by exists r'.
    - apply (wp_all _ (fun p _ w' => range_of r p -> test_bit (bfree_bitmap (w_sbi w')) p = true)).
      intros p. destruct (decide (range_of r p)) as [Hp|Hp]; [|by apply (wp_mono _ (fun _ _ => True))].
      eapply wp_mono.
      + apply (wp_pres (fun w => alloc_inv (w_sbi w) /\ 0 <= p /\ test_bit (bfree_bitmap (w_sbi w)) p = true)).
        * apply preserves_each_list. intros x. apply put_blocks_free.
        * split_and!; [done|unfold range_of in Hp; lia|by apply Hfree].
      + intros u' w' (_ & _ & H) _. exact H. }
  intros u' w' [[Hs|Ht] Hh]; cbn beta in *; [by left|right].
  intros r' p [<-|Hin] Hp; [by apply Hh|by apply (Ht r')].
Qed.
End Busy.

(** ** A file and its blocks *)

Lemma chain_lower l : forall lo lo', lo' <= lo -> chain lo l -> chain lo' l.
Proof.
  induction l as [|e l IH]; intros lo lo' Hle; cbn [chain]; [done|].
  destruct (simplefs_extent_is_empty e); [by apply IH|]. intros [? ?]. split; [lia|done].
Qed.
Lemma chain_nonempty lo e l : nonempty e ->
  chain lo (e :: l) <-> lo <= ee_block e /\ chain (ee_block e + simplefs_ext_len e) l.
Proof. unfold nonempty. cbn [chain]. by intros ->. Qed.

Lemma chain_pairs l : forall lo, chain lo l ->
  Forall (fun e => nonempty e -> lo <= ee_block e) l /\ ForallOrdPairs disj l.
Proof.
  induction l as [|e l IH]; intros lo Hc; [split; constructor|]. cbn [chain] in Hc.
  destruct (simplefs_extent_is_empty e) eqn:E.
  - destruct (IH _ Hc) as [H1 H2]. split; constructor; try done; [unfold nonempty; congruence|].
    eapply Forall_impl; [done|]. intros x _. by left.
  - destruct Hc as [Hlo Hc]. destruct (IH _ Hc) as [H1 H2]. pose proof (ext_len_bounds e) as Hb.
    split; constructor; try done.
    + eapply Forall_impl; [done|]. cbn beta. intros x Hx Hn. specialize (Hx Hn). lia.
    + eapply Forall_impl; [done|]. cbn beta. intros x Hx. unfold disj.
      destruct (simplefs_extent_is_empty x) eqn:Ex; [by right; left|]. right. right. left. by apply Hx.
Qed.

Section File.
Context {K : Kernel}.

(** The blocks a file's operations must not lose: the metadata area with the root
    directory's block, the root of the tree, and what the extents map. *)
Definition file_blocks (s : sb_info) (root : Z) (l : list extent) (p : Z) : Prop :=
  0 <= p <= root_dir_block s \/ p = root \/ exists b u, maps l b p u.

(** The invariant of a regular file: [l] is what its tree holds, in order and
    disjoint, [leaves] are the tree's leaf blocks, every block is in use, behind
    the root directory's block and inside the device, and no block is mapped twice. *)
Record file_ok (w : world) (ino : Z) (l : list extent) (leaves : list Z) : Prop := FileOk {
  fo_tree : tree_holds w (ei_block (inode_of w ino)) l leaves;
  fo_wf : wf_extents l;
  fo_u32 : Forall ext_u32 l;
  fo_len : Z.of_nat (length l) <= SIMPLEFS_MAX_FILE_EXTENTS;
  fo_layout : layout_ok (w_sbi w);
  fo_busy : leaves_busy (layout_of (w_sbi w)) (file_blocks (w_sbi w) (ei_block (inode_of w ino)) l) leaves w;
  fo_root : is_u32 (ei_block (inode_of w ino)) /\ root_dir_block (w_sbi w) < ei_block (inode_of w ino);
  fo_data : forall b p u, maps l b p u ->
    root_dir_block (w_sbi w) < p < nr_blocks (w_sbi w) /\ p <> ei_block (inode_of w ino);
  fo_inj : forall b b' p u u', maps l b p u -> maps l b' p u' -> b = b'
}.

(** The part of the state the invariant looks at. *)
Definition file_view (w : world) := (astate w, w_bdev w, w_inodes w).

Lemma file_ok_view w w' ino l leaves : file_view w' = file_view w -> file_ok w ino l leaves -> file_ok w' ino l leaves.
Proof.
  intros E [F1 F2 F3 F4 F5 F6 F7 F8 F9].
  assert (Ha' : aeq (w_sbi w') (w_sbi w)) by exact (f_equal (fun x => x.1.1) E).
  assert (Hb : w_bdev w' = w_bdev w) by exact (f_equal (fun x => x.1.2) E).
  assert (Hi : w_inodes w' = w_inodes w) by exact (f_equal (fun x => x.2) E).
  pose proof (astate_inv _ _ Ha') as (E1 & _).
  assert (HL : layout_of (w_sbi w') = layout_of (w_sbi w)) by (unfold layout_of; by rewrite E1).
  assert (HR : root_dir_block (w_sbi w') = root_dir_block (w_sbi w)) by (by apply root_dir_layout).
  assert (HN : nr_blocks (w_sbi w') = nr_blocks (w_sbi w)) by (by rewrite E1).
  assert (HI : inode_of w' ino = inode_of w ino) by (unfold inode_of; by rewrite Hi).
  constructor; rewrite ?HI, ?HL, ?HR, ?HN; try done.
  - destruct F1 as (T1 & T2 & T3). unfold tree_holds, block_image in *. by rewrite Hb.
  - by eapply layout_ok_eq.
  - destruct F6 as [B1 B2]. split.
    + eapply busy_aeq; [done|]. eapply busy_sub; [|exact B1]. unfold file_blocks. by rewrite HR.
    + destruct B2 as [B2 B3]. split; [done|]. unfold file_blocks in *. by rewrite HR.
Qed.

#[export] Instance file_view_kstable v : KStable (fun w => file_view w = v).
Proof.
  split; [intros c _ w Hw|intros h n w _ Hw|intros g w Hw|intros w Hw]; try exact Hw;
    by rewrite (kdo_view file_view).
Qed.

(** Calls of the environment and of the journal adapter keep it. *)
#[export] Instance file_ok_kstable ino l leaves : KStable (fun w => file_ok w ino l leaves).
Proof.
  split; [intros c _ w Hw|intros h n w _ Hw|intros g w Hw|intros w Hw]; (eapply file_ok_view; [|exact Hw]); try done;
    by rewrite (kdo_view file_view).
Qed.

(** Writing the tree back keeps what survives the allocator and a change of [i_blocks]. *)
Lemma sync_extents_ipres (I : world -> Prop) `{!BStable I} ino buf :
  (forall v, preserves I (upd_inode ino (fun i => set_i_blocks (v i) i))) ->
  preserves I (simplefs_file_sync_extents ino buf).
Proof.
  intros H. unfold simplefs_file_sync_extents. repeat first [by apply sync_body_apres|apply H|pres_step].
Qed.

(** Extents [x] that can be written back as the mapping of [ino], while the blocks
    of [S] and the old [leaves] are in use. *)
Record writable (w : world) (ino : Z) (S : Z -> Prop) (x : list extent) (leaves : list Z) : Prop := Writable {
  wr_layout : layout_ok (w_sbi w);
  wr_busy : leaves_busy (layout_of (w_sbi w)) S leaves w;
  wr_sub : forall p, file_blocks (w_sbi w) (ei_block (inode_of w ino)) x p -> S p;
  wr_root : is_u32 (ei_block (inode_of w ino)) /\ root_dir_block (w_sbi w) < ei_block (inode_of w ino);
  wr_data : forall b p u, maps x b p u ->
    root_dir_block (w_sbi w) < p < nr_blocks (w_sbi w) /\ p <> ei_block (inode_of w ino);
  wr_inj : forall b b' p u u', maps x b p u -> maps x b' p u' -> b = b';
  wr_ok : Forall ext_ok x;
  wr_u32 : Forall ext_u32 x;
  wr_disj : ForallOrdPairs disj x
}.

Lemma writable_sync w ino S x leaves : writable w ino S x leaves ->
  sync_ok (w_sbi w) (ei_block (inode_of w ino) :: leaves).
Proof.
  intros [W1 W2 W3 W4 _ _ _ _ _]. destruct W2 as ((Hinv & _ & HS) & Hnd & Hall). destruct W4 as [R1 R2].
  set (root := ei_block (inode_of w ino)) in *. split_and!; [done|done| | |].
  - intros k Hk. apply HS. left. apply W3. left. lia.
  - constructor.
    + split_and!; [done|lia|]. apply HS. left. apply W3. right. by left.
    + apply Forall_forall. intros p Hp. rewrite Forall_forall in Hall. destruct (Hall p Hp) as [Hu Hn].
      split_and!; [done| |apply HS; by right].
      destruct (Z_le_gt_dec p (root_dir_block (w_sbi w))); [|lia]. destruct Hn. apply W3. left. destruct Hu. lia.
  - apply NoDup_cons. split; [|done]. intros Hin. rewrite Forall_forall in Hall.
    destruct (Hall root Hin) as [_ Hn]. apply Hn, W3. right. by left.
Qed.

Lemma sync_writes ino S buf w : writable w ino S (eb_extents buf) (eb_leaf_blocks buf) ->
  let L := layout_of (w_sbi w) in
  wp (simplefs_file_sync_extents ino buf) (fun rb w' => busy L S w' /\
    (fst rb = 0 -> let l' := normalize (eb_extents buf) in exists leaves',
       file_ok w' ino l' leaves' /\ leaves_busy L S leaves' w' /\
       ei_block (inode_of w' ino) = ei_block (inode_of w ino))) w.
Proof.
  intros Hw L. pose proof (writable_sync _ _ _ _ _ Hw) as Hsync. destruct Hw as [W1 W2 W3 W4 W5 W6 W7 W8 W9].
  set (root := ei_block (inode_of w ino)) in *. set (x := eb_extents buf) in *.
  eapply wp_mono.
  { apply wp_conj; [apply sync_extents_spec; [exact Hsync|exact W8]|].
    apply wp_conj; [apply (sync_extents_busy L S); exact W2|].
    apply (wp_pres (fun w => ei_block (inode_of w ino) = root)); [|done].
    apply sync_extents_ipres; [apply astable_bstable, (inodes_astable (fun m => ei_block (default default_inode (m !! ino)) = root))|].
    intros v w' Hw'. unfold upd_inode, modify, inode_of in *. cbn. by rewrite lookup_insert_eq. }
  intros [r b'] w' (Hs & (Hb & Hlb) & Hroot); cbn [fst snd] in *. split; [done|]. intros Hr.
  destruct (Hs Hr) as (E1 & E2 & Ht). specialize (Hlb Hr).
  destruct (normalize_spec x W7) as (N1 & N2 & _ & N4 & N5).
  exists (eb_leaf_blocks b'). split_and!; try done. rewrite E1 in Ht.
  assert (HL : layout_of (w_sbi w') = layout_of (w_sbi w)) by apply Hb.
  pose proof (root_dir_layout _ _ HL) as HR.
  assert (HN : nr_blocks (w_sbi w') = nr_blocks (w_sbi w)) by (unfold layout_of in HL; by injection HL).
  assert (HF : forall p, file_blocks (w_sbi w') root (normalize x) p -> S p).
  { intros p Hp. apply W3. unfold file_blocks in *. rewrite HR in Hp.
    destruct Hp as [?|[?|(b & u & Hp)]]; [by left|right; by left|right; right]. exists b, u. by apply N4. }
  constructor; rewrite ?Hroot, ?HR, ?HN, ?HL; try done.
  - split_and!; [by apply N5|done..].
  - by apply normalize_u32.
  - unfold nr_extents in E2. by rewrite E1 in E2.
  - by eapply layout_ok_eq.
  - destruct Hlb as (B1 & B2 & B3). split_and!; [|done|].
    + eapply busy_sub; [|exact B1]. intros p [Hp|Hp]; [left; by apply HF|by right].
    + eapply Forall_impl; [exact B3|]. intros p [? Hn]. split; [done|]. intros Hp. by apply Hn, HF.
  - intros b p u Hp. apply N4 in Hp. by eapply W5.
  - intros b c p u u' Hp Hc. apply N4 in Hp, Hc. by eapply W6.
Qed.

Lemma file_ok_writable w ino l leaves : file_ok w ino l leaves ->
  writable w ino (file_blocks (w_sbi w) (ei_block (inode_of w ino)) l) l leaves.
Proof.
  intros [F1 (F2 & F2' & F2'') F3 F4 F5 F6 F7 F8 F9]. constructor; try done.
  by apply (chain_pairs l 0).
Qed.
End File.
