(* ===== verification/Errno.v ===== *)
(** * Errno: the sign of error codes

    Several callers tell an error from a count by its sign.  The kernel calls whose
    results the file system passes on are documented to return 0 or a negative
    code; from that the sign of every code of the extent tree follows. *)

From stdpp Require Import base list numbers gmap.
From S2P Require Import Prelude Image Layout Kernel DiskFormat Discard Journal MetaBuf.
From S2P Require Import Alloc Retire ExtentBuf ExtentTree Owned.

Local Open Scope Z_scope.
Local Open Scope fs_scope.

(** The calls whose result is 0 or a negative error number. *)
Definition err_call (c : kcall) : bool :=
  match c with
  | FilemapWriteAndWait _ _ | InvalidatePages _ _ | BlkdevIssueZeroout _ _
  | Jbd2Stop _ | Jbd2GetWriteAccess _ _ | Jbd2DirtyMetadata _ _ | Jbd2Revoke _ _ | FileModified _ => true
  | _ => false
  end.

Class Errno {K : Kernel} : Prop := errno_call : forall k c, err_call c = true -> fst (kstep k c) <= 0.

Lemma always_seq {S A B} (Q : A -> Prop) (P : B -> Prop) (m : ST S A) (k : A -> ST S B) :
  always Q m -> (forall a, Q a -> always P (k a)) -> always P (bind m k).
Proof. intros H1 H2 s. unfold bind. specialize (H1 s). destruct (m s) as [a s']. by apply H2. Qed.

Lemma wp_always {S A} (P : A -> Prop) (m : ST S A) s : always P m -> wp m (fun a _ => P a) s.
Proof. intros H. exact (H s). Qed.

(** Follow the code; keep the codes that are passed on. *)
Create HintDb err discriminated.
Ltac err_step :=
  match goal with
  | |- always _ (ret _) => apply always_ret; cbn [fst HANDLE_PTR_ERR]; try (done || lia)
  | |- always _ (if IS_ERR ?r then _ else _) => let H := fresh in destruct (IS_ERR r) eqn:H; unfold IS_ERR in H; [apply Z.ltb_lt in H|]
  | |- always _ (if ?b then _ else _) => destruct b
  | |- always _ (bind ?m ?k) => first [
      eapply always_seq; [solve [eauto 3 with err]|]; intros ? ?
    | apply always_bind; intros ?]
  | |- always _ (match ?x with _ => _ end) => destruct x
  | |- always _ _ => solve [eauto 3 with err]
  end.
Ltac errs := repeat err_step; try (done || lia).

Section Errno.
Context {K : Kernel} {HE : Errno}.

(** Never positive: what a code, the code of a pair or of an error handle is. *)
Abbreviation err := (always (S := world) (fun r : Z => r <= 0)).
Abbreviation err1 := (always (S := world) (fun r => fst r <= 0)).
Abbreviation herr := (always (S := world) (fun h : handle => HANDLE_PTR_ERR h <= 0)).

Lemma err_kdo c : err_call c = true -> err (kdo c).
Proof. intros Hc w. unfold kdo. pose proof (errno_call (w_kernel w) c Hc). by destruct (kstep _ c). Qed.

Lemma err_for_z n body : (forall i, err (body i)) -> forall i, err (for_z n i body).
Proof.
  intros H. induction n as [|n IH]; intros i; cbn [for_z]; [by apply always_ret|].
  eapply always_seq; [apply H|]. intros r Hr. destruct (r =? 0); [apply IH|by apply always_ret].
Qed.
Lemma err_for_list {A} (l : list A) body : (forall x, err (body x)) -> err (for_list l body).
Proof.
  intros H. induction l as [|x l IH]; cbn [for_list]; [by apply always_ret|].
  eapply always_seq; [apply H|]. intros r Hr. destruct (r =? 0); [apply IH|by apply always_ret].
Qed.

Local Hint Extern 2 (always _ (if ?b then _ else _)) => (destruct b) : err.
Local Hint Extern 2 (always (fun _ => _) (ret _)) => (apply always_ret; cbn; done) : err.
Local Hint Extern 1 (always _ (kdo _)) => (apply err_kdo; reflexivity) : err.

Lemma err_start_internal n : herr (simplefs_journal_start_internal n).
Proof. unfold simplefs_journal_start_internal. errs. Qed.
Local Hint Resolve err_start_internal : err.
Lemma err_start_sb n : herr (simplefs_journal_start_sb n).
Proof. unfold simplefs_journal_start_sb. errs. Qed.
Lemma err_start n : herr (simplefs_journal_start n).
Proof. unfold simplefs_journal_start. apply err_start_internal. Qed.
Lemma err_stop h : err (simplefs_journal_stop h).
Proof. unfold simplefs_journal_stop. errs. Qed.
Lemma err_jbd2_dirty h n d f : err (simplefs_jbd2_dirty h n d f).
Proof. unfold simplefs_jbd2_dirty. errs. Qed.
Local Hint Resolve err_start_sb err_start err_stop err_jbd2_dirty : err.
Lemma err_dirty_folio n f : err (simplefs_journal_dirty_folio n f).
Proof. unfold simplefs_journal_dirty_folio. errs. Qed.
Lemma err_zero_current n : err (simplefs_journal_zero_current n).
Proof. unfold simplefs_journal_zero_current. errs. Qed.
Lemma err_forget n : err (simplefs_journal_forget_current n).
Proof. unfold simplefs_journal_forget_current. errs. Qed.
Local Hint Resolve err_dirty_folio err_zero_current err_forget : err.
Lemma err_zeroed_folio n : err (simplefs_get_zeroed_folio n).
Proof. unfold simplefs_get_zeroed_folio. errs. Qed.
Lemma err_writeback n : err (simplefs_writeback_metadata_block n).
Proof. unfold simplefs_writeback_metadata_block. errs. Qed.
Local Hint Resolve err_zeroed_folio err_writeback err_for_z err_for_list : err.
Lemma err_retire n len : err (simplefs_retire_metadata_blocks n len).
Proof. unfold simplefs_retire_metadata_blocks. errs. Qed.
Local Hint Resolve err_retire : err.
Lemma err_alloc_leaves n : forall l, err1 (alloc_leaves n l).
Proof. induction n as [|n IH]; intros l; cbn [alloc_leaves]; errs. Qed.
Local Hint Resolve err_alloc_leaves : err.
Lemma err_sync_leaf l o i leaf : err1 (sync_leaf l o i leaf).
Proof.
  unfold sync_leaf. apply (always_seq (fun r => match r with inl e => e <= 0 | inr _ => True end)); [errs|].
  intros [e|[]] He; errs.
Qed.
Local Hint Resolve err_sync_leaf : err.
Lemma err_sync_leaves l o lv : forall i c, err1 (sync_leaves l o i lv c).
Proof. induction lv as [|leaf lv IH]; intros i c; cbn [sync_leaves]; errs. Qed.
Local Hint Resolve err_sync_leaves : err.
Lemma err_sync_body root buf n : always (fun r => fst (fst (fst r)) <= 0) (sync_body root buf n).
Proof. unfold sync_body. errs. Qed.
Local Hint Resolve err_sync_body : err.

Lemma err_sync_extents ino buf : err1 (simplefs_file_sync_extents ino buf).
Proof. unfold simplefs_file_sync_extents. errs. cbn in *. by destruct (z =? 0). Qed.
End Errno.

#[export] Hint Resolve err_sync_extents : err.
#[export] Hint Extern 2 (always _ (if ?b then _ else _)) => (destruct b) : err.
#[export] Hint Extern 2 (always (fun _ => _) (ret _)) => (apply always_ret; cbn; done) : err.
#[export] Hint Extern 1 (always _ (kdo _)) => (apply err_kdo; reflexivity) : err.
