(* ===== verification/InodeTable.v ===== *)
(** * InodeTable: reading and writing inode records

    Models [simplefs_write_inode], [simplefs_persist_inode],
    [simplefs_clear_disk_inode] and [simplefs_alloc_inode] of simplefs_super.c,
    [simplefs_iget], [simplefs_set_inode_flags] and the attribute handlers of
    simplefs_inode.c.  An in-core inode is the entry of [w_inodes] under its
    number; a record of the table is 104 bytes of the image of its block. *)

From stdpp Require Import base list numbers gmap.
From S2P Require Import Prelude Image Layout Kernel DiskFormat Discard Journal MetaBuf.
From S2P Require Import Alloc Retire.

Local Open Scope Z_scope.
Local Open Scope fs_scope.

(** ** File types and attribute flags *)

Definition S_IFMT : Z := 61440.
Definition S_IFDIR : Z := 16384.
Definition S_ISDIR (m : Z) : bool := Z.land m S_IFMT =? S_IFDIR.
Definition S_ISREG (m : Z) : bool := Z.land m S_IFMT =? 32768.
Definition S_ISLNK (m : Z) : bool := Z.land m S_IFMT =? 40960.
Definition S_ISCHR (m : Z) : bool := Z.land m S_IFMT =? 8192.
Definition S_ISBLK (m : Z) : bool := Z.land m S_IFMT =? 24576.
Definition S_ISFIFO (m : Z) : bool := Z.land m S_IFMT =? 4096.
Definition S_ISSOCK (m : Z) : bool := Z.land m S_IFMT =? 49152.

Definition FS_SYNC_FL : Z := 8.
Definition FS_IMMUTABLE_FL : Z := 16.
Definition FS_APPEND_FL : Z := 32.
Definition FS_NODUMP_FL : Z := 64.
Definition FS_NOATIME_FL : Z := 128.
Definition FS_DIRSYNC_FL : Z := 65536.
Definition S_SYNC : Z := 1.
Definition S_NOATIME : Z := 2.
Definition S_APPEND : Z := 4.
Definition S_IMMUTABLE : Z := 8.
Definition S_DIRSYNC : Z := 64.

Definition SIMPLEFS_FL_USER_VISIBLE : Z :=
  Z.lor FS_IMMUTABLE_FL (Z.lor FS_APPEND_FL (Z.lor FS_NOATIME_FL (Z.lor FS_SYNC_FL
    (Z.lor FS_DIRSYNC_FL FS_NODUMP_FL)))).
Definition SIMPLEFS_FL_USER_MODIFIABLE : Z := SIMPLEFS_FL_USER_VISIBLE.

(** [if (flags & from) inode->i_flags |= to] *)
Definition flag_if (flags from to v : Z) : Z :=
  if Z.land flags from =? 0 then v else Z.lor v to.

Definition simplefs_set_inode_flags (i : inode) : inode :=
  let flags := i_flags i in
  let v := Z.ldiff (i_vfs_flags i)
             (Z.lor S_IMMUTABLE (Z.lor S_APPEND (Z.lor S_SYNC (Z.lor S_DIRSYNC S_NOATIME)))) in
  set_i_vfs_flags
    (flag_if flags FS_NOATIME_FL S_NOATIME
      (flag_if flags FS_DIRSYNC_FL S_DIRSYNC
        (flag_if flags FS_SYNC_FL S_SYNC
          (flag_if flags FS_APPEND_FL S_APPEND
            (flag_if flags FS_IMMUTABLE_FL S_IMMUTABLE v))))) i.

(** ** The place of a record *)

Definition inode_block (ino : Z) : Z := u32 (ino / SIMPLEFS_INODES_PER_BLOCK + 1).
Definition inode_shift (ino : Z) : Z := ino mod SIMPLEFS_INODES_PER_BLOCK.
Definition inode_off (ino : Z) : Z := inode_shift ino * sizeof_simplefs_inode.

Section Codec.
Context {K : Kernel}.

(** The assignments of [simplefs_write_inode]; a device node overwrites only the
    first word of [i_data], whose old bytes are [old]. *)
Definition disk_of_inode (i : inode) (old : Z) : disk_inode :=
  DiskInode (u32 (i_mode i)) (u32 (i_uid i)) (u32 (i_gid i)) (u32 (i_size i))
    (u32 (s32 (i_ctime i))) (u32 (s32 (i_atime i))) (u32 (s32 (i_mtime i)))
    (u32 (i_ctime_nsec i)) (u32 (i_atime_nsec i)) (u32 (i_mtime_nsec i))
    (u32 (simplefs_sectors_to_blocks (i_blocks i))) (u32 (i_nlink i)) (u32 (ei_block i))
    (u32 (i_xattr_block i)) (u32 (i_generation i)) (u32 (i_flags i))
    (u32 (s32 (i_crtime i))) (u32 (i_crtime_nsec i))
    (if S_ISCHR (i_mode i) || S_ISBLK (i_mode i)
     then put_u32 old 0 (u32 (old_encode_dev (i_rdev i))) else get_bytes (i_data i) 0 32).

(** The assignments of [simplefs_iget] to the new object [fresh]; [umode_t] has
    16 bits. *)
Definition inode_of_disk (fresh : inode) (ino : Z) (d : disk_inode) : inode :=
  let mode := d_mode d mod 65536 in
  let i := Inode ino mode (d_uid d) (d_gid d) (d_size d)
    (s32 (d_ctime d)) (d_ctime_nsec d) (s32 (d_atime d)) (d_atime_nsec d)
    (s32 (d_mtime d)) (d_mtime_nsec d) (simplefs_blocks_to_sectors (d_blocks d))
    (d_nlink d) (d_generation d) 0 (i_vfs_flags fresh) (ei_block fresh) (d_xattr_block d)
    (d_flags d) (s32 (d_crtime d)) (d_crtime_nsec d) (i_data fresh) 0 0 (i_dir_index fresh) in
  let i := simplefs_set_inode_flags i in
  if S_ISDIR mode then set_i_data (d_data d) (set_ei_block (d_ei_block d) i)
  else if S_ISREG mode then set_ei_block (d_ei_block d) i
  else if S_ISLNK mode then
    set_i_data (if d_size d <? 32 then put_u8 (d_data d) (d_size d) 0 else d_data d)
      (set_ei_block (d_ei_block d) i)
  else if negb (mode =? 0) then
    set_i_rdev (if S_ISBLK mode || S_ISCHR mode then old_decode_dev (get_u32 (d_data d) 0) else 0) i
  else i.
End Codec.

(** ** Operations *)

Section Ops.
Context {K : Kernel}.

Definition simplefs_write_inode (inode : Z) : M Z :=
  let ino := u32 inode in
  let block := inode_block ino in
  let! shutdown := simplefs_is_shutdown in
  if shutdown then ret (- EIO) else
  let! s := get_sbi in
  if nr_inodes s <=? ino then ret 0 else
  let! handle := simplefs_journal_start_sb 1 in
  if HANDLE_IS_ERR handle then ret (HANDLE_PTR_ERR handle) else
  let! r := simplefs_get_folio block in
  let! r :=
    (if IS_ERR r then ret r else
     let! i := get_inode inode in
     let! img := read_image block in
     run! write_image block (put_disk_inode img (inode_off ino)
            (disk_of_inode i (get_bytes img (inode_off ino + 72) 32))) in
     simplefs_journal_dirty_folio block (folio_of block)) in
  let! stop_ret := simplefs_journal_stop handle in
  ret (if r =? 0 then stop_ret else r).

Definition simplefs_persist_inode (inode : Z) : M Z := simplefs_write_inode inode.

Definition simplefs_clear_disk_inode (inode : Z) : M Z :=
  let ino := u32 inode in
  let block := inode_block ino in
  let! handle := simplefs_journal_start_sb 1 in
  if HANDLE_IS_ERR handle then ret (HANDLE_PTR_ERR handle) else
  let! r := simplefs_get_folio block in
  let! r :=
    (if IS_ERR r then ret r else
     let! img := read_image block in
     run! write_image block (put_bytes img (inode_off ino) sizeof_simplefs_inode 0) in
     simplefs_journal_dirty_folio block (folio_of block)) in
  let! stop_ret := simplefs_journal_stop handle in
  ret (if r =? 0 then stop_ret else r).

(** A new object of the inode cache enters the inode hash under [ino]; the VFS
    clears its [i_flags], [simplefs_alloc_inode] its directory index. *)
Definition simplefs_alloc_inode (ino : Z) : M unit :=
  let! k := gets w_kernel in
  upd_inode ino (fun _ => set_i_vfs_flags 0 (set_i_dir_index None (slab_inode k))).

(** The inode leaves the hash and its object is freed. *)
Definition drop_inode (ino : Z) : M unit :=
  modify (fun w => set_w_inodes (delete ino (w_inodes w)) w).

(** [simplefs_iget]: 0 when the inode is in [w_inodes], or the error. *)
Definition simplefs_iget (ino : Z) : M Z :=
  let! s := get_sbi in
  if nr_inodes s <=? ino then ret (- EINVAL) else
  let! null := kdo (IgetLocked ino) in
  if negb (null =? 0) then ret (- ENOMEM) else
  let! cached := gets (fun w => bool_decide (is_Some (w_inodes w !! ino))) in
  if cached then ret 0 else
  run! simplefs_alloc_inode ino in
  let! r := simplefs_get_folio (inode_block ino) in
  if IS_ERR r then run! drop_inode ino in ret r else
  let! img := read_image (inode_block ino) in
  run! upd_inode ino (fun fresh =>
         inode_of_disk fresh ino (get_disk_inode img (inode_off ino))) in
  ret 0.

Definition simplefs_fileattr_get (inode : Z) : M Z :=
  let! i := get_inode inode in
  ret (Z.land (i_flags i) SIMPLEFS_FL_USER_VISIBLE).

(** [inode_set_ctime_current] and [inode_set_mtime_to_ts] of the same stamp. *)
Definition inode_set_ctime_current (inode : Z) : M (Z * Z) :=
  let! sec := kdo CurrentTimeSec in
  let! nsec := kdo CurrentTimeNsec in
  run! upd_inode inode (fun i => set_i_ctime_nsec nsec (set_i_ctime sec i)) in
  ret (sec, nsec).
Definition inode_set_mtime_to_ts (inode : Z) (ts : Z * Z) : M unit :=
  upd_inode inode (fun i => set_i_mtime_nsec ts.2 (set_i_mtime ts.1 i)).

(** [has_fsx] and [flags] are the fields of the [file_kattr]. *)
Definition simplefs_fileattr_set (inode : Z) (has_fsx : bool) (flags : Z) : M Z :=
  if has_fsx then ret (- EOPNOTSUPP) else
  if negb (Z.ldiff flags SIMPLEFS_FL_USER_MODIFIABLE =? 0) then ret (- EOPNOTSUPP) else
  run! upd_inode inode (fun i => simplefs_set_inode_flags
         (set_i_flags (Z.lor (Z.ldiff (i_flags i) SIMPLEFS_FL_USER_MODIFIABLE)
                             (Z.land flags SIMPLEFS_FL_USER_MODIFIABLE)) i)) in
  let! ts := inode_set_ctime_current inode in
  run! kdo (MarkInodeDirty inode) in
  ret 0.

(** The record of [ino] in the table. *)
Definition disk_inode_at (w : world) (ino : Z) : disk_inode :=
  get_disk_inode (block_image w (inode_block ino)) (inode_off ino).

End Ops.

(** ** What the table operations change *)

Section Effects.
Context {K : Kernel}.

Definition store (w : world) : gmap Z Z * gmap Z inode := (w_bdev w, w_inodes w).

Lemma kstable_store {A} (m : M A) :
  (forall I, KStable I -> preserves I m) -> frame store m.
Proof. by apply kstable_view. Qed.

Lemma store_wp {A} (m : M A) w :
  (forall I, KStable I -> preserves I m) -> wp m (fun _ w' => store w' = store w) w.
Proof. intros H. apply (kstable_store m H). Qed.

(** Both writers of the table follow this pattern: open a transaction, map the
    block, change it, close the transaction. *)
Lemma journaled_update block (B : M Z) F w :
  (forall w2, store w2 = store w -> wp B (fun _ w3 => store w3 = F) w2) ->
  wp (let! handle := simplefs_journal_start_sb 1 in
      if HANDLE_IS_ERR handle then ret (HANDLE_PTR_ERR handle) else
      let! r := simplefs_get_folio block in
      let! r := (if IS_ERR r then ret r else B) in
      let! stop_ret := simplefs_journal_stop handle in
      ret (if r =? 0 then stop_ret else r))
     (fun r w' => (store w' = store w /\ r <> 0) \/ store w' = F) w.
Proof.
  intros HB. apply wp_bind.
  eapply wp_mono; [apply wp_conj; [apply start_sb_err|apply store_wp; intros; pres]|].
  intros hd w1 [He H1]. destruct (HANDLE_IS_ERR hd) eqn:Hh.
  { apply wp_ret. left. split; [done|]. destruct hd; cbn in *; try done. lia. }
  apply wp_bind. eapply wp_mono; [apply store_wp; intros; pres|].
  intros r w2 H2. cbv beta in *. apply wp_bind. destruct (IS_ERR r) eqn:Hr.
  - kwp. eapply wp_mono; [apply store_wp; intros; pres|].
    intros r3 w3 H3. cbv beta in *. apply wp_ret. left. split; [congruence|].
    unfold IS_ERR in Hr. destruct (Z.eqb_spec r 0); bool_hyps; lia.
  - eapply wp_mono; [apply HB; congruence|]. intros r3 w3 H3. cbv beta in *. apply wp_bind.
    eapply wp_mono; [apply store_wp; intros; pres|].
    intros r4 w4 H4. cbv beta in *. apply wp_ret. right. congruence.
Qed.

Definition set_block (n v : Z) (w : world) : gmap Z Z * gmap Z inode :=
  (<[n := v]> (w_bdev w), w_inodes w).

(** The images after the record of [ino] is stored, or cleared. *)
Definition inode_written (ino : Z) (w : world) :=
  let img := block_image w (inode_block ino) in
  set_block (inode_block ino) (put_disk_inode img (inode_off ino)
    (disk_of_inode (inode_of w ino) (get_bytes img (inode_off ino + 72) 32))) w.
Definition inode_cleared (ino : Z) (w : world) :=
  set_block (inode_block ino)
    (put_bytes (block_image w (inode_block ino)) (inode_off ino) sizeof_simplefs_inode 0) w.

Lemma store_inv w w' : store w' = store w -> w_bdev w' = w_bdev w /\ w_inodes w' = w_inodes w.
Proof. by intros [= -> ->]. Qed.

Lemma write_inode_spec ino w : is_u32 ino ->
  wp (simplefs_write_inode ino) (fun r w' =>
    (store w' = store w /\ (r = 0 -> nr_inodes (w_sbi w) <= ino)) \/
    store w' = inode_written ino w) w.
Proof.
  intros Hu. unfold simplefs_write_inode, simplefs_is_shutdown. rewrite (u32_id ino) by done.
  apply wp_bind, wp_gets. destruct (s_shutdown (w_sbi w)).
  { apply wp_ret. left. split; [done|discriminate]. }
  apply wp_bind, wp_gets. destruct (_ <=? _) eqn:Hn; [apply wp_ret; left; bool_hyps; done|].
  eapply wp_mono.
  - apply (journaled_update _ _ (inode_written ino w)). intros w2 [E1 E2]%store_inv. kwp.
    eapply wp_mono; [apply store_wp; intros; pres|]. intros r w3 H3. cbv beta in *. rewrite H3.
    unfold store, inode_written, set_block, block_image, inode_of. cbn. by rewrite E1, E2.
  - intros r w' [[H1 H2]|H]; [left|by right]. by split.
Qed.

Lemma clear_disk_inode_spec ino w : is_u32 ino ->
  wp (simplefs_clear_disk_inode ino) (fun r w' =>
    (store w' = store w /\ r <> 0) \/ store w' = inode_cleared ino w) w.
Proof.
  intros Hu. unfold simplefs_clear_disk_inode. rewrite (u32_id ino) by done.
  apply (journaled_update _ _ (inode_cleared ino w)). intros w2 [E1 E2]%store_inv. kwp.
  eapply wp_mono; [apply store_wp; intros; pres|]. intros r w3 H3. cbv beta in *. rewrite H3.
  unfold store, inode_cleared, set_block, block_image. cbn. by rewrite E1, E2.
Qed.

(** *** Neighbouring records *)

Lemma inode_off_bounds ino : 0 <= ino -> 0 <= inode_off ino <= 3952.
Proof.
  intros. unfold inode_off, inode_shift, SIMPLEFS_INODES_PER_BLOCK, SIMPLEFS_BLOCK_SIZE,
    sizeof_simplefs_inode. change (4096 / 104) with 39.
  pose proof (Z.mod_pos_bound ino 39). lia.
Qed.

(** Two records of one block do not overlap. *)
Lemma inode_off_apart ino ino' : is_u32 ino -> is_u32 ino' -> ino <> ino' ->
  inode_block ino = inode_block ino' ->
  inode_off ino + 104 <= inode_off ino' \/ inode_off ino' + 104 <= inode_off ino.
Proof.
  unfold is_u32, U32_MAX, inode_block, inode_off, inode_shift, SIMPLEFS_INODES_PER_BLOCK,
    SIMPLEFS_BLOCK_SIZE, sizeof_simplefs_inode. change (4096 / 104) with 39.
  intros H H' Hne Hb.
  assert (ino / 39 = ino' / 39).
  { assert (forall x, 0 <= x <= 4294967295 -> 0 <= x / 39 + 1 < 4294967296) as Hr.
    { intros x Hx. split; [pose proof (Z.div_pos x 39); lia|].
      assert (x / 39 < 4294967295) by (apply Z.div_lt_upper_bound; lia). lia. }
    unfold u32 in Hb. rewrite !Z.mod_small in Hb by auto. lia. }
  pose proof (Z.div_mod ino 39). pose proof (Z.div_mod ino' 39).
  assert (ino mod 39 <> ino' mod 39) by lia. lia.
Qed.

(** Bytes of an image outside a record keep every other record. *)
Lemma get_disk_inode_ext img img' off : 0 <= off ->
  (forall p m, 8 * off <= p -> 0 <= m -> p + m <= 8 * (off + 104) -> slice img p m = slice img' p m) ->
  get_disk_inode img off = get_disk_inode img' off.
Proof.
  intros Ho H. unfold get_disk_inode, get_u32, get_bytes. f_equal; apply H; lia.
Qed.

Lemma other_inode_kept ino ino' (w w' : world) :
  is_u32 ino -> is_u32 ino' -> ino <> ino' ->
  store w' = inode_written ino w \/ store w' = inode_cleared ino w ->
  disk_inode_at w' ino' = disk_inode_at w ino'.
Proof.
  intros Hu Hu' Hne Hst.
  assert (0 <= ino /\ 0 <= ino') as [P P'] by (unfold is_u32 in *; lia).
  pose proof (inode_off_bounds ino P) as Ho. pose proof (inode_off_bounds ino' P') as Ho'.
  unfold disk_inode_at.
  destruct (decide (inode_block ino = inode_block ino')) as [E|E].
  - pose proof (inode_off_apart ino ino' Hu Hu' Hne E) as Hap. rewrite <- E.
    apply get_disk_inode_ext; [lia|]. intros p m Hp Hm Hpm.
    destruct Hst as [[= Hb _]|[= Hb _]]; unfold block_image; rewrite Hb, lookup_insert_eq; cbn [default].
    + apply put_disk_inode_slice; unfold id; lia.
    + unfold put_bytes, id. apply slice_splice_disjoint; unfold sizeof_simplefs_inode; lia.
  - destruct Hst as [[= Hb _]|[= Hb _]]; unfold block_image; by rewrite Hb, lookup_insert_ne.
Qed.
End Effects.

(** ** Round trip through the table *)

Section Roundtrip.
Context {K : Kernel}.

(** The documented packing of a device number (<linux/kdev_t.h>): the low eight
    bits of 16 for the minor number, the high eight for the major one, with no
    check that the numbers fit. *)
Class DevLaws : Prop := {
  old_encode_dev_law : forall d,
    old_encode_dev d = Z.land (Z.lor (Z.shiftl (MAJOR d) 8) (MINOR d)) (Z.ones 16);
  old_decode_dev_law : forall v,
    old_decode_dev v = MKDEV (Z.land (Z.shiftr v 8) 255) (Z.land v 255)
}.
Definition old_valid_dev (d : Z) : bool := (0 <=? d) && (MAJOR d <? 256) && (MINOR d <? 256).

Lemma lor_shifted a b k : 0 <= k -> 0 <= b < 2 ^ k -> Z.lor (Z.shiftl a k) b = a * 2 ^ k + b.
Proof.
  intros Hk Hb. rewrite <- Z.lxor_lor, <- Z.add_nocarry_lxor, Z.shiftl_mul_pow2; try done.
  all: apply Z.bits_inj'; intros n Hn; rewrite Z.land_spec, Z.bits_0, Z.shiftl_spec by done;
    (destruct (Z_lt_le_dec n k); [by rewrite Z.testbit_neg_r by lia|]);
    rewrite <- (Z.mod_small b (2 ^ k)), Z.mod_pow2_bits_high by lia; apply andb_false_r.
Qed.

(** Numbers below 256 survive the packing. *)
Lemma dev_codec `{HD : !DevLaws} d :
  old_valid_dev d = true -> old_decode_dev (u32 (old_encode_dev d)) = d.
Proof.
  unfold old_valid_dev, MAJOR, MINOR. intros Hv. bool_hyps.
  rewrite old_decode_dev_law, old_encode_dev_law. unfold MAJOR, MINOR, MKDEV.
  change 255 with (Z.ones 8). rewrite !Z.land_ones, !Z.shiftr_div_pow2 in * by lia.
  pose proof (Z.div_mod d (2 ^ 20)). pose proof (Z.mod_pos_bound d (2 ^ 20)).
  pose proof (Z.div_pos d (2 ^ 20)).
  set (a := d / 2 ^ 20) in *. set (m := d mod 2 ^ 20) in *.
  rewrite (lor_shifted a m 8), (Z.mod_small (_ + _)), u32_id by (unfold is_u32, U32_MAX; lia).
  rewrite Z.div_add_l, (Z.div_small m), Z.add_0_r, (Z.mod_small a), (Z.add_comm (_ * _)), Z.mod_add by lia.
  rewrite (Z.mod_small m), lor_shifted by lia. lia.
Qed.

Definition s32_ok (z : Z) : Prop := -2147483648 <= z <= 2147483647.

(** Every attribute is inside the width its field has on disk. *)
Definition inode_fits (i : inode) : Prop :=
  Forall is_u32 [i_uid i; i_gid i; i_size i; i_ctime_nsec i; i_atime_nsec i; i_mtime_nsec i;
    simplefs_sectors_to_blocks (i_blocks i); i_nlink i; ei_block i; i_xattr_block i;
    i_generation i; i_flags i; i_crtime_nsec i] /\
  Forall s32_ok [i_ctime i; i_atime i; i_mtime i; i_crtime i] /\
  0 <= i_mode i < 65536 /\ i_blocks i mod 8 = 0 /\ 0 <= i_data i < 2 ^ 256 /\
  (S_ISCHR (i_mode i) || S_ISBLK (i_mode i) = true -> old_valid_dev (i_rdev i) = true).

Definition attrs_of (i : inode) :=
  (i_mode i, i_uid i, i_gid i, i_size i, (i_ctime i, i_ctime_nsec i), (i_atime i, i_atime_nsec i),
   (i_mtime i, i_mtime_nsec i), i_blocks i, i_nlink i, i_generation i, i_xattr_block i, i_flags i,
   (i_crtime i, i_crtime_nsec i)).

(** The same file: equal attributes, and per type the extent root, the inline
    data (a short symlink target is terminated) or the device number. *)
Definition same_file (i i' : inode) : Prop :=
  attrs_of i' = attrs_of i /\
  (S_ISREG (i_mode i) || S_ISDIR (i_mode i) || S_ISLNK (i_mode i) = true -> ei_block i' = ei_block i) /\
  (S_ISDIR (i_mode i) = true -> i_data i' = i_data i) /\
  (S_ISLNK (i_mode i) = true ->
     i_data i' = if i_size i <? 32 then put_u8 (i_data i) (i_size i) 0 else i_data i) /\
  (S_ISCHR (i_mode i) || S_ISBLK (i_mode i) = true ->
     i_rdev i' = i_rdev i).

Lemma s32_fixed z : s32_ok z -> s32 (u32 (s32 z)) = z.
Proof.
  unfold s32_ok. intros H. assert (s32 z = z) as ->; [|by apply s32_u32].
  unfold s32, u32. destruct (Z_lt_le_dec z 0).
  - rewrite <- (Z_mod_plus_full z 1), Z.mod_small by lia.
    destruct (Z.ltb_spec (z + 1 * 4294967296) 2147483648); lia.
  - rewrite Z.mod_small by lia. destruct (Z.ltb_spec z 2147483648); lia.
Qed.

Lemma sectors_roundtrip b : b mod 8 = 0 -> is_u32 (simplefs_sectors_to_blocks b) ->
  simplefs_blocks_to_sectors (u32 (simplefs_sectors_to_blocks b)) = b.
Proof.
  unfold simplefs_sectors_to_blocks, simplefs_blocks_to_sectors, is_u32, U32_MAX, u64.
  change (SIMPLEFS_BLOCK_SIZE / 512) with 8. intros Hb Hu. rewrite u32_id by done.
  pose proof (Z.div_mod b 8). rewrite Z.mod_small; lia.
Qed.

Lemma disk_of_inode_wf i old : 0 <= old < 2 ^ 256 -> disk_inode_wf (disk_of_inode i old).
Proof.
  intros Ho. split.
  - unfold inode_words, disk_of_inode. cbn. repeat constructor; apply u32_range.
  - cbn. destruct (_ || _).
    + split; [apply splice_nonneg; lia|].
      rewrite <- (slice_small old 256) at 1 by lia.
      assert (put_u32 (slice old 0 256) 0 (u32 (old_encode_dev (i_rdev i))) =
              slice (put_u32 old 0 (u32 (old_encode_dev (i_rdev i)))) 0 256) as ->.
      { unfold put_u32. bits. }
      by apply slice_lt.
    + split; [by apply slice_nonneg|]. by apply (slice_lt _ _ 256).
Qed.

(** The three type tests exclude each other. *)
Lemma mode_cases m : let t := Z.land m S_IFMT in
  S_ISDIR m = (t =? 16384) /\ S_ISREG m = (t =? 32768) /\ S_ISLNK m = (t =? 40960) /\
  S_ISCHR m = (t =? 8192) /\ S_ISBLK m = (t =? 24576).
Proof. done. Qed.

Lemma inode_codec_roundtrip `{HD : !DevLaws} fresh ino i old :
  inode_fits i -> same_file i (inode_of_disk fresh ino (disk_of_inode i old)).
Proof.
  intros (Hu & Hs & Hm & Hb & Hd & Hdev). rewrite !Forall_cons in Hu. rewrite !Forall_cons in Hs.
  destruct Hu as (U1 & U2 & U3 & U4 & U5 & U6 & U7 & U8 & U9 & U10 & U11 & U12 & U13 & _).
  destruct Hs as (S1 & S2 & S3 & S4 & _).
  assert (Hmode : d_mode (disk_of_inode i old) mod 65536 = i_mode i).
  { cbn. rewrite u32_id by (unfold is_u32, U32_MAX; lia). by apply Z.mod_small. }
  assert (Hattrs : attrs_of (inode_of_disk fresh ino (disk_of_inode i old)) = attrs_of i).
  { unfold inode_of_disk. rewrite Hmode.
    transitivity (attrs_of (Inode ino (i_mode i) (u32 (i_uid i)) (u32 (i_gid i)) (u32 (i_size i))
      (s32 (u32 (s32 (i_ctime i)))) (u32 (i_ctime_nsec i)) (s32 (u32 (s32 (i_atime i))))
      (u32 (i_atime_nsec i)) (s32 (u32 (s32 (i_mtime i)))) (u32 (i_mtime_nsec i))
      (simplefs_blocks_to_sectors (u32 (simplefs_sectors_to_blocks (i_blocks i))))
      (u32 (i_nlink i)) (u32 (i_generation i)) 0 0 0 (u32 (i_xattr_block i)) (u32 (i_flags i))
      (s32 (u32 (s32 (i_crtime i)))) (u32 (i_crtime_nsec i)) 0 0 0 None)).
    - by repeat case_match.
    - unfold attrs_of. cbn [i_mode i_uid i_gid i_size i_ctime i_ctime_nsec i_atime i_atime_nsec
        i_mtime i_mtime_nsec i_blocks i_nlink i_generation i_xattr_block i_flags i_crtime i_crtime_nsec].
      rewrite !s32_fixed, sectors_roundtrip by done. by rewrite !u32_id. }
  split; [exact Hattrs|]. unfold inode_of_disk. rewrite Hmode.
  pose proof (mode_cases (i_mode i)) as (-> & -> & -> & C4 & C5).
  rewrite C4, C5. set (t := Z.land (i_mode i) S_IFMT). fold t in C4, C5.
  assert (Hdata : get_bytes (i_data i) 0 32 = i_data i) by (by apply slice_small).
  assert (Hdd : (t =? 8192) || (t =? 24576) = false ->
    d_data (disk_of_inode i old) = i_data i).
  { intros E. cbn. by rewrite C4, C5, E. }
  destruct (Z.eqb_spec t 16384) as [E|E]; [rewrite E in *; cbn -[disk_of_inode]; split_and!; try done;
    intros _; [by cbn; rewrite u32_id|by apply Hdd]|].
  destruct (Z.eqb_spec t 32768) as [E2|E2]; [rewrite E2 in *; split_and!; try done;
    intros _; by cbn; rewrite u32_id|].
  destruct (Z.eqb_spec t 40960) as [E3|E3].
  { rewrite E3 in *. split_and!; try done; intros _; [by cbn; rewrite u32_id|].
    cbn [i_data set_i_data]. rewrite Hdd by done. cbn. by rewrite u32_id. }
  assert (Hnz : (t =? 8192) || (t =? 24576) = true -> (i_mode i =? 0) = false).
  { intros Ht. apply Z.eqb_neq. intros Hz. unfold t in Ht. by rewrite Hz in Ht. }
  split_and!; try done. intros Ht. rewrite (Hnz Ht). cbn [negb].
  rewrite (orb_comm (t =? 24576)), Ht. cbn [i_rdev set_i_rdev].
  rewrite C4, C5 in Hdev. etrans; [|apply dev_codec; by apply Hdev]. f_equal.
  cbn. rewrite C4, C5, Ht. apply get_put_u32; [lia|apply u32_range].
Qed.

(** A device whose minor number is 256 comes back from the table as another
    device. *)
Theorem device_number_lost `{HD : !DevLaws} fresh ino i old : S_ISCHR (i_mode i) = true ->
  0 <= i_mode i < 65536 -> i_rdev i = MKDEV 0 256 ->
  i_rdev (inode_of_disk fresh ino (disk_of_inode i old)) = MKDEV 1 0.
Proof.
  intros Hc Hm Hr. pose proof (mode_cases (i_mode i)) as (C1 & C2 & C3 & C4 & C5).
  assert (Hmode : d_mode (disk_of_inode i old) = i_mode i) by (cbn; rewrite u32_id; [done|unfold is_u32, U32_MAX; lia]).
  unfold inode_of_disk. rewrite Hmode, (Z.mod_small (i_mode i)) by lia.
  rewrite C1, C2, C3, C4, C5. rewrite C4 in Hc. apply Z.eqb_eq in Hc. rewrite Hc.
  assert ((i_mode i =? 0) = false) as -> by (apply Z.eqb_neq; intros E; by rewrite E in Hc).
  cbn -[old_encode_dev old_decode_dev]. rewrite C4, C5, Hc. cbn [Z.eqb orb Pos.eqb].
  rewrite get_put_u32 by first [lia|apply u32_range].
  by rewrite old_decode_dev_law, old_encode_dev_law, Hr.
Qed.
End Roundtrip.

(** ** Loading an inode *)

Section Iget.
Context {K : Kernel}.

(** An uncached inode: on success the object is built from the record and from
    what the slab object held; on failure no object stays in the hash. *)
Lemma iget_spec ino w : w_inodes w !! ino = None ->
  wp (simplefs_iget ino) (fun r w' =>
    w_bdev w' = w_bdev w /\
    ((r < 0 /\ w_inodes w' = w_inodes w) \/
     (r = 0 /\ ino < nr_inodes (w_sbi w) /\ exists fresh k, fresh = set_i_vfs_flags 0 (set_i_dir_index None (slab_inode k)) /\
        w_inodes w' = <[ino := inode_of_disk fresh ino (disk_inode_at w ino)]> (w_inodes w)))) w.
Proof.
  intros Hnone. unfold simplefs_iget. kwp.
  destruct (_ <=? _) eqn:Hn; kwp; [split; [done|by left]|].
  destruct (negb _); kwp; [split; [done|by left]|].
  rewrite bool_decide_eq_false_2 by (cbn; rewrite Hnone; by intros [? [=]]).
  unfold simplefs_alloc_inode, drop_inode. kwp.
  match goal with |- wp (simplefs_get_folio _) _ ?w0 => set (w1 := w0) end.
  eapply wp_mono; [apply store_wp; intros; pres|].
  intros r2 w2 [E1 E2]%store_inv. destruct (IS_ERR r2) eqn:Hr; kwp.
  - split; [done|left]. split; [unfold IS_ERR in Hr; bool_hyps; lia|].
    cbn. rewrite E2. cbn. by apply delete_insert_id.
  - split; [done|right]. split; [done|]. bool_hyps. split; [lia|].
    eexists _, _. split; [reflexivity|]. cbn. rewrite E2. unfold block_image. rewrite E1.
    unfold inode_of. rewrite E2. cbn. rewrite insert_insert_eq, lookup_insert_eq. reflexivity.
Qed.

Lemma disk_inode_written ino w w' : is_u32 ino -> store w' = inode_written ino w ->
  exists old, 0 <= old < 2 ^ 256 /\ disk_inode_at w' ino = disk_of_inode (inode_of w ino) old.
Proof.
  intros Hu [= Hb _]. assert (0 <= ino) by (unfold is_u32 in *; lia).
  eexists (get_bytes (block_image w (inode_block ino)) (inode_off ino + 72) 32).
  assert (Hold : 0 <= get_bytes (block_image w (inode_block ino)) (inode_off ino + 72) 32 < 2 ^ 256).
  { split; [by apply slice_nonneg|]. by apply (slice_lt _ _ 256). }
  split; [done|]. unfold disk_inode_at, block_image at 1. rewrite Hb, lookup_insert_eq. cbn [default].
  apply get_put_disk_inode; [by apply inode_off_bounds|]. by apply disk_of_inode_wf.
Qed.

(** C27: the inode table round trip: when [simplefs_write_inode] succeeds for an
    inode of the table whose attributes fit their on-disk width, dropping the
    in-core object and loading it again with [simplefs_iget] gives the same file
    (attributes, extent root, inline data, and the device number of a device
    whose major and minor numbers are below 256, under the documented packing of
    [old_encode_dev] and [old_decode_dev]), or fails with an error that leaves no
    half-built object in the inode hash. *)
Theorem inode_table_roundtrip `{HD : !DevLaws} ino w :
  is_u32 ino -> ino < nr_inodes (w_sbi w) -> inode_fits (inode_of w ino) ->
  wp (let! r := simplefs_write_inode ino in
      if negb (r =? 0) then ret (r, 0) else
      run! drop_inode ino in
      let! r2 := simplefs_iget ino in ret (r, r2))
     (fun '(r, r2) w' => r = 0 ->
        (r2 = 0 /\ same_file (inode_of w ino) (inode_of w' ino)) \/
        (r2 < 0 /\ w_inodes w' !! ino = None)) w.
Proof.
  intros Hu Hn Hf. apply wp_bind. eapply wp_mono; [by apply write_inode_spec|].
  intros r w1 H1. destruct (Z.eqb_spec r 0) as [Er|Er]; cbn [negb]; [|by apply wp_ret].
  destruct H1 as [[_ H1]|H1]; [specialize (H1 Er); lia|].
  destruct (disk_inode_written ino w w1 Hu H1) as (old & _ & Hd).
  unfold drop_inode. kwp. eapply wp_mono; [apply iget_spec; cbn; apply lookup_delete_eq|].
  intros r2 w2 (Hb & [[Hneg Hi]|(H0 & _ & fresh & k & Hfr & Hi)]); apply wp_ret; intros _; [right|left].
  - split; [done|]. rewrite Hi. apply lookup_delete_eq.
  - split; [done|]. unfold inode_of at 2. rewrite Hi, lookup_insert_eq. cbn [default].
    change (disk_inode_at (set_w_inodes (delete ino (w_inodes w1)) w1) ino) with (disk_inode_at w1 ino).
    rewrite Hd. by apply inode_codec_roundtrip.
Qed.

(** writing or clearing one inode record is local, on every outcome: no
    other record changes, no block but the record's own changes, and no in-core
    inode changes; a cleared record reads back as all zeroes. *)
Theorem inode_update_local ino ino' n w :
  is_u32 ino -> is_u32 ino' -> ino <> ino' -> n <> inode_block ino ->
  let local (w' : world) :=
    disk_inode_at w' ino' = disk_inode_at w ino' /\ block_image w' n = block_image w n /\
    w_inodes w' = w_inodes w in
  wp (simplefs_write_inode ino) (fun _ w' => local w') w /\
  wp (simplefs_clear_disk_inode ino) (fun r w' => local w' /\
    (r = 0 -> d_mode (disk_inode_at w' ino) = 0 /\ d_nlink (disk_inode_at w' ino) = 0)) w.
Proof.
  intros Hu Hu' Hne Hn local.
  assert (Hsame : forall w', store w' = store w -> local w').
  { intros w' [E1 E2]%store_inv. unfold local, disk_inode_at, block_image. by rewrite E1. }
  assert (Hother : forall w', store w' = inode_written ino w \/ store w' = inode_cleared ino w -> local w').
  { intros w' H. split; [by apply (other_inode_kept ino)|].
    destruct H as [[= Hb Hi]|[= Hb Hi]]; (split; [|done]); unfold block_image;
      by rewrite Hb, lookup_insert_ne. }
  split.
  - eapply wp_mono; [by apply write_inode_spec|]. intros r w' [[H _]|H]; auto.
  - eapply wp_mono; [by apply clear_disk_inode_spec|]. intros r w' [[H Hr]|H].
    + split; [auto|done].
    + split; [auto|]. intros _. injection H as Hb _. unfold disk_inode_at, block_image.
      rewrite Hb, lookup_insert_eq. cbn [default]. unfold get_disk_inode; cbn [d_mode d_nlink].
      assert (0 <= ino) as P by (unfold is_u32 in *; lia). pose proof (inode_off_bounds ino P).
      unfold get_u32, put_bytes, sizeof_simplefs_inode, id.
      by rewrite !slice_splice_inside, !slice_0 by lia.
Qed.

(** a file larger than 4 GiB loses its size at write-back: the format stores
    [i_size] in 32 bits while [s_maxbytes] admits files up to
    [SIMPLEFS_MAX_FILESIZE], so a successful [simplefs_write_inode] stores the size
    modulo 2^32. *)
Theorem large_file_size_lost ino w :
  is_u32 ino -> ino < nr_inodes (w_sbi w) ->
  2 ^ 32 <= i_size (inode_of w ino) <= SIMPLEFS_MAX_FILESIZE ->
  wp (simplefs_write_inode ino) (fun r w' => r = 0 ->
    d_size (disk_inode_at w' ino) = i_size (inode_of w ino) mod 2 ^ 32 /\
    d_size (disk_inode_at w' ino) < i_size (inode_of w ino)) w.
Proof.
  intros Hu Hn Hs. eapply wp_mono; [by apply write_inode_spec|].
  intros r w' [[_ H]|H] Hr; [specialize (H Hr); lia|].
  destruct (disk_inode_written ino w w' Hu H) as (old & _ & ->). cbn [d_size disk_of_inode].
  pose proof (Z.mod_pos_bound (i_size (inode_of w ino)) (2 ^ 32)). split; [done|].
  unfold u32. change 4294967296 with (2 ^ 32). lia.
Qed.

(** the inline data of a regular file is never initialised: [simplefs_iget]
    leaves [i_data] with whatever the slab object held and the next
    [simplefs_write_inode] stores those 32 bytes in the inode table. *)
Theorem regular_file_stores_slab_bytes ino w :
  is_u32 ino -> w_inodes w !! ino = None ->
  S_ISREG (d_mode (disk_inode_at w ino) mod 65536) = true ->
  wp (let! r := simplefs_iget ino in
      if negb (r =? 0) then ret r else simplefs_write_inode ino)
     (fun r w' => r = 0 -> exists k, d_data (disk_inode_at w' ino) = get_bytes (i_data (slab_inode k)) 0 32) w.
Proof.
  intros Hu Hnone Hreg. apply wp_bind. eapply wp_mono.
  { apply wp_conj; [by apply iget_spec|].
    apply (frame_wp (fun w => nr_inodes (w_sbi w))).
    unfold simplefs_iget, simplefs_alloc_inode, drop_inode.
    repeat (frame_step || apply (frame_field (fun s => nr_inodes s)); frames). }
  intros r w1 [(Hb & [[Hneg _]|(H0 & Hlt & fresh & k & Hfr & Hi)]) Hnr].
  { destruct (Z.eqb_spec r 0); [lia|]. by apply wp_ret. }
  destruct (Z.eqb_spec r 0); [|done]. cbn [negb].
  eapply wp_mono; [by apply write_inode_spec|]. intros r2 w2 [[_ H]|H] Hr2.
  { specialize (H Hr2). rewrite Hnr in H. lia. }
  destruct (disk_inode_written ino w1 w2 Hu H) as (old & _ & ->). exists k.
  unfold inode_of. rewrite Hi, lookup_insert_eq. cbn [default]. unfold inode_of_disk.
  destruct (mode_cases (d_mode (disk_inode_at w ino) mod 65536)) as (E1 & E2 & E3 & E4 & E5).
  rewrite E2 in Hreg. apply Z.eqb_eq in Hreg. rewrite E1, E2, Hreg. cbn -[get_bytes disk_inode_at].
  unfold id. rewrite E4, E5, Hreg, Hfr. reflexivity.
Qed.

(** Predicates stable under the allocator survive the table operations too. *)
Context (I : world -> Prop).
Lemma write_inode_pres `{!JStable I} ino : preserves I (simplefs_write_inode ino).
Proof. unfold simplefs_write_inode. repeat (pres_step || apply js_image). Qed.
Lemma clear_disk_inode_pres `{!JStable I} ino : preserves I (simplefs_clear_disk_inode ino).
Proof. unfold simplefs_clear_disk_inode. repeat (pres_step || apply js_image). Qed.
Lemma iget_apres `{!FStable I} ino : preserves I (simplefs_iget ino).
Proof.
  unfold simplefs_iget, simplefs_alloc_inode, drop_inode.
  repeat (pres_step || apply fs_inodes).
Qed.
Lemma set_ctime_apres `{!FStable I} ino : preserves I (inode_set_ctime_current ino).
Proof. unfold inode_set_ctime_current. pres. Qed.
Lemma set_mtime_apres `{!FStable I} ino ts : preserves I (inode_set_mtime_to_ts ino ts).
Proof. unfold inode_set_mtime_to_ts. pres. Qed.
Lemma fileattr_set_apres `{!FStable I} ino b f : preserves I (simplefs_fileattr_set ino b f).
Proof.
  unfold simplefs_fileattr_set, inode_set_ctime_current. pres.
Qed.
End Iget.

#[export] Hint Resolve write_inode_pres clear_disk_inode_pres iget_apres set_ctime_apres
  set_mtime_apres fileattr_set_apres : pres.
