(* ===== verification/FileRange.v ===== *)
(** * FileRange: removing and shifting ranges of a file's mapping

    The part of truncation (simplefs_inode.c) and of the [fallocate] modes
    (simplefs_file.c) that runs under the extent lock: the tree is loaded, its
    extents are cut, dropped or shifted, the tree is written back, and only then do
    the blocks that left the mapping return to the allocator.

    The theorems give the new mapping and the freed blocks as sets: what a range
    operation keeps is the old mapping outside the range, what it frees is exactly
    the physical blocks that were mapped inside it. *)

From stdpp Require Import base list numbers gmap.
From S2P Require Import Prelude Image Layout Kernel DiskFormat Discard Journal MetaBuf.
From S2P Require Import Alloc Retire ExtentBuf ExtentTree Owned InodeTable.

Local Open Scope Z_scope.
Local Open Scope fs_scope.

(** [struct simplefs_block_range]: start and length. *)
Definition block_range : Type := Z * Z.
Definition blocks_freed (freed : list block_range) : Z := u32 (foldr Z.add 0 (map snd freed)).

(** ** Truncation: extents behind [new_blocks] *)

Fixpoint truncate_loop (l : list extent) (new_blocks : Z) : list extent * list block_range :=
  match l with
  | [] => ([], [])
  | ext :: rest =>
      let '(out, freed) := truncate_loop rest new_blocks in
      let ext_len := simplefs_ext_len ext in
      if new_blocks <=? ee_block ext then
        (simplefs_extent_clear ext :: out, (ee_start ext, ext_len) :: freed)
      else if new_blocks <? u32 (ee_block ext + ext_len) then
        let keep := u32 (new_blocks - ee_block ext) in
        (simplefs_ext_set_len ext keep :: out,
         (u32 (ee_start ext + keep), u32 (ext_len - keep)) :: freed)
      else (ext :: out, freed)
  end.

(** The tracked speculative preallocation [prealloc_block, +prealloc_len) follows
    the blocks that move. *)
Definition simplefs_prealloc_collapse (start_block collapse_blocks : Z) (ci : inode) : inode :=
  if prealloc_len ci =? 0 then ci else
  let pre_start := prealloc_block ci in
  let pre_end := u32 (pre_start + prealloc_len ci) in
  let cut_end := u32 (start_block + collapse_blocks) in
  if pre_end <=? start_block then ci else
  if cut_end <=? pre_start then set_prealloc_block (u32 (prealloc_block ci - collapse_blocks)) ci else
  if (pre_start <? start_block) && (cut_end <? pre_end) then set_prealloc_len 0 (set_prealloc_block 0 ci) else
  if pre_start <? start_block then set_prealloc_len (u32 (start_block - pre_start)) ci else
  if cut_end <? pre_end then set_prealloc_len (u32 (pre_end - cut_end)) (set_prealloc_block start_block ci)
  else set_prealloc_len 0 (set_prealloc_block 0 ci).

Definition simplefs_prealloc_insert (start_block insert_blocks : Z) (ci : inode) : inode :=
  if prealloc_len ci =? 0 then ci else
  let pre_start := prealloc_block ci in
  let pre_end := u32 (pre_start + prealloc_len ci) in
  if pre_end <=? start_block then ci else
  if start_block <=? pre_start then set_prealloc_block (u32 (prealloc_block ci + insert_blocks)) ci
  else set_prealloc_len (u32 (start_block - pre_start)) ci.

Section Ops.
Context {K : Kernel}.

(** The tree goes to the device before a block goes to the allocator. *)
Definition release_ranges (ino : Z) (buf : extent_buffer) (freed : list block_range) : M Z :=
  if blocks_freed freed =? 0 then ret 0 else
  let! (r, _) := simplefs_file_sync_extents ino buf in
  if negb (r =? 0) then ret r else
  run! each_list freed (fun f => put_blocks f.1 f.2) in
  run! upd_inode ino (fun i => set_i_blocks
         (u64 (i_blocks i - simplefs_blocks_to_sectors (blocks_freed freed))) i) in
  ret 0.

(** [kvmalloc_array] of the freed ranges, when there is an extent. *)
Definition alloc_ranges (buf : extent_buffer) : M bool :=
  if nr_extents buf =? 0 then ret true else kmalloc.

(** [simplefs_truncate] under the extent lock. *)
Definition truncate_extents (ino new_blocks : Z) : M Z :=
  let! i := get_inode ino in
  let! (r, buf) := simplefs_file_load_extents (ei_block i) in
  if negb (r =? 0) then ret r else
  let! ok := alloc_ranges buf in
  if negb ok then ret (- ENOMEM) else
  let '(out, freed) := truncate_loop (eb_extents buf) new_blocks in
  release_ranges ino (eb_set_extents buf out) freed.

(** ** Punching: extents inside [first_full, last_excl) *)

(** [n] extents remain, from index [i] on; a middle cut inserts the tail behind
    the current extent and skips it. *)
Fixpoint punch_loop (n : nat) (i first_full last_excl : Z) (buf : extent_buffer)
    (freed : list block_range) : M (Z * extent_buffer * list block_range) :=
  match n with
  | O => ret (0, buf, freed)
  | S n' =>
      let ext := ext_at (eb_extents buf) i in
      let len := simplefs_ext_len ext in
      let ee_end := u32 (ee_block ext + len) in
      let set e := eb_set_extents buf (<[Z.to_nat i := e]> (eb_extents buf)) in
      if (ee_end <=? first_full) || (last_excl <=? ee_block ext) then
        punch_loop n' (i + 1) first_full last_excl buf freed
      else if (first_full <=? ee_block ext) && (ee_end <=? last_excl) then
        punch_loop n' (i + 1) first_full last_excl (set (simplefs_extent_clear ext))
          (freed ++ [(ee_start ext, len)])
      else if (ee_block ext <? first_full) && (last_excl <? ee_end) then
        let head_len := u32 (first_full - ee_block ext) in
        let mid_len := u32 (last_excl - first_full) in
        let tail_len := u32 (ee_end - last_excl) in
        let freed := freed ++ [(u32 (ee_start ext + head_len), mid_len)] in
        let! (r, buf) := simplefs_file_insert_extent (set (simplefs_ext_set_len ext head_len)) (i + 1)
          (simplefs_ext_init last_excl tail_len (u32 (ee_start ext + head_len + mid_len))
             (simplefs_ext_unwritten ext)) in
        if negb (r =? 0) then ret (r, buf, freed)
        else punch_loop n' (i + 2) first_full last_excl buf freed
      else if ee_block ext <? first_full then
        let keep := u32 (first_full - ee_block ext) in
        let free_len := u32 (len - keep) in
        punch_loop n' (i + 1) first_full last_excl (set (simplefs_ext_set_len ext keep))
          (freed ++ [(u32 (ee_start ext + keep), free_len)])
      else
        let skip := u32 (last_excl - ee_block ext) in
        let keep := u32 (len - skip) in
        punch_loop n' (i + 1) first_full last_excl
          (set (simplefs_ext_set_len (Extent last_excl (ee_len ext) (u32 (ee_start ext + skip))) keep))
          (freed ++ [(ee_start ext, skip)])
  end.

(** [simplefs_fallocate_punch_hole] under the extent lock: the code, and whether
    blocks were freed. *)
Definition punch_extents (ino first_full last_excl : Z) : M (Z * bool) :=
  let! i := get_inode ino in
  let! (r, buf) := simplefs_file_load_extents (ei_block i) in
  if negb (r =? 0) then ret (r, false) else
  let! ok := alloc_ranges buf in
  if negb ok then ret (- ENOMEM, false) else
  let! (r, buf, freed) := punch_loop (length (eb_extents buf)) 0 first_full last_excl buf [] in
  if negb (r =? 0) then ret (r, false) else
  let! r := release_ranges ino buf freed in
  ret (r, negb (blocks_freed freed =? 0)).

(** ** Collapsing: [start_block, end_block) disappears, what follows moves down *)

Definition collapse_one (start_block end_block : Z) (ext : extent) (new_buf : extent_buffer)
    (freed : list block_range) : M (Z * extent_buffer * list block_range) :=
  let collapse_blocks := u32 (end_block - start_block) in
  let len := simplefs_ext_len ext in
  let ee_end := u32 (ee_block ext + len) in
  if simplefs_extent_is_empty ext then ret (0, new_buf, freed) else
  if ee_end <=? start_block then
    let! (r, new_buf) := simplefs_file_append_extent new_buf ext in ret (r, new_buf, freed)
  else if end_block <=? ee_block ext then
    let! (r, new_buf) := simplefs_append_extent_slice new_buf ext
      (u32 (ee_block ext - collapse_blocks)) len (ee_start ext) in ret (r, new_buf, freed)
  else
  let! (r, new_buf) := (if ee_block ext <? start_block
    then simplefs_append_extent_slice new_buf ext (ee_block ext) (u32 (start_block - ee_block ext)) (ee_start ext)
    else ret (0, new_buf)) in
  if negb (r =? 0) then ret (r, new_buf, freed) else
  let overlap_start := Z.max (ee_block ext) start_block in
  let overlap_end := Z.min ee_end end_block in
  let freed := if overlap_start <? overlap_end
    then freed ++ [(u32 (ee_start ext + (overlap_start - ee_block ext)), u32 (overlap_end - overlap_start))]
    else freed in
  let! (r, new_buf) := (if end_block <? ee_end
    then simplefs_append_extent_slice new_buf ext (u32 (end_block - collapse_blocks)) (u32 (ee_end - end_block))
           (u32 (ee_start ext + u32 (end_block - ee_block ext)))
    else ret (0, new_buf)) in
  ret (r, new_buf, freed).

Fixpoint collapse_loop (l : list extent) (start_block end_block : Z) (new_buf : extent_buffer)
    (freed : list block_range) : M (Z * extent_buffer * list block_range) :=
  match l with
  | [] => ret (0, new_buf, freed)
  | ext :: rest =>
      let! (r, new_buf, freed) := collapse_one start_block end_block ext new_buf freed in
      if negb (r =? 0) then ret (r, new_buf, freed)
      else collapse_loop rest start_block end_block new_buf freed
  end.

(** The leaves of the tree change hands: the rebuilt extents with the old buffer's
    leaf blocks. *)
Definition take_leaves (new_buf buf : extent_buffer) : extent_buffer :=
  ExtentBuffer (eb_extents new_buf) (eb_capacity new_buf) (eb_leaf_blocks buf).

(** [simplefs_fallocate_collapse] under the extent lock. *)
Definition collapse_extents (ino start_block end_block len : Z) : M Z :=
  let! i := get_inode ino in
  let! (r, buf) := simplefs_file_load_extents (ei_block i) in
  if negb (r =? 0) then ret r else
  let! ok := alloc_ranges buf in
  if negb ok then ret (- ENOMEM) else
  let! (r, new_buf, freed) := collapse_loop (eb_extents buf) start_block end_block eb_empty [] in
  if negb (r =? 0) then ret r else
  let new_buf := take_leaves (simplefs_file_normalize_extents new_buf) buf in
  let! (r, _) := simplefs_file_sync_extents ino new_buf in
  if negb (r =? 0) then ret r else
  run! each_list freed (fun f => put_blocks f.1 f.2) in
  run! upd_inode ino (simplefs_prealloc_collapse start_block (u32 (end_block - start_block))) in
  run! upd_inode ino (fun i => set_i_size (i_size i - len) i) in
  run! upd_inode ino (fun i => set_i_blocks
         (u64 (i_blocks i - simplefs_blocks_to_sectors (blocks_freed freed))) i) in
  ret 0.

(** ** Inserting: a hole of [insert_blocks] at [start_block], what follows moves up *)

Definition insert_one (start_block insert_blocks : Z) (ext : extent) (new_buf : extent_buffer)
    : M (Z * extent_buffer) :=
  let len := simplefs_ext_len ext in
  let ee_end := u32 (ee_block ext + len) in
  if simplefs_extent_is_empty ext then ret (0, new_buf) else
  if ee_end <=? start_block then simplefs_file_append_extent new_buf ext else
  if start_block <=? ee_block ext then
    simplefs_append_extent_slice new_buf ext (u32 (ee_block ext + insert_blocks)) len (ee_start ext)
  else
  let head_len := u32 (start_block - ee_block ext) in
  let tail_len := u32 (ee_end - start_block) in
  let! (r, new_buf) := simplefs_append_extent_slice new_buf ext (ee_block ext) head_len (ee_start ext) in
  if negb (r =? 0) then ret (r, new_buf) else
  simplefs_append_extent_slice new_buf ext (u32 (start_block + insert_blocks)) tail_len
    (u32 (ee_start ext + head_len)).

Fixpoint insert_loop (l : list extent) (start_block insert_blocks : Z) (new_buf : extent_buffer)
    : M (Z * extent_buffer) :=
  match l with
  | [] => ret (0, new_buf)
  | ext :: rest =>
      let! (r, new_buf) := insert_one start_block insert_blocks ext new_buf in
      if negb (r =? 0) then ret (r, new_buf)
      else insert_loop rest start_block insert_blocks new_buf
  end.

(** [simplefs_fallocate_insert] under the extent lock. *)
Definition insert_extents (ino start_block insert_blocks len : Z) : M Z :=
  let! i := get_inode ino in
  let! (r, buf) := simplefs_file_load_extents (ei_block i) in
  if negb (r =? 0) then ret r else
  let! (r, new_buf) := insert_loop (eb_extents buf) start_block insert_blocks eb_empty in
  if negb (r =? 0) then ret r else
  let new_buf := take_leaves (simplefs_file_normalize_extents new_buf) buf in
  let! (r, _) := simplefs_file_sync_extents ino new_buf in
  if negb (r =? 0) then ret r else
  run! upd_inode ino (simplefs_prealloc_insert start_block insert_blocks) in
  run! upd_inode ino (fun i => set_i_size (i_size i + len) i) in
  ret 0.

End Ops.

(** ** The new mapping and the freed blocks *)

Definition in_ranges (fr : list block_range) (p : Z) : Prop := exists s n, In (s, n) fr /\ s <= p < s + n.

Lemma in_ranges_nil p : in_ranges [] p <-> False.
Proof. split; [by intros (s & n & [] & _)|done]. Qed.
Lemma in_ranges_cons s n fr p : in_ranges ((s, n) :: fr) p <-> s <= p < s + n \/ in_ranges fr p.
Proof.
  split.
  - intros (s' & n' & [E|Hin] & Hr); [left; congruence || (injection E as <- <-; done)|]. right. by exists s', n'.
  - intros [H|(s' & n' & Hin & H)]; [exists s, n|exists s', n']; split; auto; [by left|by right].
Qed.
Lemma in_ranges_app a b p : in_ranges (a ++ b) p <-> in_ranges a p \/ in_ranges b p.
Proof.
  induction a as [|[s n] a IH]; cbn [app]; [rewrite in_ranges_nil; tauto|]. rewrite !in_ranges_cons, IH. tauto.
Qed.

(** An extent as an interval of the mapping. *)
Definition spans (b0 n p0 : Z) (v : bool) (b p : Z) (u : bool) : Prop :=
  b0 <= b < b0 + n /\ p = p0 + (b - b0) /\ u = v.

Lemma spans_ext e b p u : nonempty e ->
  ext_maps e b p u <-> spans (ee_block e) (simplefs_ext_len e) (ee_start e) (simplefs_ext_unwritten e) b p u.
Proof. unfold ext_maps, spans, nonempty. intros H. split; [intros (_ & ?)|intros ?; split]; done. Qed.

Lemma nonempty_intro e : ee_start e <> 0 -> 0 < simplefs_ext_len e -> nonempty e.
Proof. intros. by apply nonempty_len. Qed.

Lemma ext_init_u32 b n p u : is_u32 b -> is_u32 p -> ext_u32 (simplefs_ext_init b n p u).
Proof.
  intros Hb Hp. split_and!; [done| |done]. unfold is_u32, U32_MAX. cbn [simplefs_ext_init ee_len].
  assert (H : 0 <= Z.land n SIMPLEFS_EXTENT_LEN_MASK < 2 ^ 31).
  { rewrite len_mask_ones, Z.land_ones by lia. pose proof (Z.mod_pos_bound n (2 ^ 31)). lia. }
  destruct u; [|lia]. change SIMPLEFS_EXTENT_UNWRITTEN with (2 ^ 31).
  assert (Z.lor (Z.land n SIMPLEFS_EXTENT_LEN_MASK) (2 ^ 31) < 2 ^ 32); [|split; [apply Z.lor_nonneg|]; lia].
  apply Z.log2_lt_cancel. rewrite Z.log2_lor by lia. rewrite !Z.log2_pow2 by lia.
  destruct (Z.eq_dec (Z.land n SIMPLEFS_EXTENT_LEN_MASK) 0) as [->|]; [done|].
  assert (Z.log2 (Z.land n SIMPLEFS_EXTENT_LEN_MASK) < 31) by (apply Z.log2_lt_pow2; lia). lia.
Qed.

(** ** The parts of a good extent [e] that the operations make *)
Section Parts.
Context (e : extent).
Hypothesis Hok : ext_ok e.
Hypothesis Hu : ext_u32 e.
Hypothesis Hne : nonempty e.

(** [x] maps [n] logical blocks from [b0] to the blocks of [e] from offset [k]. *)
Definition slice_of (x : extent) (b0 n k : Z) : Prop :=
  ext_ok x /\ ext_u32 x /\ nonempty x /\ ee_block x = b0 /\ simplefs_ext_len x = n /\
  forall b p u, ext_maps x b p u <-> spans b0 n (ee_start e + k) (simplefs_ext_unwritten e) b p u.

Lemma slice_self : slice_of e (ee_block e) (simplefs_ext_len e) 0.
Proof. split_and!; try done. intros. by rewrite spans_ext, Z.add_0_r. Qed.

Lemma slice_init b0 n k :
  0 <= b0 -> 0 < n -> 0 <= k -> k + n <= simplefs_ext_len e -> b0 + n <= U32_MAX ->
  slice_of (simplefs_ext_init b0 n (ee_start e + k) (simplefs_ext_unwritten e)) b0 n k.
Proof.
  intros Hb0 Hn Hk Hkn Hb0n. set (x := simplefs_ext_init _ _ _ _). pose proof (ext_len_bounds e) as Hb.
  pose proof (proj1 (nonempty_len e) Hne) as [H1 H2]. destruct Hok as (O1 & O2 & O3 & O4).
  assert (Hl : simplefs_ext_len x = n) by (apply ext_init_len; lia).
  assert (Hn' : nonempty x) by (apply nonempty_intro; [cbn; lia|lia]).
  split_and!; try done.
  - unfold ext_ok. rewrite Hl. cbn [ee_block ee_start x simplefs_ext_init]. lia.
  - apply ext_init_u32; unfold is_u32; lia.
  - intros b p u. rewrite spans_ext by done. rewrite Hl. unfold x. rewrite ext_init_unwritten by lia. done.
Qed.

(** The head or the tail is kept in place by changing the fields. *)
Lemma slice_set_len k n : 0 <= k -> 0 < n -> k + n <= simplefs_ext_len e ->
  slice_of (simplefs_ext_set_len (Extent (ee_block e + k) (ee_len e) (ee_start e + k)) n) (ee_block e + k) n k.
Proof.
  intros Hk Hn Hkn. set (y := Extent _ _ _). pose proof (ext_len_bounds e) as Hb.
  pose proof (proj1 (nonempty_len e) Hne) as [H1 H2]. destruct Hok as (O1 & O2 & O3 & O4).
  assert (Hl : simplefs_ext_len (simplefs_ext_set_len y n) = n) by (apply ext_set_len_len; lia).
  assert (Hn' : nonempty (simplefs_ext_set_len y n)) by (apply nonempty_intro; [cbn; lia|lia]).
  split_and!; try done.
  - unfold ext_ok. rewrite Hl. cbn [ee_block ee_start y simplefs_ext_set_len]. lia.
  - apply ext_set_len_u32. destruct Hu as (U1 & U2 & U3). split_and!; [|done|]; unfold is_u32; cbn [y ee_block ee_start]; lia.
  - intros b p u. rewrite spans_ext, Hl, ext_set_len_unwritten by (done || lia). done.
Qed.
Lemma slice_head n : 0 < n <= simplefs_ext_len e -> slice_of (simplefs_ext_set_len e n) (ee_block e) n 0.
Proof.
  intros Hn. pose proof (slice_set_len 0 n ltac:(lia) ltac:(lia) ltac:(lia)) as H.
  rewrite !Z.add_0_r in H. by destruct e.
Qed.
End Parts.

Lemma clear_empty e : simplefs_extent_is_empty (simplefs_extent_clear e) = true.
Proof. done. Qed.
Lemma clear_ok e : ext_ok (simplefs_extent_clear e).
Proof. vm_compute. intuition discriminate. Qed.
Lemma clear_u32 e : ext_u32 (simplefs_extent_clear e).
Proof. vm_compute. intuition discriminate. Qed.


(** ** Moving a mapping

    [f] says where a logical block goes, [None] that it leaves the file.  The new
    extents map what [f] moves, the freed ranges are what it drops. *)
Definition moved (f : Z -> option Z) (l out : list extent) (freed : list block_range) : Prop :=
  (forall b p u, maps out b p u <-> exists b0, maps l b0 p u /\ f b0 = Some b) /\
  (forall p, in_ranges freed p <-> exists b u, maps l b p u /\ f b = None).

Lemma moved_nil f : moved f [] [] [].
Proof.
  split.
  - intros b p u. rewrite maps_nil. split; [done|]. intros (b0 & H & _). by apply maps_nil in H.
  - intros p. rewrite in_ranges_nil. split; [done|]. intros (b & u & H & _). by apply maps_nil in H.
Qed.

Lemma moved_app f l1 l2 o1 o2 r1 r2 :
  moved f l1 o1 r1 -> moved f l2 o2 r2 -> moved f (l1 ++ l2) (o1 ++ o2) (r1 ++ r2).
Proof.
  intros [M1 R1] [M2 R2]. split.
  - intros b p u. rewrite maps_app, M1, M2. setoid_rewrite maps_app. split.
    + intros [(b0 & ? & ?)|(b0 & ? & ?)]; exists b0; tauto.
    + intros (b0 & [?|?] & ?); [left|right]; by exists b0.
  - intros p. rewrite in_ranges_app, R1, R2. setoid_rewrite maps_app. split.
    + intros [(b0 & u & ? & ?)|(b0 & u & ? & ?)]; exists b0, u; tauto.
    + intros (b0 & u & [?|?] & ?); [left|right]; by exists b0, u.
Qed.

(** For one extent the old logical block is a function of the physical one. *)
Lemma moved_one f e out freed : nonempty e ->
  (forall b p u, maps out b p u <->
     ee_start e <= p < ee_start e + simplefs_ext_len e /\ u = simplefs_ext_unwritten e /\
     f (ee_block e + (p - ee_start e)) = Some b) ->
  (forall p, in_ranges freed p <->
     ee_start e <= p < ee_start e + simplefs_ext_len e /\ f (ee_block e + (p - ee_start e)) = None) ->
  moved f [e] out freed.
Proof.
  intros Hne HM HR.
  assert (He : forall b p u, maps [e] b p u <->
    b = ee_block e + (p - ee_start e) /\ ee_start e <= p < ee_start e + simplefs_ext_len e /\
    u = simplefs_ext_unwritten e).
  { intros b p u. rewrite maps_cons, maps_nil, spans_ext by done. unfold spans.
    split; [intros [(H1 & -> & ->)|[]]; split_and!; lia || done|].
    intros (-> & H & ->). left. split_and!; lia || done. }
  split.
  - intros b p u. rewrite HM. setoid_rewrite He. split.
    + intros (H1 & H2 & H3). eexists. split_and!; reflexivity || lia || done.
    + intros (b0 & (-> & H1 & H2) & H3). done.
  - intros p. rewrite HR. setoid_rewrite He. split.
    + intros (H1 & H2). eexists _, _. split_and!; reflexivity || lia || done.
    + intros (b0 & u & (-> & H1 & H2) & H3). done.
Qed.

(** Nonempty extents between [lo] and [hi]. *)
Definition fits (lo hi : Z) (l : list extent) : Prop :=
  chain lo l /\ Forall (fun e => nonempty e -> ee_block e + simplefs_ext_len e <= hi) l.

Lemma fits_app es : forall lo hi l, lo <= hi -> fits lo hi es -> chain hi l -> chain lo (es ++ l).
Proof.
  induction es as [|e es IH]; intros lo hi l Hle [Hc Hf] Hl; cbn [app]; [by apply (chain_lower l hi)|].
  apply Forall_cons in Hf as [He Hf]. cbn [chain] in *. unfold nonempty in *.
  destruct (simplefs_extent_is_empty e); [by apply (IH lo hi); [|split|]|].
  destruct Hc as [H1 H2]. specialize (He eq_refl). split; [done|]. by apply (IH _ hi); [|split|].
Qed.


(** What one extent [e] becomes: the pieces and the freed ranges. *)
Record piece_ok (f : Z -> option Z) (g : Z -> Z) (e : extent) (out : list extent)
    (freed : list block_range) : Prop := PieceOk {
  po_moved : moved f [e] out freed;
  po_ok : Forall ext_ok out;
  po_u32 : Forall ext_u32 out;
  po_fits : fits (g (ee_block e)) (g (ee_block e + simplefs_ext_len e)) out;
  po_freed : (length freed <= 1)%nat;
  po_lens : Forall (fun r => 0 < snd r <= SIMPLEFS_MAX_BLOCKS_PER_EXTENT) freed
}.

(** An operation that treats every extent on its own: [op e] are the pieces. *)
Definition pieces (op : extent -> list extent * list block_range) (l : list extent) : list extent :=
  flat_map (fun e => fst (op e)) l.
Definition ranges (op : extent -> list extent * list block_range) (l : list extent) : list block_range :=
  flat_map (fun e => snd (op e)) l.

Lemma pieces_moved f g op l : Forall (fun e => piece_ok f g e (fst (op e)) (snd (op e))) l ->
  moved f l (pieces op l) (ranges op l).
Proof.
  induction 1 as [|e l [P1 _ _ _ _ _] _ IH]; [apply moved_nil|]. by apply (moved_app f [e] l).
Qed.

Lemma pieces_spec f g op l : (forall a b, a <= b -> g a <= g b) ->
  Forall nonempty l -> Forall (fun e => piece_ok f g e (fst (op e)) (snd (op e))) l ->
  moved f l (pieces op l) (ranges op l) /\ Forall ext_ok (pieces op l) /\ Forall ext_u32 (pieces op l) /\
  (length (ranges op l) <= length l)%nat /\
  Forall (fun r => 0 < snd r <= SIMPLEFS_MAX_BLOCKS_PER_EXTENT) (ranges op l) /\
  (forall lo, chain lo l -> chain (g lo) (pieces op l)).
Proof.
  intros Hg Hne Hop. induction l as [|e l IH]; [split_and!; (apply moved_nil || done)|].
  apply Forall_cons in Hne as [He Hne], Hop as [[P1 P2 P3 P4 P5 P6] Hop].
  destruct (IH Hne Hop) as (M & O & U & L & Q & C). unfold pieces, ranges. cbn [flat_map].
  split_and!; [by apply (moved_app f [e] l)|by apply Forall_app|by apply Forall_app|
    rewrite length_app; cbn [length]; unfold ranges in L; lia|by apply Forall_app|].
  intros lo Hc. apply chain_nonempty in Hc as [Hlo Hc]; [|done]. pose proof (ext_len_bounds e) as Hb.
  apply (fits_app _ _ (g (ee_block e + simplefs_ext_len e))); [apply Hg; lia| |by apply C].
  destruct P4 as [F1 F2]. split; [|done]. eapply chain_lower; [|done]. by apply Hg.
Qed.

(** ** What each operation does to one extent *)

Definition trunc_map (nb b : Z) : option Z := if b <? nb then Some b else None.
Definition punch_map (a z b : Z) : option Z := if b <? a then Some b else if b <? z then None else Some b.
Definition collapse_map (s e b : Z) : option Z :=
  if b <? s then Some b else if b <? e then None else Some (b - (e - s)).
Definition insert_map (s n b : Z) : option Z := if b <? s then Some b else Some (b + n).

Definition trunc_piece (nb : Z) (e : extent) : list extent * list block_range :=
  let len := simplefs_ext_len e in
  if nb <=? ee_block e then ([simplefs_extent_clear e], [(ee_start e, len)])
  else if nb <? ee_block e + len then
    ([simplefs_ext_set_len e (nb - ee_block e)], [(ee_start e + (nb - ee_block e), len - (nb - ee_block e))])
  else ([e], []).

Definition punch_piece (a z : Z) (e : extent) : list extent * list block_range :=
  let b := ee_block e in
  let len := simplefs_ext_len e in
  if (b + len <=? a) || (z <=? b) then ([e], [])
  else if (a <=? b) && (b + len <=? z) then ([simplefs_extent_clear e], [(ee_start e, len)])
  else if (b <? a) && (z <? b + len) then
    ([simplefs_ext_set_len e (a - b);
      simplefs_ext_init z (b + len - z) (ee_start e + (z - b)) (simplefs_ext_unwritten e)],
     [(ee_start e + (a - b), z - a)])
  else if b <? a then ([simplefs_ext_set_len e (a - b)], [(ee_start e + (a - b), len - (a - b))])
  else ([simplefs_ext_set_len (Extent (b + (z - b)) (ee_len e) (ee_start e + (z - b))) (len - (z - b))],
        [(ee_start e, z - b)]).

Definition collapse_piece (s e : Z) (x : extent) : list extent * list block_range :=
  let b := ee_block x in
  let len := simplefs_ext_len x in
  let u := simplefs_ext_unwritten x in
  if b + len <=? s then ([x], [])
  else if e <=? b then ([simplefs_ext_init (b - (e - s)) len (ee_start x + 0) u], [])
  else
    ((if b <? s then [simplefs_ext_init b (s - b) (ee_start x + 0) u] else []) ++
     (if e <? b + len then [simplefs_ext_init s (b + len - e) (ee_start x + (e - b)) u] else []),
     (if Z.max b s <? Z.min (b + len) e
      then [(ee_start x + (Z.max b s - b), Z.min (b + len) e - Z.max b s)] else [])).

Definition insert_piece (s n : Z) (x : extent) : list extent * list block_range :=
  let b := ee_block x in
  let len := simplefs_ext_len x in
  let u := simplefs_ext_unwritten x in
  if b + len <=? s then ([x], [])
  else if s <=? b then ([simplefs_ext_init (b + n) len (ee_start x + 0) u], [])
  else ([simplefs_ext_init b (s - b) (ee_start x + 0) u;
         simplefs_ext_init (s + n) (b + len - s) (ee_start x + (s - b)) u], []).

(** Interval reasoning: tests become inequalities, conjunctions and disjunctions
    of linear facts are decided branch by branch. *)
Ltac tests :=
  repeat match goal with
  | |- context [?a <? ?b] => destruct (Z.ltb_spec a b)
  | |- context [?a <=? ?b] => destruct (Z.leb_spec a b)
  end; cbn [andb orb negb].
Ltac linear := repeat split; try done; try (f_equal; lia); lia.
Ltac branch := first [linear | left; branch | right; branch].
Ltac intervals :=
  split;
  [ intros; destruct_or?; destruct_and?; simplify_eq; branch
  | intros; destruct_or?; destruct_and?; simplify_eq; branch ].

Lemma slice_fits e x b0 n k lo hi : slice_of e x b0 n k -> lo <= b0 -> b0 + n <= hi ->
  fits lo hi [x].
Proof.
  intros (_ & _ & H1 & H2 & H3 & _) Hlo Hhi. split.
  - apply chain_nonempty; [done|]. split; [lia|done].
  - constructor; [|done]. intros _. lia.
Qed.

Lemma fits_cons lo mid hi x l : lo <= mid -> mid <= hi -> fits lo mid [x] -> fits mid hi l -> fits lo hi (x :: l).
Proof.
  intros H1 H2 F1 [C2 F2]. split; [by apply (fits_app [x] lo mid)|].
  destruct F1 as [_ F1]. apply Forall_cons in F1 as [F1 _]. constructor; [|done]. intros Hn. specialize (F1 Hn). lia.
Qed.
Lemma fits_nil lo hi : fits lo hi [].
Proof. by split. Qed.
Lemma fits_clear lo hi e : fits lo hi [simplefs_extent_clear e].
Proof. split; [done|]. by constructor. Qed.
Lemma maps_clear e l b p u : maps (simplefs_extent_clear e :: l) b p u <-> maps l b p u.
Proof. rewrite maps_cons. split; [intros [H|H]; [by apply empty_maps in H|done]|by right]. Qed.
Lemma slice_maps e x b0 n k b p u : slice_of e x b0 n k ->
  ext_maps x b p u <-> b0 <= b < b0 + n /\ p = ee_start e + k + (b - b0) /\ u = simplefs_ext_unwritten e.
Proof. by intros (_ & _ & _ & _ & _ & ->). Qed.

(** The mapping half of [piece_ok] from the slices in the context. *)
Ltac slices_moved :=
  apply moved_one; [done|intros ?b ?p ?u|intros ?p];
  rewrite ?maps_clear, ?maps_cons, ?maps_nil, ?in_ranges_cons, ?in_ranges_nil;
  repeat match goal with H : slice_of _ ?x _ _ _ |- context [ext_maps ?x _ _ _] => rewrite (slice_maps _ _ _ _ _ _ _ _ H) end;
  unfold trunc_map, punch_map, collapse_map, insert_map; tests; intervals.
Ltac slices_sound :=
  repeat first [apply Forall_nil_2 | apply Forall_cons_2]; first [apply clear_ok | apply clear_u32 | by match goal with H : slice_of _ ?x _ _ _ |- _ ?x => apply H end].

Ltac lens := repeat constructor; cbn [fst snd]; match goal with e : extent |- _ => pose proof (ext_len_bounds e) end; lia.
Ltac piece_done :=
  constructor; [slices_moved|slices_sound|slices_sound|
    first [apply fits_clear | apply fits_nil | eapply slice_fits; [eassumption|lia..]
          | eapply fits_cons; [| |eapply slice_fits; [eassumption|reflexivity|reflexivity]|eapply slice_fits; [eassumption|lia..]]; lia]|
    cbn; lia|lens].

Section Pieces.
Context (e : extent).
Hypothesis Hok : ext_ok e.
Hypothesis Hu : ext_u32 e.
Hypothesis Hne : nonempty e.

Lemma trunc_piece_ok nb :
  piece_ok (trunc_map nb) (fun b => b) e (fst (trunc_piece nb e)) (snd (trunc_piece nb e)).
Proof.
  pose proof (proj1 (nonempty_len e) Hne) as [_ Hl]. unfold trunc_piece. tests; try lia; cbn [fst snd].
  - piece_done.
  - pose proof (slice_head e Hok Hu Hne (nb - ee_block e) ltac:(lia)) as S1. piece_done.
  - pose proof (slice_self e Hok Hu Hne) as S1. piece_done.
Qed.

Lemma punch_piece_ok a z : 0 <= a < z ->
  piece_ok (punch_map a z) (fun b => b) e (fst (punch_piece a z e)) (snd (punch_piece a z e)).
Proof.
  intros Haz. pose proof (proj1 (nonempty_len e) Hne) as [_ Hl]. pose proof Hok as (O1 & O2 & O3 & O4).
  unfold punch_piece. tests; cbn [fst snd]; try lia;
  try (pose proof (slice_self e Hok Hu Hne) as S1; piece_done); try piece_done.
  - pose proof (slice_head e Hok Hu Hne (a - ee_block e) ltac:(lia)) as S1.
    pose proof (slice_init e Hok Hne z (ee_block e + simplefs_ext_len e - z) (z - ee_block e)
                  ltac:(lia) ltac:(lia) ltac:(lia) ltac:(lia) ltac:(lia)) as S2. piece_done.
  - pose proof (slice_head e Hok Hu Hne (a - ee_block e) ltac:(lia)) as S1. piece_done.
  - pose proof (slice_set_len e Hok Hu Hne (z - ee_block e) (simplefs_ext_len e - (z - ee_block e))
                  ltac:(lia) ltac:(lia) ltac:(lia)) as S1. piece_done.
Qed.

Lemma collapse_piece_ok s z : 0 <= s < z ->
  piece_ok (collapse_map s z) (fun b => if b <? s then b else if b <? z then s else b - (z - s)) e
    (fst (collapse_piece s z e)) (snd (collapse_piece s z e)).
Proof.
  intros Haz. pose proof (proj1 (nonempty_len e) Hne) as [_ Hl]. pose proof Hok as (O1 & O2 & O3 & O4).
  pose proof (ext_len_bounds e) as Hb. unfold collapse_piece. cbv zeta.
  pose proof (slice_self e Hok Hu Hne) as S0.
  destruct (Z.leb_spec (ee_block e + simplefs_ext_len e) s); cbn [fst snd].
  { constructor; [slices_moved|slices_sound|slices_sound|tests; try lia; (eapply slice_fits; [eassumption|lia..])|cbn; lia|lens]. }
  destruct (Z.leb_spec z (ee_block e)); cbn [fst snd].
  { pose proof (slice_init e Hok Hne (ee_block e - (z - s)) (simplefs_ext_len e) 0
      ltac:(lia) ltac:(lia) ltac:(lia) ltac:(lia) ltac:(lia)) as S1.
    constructor; [slices_moved|slices_sound|slices_sound|tests; try lia; (eapply slice_fits; [eassumption|lia..])|cbn; lia|lens]. }
  rewrite (proj2 (Z.ltb_lt (Z.max _ _) _)) by lia.
  destruct (Z.ltb_spec (ee_block e) s), (Z.ltb_spec z (ee_block e + simplefs_ext_len e)); cbn [app].
  all: try pose proof (slice_init e Hok Hne (ee_block e) (s - ee_block e) 0
      ltac:(lia) ltac:(lia) ltac:(lia) ltac:(lia) ltac:(lia)) as S1.
  all: try pose proof (slice_init e Hok Hne s (ee_block e + simplefs_ext_len e - z) (z - ee_block e)
      ltac:(lia) ltac:(lia) ltac:(lia) ltac:(lia) ltac:(lia)) as S2.
  all: constructor; [slices_moved|slices_sound|slices_sound|tests; try lia|cbn; lia|lens].
  all: first [apply fits_nil | eapply slice_fits; [eassumption|lia..]
    | eapply fits_cons; [| |eapply slice_fits; [eassumption|reflexivity|reflexivity]|eapply slice_fits; [eassumption|lia..]]; lia].
Qed.

Lemma insert_piece_ok s n : 0 <= s -> 0 <= n -> ee_block e + simplefs_ext_len e + n <= U32_MAX ->
  piece_ok (insert_map s n) (fun b => if b <? s then b else b + n) e
    (fst (insert_piece s n e)) (snd (insert_piece s n e)).
Proof.
  intros Hs Hn Hmax. pose proof (proj1 (nonempty_len e) Hne) as [_ Hl]. pose proof Hok as (O1 & O2 & O3 & O4).
  pose proof (ext_len_bounds e) as Hb. unfold insert_piece. cbv zeta.
  pose proof (slice_self e Hok Hu Hne) as S0.
  destruct (Z.leb_spec (ee_block e + simplefs_ext_len e) s); cbn [fst snd].
  { constructor; [slices_moved|slices_sound|slices_sound|tests; try lia; (eapply slice_fits; [eassumption|lia..])|cbn; lia|lens]. }
  destruct (Z.leb_spec s (ee_block e)); cbn [fst snd].
  - pose proof (slice_init e Hok Hne (ee_block e + n) (simplefs_ext_len e) 0
      ltac:(lia) ltac:(lia) ltac:(lia) ltac:(lia) ltac:(lia)) as S1.
    constructor; [slices_moved|slices_sound|slices_sound|tests; try lia; (eapply slice_fits; [eassumption|lia..])|cbn; lia|lens].
  - pose proof (slice_init e Hok Hne (ee_block e) (s - ee_block e) 0
      ltac:(lia) ltac:(lia) ltac:(lia) ltac:(lia) ltac:(lia)) as S1.
    pose proof (slice_init e Hok Hne (s + n) (ee_block e + simplefs_ext_len e - s) (s - ee_block e)
      ltac:(lia) ltac:(lia) ltac:(lia) ltac:(lia) ltac:(lia)) as S2.
    constructor; [slices_moved|slices_sound|slices_sound|tests; try lia|cbn; lia|lens].
    eapply fits_cons; [| |eapply slice_fits; [eassumption|reflexivity|reflexivity]|eapply slice_fits; [eassumption|lia..]]; lia.
Qed.
End Pieces.

(** ** The loops apply the pieces *)

Lemma pieces_cons op e l : pieces op (e :: l) = fst (op e) ++ pieces op l.
Proof. done. Qed.
Lemma ranges_cons op e l : ranges op (e :: l) = snd (op e) ++ ranges op l.
Proof. done. Qed.

(** Wrapped sums of a good extent are the sums. *)
Ltac unwrap :=
  repeat match goal with |- context [u32 ?x] => rewrite (u32_id x) by (unfold is_u32, U32_MAX in *; lia) end.

Lemma truncate_loop_pieces nb l : 0 <= nb -> Forall ext_ok l ->
  truncate_loop l nb = (pieces (trunc_piece nb) l, ranges (trunc_piece nb) l).
Proof.
  intros Hnb Hok. induction Hok as [|e l He Hok IH]; [done|]. cbn [truncate_loop]. rewrite IH.
  pose proof (ext_len_bounds e) as Hb. destruct He as (O1 & O2 & O3 & O4).
  rewrite pieces_cons, ranges_cons. generalize (pieces (trunc_piece nb) l) (ranges (trunc_piece nb) l). intros ps rs.
  unfold trunc_piece.
  destruct (Z.leb_spec nb (ee_block e)); [done|]. rewrite (u32_id (_ + _)) by (unfold is_u32; lia).
  destruct (Z.ltb_spec nb (ee_block e + simplefs_ext_len e)); [|done]. by unwrap.
Qed.

Section Loops.
Context {K : Kernel}.

Lemma punch_loop_pieces a z : 0 <= a < z -> z <= U32_MAX -> forall rest pre buf freed w,
  eb_extents buf = pre ++ rest -> Forall ext_ok rest ->
  wp (punch_loop (length rest) (Z.of_nat (length pre)) a z buf freed) (fun res _ =>
    let '(r, buf', freed') := res in eb_leaf_blocks buf' = eb_leaf_blocks buf /\
    (r = - ENOMEM \/ (r = 0 /\ eb_extents buf' = pre ++ pieces (punch_piece a z) rest /\
                      freed' = freed ++ ranges (punch_piece a z) rest))) w.
Proof.
  intros Haz Hz. induction rest as [|e rest IH]; intros pre buf freed w Hbuf Hok; cbn [length punch_loop].
  { apply wp_ret. split; [done|]. right. unfold pieces, ranges. cbn [flat_map]. by rewrite Hbuf, !app_nil_r. }
  apply Forall_cons in Hok as [He Hok]. pose proof (ext_len_bounds e) as Hb. destruct He as (O1 & O2 & O3 & O4).
  assert (Hat : ext_at (eb_extents buf) (Z.of_nat (length pre)) = e).
  { unfold ext_at. rewrite Hbuf, Nat2Z.id, app_nth2, Nat.sub_diag by lia. done. }
  rewrite Hat, Nat2Z.id. cbv zeta. rewrite (u32_id (ee_block e + _)) by (unfold is_u32; lia).
  rewrite pieces_cons, ranges_cons. unfold punch_piece at 1 3. cbv zeta.
  assert (Hnext : forall es fr buf', eb_extents buf' = (pre ++ es) ++ rest -> eb_leaf_blocks buf' = eb_leaf_blocks buf ->
    forall i w', i = Z.of_nat (length (pre ++ es)) ->
    wp (punch_loop (length rest) i a z buf' (freed ++ fr)) (fun res _ =>
      let '(r, buf', freed') := res in eb_leaf_blocks buf' = eb_leaf_blocks buf /\
      (r = - ENOMEM \/ (r = 0 /\ eb_extents buf' = pre ++ es ++ pieces (punch_piece a z) rest /\
                        freed' = freed ++ fr ++ ranges (punch_piece a z) rest))) w').
  { intros es fr buf' He Hl i w' ->. eapply wp_mono; [by apply IH|]. intros [[r b'] f'] w2. rewrite Hl, <- !app_assoc. done. }
  assert (Hset : forall x, <[length pre := x]> (eb_extents buf) = (pre ++ [x]) ++ rest).
  { intros x. rewrite Hbuf, <- app_assoc. cbn. rewrite insert_app_r_alt, Nat.sub_diag by lia. done. }
  assert (Hlen1 : forall x : extent, Z.of_nat (length pre) + 1 = Z.of_nat (length (pre ++ [x])))
    by (intros; rewrite length_app; cbn; lia).
  tests; try lia; cbn [fst snd].
  all: try (rewrite <- (app_nil_r freed) at 1; apply (Hnext [e] []); [by rewrite <- app_assoc|done|by apply Hlen1]).
  all: unwrap.
  all: try (apply Hnext; [apply Hset|done|apply Hlen1]).
  - apply wp_bind. eapply wp_mono; [apply insert_spec|]. intros [r b'] w' [Hl Hr]; cbn beta in *.
    destruct Hr as [[-> Hr]| ->]; cbn [Z.eqb negb]; [|apply wp_ret; split; [exact Hl|by left]].
    apply Hnext; [|exact Hl|rewrite length_app; cbn; lia].
    rewrite Hr. cbn [eb_set_extents eb_extents]. rewrite Hset. unfold insert_at.
    replace (Z.to_nat (Z.of_nat (length pre) + 1)) with (length (pre ++ [simplefs_ext_set_len e (a - ee_block e)]))
      by (rewrite length_app; cbn; lia).
    rewrite take_app_length, drop_app_length, <- !app_assoc. cbn. do 4 f_equal. lia.
  - apply Hnext; [|done|apply Hlen1]. cbn [eb_set_extents eb_extents]. rewrite Hset. do 5 f_equal. lia.
Qed.

(** Appending a run of extents. *)
Definition appends (res : Z * extent_buffer) (buf : extent_buffer) (es : list extent) : Prop :=
  eb_leaf_blocks (snd res) = eb_leaf_blocks buf /\
  (fst res = - ENOMEM \/ (fst res = 0 /\ eb_extents (snd res) = eb_extents buf ++ es)).

Lemma append_appends buf e w :
  wp (simplefs_file_append_extent buf e) (fun rb _ => appends rb buf [e]) w.
Proof.
  eapply wp_mono; [apply append_spec|]. intros [r b'] w' [Hl [[-> H]|[-> ->]]]; split; auto.
Qed.
Lemma slice_appends buf src b n p w : 0 < n ->
  wp (simplefs_append_extent_slice buf src b n p) (fun rb _ =>
    appends rb buf [simplefs_ext_init b n p (simplefs_ext_unwritten src)]) w.
Proof.
  intros Hn. unfold simplefs_append_extent_slice. rewrite (proj2 (Z.eqb_neq n 0)) by lia. apply append_appends.
Qed.

Lemma collapse_one_piece s z e buf freed w : 0 <= s < z -> z <= U32_MAX -> ext_ok e -> nonempty e ->
  wp (collapse_one s z e buf freed) (fun res _ => let '(r, buf', freed') := res in
    appends (r, buf') buf (fst (collapse_piece s z e)) /\
    (r = 0 -> freed' = freed ++ snd (collapse_piece s z e))) w.
Proof.
  intros Hsz Hz (O1 & O2 & O3 & O4) Hne. pose proof (ext_len_bounds e) as Hb.
  pose proof (proj1 (nonempty_len e) Hne) as [_ Hl]. unfold collapse_one, collapse_piece. rewrite Hne. cbv zeta.
  rewrite (u32_id (ee_block e + _)) by (unfold is_u32; lia). rewrite !Z.add_0_r.
  destruct (Z.leb_spec (ee_block e + simplefs_ext_len e) s).
  { apply wp_bind. eapply wp_mono; [apply append_appends|]. intros [r b'] w' H'. apply wp_ret.
    split; [done|]. intros _. by rewrite app_nil_r. }
  destruct (Z.leb_spec z (ee_block e)).
  { unwrap. apply wp_bind. eapply wp_mono; [apply slice_appends; lia|]. intros [r b'] w' H'. apply wp_ret.
    split; [done|]. intros _. by rewrite app_nil_r. }
  rewrite (proj2 (Z.ltb_lt (Z.max _ _) _)) by lia. unwrap. cbn [fst snd].
  replace (z - (z - s)) with s by lia.
  apply wp_bind. eapply (wp_mono _ (fun res _ => appends res buf
    (if ee_block e <? s then [simplefs_ext_init (ee_block e) (s - ee_block e) (ee_start e) (simplefs_ext_unwritten e)] else []))).
  { destruct (Z.ltb_spec (ee_block e) s); [unwrap; apply slice_appends; lia|].
    apply wp_ret. split; [done|]. right. split; [done|]. by rewrite app_nil_r. }
  intros [r b1] w1 [L1 [E|[E E1]]]; cbn [fst snd] in *; subst r.
  { apply wp_ret. split; [split; [done|by left]|]. done. }
  cbn [Z.eqb negb]. apply wp_bind. eapply (wp_mono _ (fun res _ => appends res b1
    (if z <? ee_block e + simplefs_ext_len e then [simplefs_ext_init s (ee_block e + simplefs_ext_len e - z)
       (ee_start e + (z - ee_block e)) (simplefs_ext_unwritten e)] else []))).
  { destruct (Z.ltb_spec z (ee_block e + simplefs_ext_len e)); [unwrap; apply slice_appends; lia|].
    apply wp_ret. split; [done|]. right. split; [done|]. by rewrite app_nil_r. }
  intros [r b2] w2 [L2 [E|[E E2]]]; cbn [fst snd] in *; subst r; apply wp_ret.
  { split; [split; [cbn; congruence|by left]|]. done. }
  split; [|done]. split; [cbn; congruence|]. right. split; [done|]. cbn [snd]. by rewrite E2, E1, app_assoc.
Qed.

Lemma collapse_loop_pieces s z l : 0 <= s < z -> z <= U32_MAX -> Forall ext_ok l -> Forall nonempty l ->
  forall buf freed w, wp (collapse_loop l s z buf freed) (fun res _ => let '(r, buf', freed') := res in
    appends (r, buf') buf (pieces (collapse_piece s z) l) /\
    (r = 0 -> freed' = freed ++ ranges (collapse_piece s z) l)) w.
Proof.
  intros Hsz Hz Hok Hne. induction l as [|e l IH]; intros buf freed w; cbn [collapse_loop].
  { apply wp_ret. split; [split; [done|right; split; [done|by rewrite app_nil_r]]|by rewrite app_nil_r]. }
  apply Forall_cons in Hok as [He Hok], Hne as [Hn Hne]. rewrite pieces_cons, ranges_cons.
  apply wp_bind. eapply wp_mono; [by apply collapse_one_piece|].
  intros [[r b1] f1] w1 [[L1 [E|[E E1]]] F1]; cbn [fst snd] in *; subst r.
  { apply wp_ret. split; [split; [done|by left]|done]. }
  cbn [Z.eqb negb]. specialize (F1 eq_refl). subst f1. eapply wp_mono; [by apply (IH Hok Hne)|].
  intros [[r b2] f2] w2 [[L2 H2] F2]; cbn [fst snd] in *. split; [split; cbn [fst snd]; [congruence|]|].
  - destruct H2 as [->|[-> E2]]; [by left|right]. split; [done|]. by rewrite E2, E1, app_assoc.
  - intros Hr. by rewrite (F2 Hr), app_assoc.
Qed.

Lemma insert_one_piece s n e buf w : 0 <= s -> 0 <= n -> ee_block e + simplefs_ext_len e + n <= U32_MAX ->
  s + n <= U32_MAX -> ext_ok e -> nonempty e ->
  wp (insert_one s n e buf) (fun res _ => appends res buf (fst (insert_piece s n e))) w.
Proof.
  intros Hs Hn Hmax Hsn (O1 & O2 & O3 & O4) Hne. pose proof (ext_len_bounds e) as Hb.
  pose proof (proj1 (nonempty_len e) Hne) as [_ Hl]. unfold insert_one, insert_piece. rewrite Hne. cbv zeta.
  rewrite (u32_id (ee_block e + simplefs_ext_len e)) by (unfold is_u32; lia). rewrite !Z.add_0_r.
  destruct (Z.leb_spec (ee_block e + simplefs_ext_len e) s); [apply append_appends|].
  destruct (Z.leb_spec s (ee_block e)); unwrap; [apply slice_appends; lia|].
  apply wp_bind. eapply wp_mono; [apply slice_appends; lia|].
  intros [r b1] w1 [L1 [E|[E E1]]]; cbn [fst snd] in *; subst r.
  { apply wp_ret. split; [done|by left]. }
  cbn [Z.eqb negb]. eapply wp_mono; [apply slice_appends; lia|].
  intros [r b2] w2 [L2 H2]; cbn [fst snd] in *. split; cbn [fst snd]; [congruence|].
  destruct H2 as [->|[-> E2]]; [by left|right]. split; [done|]. by rewrite E2, E1, <- app_assoc.
Qed.

Lemma insert_loop_pieces s n l : 0 <= s -> 0 <= n -> s + n <= U32_MAX ->
  Forall (fun e => ee_block e + simplefs_ext_len e + n <= U32_MAX) l -> Forall ext_ok l -> Forall nonempty l ->
  forall buf w, wp (insert_loop l s n buf) (fun res _ => appends res buf (pieces (insert_piece s n) l)) w.
Proof.
  intros Hs Hn Hsn Hmax Hok Hne. induction l as [|e l IH]; intros buf w; cbn [insert_loop].
  { apply wp_ret. split; [done|right; split; [done|by rewrite app_nil_r]]. }
  apply Forall_cons in Hok as [He Hok], Hne as [Hne1 Hne], Hmax as [Hm Hmax]. rewrite pieces_cons.
  apply wp_bind. eapply wp_mono; [by apply insert_one_piece|].
  intros [r b1] w1 [L1 [E|[E E1]]]; cbn [fst snd] in *; subst r.
  { apply wp_ret. split; [done|by left]. }
  cbn [Z.eqb negb]. eapply wp_mono; [by apply (IH Hmax Hok Hne)|].
  intros [r b2] w2 [L2 H2]; cbn [fst snd] in *. split; cbn [fst snd]; [congruence|].
  destruct H2 as [->|[-> E2]]; [by left|right]. split; [done|]. by rewrite E2, E1, app_assoc.
Qed.
End Loops.

Lemma in_ranges_iff fr p : in_ranges fr p <-> exists r, In r fr /\ range_of r p.
Proof.
  split.
  - intros (s & n & Hin & H). by exists (s, n).
  - intros ([s n] & Hin & H). by exists s, n.
Qed.

Lemma chain_maps_ge l lo b p u : chain lo l -> maps l b p u -> lo <= b.
Proof.
  intros Hc (e & Hin & Hn & He & _). destruct (chain_pairs l lo Hc) as [H _]. rewrite Forall_forall in H.
  specialize (H e (proj2 (list_elem_of_In _ _) Hin) Hn). lia.
Qed.

(** The ranges freed from different extents do not overlap. *)
Lemma ranges_are_apart f g op l : Forall (fun e => piece_ok f g e (fst (op e)) (snd (op e))) l ->
  Forall nonempty l -> forall lo, chain lo l ->
  (forall b b' p u u', maps l b p u -> maps l b' p u' -> b = b') -> ranges_apart (ranges op l).
Proof.
  intros Hop Hne. induction l as [|e l IH]; intros lo Hc Hinj; [constructor|].
  apply Forall_cons in Hop as [Hp Hop], Hne as [Hn Hne]. apply chain_nonempty in Hc as [_ Hc]; [|done].
  assert (Hinj' : forall b b' p u u', maps l b p u -> maps l b' p u' -> b = b').
  { intros b b' p u u' H1 H2. apply (Hinj b b' p u u'); apply maps_cons; by right. }
  specialize (IH Hop Hne _ Hc Hinj'). rewrite ranges_cons. destruct Hp as [[_ P1] _ _ _ P5 _].
  destruct (snd (op e)) as [|r [|]]; cbn [app length] in *; [done| |lia]. constructor; [|done].
  apply Forall_forall. intros r' Hr' p Hp1 Hp2. destruct (pieces_moved f g op l Hop) as [_ R].
  destruct (proj1 (P1 p)) as (b1 & u1 & H1 & _); [apply in_ranges_iff; exists r; split; [by left|done]|].
  destruct (proj1 (R p)) as (b2 & u2 & H2 & _).
  { apply in_ranges_iff. exists r'. split; [by apply list_elem_of_In|done]. }
  pose proof (chain_maps_ge _ _ _ _ _ Hc H2) as Hge.
  assert (b1 = b2) as ->.
  { apply (Hinj b1 b2 p u1 u2); apply maps_cons; [left|by right]. apply maps_cons in H1 as [H1|H1]; [done|by apply maps_nil in H1]. }
  apply maps_cons in H1 as [(_ & H1 & _)|H1]; [lia|by apply maps_nil in H1].
Qed.

(** ** Publishing a new mapping *)
Section Publish.
Context {K : Kernel}.

(** The invariant depends on the inode through the root of its tree only. *)
Lemma file_ok_upd w ino l leaves f : (forall i, ei_block (f i) = ei_block i) ->
  file_ok w ino l leaves -> file_ok (snd (upd_inode ino f w)) ino l leaves.
Proof.
  intros Hf [F1 F2 F3 F4 F5 F6 F7 F8 F9].
  assert (HI : ei_block (inode_of (snd (upd_inode ino f w)) ino) = ei_block (inode_of w ino)).
  { unfold upd_inode, modify, inode_of. cbn. rewrite lookup_insert_eq. cbn. apply Hf. }
  constructor; rewrite ?HI; done.
Qed.

(** [x] maps what [f] moves of [l], and can be written back. *)
Record moves (f : Z -> option Z) (l x : list extent) : Prop := Moves {
  mv_maps : forall b p u, maps x b p u <-> exists b0, maps l b0 p u /\ f b0 = Some b;
  mv_inj : forall a b c, f a = Some c -> f b = Some c -> a = b;
  mv_ok : Forall ext_ok x;
  mv_u32 : Forall ext_u32 x;
  mv_disj : ForallOrdPairs disj x
}.

Lemma moves_normalize f l x : moves f l x -> moves f l (normalize x) /\ wf_extents (normalize x).
Proof.
  intros [M1 M2 M3 M4 M5]. destruct (normalize_spec x M3) as (N1 & N2 & _ & N4 & N5). split.
  - constructor; [|done..|by apply normalize_u32|by apply (chain_pairs _ 0), N5].
    intros b p u. rewrite N4. apply M1.
  - split_and!; [by apply N5|done..].
Qed.

Lemma maps_bounds l b p u : Forall ext_ok l -> maps l b p u -> 0 <= b /\ 0 <= p.
Proof.
  intros Hok (e & Hin & _ & He & -> & _). rewrite Forall_forall in Hok.
  destruct (Hok e) as (O1 & O2 & _); [by apply list_elem_of_In|]. lia.
Qed.

(** What a file keeps when its mapping is replaced: the set of old blocks. *)
Lemma file_blocks_moves s root f l x p : moves f l x -> file_blocks s root x p -> file_blocks s root l p.
Proof.
  intros Hm [H|[H|(b & u & H)]]; [by left|right; by left|]. apply (mv_maps f l x Hm) in H as (b0 & H & _).
  right. right. by exists b0, u.
Qed.

Lemma sync_publishes f ino l leaves buf w :
  file_ok w ino l leaves -> moves f l (eb_extents buf) -> eb_leaf_blocks buf = leaves ->
  let L := layout_of (w_sbi w) in
  let S := file_blocks (w_sbi w) (ei_block (inode_of w ino)) l in
  wp (simplefs_file_sync_extents ino buf) (fun rb w' => busy L S w' /\
    (fst rb = 0 -> let l' := normalize (eb_extents buf) in exists leaves', moves f l l' /\
       file_ok w' ino l' leaves' /\ leaves_busy L S leaves' w' /\
       ei_block (inode_of w' ino) = ei_block (inode_of w ino))) w.
Proof.
  intros Hf Hm Hl L S. subst leaves. pose proof Hf as [F1 F2 F3 F4 F5 F6 F7 F8 F9].
  eapply wp_mono; [apply (sync_writes ino S); destruct Hm as [M1 M2 M3 M4 M5]; constructor; try done|].
  - intros p. by apply (file_blocks_moves _ _ f).
  - intros b p u (b0 & Hp & _)%M1. by eapply F8.
  - intros b c p u u' (b0 & Hp & E0)%M1 (c0 & Hc & E0')%M1. assert (b0 = c0) as -> by (by eapply F9). congruence.
  - intros rb w' [Hb Hok]; cbn beta in *. split; [done|]. intros Hr. destruct (Hok Hr) as (lv & H1 & H2 & H3).
    exists lv. split_and!; try done. by apply moves_normalize.
Qed.
(** The ranges to release: exactly the physical blocks that [f] drops. *)
Record drops (f : Z -> option Z) (l : list extent) (fr : list block_range) : Prop := Drops {
  dr_blocks : forall p, in_ranges fr p <-> exists b u, maps l b p u /\ f b = None;
  dr_lens : Forall (fun r => 0 < snd r <= SIMPLEFS_MAX_BLOCKS_PER_EXTENT) fr;
  dr_count : (length fr <= length l)%nat;
  dr_apart : ranges_apart fr
}.

(** Every dropped block is inside the device and behind the metadata. *)
Lemma drops_ranges f l fr s : drops f l fr ->
  (forall b p u, maps l b p u -> root_dir_block s < p < nr_blocks s) -> Forall (range_ok s) fr.
Proof.
  intros [D1 D2 _ _] Hd. apply Forall_forall. intros r Hr. rewrite Forall_forall in D2. specialize (D2 r Hr).
  assert (Hin : forall p, range_of r p -> root_dir_block s < p < nr_blocks s).
  { intros p Hp. destruct (proj1 (D1 p)) as (b & u & H & _); [|by eapply Hd].
    apply in_ranges_iff. exists r. split; [by apply list_elem_of_In|done]. }
  pose proof (Hin (fst r) ltac:(unfold range_of; lia)). pose proof (Hin (fst r + snd r - 1) ltac:(unfold range_of; lia)).
  unfold range_ok. lia.
Qed.

Lemma put_all_images fr w : layout_ok (w_sbi w) -> nr_blocks (w_sbi w) <= U32_MAX ->
  layout_of (w_sbi (snd (put_all fr w))) = layout_of (w_sbi w) ->
  wp (put_all fr) (fun _ w' => same_images [] w w') w.
Proof.
  intros Hlay Hn HL. apply same_images_wp; [|done]. intros n Hn' _. apply preserves_each_list. intros r.
  by apply put_blocks_data.
Qed.

(** A file whose new tree is in place, while the blocks of the old mapping are
    still in use: releasing what was dropped keeps the file, and without a journal
    nothing leaks. *)
Lemma put_all_releases f ino l l' leaves fr w :
  file_ok w ino l' leaves -> moves f l l' -> drops f l fr ->
  leaves_busy (layout_of (w_sbi w)) (file_blocks (w_sbi w) (ei_block (inode_of w ino)) l) leaves w ->
  (forall b p u, maps l b p u -> root_dir_block (w_sbi w) < p < nr_blocks (w_sbi w) /\ p <> ei_block (inode_of w ino)) ->
  (forall b b' p u u', maps l b p u -> maps l b' p u' -> b = b') ->
  wp (put_all fr) (fun _ w' => file_ok w' ino l' leaves /\
    (s_journal (w_sbi w) = None -> s_shutdown (w_sbi w') = true \/
      forall b p u, maps l b p u -> f b = None -> test_bit (bfree_bitmap (w_sbi w')) p = true)) w.
Proof.
  intros Hf Hm Hd Hlb Hdata Hinj. pose proof Hf as [F1 F2 F3 F4 F5 F6 F7 F8 F9].
  set (root := ei_block (inode_of w ino)) in *. set (L := layout_of (w_sbi w)) in *.
  pose proof F6 as ((Hinv & _) & _). pose proof Hinv as ((Hnb & _) & _).
  pose proof (drops_ranges _ _ _ (w_sbi w) Hd (fun b p u H => proj1 (Hdata b p u H))) as Hr.
  assert (Hroot : 0 <= root_dir_block (w_sbi w)) by apply u32_range.
  assert (Hdrop : forall r p, r ∈ fr -> range_of r p -> exists b u, maps l b p u /\ f b = None).
  { intros r p Hin Hp. apply (dr_blocks f l fr Hd). apply in_ranges_iff. exists r. split; [by apply list_elem_of_In|done]. }
  assert (Hkeep : preserves (leaves_busy L (file_blocks (w_sbi w) root l') leaves) (put_all fr)).
  { intros w' [B1 B2]. split; [|done]. refine (put_all_keeps L _ fr _ w' B1). apply Forall_forall.
    intros r Hin. rewrite Forall_forall in Hr. destruct (Hr r Hin) as (R1 & R2 & R3).
    split_and!; [unfold is_u32; lia|unfold is_u32; lia|]. intros p Hp Hrp. destruct (Hdrop r p Hin Hrp) as (b & u & Hb & Hfb).
    destruct Hp as [[Hp|[Hp|(b' & u' & Hp)]]|Hp].
    - destruct (Hdata _ _ _ Hb). lia.
    - by destruct (Hdata _ _ _ Hb).
    - apply (mv_maps _ _ _ Hm) in Hp as (b0 & Hp & Hf0). assert (b0 = b) by (by eapply Hinj). congruence.
    - destruct Hlb as (_ & _ & B3). rewrite Forall_forall in B3. destruct (B3 p Hp) as [_ Hn]. apply Hn.
      right. right. by exists b, u. }
  eapply wp_mono.
  { apply wp_conj; [apply (wp_pres _ _ _ Hkeep F6)|].
    apply wp_conj; [apply put_all_images; [done|lia|]|].
    - apply (Hkeep w F6).
    - apply wp_conj; [apply (wp_pres (fun w' => w_inodes w' = w_inodes w)); [apply preserves_each_list; intros r; apply (put_blocks_apres _ (HA := inodes_astable (fun m => m = w_inodes w)))|done]|].
      instantiate (1 := fun _ w' => s_journal (w_sbi w) = None -> s_shutdown (w_sbi w') = true \/
        forall r p, In r fr -> range_of r p -> test_bit (bfree_bitmap (w_sbi w')) p = true).
      destruct (s_journal (w_sbi w)) eqn:Ej; [by apply (wp_mono _ (fun _ _ => True))|].
      eapply wp_mono; [apply put_all_frees; try done; [apply Hd|]|by intros u w' ? _].
      intros r p Hin Hp. destruct (Hdrop r p) as (b & u & Hb & _); [by apply list_elem_of_In|done|].
      apply Hlb. left. right. right. by exists b, u. }
  intros u w' (HB & Him & Hi & Hfree); cbn beta in *. split.
  - assert (HI : inode_of w' ino = inode_of w ino) by (unfold inode_of; by rewrite Hi).
    assert (HL : layout_of (w_sbi w') = layout_of (w_sbi w)) by apply HB.
    pose proof (root_dir_layout _ _ HL) as HR.
    assert (HN : nr_blocks (w_sbi w') = nr_blocks (w_sbi w)) by (unfold layout_of in HL; by injection HL).
    constructor; rewrite ?HI, ?HR, ?HN, ?HL; try done.
    + eapply tree_holds_same; [exact Him| |done]. constructor; [lia|]. apply Forall_forall. intros p Hp.
      destruct F6 as (_ & _ & B3). rewrite Forall_forall in B3. destruct (B3 p Hp) as [[Hp0 _] Hn].
      destruct (Z_le_gt_dec p (root_dir_block (w_sbi w))); [|lia]. destruct Hn. left. lia.
    + by eapply layout_ok_eq.
    + unfold file_blocks in *. by rewrite HR.
  - intros Hj. destruct (Hfree Hj) as [?|Hfr]; [by left|right]. intros b p u0 Hb Hfb.
    destruct (proj2 (dr_blocks _ _ _ Hd p)) as (s & n & Hin & Hp); [by exists b, u0|]. by apply (Hfr (s, n)).
Qed.
End Publish.

(** ** The sections under the extent lock *)
Section Sections.
Context {K : Kernel}.

(** The specification of a range operation: [f] says where a logical block of the
    file goes.  On success the file is sound again and maps exactly what [f] moved;
    without a journal every dropped block is free, unless the file system shut
    down.  On failure no block of the file has been given away. *)
Definition remapped (f : Z -> option Z) (ino : Z) (l : list extent) (w : world) (r : Z) (w' : world) : Prop :=
  (r <> 0 -> busy (layout_of (w_sbi w)) (file_blocks (w_sbi w) (ei_block (inode_of w ino)) l) w') /\
  (r = 0 -> exists l' leaves', file_ok w' ino l' leaves' /\
     (forall b p u, maps l' b p u <-> exists b0, maps l b0 p u /\ f b0 = Some b) /\
     (s_journal (w_sbi w) = None -> s_shutdown (w_sbi w') = true \/
        forall b p u, maps l b p u -> f b = None -> test_bit (bfree_bitmap (w_sbi w')) p = true)).

(** [w] is [w0] after calls that changed nothing of the file. *)
Definition settled (w0 w : world) : Prop :=
  file_view w = file_view w0 /\ (s_journal (w_sbi w0) = None -> s_journal (w_sbi w) = None).

#[export] Instance settled_kstable w0 : KStable (settled w0).
Proof.
  split; [intros c Hc w [H1 H2]|intros h n w Hin [H1 H2]|intros g w [H1 H2]|intros w [H1 H2]]; split.
  all: try exact H1; try exact H2.
  all: try (by rewrite (kdo_view file_view)).
  all: intros Hj; specialize (H2 Hj); first [by apply (ks_call (I := fun w => s_journal (w_sbi w) = None))
    | by apply (ks_dirty (I := fun w => s_journal (w_sbi w) = None)) | by apply (ks_upd_journal (I := fun w => s_journal (w_sbi w) = None))].
Qed.

Lemma settled_refl w : settled w w.
Proof. by split. Qed.

Lemma settled_file w0 w ino l leaves : settled w0 w -> file_ok w0 ino l leaves -> file_ok w ino l leaves.
Proof. intros [H _]. by apply file_ok_view. Qed.

Lemma settled_busy w0 w ino l leaves : settled w0 w -> file_ok w0 ino l leaves ->
  busy (layout_of (w_sbi w0)) (file_blocks (w_sbi w0) (ei_block (inode_of w0 ino)) l) w.
Proof.
  intros [Hv _] Hf. eapply busy_aeq; [exact (f_equal (fun x => x.1.1) Hv)|]. eapply leaves_busy_out, Hf.
Qed.

Lemma remapped_fails f ino l leaves w r w' :
  file_ok w ino l leaves -> settled w w' -> r <> 0 -> remapped f ino l w r w'.
Proof. intros Hf Hs Hr. split; [|done]. intros _. by eapply settled_busy. Qed.

(** An operation built from [op]: what its pieces and ranges are. *)
Lemma op_moves f g op l : (forall a b, a <= b -> g a <= g b) -> 0 <= g 0 ->
  (forall a b c, f a = Some c -> f b = Some c -> a = b) ->
  wf_extents l -> (forall b b' p u u', maps l b p u -> maps l b' p u' -> b = b') ->
  Forall (fun e => piece_ok f g e (fst (op e)) (snd (op e))) l ->
  moves f l (pieces op l) /\ drops f l (ranges op l).
Proof.
  intros Hg Hg0 Hf (Hc & Hok & Hne) Hinj Hop.
  destruct (pieces_spec f g op l Hg Hne Hop) as ([M R] & O & U & Ln & Q & C). split.
  - constructor; try done. by apply (chain_pairs _ (g 0)), C.
  - constructor; try done. by eapply ranges_are_apart.
Qed.

(** The sections start by loading the tree and finding memory. *)
Lemma load_file ino l leaves w (Q : Z * extent_buffer -> world -> Prop) :
  file_ok w ino l leaves ->
  (forall r w', r < 0 -> settled w w' -> Q (r, eb_empty) w') ->
  (forall buf w', eb_extents buf = l -> eb_leaf_blocks buf = leaves -> settled w w' -> Q (0, buf) w') ->
  wp (simplefs_file_load_extents (ei_block (inode_of w ino))) Q w.
Proof.
  intros Hf Hbad Hgood. eapply wp_mono.
  { apply wp_conj; [apply load_extents_spec; apply Hf|].
    apply wp_conj; [apply load_extents_bounds|].
    apply (wp_pres (settled w)); [|apply settled_refl]. apply load_extents_pres, _. }
  intros [r buf] w' (H & [_ He] & Hv); cbn beta in *. destruct (Z.eqb_spec r 0) as [->|Hr].
  - destruct H. by apply Hgood.
  - rewrite He by done. apply Hbad; [|done]. destruct H as [->|[? _]]; [done|lia].
Qed.

Lemma blocks_freed_zero fr : Forall (fun r => 0 < snd r <= SIMPLEFS_MAX_BLOCKS_PER_EXTENT) fr ->
  Z.of_nat (length fr) <= SIMPLEFS_MAX_FILE_EXTENTS -> blocks_freed fr = 0 <-> fr = [].
Proof.
  intros Hl Hn. split; [|by intros ->]. destruct fr as [|r fr]; [done|]. unfold blocks_freed.
  assert (H : forall l, Forall (fun r : block_range => 0 < snd r <= SIMPLEFS_MAX_BLOCKS_PER_EXTENT) l ->
    Z.of_nat (length l) <= foldr Z.add 0 (map snd l) <= SIMPLEFS_MAX_BLOCKS_PER_EXTENT * Z.of_nat (length l)).
  { induction 1 as [|x l Hx _ IH]; cbn [map foldr length] in *; unfold SIMPLEFS_MAX_BLOCKS_PER_EXTENT in *; lia. }
  specialize (H _ Hl). unfold SIMPLEFS_MAX_BLOCKS_PER_EXTENT in H. change SIMPLEFS_MAX_FILE_EXTENTS with 86700 in Hn.
  unfold block_range in *. cbn [length] in *. rewrite u32_id by (unfold is_u32, U32_MAX; lia). lia.
Qed.

(** The tail of a section only touches fields of the inode. *)
Definition inode_tail (ino : Z) (m : M Z) : Prop := forall w, wp m (fun r w' => r = 0 /\ w_sbi w' = w_sbi w /\
  w_bdev w' = w_bdev w /\ ei_block (inode_of w' ino) = ei_block (inode_of w ino)) w.

Lemma file_ok_tail w w' ino l leaves : w_sbi w' = w_sbi w -> w_bdev w' = w_bdev w ->
  ei_block (inode_of w' ino) = ei_block (inode_of w ino) -> file_ok w ino l leaves -> file_ok w' ino l leaves.
Proof.
  intros Hs Hb Hi [F1 F2 F3 F4 F5 F6 F7 F8 F9]. constructor; rewrite ?Hs, ?Hi; try done.
  - destruct F1 as (T1 & T2 & T3). unfold tree_holds, block_image in *. by rewrite Hb.
  - destruct F6 as [B1 B2]. split; [|done]. unfold busy in *. by rewrite Hs.
Qed.

Lemma publish_release f ino l leaves buf fr tail w0 w :
  file_ok w0 ino l leaves -> settled w0 w -> moves f l (eb_extents buf) -> eb_leaf_blocks buf = leaves ->
  drops f l fr -> inode_tail ino tail ->
  wp (let! (r, _) := simplefs_file_sync_extents ino buf in
      if negb (r =? 0) then ret r else run! put_all fr in tail) (remapped f ino l w0) w.
Proof.
  intros Hf0 Hs Hm Hl Hd Ht. pose proof (settled_file _ _ _ _ _ Hs Hf0) as Hf.
  destruct Hs as [Hv Hj]. assert (Ha : aeq (w_sbi w) (w_sbi w0)) by exact (f_equal (fun x => x.1.1) Hv).
  pose proof (astate_inv _ _ Ha) as (E1 & _).
  assert (HL : layout_of (w_sbi w) = layout_of (w_sbi w0)) by (unfold layout_of; by rewrite E1).
  assert (HI : inode_of w ino = inode_of w0 ino) by (unfold inode_of; by rewrite (f_equal (fun x => x.2) Hv : w_inodes w = w_inodes w0)).
  assert (HS : forall p, file_blocks (w_sbi w0) (ei_block (inode_of w0 ino)) l p <-> file_blocks (w_sbi w) (ei_block (inode_of w ino)) l p).
  { intros p. unfold file_blocks. by rewrite HI, (root_dir_layout _ _ HL). }
  pose proof Hf as [F1 F2 F3 F4 F5 F6 F7 F8 F9]. apply wp_bind. eapply wp_mono.
  { apply wp_conj; [by apply (sync_publishes f ino l leaves)|].
    apply (wp_latch (fun w => s_journal (w_sbi w) = None)), sync_extents_apres, _. }
  intros [r b'] w1 [[Hb Hok] Hj1]; cbn [fst] in *. destruct (Z.eqb_spec r 0) as [->|Hr]; cbn [negb].
  2:{ apply wp_ret. split; [|done]. intros _. rewrite <- HL. eapply busy_sub; [|exact Hb]. intros p. by apply HS. }
  destruct (Hok eq_refl) as (leaves' & Hm' & Hf1 & Hlb & Hroot). clear Hok.
  assert (HL1 : layout_of (w_sbi w1) = layout_of (w_sbi w)) by apply Hb.
  pose proof (root_dir_layout _ _ HL1) as HR1.
  assert (HN1 : nr_blocks (w_sbi w1) = nr_blocks (w_sbi w)) by (unfold layout_of in HL1; by injection HL1).
  apply wp_bind. eapply wp_mono.
  { apply (put_all_releases f ino l (normalize (eb_extents buf)) leaves' fr w1); try done; rewrite ?HL1, ?HR1, ?HN1, ?Hroot; try done.
    unfold file_blocks in *. by rewrite HR1. }
  intros u w2 [Hf2 Hfree]; cbn beta in *. eapply wp_mono; [apply Ht|].
  intros r w3 (-> & T1 & T2 & T3). split; [done|]. intros _. exists (normalize (eb_extents buf)), leaves'.
  split_and!; [by eapply file_ok_tail|apply Hm'|].
  intros Hn. rewrite T1. apply Hfree, Hj1, Hj, Hn.
Qed.

Lemma upd_inode_tail ino (g : inode -> inode) m : (forall i, ei_block (g i) = ei_block i) ->
  inode_tail ino m -> inode_tail ino (run! upd_inode ino g in m).
Proof.
  intros Hg Hm w. apply wp_bind, wp_modify. eapply wp_mono; [apply Hm|].
  intros r w' (H1 & H2 & H3 & H4). split_and!; [done..|]. rewrite H4. unfold inode_of. cbn.
  rewrite lookup_insert_eq. cbn. apply Hg.
Qed.
Lemma ret_tail ino : inode_tail ino (ret 0).
Proof. intros w. apply wp_ret. by split_and!. Qed.

(** Nothing is written when nothing is freed. *)
Lemma release_ranges_spec f ino l leaves buf fr w0 w :
  file_ok w0 ino l leaves -> settled w0 w -> moves f l (eb_extents buf) -> eb_leaf_blocks buf = leaves ->
  drops f l fr -> (forall a b, f a = Some b -> a = b) ->
  wp (release_ranges ino buf fr) (remapped f ino l w0) w.
Proof.
  intros Hf Hs Hm Hl Hd Hid. unfold release_ranges.
  assert (Hz : blocks_freed fr = 0 <-> fr = []).
  { apply blocks_freed_zero; [apply Hd|]. destruct Hd as [_ _ Hc _]. destruct Hf as [_ _ _ F4 _ _ _ _ _]. unfold block_range in *. lia. }
  destruct (Z.eqb_spec (blocks_freed fr) 0) as [E|E].
  - apply wp_ret. split; [done|]. intros _. apply Hz in E as ->. exists l, leaves.
    assert (Hn : forall b p u, maps l b p u -> f b = Some b).
    { intros b p u Hb. destruct (f b) as [c|] eqn:Ef; [by rewrite <- (Hid _ _ Ef)|].
      exfalso. apply (proj1 (in_ranges_nil p)). apply (dr_blocks _ _ _ Hd). by exists b, u. }
    split_and!; [by eapply settled_file| |].
    + intros b p u. split; [intros Hb; exists b; split; [done|by eapply Hn]|].
      intros (b0 & Hb & Ef). by rewrite <- (Hid _ _ Ef).
    + intros _. right. intros b p u Hb Ef. rewrite (Hn _ _ _ Hb) in Ef. done.
  - apply publish_release with leaves; try done. apply upd_inode_tail; [done|apply ret_tail].
Qed.

Lemma alloc_ranges_pres (I : world -> Prop) `{!KStable I} buf : preserves I (alloc_ranges buf).
Proof. unfold alloc_ranges. pres. Qed.

Lemma trunc_ops nb l : 0 <= nb -> wf_extents l -> Forall ext_u32 l ->
  (forall b b' p u u', maps l b p u -> maps l b' p u' -> b = b') ->
  moves (trunc_map nb) l (pieces (trunc_piece nb) l) /\ drops (trunc_map nb) l (ranges (trunc_piece nb) l).
Proof.
  intros Hnb Hwf Hu Hinj. pose proof Hwf as (_ & Hok & Hne).
  apply (op_moves _ (fun b => b)); try done; try lia.
  - unfold trunc_map. intros a b c. tests; intros; simplify_eq; lia.
  - apply Forall_forall. intros e He. rewrite Forall_forall in Hok, Hu, Hne. apply trunc_piece_ok; auto.
Qed.

Lemma truncate_extents_spec ino nb l leaves w : 0 <= nb -> file_ok w ino l leaves ->
  wp (truncate_extents ino nb) (remapped (trunc_map nb) ino l w) w.
Proof.
  intros Hnb Hf. unfold truncate_extents. apply wp_bind, wp_gets. apply wp_bind.
  apply (load_file ino l leaves); [done|..].
  { intros r w' Hr Hs. rewrite (proj2 (Z.eqb_neq r 0)) by lia. apply wp_ret. eapply remapped_fails; [done..|cbn; lia]. }
  intros buf w1 Hx Hl Hs. cbn [Z.eqb negb]. apply wp_bind.
  eapply wp_mono; [apply (wp_pres (settled w)); [apply alloc_ranges_pres, _|done]|].
  intros ok w2 Hs2; cbn beta in Hs2. destruct ok; cbn [negb]; [|apply wp_ret; by eapply remapped_fails].
  pose proof Hf as [_ F2 F3 _ _ _ _ _ F9]. pose proof F2 as (_ & Hok & _).
  rewrite truncate_loop_pieces by (rewrite ?Hx; done). rewrite Hx.
  destruct (trunc_ops nb l Hnb F2 F3 F9) as [Hm Hd].
  apply (release_ranges_spec _ ino l leaves); try done.
  unfold trunc_map. intros a b. tests; intros; simplify_eq; lia || done.
Qed.

Lemma punch_loop_pres (I : world -> Prop) `{!KStable I} a z n : forall i buf fr, preserves I (punch_loop n i a z buf fr).
Proof. induction n as [|n IH]; intros i buf fr; cbn [punch_loop]; pres. Qed.
Lemma collapse_loop_pres (I : world -> Prop) `{!KStable I} s z l : forall buf fr, preserves I (collapse_loop l s z buf fr).
Proof. induction l as [|e l IH]; intros buf fr; cbn [collapse_loop]; unfold collapse_one; pres. Qed.
Lemma insert_loop_pres (I : world -> Prop) `{!KStable I} s n l : forall buf, preserves I (insert_loop l s n buf).
Proof. induction l as [|e l IH]; intros buf; cbn [insert_loop]; unfold insert_one; pres. Qed.

Lemma punch_extents_spec ino a z l leaves w : 0 <= a < z -> z <= U32_MAX -> file_ok w ino l leaves ->
  wp (punch_extents ino a z) (fun res => remapped (punch_map a z) ino l w (fst res)) w.
Proof.
  intros Haz Hz Hf. unfold punch_extents. apply wp_bind, wp_gets. apply wp_bind.
  apply (load_file ino l leaves); [done|..].
  { intros r w' Hr Hs. rewrite (proj2 (Z.eqb_neq r 0)) by lia. apply wp_ret. eapply remapped_fails; [done..|cbn; lia]. }
  intros buf w1 Hx Hl Hs. cbn [Z.eqb negb]. apply wp_bind.
  eapply wp_mono; [apply (wp_pres (settled w)); [apply alloc_ranges_pres, _|done]|].
  intros ok w2 Hs2; cbn beta in Hs2. destruct ok; cbn [negb]; [|apply wp_ret; by eapply remapped_fails].
  pose proof Hf as [_ F2 F3 _ _ _ _ _ F9]. pose proof F2 as (_ & Hok & Hne). apply wp_bind.
  eapply wp_mono.
  { apply wp_conj; [rewrite Hx; apply (punch_loop_pieces a z Haz Hz l []); done|].
    apply (wp_pres (settled w)); [apply punch_loop_pres, _|done]. }
  intros [[r b'] fr] w3 [[Hl' Hr] Hs3]; cbn beta in *. destruct Hr as [->|(-> & Hb & ->)].
  { cbn [negb]. apply wp_ret. by eapply remapped_fails. }
  cbn [Z.eqb negb app] in *.
  destruct (op_moves (punch_map a z) (fun b => b) (punch_piece a z) l) as [Hm Hd]; try done; try lia.
  { unfold punch_map. intros x y c. tests; intros; simplify_eq; lia. }
  { apply Forall_forall. intros e He. rewrite Forall_forall in Hok, F3, Hne. apply punch_piece_ok; auto. }
  apply wp_bind. eapply wp_mono; [apply (release_ranges_spec (punch_map a z) ino l leaves b' (ranges (punch_piece a z) l) w w3); try done|].
  - by rewrite Hb.
  - congruence.
  - unfold punch_map. intros x y. tests; intros; simplify_eq; lia || done.
  - intros r w4 H4. by apply wp_ret.
Qed.

(** A section that rebuilds the list of extents in a second buffer. *)
Lemma rebuilt_release f ino l leaves buf nb fr tail w0 w :
  file_ok w0 ino l leaves -> settled w0 w -> moves f l (eb_extents nb) -> eb_leaf_blocks buf = leaves ->
  drops f l fr -> inode_tail ino tail ->
  wp (let! (r, _) := simplefs_file_sync_extents ino (take_leaves (simplefs_file_normalize_extents nb) buf) in
      if negb (r =? 0) then ret r else run! put_all fr in tail) (remapped f ino l w0) w.
Proof.
  intros Hf Hs Hm Hl Hd Ht. apply (publish_release f ino l leaves); try done. by apply moves_normalize.
Qed.

Lemma collapse_extents_spec ino s z len l leaves w : 0 <= s < z -> z <= U32_MAX -> file_ok w ino l leaves ->
  wp (collapse_extents ino s z len) (remapped (collapse_map s z) ino l w) w.
Proof.
  intros Hsz Hz Hf. unfold collapse_extents. apply wp_bind, wp_gets. apply wp_bind.
  apply (load_file ino l leaves); [done|..].
  { intros r w' Hr Hs. rewrite (proj2 (Z.eqb_neq r 0)) by lia. apply wp_ret. eapply remapped_fails; [done..|cbn; lia]. }
  intros buf w1 Hx Hl Hs. cbn [Z.eqb negb]. apply wp_bind.
  eapply wp_mono; [apply (wp_pres (settled w)); [apply alloc_ranges_pres, _|done]|].
  intros ok w2 Hs2; cbn beta in Hs2. destruct ok; cbn [negb]; [|apply wp_ret; by eapply remapped_fails].
  pose proof Hf as [_ F2 F3 _ _ _ _ _ F9]. pose proof F2 as (_ & Hok & Hne). apply wp_bind.
  eapply wp_mono.
  { apply wp_conj; [rewrite Hx; apply (collapse_loop_pieces s z l); done|].
    apply (wp_pres (settled w)); [apply collapse_loop_pres, _|done]. }
  intros [[r b'] fr] w3 [[[_ Hr] Hfr] Hs3]; cbn [fst snd eb_empty eb_extents app] in *.
  destruct (Z.eqb_spec r 0) as [->|Hr0]; cbn [negb]; [|apply wp_ret; by eapply remapped_fails].
  destruct Hr as [?|[_ Hb]]; [done|]. rewrite (Hfr eq_refl).
  destruct (op_moves (collapse_map s z) (fun b => if b <? s then b else if b <? z then s else b - (z - s)) (collapse_piece s z) l)
    as [Hm Hd]; try done.
  - intros a b Hab. tests; lia.
  - tests; lia.
  - unfold collapse_map. intros x y c. tests; intros; simplify_eq; lia.
  - apply Forall_forall. intros e He. rewrite Forall_forall in Hok, F3, Hne. apply collapse_piece_ok; auto.
  - apply (rebuilt_release _ ino l leaves); try done; [by rewrite Hb|].
    repeat (apply upd_inode_tail; [intros i; try done|]); [|apply ret_tail].
    unfold simplefs_prealloc_collapse. by repeat (case_match; try done).
Qed.

Lemma insert_extents_spec ino s n len l leaves w : 0 <= s -> 0 <= n -> s + n <= U32_MAX ->
  Forall (fun e => ee_block e + simplefs_ext_len e + n <= U32_MAX) l -> file_ok w ino l leaves ->
  wp (insert_extents ino s n len) (remapped (insert_map s n) ino l w) w.
Proof.
  intros Hs0 Hn Hsn Hmax Hf. unfold insert_extents. apply wp_bind, wp_gets. apply wp_bind.
  apply (load_file ino l leaves); [done|..].
  { intros r w' Hr Hs. rewrite (proj2 (Z.eqb_neq r 0)) by lia. apply wp_ret. eapply remapped_fails; [done..|cbn; lia]. }
  intros buf w1 Hx Hl Hs. cbn [Z.eqb negb].
  pose proof Hf as [_ F2 F3 _ _ _ _ _ F9]. pose proof F2 as (_ & Hok & Hne). apply wp_bind.
  eapply wp_mono.
  { apply wp_conj; [rewrite Hx; apply (insert_loop_pieces s n l); done|].
    apply (wp_pres (settled w)); [apply insert_loop_pres, _|done]. }
  intros [r b'] w3 [[_ Hr] Hs3]; cbn [fst snd eb_empty eb_extents app] in *.
  destruct (Z.eqb_spec r 0) as [->|Hr0]; cbn [negb]; [|apply wp_ret; by eapply remapped_fails].
  destruct Hr as [?|[_ Hb]]; [done|].
  destruct (op_moves (insert_map s n) (fun b => if b <? s then b else b + n) (insert_piece s n) l) as [Hm Hd]; try done.
  - intros a b Hab. tests; lia.
  - tests; lia.
  - unfold insert_map. intros x y c. tests; intros; simplify_eq; lia.
  - apply Forall_forall. intros e He. rewrite Forall_forall in Hok, F3, Hne, Hmax. apply insert_piece_ok; auto.
  - assert (Hnil : ranges (insert_piece s n) l = []).
    { clear. unfold ranges. induction l as [|e l IH]; [done|]. cbn [flat_map]. rewrite IH, app_nil_r.
      unfold insert_piece. by tests. }
    rewrite Hnil in Hd.
    refine (rebuilt_release (insert_map s n) ino l leaves buf b' [] _ w w3 Hf Hs3 _ Hl Hd _); [by rewrite Hb|].
    repeat (apply upd_inode_tail; [intros i; try done|]); [|apply ret_tail].
    unfold simplefs_prealloc_insert. by repeat (case_match; try done).
Qed.

(** C10: truncation cuts the mapping at the new size: when the section of
    [simplefs_truncate] under the extent lock succeeds, the tree on the device maps
    exactly the old blocks below [nb], the file is sound again, and every block
    behind [nb] is free (without a journal, unless the file system shut down); when
    it fails, no block of the file was given to the allocator. *)
Theorem truncate_refines ino nb l leaves w : is_u32 nb -> file_ok w ino l leaves ->
  wp (truncate_extents ino nb) (remapped (trunc_map nb) ino l w) w.
Proof. intros [Hnb _]. by apply truncate_extents_spec. Qed.

(** C11: punching a hole removes exactly the blocks of [a, z) from the mapping, be
    they whole extents, heads, tails or the middle of one: when it succeeds the file is
    sound and maps exactly the other blocks, to the same physical blocks with the same
    written state, and, on a file system without a journal that did not shut down,
    every removed block is free (with a journal the theorem says nothing of the removed
    blocks' bits); when it fails, no block of the file was given to the allocator. *)
Theorem punch_refines ino a z l leaves w : 0 <= a < z -> z <= U32_MAX -> file_ok w ino l leaves ->
  wp (punch_extents ino a z) (fun res => remapped (punch_map a z) ino l w (fst res)) w.
Proof. apply punch_extents_spec. Qed.

(** C12: collapsing a range removes the blocks of [s, z) from the mapping, moves every
    later block down by z - s, and leaves the physical blocks and the written state of
    what it keeps unchanged; on a file system without a journal that did not shut down
    every removed block is free (with a journal the theorem says nothing of the removed
    blocks' bits); when it fails, no block of the file was given to the allocator. *)
Theorem collapse_refines ino s z len l leaves w : 0 <= s < z -> z <= U32_MAX -> file_ok w ino l leaves ->
  wp (collapse_extents ino s z len) (remapped (collapse_map s z) ino l w) w.
Proof. apply collapse_extents_spec. Qed.

(** inserting a hole and collapsing it again is the identity on the mapping:
    every logical block is back at its place with its physical block and state. *)
Theorem insert_collapse_roundtrip ino s n len l leaves w : 0 <= s -> 0 < n -> s + n <= U32_MAX ->
  Forall (fun e => ee_block e + simplefs_ext_len e + n <= U32_MAX) l -> file_ok w ino l leaves ->
  wp (let! r := insert_extents ino s n len in
      if negb (r =? 0) then ret r else collapse_extents ino s (s + n) len)
     (fun r w' => r = 0 -> exists l' leaves', file_ok w' ino l' leaves' /\
        forall b p u, maps l' b p u <-> maps l b p u) w.
Proof.
  intros Hs Hn Hsn Hmax Hf. apply wp_bind. eapply wp_mono; [apply (insert_extents_spec ino s n len l leaves); try done; lia|].
  intros r w1 [_ H1]; cbn beta in *. destruct (Z.eqb_spec r 0) as [->|Hr]; cbn [negb]; [|apply wp_ret; done].
  destruct (H1 eq_refl) as (l1 & lv1 & F1 & M1 & _).
  eapply wp_mono; [apply (collapse_extents_spec ino s (s + n) len l1 lv1); [lia|done|done]|].
  intros r w2 [_ H2] Hr. destruct (H2 Hr) as (l2 & lv2 & F2 & M2 & _). exists l2, lv2. split; [done|].
  intros b p u. rewrite M2. setoid_rewrite M1. unfold insert_map, collapse_map. split.
  - intros (b1 & (b0 & Hb & E0) & E1). revert E0 E1. tests; intros; simplify_eq; try lia.
    + done.
    + by replace (b0 + n - (s + n - s)) with b0 by lia.
  - intros Hb. destruct (Z.ltb_spec b s) as [Hlt|Hge].
    + exists b. split; [exists b; split; [done|]|]; by rewrite (proj2 (Z.ltb_lt b s) Hlt).
    + exists (b + n). split; [exists b; split; [done|]|]; tests; try lia; f_equal; lia.
Qed.
End Sections.
