(* ===== verification/FileMap.v ===== *)
(** * FileMap: from file offsets to blocks (simplefs_file.c)

    [simplefs_get_block] finds, extends or creates the mapping of a logical block;
    the iomap callbacks translate it for the page cache; the conversion routines
    change the written state of part of a mapping.  The theorems say that a lookup
    reports the mapping the tree holds, that an allocation adds exactly the blocks
    it reports, blocks that were free, and keeps every other one, and that the
    loops end. *)

From stdpp Require Import base list numbers gmap.
From S2P Require Import Prelude Image Layout Kernel DiskFormat Discard Journal MetaBuf.
From S2P Require Import Alloc Retire ExtentBuf ExtentTree Owned Errno InodeTable FileRange.

Local Open Scope Z_scope.
Local Open Scope fs_scope.

(** [inode->i_blkbits]: the module always mounts with 4096-byte blocks. *)
Definition blkbits : Z := 12.
Definition block_of (offset : Z) : Z := Z.shiftr offset blkbits.
(** [(offset + (1 << blkbits) - 1) >> blkbits] *)
Definition block_up (offset : Z) : Z := Z.shiftr (offset + SIMPLEFS_BLOCK_SIZE - 1) blkbits.

Definition max_file_blocks : Z := SIMPLEFS_MAX_BLOCKS_PER_EXTENT * SIMPLEFS_MAX_FILE_EXTENTS.

(** ** The block mapping *)

(** What [simplefs_get_block] stores through its pointers; [gb_bno] is stored when
    the returned count is positive. *)
Record gb_out := GbOut { gb_bno : Z; gb_new : bool; gb_unwritten : bool }.
Definition gb_none : gb_out := GbOut 0 false false.

(** The length to allocate at a hole: up to the next extent. *)
Definition hole_len (buf : extent_buffer) (insert_idx iblock maxblocks : Z) : Z :=
  let alloc_len := Z.min (u32 maxblocks) SIMPLEFS_MAX_BLOCKS_PER_EXTENT in
  let next := ee_block (ext_at (eb_extents buf) insert_idx) in
  if (insert_idx <? nr_extents buf) && (next <? iblock + alloc_len) then u32 (next - iblock) else alloc_len.

(** The extent before the hole ends there and may be extended. *)
Definition can_grow (buf : extent_buffer) (insert_idx iblock : Z) (create_unwritten : bool) : bool :=
  let prev := ext_at (eb_extents buf) (insert_idx - 1) in
  (0 <? insert_idx) && negb (simplefs_extent_is_empty prev) &&
  Bool.eqb (simplefs_ext_unwritten prev) create_unwritten && (simplefs_ext_end prev =? iblock) &&
  (simplefs_ext_len prev <? SIMPLEFS_MAX_BLOCKS_PER_EXTENT).

(** ** iomap *)

(** [struct iomap], with its flag bits as fields; the device is always the mounted
    one.  [im_private] carries the old size to [iomap_end]. *)
Inductive iomap_type := IOMAP_HOLE | IOMAP_MAPPED | IOMAP_UNWRITTEN.
Record iomap := Iomap {
  im_type : iomap_type;
  im_offset : Z;
  im_addr : Z;
  im_length : Z;
  im_new : bool;
  im_dirty : bool;
  im_private : Z
}.
Definition IOMAP_NULL_ADDR : Z := -1.
Definition block_start (b : Z) : Z := Z.shiftl b blkbits.
Definition align_down (offset : Z) : Z := offset - offset mod SIMPLEFS_BLOCK_SIZE.
(** [DIV_ROUND_UP((offset & ((1 << blkbits) - 1)) + length, 1 << blkbits)] *)
Definition blocks_spanned (offset length : Z) : Z :=
  DIV_ROUND_UP (offset mod SIMPLEFS_BLOCK_SIZE + length) SIMPLEFS_BLOCK_SIZE.
Definition SIMPLEFS_WRITE_PREALLOC_BLOCKS : Z := 64.

Definition map_type (unwritten : bool) : iomap_type := if unwritten then IOMAP_UNWRITTEN else IOMAP_MAPPED.

(** The part of a found extent that [simplefs_report_iomap_begin] reports: the
    tracked preallocation inside a written extent counts as unwritten. *)
Definition report_split (ci : inode) (ext : extent) (iblock : Z) : Z * Z * bool :=
  let ext_start := ee_block ext in
  let ext_end := simplefs_ext_end ext in
  let pre_start := prealloc_block ci in
  let pre_end := u32 (pre_start + prealloc_len ci) in
  if negb (simplefs_ext_unwritten ext) && negb (prealloc_len ci =? 0) &&
     ((pre_start <? ext_end) && (ext_start <? pre_end)) then
    if iblock <? pre_start then (ext_start, Z.min ext_end pre_start, false)
    else if iblock <? pre_end then (Z.max ext_start pre_start, Z.min ext_end pre_end, true)
    else (Z.max ext_start pre_end, ext_end, false)
  else (ext_start, ext_end, simplefs_ext_unwritten ext).

(** The end of the hole at [iblock] it reports. *)
Definition report_hole_end (buf : extent_buffer) (insert_idx iblock isize : Z) : Z :=
  let hole_end := u32 (DIV_ROUND_UP isize SIMPLEFS_BLOCK_SIZE) in
  let hole_end := if insert_idx <? nr_extents buf
                  then Z.min hole_end (ee_block (ext_at (eb_extents buf) insert_idx)) else hole_end in
  if hole_end <=? iblock then u32 (iblock + 1) else hole_end.

Section Ops.
Context {K : Kernel}.

Definition add_blocks (ino n : Z) : M unit :=
  upd_inode ino (fun i => set_i_blocks (u64 (i_blocks i + simplefs_blocks_to_sectors n)) i).
Definition sub_blocks (ino n : Z) : M unit :=
  upd_inode ino (fun i => set_i_blocks (u64 (i_blocks i - simplefs_blocks_to_sectors n)) i).

(** [while (grow_len > 0)]: half the length after every refusal.  [Some] leaves the
    function. *)
Fixpoint grow_loop (fuel : nat) (ino : Z) (buf : extent_buffer) (prev_idx grow_len : Z)
    (exact_alloc create_unwritten : bool) : M (option (Z * gb_out)) :=
  match fuel with
  | O => ret None
  | S fuel' =>
      if grow_len <=? 0 then ret None else
      let prev := ext_at (eb_extents buf) prev_idx in
      let ext_len := simplefs_ext_len prev in
      let grow_start := u32 (ee_start prev + ext_len) in
      let! ok := simplefs_take_exact_blocks grow_start grow_len in
      if negb ok then grow_loop fuel' ino buf prev_idx (grow_len / 2) exact_alloc create_unwritten else
      let! r := (if exact_alloc then kdo (BlkdevIssueZeroout grow_start grow_len) else ret 0) in
      if negb (r =? 0) then
        run! put_blocks grow_start grow_len in ret (Some (r, gb_none))
      else
      let buf := eb_set_extents buf
        (<[Z.to_nat prev_idx := simplefs_ext_set_len prev (ext_len + grow_len)]> (eb_extents buf)) in
      run! add_blocks ino grow_len in
      let! (r, _) := simplefs_file_sync_extents ino buf in
      if negb (r =? 0) then ret (Some (r, gb_none)) else
      ret (Some (grow_len, GbOut grow_start true create_unwritten))
  end.

(** [while (!bno && alloc_len > 1)]: half the length after every failure. *)
Fixpoint alloc_halving (fuel : nat) (alloc_len : Z) : M (Z * Z) :=
  let! bno := get_free_blocks alloc_len in
  if negb (bno =? 0) then ret (bno, alloc_len) else
  if alloc_len <=? 1 then ret (0, alloc_len) else
  match fuel with
  | O => ret (0, alloc_len)
  | S fuel' => alloc_halving fuel' (alloc_len / 2)
  end.

(** A new extent at the hole: 13 halvings exhaust a length of at most 8192.  [bno]
    is an [int] here, which the cast to [sector_t] sign-extends: the zeroing of
    blocks from 2^31 on is asked for at another place.  Its result is not looked
    at. *)
Definition new_extent (ino : Z) (buf : extent_buffer) (insert_idx iblock alloc_len : Z)
    (exact_alloc create_unwritten : bool) : M (Z * gb_out) :=
  let! (bno, alloc_len) := alloc_halving 13 alloc_len in
  if bno =? 0 then ret (- ENOSPC, gb_none) else
  run! when exact_alloc (run! kdo (BlkdevIssueZeroout (u64 (s32 bno)) alloc_len) in ret tt) in
  let! (r, buf) := simplefs_file_insert_extent buf insert_idx
    (simplefs_ext_init iblock alloc_len bno create_unwritten) in
  if negb (r =? 0) then run! put_blocks bno alloc_len in ret (r, gb_none) else
  run! add_blocks ino alloc_len in
  let! (r, _) := simplefs_file_sync_extents ino buf in
  if negb (r =? 0) then run! put_blocks bno alloc_len in ret (r, gb_none) else
  ret (alloc_len, GbOut bno true create_unwritten).

(** The hole: extend the extent before it, or allocate a new one; the growth is
    tried at most 14 times, as a length of at most 8192 can be halved 13 times. *)
Definition map_hole (ino : Z) (buf : extent_buffer) (insert_idx iblock maxblocks : Z)
    (exact_alloc create_unwritten : bool) : M (Z * gb_out) :=
  let alloc_len := hole_len buf insert_idx iblock maxblocks in
  let! grown :=
    (if can_grow buf insert_idx iblock create_unwritten then
       let prev := ext_at (eb_extents buf) (insert_idx - 1) in
       grow_loop 14 ino buf (insert_idx - 1)
         (Z.min alloc_len (SIMPLEFS_MAX_BLOCKS_PER_EXTENT - simplefs_ext_len prev)) exact_alloc create_unwritten
     else ret None) in
  match grown with
  | Some res => ret res
  | None => new_extent ino buf insert_idx iblock alloc_len exact_alloc create_unwritten
  end.

(** The block is mapped. *)
Definition map_found (ino : Z) (buf : extent_buffer) (extent_idx iblock maxblocks : Z)
    (create convert_unwritten : bool) : M (Z * gb_out) :=
  let report (buf : extent_buffer) (idx : Z) :=
    let mapped := ext_at (eb_extents buf) idx in
    (s32 (simplefs_ext_len mapped - (iblock - ee_block mapped)),
     GbOut (u32 (ee_start mapped + iblock - ee_block mapped)) false (simplefs_ext_unwritten mapped)) in
  if create && convert_unwritten && simplefs_ext_unwritten (ext_at (eb_extents buf) extent_idx) then
    let! (r, buf) := simplefs_convert_unwritten_extent buf extent_idx iblock (u32 maxblocks) in
    if r <? 0 then ret (r, gb_none) else
    let! (r, buf) := simplefs_file_sync_extents ino buf in
    if negb (r =? 0) then ret (r, gb_none) else
    let '(found, idx) := simplefs_file_find_extent buf iblock in
    ret (report buf (if found then idx else extent_idx))
  else ret (report buf extent_idx).

(** [iblock] is below 2^32 once the first test has passed. *)
Definition simplefs_get_block (ino iblock maxblocks : Z)
    (create exact_alloc create_unwritten convert_unwritten : bool) : M (Z * gb_out) :=
  if max_file_blocks <=? iblock then ret (- EFBIG, gb_none) else
  let! i := get_inode ino in
  let! (r, buf) := simplefs_file_load_extents (ei_block i) in
  if negb (r =? 0) then ret (r, gb_none) else
  let '(found, idx) := simplefs_file_find_extent buf iblock in
  if negb found then
    if negb create then ret (0, gb_none)
    else map_hole ino buf idx iblock maxblocks exact_alloc create_unwritten
  else map_found ino buf idx iblock maxblocks create convert_unwritten.

(** ** The written state of a range *)

(** The scan of [simplefs_convert_unwritten_range]: a conversion restarts it, and the
    increment of the [for] makes the restart skip index 0.  [None]: out of fuel,
    which [convert_range_ends] excludes. *)
Fixpoint convert_loop (fuel : nat) (i start_block end_block : Z) (buf : extent_buffer)
    : M (option (Z * extent_buffer)) :=
  match fuel with
  | O => ret None
  | S fuel' =>
      if nr_extents buf <=? i then ret (Some (0, buf)) else
      let ext := ext_at (eb_extents buf) i in
      if negb (simplefs_ext_unwritten ext) then convert_loop fuel' (i + 1) start_block end_block buf else
      let ext_start := ee_block ext in
      let ext_end := simplefs_ext_end ext in
      if (ext_end <=? start_block) || (end_block <=? ext_start)
      then convert_loop fuel' (i + 1) start_block end_block buf else
      let map_start := Z.max ext_start start_block in
      let map_len := u32 (Z.min ext_end end_block - map_start) in
      let! (r, buf) := simplefs_convert_unwritten_extent buf i map_start map_len in
      if negb (r =? 0) then ret (Some (r, buf)) else
      convert_loop fuel' 1 start_block end_block buf
  end.

(** Every conversion turns one unwritten extent into at most three, one of them
    written, and each scan visits every extent once. *)
Definition convert_fuel (buf : extent_buffer) : nat :=
  S (length (eb_extents buf)) * S (S (3 * length (eb_extents buf))).

Definition simplefs_convert_unwritten_range (ino offset len : Z) : M Z :=
  if len <=? 0 then ret 0 else
  let start_block := u32 (block_of offset) in
  let end_block := u32 (block_up (offset + len)) in
  if end_block <=? start_block then ret 0 else
  let! i := get_inode ino in
  let! (r, buf) := simplefs_file_load_extents (ei_block i) in
  if negb (r =? 0) then ret r else
  let! res := convert_loop (convert_fuel buf) 0 start_block end_block buf in
  match res with
  | None => ret (- EIO)
  | Some (r, buf) =>
      if negb (r =? 0) then ret r else
      let! (r, _) := simplefs_file_sync_extents ino buf in ret r
  end.

Definition simplefs_mark_unwritten_range (ino start_block nr_blocks : Z) : M Z :=
  if nr_blocks =? 0 then ret 0 else
  let! i := get_inode ino in
  let! (r, buf) := simplefs_file_load_extents (ei_block i) in
  if negb (r =? 0) then ret r else
  let '(found, extent_idx) := simplefs_file_find_extent buf start_block in
  if negb found then ret (- EFSCORRUPTED) else
  let! (r, buf) := simplefs_mark_unwritten_extent buf extent_idx start_block nr_blocks in
  if negb (r =? 0) then ret r else
  let! (r, _) := simplefs_file_sync_extents ino buf in ret r.

(** The [while (block < last)] of [simplefs_zero_range_full_blocks]; an iteration
    advances [block], so [last - first] of them are enough. *)
Fixpoint zero_loop (fuel : nat) (ino block last : Z) (buf : extent_buffer) (alloced : list block_range)
    : M (Z * extent_buffer * list block_range) :=
  match fuel with
  | O => ret (0, buf, alloced)
  | S fuel' =>
      if last <=? block then ret (0, buf, alloced) else
      let '(found, idx) := simplefs_file_find_extent buf block in
      let ext := ext_at (eb_extents buf) idx in
      if found then
        let conv_end := Z.min (simplefs_ext_end ext) last in
        let! (r, buf) :=
          (if negb (simplefs_ext_unwritten ext)
           then simplefs_mark_unwritten_extent buf idx block (u32 (conv_end - block))
           else ret (0, buf)) in
        if negb (r =? 0) then ret (r, buf, alloced)
        else zero_loop fuel' ino conv_end last buf alloced
      else
        let alloc_len := u32 (last - block) in
        let alloc_len :=
          if (idx <? nr_extents buf) && (ee_block ext <? u32 (block + alloc_len))
          then u32 (ee_block ext - block) else alloc_len in
        let alloc_len := Z.min alloc_len SIMPLEFS_MAX_BLOCKS_PER_EXTENT in
        let! (bno, alloc_len) := alloc_halving 13 alloc_len in
        if bno =? 0 then ret (- ENOSPC, buf, alloced) else
        let! (r, buf) := simplefs_file_insert_extent buf idx (simplefs_ext_init block alloc_len bno true) in
        if negb (r =? 0) then run! put_blocks bno alloc_len in ret (r, buf, alloced) else
        run! add_blocks ino alloc_len in
        zero_loop fuel' ino (u32 (block + alloc_len)) last buf (alloced ++ [(bno, alloc_len)])
  end.

Definition simplefs_zero_range_full_blocks (ino first last : Z) : M Z :=
  let! ok := kmalloc in
  if negb ok then ret (- ENOMEM) else
  let! i := get_inode ino in
  let! (r, buf) := simplefs_file_load_extents (ei_block i) in
  if negb (r =? 0) then ret r else
  let! (r, buf, alloced) := zero_loop (Z.to_nat (last - first)) ino first last buf [] in
  if negb (r =? 0) then ret r else
  let! (r, _) := simplefs_file_sync_extents ino buf in
  if r =? 0 then ret 0 else
  run! each_list (rev alloced) (fun a => run! put_blocks a.1 a.2 in sub_blocks ino a.2) in
  ret r.

(** ** The iomap callbacks *)

Definition simplefs_report_iomap_begin (ino offset : Z) : M (Z * iomap) :=
  let iblock := u32 (block_of offset) in
  let none := Iomap IOMAP_HOLE 0 0 0 false false 0 in
  let! ci := get_inode ino in
  let! (r, buf) := simplefs_file_load_extents (ei_block ci) in
  if negb (r =? 0) then ret (r, none) else
  let '(found, idx) := simplefs_file_find_extent buf iblock in
  if found then
    let ext := ext_at (eb_extents buf) idx in
    let '(map_start, map_end, report_unwritten) := report_split ci ext iblock in
    ret (0, Iomap (map_type report_unwritten) (block_start map_start)
              (block_start (u32 (ee_start ext + map_start - ee_block ext)))
              (block_start (u32 (map_end - map_start))) false false 0)
  else
    let hole_end := report_hole_end buf idx iblock (i_size ci) in
    ret (0, Iomap IOMAP_HOLE (block_start iblock) IOMAP_NULL_ADDR
              (block_start (u32 (hole_end - iblock))) false false 0).

(** The mapping a positive, zero or negative count of [simplefs_get_block] gives. *)
Definition iomap_of (r : Z) (out : gb_out) (offset : Z) (new dirty : bool) (private : Z) : iomap :=
  if r =? 0 then Iomap IOMAP_HOLE offset IOMAP_NULL_ADDR SIMPLEFS_BLOCK_SIZE new dirty private
  else Iomap (map_type (gb_unwritten out)) offset (block_start (gb_bno out)) (block_start r) new dirty private.

Definition simplefs_read_iomap_begin (ino offset length : Z) (report : bool) : M (Z * iomap) :=
  if report then simplefs_report_iomap_begin ino offset else
  let start := align_down offset in
  let! i := get_inode ino in
  if i_size i <=? start then
    ret (0, Iomap IOMAP_HOLE start IOMAP_NULL_ADDR (offset + length - start) false false 0)
  else
  let! (r, out) := simplefs_get_block ino (block_of offset) (blocks_spanned offset length) false false false false in
  if r <? 0 then ret (r, Iomap IOMAP_HOLE start 0 0 false false 0) else
  ret (0, iomap_of r out start false false 0).

(** A small buffered write behind the first block reserves a bounded run. *)
Definition write_max_blocks (first_block max_blocks : Z) (create direct : bool) : Z :=
  if create && negb direct && negb (first_block =? 0) && (first_block <? max_file_blocks)
  then Z.min (Z.max max_blocks SIMPLEFS_WRITE_PREALLOC_BLOCKS) (max_file_blocks - first_block)
  else max_blocks.

Definition simplefs_write_iomap_begin (ino offset length : Z) (create direct : bool) : M (Z * iomap) :=
  let first_block := block_of offset in
  let requested_blocks := blocks_spanned offset length in
  let! i := get_inode ino in
  let buffered_create := create && negb direct in
  let dirty := create && (i_size i <? offset + length) in
  let private := if create && (i_size i <? offset) && negb direct then i_size i + 1 else 0 in
  let max_blocks := write_max_blocks first_block requested_blocks create direct in
  let! (r, out) := simplefs_get_block ino first_block max_blocks create buffered_create
                     (create && negb buffered_create) false in
  let start := align_down offset in
  if r <? 0 then ret (r, Iomap IOMAP_HOLE start 0 0 false dirty private) else
  let iomap := iomap_of r out start (gb_new out) dirty private in
  if gb_new out && negb direct && (requested_blocks <? r) then
    let prealloc_blocks := r - requested_blocks in
    let! r := simplefs_mark_unwritten_range ino (u32 (first_block + requested_blocks)) (u32 prealloc_blocks) in
    if negb (r =? 0) then ret (r, iomap) else
    run! upd_inode ino (fun ci => set_prealloc_len (u32 prealloc_blocks)
                                   (set_prealloc_block (u32 (first_block + requested_blocks)) ci)) in
    ret (0, Iomap (im_type iomap) (im_offset iomap) (im_addr iomap) (block_start requested_blocks)
              (im_new iomap) (im_dirty iomap) (im_private iomap))
  else ret (0, iomap).

(** A write of [offset, +len) consumes the tracked preallocation. *)
Definition simplefs_prealloc_written (offset len : Z) (ci : inode) : inode :=
  if prealloc_len ci =? 0 then ci else
  let write_start := u32 (block_of offset) in
  let write_end := u32 (block_up (offset + len)) in
  let pre_end := u32 (prealloc_block ci + prealloc_len ci) in
  if (write_end <=? prealloc_block ci) || (pre_end <=? write_start) then ci else
  if write_start <=? prealloc_block ci then
    if pre_end <=? write_end then set_prealloc_len 0 (set_prealloc_block 0 ci)
    else set_prealloc_block write_end (set_prealloc_len (u32 (pre_end - write_end)) ci)
  else if pre_end <=? write_end then set_prealloc_len (u32 (write_start - prealloc_block ci)) ci
  else set_prealloc_block write_end (set_prealloc_len (u32 (pre_end - write_end)) ci).

End Ops.

(** ** The extents a mapping adds *)

Lemma find_cases buf l b : eb_extents buf = l -> wf_extents l ->
  let '(found, idx) := simplefs_file_find_extent buf b in
  (found = true /\ exists pre e post, l = pre ++ e :: post /\ idx = Z.of_nat (length pre) /\
     ee_block e <= b < ee_block e + simplefs_ext_len e) \/
  (found = false /\ (forall p u, ~ maps l b p u) /\ exists pre post, l = pre ++ post /\
     idx = Z.of_nat (length pre) /\ Forall (fun e => ee_block e + simplefs_ext_len e <= b) pre /\
     Forall (fun e => b < ee_block e) post).
Proof.
  intros Hx (Hc & Hok & Hne). unfold simplefs_file_find_extent. rewrite Hx.
  pose proof (find_extent_spec l 0 0 b Hok Hne Hc) as H. destruct (find_extent_from 0 l b) as [found k].
  rewrite Z.sub_0_r in H. destruct H as [Hk H]. destruct found; [left|right].
  - destruct H as (e & He & Hb). split; [done|]. exists (take (Z.to_nat k) l), e, (drop (S (Z.to_nat k)) l).
    split_and!; [by rewrite take_drop_middle| |lia..]. rewrite length_take. apply lookup_lt_Some in He. lia.
  - destruct H as (H1 & H2 & H3). split_and!; [done..|]. exists (take (Z.to_nat k) l), (drop (Z.to_nat k) l).
    split_and!; [by rewrite take_drop| |done..]. rewrite length_take. lia.
Qed.

Lemma chain_app_inv pre : forall lo post, chain lo (pre ++ post) -> chain lo pre /\ exists lo', chain lo' post.
Proof.
  induction pre as [|e pre IH]; intros lo post H; cbn [app chain] in *; [split; [done|by exists lo]|].
  destruct (simplefs_extent_is_empty e); [by apply IH|]. destruct H as [H1 H2].
  destruct (IH _ _ H2) as [H3 H4]. by split_and!.
Qed.

(** Raising the lower bound up to the first extent. *)
Lemma chain_raise lo lo' l : Forall nonempty l -> chain lo' l ->
  (forall e rest, l = e :: rest -> lo <= ee_block e) -> chain lo l.
Proof.
  intros Hne Hc Hh. destruct l as [|e l]; [done|]. apply Forall_cons in Hne as [He _].
  apply chain_nonempty in Hc as [_ Hc]; [|done]. apply chain_nonempty; [done|]. split; [by eapply Hh|done].
Qed.

(** [new] maps the hole [b, b + n) and is followed by nothing before b + n. *)
Lemma chain_insert pre post new b n : nonempty new -> ee_block new = b -> simplefs_ext_len new = n -> 0 <= b ->
  Forall nonempty post -> chain 0 (pre ++ post) -> Forall (fun e => ee_block e + simplefs_ext_len e <= b) pre ->
  (forall e rest, post = e :: rest -> b + n <= ee_block e) -> chain 0 (pre ++ new :: post).
Proof.
  intros Hn Hb Hl Hb0 Hne Hc Hpre Hpost. apply chain_app_inv in Hc as [Hc1 [lo Hc2]].
  apply (fits_app pre 0 b); [done|split; [done|by eapply Forall_impl]|].
  apply chain_nonempty; [done|]. split; [lia|]. rewrite Hb, Hl. by eapply chain_raise.
Qed.

(** The hole at [iblock] reaches [n] blocks far. *)
Definition hole_at (pre post : list extent) (iblock n : Z) : Prop :=
  Forall (fun e => ee_block e + simplefs_ext_len e <= iblock) pre /\
  (forall e rest, post = e :: rest -> iblock + n <= ee_block e).

Lemma gap_unmapped pre post iblock n b p u : wf_extents (pre ++ post) -> hole_at pre post iblock n ->
  iblock <= b < iblock + n -> ~ maps (pre ++ post) b p u.
Proof.
  intros (Hc & _ & Hne) [H1 H2] Hb. rewrite maps_app. intros [(e & Hin & (_ & He & _))|Hp].
  - rewrite Forall_forall in H1. specialize (H1 e (proj2 (list_elem_of_In _ _) Hin)). cbn in H1. lia.
  - apply chain_app_inv in Hc as [_ [lo Hc]]. apply Forall_app in Hne as [_ Hne].
    assert (chain (iblock + n) post) by (by eapply chain_raise). pose proof (chain_maps_ge _ _ _ _ _ H Hp). lia.
Qed.

(** The last extent before the hole, grown over it. *)
Section Grow.
Context (e : extent) (n : Z).
Hypothesis Hok : ext_ok e.
Hypothesis Hu : ext_u32 e.
Hypothesis Hne : nonempty e.
Hypothesis Hn : 0 < n.
Hypothesis Hmax : simplefs_ext_len e + n <= SIMPLEFS_MAX_BLOCKS_PER_EXTENT.
Let x := simplefs_ext_set_len e (simplefs_ext_len e + n).

Lemma grow_len : simplefs_ext_len x = simplefs_ext_len e + n.
Proof. pose proof (ext_len_bounds e). apply ext_set_len_len. lia. Qed.
Lemma grow_nonempty : nonempty x.
Proof.
  pose proof (proj1 (nonempty_len e) Hne) as [H1 H2]. apply nonempty_len. rewrite grow_len. split; [done|lia].
Qed.
Lemma grow_maps b p u : ext_maps x b p u <-> ext_maps e b p u \/
  (ee_block e + simplefs_ext_len e <= b < ee_block e + simplefs_ext_len e + n /\
   p = ee_start e + simplefs_ext_len e + (b - (ee_block e + simplefs_ext_len e)) /\ u = simplefs_ext_unwritten e).
Proof.
  pose proof (ext_len_bounds e). rewrite !spans_ext by (done || apply grow_nonempty). rewrite grow_len.
  unfold x. rewrite ext_set_len_unwritten by lia. unfold spans. cbn [ee_block ee_start simplefs_ext_set_len].
  destruct (Z_lt_le_dec b (ee_block e + simplefs_ext_len e)); split; intros; destruct_or?; destruct_and?; subst; branch.
Qed.
Lemma grow_chain lo post : chain lo (e :: post) ->
  Forall nonempty post -> (forall y rest, post = y :: rest -> ee_block e + simplefs_ext_len e + n <= ee_block y) ->
  chain lo (x :: post).
Proof.
  intros Hc Hp Hh. apply chain_nonempty in Hc as [H1 H2]; [|done]. apply chain_nonempty; [apply grow_nonempty|].
  split; [done|]. rewrite grow_len. eapply chain_raise; [done|exact H2|]. cbn [ee_block x simplefs_ext_set_len].
  intros y rest E. specialize (Hh y rest E). lia.
Qed.
End Grow.

(** A run of blocks inside one extent; merging keeps it there. *)
Definition in_one (l : list extent) (b n : Z) : Prop :=
  exists e, In e l /\ nonempty e /\ ee_block e <= b /\ b + n <= ee_block e + simplefs_ext_len e.

Lemma in_one_cons e l b n : in_one l b n -> in_one (e :: l) b n.
Proof. intros (x & Hx & H). exists x. split; [by right|done]. Qed.

Lemma merge_loop_in_one b n k : forall l, length l = k -> Forall ext_ok l -> in_one l b n -> in_one (merge_loop k l) b n.
Proof.
  induction k as [|k IH]; intros l Hl Hok Hin.
  { destruct l; [|done]. destruct Hin as (e & [] & _). }
  destruct l as [|cur l]; [done|]. cbn [merge_loop]. injection Hl as Hl. apply Forall_cons in Hok as [Hc Hok].
  assert (Hskip : nonempty cur -> in_one (cur :: merge_loop k l) b n).
  { intros Hne. destruct Hin as (x & [<-|Hx] & H); [exists cur; split; [by left|done]|].
    apply in_one_cons, IH; [done..|by exists x]. }
  destruct (simplefs_extent_is_empty cur) eqn:Ee.
  { apply IH; [done..|]. destruct Hin as (x & [<-|Hx] & Hn & H); [unfold nonempty in Hn; congruence|by exists x]. }
  destruct l as [|next l]; [by apply Hskip|]. destruct (mergeable cur next) eqn:Em; [|by apply Hskip].
  apply Forall_cons in Hok as [Hn Hok]. destruct (merge_spec cur next Hc Hn Ee Em) as (M1 & M2 & _).
  apply mergeable_spec in Em as (_ & Hb & _ & Hlen); [|done]. destruct (merge_fields cur next Hlen) as (ML & _ & MB & _).
  pose proof (ext_len_bounds cur). pose proof (ext_len_bounds next).
  apply IH; [done|by constructor|]. destruct Hin as (x & [<-|[<-|Hx]] & Hx' & H1 & H2).
  - exists (merge cur next). rewrite ML, MB. split_and!; [by left|done|lia|lia].
  - exists (merge cur next). rewrite ML, MB. split_and!; [by left|done|lia|lia].
  - exists x. split_and!; [by right|done..].
Qed.
Lemma normalize_in_one l b n : Forall ext_ok l -> in_one l b n -> in_one (normalize l) b n.
Proof.
  intros Hok (e & Hin & H). unfold normalize. destruct (exchange_sort_spec (length l) l eq_refl) as [Hp _].
  apply merge_loop_in_one; [done|by rewrite <- Hp|]. exists e. split; [|done]. by eapply Permutation_in.
Qed.

Lemma max_file_blocks_u32 : max_file_blocks + SIMPLEFS_MAX_BLOCKS_PER_EXTENT <= U32_MAX.
Proof. by apply Z.leb_le. Qed.

(** ** Adding blocks to a sound file *)
Section Add.
Context {K : Kernel} {HE : Errno}.
Context (w0 : world) (ino : Z) (l : list extent) (leaves : list Z).
Hypothesis Hf : file_ok w0 ino l leaves.

Local Abbreviation L := (layout_of (w_sbi w0)).
Local Abbreviation root := (ei_block (inode_of w0 ino)).

(** What is in use at the start, by this file or another; all of it but the leaves. *)
Definition in_use (w : world) (p : Z) : Prop := 0 <= p /\ test_bit (bfree_bitmap (w_sbi w)) p = false.
Definition others (p : Z) : Prop := in_use w0 p /\ p ∉ leaves.

(** Nothing of it was given away since, and the inode has its tree. *)
Definition held (w : world) : Prop := busy L (in_use w0) w /\ ei_block (inode_of w ino) = root.

Lemma file_in_use p : file_blocks (w_sbi w0) root l p \/ p ∈ leaves -> in_use w0 p.
Proof. destruct Hf as [_ _ _ _ _ ((_ & _ & H) & _) _ _ _]. apply H. Qed.

Lemma file_others p : file_blocks (w_sbi w0) root l p -> others p.
Proof.
  intros Hp. split; [apply file_in_use; by left|]. intros Hin. destruct Hf as [_ _ _ _ _ (_ & _ & H) _ _ _].
  rewrite Forall_forall in H. by destruct (H p Hin).
Qed.

Lemma held_start w : settled w0 w -> held w.
Proof.
  intros [Hv _]. split.
  - eapply busy_aeq; [exact (f_equal (fun x => x.1.1) Hv)|]. destruct Hf as [_ _ _ _ _ ((Hinv & _ & H) & _) _ _ _].
    by split_and!.
  - unfold inode_of. by rewrite (f_equal (fun x => x.2) Hv : w_inodes w = w_inodes w0).
Qed.

#[export] Instance held_jstable : JStable held.
Proof.
  split; [split|].
  - intros c Hc w [H1 H2]. split; [by apply ks_call|]. unfold kdo, inode_of. by destruct (kstep _ c).
  - intros h n w Hin [H1 H2]. split; [by apply ks_dirty|]. unfold kdo, inode_of. by destruct (kstep _ _).
  - intros g w [H1 H2]. split; [by apply ks_upd_journal|done].
  - intros w [H1 H2]. split; [by apply ks_shutdown|done].
  - intros n v w [H1 H2]. split; [by apply js_image|done].
Qed.

Lemma inodes_held {A} (m : M A) w : (forall I, AStable I -> preserves I m) ->
  wp m (fun _ w' => w_inodes w' = w_inodes w) w.
Proof. intros H. apply (H _ (inodes_astable (fun x => x = w_inodes w))). done. Qed.

Lemma get_free_blocks_held len w : 0 <= len <= U32_MAX -> held w ->
  wp (get_free_blocks len) (fun b w' => held w' /\ (b <> 0 -> free_run (w_sbi w) b len /\
    (forall p, b <= p < b + len -> ~ in_use w0 p) /\ busy L (fun p => in_use w0 p \/ b <= p < b + len) w')) w.
Proof.
  intros Hlen [Hb Hr]. eapply wp_mono.
  { apply wp_conj; [by apply (get_free_blocks_busy L (in_use w0))|].
    apply inodes_held. intros I HI. by apply get_free_blocks_apres. }
  intros b w' [[H1 H2] Hi]; cbn beta in *. split; [|done]. split; [done|]. unfold inode_of in *. by rewrite Hi.
Qed.

Lemma take_exact_held bno len w : is_u32 bno -> is_u32 len -> held w ->
  wp (simplefs_take_exact_blocks bno len) (fun ok w' => held w' /\ (ok = true -> free_run (w_sbi w) bno len /\
    (forall p, bno <= p < bno + len -> ~ in_use w0 p) /\ busy L (fun p => in_use w0 p \/ bno <= p < bno + len) w')) w.
Proof.
  intros Hb Hl [HB Hr]. eapply wp_mono.
  { apply wp_conj; [by apply (take_exact_busy L (in_use w0))|].
    apply inodes_held. intros I HI. by apply take_exact_apres. }
  intros b w' [[H1 H2] Hi]; cbn beta in *. split; [|done]. split; [done|]. unfold inode_of in *. by rewrite Hi.
Qed.

(** A block that was not in use lies behind the metadata and is not the root's. *)
Lemma fresh_block p : 0 <= p -> ~ in_use w0 p -> root_dir_block (w_sbi w0) < p /\ p <> root.
Proof.
  intros H0 Hn. split.
  - destruct (Z_lt_le_dec (root_dir_block (w_sbi w0)) p); [done|]. destruct Hn. apply file_in_use. left. left. lia.
  - intros ->. apply Hn, file_in_use. left. right. by left.
Qed.

(** The mapping of [l] with [n] new blocks from [bno] at [iblock]. *)
Definition adds (iblock n bno : Z) (cu : bool) (x : list extent) : Prop :=
  forall b p u, maps x b p u <->
    maps l b p u \/ (iblock <= b < iblock + n /\ p = bno + (b - iblock) /\ u = cu).

Lemma sync_added buf iblock n bno cu w :
  busy L (fun p => in_use w0 p \/ bno <= p < bno + n) w -> ei_block (inode_of w ino) = root ->
  (forall p, bno <= p < bno + n -> ~ in_use w0 p) -> 0 < bno -> bno + n <= nr_blocks (w_sbi w0) ->
  eb_leaf_blocks buf = leaves -> adds iblock n bno cu (eb_extents buf) ->
  Forall ext_ok (eb_extents buf) -> Forall ext_u32 (eb_extents buf) -> chain 0 (eb_extents buf) ->
  in_one (eb_extents buf) iblock n ->
  wp (simplefs_file_sync_extents ino buf) (fun rb w' => busy L (fun p => others p \/ bno <= p < bno + n) w' /\
    (fst rb = 0 -> exists l' leaves', file_ok w' ino l' leaves' /\ adds iblock n bno cu l' /\ in_one l' iblock n)) w.
Proof.
  intros Hb Hroot Hfree Hbno Hend Hl Hadd Hok Hu Hc Hone. pose proof Hf as [F1 F2 F3 F4 F5 F6 F7 F8 F9].
  assert (HL : layout_of (w_sbi w) = L) by apply Hb. pose proof (root_dir_layout _ _ HL) as HR.
  assert (HN : nr_blocks (w_sbi w) = nr_blocks (w_sbi w0)) by (unfold layout_of in HL; by injection HL).
  destruct F6 as (_ & F6 & F6').
  assert (Hnew : forall p, bno <= p < bno + n -> root_dir_block (w_sbi w0) < p /\ p <> root).
  { intros p Hp. apply fresh_block; [lia|by apply Hfree]. }
  eapply wp_mono; [apply (sync_writes ino (fun p => others p \/ bno <= p < bno + n)); constructor; rewrite ?HL, ?HR, ?HN, ?Hroot; try done|].
  - by eapply layout_ok_eq.
  - rewrite Hl. split_and!; [|done|].
    + eapply busy_sub; [|exact Hb]. intros p [[[Hp _]|Hp]|Hp]; [by left|by right|left]. apply file_in_use. by right.
    + apply Forall_forall. intros p Hp. rewrite Forall_forall in F6'. destruct (F6' p Hp) as [Hp32 _]. split; [done|].
      intros [[_ ?]|Hp']; [done|]. apply (Hfree p Hp'), file_in_use. by right.
  - intros p Hp. unfold file_blocks in Hp. rewrite HR in Hp.
    destruct Hp as [Hp|[Hp|(b & u & [Hp|(Hb' & -> & _)]%Hadd)]].
    + left. apply file_others. by left.
    + left. apply file_others. right. by left.
    + left. apply file_others. right. right. by exists b, u.
    + right. lia.
  - intros b p u [Hp|(Hb' & -> & _)]%Hadd; [by eapply F8|].
    destruct (Hnew (bno + (b - iblock))); lia.
  - intros b b' p u u' [Hp|(Hb' & -> & _)]%Hadd [Hp'|(Hb2 & E & _)]%Hadd; [by eapply F9| | |lia].
    + exfalso. subst p. apply (Hfree (bno + (b' - iblock))); [lia|]. apply file_in_use. left. right. right. by exists b, u.
    + exfalso. apply (Hfree (bno + (b - iblock))); [lia|]. apply file_in_use. left. right. right. by exists b', u'.
  - by apply (chain_pairs _ 0).
  - intros rb w' [H1 H2]; cbn beta in *. rewrite HL in H1. split; [done|]. intros Hr.
    destruct (H2 Hr) as (lv & G1 & _). exists (normalize (eb_extents buf)), lv. split_and!; [done| |by apply normalize_in_one].
    intros b p u. destruct (normalize_spec (eb_extents buf) Hok) as (_ & _ & _ & N4 & _). rewrite N4. apply Hadd.
Qed.

Lemma held_blocks w n : held w -> held (snd (add_blocks ino n w)).
Proof.
  intros [H1 H2]. split; [done|]. unfold add_blocks, upd_inode, modify, inode_of in *. cbn. by rewrite lookup_insert_eq.
Qed.

(** A run of new blocks: not in use at the start, in use now. *)
Definition run_of (bno n : Z) (w : world) : Prop :=
  0 < bno /\ 0 < n /\ bno + n <= nr_blocks (w_sbi w0) /\ (forall p, bno <= p < bno + n -> ~ in_use w0 p) /\
  busy L (fun p => in_use w0 p \/ bno <= p < bno + n) w.

Lemma run_of_free bno n w k : run_of bno n w -> 0 <= k < n ->
  test_bit (bfree_bitmap (w_sbi w0)) (bno + k) = true.
Proof.
  intros (R1 & R2 & R3 & R4 & _) Hk. destruct (test_bit _ (bno + k)) eqn:E; [done|].
  destruct (R4 (bno + k)); [lia|]. split; [lia|done].
Qed.

Lemma free_run_of bno n w w' : held w -> free_run (w_sbi w) bno n ->
  (forall p, bno <= p < bno + n -> ~ in_use w0 p) ->
  busy L (fun p => in_use w0 p \/ bno <= p < bno + n) w' -> run_of bno n w'.
Proof.
  intros [(_ & HL & _) _] (F1 & F2 & F3 & _) H1 H2. split_and!; try done.
  unfold layout_of in HL. by injection HL as <- _ _ _ _.
Qed.

Lemma run_of_u32 bno n w : run_of bno n w -> is_u32 bno /\ is_u32 n.
Proof.
  intros (R1 & R2 & R3 & _). destruct Hf as [_ _ _ _ _ (( ((Hnb & _) & _) & _) & _) _ _ _]. unfold is_u32. lia.
Qed.

(** Giving such a run back leaves what was in use at the start. *)
Lemma run_back S bno n w : (forall p, S p -> in_use w0 p) -> is_u32 bno -> is_u32 n ->
  (forall p, bno <= p < bno + n -> ~ in_use w0 p) -> busy L (fun p => S p \/ bno <= p < bno + n) w ->
  wp (put_blocks bno n) (fun _ w' => busy L S w') w.
Proof.
  intros HS H1 H2 H3 Hb. apply put_blocks_busy; [done|done| |].
  - intros p Hp Hr. by apply (H3 p Hr), HS.
  - eapply busy_sub; [|exact Hb]. by left.
Qed.

Lemma alloc_halving_held fuel : forall n w, 0 <= n <= U32_MAX -> held w ->
  wp (alloc_halving fuel n) (fun res w' => held w' /\ 0 <= snd res <= n /\
    (fst res <> 0 -> run_of (fst res) (snd res) w')) w.
Proof.
  induction fuel as [|fuel IH]; intros n w Hn Hw; cbn [alloc_halving]; apply wp_bind;
    (eapply wp_mono; [by apply get_free_blocks_held|]); intros b w' [H1 H2]; cbn beta in *.
  all: destruct (Z.eqb_spec b 0) as [->|Hb]; cbn [negb];
    [|apply wp_ret; split_and!; cbn [fst snd]; try done; try lia; intros _; destruct (H2 Hb) as (G1 & G2 & G3); by apply (free_run_of b n w w')].
  all: destruct (Z.leb_spec n 1); [apply wp_ret; split_and!; cbn [fst snd]; try done; lia|].
  - apply wp_ret; split_and!; cbn [fst snd]; try done; lia.
  - eapply wp_mono; [apply IH; [Z.to_euclidean_division_equations; lia|done]|].
    intros [b' n'] w2 (G1 & G2 & G3); cbn [fst snd] in *. split_and!; try done; Z.to_euclidean_division_equations; lia.
Qed.

(** What mapping a hole promises.  New blocks are reported through [gb_new]: the
    mapping grew by exactly the reported run, which was free; otherwise an error is
    reported and nothing in use was given away. *)
Definition hole_post (iblock : Z) (cu : bool) (res : Z * gb_out) (w' : world) : Prop :=
  let '(r, out) := res in
  if gb_new out then
    0 < r /\ gb_unwritten out = cu /\
    (exists l' leaves', file_ok w' ino l' leaves' /\ adds iblock r (gb_bno out) cu l' /\ in_one l' iblock r) /\
    (forall k, 0 <= k < r -> test_bit (bfree_bitmap (w_sbi w0)) (gb_bno out + k) = true /\
       forall p u, ~ maps l (iblock + k) p u)
  else r < 0 /\ busy L others w'.

Lemma held_others w : held w -> busy L others w.
Proof. intros [H _]. eapply busy_sub; [|exact H]. by intros p [? _]. Qed.

Lemma hole_unmapped pre post iblock n k p u : l = pre ++ post -> hole_at pre post iblock n -> 0 <= k < n ->
  ~ maps l (iblock + k) p u.
Proof. intros -> H Hk. pose proof Hf as [_ F2 _ _ _ _ _ _ _]. apply (gap_unmapped pre post iblock n); done || lia. Qed.

Definition held_run (bno n : Z) (w : world) : Prop := run_of bno n w /\ ei_block (inode_of w ino) = root.

#[export] Instance held_run_jstable bno n : JStable (held_run bno n).
Proof.
  split; [split|].
  - intros c Hc w [(R1 & R2 & R3 & R4 & R5) H2]. split; [split_and!; try done; by apply ks_call|].
    unfold kdo, inode_of. by destruct (kstep _ c).
  - intros h k w Hin [(R1 & R2 & R3 & R4 & R5) H2]. split; [split_and!; try done; by apply ks_dirty|].
    unfold kdo, inode_of. by destruct (kstep _ _).
  - intros g w [(R1 & R2 & R3 & R4 & R5) H2]. split; [split_and!; try done; by apply ks_upd_journal|done].
  - intros w [(R1 & R2 & R3 & R4 & R5) H2]. split; [split_and!; try done; by apply ks_shutdown|done].
  - intros k v w [(R1 & R2 & R3 & R4 & R5) H2]. split; [split_and!; try done; by apply js_image|done].
Qed.
Lemma held_run_blocks bno n m : preserves (held_run bno n) (add_blocks ino m).
Proof.
  intros w [H1 H2]. split; [exact H1|]. unfold add_blocks, upd_inode, modify, inode_of in *. cbn. by rewrite lookup_insert_eq.
Qed.

(** Giving up a run after a failure. *)
Lemma run_abandoned bno n w w' : run_of bno n w -> busy L (fun p => others p \/ bno <= p < bno + n) w' ->
  wp (put_blocks bno n) (fun _ w'' => busy L others w'') w'.
Proof.
  intros Hr Hb. destruct (run_of_u32 _ _ _ Hr) as [U1 U2]. destruct Hr as (_ & _ & _ & R4 & _).
  apply run_back; try done. by intros p [? _].
Qed.
Lemma run_others bno n w : run_of bno n w -> busy L (fun p => others p \/ bno <= p < bno + n) w.
Proof. intros (_ & _ & _ & _ & H). eapply busy_sub; [|exact H]. intros p [[? _]|?]; [by left|by right]. Qed.

(** The tail both ways of mapping share: charge the inode, write the tree. *)
Lemma charge_and_sync {A} buf iblock n bno cu (k : Z * extent_buffer -> M A) Q w :
  held_run bno n w -> eb_leaf_blocks buf = leaves ->
  adds iblock n bno cu (eb_extents buf) -> Forall ext_ok (eb_extents buf) -> Forall ext_u32 (eb_extents buf) ->
  chain 0 (eb_extents buf) -> in_one (eb_extents buf) iblock n -> (forall i, 0 <= i < n -> forall p u, ~ maps l (iblock + i) p u) ->
  (forall rb w', fst rb <= 0 -> busy L (fun p => others p \/ bno <= p < bno + n) w' ->
    (fst rb = 0 -> hole_post iblock cu (n, GbOut bno true cu) w') -> wp (k rb) Q w') ->
  wp (run! add_blocks ino n in let! rb := simplefs_file_sync_extents ino buf in k rb) Q w.
Proof.
  intros Hr Hl Hadd Hok Hu Hc Hone Hun Hk. apply wp_bind.
  eapply wp_mono; [apply (wp_pres _ _ _ (held_run_blocks bno n n) Hr)|]. intros u w1 [Hr1 Hi1]; cbn beta in *.
  pose proof Hr1 as (R1 & R2 & R3 & R4 & R5). apply wp_bind.
  eapply wp_mono; [apply wp_conj; [by apply (sync_added buf iblock n bno cu)|apply wp_always, err_sync_extents]|].
  intros rb w2 [[H1 H2] H3]; cbn beta in *. apply Hk; [done|done|].
  intros Hz. cbn [hole_post gb_new gb_bno gb_unwritten]. split_and!; [done|done|by apply H2|].
  intros i Hi. split; [by eapply run_of_free|by apply Hun].
Qed.

Lemma zeroout_err (ex : bool) b n :
  always (fun r => r <= 0) (if ex then kdo (BlkdevIssueZeroout b n) else ret 0).
Proof. destruct ex; [by apply err_kdo|by apply always_ret]. Qed.

Lemma grow_loop_held pre prev post buf iblock cu ex : l = pre ++ prev :: post -> eb_extents buf = l ->
  eb_leaf_blocks buf = leaves -> simplefs_ext_unwritten prev = cu -> ee_block prev + simplefs_ext_len prev = iblock ->
  iblock + SIMPLEFS_MAX_BLOCKS_PER_EXTENT <= U32_MAX ->
  forall fuel n w, simplefs_ext_len prev + n <= SIMPLEFS_MAX_BLOCKS_PER_EXTENT -> hole_at (pre ++ [prev]) post iblock n ->
  held w ->
  wp (grow_loop fuel ino buf (Z.of_nat (length pre)) n ex cu) (fun res w' =>
    match res with None => held w' | Some r => hole_post iblock cu r w' end) w.
Proof.
  intros El Hx Hl Hcu Hib Hmax. pose proof Hf as [_ (Hc & Hok & Hne) F3 _ _ F6 _ F8 _].
  rewrite El in Hok, Hne, F3, Hc. apply Forall_app in Hok as [Hok1 [Hokp Hok2]%Forall_cons].
  apply Forall_app in Hne as [Hne1 [Hnep Hne2]%Forall_cons]. apply Forall_app in F3 as [Hu1 [Hup Hu2]%Forall_cons].
  assert (Hat : ext_at (eb_extents buf) (Z.of_nat (length pre)) = prev).
  { unfold ext_at. rewrite Hx, El, Nat2Z.id, app_nth2, Nat.sub_diag by lia. done. }
  pose proof (ext_len_bounds prev) as Hb. pose proof Hokp as (O1 & O2 & O3 & O4).
  induction fuel as [|fuel IH]; intros n w Hn Hh Hw; cbn [grow_loop]; [by apply wp_ret|].
  destruct (Z.leb_spec n 0) as [|Hpos]; [by apply wp_ret|]. rewrite Hat, Nat2Z.id. cbv zeta.
  rewrite (u32_id (ee_start prev + _)) by (unfold is_u32; lia). unfold SIMPLEFS_MAX_BLOCKS_PER_EXTENT in *.
  apply wp_bind. eapply wp_mono; [apply take_exact_held; [unfold is_u32; lia|unfold is_u32, U32_MAX; lia|done]|].
  intros ok w1 [H1 H2]; cbn beta in *. destruct ok; cbn [negb].
  2:{ apply IH; [Z.to_euclidean_division_equations; lia| |done]. destruct Hh as [G1 G2]. split; [done|].
      intros y rest E. specialize (G2 y rest E). Z.to_euclidean_division_equations; lia. }
  destruct (H2 eq_refl) as (G1 & G2 & G3).
  assert (Hr : held_run (ee_start prev + simplefs_ext_len prev) n w1) by (split; [by apply (free_run_of _ _ w)|apply H1]).
  apply wp_bind. eapply wp_mono.
  { apply wp_conj; [apply (wp_pres (held_run (ee_start prev + simplefs_ext_len prev) n)); [pres|done]|].
    apply wp_always, zeroout_err. }
  intros r w2 [[Hr2 Hi2] Hz]; cbn beta in *. destruct (Z.eqb_spec r 0) as [->|Hr0]; cbn [negb].
  2:
  { apply wp_bind. eapply wp_mono; [eapply run_abandoned; [exact Hr2|by apply run_others]|].
    intros u w3 H3. apply wp_ret. split; [lia|done]. }
  set (x := simplefs_ext_set_len prev (simplefs_ext_len prev + n)).
  set (buf' := eb_set_extents buf _).
  assert (Hx' : eb_extents buf' = pre ++ x :: post).
  { unfold buf'. cbn [eb_set_extents eb_extents]. rewrite Hx, El, insert_app_r_alt, Nat.sub_diag by lia. done. }
  destruct Hh as [Hh1 Hh2]. pose proof Hr2 as (R1 & R2 & R3 & _).
  destruct F6 as ((((Hnb & _) & _) & _) & _).
  assert (Hlen : simplefs_ext_len prev + n <= SIMPLEFS_MAX_BLOCKS_PER_EXTENT) by (unfold SIMPLEFS_MAX_BLOCKS_PER_EXTENT; lia).
  apply (charge_and_sync buf' iblock n (ee_start prev + simplefs_ext_len prev) cu); rewrite ?Hx'.
  - done.
  - done.
  - intros b p u. unfold x. rewrite El, !maps_app, !maps_cons, (grow_maps prev n) by done. subst iblock cu. tauto.
  - apply Forall_app. split; [done|]. constructor; [|done]. unfold ext_ok, x. rewrite grow_len by done.
    cbn [ee_block ee_start simplefs_ext_set_len]. lia.
  - apply Forall_app. split; [done|]. constructor; [|done]. by apply ext_set_len_u32.
  - apply (chain_replace prev [x] post pre 0); [|done]. intros lo Hlo. cbn [app]. apply grow_chain; try done.
    intros y rest E. specialize (Hh2 y rest E). lia.
  - exists x. split_and!; [apply in_or_app; right; by left|by apply grow_nonempty|cbn [x ee_block simplefs_ext_set_len]; lia|].
    unfold x. rewrite grow_len by done. cbn [ee_block simplefs_ext_set_len]. lia.
  - intros i Hi p u. apply (hole_unmapped (pre ++ [prev]) post iblock n); [by rewrite <- app_assoc|by split|done].
  - intros [r' b'] w3 H5 H3 H4; cbn [fst] in *. destruct (Z.eqb_spec r' 0) as [->|Hr']; cbn [negb]; apply wp_ret.
    + by apply H4.
    + cbn [hole_post gb_none gb_new]. split; [lia|]. eapply busy_sub; [|exact H3]. by left.
Qed.
(** The hole's length reaches at most to the next extent. *)
Lemma hole_len_at buf pre post iblock max : l = pre ++ post -> eb_extents buf = l -> 0 <= iblock ->
  Forall (fun e => ee_block e + simplefs_ext_len e <= iblock) pre -> Forall (fun e => iblock < ee_block e) post ->
  let n := hole_len buf (Z.of_nat (length pre)) iblock max in
  0 <= n <= SIMPLEFS_MAX_BLOCKS_PER_EXTENT /\ hole_at pre post iblock n.
Proof.
  intros El Hx Hib Hpre Hpost. unfold hole_len, hole_at, nr_extents, ext_at. rewrite Hx, El, length_app, Nat2Z.id.
  pose proof (u32_range max) as Hm. unfold is_u32 in Hm. unfold SIMPLEFS_MAX_BLOCKS_PER_EXTENT.
  destruct post as [|e post]; cbn [length].
  { rewrite (proj2 (Z.ltb_ge (Z.of_nat (length pre)) (Z.of_nat (length pre + 0)))) by lia. cbn [andb]. split_and!; [lia|lia|done|done]. }
  rewrite (proj2 (Z.ltb_lt (Z.of_nat (length pre)) (Z.of_nat (length pre + S (length post))))), app_nth2, Nat.sub_diag by lia.
  cbn [andb nth].
  apply Forall_cons in Hpost as [He _]. pose proof Hf as [_ (_ & Hok & _) _ _ _ _ _ _ _].
  rewrite El in Hok. apply Forall_app in Hok as [_ [(O1 & O2 & O3 & O4) _]%Forall_cons]. pose proof (ext_len_bounds e).
  destruct (Z.ltb_spec (ee_block e) (iblock + Z.min (u32 max) 8192)); [rewrite u32_id by (unfold is_u32; lia)|];
    (split_and!; [lia|lia|done|]); intros e' rest [= <- _]; lia.
Qed.

(** A new extent over the hole. *)
Lemma new_extent_added pre post iblock n bno cu w : l = pre ++ post -> 0 <= iblock -> iblock + n <= U32_MAX ->
  n <= SIMPLEFS_MAX_BLOCKS_PER_EXTENT -> run_of bno n w -> hole_at pre post iblock n ->
  let x := pre ++ simplefs_ext_init iblock n bno cu :: post in
  adds iblock n bno cu x /\ Forall ext_ok x /\ Forall ext_u32 x /\ chain 0 x /\ in_one x iblock n.
Proof.
  intros El Hib Hmax Hn Hr [Hh1 Hh2]. destruct (run_of_u32 _ _ _ Hr) as [U1 U2]. destruct Hr as (R1 & R2 & R3 & _).
  pose proof Hf as [_ (Hc & Hok & Hne) F3 _ _ F6 _ _ _]. destruct F6 as ((((Hnb & _) & _) & _) & _).
  assert (Hlen : simplefs_ext_len (simplefs_ext_init iblock n bno cu) = n) by (apply ext_init_len; unfold SIMPLEFS_MAX_BLOCKS_PER_EXTENT in *; lia).
  assert (Hnew : nonempty (simplefs_ext_init iblock n bno cu)) by (apply ext_init_nonempty; lia).
  rewrite El in Hc, Hok, Hne, F3. apply Forall_app in Hok as [Hok1 Hok2], Hne as [Hne1 Hne2], F3 as [Hu1 Hu2].
  split_and!.
  - intros b p u. rewrite El, !maps_app, maps_cons, ext_init_maps by lia. tauto.
  - apply Forall_app. split; [done|]. constructor; [|done]. unfold ext_ok. rewrite Hlen.
    cbn [ee_block ee_start simplefs_ext_init]. lia.
  - apply Forall_app. split; [done|]. constructor; [|done]. apply ext_init_u32; unfold is_u32; lia.
  - by apply (chain_insert pre post _ iblock n).
  - eexists. split_and!; [apply in_or_app; right; by left|done|done|]. rewrite Hlen. done.
Qed.

Lemma hole_at_shorter pre post iblock n m : m <= n -> hole_at pre post iblock n -> hole_at pre post iblock m.
Proof. intros Hm [H1 H2]. split; [done|]. intros e rest E. specialize (H2 e rest E). lia. Qed.

(** The second half of [map_hole]: a new extent. *)
Lemma new_extent_held pre post buf iblock n ex cu w : l = pre ++ post -> eb_extents buf = l ->
  eb_leaf_blocks buf = leaves -> 0 <= iblock -> iblock + SIMPLEFS_MAX_BLOCKS_PER_EXTENT <= U32_MAX ->
  0 <= n <= SIMPLEFS_MAX_BLOCKS_PER_EXTENT -> hole_at pre post iblock n -> held w ->
  wp (new_extent ino buf (Z.of_nat (length pre)) iblock n ex cu) (hole_post iblock cu) w.
Proof.
  intros El Hx Hl Hib Hmax Hn Hh Hw. unfold new_extent, SIMPLEFS_MAX_BLOCKS_PER_EXTENT in *. apply wp_bind.
  eapply wp_mono; [apply alloc_halving_held; [unfold U32_MAX; lia|done]|].
  intros [bno m] w1 (H1 & H2 & H3); cbn [fst snd] in *.
  destruct (Z.eqb_spec bno 0) as [->|Hb]; [apply wp_ret; split; [done|by apply held_others]|].
  assert (Hr : held_run bno m w1) by (split; [by apply H3|apply H1]).
  apply wp_bind. eapply wp_mono; [apply (wp_pres (held_run bno m)); [pres|done]|].
  intros u w2 Hr2; cbn beta in *.
  assert (Hrun : run_of bno m w2) by apply Hr2.
  destruct (new_extent_added pre post iblock m bno cu w2 El Hib ltac:(lia)
    ltac:(unfold SIMPLEFS_MAX_BLOCKS_PER_EXTENT; lia) Hrun (hole_at_shorter _ _ _ _ _ (proj2 H2) Hh)) as (X1 & X2 & X3 & X4 & X5).
  apply wp_bind. eapply wp_mono.
  { apply wp_conj; [apply insert_spec|]. apply (wp_pres (held_run bno m)); [apply insert_pres, _|done]. }
  intros [r b'] w3 [[L3 X] Hr3]; cbn beta in *. assert (Hrun3 : run_of bno m w3) by apply Hr3.
  assert (Hback : forall e w', e < 0 -> busy L (fun p => others p \/ bno <= p < bno + m) w' ->
    wp (run! put_blocks bno m in ret (e, gb_none)) (hole_post iblock cu) w').
  { intros e w' He Hw'. apply wp_bind. eapply wp_mono; [eapply run_abandoned; [exact Hrun3|done]|].
    intros ? w4 H4. apply wp_ret. by split. }
  destruct X as [[-> X]| ->]; cbn [Z.eqb negb]; [|apply Hback; [done|by apply run_others]].
  assert (E : eb_extents b' = pre ++ simplefs_ext_init iblock m bno cu :: post).
  { rewrite X, Hx, El. unfold insert_at. by rewrite Nat2Z.id, take_app_length, drop_app_length. }
  rewrite <- E in X1, X2, X3, X4, X5. apply (charge_and_sync b' iblock m bno cu); try done; [by rewrite L3| |].
  - intros i Hi p v. apply (hole_unmapped pre post iblock n); [done|done|lia].
  - intros [r2 b2] w4 H6 H4 H5; cbn [fst] in *. destruct (Z.eqb_spec r2 0) as [->|Hr4]; cbn [negb]; [|apply Hback; [lia|done]].
    apply wp_ret. by apply H5.
Qed.
Lemma map_hole_held pre post buf iblock max ex cu w : l = pre ++ post -> eb_extents buf = l ->
  eb_leaf_blocks buf = leaves -> 0 <= iblock < max_file_blocks ->
  Forall (fun e => ee_block e + simplefs_ext_len e <= iblock) pre -> Forall (fun e => iblock < ee_block e) post ->
  held w -> wp (map_hole ino buf (Z.of_nat (length pre)) iblock max ex cu) (hole_post iblock cu) w.
Proof.
  intros El Hx Hl Hib Hpre Hpost Hw. unfold map_hole.
  destruct (hole_len_at buf pre post iblock max El Hx ltac:(lia) Hpre Hpost) as [Hn Hh].
  set (n := hole_len _ _ _ _) in *.
  assert (Hmax : iblock + SIMPLEFS_MAX_BLOCKS_PER_EXTENT <= U32_MAX) by (pose proof max_file_blocks_u32; lia).
  apply wp_bind. eapply (wp_mono _ (fun res w' => match res with None => held w' | Some r => hole_post iblock cu r w' end)).
  2:{ intros [res|] w1 H1; [by apply wp_ret|]. apply (new_extent_held pre post); try done. lia. }
  destruct (can_grow _ _ _ _) eqn:E; [|by apply wp_ret]. unfold can_grow in E.
  repeat (apply andb_true_iff in E as [E ?]). apply Z.ltb_lt in E.
  destruct (rev pre) as [|prev ipre'] eqn:Er.
  { apply (f_equal (@rev extent)) in Er. rewrite rev_involutive in Er. subst pre. cbn in E. lia. }
  assert (Ep : pre = rev ipre' ++ [prev]) by (rewrite <- (rev_involutive pre), Er; done).
  set (ipre := rev ipre') in *. clearbody ipre. clear Er ipre'.
  assert (Ei : Z.of_nat (length pre) - 1 = Z.of_nat (length ipre)) by (rewrite Ep, length_app; cbn; lia).
  assert (Hat : ext_at (eb_extents buf) (Z.of_nat (length pre) - 1) = prev).
  { unfold ext_at. rewrite Ei, Hx, El, Ep, Nat2Z.id, <- app_assoc, app_nth2, Nat.sub_diag by lia. done. }
  rewrite Hat, Ei in *. pose proof Hf as [_ (_ & Hok & _) _ _ _ _ _ _ _]. rewrite El, Ep in Hok.
  apply Forall_app in Hok as [[_ [Hokp _]%Forall_cons]%Forall_app _].
  match goal with H : (simplefs_ext_end prev =? _) = true |- _ => apply Z.eqb_eq in H; rewrite ext_end_ok in H by done end.
  match goal with H : Bool.eqb _ _ = true |- _ => apply Bool.eqb_prop in H end.
  apply (grow_loop_held ipre prev post buf iblock cu ex); try done.
  - by rewrite El, Ep, <- app_assoc.
  - lia.
  - rewrite <- Ep. apply (hole_at_shorter _ _ _ n); [lia|done].
Qed.

(** What a block lookup reports. *)
Definition lookup_post (iblock : Z) (res : Z * gb_out) : Prop :=
  let '(r, out) := res in
  gb_new out = false /\
  (0 < r -> forall k, 0 <= k < r -> maps l (iblock + k) (gb_bno out + k) (gb_unwritten out)) /\
  (r = 0 -> forall p u, ~ maps l iblock p u).

Lemma map_found_lookup buf pre e post iblock max cr cv w : l = pre ++ e :: post -> eb_extents buf = l ->
  ee_block e <= iblock < ee_block e + simplefs_ext_len e -> cr && cv = false ->
  wp (map_found ino buf (Z.of_nat (length pre)) iblock max cr cv)
     (fun res w' => w' = w /\ 0 < fst res /\ lookup_post iblock res) w.
Proof.
  intros El Hx Hb Hcc. unfold map_found. rewrite Hcc. cbn [andb].
  assert (Hat : ext_at (eb_extents buf) (Z.of_nat (length pre)) = e).
  { unfold ext_at. rewrite Hx, El, Nat2Z.id, app_nth2, Nat.sub_diag by lia. done. }
  rewrite Hat. apply wp_ret. cbn [fst]. pose proof (ext_len_bounds e) as Hl.
  pose proof Hf as [_ (_ & Hok & Hne) _ _ _ _ _ _ _]. rewrite El in Hok, Hne.
  apply Forall_app in Hok as [_ [(O1 & O2 & O3 & O4) _]%Forall_cons], Hne as [_ [Hne _]%Forall_cons].
  unfold SIMPLEFS_MAX_BLOCKS_PER_EXTENT in *.
  rewrite <- (u32_id (_ - (iblock - _))), s32_u32 by (unfold is_u32, U32_MAX; lia). split_and!; [done|lia|]. split_and!; [done| |].
  - cbn [gb_bno gb_unwritten]. intros _ k Hk. rewrite u32_id by (unfold is_u32; lia). rewrite El, maps_app, maps_cons. right. left.
    split_and!; [done|lia|lia|lia|done].
  - intros. lia.
Qed.

(** Both, after the checks at the front. *)
Lemma get_block_spec iblock max cr ex cu : 0 <= iblock ->
  wp (simplefs_get_block ino iblock max cr ex cu false) (fun res w' =>
    (max_file_blocks <= iblock -> fst res = - EFBIG) /\
    ((settled w0 w' /\ lookup_post iblock res /\ (cr = true -> fst res <> 0)) \/
     (cr = true /\ hole_post iblock cu res w'))) w0.
Proof.
  intros Hib. unfold simplefs_get_block.
  assert (Hbad : forall r w', r < 0 -> settled w0 w' -> settled w0 w' /\ lookup_post iblock (r, gb_none) /\
    (cr = true -> r <> 0)) by (intros; split_and!; [done|split_and!; [done|lia..]|lia]).
  destruct (Z.leb_spec max_file_blocks iblock) as [Hbig|Hlt].
  { apply wp_ret. split; [done|]. left. apply Hbad; [done|apply settled_refl]. }
  apply wp_bind, wp_gets. apply wp_bind. apply (load_file ino l leaves); [done|..].
  { intros r w' Hr Hs. rewrite (proj2 (Z.eqb_neq r 0)) by lia. apply wp_ret. split; [lia|]. left. by apply Hbad. }
  intros buf w1 Hx Hl Hs. cbn [Z.eqb negb]. pose proof Hf as [_ F2 _ _ _ _ _ _ _].
  pose proof (find_cases buf l iblock Hx F2) as Hfind.
  destruct (simplefs_file_find_extent buf iblock) as [found idx].
  destruct Hfind as [(-> & pre & e & post & El & -> & Hb)|(-> & Hno & pre & post & El & -> & Hpre & Hpost)]; cbn [negb].
  - eapply wp_mono; [apply (map_found_lookup buf pre e post); try done; by destruct cr|].
    intros res w' (-> & H1 & H2). split; [lia|]. left. split_and!; try done; lia.
  - destruct cr; cbn [negb].
    + eapply wp_mono; [apply (map_hole_held pre post); try done; by apply held_start|].
      intros res w' H. split; [lia|]. by right.
    + apply wp_ret. split; [lia|]. left. split_and!; [done| |done]. split_and!; [done|lia|done].
Qed.
End Add.

(** ** What the callbacks report *)

(** [im] tells the page cache about [n] blocks from [first], as [l'] maps them. *)
Definition describes (im : iomap) (l' : list extent) (first n : Z) : Prop :=
  0 < n /\ im_length im = block_start n /\ exists p u, im_addr im = block_start p /\ im_type im = map_type u /\
    forall k, 0 <= k < n -> maps l' (first + k) (p + k) u.

Lemma describes_of r out first start new dirty priv l' : 0 < r ->
  (forall k, 0 <= k < r -> maps l' (first + k) (gb_bno out + k) (gb_unwritten out)) ->
  describes (iomap_of r out start new dirty priv) l' first r.
Proof.
  intros Hr H. unfold iomap_of. rewrite (proj2 (Z.eqb_neq r 0)) by lia. split_and!; [done..|].
  exists (gb_bno out), (gb_unwritten out). done.
Qed.

Section Reports.
Context {K : Kernel} {HE : Errno}.
Context (w0 : world) (ino : Z) (l : list extent) (leaves : list Z).
Hypothesis Hf : file_ok w0 ino l leaves.

(** The part of the found extent: inside it, around the block, and unwritten exactly
    when the extent is or the part is tracked preallocation. *)
Lemma report_split_part ci x iblock : ext_ok x -> 0 <= prealloc_block ci -> 0 <= prealloc_len ci ->
  prealloc_block ci + prealloc_len ci <= U32_MAX -> ee_block x <= iblock < ee_block x + simplefs_ext_len x ->
  let '(s, e, u) := report_split ci x iblock in
  ee_block x <= s <= iblock /\ iblock < e <= ee_block x + simplefs_ext_len x /\
  (u = true <-> simplefs_ext_unwritten x = true \/
     (prealloc_block ci <= s /\ e <= prealloc_block ci + prealloc_len ci)).
Proof.
  intros Hok P1 P2 P3 Hb. pose proof Hok as (O1 & O2 & O3 & O4). unfold report_split. rewrite ext_end_ok by done.
  rewrite (u32_id (_ + prealloc_len ci)) by (unfold is_u32; lia).
  destruct (simplefs_ext_unwritten x) eqn:Hu; cbn [negb andb]; [split_and!; try lia; by split; [left|]|].
  destruct (Z.eqb_spec (prealloc_len ci) 0) as [E|E]; cbn [negb andb].
  { split_and!; lia. }
  destruct (Z.ltb_spec (prealloc_block ci) (ee_block x + simplefs_ext_len x)),
    (Z.ltb_spec (ee_block x) (prealloc_block ci + prealloc_len ci)); cbn [andb].
  2-4: (split_and!; lia).
  destruct (Z.ltb_spec iblock (prealloc_block ci)); [|destruct (Z.ltb_spec iblock (prealloc_block ci + prealloc_len ci))].
  - split_and!; lia.
  - split_and!; lia.
  - split_and!; lia.
Qed.

(** The reported hole is one. *)
Lemma report_hole_part buf pre post iblock isize : l = pre ++ post -> eb_extents buf = l ->
  0 <= iblock < U32_MAX -> Forall (fun e => iblock < ee_block e) post ->
  let e := report_hole_end buf (Z.of_nat (length pre)) iblock isize in
  iblock < e <= U32_MAX /\ forall x rest, post = x :: rest -> e <= ee_block x.
Proof.
  intros El Hx Hib Hpost. unfold report_hole_end, nr_extents, ext_at. rewrite Hx, El, length_app, Nat2Z.id.
  pose proof (u32_range (DIV_ROUND_UP isize SIMPLEFS_BLOCK_SIZE)) as Hm. unfold is_u32 in Hm.
  set (h := u32 (DIV_ROUND_UP _ _)) in *. clearbody h. rewrite (u32_id (iblock + 1)) by (unfold is_u32; lia).
  destruct post as [|x post]; cbn [length].
  { rewrite (proj2 (Z.ltb_ge (Z.of_nat (length pre)) (Z.of_nat (length pre + 0)))) by lia.
    destruct (Z.leb_spec h iblock); (split; [lia|done]). }
  rewrite (proj2 (Z.ltb_lt (Z.of_nat (length pre)) (Z.of_nat (length pre + S (length post))))), app_nth2, Nat.sub_diag by lia.
  cbn [nth]. apply Forall_cons in Hpost as [He _].
  destruct (Z.leb_spec (Z.min h (ee_block x)) iblock); (split; [lia|]); intros y rest [= <- _]; lia.
Qed.

(** [im] describes the tree around block [iblock]. *)
Definition reports (ci : inode) (iblock : Z) (im : iomap) : Prop :=
  exists s n, im_offset im = block_start s /\ im_length im = block_start n /\ s <= iblock < s + n /\
    match im_type im with
    | IOMAP_HOLE => im_addr im = IOMAP_NULL_ADDR /\ forall k, 0 <= k < n -> forall p u, ~ maps l (s + k) p u
    | t => exists p u, im_addr im = block_start p /\ (forall k, 0 <= k < n -> maps l (s + k) (p + k) u) /\
        (t = IOMAP_UNWRITTEN <-> u = true \/ (prealloc_block ci <= s /\ s + n <= prealloc_block ci + prealloc_len ci))
    end.

Lemma report_found ci pre x post iblock : l = pre ++ x :: post ->
  0 <= prealloc_block ci -> 0 <= prealloc_len ci -> prealloc_block ci + prealloc_len ci <= U32_MAX ->
  ee_block x <= iblock < ee_block x + simplefs_ext_len x ->
  let '(s, e, v) := report_split ci x iblock in
  reports ci iblock (Iomap (map_type v) (block_start s) (block_start (u32 (ee_start x + s - ee_block x)))
    (block_start (u32 (e - s))) false false 0).
Proof.
  intros El P1 P2 P3 Hb. pose proof Hf as [_ (_ & Hok & Hne) _ _ _ _ _ _ _]. rewrite El in Hok, Hne.
  apply Forall_app in Hok as [_ [Hox _]%Forall_cons], Hne as [_ [Hnx _]%Forall_cons].
  pose proof (report_split_part ci x iblock Hox P1 P2 P3 Hb) as Hr. pose proof Hox as (O1 & O2 & O3 & O4).
  destruct (report_split ci x iblock) as [[s e] v]. destruct Hr as (R1 & R2 & R3).
  rewrite !u32_id by (unfold is_u32; lia). exists s, (e - s). cbn [im_offset im_length im_type im_addr].
  split_and!; [done|done|lia|lia|].
  assert (Hm : forall k, 0 <= k < e - s -> maps l (s + k) (ee_start x + s - ee_block x + k) (simplefs_ext_unwritten x)).
  { intros k Hk. rewrite El, maps_app, maps_cons. right. left. split_and!; [done|lia..|done]. }
  replace (s + (e - s)) with e by lia.
  destruct v; cbn [map_type]; exists (ee_start x + s - ee_block x), (simplefs_ext_unwritten x); split_and!; try done.
  - split; [|done]. intros _. by apply R3.
  - split; [done|]. intros H. apply R3 in H. done.
Qed.

Lemma report_iomap_spec offset : 0 <= offset < SIMPLEFS_BLOCK_SIZE * U32_MAX ->
  0 <= prealloc_block (inode_of w0 ino) -> 0 <= prealloc_len (inode_of w0 ino) ->
  prealloc_block (inode_of w0 ino) + prealloc_len (inode_of w0 ino) <= U32_MAX ->
  wp (simplefs_report_iomap_begin ino offset) (fun res w' => settled w0 w' /\ fst res <= 0 /\
    (fst res = 0 -> reports (inode_of w0 ino) (block_of offset) (snd res))) w0.
Proof.
  intros Ho P1 P2 P3. unfold simplefs_report_iomap_begin. cbv zeta.
  assert (Hib : 0 <= block_of offset < U32_MAX).
  { unfold block_of, blkbits, SIMPLEFS_BLOCK_SIZE, U32_MAX in *. rewrite Z.shiftr_div_pow2 by lia.
    change (2 ^ 12) with 4096. Z.to_euclidean_division_equations. lia. }
  set (iblock := block_of offset) in *. clearbody iblock. rewrite (u32_id iblock) by (unfold is_u32; lia).
  apply wp_bind, wp_gets. apply wp_bind. apply (load_file ino l leaves); [done|..].
  { intros r w' Hr Hs. rewrite (proj2 (Z.eqb_neq r 0)) by lia. apply wp_ret. split_and!; [done|cbn; lia|cbn; lia]. }
  intros buf w1 Hx Hl Hs. cbn [Z.eqb negb]. pose proof Hf as [_ F2 _ _ _ _ _ _ _].
  pose proof (find_cases buf l iblock Hx F2) as Hfind. destruct (simplefs_file_find_extent buf iblock) as [found idx].
  destruct Hfind as [(-> & pre & x & post & El & -> & Hb)|(-> & Hno & pre & post & El & -> & Hpre & Hpost)].
  - assert (Hat : ext_at (eb_extents buf) (Z.of_nat (length pre)) = x)
      by (unfold ext_at; by rewrite Hx, El, Nat2Z.id, nth_middle).
    rewrite Hat. pose proof (report_found (inode_of w0 ino) pre x post iblock El P1 P2 P3 Hb) as Hrep.
    destruct (report_split _ x iblock) as [[s e] v]. apply wp_ret. split_and!; done.
  - apply wp_ret. split_and!; [done|done|]. intros _. cbn [snd].
    destruct (report_hole_part buf pre post iblock (i_size (inode_of w0 ino)) El Hx Hib Hpost) as [H1 H2].
    set (e := report_hole_end _ _ _ _) in *. clearbody e. rewrite u32_id by (unfold is_u32; lia).
    exists iblock, (e - iblock). cbn [im_offset im_length im_type im_addr]. split_and!; [done|done|lia|lia|done|].
    intros k Hk p u. apply (hole_unmapped w0 ino l leaves Hf pre post iblock (e - iblock)); [done| |done].
    split; [done|]. intros y rest E. specialize (H2 y rest E). lia.
Qed.

Lemma read_iomap_spec offset length : 0 <= offset ->
  wp (simplefs_read_iomap_begin ino offset length false) (fun res w' => settled w0 w' /\ fst res <= 0 /\
    (fst res = 0 -> im_offset (snd res) = align_down offset /\
      ((i_size (inode_of w0 ino) <= align_down offset /\ im_type (snd res) = IOMAP_HOLE /\
        align_down offset + im_length (snd res) = offset + length) \/
       (im_type (snd res) = IOMAP_HOLE /\ im_length (snd res) = SIMPLEFS_BLOCK_SIZE /\
        forall p u, ~ maps l (block_of offset) p u) \/
       exists n, describes (snd res) l (block_of offset) n))) w0.
Proof.
  intros Ho. unfold simplefs_read_iomap_begin. cbv zeta. apply wp_bind, wp_gets.
  destruct (Z.leb_spec (i_size (inode_of w0 ino)) (align_down offset)).
  { apply wp_ret. split_and!; [apply settled_refl|done|]. intros _. split; [done|]. left. split_and!; [done|done|]. cbn. lia. }
  assert (Hfirst : 0 <= block_of offset) by (unfold block_of, blkbits; rewrite Z.shiftr_div_pow2 by lia; apply Z.div_pos; lia).
  apply wp_bind. eapply wp_mono; [by apply (get_block_spec w0 ino l leaves Hf)|]. intros [r out] w1 [_ Hres]; cbn [fst] in Hres.
  destruct Hres as [(Hs & (H1 & H2 & H3) & _)|[? _]]; [|done].
  destruct (Z.ltb_spec r 0); apply wp_ret; cbn [fst snd]; (split_and!; [done|lia|intros ?]); [lia|].
  split; [unfold iomap_of; by destruct (r =? 0)|]. right. destruct (Z.eqb_spec r 0) as [->|Hr]; [left|right].
  - split_and!; [done..|by apply H3].
  - exists r. apply describes_of; [lia|]. apply H2. lia.
Qed.
End Reports.

Section Claims.
Context {K : Kernel} {HE : Errno}.

(** looking a block up reports the mapping of the tree and changes nothing: a
    positive count means that so many blocks from [iblock] on are mapped to
    consecutive physical blocks from the reported one, with the reported state; 0
    means that [iblock] is a hole; a block behind the largest file is refused. *)
Theorem block_lookup_correct ino iblock max ex cu l leaves w :
  0 <= iblock -> file_ok w ino l leaves ->
  wp (simplefs_get_block ino iblock max false ex cu false) (fun res w' =>
    settled w w' /\ lookup_post l iblock res /\ (max_file_blocks <= iblock -> fst res = - EFBIG)) w.
Proof.
  intros Hib Hf. eapply wp_mono; [by apply (get_block_spec w ino l leaves Hf iblock max false)|].
  intros res w' [H1 [(H2 & H3 & _)|[? _]]]; done.
Qed.

(** C9: allocating at a block adds exactly what it reports: either the block was
    mapped, nothing changed and its mapping is reported; or the file is sound again,
    its mapping is the old one plus the reported run at [iblock], all of it free
    before, with the state asked for, inside one extent; or an error is reported and
    no block in use was given away. *)
Theorem block_alloc_adds ino iblock max ex cu l leaves w :
  0 <= iblock -> file_ok w ino l leaves ->
  wp (simplefs_get_block ino iblock max true ex cu false) (fun res w' =>
    (settled w w' /\ lookup_post l iblock res /\ fst res <> 0) \/ hole_post w ino l leaves iblock cu res w') w.
Proof.
  intros Hib Hf. eapply wp_mono; [by apply (get_block_spec w ino l leaves Hf iblock max true)|].
  intros res w' [_ [(H2 & H3 & H4)|[_ H]]]; [left; auto|by right].
Qed.

(** the report for FIEMAP and SEEK_DATA/SEEK_HOLE is never empty, contains the
    block asked for and agrees with the tree over its whole length: a hole maps
    nothing, anything else maps consecutive blocks at the reported address in one
    state, reported unwritten exactly when the tree says so or the part is the
    tracked preallocation. *)
Theorem report_iomap_sound ino offset l leaves w :
  0 <= offset < SIMPLEFS_BLOCK_SIZE * U32_MAX -> 0 <= prealloc_block (inode_of w ino) ->
  0 <= prealloc_len (inode_of w ino) ->
  prealloc_block (inode_of w ino) + prealloc_len (inode_of w ino) <= U32_MAX -> file_ok w ino l leaves ->
  wp (simplefs_report_iomap_begin ino offset) (fun res w' => settled w w' /\ fst res <= 0 /\
    (fst res = 0 -> reports l (inode_of w ino) (block_of offset) (snd res))) w.
Proof. intros. by apply (report_iomap_spec w ino l leaves). Qed.
End Claims.

(** ** Without a journal allocation succeeds whenever it can *)
Section Live.
Context {K : Kernel}.

Lemma wp_eval {A} (m : M A) (Q : A -> world -> Prop) r w w' : m w = (r, w') -> Q r w' -> wp m Q w.
Proof. intros E H. unfold wp. by rewrite E. Qed.

Lemma get_free_blocks_finds len w : 0 < len <= U32_MAX -> geometry_ok (w_sbi w) -> bitmap_lock (w_sbi w) = false ->
  no_journal w -> wp (get_free_blocks len) (fun r w' => no_journal w' /\
    ((r = 0 /\ aeq (w_sbi w') (w_sbi w) /\ forall b, ~ free_run (w_sbi w) b len) \/
     (free_run (w_sbi w) r len /\ aeq (w_sbi w') (take_blocks r len (w_sbi w))))) w.
Proof.
  intros Hlen Hg Hlock Hnj. apply wp_conj; [by apply (wp_pres _ _ _ (get_free_blocks_no_journal len))|].
  pose proof Hg as (Hnb & _ & H0 & _). unfold get_free_blocks.
  apply wp_bind, (wp_eval _ _ _ _ _ (start_sb_no_journal 1 w Hnj)). cbn [HANDLE_IS_ERR simplefs_journal_stop]. apply wp_bind, wp_modify, wp_bind, wp_gets, wp_bind. cbn [w_sbi set_w_sbi].
  replace (Z.to_nat _) with (S (Z.to_nat (nr_blocks (w_sbi w) + 1))) by (cbn; lia). cbn [get_free_blocks_loop].
  apply wp_bind, wp_gets. destruct (get_first_free_bits_from _ _ len 0) as [r map] eqn:E. cbn in E.
  apply first_free_bits_spec in E; [|lia..]. apply wp_bind, wp_modify.
  destruct (first_fit_nonzero _ _ _ 0 _ _ H0 ltac:(lia) E) as [(Hr & R1 & _ & _ & R2 & R3 & ->)|(-> & ->)].
  - rewrite (proj2 (Z.eqb_neq r 0) Hr). set (w1 := set_w_sbi _ _). assert (Hn1 : no_journal w1) by exact Hnj.
    apply wp_bind, (wp_eval _ _ _ _ _ (prepare_new_blocks_no_journal r len w1 Hn1)). cbn [Z.eqb negb].
    apply wp_bind, wp_modify, wp_bind, wp_modify, wp_bind. eapply wp_eval; [by apply persist_no_journal|]. cbn [Z.eqb negb]. apply wp_ret, wp_bind, wp_modify, wp_bind, wp_ret, wp_ret. cbn [default Z.eqb negb]. right.
    split; [split_and!; done || lia|]. unfold aeq, astate_of. cbn. by rewrite Hlock.
  - cbn [Z.eqb]. apply wp_ret, wp_bind, wp_modify, wp_bind, wp_ret, wp_ret. left. split_and!; [done| |].
    + unfold aeq, astate_of. cbn. by rewrite Hlock.
    + intros b (F1 & F2 & F3 & F4). destruct E as [(_ & _ & _ & Hall & _)|(_ & _ & Hno)].
      * by rewrite Hall in H0 by lia.
      * apply (Hno F2 b); try done. lia.
Qed.

(** C28: an allocation for a file does not fail while a block is free: without a journal,
    if some block of the device is free, the halving search that starts at any extent
    length finds a run, of at most the requested length, and takes exactly that run. *)
Theorem free_block_is_found n p w : 0 < n <= 8192 -> alloc_inv (w_sbi w) -> no_journal w -> free_run (w_sbi w) p 1 ->
  wp (alloc_halving 13 n) (fun res w' => 0 < snd res <= n /\ free_run (w_sbi w) (fst res) (snd res) /\
    aeq (w_sbi w') (take_blocks (fst res) (snd res) (w_sbi w))) w.
Proof.
  intros Hn (Hg & _ & _ & _ & Hlock) Hnj Hp.
  assert (H : forall fuel n w1, 0 < n < 2 ^ (Z.of_nat fuel + 1) -> n <= U32_MAX -> aeq (w_sbi w1) (w_sbi w) -> no_journal w1 ->
    wp (alloc_halving fuel n) (fun res w' => 0 < snd res <= n /\ free_run (w_sbi w) (fst res) (snd res) /\
      aeq (w_sbi w') (take_blocks (fst res) (snd res) (w_sbi w))) w1).
  2:{ apply H; try done. cbn. lia. unfold U32_MAX. lia. }
  clear Hn n Hnj. induction fuel as [|fuel IH]; intros n w1 Hn Hmax Ha Hnj; cbn [alloc_halving]; apply wp_bind;
    (eapply wp_mono; [apply get_free_blocks_finds;
       [lia|by apply (geometry_aeq _ _ (symmetry Ha))|by apply astate_inv in Ha as (_ & _ & _ & _ & _ & ->)|done]|]);
    intros r w2 [Hn2 [(-> & Ha2 & Hnone)|(Hr & Ha2)]]; cbn beta in *.
  2,4: (pose proof Hr as [Hr0 _]; rewrite (proj2 (Z.eqb_neq r 0)) by lia; apply wp_ret; cbn [fst snd]; split_and!;
    [lia|lia|by eapply free_run_aeq|rewrite Ha2; by apply take_blocks_proper]).
  all: cbn [Z.eqb negb]; destruct (Z.leb_spec n 1);
    [exfalso; replace n with 1 in * by lia; apply (Hnone p); by eapply free_run_aeq; [symmetry|]|].
  - cbn in Hn. lia.
  - eapply wp_mono; [apply IH|].
    + rewrite Nat2Z.inj_succ, <- Z.add_1_r in Hn. rewrite Z.pow_add_r in Hn by lia. Z.to_euclidean_division_equations. lia.
    + Z.to_euclidean_division_equations. lia.
    + by rewrite Ha2.
    + done.
    + intros [b m] w3 (G1 & G2 & G3); cbn [fst snd] in *. split_and!; try done; Z.to_euclidean_division_equations; lia.
Qed.
End Live.
