(* ===== verification/FileWrite.v ===== *)
(** * FileWrite: the written state of file blocks (simplefs_file.c)

    The theorems about the routines of FileMap that convert blocks between written
    and unwritten and about the write path that uses them: a conversion changes the
    state of exactly the blocks asked for and keeps every physical block in place;
    the scan that restarts after each conversion ends, and misses nothing although
    it skips the first extent; zeroing a range leaves every block of it mapped and
    unwritten; the start of a buffered write reports blocks the tree maps and
    records what it reserved behind them. *)

From stdpp Require Import base list numbers gmap.
From S2P Require Import Prelude Image Layout Kernel DiskFormat Discard Journal MetaBuf.
From S2P Require Import Alloc Retire ExtentBuf ExtentTree Owned Errno InodeTable FileRange FileMap.

Local Open Scope Z_scope.
Local Open Scope fs_scope.

(** ** Changing tags *)

(** [x] maps what [l] maps, with the written state changed by [f]. *)
Record retags (f : Z -> bool -> bool) (l x : list extent) : Prop := Retags {
  rt_maps : forall b p u, maps x b p u <-> exists u0, maps l b p u0 /\ u = f b u0;
  rt_wf : wf_extents x;
  rt_u32 : Forall ext_u32 x
}.

(** The state [v] on [s, e), the old one elsewhere. *)
Definition tag (s e : Z) (v : bool) (b : Z) (u : bool) : bool := if (s <=? b) && (b <? e) then v else u.

Lemma tag_in s e v b u : s <= b < e -> tag s e v b u = v.
Proof. intros H. unfold tag. by rewrite (proj2 (Z.leb_le _ _)), (proj2 (Z.ltb_lt _ _)) by lia. Qed.
Lemma tag_out s e v b u : b < s \/ e <= b -> tag s e v b u = u.
Proof. intros H. unfold tag. destruct (Z.leb_spec s b), (Z.ltb_spec b e); try done; lia. Qed.

Lemma retags_id l : wf_extents l -> Forall ext_u32 l -> retags (fun _ u => u) l l.
Proof. intros. constructor; [|done..]. intros b p u. split; [intros; by exists u|by intros (? & ? & ->)]. Qed.

Lemma retags_trans f g l x y : retags f l x -> retags g x y -> retags (fun b u => g b (f b u)) l y.
Proof.
  intros [M1 _ _] [M2 W U]. constructor; [|done..]. intros b p u. rewrite M2. setoid_rewrite M1. split.
  - intros (u1 & (u0 & H & ->) & ->). by exists u0.
  - intros (u0 & H & ->). exists (f b u0). split; [by exists u0|done].
Qed.

Lemma retags_ext f g l x : retags f l x -> (forall b p u, maps l b p u -> f b u = g b u) -> retags g l x.
Proof.
  intros [M W U] H. constructor; [|done..]. intros b p u. rewrite M. split; intros (u0 & H0 & ->); exists u0.
  - split; [done|by eapply H].
  - split; [done|by erewrite H].
Qed.

Lemma init_part b n p u : 0 <= b -> 0 < n <= SIMPLEFS_MAX_BLOCKS_PER_EXTENT -> 0 < p -> b + n <= U32_MAX ->
  p + n <= U32_MAX -> let e := simplefs_ext_init b n p u in ext_ok e /\ nonempty e /\ ext_u32 e.
Proof.
  intros. split_and!.
  - unfold ext_ok, e. rewrite ext_init_len by lia. cbn [simplefs_ext_init ee_block ee_start]. lia.
  - apply ext_init_nonempty; lia.
  - apply ext_init_u32; unfold is_u32; lia.
Qed.

(** What comes before an extent of a chain is mapped below it. *)
Lemma chain_before pre e post : forall lo b p u, nonempty e -> chain lo (pre ++ e :: post) ->
  maps pre b p u -> b < ee_block e.
Proof.
  induction pre as [|x pre IH]; intros lo b p u He Hc Hm; [by apply maps_nil in Hm|].
  cbn [app chain] in Hc. apply maps_cons in Hm. destruct (simplefs_extent_is_empty x) eqn:Ex.
  - destruct Hm as [Hm|Hm]; [by apply empty_maps in Hm|by eapply IH].
  - destruct Hc as [_ Hc]. destruct Hm as [(_ & Hb & _)|Hm]; [|by eapply IH].
    assert (ee_block x + simplefs_ext_len x <= ee_block e); [|lia].
    eapply (chain_maps_ge _ _ _ (ee_start e) (simplefs_ext_unwritten e)); [exact Hc|].
    apply maps_app. right. apply maps_cons. left. pose proof (proj1 (nonempty_len e) He). split_and!; [done|lia|lia|lia|done].
Qed.
Lemma chain_after pre e post lo b p u : nonempty e -> chain lo (pre ++ e :: post) ->
  maps post b p u -> ee_block e + simplefs_ext_len e <= b.
Proof.
  intros He Hc Hm. apply chain_app_inv in Hc as [_ [lo' Hc]]. apply chain_nonempty in Hc as [_ Hc]; [|done].
  by eapply chain_maps_ge.
Qed.

Lemma ext_first_maps e b : nonempty e -> ee_block e <= b < ee_block e + simplefs_ext_len e ->
  ext_maps e b (ee_start e + (b - ee_block e)) (simplefs_ext_unwritten e).
Proof. done. Qed.

(** A run inside one extent is inside the one a lookup finds. *)
Lemma in_one_found pre y post s n : wf_extents (pre ++ y :: post) ->
  ee_block y <= s < ee_block y + simplefs_ext_len y -> in_one (pre ++ y :: post) s n ->
  s + n <= ee_block y + simplefs_ext_len y.
Proof.
  intros (Hc & _ & Hne) Hs (x & Hin & Hnx & Hx1 & Hx2). apply Forall_app in Hne as [_ [Hny _]%Forall_cons].
  destruct (Z_lt_le_dec s (ee_block x + simplefs_ext_len x)) as [Hlt|]; [|lia].
  pose proof (ext_first_maps x s Hnx ltac:(lia)) as Hm. apply in_app_or in Hin as [Hp|[->|Hp]]; [|done|].
  - pose proof (chain_before pre y post 0 s _ _ Hny Hc (ex_intro _ x (conj Hp Hm))). lia.
  - pose proof (chain_after pre y post 0 s _ _ Hny Hc (ex_intro _ x (conj Hp Hm))). lia.
Qed.

(** Tagging part of an extent with the tag it has changes nothing. *)
Lemma tag_already pre y post s n v b p u : wf_extents (pre ++ y :: post) -> simplefs_ext_unwritten y = v ->
  ee_block y <= s -> s + n <= ee_block y + simplefs_ext_len y -> maps (pre ++ y :: post) b p u ->
  tag s (s + n) v b u = u.
Proof.
  intros (Hc & _ & Hne) Hv H1 H2 Hm. apply Forall_app in Hne as [_ [Hny _]%Forall_cons].
  destruct (Z_lt_le_dec b s); [by rewrite tag_out by lia|]. destruct (Z_lt_le_dec b (s + n)); [|by rewrite tag_out by lia].
  rewrite tag_in by lia. apply maps_app in Hm as [Hm|[Hm|Hm]%maps_cons].
  - pose proof (chain_before pre y post 0 b p u Hny Hc Hm). lia.
  - destruct Hm as (_ & _ & _ & ->). done.
  - pose proof (chain_after pre y post 0 b p u Hny Hc Hm). lia.
Qed.

(** The three parts [split_extent] makes of an extent. *)
Definition split_parts (from : bool) (e : extent) (b n : Z) : list extent :=
  split_head from e b ++ split_data from e b n :: split_tail from e b n.

Lemma split_parts_good from e b n : ext_ok e -> nonempty e -> ee_block e <= b -> 0 < n ->
  b < ee_block e + simplefs_ext_len e ->
  Forall (fun x => ext_ok x /\ nonempty x /\ ext_u32 x) (split_parts from e b n).
Proof.
  intros (O1 & O2 & O3 & O4) Hne Hb Hn Hbn. pose proof (ext_len_bounds e). pose proof (proj1 (nonempty_len e) Hne) as [Hs _].
  unfold split_parts. rewrite split_data_init by lia. unfold split_head, split_tail.
  apply Forall_app. split; [|constructor].
  - destruct (Z.eqb_spec (b - ee_block e) 0); constructor; [apply init_part; lia|done].
  - apply init_part; lia.
  - destruct (Z.eqb_spec (simplefs_ext_len e - (b - ee_block e) - Z.min n (simplefs_ext_len e - (b - ee_block e))) 0);
      constructor; [apply init_part; lia|done].
Qed.

Lemma split_retags from pre e post b n : wf_extents (pre ++ e :: post) -> Forall ext_u32 (pre ++ e :: post) ->
  simplefs_ext_unwritten e = from -> ee_block e <= b -> 0 < n -> b + n <= ee_block e + simplefs_ext_len e ->
  retags (tag b (b + n) (negb from)) (pre ++ e :: post) (pre ++ split_parts from e b n ++ post).
Proof.
  intros (Hc & Hok & Hne) Hu Hfrom Hb Hn Hbn. pose proof Hc as Hc0.
  apply Forall_app in Hok as [Hok1 [Hoke Hok2]%Forall_cons], Hne as [Hne1 [Hnee Hne2]%Forall_cons], Hu as [Hu1 [Hue Hu2]%Forall_cons].
  pose proof (split_parts_good from e b n Hoke Hnee Hb Hn ltac:(lia)) as Hg.
  assert (G1 : Forall ext_ok (split_parts from e b n)) by (eapply Forall_impl; [exact Hg|]; by intros y (? & ? & ?)).
  assert (G2 : Forall nonempty (split_parts from e b n)) by (eapply Forall_impl; [exact Hg|]; by intros y (? & ? & ?)).
  assert (G3 : Forall ext_u32 (split_parts from e b n)) by (eapply Forall_impl; [exact Hg|]; by intros y (? & ? & ?)).
  constructor; [|split_and!|]; rewrite ?Forall_app; try done.
  - intros x p u. rewrite !maps_app. unfold split_parts at 1. rewrite split_maps by (done || lia).
    setoid_rewrite maps_app. setoid_rewrite maps_cons. fold (tag b (b + n) (negb from) x). split.
    + intros [Hp|[(u0 & He & ->)|Hp]].
      * exists u. split; [by left|]. rewrite tag_out; [done|]. pose proof (chain_before _ _ _ _ _ _ _ Hnee Hc0 Hp). lia.
      * exists u0. split; [right; by left|done].
      * exists u. split; [right; by right|]. rewrite tag_out; [done|]. pose proof (chain_after _ _ _ _ _ _ _ Hnee Hc0 Hp). lia.
    + intros (u0 & [Hp|[He|Hp]] & ->).
      * left. rewrite tag_out; [done|]. pose proof (chain_before _ _ _ _ _ _ _ Hnee Hc0 Hp). lia.
      * right. left. by exists u0.
      * right. right. rewrite tag_out; [done|]. pose proof (chain_after _ _ _ _ _ _ _ Hnee Hc0 Hp). lia.
  - apply (chain_replace e (split_parts from e b n) post); [|done]. intros lo Hlo. apply split_chain; try done; lia.
Qed.

(** ** Publishing changed tags *)
Section Publish.
Context {K : Kernel}.

(** What an operation that only changes tags promises. *)
Definition retagged (f : Z -> bool -> bool) (ino : Z) (l : list extent) (w : world) (r : Z) (w' : world) : Prop :=
  (r <> 0 -> busy (layout_of (w_sbi w)) (file_blocks (w_sbi w) (ei_block (inode_of w ino)) l) w') /\
  (r = 0 -> exists l' leaves', file_ok w' ino l' leaves' /\
     ei_block (inode_of w' ino) = ei_block (inode_of w ino) /\ layout_of (w_sbi w') = layout_of (w_sbi w) /\
     forall b p u, maps l' b p u <-> exists u0, maps l b p u0 /\ u = f b u0).

Lemma retagged_fails f ino l leaves w r w' :
  file_ok w ino l leaves -> settled w w' -> r <> 0 -> retagged f ino l w r w'.
Proof. intros Hf Hs Hr. split; [|done]. intros _. by eapply settled_busy. Qed.

Lemma retagged_same f ino l leaves w : file_ok w ino l leaves -> (forall b p u, maps l b p u -> f b u = u) ->
  retagged f ino l w 0 w.
Proof.
  intros Hf H. split; [done|]. intros _. exists l, leaves. split_and!; [done..|]. intros b p u. split.
  - intros Hm. exists u. split; [done|]. symmetry. by eapply H.
  - intros (u0 & Hm & ->). by erewrite H.
Qed.

Lemma settled_layout w0 w : settled w0 w -> layout_of (w_sbi w) = layout_of (w_sbi w0).
Proof.
  intros [Hv _]. pose proof (astate_inv _ _ (f_equal (fun y => y.1.1) Hv)) as (E & _). unfold layout_of. by rewrite E.
Qed.
Lemma settled_inode w0 w ino : settled w0 w -> inode_of w ino = inode_of w0 ino.
Proof. intros [Hv _]. unfold inode_of. by rewrite (f_equal (fun y => y.2) Hv : w_inodes w = w_inodes w0). Qed.
Lemma settled_blocks w0 w ino x : settled w0 w ->
  file_blocks (w_sbi w) (ei_block (inode_of w ino)) x = file_blocks (w_sbi w0) (ei_block (inode_of w0 ino)) x.
Proof.
  intros Hs. unfold file_blocks. by rewrite (settled_inode _ _ ino Hs), (root_dir_layout _ _ (settled_layout _ _ Hs)).
Qed.

Lemma sync_retagged f ino l leaves buf w0 w :
  file_ok w0 ino l leaves -> settled w0 w -> retags f l (eb_extents buf) -> eb_leaf_blocks buf = leaves ->
  wp (simplefs_file_sync_extents ino buf) (fun rb w' => retagged f ino l w0 (fst rb) w') w.
Proof.
  intros Hf Hs [M (Mc & Mok & Mne) Mu] Hl. pose proof (settled_file _ _ _ _ _ Hs Hf) as Hf'.
  pose proof (settled_blocks _ _ ino l Hs) as HS. pose proof (settled_layout _ _ Hs) as HL.
  pose proof (settled_inode _ _ ino Hs) as HR.
  pose proof Hf' as [F1 F2 F3 F4 F5 F6 F7 F8 F9]. subst leaves.
  eapply wp_mono; [apply (sync_writes ino (file_blocks (w_sbi w) (ei_block (inode_of w ino)) l)); constructor; try done|].
  - intros p [H|[H|(b & u & (u0 & H & _)%M)]]; [by left|right; by left|right; right; by exists b, u0].
  - intros b p u (u0 & H & _)%M. by eapply F8.
  - intros b c p u u' (u0 & H & _)%M (u1 & H' & _)%M. by eapply F9.
  - by apply (chain_pairs _ 0).
  - intros rb w' [H1 H2]; cbn beta in *. split; [intros _; by rewrite <- HS, <- HL|].
    intros Hr. destruct (H2 Hr) as (lv & G1 & _ & G3). exists (normalize (eb_extents buf)), lv.
    split_and!; [done|congruence|destruct H1 as (_ & H1 & _); congruence|].
    intros b p u. destruct (normalize_spec (eb_extents buf) Mok) as (_ & _ & _ & N4 & _). rewrite N4. apply M.
Qed.
End Publish.

(** ** The conversion of a range *)
Section Convert.
Context {K : Kernel}.
Context (s e : Z).
Hypothesis Hs : 0 <= s < e.
Hypothesis He : e <= U32_MAX.

(** An extent the scan still has to convert. *)
Definition pending (x : extent) : bool :=
  simplefs_ext_unwritten x && negb ((simplefs_ext_end x <=? s) || (e <=? ee_block x)).
Definition todo (x : list extent) : nat := length (List.filter pending x).

Lemma todo_app x y : todo (x ++ y) = (todo x + todo y)%nat.
Proof. unfold todo. by rewrite List.filter_app, length_app. Qed.
Lemma todo_le x : (todo x <= length x)%nat.
Proof. apply List.filter_length_le. Qed.
Lemma todo_done x : Forall (fun y => pending y = false) x -> todo x = 0%nat.
Proof. induction 1 as [|y x Hy _ IH]; [done|]. unfold todo in *. cbn. by rewrite Hy. Qed.

(** Nothing of a converted extent is left to do. *)
Lemma parts_done x : let b := Z.max (ee_block x) s in let n := Z.min (ee_block x + simplefs_ext_len x) e - b in
  ext_ok x -> nonempty x -> pending x = true ->
  Forall (fun y => pending y = false) (split_parts true x b n) /\ (1 <= length (split_parts true x b n) <= 3)%nat.
Proof.
  intros b n Hok Hne Hp. unfold pending in Hp. rewrite ext_end_ok in Hp by done.
  apply andb_true_iff in Hp as [Hu Hp]. apply negb_true_iff, orb_false_iff in Hp as [H1%Z.leb_gt H2%Z.leb_gt].
  pose proof Hok as (O1 & O2 & O3 & O4). pose proof (ext_len_bounds x).
  pose proof (proj1 (nonempty_len x) Hne) as [Hst Hpos].
  assert (Eb : b = Z.max (ee_block x) s) by done. assert (En : n = Z.min (ee_block x + simplefs_ext_len x) e - b) by done.
  clearbody b n. assert (Hb : ee_block x <= b < ee_block x + simplefs_ext_len x /\ 0 < n) by lia. destruct Hb as [Hb Hn].
  assert (Ho : forall c k p u, 0 <= c -> 0 < k <= simplefs_ext_len x -> 0 < p -> c + k <= U32_MAX -> p + k <= U32_MAX ->
    u = false \/ c + k <= s \/ e <= c -> pending (simplefs_ext_init c k p u) = false).
  { intros c k p u G1 G2 G3 G4 G5 G6. destruct (init_part c k p u) as (P1 & _ & _); try done; [lia|].
    unfold pending. rewrite ext_end_ok, ext_init_unwritten, ext_init_len by (done || lia). cbn [simplefs_ext_init ee_block].
    destruct u; [|done]. destruct (Z.leb_spec (c + k) s), (Z.leb_spec e c); done || destruct G6 as [?|[?|?]]; done || lia. }
  unfold split_parts. rewrite split_data_init by lia. unfold split_head, split_tail. rewrite length_app. cbn [length].
  split.
  - apply Forall_app. split; [|constructor].
    + destruct (Z.eqb_spec (b - ee_block x) 0); constructor; [apply Ho; lia|done].
    + apply Ho; lia || by left.
    + destruct (Z.eqb_spec (simplefs_ext_len x - (b - ee_block x) - Z.min n (simplefs_ext_len x - (b - ee_block x))) 0);
        constructor; [apply Ho; lia|done].
  - destruct (_ =? 0), (_ =? 0); cbn; lia.
Qed.

Lemma all_done x b p u : Forall (fun y => pending y = false) x -> wf_extents x -> s <= b < e ->
  maps x b p u -> u = false.
Proof.
  intros Hd (_ & Hok & _) Hb (y & Hy%list_elem_of_In & _ & Hby & _ & ->). rewrite Forall_forall in Hd, Hok.
  specialize (Hd y Hy). cbn in Hd. unfold pending in Hd. rewrite ext_end_ok in Hd by (by apply Hok).
  rewrite (proj2 (Z.leb_gt (ee_block y + simplefs_ext_len y) s)), (proj2 (Z.leb_gt e (ee_block y))) in Hd by lia.
  by rewrite andb_true_r in Hd.
Qed.

Lemma convert_loop_spec l fuel : forall i N buf f w, retags f l (eb_extents buf) ->
  (forall b u, f b u = u \/ (s <= b < e /\ f b u = false)) ->
  (i <= length (eb_extents buf))%nat -> Forall (fun x => pending x = false) (take i (eb_extents buf)) ->
  (length (eb_extents buf) + 2 * todo (eb_extents buf) <= N)%nat ->
  (todo (eb_extents buf) * (N + 2) + (length (eb_extents buf) - i) + 1 <= fuel)%nat ->
  wp (convert_loop fuel (Z.of_nat i) s e buf) (fun res _ => exists r buf', res = Some (r, buf') /\
    eb_leaf_blocks buf' = eb_leaf_blocks buf /\
    (r = - ENOMEM \/ (r = 0 /\ retags (tag s e false) l (eb_extents buf')))) w.
Proof.
  induction fuel as [|fuel IH]; intros i N buf f w Hr Hf Hi Hd HN Hfuel; [lia|]. cbn [convert_loop]. unfold nr_extents.
  destruct (Z.leb_spec (Z.of_nat (length (eb_extents buf))) (Z.of_nat i)) as [Hend|Hlt].
  { apply wp_ret. eexists 0, buf. split_and!; [done..|]. right. split; [done|].
    rewrite take_ge in Hd by lia. eapply retags_ext; [exact Hr|]. intros b p u Hm.
    destruct (Hf b u) as [E|[Hb E]]; [|by rewrite tag_in].
    destruct (Z_lt_le_dec b s); [by rewrite tag_out by lia|]. destruct (Z_lt_le_dec b e); [|by rewrite tag_out by lia].
    rewrite tag_in by lia. apply (all_done (eb_extents buf) b p); [done|apply (rt_wf f l _ Hr)|lia|].
    apply (rt_maps f l _ Hr). by exists u. }
  destruct (lookup_lt_is_Some_2 (eb_extents buf) i) as [x Hx]; [lia|].
  assert (Hat : ext_at (eb_extents buf) (Z.of_nat i) = x).
  { unfold ext_at. rewrite Nat2Z.id. by apply nth_lookup_Some. }
  rewrite Hat. pose proof Hr as [_ (Hc & Hok & Hne) Hu32].
  assert (Hox : ext_ok x) by (by eapply Forall_lookup_1). assert (Hnx : nonempty x) by (by eapply (Forall_lookup_1 nonempty)).
  assert (Hskip : pending x = false -> wp (convert_loop fuel (Z.of_nat i + 1) s e buf) (fun res _ => exists r buf',
    res = Some (r, buf') /\ eb_leaf_blocks buf' = eb_leaf_blocks buf /\
    (r = - ENOMEM \/ (r = 0 /\ retags (tag s e false) l (eb_extents buf')))) w).
  { intros Hp. replace (Z.of_nat i + 1) with (Z.of_nat (S i)) by lia. apply (IH (S i) N buf f); try done; [lia| |lia].
    erewrite take_S_r by done. apply Forall_app. split; [done|by constructor]. }
  destruct (simplefs_ext_unwritten x) eqn:Hux; cbn [negb]; [|apply Hskip; unfold pending; by rewrite Hux].
  destruct ((simplefs_ext_end x <=? s) || (e <=? ee_block x)) eqn:Hov; [apply Hskip; unfold pending; by rewrite Hov, andb_false_r|].
  assert (Hpx : pending x = true) by (unfold pending; by rewrite Hux, Hov).
  pose proof (parts_done x Hox Hnx Hpx) as [Hdone Hlen]. cbv zeta in Hdone, Hlen.
  rewrite ext_end_ok in * by done. apply orb_false_iff in Hov as [H1%Z.leb_gt H2%Z.leb_gt].
  pose proof Hox as (O1 & O2 & O3 & O4). pose proof (ext_len_bounds x) as Hlx.
  pose proof (proj1 (nonempty_len x) Hnx) as [_ Hpos].
  set (b := Z.max (ee_block x) s) in *. set (n := Z.min (ee_block x + simplefs_ext_len x) e - b) in *.
  assert (Hbn : ee_block x <= b /\ 0 < n /\ b + n <= ee_block x + simplefs_ext_len x /\ s <= b /\ b + n <= e) by lia.
  clearbody b n. destruct Hbn as (B1 & B2 & B3 & B4 & B5). rewrite (u32_id n) by (unfold is_u32; lia).
  apply wp_bind. pose proof (take_drop_middle _ _ _ Hx) as Ex. set (pre := take i (eb_extents buf)) in *.
  set (post := drop (S i) (eb_extents buf)) in *.
  assert (Hip : i = length pre) by (unfold pre; rewrite length_take; lia). rewrite Hip at 1.
  eapply wp_mono; [apply (split_extent_spec true buf pre x post b n); try done; lia|].
  intros [r b'] w' [Hl' Hres]; cbn beta in *. destruct Hres as [[-> Hb']| ->]; cbn [Z.eqb negb].
  2:{ apply wp_ret. eexists _, b'. split_and!; [done..|]. by left. }
  replace (pre ++ _) with (pre ++ split_parts true x b n ++ post) in Hb' by (unfold split_parts; by rewrite <- app_assoc).
  rewrite <- Ex in Hr, HN, Hfuel, Hc, Hok, Hne, Hu32.
  pose proof (split_retags true pre x post b n (conj Hc (conj Hok Hne)) Hu32 Hux B1 B2 B3) as Hr'.
  rewrite <- Hb' in Hr'. assert (T : todo (x :: post) = S (todo post)) by (unfold todo; cbn; by rewrite Hpx).
  rewrite !todo_app, T, !length_app in *. cbn [length] in *. rewrite (todo_done pre Hd) in *.
  assert (T' : todo (eb_extents b') = todo post) by (rewrite Hb', !todo_app, (todo_done pre Hd), (todo_done _ Hdone); done).
  assert (L' : length (eb_extents b') = (length pre + (length (split_parts true x b n) + length post))%nat) by (by rewrite Hb', !length_app).
  eapply wp_mono; [apply (IH 1%nat N b' (fun c u => tag b (b + n) (negb true) c (f c u))); rewrite ?T', ?L'|].
  - by eapply retags_trans.
  - intros c u. unfold tag. destruct (Z.leb_spec b c), (Z.ltb_spec c (b + n)); cbn [andb negb]; try apply Hf. right. split; [lia|done].
  - lia.
  - rewrite Hb', app_assoc, take_app_le by (rewrite length_app; lia). apply Forall_take, Forall_app. done.
  - lia.
  - nia.
  - intros res w2 (r & b2 & -> & E1 & E2). exists r, b2. split_and!; [done|congruence|done].
Qed.
End Convert.

Section Ranges.
Context {K : Kernel}.

Lemma convert_loop_pres (I : world -> Prop) `{!KStable I} s e fuel : forall i buf, preserves I (convert_loop fuel i s e buf).
Proof. induction fuel as [|fuel IH]; intros i buf; cbn [convert_loop]; pres. Qed.

(** The fuel the code's loop is given is enough for its first pass. *)
Lemma convert_fuel_enough s e buf : let n := length (eb_extents buf) in
  (todo s e (eb_extents buf) * (3 * n + 2) + (n - 0) + 1 <= convert_fuel buf)%nat /\
  (n + 2 * todo s e (eb_extents buf) <= 3 * n)%nat.
Proof.
  intros n. pose proof (todo_le s e (eb_extents buf)) as H. unfold convert_fuel. fold n in H |- *.
  set (t := todo _ _ _) in *. clearbody t n. nia.
Qed.

Lemma convert_loop_full s e l buf w : 0 <= s < e -> e <= U32_MAX -> eb_extents buf = l -> wf_extents l ->
  Forall ext_u32 l ->
  wp (convert_loop (convert_fuel buf) 0 s e buf) (fun res _ => exists r buf', res = Some (r, buf') /\
    eb_leaf_blocks buf' = eb_leaf_blocks buf /\
    (r = - ENOMEM \/ (r = 0 /\ retags (tag s e false) l (eb_extents buf')))) w.
Proof.
  intros Hs He Hx Hwf Hu. destruct (convert_fuel_enough s e buf) as [H1 H2].
  apply (convert_loop_spec s e Hs He l _ 0 (3 * length (eb_extents buf)) buf (fun _ u => u)); try done.
  - rewrite Hx. by apply retags_id.
  - intros. by left.
  - lia.
Qed.

(** The range of blocks of the bytes [offset, offset + len). *)
Definition range_start (offset : Z) : Z := block_of offset.
Definition range_end (offset len : Z) : Z := block_up (offset + len).
Definition range_small (offset len : Z) : Prop :=
  0 <= offset /\ 0 < len /\ offset + len <= SIMPLEFS_BLOCK_SIZE * U32_MAX.

Lemma range_bounds offset len : range_small offset len ->
  0 <= range_start offset < range_end offset len /\ range_end offset len <= U32_MAX.
Proof.
  intros (H1 & H2 & H3). unfold range_start, range_end, block_of, block_up, blkbits, SIMPLEFS_BLOCK_SIZE in *.
  rewrite !Z.shiftr_div_pow2 by lia. change (2 ^ 12) with 4096 in *. unfold U32_MAX in *.
  Z.to_euclidean_division_equations. lia.
Qed.

Lemma convert_range_spec ino offset len l leaves w : range_small offset len -> file_ok w ino l leaves ->
  wp (simplefs_convert_unwritten_range ino offset len)
     (retagged (tag (range_start offset) (range_end offset len) false) ino l w) w.
Proof.
  intros Hr Hf. destruct (range_bounds _ _ Hr) as [B1 B2]. unfold simplefs_convert_unwritten_range.
  destruct Hr as (R1 & R2 & _). rewrite (proj2 (Z.leb_gt len 0)) by lia.
  fold (range_start offset) (range_end offset len). set (s := range_start offset) in *. set (e := range_end offset len) in *.
  clearbody s e. rewrite !u32_id by (unfold is_u32; lia). cbv zeta. rewrite (proj2 (Z.leb_gt e s)) by lia.
  apply wp_bind, wp_gets. apply wp_bind. apply (load_file ino l leaves); [done|..].
  { intros r w' Hr' Hs. rewrite (proj2 (Z.eqb_neq r 0)) by lia. apply wp_ret. eapply retagged_fails; [done..|lia]. }
  intros buf w1 Hx Hl Hs. cbn [Z.eqb negb]. apply wp_bind. pose proof Hf as [_ F2 F3 _ _ _ _ _ _].
  eapply wp_mono.
  { apply wp_conj; [by apply (convert_loop_full s e l)|]. apply (wp_pres (settled w)); [apply convert_loop_pres, _|done]. }
  intros res w2 [(r & b' & -> & E1 & E2) Hs2]; cbn beta in *.
  destruct E2 as [->|[-> E2]]; cbn [Z.eqb negb].
  { apply wp_ret. by eapply retagged_fails. }
  apply wp_bind. eapply wp_mono; [apply (sync_retagged (tag s e false) ino l leaves b' w); try done; congruence|].
  intros [r b2] w3 H3. by apply wp_ret.
Qed.

(** One extent of the file changes its tag to unwritten on a range. *)
Lemma mark_range_spec ino s n l leaves w : 0 <= s -> 0 < n -> in_one l s n -> file_ok w ino l leaves ->
  wp (simplefs_mark_unwritten_range ino s n) (retagged (tag s (s + n) true) ino l w) w.
Proof.
  intros Hs0 Hn (x & Hin & Hnx & Hx1 & Hx2) Hf. unfold simplefs_mark_unwritten_range.
  rewrite (proj2 (Z.eqb_neq n 0)) by lia. apply wp_bind, wp_gets. apply wp_bind. apply (load_file ino l leaves); [done|..].
  { intros r w' Hr' Hs. rewrite (proj2 (Z.eqb_neq r 0)) by lia. apply wp_ret. eapply retagged_fails; [done..|lia]. }
  intros buf w1 Hx Hl Hs. cbn [Z.eqb negb]. pose proof Hf as [_ F2 F3 _ _ _ _ _ _].
  pose proof (find_cases buf l s Hx F2) as Hfind.
  destruct (simplefs_file_find_extent buf s) as [found idx].
  destruct Hfind as [(-> & pre & y & post & El & -> & Hb)|(-> & Hno & _)]; cbn [negb].
  2:{ exfalso. apply (Hno (ee_start x + (s - ee_block x)) (simplefs_ext_unwritten x)). exists x. split; [done|].
      split_and!; [done|lia..|done|done]. }
  pose proof F2 as (Hc & Hok & Hne). rewrite El in Hc, Hok, Hne.
  assert (Hny : nonempty y) by (by apply Forall_app in Hne as [_ [? _]%Forall_cons]).
  assert (Hoy : ext_ok y) by (by apply Forall_app in Hok as [_ [? _]%Forall_cons]).
  assert (Hend : s + n <= ee_block y + simplefs_ext_len y).
  { apply (in_one_found pre y post); [by rewrite <- El|done|]. exists x. rewrite <- El. done. }
  apply wp_bind. unfold simplefs_mark_unwritten_extent. destruct (simplefs_ext_unwritten y) eqn:Hu.
  { unfold split_extent. assert (Hat : ext_at (eb_extents buf) (Z.of_nat (length pre)) = y)
      by (unfold ext_at; by rewrite Hx, El, Nat2Z.id, nth_middle). rewrite Hat, Hu. cbn [Bool.eqb negb]. apply wp_ret.
    cbn [Z.eqb negb]. apply wp_bind.
    eapply wp_mono; [apply (sync_retagged (tag s (s + n) true) ino l leaves buf w); try done|intros [? ?] ? ?; by apply wp_ret].
    rewrite Hx. apply (retags_ext (fun _ u => u)); [by apply retags_id|]. intros b p u Hm. symmetry.
    rewrite El in F2, Hm. apply (tag_already pre y post s n true b p); done || lia. }
  eapply wp_mono.
  { apply wp_conj; [apply (split_extent_spec false buf pre y post s n); try done; congruence|].
    apply (wp_pres (settled w)); [apply split_pres, _|done]. }
  intros [r b'] w2 [[L2 H2] Hs2]; cbn beta in *. destruct H2 as [[-> H2]| ->]; cbn [Z.eqb negb].
  2:{ apply wp_ret. by eapply retagged_fails. }
  apply wp_bind.
  eapply wp_mono; [apply (sync_retagged (tag s (s + n) true) ino l leaves b' w); try done; [|congruence]|intros [? ?] ? ?; by apply wp_ret].
  replace (pre ++ _) with (pre ++ split_parts false y s n ++ post) in H2 by (unfold split_parts; by rewrite <- app_assoc).
  rewrite H2, El. apply (split_retags false pre y post s n); try done; try lia. by rewrite <- El.
Qed.
End Ranges.

(** ** The start of a write *)
Section WriteBegin.
Context {K : Kernel} {HE : Errno}.
Context (w0 : world) (ino : Z) (l : list extent) (leaves : list Z).
Hypothesis Hf : file_ok w0 ino l leaves.

(** No block of the file was given to the allocator. *)
Definition kept (w : world) : Prop := forall b p u, maps l b p u -> test_bit (bfree_bitmap (w_sbi w)) p = false.

Lemma kept_busy (S : Z -> Prop) L w : (forall b p u, maps l b p u -> S p) -> busy L S w -> kept w.
Proof. intros HS (_ & _ & H) b p u Hm. by apply H, (HS b p u). Qed.
Lemma kept_settled w : settled w0 w -> kept w.
Proof.
  intros Hs. eapply kept_busy; [|by eapply settled_busy]. intros b p u Hm. right. right. by exists b, u.
Qed.
Lemma kept_others w : busy (layout_of (w_sbi w0)) (others w0 leaves) w -> kept w.
Proof.
  apply kept_busy. intros b p u Hm. eapply file_others; [exact Hf|]. right. right. by exists b, u.
Qed.

(** A block that was free and that the file did not map. *)
Definition fresh (b p : Z) : Prop :=
  test_bit (bfree_bitmap (w_sbi w0)) p = true /\ forall p' u, ~ maps l b p' u.

Definition write_post (first requested : Z) (direct : bool) (res : Z * iomap) (w' : world) : Prop :=
  let '(r, im) := res in
  kept w' /\
  (r = 0 -> exists l' leaves', file_ok w' ino l' leaves' /\
     (forall b p u, maps l b p u -> maps l' b p u) /\
     (forall b p u, maps l' b p u -> maps l b p u \/ fresh b p) /\
     exists n, describes im l' first n /\
       (im_new im = true -> (forall k, 0 <= k < n -> forall p u, maps l' (first + k) p u -> fresh (first + k) p) /\
          (direct = false -> n <= requested /\ im_type im = IOMAP_MAPPED)) /\
       forall b p u, maps l' b p u -> fresh b p -> direct = false -> n <= b - first ->
         u = true /\ prealloc_block (inode_of w' ino) <= b < prealloc_block (inode_of w' ino) + prealloc_len (inode_of w' ino)).

(** Adding a run: what is mapped after it. *)
Lemma adds_fresh first r out cu l' : adds l first r (gb_bno out) cu l' ->
  (forall k, 0 <= k < r -> test_bit (bfree_bitmap (w_sbi w0)) (gb_bno out + k) = true /\
     forall p u, ~ maps l (first + k) p u) ->
  (forall b p u, maps l b p u -> maps l' b p u) /\
  (forall b p u, maps l' b p u -> maps l b p u \/ (first <= b < first + r /\ p = gb_bno out + (b - first) /\ u = cu /\ fresh b p)).
Proof.
  intros Ha Hfr. split; [intros b p u Hm; apply Ha; by left|]. intros b p u [Hm|(Hb & -> & ->)]%Ha; [by left|right].
  split_and!; try lia; try done. destruct (Hfr (b - first) ltac:(lia)) as [H1 H2].
  split; [done|]. intros p' u'. replace b with (first + (b - first)) by lia. apply H2.
Qed.
Lemma fresh_not_mapped b p u : fresh b p -> ~ maps l b p u.
Proof. intros [_ H]. apply H. Qed.

(** The new run is reported whole. *)
Lemma write_new first requested direct r out cu start dirty priv w' :
  gb_new out = true -> cu = direct -> (direct = true \/ r <= requested) ->
  hole_post w0 ino l leaves first cu (r, out) w' ->
  write_post first requested direct (0, iomap_of r out start true dirty priv) w'.
Proof.
  intros Hnew Hcu Hd Hp. unfold hole_post in Hp. rewrite Hnew in Hp.
  destruct Hp as (Hr & Hu & (l' & lv & Hf' & Ha & _) & Hfr). destruct (adds_fresh _ _ _ _ _ Ha Hfr) as [H1 H2]. split.
  { intros b p u Hm%H1. destruct Hf' as [_ _ _ _ _ ((_ & _ & H) & _) _ _ _]. apply H. left. right. right. by exists b, u. }
  intros _. exists l', lv. split_and!; [done|done| |].
  { intros b p u Hm%H2. destruct Hm as [?|(_ & _ & _ & ?)]; [by left|by right]. }
  exists r. split_and!.
  - apply describes_of; [done|]. intros k Hk. apply Ha. right. split_and!; [lia|lia|lia|done].
  - intros _. split.
    + intros k Hk p u Hm%H2. destruct (Hfr k Hk) as [_ Hno]. destruct Hm as [Hm|(_ & _ & _ & ?)]; [by apply Hno in Hm|done].
    + intros ->. destruct Hd as [?|Hd]; [done|]. split; [done|]. unfold iomap_of.
      rewrite (proj2 (Z.eqb_neq r 0)) by lia. cbn [im_type]. by rewrite Hu, Hcu.
  - intros b p u Hm Hfb _ Hn. exfalso. destruct (H2 b p u Hm) as [Hl|(Hb & _)]; [by eapply fresh_not_mapped|lia].
Qed.

(** The file as it was. *)
Lemma write_old first requested direct r out start dirty priv w' :
  settled w0 w' -> lookup_post l first (r, out) -> 0 < r ->
  write_post first requested direct (0, iomap_of r out start (gb_new out) dirty priv) w'.
Proof.
  intros Hs (Hnew & Hr & _) Hpos. split; [by apply kept_settled|]. intros _. exists l, leaves.
  split_and!; [by eapply settled_file|done|by left|]. exists r. split_and!.
  - by apply describes_of; [|apply Hr].
  - unfold iomap_of. rewrite (proj2 (Z.eqb_neq r 0)) by lia. cbn [im_new]. congruence.
  - intros b p u Hm Hfb. by eapply fresh_not_mapped in Hm.
Qed.

(** The reservation behind the requested blocks becomes unwritten and is recorded. *)
Lemma write_tail first requested r out start dirty priv w1 w2 g :
  gb_new out = true -> 0 <= first -> 0 < requested < r ->
  hole_post w0 ino l leaves first false (r, out) w1 ->
  (forall l1, adds l first r (gb_bno out) false l1 ->
     exists l2 leaves2, file_ok w2 ino l2 leaves2 /\
     forall b p u, maps l2 b p u <-> exists u0, maps l1 b p u0 /\ u = tag (first + requested) (first + r) true b u0) ->
  (forall i, ei_block (g i) = ei_block i) -> prealloc_block (g (inode_of w2 ino)) = first + requested ->
  prealloc_len (g (inode_of w2 ino)) = r - requested ->
  let im := iomap_of r out start true dirty priv in
  write_post first requested false
    (0, Iomap (im_type im) (im_offset im) (im_addr im) (block_start requested) (im_new im) (im_dirty im) (im_private im))
    (snd (upd_inode ino g w2)).
Proof.
  intros Hnew Hfirst Hreq Hp Hmark Hg1 Hg2 Hg3 im. unfold hole_post in Hp. rewrite Hnew in Hp.
  destruct Hp as (Hr & Hu & (l1 & lv & _ & Ha & _) & Hfr). destruct (adds_fresh _ _ _ _ _ Ha Hfr) as [H1 H2].
  destruct (Hmark l1 Ha) as (l2 & lv2 & Hf2 & Hm2).
  assert (Hold : forall b p u, maps l b p u -> maps l2 b p u).
  { intros b p u Hm. apply Hm2. exists u. split; [by apply H1|]. rewrite tag_out; [done|].
    destruct (Z_lt_le_dec b (first + requested)); [by left|right]. destruct (Z_lt_le_dec b (first + r)); [|done].
    exfalso. destruct (Hfr (b - first) ltac:(lia)) as [_ Hno]. apply (Hno p u). by replace (first + (b - first)) with b by lia. }
  assert (Hnew2 : forall b p u, maps l2 b p u -> maps l b p u \/ (first <= b < first + r /\ fresh b p /\
    (first + requested <= b -> u = true))).
  { intros b p u (u0 & Hm & ->)%Hm2. destruct (H2 b p u0 Hm) as [Hl|(Hb & _ & _ & Hfb)].
    - left. assert (Hx : maps l2 b p u0) by (by apply Hold). apply Hm2 in Hx as (u1 & Hx & ->).
      destruct (Z_lt_le_dec b (first + requested)); [by rewrite tag_out by lia|].
      destruct (Z_lt_le_dec b (first + r)); [|by rewrite tag_out by lia].
      exfalso. destruct (Hfr (b - first) ltac:(lia)) as [_ Hno]. eapply (Hno p). replace (first + (b - first)) with b by lia. exact Hl.
    - right. split_and!; [lia|lia|done|]. intros. by rewrite tag_in by lia. }
  assert (Him : im_addr im = block_start (gb_bno out) /\ im_type im = map_type false /\ im_new im = true).
  { unfold im, iomap_of. rewrite (proj2 (Z.eqb_neq r 0)) by lia. cbn. by rewrite Hu. }
  destruct Him as (I1 & I2 & I3). pose proof (file_ok_upd w2 ino l2 lv2 g Hg1 Hf2) as Hf3. split.
  { intros b p u Hm%Hold. destruct Hf3 as [_ _ _ _ _ ((_ & _ & H) & _) _ _ _]. apply H. left. right. right. by exists b, u. }
  intros _. exists l2, lv2. split_and!; [done|done| |].
  { intros b p u Hm%Hnew2. destruct Hm as [?|(_ & ? & _)]; [by left|by right]. }
  exists requested. split_and!.
  - split_and!; [lia|done|]. exists (gb_bno out), false. split_and!; [done..|]. intros k Hk. apply Hm2. exists false.
    split; [apply Ha; right; split_and!; [lia..|done]|]. by rewrite tag_out by lia.
  - intros _. split; [|intros _; split; [done|exact I2]]. intros k Hk p u Hm%Hnew2.
    destruct (Hfr k ltac:(lia)) as [_ Hno]. destruct Hm as [Hm|(_ & ? & _)]; [by apply Hno in Hm|done].
  - intros b p u Hm Hfb _ Hn. assert (Hi : inode_of (snd (upd_inode ino g w2)) ino = g (inode_of w2 ino)).
    { unfold upd_inode, modify, inode_of. cbn. by rewrite lookup_insert_eq. }
    rewrite Hi, Hg2, Hg3. destruct (Hnew2 b p u Hm) as [Hl|(Hb & _ & Hu2)]; [by eapply fresh_not_mapped in Hl|].
    split; [apply Hu2; lia|lia].
Qed.

Lemma spanned_pos offset len : 0 <= offset -> 0 < len -> 0 < blocks_spanned offset len.
Proof.
  intros H1 H2. unfold blocks_spanned, DIV_ROUND_UP, SIMPLEFS_BLOCK_SIZE. pose proof (Z.mod_pos_bound offset 4096).
  apply Z.div_str_pos. lia.
Qed.

Lemma write_begin_spec offset len direct : 0 <= offset -> 0 < len ->
  wp (simplefs_write_iomap_begin ino offset len true direct)
     (write_post (block_of offset) (blocks_spanned offset len) direct) w0.
Proof.
  intros Ho Hlen. pose proof (spanned_pos offset len Ho Hlen) as Hreq.
  assert (Hfirst : 0 <= block_of offset) by (unfold block_of, blkbits; rewrite Z.shiftr_div_pow2 by lia; apply Z.div_pos; lia).
  unfold simplefs_write_iomap_begin. set (first := block_of offset) in *. set (requested := blocks_spanned offset len) in *.
  clearbody first requested. apply wp_bind, wp_gets. cbv zeta. apply wp_bind.
  eapply wp_mono; [by apply (get_block_spec w0 ino l leaves Hf)|]. intros [r out] w1 [_ Hres]; cbn [fst] in Hres.
  set (cu := true && negb (true && negb direct)) in *. assert (Hcu : cu = direct) by (unfold cu; by destruct direct).
  clearbody cu. destruct (Z.ltb_spec r 0) as [Hneg|Hpos].
  { apply wp_ret. split; [|lia]. destruct Hres as [[Hs _]|[_ Hp]]; [by apply kept_settled|]. unfold hole_post in Hp.
    destruct (gb_new out); [lia|]. destruct Hp as [_ Hp]; by apply kept_others. }
  destruct Hres as [(Hs & Hlk & Hnz)|[_ Hp]].
  { pose proof Hlk as (Hnew & _). rewrite Hnew. cbn [andb]. apply wp_ret. rewrite <- Hnew.
    apply write_old; try done. specialize (Hnz eq_refl). lia. }
  destruct (gb_new out) eqn:Hnew; [|unfold hole_post in Hp; rewrite Hnew in Hp; lia].
  destruct direct; cbn [andb negb].
  { apply wp_ret. apply (write_new _ _ _ _ _ cu); try done. by left. }
  subst cu. destruct (Z.ltb_spec requested r) as [Htail|Hfit].
  2:{ apply wp_ret. apply (write_new _ _ _ _ _ false); try done. by right. }
  pose proof Hp as Hp0. unfold hole_post in Hp. rewrite Hnew in Hp.
  destruct Hp as (Hr & Hu & (l1 & lv1 & Hf1 & Ha & Hone) & Hfr).
  assert (Hmax : first + r <= U32_MAX).
  { destruct Hone as (x & Hin & _ & _ & Hx). destruct Hf1 as [_ (_ & Hok & _) _ _ _ _ _ _ _].
    rewrite Forall_forall in Hok. destruct (Hok x (proj2 (list_elem_of_In _ _) Hin)) as (_ & _ & ? & _). lia. }
  rewrite !u32_id by (unfold is_u32; lia). apply wp_bind.
  eapply wp_mono; [apply (mark_range_spec ino (first + requested) (r - requested) l1 lv1); try done; try lia|].
  { destruct Hone as (x & Hin & Hne & H1 & H2). exists x. split_and!; [done|done|lia|lia]. }
  intros r2 w2 [M1 M2]; cbn beta in *. destruct (Z.eqb_spec r2 0) as [->|Hr2]; cbn [negb].
  2:{ apply wp_ret. split; [|done]. eapply kept_busy; [|exact (M1 Hr2)]. intros b p u Hm. right. right. exists b, u.
      apply Ha. by left. }
  destruct (M2 eq_refl) as (l2 & lv2 & Hf2 & _ & _ & Hm2).
  replace (first + requested + (r - requested)) with (first + r) in Hm2 by lia.
  apply wp_bind, wp_modify, wp_ret. refine (write_tail first requested r out _ _ _ w1 w2 (fun ci => set_prealloc_len (r - requested)
    (set_prealloc_block (first + requested) ci)) Hnew Hfirst (conj Hreq Htail) Hp0 _ _ _ _); try done.
  intros l1' Ha'. exists l2, lv2. split; [done|]. intros b p u. rewrite Hm2.
  by setoid_rewrite (Ha b p); setoid_rewrite (Ha' b p).
Qed.
End WriteBegin.

Section Claims.
Context {K : Kernel} {HE : Errno}.

(** C13: converting a byte range after its data is on disk makes exactly the blocks
    it touches written: when [simplefs_convert_unwritten_range] returns 0 the file is
    sound, every block keeps its physical block, the blocks of the range are written
    and the others keep their state, although the restarted scan never looks at the
    first extent again; when it fails, no block of the file was given away. *)
Theorem convert_range_refines ino offset len l leaves w :
  range_small offset len -> file_ok w ino l leaves ->
  wp (simplefs_convert_unwritten_range ino offset len)
     (retagged (tag (range_start offset) (range_end offset len) false) ino l w) w.
Proof. apply convert_range_spec. Qed.

(** the scan that starts over after every conversion ends: within the fuel of
    the model it returns, with an error only when memory is short, and otherwise with
    every block of the range written. *)
Theorem convert_range_ends s e l buf w : 0 <= s < e -> e <= U32_MAX -> eb_extents buf = l -> wf_extents l ->
  Forall ext_u32 l ->
  wp (convert_loop (convert_fuel buf) 0 s e buf) (fun res _ => exists r buf', res = Some (r, buf') /\
    eb_leaf_blocks buf' = eb_leaf_blocks buf /\
    (r = - ENOMEM \/ (r = 0 /\ retags (tag s e false) l (eb_extents buf')))) w.
Proof. apply convert_loop_full. Qed.

(** the start of a write hands the page cache blocks the tree maps: when
    [simplefs_write_iomap_begin] returns 0 for a write, the file is sound, keeps every
    old mapping and state, and has grown only by blocks that were free; the reported
    run is what the tree maps from the first block on; a buffered write is told about
    at most the blocks it asked for, as written ones, and everything reserved behind
    them is unwritten and inside the recorded preallocation. No outcome gives a block
    of the file away. *)
Theorem write_begin_correct ino offset len direct l leaves w :
  0 <= offset -> 0 < len -> file_ok w ino l leaves ->
  wp (simplefs_write_iomap_begin ino offset len true direct)
     (write_post w ino l (block_of offset) (blocks_spanned offset len) direct) w.
Proof. intros Ho Hl Hf. by apply (write_begin_spec w ino l leaves). Qed.
End Claims.
