(* ===== verification/FileZero.v ===== *)
(** * FileZero: zeroing a range of file blocks (simplefs_file.c)

    [simplefs_zero_range_full_blocks] turns every block of a range into an unwritten
    one, allocating the holes, in one pass over the loaded tree.  The theorem says
    that a success leaves the whole range mapped and unwritten, keeps the physical
    block of whatever was mapped and the state outside the range, and adds only
    blocks that were free; a failure gives no block of the file away. *)

From stdpp Require Import base list numbers gmap.
From S2P Require Import Prelude Image Layout Kernel DiskFormat Discard Journal MetaBuf.
From S2P Require Import Alloc Retire ExtentBuf ExtentTree Owned Errno InodeTable FileRange FileMap FileWrite.

Local Open Scope Z_scope.
Local Open Scope fs_scope.

Section Zero.
Context {K : Kernel}.
Context (w0 : world) (ino : Z) (l : list extent) (leaves : list Z) (first last : Z).
Hypothesis Hf : file_ok w0 ino l leaves.
Hypothesis Hrange : 0 <= first < last.
Hypothesis Hlast : last <= U32_MAX.

Local Abbreviation L := (layout_of (w_sbi w0)).
Local Abbreviation root := (ei_block (inode_of w0 ino)).

(** What was in use and the runs [A] are in use, and the inode has its tree. *)
Definition owns (A : list block_range) (w : world) : Prop :=
  busy L (fun p => in_use w0 p \/ in_ranges A p) w /\ ei_block (inode_of w ino) = root.

#[export] Instance owns_jstable A : JStable (owns A).
Proof.
  split; [split|].
  - intros c Hc w [H1 H2]. split; [by apply ks_call|]. unfold kdo, inode_of. by destruct (kstep _ c).
  - intros h n w Hin [H1 H2]. split; [by apply ks_dirty|]. unfold kdo, inode_of. by destruct (kstep _ _).
  - intros g w [H1 H2]. split; [by apply ks_upd_journal|done].
  - intros w [H1 H2]. split; [by apply ks_shutdown|done].
  - intros n v w [H1 H2]. split; [by apply js_image|done].
Qed.
Lemma owns_blocks A n : preserves (owns A) (add_blocks ino n).
Proof.
  intros w [H1 H2]. split; [exact H1|]. unfold add_blocks, upd_inode, modify, inode_of in *. cbn. by rewrite lookup_insert_eq.
Qed.

(** A run that nothing used at the start. *)
Definition fresh_range (r : block_range) : Prop :=
  0 < fst r /\ 0 < snd r /\ fst r + snd r <= nr_blocks (w_sbi w0) /\ forall p, range_of r p -> ~ in_use w0 p.

Lemma fresh_ranges A p : Forall fresh_range A -> in_ranges A p ->
  0 < p < nr_blocks (w_sbi w0) /\ ~ in_use w0 p.
Proof.
  intros HA (r & Hin & Hr)%in_ranges_iff. rewrite Forall_forall in HA.
  destruct (HA r (proj2 (list_elem_of_In _ _) Hin)) as (H1 & H2 & H3 & H4). split; [|by apply H4]. unfold range_of in Hr. lia.
Qed.
Lemma fresh_range_u32 r : fresh_range r -> is_u32 (fst r) /\ is_u32 (snd r).
Proof.
  intros (H1 & H2 & H3 & _). destruct Hf as [_ _ _ _ _ (( ((Hnb & _) & _) & _) & _) _ _ _]. unfold is_u32. lia.
Qed.
Lemma busy_inodes_upd S f : preserves (busy L S) (upd_inode ino f).
Proof. intros w H. exact H. Qed.
Lemma settled_trans w1 w2 w3 : settled w1 w2 -> settled w2 w3 -> settled w1 w3.
Proof. intros [H1 H2] [H3 H4]. split; [congruence|auto]. Qed.
Lemma owns_kept A w : owns A w -> kept l w.
Proof.
  intros [H _]. eapply kept_busy; [|exact H]. intros b p u Hm. left. apply (file_in_use _ _ _ _ Hf). left. right. right. by exists b, u.
Qed.

Lemma owns_kept_use w : busy L (in_use w0) w -> kept l w.
Proof. apply kept_busy. intros b p u Hm. apply (file_in_use _ _ _ _ Hf). left. right. right. by exists b, u. Qed.

(** A new run [r], nothing of it in [A]. *)
Definition new_run (A : list block_range) (r : block_range) (w : world) : Prop :=
  fresh_range r /\ (forall p, range_of r p -> ~ in_ranges A p) /\ owns (A ++ [r]) w.

Lemma get_owns A n w : 0 <= n <= U32_MAX -> owns A w ->
  wp (get_free_blocks n) (fun b w' => owns A w' /\ (b <> 0 -> new_run A (b, n) w')) w.
Proof.
  intros Hn Hw. eapply wp_mono.
  { apply wp_conj; [exact (get_free_blocks_busy L _ n w Hn (proj1 Hw))|].
    apply inodes_held. intros I HI. by apply get_free_blocks_apres. }
  intros b w' [[H1 H2] Hi]; cbn beta in *.
  assert (Hr : ei_block (inode_of w' ino) = root) by (unfold inode_of; rewrite Hi; apply Hw).
  split; [by split|]. intros Hb. destruct (H2 Hb) as ((F1 & F2 & F3 & _) & G & B). destruct Hw as [(_ & HL & _) _].
  unfold layout_of in HL. injection HL as HL _ _ _ _. rewrite HL in F3. split_and!.
  - split_and!; try done. intros p Hp Hu. apply (G p Hp). by left.
  - intros p Hp Ha. apply (G p Hp). by right.
  - split; [|done]. eapply busy_sub; [|exact B]. intros p [Hp|[Hp|[Hp|[]%in_ranges_nil]%in_ranges_cons]%in_ranges_app];
      [left; by left|left; by right|by right].
Qed.

Lemma alloc_owns A fuel : forall n w, 0 <= n <= U32_MAX -> owns A w ->
  wp (alloc_halving fuel n) (fun res w' => owns A w' /\ 0 <= snd res <= n /\ (fst res <> 0 -> new_run A res w')) w.
Proof.
  induction fuel as [|fuel IH]; intros n w Hn Hw; cbn [alloc_halving]; apply wp_bind; (eapply wp_mono; [by apply (get_owns A)|]);
    intros b w' [H1 H2]; cbn beta in *; (destruct (Z.eqb_spec b 0) as [->|Hb]; cbn [negb];
    [destruct (Z.leb_spec n 1); [apply wp_ret; split_and!; cbn [fst snd]; done || lia|]|
     apply wp_ret; split_and!; cbn [fst snd]; [done|lia|lia|done]]).
  - apply wp_ret; split_and!; cbn [fst snd]; done || lia.
  - eapply wp_mono; [apply IH; [Z.to_euclidean_division_equations; lia|done]|].
    intros [b' n'] w2 (G1 & G2 & G3); cbn [fst snd] in *. split_and!; done || (Z.to_euclidean_division_equations; lia).
Qed.

(** ** The state of the pass *)

(** The extents [x] after the blocks below [block] are done: [N] are the blocks
    added, from the runs [A]. *)
Record zero_inv (block : Z) (x : list extent) (A : list block_range) (N : Z -> Z -> Prop) : Prop := ZeroInv {
  zi_wf : wf_extents x;
  zi_u32 : Forall ext_u32 x;
  zi_maps : forall b p u, maps x b p u <->
    (exists u0, maps l b p u0 /\ u = tag first block true b u0) \/ (N b p /\ u = true);
  zi_new : forall b p, N b p -> first <= b < block /\ in_ranges A p /\ forall p' u, ~ maps l b p' u;
  zi_inj : forall b b' p, N b p -> N b' p -> b = b';
  zi_full : forall b, first <= b < block -> exists p, maps x b p true;
  zi_fresh : Forall fresh_range A
}.

Lemma zero_inv_start : zero_inv first l [] (fun _ _ => False).
Proof.
  pose proof Hf as [_ F2 F3 _ _ _ _ _ _]. constructor; try done; try (intros; lia); try constructor.
  - intros Hm. left. exists u. split; [done|]. by rewrite tag_out by lia.
  - intros [(u0 & Hm & ->)|[[] _]]. by rewrite tag_out by lia.
Qed.

(** The blocks of an extent change their tag. *)
Lemma zero_inv_tag block z x x' A N : first <= block < z -> zero_inv block x A N ->
  retags (tag block z true) x x' -> (forall b, block <= b < z -> exists p u, maps x b p u) -> zero_inv z x' A N.
Proof.
  intros Hz [Z1 Z2 Z3 Z4 Z5 Z6 Z7] [R1 R2 R3] Hfull.
  assert (Htag : forall b u, tag block z true b (tag first block true b u) = tag first z true b u).
  { intros b u. unfold tag. destruct (Z.leb_spec first b), (Z.leb_spec block b), (Z.ltb_spec b block), (Z.ltb_spec b z); done || lia. }
  constructor; try done.
  - intros b p u. rewrite R1. setoid_rewrite Z3. split.
    + intros (u1 & [(u0 & Hm & ->)|[Hn ->]] & ->); [left; exists u0; by rewrite Htag|right].
      split; [done|]. unfold tag. by destruct (_ && _).
    + intros [(u0 & Hm & ->)|[Hn ->]]; [exists (tag first block true b u0)|exists true].
      * split; [left; by exists u0|by rewrite Htag].
      * split; [by right|]. unfold tag. by destruct (_ && _).
  - intros b p Hn. destruct (Z4 b p Hn) as (H1 & H2 & H3). split_and!; try done; lia.
  - intros b Hb. destruct (Z_lt_le_dec b block).
    + destruct (Z6 b) as [p Hp]; [lia|]. exists p. apply R1. exists true. split; [done|]. by rewrite tag_out by lia.
    + destruct (Hfull b) as (p & u & Hp); [lia|]. exists p. apply R1. exists u. split; [done|]. by rewrite tag_in by lia.
Qed.

(** A new unwritten extent over a hole. *)
Lemma zero_inv_add block pre post A N r : first <= block -> block + snd r <= U32_MAX ->
  snd r <= SIMPLEFS_MAX_BLOCKS_PER_EXTENT -> zero_inv block (pre ++ post) A N -> hole_at pre post block (snd r) ->
  fresh_range r -> (forall p, range_of r p -> ~ in_ranges A p) ->
  zero_inv (block + snd r) (pre ++ simplefs_ext_init block (snd r) (fst r) true :: post) (A ++ [r])
    (fun b p => N b p \/ (block <= b < block + snd r /\ p = fst r + (b - block))).
Proof.
  intros Hb Hmax Hn [Z1 Z2 Z3 Z4 Z5 Z6 Z7] Hh Hr Hnew. destruct (fresh_range_u32 r Hr) as [U1 U2].
  destruct r as [bno m]. cbn [fst snd] in *. pose proof Hr as (R1 & R2 & R3 & R4). cbn [fst snd] in *.
  pose proof Hf as [_ _ _ _ _ ((((Hnb & _) & _) & _) & _) _ _ _].
  destruct (init_part block m bno true) as (P1 & P2 & P3); try lia.
  assert (Hgap : forall b, block <= b < block + m -> forall p u, ~ maps l b p u).
  { intros b Hbb p u Hm. apply (gap_unmapped pre post block m b p (tag first block true b u) Z1 Hh Hbb), Z3. left. by exists u. }
  pose proof Z1 as (Zc & Zok & Zne). apply Forall_app in Zok as [Zok1 Zok2], Zne as [Zne1 Zne2], Z2 as [Zu1 Zu2].
  assert (Hlen : simplefs_ext_len (simplefs_ext_init block m bno true) = m)
    by (apply ext_init_len; unfold SIMPLEFS_MAX_BLOCKS_PER_EXTENT in *; lia).
  assert (Hx : forall b p u, maps (pre ++ simplefs_ext_init block m bno true :: post) b p u <->
    maps (pre ++ post) b p u \/ (block <= b < block + m /\ p = bno + (b - block) /\ u = true)).
  { intros b p u. rewrite !maps_app, maps_cons, ext_init_maps by lia. tauto. }
  assert (Htag : forall b p u, maps l b p u -> tag first block true b u = tag first (block + m) true b u).
  { intros b p u Hm. unfold tag. destruct (Z.leb_spec first b), (Z.ltb_spec b block), (Z.ltb_spec b (block + m)); try done; try lia.
    exfalso. eapply (Hgap b); [lia|exact Hm]. }
  constructor.
  - split_and!; [by apply (chain_insert pre post _ block m); try done; try lia; apply Hh|apply Forall_app; split; [done|by constructor]..].
  - apply Forall_app. split; [done|by constructor].
  - intros b p u. rewrite Hx, Z3. split.
    + intros [[(u0 & Hm & ->)|[Hn' ->]]|(H1 & H2 & ->)].
      * left. exists u0. split; [done|by eapply Htag].
      * right. split; [by left|done].
      * right. split; [by right|done].
    + intros [(u0 & Hm & ->)|[[Hn'|[H1 H2]] ->]].
      * left. left. exists u0. split; [done|]. symmetry. by eapply Htag.
      * left. right. done.
      * right. done.
  - intros b p [Hn'|[H1 ->]]; [destruct (Z4 b p Hn') as (G1 & G2 & G3)|]; rewrite in_ranges_app.
    + split_and!; [lia|lia|by left|done].
    + split_and!; [lia|lia|right; apply in_ranges_cons; left; lia|by apply Hgap].
  - intros b b' p [H1|[H1 H1']] [H2|[H2 H2']]; [by eapply Z5| | |lia]; exfalso.
    + destruct (Z4 b p H1) as (_ & G & _). apply (Hnew p); [unfold range_of; cbn; lia|done].
    + destruct (Z4 b' p H2) as (_ & G & _). apply (Hnew p); [unfold range_of; cbn; lia|done].
  - intros b Hbb. destruct (Z_lt_le_dec b block).
    + destruct (Z6 b) as [p Hp]; [lia|]. exists p. apply Hx. by left.
    + exists (bno + (b - block)). apply Hx. right. split_and!; try done; lia.
  - apply Forall_app. split; [done|by constructor].
Qed.

(** The state between two steps. *)
Definition pass_inv (block : Z) (buf : extent_buffer) (A : list block_range) (w : world) : Prop :=
  eb_leaf_blocks buf = leaves /\ owns A w /\ exists N, zero_inv block (eb_extents buf) A N.

(** Where the pass ends: an error with the file's blocks in use, or the whole range. *)
Definition pass_end (res : Z * extent_buffer * list block_range) (w : world) : Prop :=
  let '(r, buf, A) := res in (r <> 0 -> kept l w) /\ (r = 0 -> pass_inv last buf A w).

(** A mapped block: its extent, up to the end of the range, becomes unwritten. *)
Lemma zero_found_step block buf A pre x post w : first <= block < last -> pass_inv block buf A w ->
  eb_extents buf = pre ++ x :: post -> ee_block x <= block < ee_block x + simplefs_ext_len x ->
  let z := Z.min (simplefs_ext_end x) last in
  wp (if negb (simplefs_ext_unwritten x)
      then simplefs_mark_unwritten_extent buf (Z.of_nat (length pre)) block (u32 (z - block)) else ret (0, buf))
     (fun rb w' => block < z <= last /\ (fst rb <> 0 -> kept l w') /\ (fst rb = 0 -> pass_inv z (snd rb) A w')) w.
Proof.
  intros Hb (Hl & Ho & N & Hz) Ex Hx z. pose proof Hz as [Z1 Z2 _ _ _ _ _]. rewrite Ex in Z1, Z2.
  pose proof Z1 as (_ & Hok & Hne).
  apply Forall_app in Hok as [_ [Hox _]%Forall_cons], Hne as [_ [Hnx _]%Forall_cons].
  unfold z. rewrite ext_end_ok by done. clear z. set (z := Z.min _ last). pose proof Hox as (O1 & O2 & O3 & O4).
  assert (Hzb : block < z <= last /\ z <= ee_block x + simplefs_ext_len x) by lia. clearbody z. destruct Hzb as [Hzb Hzx].
  rewrite u32_id by (unfold is_u32; lia).
  assert (Hfull : forall b, block <= b < z -> exists p u, maps (pre ++ x :: post) b p u).
  { intros b Hbb. exists (ee_start x + (b - ee_block x)), (simplefs_ext_unwritten x).
    rewrite maps_app, maps_cons. right. left. split_and!; [done|lia..|done|done]. }
  rewrite <- Ex in Hfull. destruct (simplefs_ext_unwritten x) eqn:Hu; cbn [negb].
  - apply wp_ret. cbn [fst snd]. split_and!; [lia|lia|done|]. intros _. split_and!; [done|done|]. exists N.
    eapply zero_inv_tag; [|done| |done]; [lia|]. rewrite Ex. apply (retags_ext (fun _ u => u)); [by apply retags_id|].
    intros b p u Hm. symmetry. replace z with (block + (z - block)) by lia.
    apply (tag_already pre x post block (z - block) true b p); done || lia.
  - eapply wp_mono.
    { apply wp_conj; [apply (split_extent_spec false buf pre x post block (z - block)); done || lia|].
      apply (wp_pres (owns A)); [apply split_pres, _|done]. }
    intros [r b'] w' [[L2 H2] Ho']; cbn [fst snd] in *. split_and!; [lia|lia|intros _; by eapply owns_kept|].
    intros ->. destruct H2 as [[_ H2]|?]; [|done]. split_and!; [congruence|done|]. exists N.
    eapply zero_inv_tag; [|done| |done]; [lia|]. rewrite H2, Ex.
    replace (pre ++ _ ++ _) with (pre ++ split_parts false x block (z - block) ++ post) by (unfold split_parts; by rewrite <- app_assoc).
    replace z with (block + (z - block)) at 1 by lia. apply (split_retags false pre x post block (z - block)); done || lia.
Qed.

(** The length to allocate: up to the next extent or the end of the range. *)
Definition gap_len (buf : extent_buffer) (idx block : Z) : Z :=
  let ext := ext_at (eb_extents buf) idx in
  let alloc_len := u32 (last - block) in
  let alloc_len := if (idx <? nr_extents buf) && (ee_block ext <? u32 (block + alloc_len))
                   then u32 (ee_block ext - block) else alloc_len in
  Z.min alloc_len SIMPLEFS_MAX_BLOCKS_PER_EXTENT.

Lemma gap_len_at buf pre post block : first <= block < last -> eb_extents buf = pre ++ post ->
  Forall ext_ok post -> Forall (fun e => ee_block e + simplefs_ext_len e <= block) pre -> Forall (fun e => block < ee_block e) post ->
  let n := gap_len buf (Z.of_nat (length pre)) block in
  0 < n <= SIMPLEFS_MAX_BLOCKS_PER_EXTENT /\ block + n <= last /\ hole_at pre post block n.
Proof.
  intros Hb Hx Hok Hpre Hpost. unfold gap_len, hole_at, nr_extents, ext_at. rewrite Hx, length_app, Nat2Z.id.
  rewrite (u32_id (last - block)), (u32_id (block + _)) by (unfold is_u32; lia). unfold SIMPLEFS_MAX_BLOCKS_PER_EXTENT.
  destruct post as [|e post]; cbn [length].
  { rewrite (proj2 (Z.ltb_ge (Z.of_nat (length pre)) (Z.of_nat (length pre + 0)))) by lia. cbn [andb]. split_and!; done || lia. }
  rewrite (proj2 (Z.ltb_lt (Z.of_nat (length pre)) (Z.of_nat (length pre + S (length post))))), app_nth2, Nat.sub_diag by lia.
  cbn [andb nth]. apply Forall_cons in Hpost as [He _], Hok as [(O1 & O2 & O3 & O4) _]. pose proof (ext_len_bounds e).
  destruct (Z.ltb_spec (ee_block e) (block + (last - block))); [rewrite u32_id by (unfold is_u32; lia)|];
    (split_and!; [lia|lia|lia|done|]); intros e' rest [= <- _]; lia.
Qed.

Lemma zero_loop_spec fuel : forall block buf A w, first <= block <= last -> last - block <= Z.of_nat fuel ->
  pass_inv block buf A w -> wp (zero_loop fuel ino block last buf A) pass_end w.
Proof.
  induction fuel as [|fuel IH]; intros block buf A w Hb Hfuel Hp; cbn [zero_loop].
  { apply wp_ret. replace block with last in Hp by lia. by split. }
  destruct (Z.leb_spec last block) as [Hend|Hlt]; [apply wp_ret; replace block with last in Hp by lia; by split|].
  pose proof Hp as (Hl & Ho & N & Hz). pose proof (zi_wf _ _ _ _ Hz) as Hwf.
  pose proof (find_cases buf (eb_extents buf) block eq_refl Hwf) as Hfind.
  destruct (simplefs_file_find_extent buf block) as [found idx].
  destruct Hfind as [(-> & pre & x & post & Ex & -> & Hx)|(-> & Hno & pre & post & Ex & -> & Hpre & Hpost)]; cbv zeta.
  - assert (Hat : ext_at (eb_extents buf) (Z.of_nat (length pre)) = x)
      by (unfold ext_at; by rewrite Ex, Nat2Z.id, nth_middle).
    rewrite Hat. apply wp_bind. eapply wp_mono; [apply (zero_found_step block buf A pre x post w); done || lia|].
    intros [r b'] w' (Hz' & H1 & H2); cbn [fst snd] in *.
    destruct (Z.eqb_spec r 0) as [->|Hr]; cbn [negb]; [apply IH; [lia|lia|by apply H2]|].
    apply wp_ret. split; [done|done].
  - fold (gap_len buf (Z.of_nat (length pre)) block).
    pose proof Hwf as (_ & Hok & _). rewrite Ex in Hok. apply Forall_app in Hok as [_ Hok].
    destruct (gap_len_at buf pre post block ltac:(lia) Ex Hok Hpre Hpost) as (G1 & G2 & G3).
    set (n := gap_len _ _ _) in *. clearbody n. unfold SIMPLEFS_MAX_BLOCKS_PER_EXTENT in *.
    apply wp_bind. eapply wp_mono; [apply (alloc_owns A 13 n w); [unfold U32_MAX; lia|done]|].
    intros [bno m] w1 (Ho1 & Hm & Hnew); cbn [fst snd] in Hm, Hnew.
    destruct (Z.eqb_spec bno 0) as [->|Hbno]; [apply wp_ret; split; [intros _; by eapply owns_kept|done]|].
    destruct (Hnew Hbno) as (N1 & N2 & N3). pose proof N1 as (N1a & N1b & _). cbn [fst snd] in *.
    apply wp_bind. eapply wp_mono.
    { apply wp_conj; [apply insert_spec|]. apply (wp_pres (owns (A ++ [(bno, m)]))); [apply insert_pres, _|done]. }
    intros [r b'] w2 [[L2 X2] Ho2]; cbn beta in *.
    destruct X2 as [[-> X2]| ->]; cbn [Z.eqb negb].
    2:{ apply wp_bind. destruct (fresh_range_u32 _ N1) as [U1 U2]. eapply wp_mono; [apply (put_blocks_busy L (in_use w0) bno m); try done|].
        - intros p Hu Hp'. destruct N1 as (_ & _ & _ & N1). by apply (N1 p).
        - eapply busy_sub; [|apply Ho2]. by left.
        - intros u w3 H3. apply wp_ret. split; [|done]. intros _. apply (owns_kept_use w3 H3). }
    apply wp_bind. eapply wp_mono; [apply (wp_pres _ _ _ (owns_blocks _ m) Ho2)|]. intros u w3 Ho3; cbn beta in *.
    rewrite (u32_id (block + m)) by (unfold is_u32; lia). apply IH; [lia|lia|]. split_and!; [congruence|done|].
    rewrite X2, Ex. unfold insert_at. rewrite Nat2Z.id, take_app_length, drop_app_length. rewrite Ex in Hz. eexists.
    apply (zero_inv_add block pre post A N (bno, m)); cbn [fst snd]; try done; try lia.
    + unfold SIMPLEFS_MAX_BLOCKS_PER_EXTENT. lia.
    + apply (hole_at_shorter _ _ _ n); [lia|done].
Qed.

(** ** Publishing the range *)

(** What zeroing promises. *)
Definition zero_post (r : Z) (w' : world) : Prop :=
  (r <> 0 -> kept l w') /\
  (r = 0 -> exists l' leaves', file_ok w' ino l' leaves' /\
     (forall b, first <= b < last -> exists p, maps l' b p true) /\
     (forall b p u, maps l b p u -> maps l' b p (tag first last true b u)) /\
     (forall b p u, maps l' b p u -> (exists u0, maps l b p u0 /\ u = tag first last true b u0) \/
        (first <= b < last /\ fresh w0 l b p))).

Lemma zero_sync buf A w : pass_inv last buf A w ->
  wp (simplefs_file_sync_extents ino buf) (fun rb w' => Forall fresh_range A /\
    busy L (fun p => others w0 leaves p \/ in_ranges A p) w' /\ (fst rb = 0 -> zero_post 0 w')) w.
Proof.
  intros (Hl & [Hb Hroot] & N & Hz). pose proof Hz as [Z1 Z2 Z3 Z4 Z5 Z6 Z7]. pose proof Z1 as (Zc & Zok & Zne).
  pose proof Hf as [F1 F2 F3 F4 F5 (_ & F6 & F6') F7 F8 F9].
  assert (HL : layout_of (w_sbi w) = L) by apply Hb. pose proof (root_dir_layout _ _ HL) as HR.
  assert (HN : nr_blocks (w_sbi w) = nr_blocks (w_sbi w0)) by (unfold layout_of in HL; by injection HL).
  assert (Huse : forall b p u, maps l b p u -> in_use w0 p)
    by (intros b p u Hm; apply (file_in_use _ _ _ _ Hf); left; right; right; by exists b, u).
  assert (Hnew : forall b p, N b p -> ~ in_use w0 p /\ root_dir_block (w_sbi w0) < p < nr_blocks (w_sbi w0) /\ p <> root).
  { intros b p Hn. destruct (Z4 b p Hn) as (_ & HA & _). destruct (fresh_ranges A p Z7 HA) as [Hp Hu].
    destruct (fresh_block w0 ino l leaves Hf p ltac:(lia) Hu). split_and!; try done; lia. }
  eapply wp_mono; [apply (sync_writes ino (fun p => others w0 leaves p \/ in_ranges A p)); constructor; rewrite ?HL, ?HR, ?HN, ?Hroot; try done|].
  - by eapply layout_ok_eq.
  - rewrite Hl. split_and!; [|done|].
    + eapply busy_sub; [|exact Hb]. intros p [[[Hp _]|Hp]|Hp]; [by left|by right|left]. apply (file_in_use _ _ _ _ Hf). by right.
    + apply Forall_forall. intros p Hp. rewrite Forall_forall in F6'. destruct (F6' p Hp) as [Hp32 _]. split; [done|].
      intros [[_ ?]|Hp']; [done|]. apply (fresh_ranges A p Z7 Hp'), (file_in_use _ _ _ _ Hf). by right.
  - intros p Hp. unfold file_blocks in Hp. rewrite HR in Hp. destruct Hp as [Hp|[Hp|(b & u & Hm)]].
    + left. apply (file_others _ _ _ _ Hf). by left.
    + left. apply (file_others _ _ _ _ Hf). right. by left.
    + apply Z3 in Hm as [(u0 & Hm & _)|[Hn _]]; [left|right; by apply (Z4 b p Hn)].
      apply (file_others _ _ _ _ Hf). right. right. by exists b, u0.
  - intros b p u [(u0 & Hm & _)|[Hn _]]%Z3; [by eapply F8|]. by apply (Hnew b).
  - intros b b' p u u' [(u0 & Hm & _)|[Hn _]]%Z3 [(u1 & Hm' & _)|[Hn' _]]%Z3; [by eapply F9| | |by eapply Z5]; exfalso.
    + destruct (Hnew b' p Hn') as [Hnu _]. by apply Hnu, (Huse b p u0).
    + destruct (Hnew b p Hn) as [Hnu _]. by apply Hnu, (Huse b' p u1).
  - by apply (chain_pairs _ 0).
  - intros rb w' [H1 H2]; cbn beta in *. split_and!; [done|by rewrite <- HL|]. intros Hr. split; [done|]. intros _.
    destruct (H2 Hr) as (lv & G1 & _). exists (normalize (eb_extents buf)), lv.
    destruct (normalize_spec (eb_extents buf) Zok) as (_ & _ & _ & N4 & _). split_and!; [done| | |].
    + intros b Hbb. destruct (Z6 b Hbb) as [p Hp]. exists p. by apply N4.
    + intros b p u Hm. apply N4, Z3. left. by exists u.
    + intros b p u [(u0 & Hm & ->)|[Hn ->]]%N4%Z3; [left; by exists u0|right].
      destruct (Z4 b p Hn) as (Hbb & _ & Hno). destruct (Hnew b p Hn) as (Hu & Hp & _). split_and!; [lia|lia|split; [|done]].
      destruct (test_bit _ p) eqn:E; [done|]. destruct Hu. split; [|done].
      destruct (Z4 b p Hn) as (_ & HA & _). destruct (fresh_ranges A p Z7 HA). lia.
Qed.

Lemma zero_range_spec : wp (simplefs_zero_range_full_blocks ino first last) zero_post w0.
Proof.
  unfold simplefs_zero_range_full_blocks. apply wp_bind.
  eapply wp_mono; [apply (wp_pres (settled w0)); [pres|apply settled_refl]|].
  intros ok w1 Hs1; cbn beta in *. assert (Hbad : forall r w, settled w0 w -> r <> 0 -> zero_post r w)
    by (intros; split; [intros _; by eapply kept_settled|done]).
  destruct ok; cbn [negb]; [|apply wp_ret; by apply Hbad]. apply wp_bind, wp_gets. apply wp_bind.
  apply (load_file ino l leaves); [by eapply settled_file|..].
  { intros r w' Hr Hs. rewrite (proj2 (Z.eqb_neq r 0)) by lia. apply wp_ret. apply Hbad; [by eapply settled_trans|lia]. }
  intros buf w2 Hx Hl Hs. cbn [Z.eqb negb]. pose proof (settled_trans _ _ _ Hs1 Hs) as Hs2.
  destruct (held_start w0 ino l leaves Hf w2 Hs2) as [Hb2 Hr2]. apply wp_bind.
  eapply wp_mono; [apply (zero_loop_spec (Z.to_nat (last - first)) first buf [] w2); [lia|lia|]|].
  { split_and!; [done| |rewrite Hx; eexists; apply zero_inv_start]. split; [|done].
    eapply busy_sub; [|exact Hb2]. by intros p [?|[]%in_ranges_nil]. }
  intros [[r b'] A] w3 [H1 H2]; cbn beta in *. destruct (Z.eqb_spec r 0) as [->|Hr]; cbn [negb].
  2:{ apply wp_ret. split; [by intros _; apply H1|done]. }
  apply wp_bind. eapply wp_mono; [by apply (zero_sync b' A), H2|]. intros [r b2] w4 (G1 & G2 & G3); cbn [fst] in *.
  destruct (Z.eqb_spec r 0) as [->|Hr]; [apply wp_ret; by apply G3|].
  apply wp_bind. eapply wp_mono; [apply (wp_pres (busy L (others w0 leaves)))|].
  - apply preserves_each_list_in. intros a Ha. rewrite <- in_rev in Ha. rewrite Forall_forall in G1.
    specialize (G1 a (proj2 (list_elem_of_In _ _) Ha)). destruct (fresh_range_u32 a G1) as [U1 U2].
    apply preserves_bind; [|intros _; apply busy_inodes_upd]. apply put_blocks_keeps; [done|done|].
    intros p [Hp _] Hp'. destruct G1 as (_ & _ & _ & G1). by apply (G1 p).
  - eapply busy_sub; [|exact G2]. by left.
  - intros u w5 H5. apply wp_ret. split; [intros _; by eapply kept_others|done].
Qed.
End Zero.

(** zeroing whole blocks leaves the range unwritten: when
    [simplefs_zero_range_full_blocks] returns 0 the file is sound, every block of
    [first, last) is mapped and unwritten, whatever was mapped keeps its physical block
    and, outside the range, its state, and every other block of the mapping lies in
    the range and was free before; when it fails, no block of the file was given away. *)
Theorem zero_range_refines {K : Kernel} ino first last l leaves w :
  0 <= first < last -> last <= U32_MAX -> file_ok w ino l leaves ->
  wp (simplefs_zero_range_full_blocks ino first last) (zero_post w ino l first last) w.
Proof. intros H1 H2 Hf. by apply (zero_range_spec w ino l leaves). Qed.
