(* ===== verification/DirIndex.v ===== *)
(** * DirIndex: directories and their name cache

    Models simplefs_dir_index.c.  A directory is an extent tree of blocks of 15
    entries of 260 bytes; the index of an open directory is the value of
    [i_dir_index] of its inode: a hash table of names, a slot array pointing into
    it, a bitmap of used slots and the block map.  A name is a [qstr]; its key is
    the zero-padded image of its bytes. *)

From stdpp Require Import base list numbers gmap.
From S2P Require Import Prelude Image Layout Kernel DiskFormat Discard Journal MetaBuf.
From S2P Require Import Alloc Retire ExtentBuf ExtentTree InodeTable.

Local Open Scope Z_scope.
Local Open Scope fs_scope.

(** ** Names and entries *)

Record qstr := Qstr { q_name : Z; q_len : Z }.

(** [char key[..] = {}; memcpy(key, name->name, name->len)] *)
Definition qstr_key (q : qstr) : Z := get_bytes (q_name q) 0 (q_len q).

(** [strnlen]: the bytes of [img] before the first zero byte, at most [n]. *)
Fixpoint strnlen (n : nat) (img i : Z) : Z :=
  match n with
  | O => i
  | S n' => if get_u8 img i =? 0 then i else strnlen n' img (i + 1)
  end.

Definition file_off (slot : Z) : Z := slot mod SIMPLEFS_FILES_PER_BLOCK * sizeof_simplefs_file.
Definition file_inode (img off : Z) : Z := get_u32 img off.
Definition file_name (img off : Z) : Z :=
  let filename := get_bytes img (off + 4) SIMPLEFS_FILENAME_LEN in
  get_bytes filename 0 (strnlen 255 filename 0).

(** The slot's 260 bytes: cleared, then filled when [ino] is not 0. *)
Definition put_file (img off ino name : Z) : Z :=
  let img := put_bytes img off sizeof_simplefs_file 0 in
  if ino =? 0 then img
  else put_bytes (put_u32 img off ino) (off + 4) SIMPLEFS_FILENAME_LEN name.

Definition dir_slots (ix : dir_index) : Z := u32 (di_nr_blocks ix * SIMPLEFS_FILES_PER_BLOCK).
Definition di_empty : dir_index := DirIndex eb_empty ∅ ∅ 0 [] 0 0 0 false.

(** [while (capacity < blocks) capacity = min(capacity * 2, SIMPLEFS_MAX_DIR_BLOCKS)] *)
Fixpoint dir_capacity (fuel : nat) (capacity blocks : Z) : Z :=
  match fuel with
  | O => capacity
  | S f => if capacity <? blocks
           then dir_capacity f (Z.min (u32 (capacity * 2)) SIMPLEFS_MAX_DIR_BLOCKS) blocks
           else capacity
  end.

(** What [memcpy] and [bitmap_copy] keep of the old arrays. *)
Definition dir_grown (ix : dir_index) (capacity : Z) : dir_index :=
  let n := dir_slots ix in
  let entries := if di_capacity ix =? 0 then ∅
                 else filter (fun kv : Z * Z => kv.1 < n) (di_entries ix) in
  let used := if di_capacity ix =? 0 then 0 else slice (di_used ix) 0 n in
  set_di_capacity capacity (set_di_used used (set_di_entries entries ix)).

Section Ops.
Context {K : Kernel}.

Definition get_index (dir : Z) : M dir_index :=
  gets (fun w => default di_empty (i_dir_index (inode_of w dir))).
Definition put_index (dir : Z) (ix : dir_index) : M unit :=
  upd_inode dir (set_i_dir_index (Some ix)).
Definition upd_index (dir : Z) (f : dir_index -> dir_index) : M unit :=
  let! ix := get_index dir in put_index dir (f ix).

Definition simplefs_dir_destroy (dir : Z) : M unit := upd_inode dir (set_i_dir_index None).

(** [rhashtable_lookup_insert_fast] *)
Definition rhash_insert (key : Z) (e : dir_name) (ix : dir_index) : M (Z * dir_index) :=
  match di_names ix !! key with
  | Some _ => ret (- EEXIST, ix)
  | None =>
      let! r := kdo (RhashInsert key) in
      if negb (r =? 0) then ret (r, ix)
      else ret (0, set_di_names (<[key := e]> (di_names ix)) ix)
  end.

Definition simplefs_dir_reserve (ix : dir_index) (blocks : Z) : M (Z * dir_index) :=
  let capacity := Z.max 4 (di_capacity ix) in
  if SIMPLEFS_MAX_DIR_BLOCKS <? blocks then ret (- ENOSPC, ix) else
  if blocks <=? di_capacity ix then ret (0, ix) else
  let capacity := dir_capacity 32 capacity blocks in
  let! map := kmalloc in
  let! entries := kmalloc in
  let! used := kmalloc in
  if negb map || negb entries || negb used then ret (- ENOMEM, ix)
  else ret (0, dir_grown ix capacity).

(** The extents become the block map. *)
Fixpoint build_map (l : list extent) (ix : dir_index) : M (Z * dir_index) :=
  match l with
  | [] => ret (0, ix)
  | ext :: l' =>
      let len := simplefs_ext_len ext in
      let! s := get_sbi in
      if (len =? 0) || simplefs_ext_unwritten ext || negb (ee_block ext =? di_nr_blocks ix) ||
         (nr_blocks s <=? ee_start ext) || (nr_blocks s - ee_start ext <? len)
      then ret (- EFSCORRUPTED, ix) else
      let! (r, ix) := simplefs_dir_reserve ix (u32 (di_nr_blocks ix + len)) in
      if negb (r =? 0) then ret (r, ix) else
      build_map l' (set_di_blocks (di_blocks ix ++ seqZ (ee_start ext) len) ix)
  end.

(** The entries of one block, from entry [slot mod 15] on. *)
Fixpoint build_files (n : nat) (img slot : Z) (ix : dir_index) : M (Z * dir_index) :=
  match n with
  | O => ret (0, ix)
  | S n' =>
      let off := file_off slot in
      let ino := file_inode img off in
      if ino =? 0 then build_files n' img (slot + 1) ix else
      let! s := get_sbi in
      if (nr_inodes s <=? ino) || (get_u8 img (off + 4) =? 0)
      then ret (- EFSCORRUPTED, ix) else
      let! entry := kmalloc in
      if negb entry then ret (- ENOMEM, ix) else
      let! (r, ix) := rhash_insert (file_name img off) (DirName ino slot) ix in
      if negb (r =? 0) then ret (if r =? - EEXIST then - EFSCORRUPTED else r, ix) else
      build_files n' img (slot + 1)
        (set_di_nr_files (u32 (di_nr_files ix + 1))
          (set_di_used (bitmap_set (di_used ix) slot 1)
            (set_di_entries (<[slot := file_name img off]> (di_entries ix)) ix)))
  end.

Fixpoint build_blocks (blocks : list Z) (slot : Z) (ix : dir_index) : M (Z * dir_index) :=
  match blocks with
  | [] => ret (0, ix)
  | b :: rest =>
      let! r := simplefs_read_metadata b in
      if IS_ERR r then ret (r, ix) else
      let! img := read_image b in
      let! (r, ix) := build_files (Z.to_nat SIMPLEFS_FILES_PER_BLOCK) img slot ix in
      if negb (r =? 0) then ret (r, ix)
      else build_blocks rest (slot + SIMPLEFS_FILES_PER_BLOCK) ix
  end.

Definition simplefs_dir_build (dir : Z) (ix : dir_index) : M (Z * dir_index) :=
  let! i := get_inode dir in
  let! (r, mapping) := simplefs_file_load_extents (ei_block i) in
  if negb (r =? 0) then ret (r, ix) else
  let ix := set_di_mapping mapping ix in
  let! (r, ix) := build_map (eb_extents mapping) ix in
  if negb (r =? 0) then ret (r, ix) else
  let! (r, ix) := build_blocks (di_blocks ix) 0 ix in
  if negb (r =? 0) then ret (r, ix) else
  ret (0, set_di_valid true ix).

(** The index of [dir], in its inode when the result is 0. *)
Definition simplefs_dir_get (dir : Z) : M Z :=
  let! shutdown := simplefs_is_shutdown in
  if shutdown then ret (- EIO) else
  let! i := get_inode dir in
  if match i_dir_index i with Some ix => di_valid ix | None => false end then ret 0 else
  run! simplefs_dir_destroy dir in
  let! ok := kmalloc in
  if negb ok then ret (- ENOMEM) else
  let! r := kdo RhashInit in
  if negb (r =? 0) then ret r else
  let! (r, ix) := simplefs_dir_build dir di_empty in
  if negb (r =? 0) then ret r else
  run! put_index dir ix in ret 0.

(** The code, the slot and the inode number found. *)
Definition simplefs_dir_find (ix : dir_index) (name : qstr) (ino : Z) : Z * Z * Z :=
  if SIMPLEFS_FILENAME_LEN <? q_len name then (- ENAMETOOLONG, 0, 0) else
  match di_names ix !! qstr_key name with
  | None => (- ENOENT, 0, 0)
  | Some e =>
      if negb (ino =? 0) && negb (ino =? dn_ino e) then (- ENOENT, 0, 0)
      else (0, dn_slot e, dn_ino e)
  end.

(** The code and the slot. *)
Definition simplefs_dir_free_slot (dir : Z) : M (Z * Z) :=
  let! ix := get_index dir in
  let slots := dir_slots ix in
  let slot := find_next_zero_bit (di_used ix) slots (di_next_free ix) in
  if slot <? slots then ret (0, slot) else
  let! (r, ix) := simplefs_dir_reserve ix (u32 (di_nr_blocks ix + 1)) in
  run! put_index dir ix in
  if negb (r =? 0) then ret (r, slot) else
  let! bno := get_free_blocks 1 in
  if bno =? 0 then
    let! shutdown := simplefs_is_shutdown in
    ret (if shutdown then - EIO else - ENOSPC, slot)
  else
  let retire r := run! simplefs_retire_metadata_blocks bno 1 in ret (r, slot) in
  let! r := simplefs_get_zeroed_folio bno in
  if IS_ERR r then retire r else
  let! r := simplefs_journal_dirty_folio bno (folio_of bno) in
  if negb (r =? 0) then retire r else
  let! has := simplefs_journal_has_current_handle in
  let! r := (if negb has then kdo (FilemapWriteAndWait bno 1) else ret 0) in
  if negb (r =? 0) then retire r else
  let! (r, mapping) := simplefs_file_append_extent (di_mapping ix)
                         (simplefs_ext_init (di_nr_blocks ix) 1 bno false) in
  run! upd_index dir (set_di_mapping mapping) in
  if negb (r =? 0) then retire r else
  let! (r, mapping) := simplefs_file_sync_extents dir mapping in
  run! upd_index dir (set_di_mapping mapping) in
  if negb (r =? 0) then
    run! upd_index dir (set_di_valid false) in
    run! simplefs_journal_fail r in
    ret (r, slot)
  else
  run! upd_index dir (fun ix => set_di_blocks (di_blocks ix ++ [bno]) ix) in
  let! ix := get_index dir in
  run! upd_inode dir (fun i => set_i_size (di_nr_blocks ix * SIMPLEFS_BLOCK_SIZE)
         (set_i_blocks (u64 (i_blocks i + simplefs_blocks_to_sectors 1)) i)) in
  run! kdo (MarkInodeDirty dir) in
  ret (0, slots).

(** [strlen(old->name) != name->len || memcmp(old->name, name->name, name->len)] *)
Definition name_differs (old : Z) (name : qstr) : bool :=
  negb (strnlen 256 old 0 =? q_len name) ||
  negb (get_bytes old 0 (q_len name) =? get_bytes (q_name name) 0 (q_len name)).

(** The cache after the entry is stored: [old] is the key the slot pointed to,
    [entry] the key of the new object, if one was made. *)
Definition dir_set_cache (slot ino : Z) (old entry : option Z) (ix : dir_index) : dir_index :=
  let remove := (ino =? 0) || bool_decide (is_Some entry) in
  let names := match old with
               | Some k => if remove then delete k (di_names ix) else di_names ix
               | None => di_names ix
               end in
  let cur := match entry with Some k => Some k | None => if remove then None else old end in
  let ix := set_di_entries (partial_alter (fun _ => cur) slot (di_entries ix)) (set_di_names names ix) in
  if negb (ino =? 0) then
    let ix := match cur with
              | Some k => set_di_names (alter (fun e => DirName ino (dn_slot e)) k (di_names ix)) ix
              | None => ix
              end in
    let ix := set_di_used (bitmap_set (di_used ix) slot 1) ix in
    if slot =? di_next_free ix then set_di_next_free (u32 (di_next_free ix + 1)) ix else ix
  else
    set_di_next_free (Z.min (di_next_free ix) slot)
      (set_di_used (bitmap_clear (di_used ix) slot 1) ix).

(** A new object for [name], unless the slot's object already carries it. *)
Definition set_insert (dir slot ino : Z) (name : option qstr) (ix : dir_index) : M (Z * option Z) :=
  let old := di_entries ix !! slot in
  match name with
  | Some q =>
      if negb (ino =? 0) && match old with Some k => name_differs k q | None => true end then
        let! ok := kmalloc in
        if negb ok then ret (- ENOMEM, None) else
        let! (r, ix) := rhash_insert (qstr_key q) (DirName ino slot) ix in
        run! put_index dir ix in
        ret (r, Some (qstr_key q))
      else ret (0, None)
  | None => ret (0, None)
  end.

Definition simplefs_dir_set (dir slot ino : Z) (name : option qstr) : M Z :=
  let! ix := get_index dir in
  if dir_slots ix <=? slot then ret (- EFSCORRUPTED) else
  if match name with Some q => SIMPLEFS_FILENAME_LEN <? q_len q | None => false end
  then ret (- ENAMETOOLONG) else
  let old := di_entries ix !! slot in
  if negb (ino =? 0) && bool_decide (name = None) && bool_decide (old = None)
  then ret (- ENOENT) else
  let! (r, entry) := set_insert dir slot ino name ix in
  if negb (r =? 0) then ret r else
  let undo r :=
    run! match entry with
         | Some k => upd_index dir (fun ix => set_di_names (delete k (di_names ix)) ix)
         | None => ret tt
         end in ret r in
  let bno := default 0 (di_blocks ix !! Z.to_nat (slot / SIMPLEFS_FILES_PER_BLOCK)) in
  let! r := simplefs_get_folio bno in
  if IS_ERR r then undo r else
  let! img := read_image bno in
  let stored := match entry with Some k => k | None => default 0 old end in
  run! write_image bno (put_file img (file_off slot) ino stored) in
  let! r := simplefs_journal_dirty_folio bno (folio_of bno) in
  if negb (r =? 0) then
    run! upd_index dir (set_di_valid false) in
    run! simplefs_journal_fail r in
    undo r
  else
  run! upd_index dir (dir_set_cache slot ino old entry) in
  ret 0.

Definition simplefs_dir_add (dir : Z) (name : qstr) (ino : Z) : M Z :=
  let! r := simplefs_dir_get dir in
  if negb (r =? 0) then ret r else
  let! (r, slot) := simplefs_dir_free_slot dir in
  let! r := (if r =? 0 then simplefs_dir_set dir slot ino (Some name) else ret r) in
  if negb (r =? 0) then ret r else
  run! upd_index dir (fun ix => set_di_nr_files (u32 (di_nr_files ix + 1)) ix) in
  run! kdo (MarkInodeDirty dir) in
  let! r := simplefs_persist_inode dir in
  run! when (negb (r =? 0))
    (run! upd_index dir (set_di_valid false) in simplefs_journal_fail r) in
  ret r.

(** [ctx->pos] from the slot loop on: the slots are visited until the reader's
    buffer is full. *)
Fixpoint emit_slots (n : nat) (ix : dir_index) (slot : Z) : M Z :=
  match n with
  | O => ret slot
  | S n' =>
      match di_entries ix !! slot with
      | Some key =>
          let! full := kdo (DirEmit key (dn_ino (default (DirName 0 0) (di_names ix !! key)))) in
          if negb (full =? 0) then ret slot else emit_slots n' ix (slot + 1)
      | None => emit_slots n' ix (slot + 1)
      end
  end.

(** The code and the new [ctx->pos]. *)
Definition simplefs_dir_emit (dir pos : Z) : M (Z * Z) :=
  let! r := simplefs_dir_get dir in
  if negb (r =? 0) then ret (r, pos) else
  let! ix := get_index dir in
  let! pos := (if pos <? 2 then
                 let! p := kdo (DirEmitDots pos) in ret (if p <? 2 then p else 2)
               else ret pos) in
  if pos <? 2 then ret (0, pos) else
  let! slot := emit_slots (Z.to_nat (dir_slots ix - (pos - 2))) ix (pos - 2) in
  ret (0, slot + 2).

(** [simplefs_iterate] *)
Definition simplefs_iterate (dir pos : Z) : M (Z * Z) := simplefs_dir_emit dir pos.

(** The first slot whose entry names [ino]. *)
Fixpoint find_ino (n : nat) (ix : dir_index) (slot ino : Z) : option Z :=
  match n with
  | O => None
  | S n' =>
      match di_entries ix !! slot with
      | Some key =>
          if dn_ino (default (DirName 0 0) (di_names ix !! key)) =? ino then Some key
          else find_ino n' ix (slot + 1) ino
      | None => find_ino n' ix (slot + 1) ino
      end
  end.

(** The code and the key of the name copied out. *)
Definition simplefs_dir_get_name (dir ino : Z) : M (Z * Z) :=
  let! r := simplefs_dir_get dir in
  if negb (r =? 0) then ret (r, 0) else
  let! ix := get_index dir in
  match find_ino (Z.to_nat (dir_slots ix)) ix 0 ino with
  | Some key => ret (0, key)
  | None => ret (- ENOENT, 0)
  end.

(** One round of the trim loop: the last 16 blocks, at most, of the last extent. *)
Definition trim_step (dir : Z) : M Z :=
  let! handle := simplefs_journal_start_sb 32 in
  if HANDLE_IS_ERR handle then ret (HANDLE_PTR_ERR handle) else
  let! ix := get_index dir in
  let l := eb_extents (di_mapping ix) in
  let last := Z.to_nat (nr_extents (di_mapping ix) - 1) in
  let ext := default (Extent 0 0 0) (l !! last) in
  let len := simplefs_ext_len ext in
  let count := Z.min len 16 in
  let start := u32 (ee_start ext + len - count) in
  let l := if count =? len then take last l
           else <[last := simplefs_ext_set_len ext (len - count)]> l in
  let mapping := eb_set_extents (di_mapping ix) l in
  let! (r, mapping) := simplefs_file_sync_extents dir mapping in
  run! upd_index dir (set_di_mapping mapping) in
  let! r := (if r =? 0 then simplefs_retire_metadata_blocks start count else ret r) in
  let! r :=
    (if r =? 0 then
       run! upd_index dir (fun ix =>
         set_di_blocks (take (Z.to_nat (di_nr_blocks ix - count)) (di_blocks ix)) ix) in
       let! ix := get_index dir in
       run! upd_inode dir (fun i => set_i_size (di_nr_blocks ix * SIMPLEFS_BLOCK_SIZE)
              (set_i_blocks (u64 (i_blocks i - simplefs_blocks_to_sectors count)) i)) in
       run! kdo (MarkInodeDirty dir) in
       simplefs_persist_inode dir
     else ret r) in
  run! when (negb (r =? 0))
    (run! upd_index dir (set_di_valid false) in simplefs_journal_fail r) in
  let! stop_ret := simplefs_journal_stop handle in
  ret (if r =? 0 then stop_ret else r).

Fixpoint trim_loop (fuel : nat) (dir : Z) : M Z :=
  match fuel with
  | O => ret 0
  | S f =>
      let! ix := get_index dir in
      if nr_extents (di_mapping ix) =? 0 then ret 0 else
      let! r := trim_step dir in
      if negb (r =? 0) then ret r else trim_loop f dir
  end.

(** Each round drops an extent or shortens the last one. *)
Fixpoint ext_weight (l : list extent) : nat :=
  match l with
  | [] => 0
  | e :: l' => S (Z.to_nat (simplefs_ext_len e) + ext_weight l')
  end.
Definition trim_fuel (l : list extent) : nat := S (ext_weight l).

Definition simplefs_dir_trim (dir : Z) : M Z :=
  let! r := simplefs_dir_get dir in
  if negb (r =? 0) then ret r else
  let! ix := get_index dir in
  if negb (di_nr_files ix =? 0) then ret (- ENOTEMPTY) else
  let! r := trim_loop (trim_fuel (eb_extents (di_mapping ix))) dir in
  if negb (r =? 0) then ret r else
  run! upd_index dir (set_di_next_free 0) in
  ret 0.

End Ops.

(** ** Names *)

Lemma get_u8_bytes img o n j : 0 <= o -> 0 <= n -> 0 <= j ->
  get_u8 (get_bytes img o n) j = if j <? n then get_u8 img (o + j) else 0.
Proof.
  intros. unfold get_u8, get_bytes. destruct (Z.ltb_spec j n).
  - rewrite slice_slice by lia. f_equal. lia.
  - bits.
Qed.

Lemma strnlen_spec n img : forall i, 0 <= i ->
  i <= strnlen n img i <= i + Z.of_nat n /\
  (forall j, i <= j < strnlen n img i -> get_u8 img j <> 0) /\
  (strnlen n img i < i + Z.of_nat n -> get_u8 img (strnlen n img i) = 0).
Proof.
  induction n as [|n IH]; intros i Hi; cbn [strnlen]; [split_and!; lia|].
  destruct (Z.eqb_spec (get_u8 img i) 0) as [E|E]; [split_and!; try lia; done|].
  destruct (IH (i + 1)) as (H1 & H2 & H3); [lia|]. split_and!; [lia..| |].
  - intros j Hj. destruct (decide (j = i)) as [->|]; [done|]. apply H2. lia.
  - intros. apply H3. lia.
Qed.

Lemma strnlen_unique n img r : 0 <= r <= Z.of_nat n ->
  (forall j, 0 <= j < r -> get_u8 img j <> 0) -> (r < Z.of_nat n -> get_u8 img r = 0) ->
  strnlen n img 0 = r.
Proof.
  intros Hr Hlow Hz. destruct (strnlen_spec n img 0) as (H1 & H2 & H3); [lia|].
  destruct (Z.lt_trichotomy (strnlen n img 0) r) as [H|[H|H]]; [|done|].
  - exfalso. apply (Hlow (strnlen n img 0)); [lia|]. apply H3. lia.
  - exfalso. apply (H2 r); [lia|]. apply Hz. lia.
Qed.

(** A key: at most 255 bytes, zero from the first zero byte on. *)
Definition key_ok (k : Z) : Prop :=
  0 <= k < 2 ^ 2040 /\ get_bytes k 0 (strnlen 255 k 0) = k.

Lemma get_bytes_small k n : 0 <= k < 2 ^ (8 * n) -> 0 <= n -> get_bytes k 0 n = k.
Proof. intros. unfold get_bytes. apply slice_small; lia. Qed.

Lemma key_prefix img : key_ok (get_bytes img 0 (strnlen 255 img 0)).
Proof.
  destruct (strnlen_spec 255 img 0) as (H1 & H2 & H3); [lia|].
  set (n := strnlen 255 img 0) in *. split.
  - split; [apply slice_nonneg; lia|]. eapply Z.lt_le_trans; [apply slice_lt; lia|].
    apply Z.pow_le_mono_r; lia.
  - rewrite (strnlen_unique 255 (get_bytes img 0 n) n).
    + unfold get_bytes. rewrite slice_slice by lia. f_equal; lia.
    + lia.
    + intros j Hj. rewrite get_u8_bytes by lia. destruct (Z.ltb_spec j n); [|lia]. by apply H2.
    + intros _. rewrite get_u8_bytes by lia. by rewrite Z.ltb_irrefl.
Qed.

Lemma file_name_key img off : key_ok (file_name img off).
Proof. apply key_prefix. Qed.

(** A name of the VFS: 1 to 255 bytes, none of them zero. *)
Definition qstr_ok (q : qstr) : Prop :=
  0 < q_len q <= 255 /\ forall j, 0 <= j < q_len q -> get_u8 (q_name q) j <> 0.

Lemma qstr_key_len n q : qstr_ok q -> (255 <= n)%nat -> strnlen n (qstr_key q) 0 = q_len q.
Proof.
  intros [Hl Hq] Hn. apply strnlen_unique.
  - lia.
  - intros j Hj. unfold qstr_key. rewrite get_u8_bytes by lia.
    destruct (Z.ltb_spec j (q_len q)); [|lia]. by apply Hq.
  - intros _. unfold qstr_key. rewrite get_u8_bytes by lia. by rewrite Z.ltb_irrefl.
Qed.

Lemma qstr_key_ok q : qstr_ok q -> key_ok (qstr_key q).
Proof.
  intros Hq. pose proof (qstr_key_len 255 q Hq ltac:(lia)) as E. destruct Hq as [Hl _]. split.
  - split; [apply slice_nonneg; lia|]. eapply Z.lt_le_trans; [apply slice_lt; lia|].
    apply Z.pow_le_mono_r; lia.
  - rewrite E. unfold qstr_key, get_bytes. rewrite slice_slice by lia. f_equal; lia.
Qed.

Lemma key_strlen k : key_ok k -> strnlen 256 k 0 = strnlen 255 k 0.
Proof.
  intros [Hk Hp]. destruct (strnlen_spec 255 k 0) as (H1 & H2 & H3); [lia|].
  apply strnlen_unique; [lia|intros; by apply H2|]. intros _.
  destruct (decide (strnlen 255 k 0 < 255)); [apply H3; lia|].
  replace (strnlen 255 k 0) with 255 by lia.
  rewrite <- (get_bytes_small k 255), get_u8_bytes by lia. done.
Qed.

(** The comparison of [simplefs_dir_set] decides equality of keys. *)
Lemma name_differs_spec k q : key_ok k -> qstr_ok q ->
  name_differs k q = negb (k =? qstr_key q).
Proof.
  intros Hk Hq. unfold name_differs. rewrite (key_strlen k Hk).
  destruct (Z.eqb_spec k (qstr_key q)) as [->|Hne]; cbn [negb].
  - rewrite (qstr_key_len 255 q Hq), Z.eqb_refl by lia. cbn [negb orb].
    destruct Hq as [Hl _]. unfold qstr_key, get_bytes. rewrite slice_slice by lia.
    replace (8 * 0 + 8 * 0) with (8 * 0) by lia. by rewrite Z.eqb_refl.
  - destruct (Z.eqb_spec (strnlen 255 k 0) (q_len q)) as [E|]; [|done]. cbn [negb orb].
    apply negb_true_iff, Z.eqb_neq. intros E2. apply Hne. unfold qstr_key. rewrite <- E2, <- E. symmetry. apply Hk.
Qed.

(** *** Entries on disk *)

Lemma file_off_bounds slot : 0 <= file_off slot <= 3640.
Proof.
  unfold file_off, SIMPLEFS_FILES_PER_BLOCK, SIMPLEFS_BLOCK_SIZE, sizeof_simplefs_file.
  change (4096 / 260) with 15. pose proof (Z.mod_pos_bound slot 15). lia.
Qed.

Lemma put_file_inode img off ino k : 0 <= off -> is_u32 ino -> file_inode (put_file img off ino k) off = ino.
Proof.
  intros Ho Hi. unfold file_inode, put_file, get_u32, put_bytes, put_u32,
    sizeof_simplefs_file, SIMPLEFS_FILENAME_LEN.
  destruct (Z.eqb_spec ino 0) as [->|].
  - rewrite slice_splice_inside by lia. apply slice_0; lia.
  - rewrite slice_splice_disjoint, slice_splice_same by lia.
    unfold is_u32, U32_MAX in Hi. apply slice_small; lia.
Qed.

Lemma put_file_name img off ino k : 0 <= off -> ino <> 0 -> key_ok k ->
  file_name (put_file img off ino k) off = k.
Proof.
  intros Ho Hi [Hk Hp]. unfold file_name, put_file, SIMPLEFS_FILENAME_LEN.
  destruct (Z.eqb_spec ino 0); [done|].
  assert (forall x, get_bytes (put_bytes x (off + 4) 255 k) (off + 4) 255 = k) as ->; [|exact Hp].
  intros x. unfold get_bytes, put_bytes. by rewrite slice_splice_same, slice_small by lia.
Qed.

(** Two slots of one block do not overlap. *)
Lemma file_off_apart s s' : 0 <= s -> 0 <= s' -> s <> s' -> s / 15 = s' / 15 ->
  file_off s + 260 <= file_off s' \/ file_off s' + 260 <= file_off s.
Proof.
  intros. unfold file_off, SIMPLEFS_FILES_PER_BLOCK, SIMPLEFS_BLOCK_SIZE, sizeof_simplefs_file.
  change (4096 / 260) with 15. pose proof (Z.div_mod s 15). pose proof (Z.div_mod s' 15).
  assert (s mod 15 <> s' mod 15) by lia. lia.
Qed.

Lemma put_file_other img s s' ino k : 0 <= s -> 0 <= s' -> s <> s' -> s / 15 = s' / 15 ->
  file_inode (put_file img (file_off s) ino k) (file_off s') = file_inode img (file_off s') /\
  file_name (put_file img (file_off s) ino k) (file_off s') = file_name img (file_off s').
Proof.
  intros H H' Hne Hb. pose proof (file_off_apart s s' H H' Hne Hb).
  pose proof (file_off_bounds s). pose proof (file_off_bounds s').
  assert (Hs : forall p m, 8 * file_off s' <= p -> 0 <= m -> p + m <= 8 * (file_off s' + 260) ->
    slice (put_file img (file_off s) ino k) p m = slice img p m).
  { intros p m Hp Hm Hpm. unfold put_file, put_bytes, put_u32, sizeof_simplefs_file, SIMPLEFS_FILENAME_LEN.
    destruct (ino =? 0); rewrite !slice_splice_disjoint by lia; done. }
  split; unfold file_name, file_inode, get_u32, SIMPLEFS_FILENAME_LEN; [apply Hs; lia|].
  assert (get_bytes (put_file img (file_off s) ino k) (file_off s' + 4) 255 =
          get_bytes img (file_off s' + 4) 255) as ->; [|done].
  unfold get_bytes. apply Hs; lia.
Qed.

(** ** The cache invariant

    The slot array and the hash table describe the same set of entries, the
    bitmap marks the occupied slots and no slot below [next_free] is free. *)

Record index_ok (ix : dir_index) : Prop := IndexOk {
  ok_entry : forall s k, di_entries ix !! s = Some k ->
             exists e, di_names ix !! k = Some e /\ dn_slot e = s;
  ok_name : forall k e, di_names ix !! k = Some e ->
             di_entries ix !! dn_slot e = Some k /\ 0 <= dn_slot e < dir_slots ix /\
             0 < dn_ino e <= U32_MAX /\ key_ok k;
  ok_used : forall s, 0 <= s ->
             test_bit (di_used ix) s = bool_decide (is_Some (di_entries ix !! s));
  ok_next : 0 <= di_next_free ix <= dir_slots ix /\
            all_set (di_used ix) 0 (di_next_free ix);
  ok_blocks : di_nr_blocks ix <= SIMPLEFS_MAX_DIR_BLOCKS;
  ok_capacity : di_nr_blocks ix <= di_capacity ix <= SIMPLEFS_MAX_DIR_BLOCKS
}.

(** The directory as a map from names to inode numbers. *)
Definition contents (ix : dir_index) : gmap Z Z := dn_ino <$> di_names ix.

(** What the cache says of a slot, and what the disk says. *)
Definition in_index (ix : dir_index) (s : Z) : option (Z * Z) :=
  match di_entries ix !! s with
  | Some k => match di_names ix !! k with Some e => Some (k, dn_ino e) | None => None end
  | None => None
  end.

Lemma in_index_contents ix k i : index_ok ix ->
  contents ix !! k = Some i <-> exists s, in_index ix s = Some (k, i).
Proof.
  intros Hok. unfold contents, in_index. rewrite lookup_fmap. split.
  - intros H. destruct (di_names ix !! k) as [e|] eqn:He; cbn in H; simplify_eq.
    destruct (ok_name ix Hok k e He) as (H1 & _). exists (dn_slot e). by rewrite H1, He.
  - intros (s & Hs). destruct (di_entries ix !! s) as [k'|]; [|done].
    destruct (di_names ix !! k') as [e|] eqn:E; simplify_eq. by rewrite E.
Qed.

Lemma slots_exact ix : di_nr_blocks ix <= SIMPLEFS_MAX_DIR_BLOCKS ->
  dir_slots ix = di_nr_blocks ix * 15.
Proof.
  intros H. unfold dir_slots. change SIMPLEFS_FILES_PER_BLOCK with 15.
  apply u32_id. unfold is_u32, di_nr_blocks in *. change SIMPLEFS_MAX_DIR_BLOCKS with 1048575 in H.
  unfold U32_MAX. lia.
Qed.

Definition delete_old (old : option Z) {A} (m : gmap Z A) : gmap Z A :=
  match old with Some k => delete k m | None => m end.

(** The index after the new object is hashed and before the slot points to it. *)
Definition with_entry (slot ino : Z) (entry : option Z) (ix : dir_index) : dir_index :=
  match entry with
  | Some k => set_di_names (<[k := DirName ino slot]> (di_names ix)) ix
  | None => ix
  end.

(** The entry the slot holds afterwards. *)
Definition new_entry (ino : Z) (old entry : option Z) : option Z :=
  if ino =? 0 then None else match entry with Some k => Some k | None => old end.

Section SetCache.
Context (ix : dir_index) (slot ino : Z) (entry : option Z).
Context (Hok : index_ok ix) (Hslot : 0 <= slot < dir_slots ix) (Hino : is_u32 ino).
Context (Hnew : forall k, entry = Some k -> ino <> 0 /\ di_names ix !! k = None /\ key_ok k).
Context (Hold : ino <> 0 -> entry = None -> is_Some (di_entries ix !! slot)).

Let old := di_entries ix !! slot.
Let ix' := dir_set_cache slot ino old entry (with_entry slot ino entry ix).
Let new := new_entry ino old entry.

Lemma set_cache_names :
  di_names ix' = match new with
                 | Some k => <[k := DirName ino slot]> (delete_old old (di_names ix))
                 | None => delete_old old (di_names ix)
                 end.
Proof.
  subst ix' new. unfold dir_set_cache, new_entry, with_entry.
  destruct (Z.eqb_spec ino 0) as [->|Hi]; cbn [negb orb].
  - destruct entry as [k|]; [by destruct (Hnew k eq_refl)|]. cbn. by destruct old.
  - destruct entry as [k|].
    + destruct (Hnew k eq_refl) as (_ & Hn & _). rewrite bool_decide_eq_true_2 by done. cbn.
      assert (delete_old old (<[k := DirName ino slot]> (di_names ix)) =
              <[k := DirName ino slot]> (delete_old old (di_names ix))) as E.
      { unfold delete_old. destruct old as [k'|] eqn:Eo; [|done]. apply delete_insert_ne.
        intros ->. destruct (ok_entry ix Hok slot k Eo) as (e & He & _). congruence. }
      unfold delete_old in *. destruct old as [k'|]; cbn; case_match; cbn; try rewrite E;
        apply map_eq; intros j; rewrite lookup_alter, !lookup_insert; repeat case_decide; done.
    + rewrite bool_decide_eq_false_2 by (by intros [? ?]). cbn.
      destruct (Hold Hi eq_refl) as [k Hk]. fold old in Hk. rewrite Hk. cbn.
      destruct (ok_entry ix Hok slot k Hk) as (e & He & Hs).
      case_match; cbn; apply map_eq; intros j; rewrite lookup_alter, lookup_insert, lookup_delete;
        case_decide as Ej; try done; subst j; rewrite He; cbn; by rewrite Hs.
Qed.

Lemma set_cache_entries : di_entries ix' = partial_alter (fun _ => new) slot (di_entries ix).
Proof.
  subst ix' new. unfold dir_set_cache, new_entry, with_entry.
  destruct (Z.eqb_spec ino 0) as [->|Hi]; cbn [negb orb].
  - destruct entry as [k|]; [by destruct (Hnew k eq_refl)|]. by destruct old.
  - destruct entry as [k|]; [rewrite bool_decide_eq_true_2 by done|
      rewrite bool_decide_eq_false_2 by (by intros [? ?])]; cbn; repeat case_match; done.
Qed.

Lemma set_cache_used : forall s, 0 <= s ->
  test_bit (di_used ix') s = if s =? slot then negb (ino =? 0) else test_bit (di_used ix) s.
Proof.
  intros s Hs.
  assert (di_used ix' = if ino =? 0 then bitmap_clear (di_used ix) slot 1
                        else bitmap_set (di_used ix) slot 1) as ->.
  { subst ix'. unfold dir_set_cache, with_entry.
    destruct (ino =? 0), entry; cbn -[bitmap_set bitmap_clear]; repeat case_match; done. }
  destruct (ino =? 0); rewrite ?bitmap_clear_testbit, ?bitmap_set_testbit by lia; cbn [negb];
    destruct (Z.eqb_spec s slot) as [->|Hne].
  - rewrite Z.leb_refl. destruct (Z.ltb_spec slot (slot + 1)); [|lia]. by rewrite andb_false_r.
  - destruct (Z.leb_spec slot s), (Z.ltb_spec s (slot + 1)); cbn; try lia; by rewrite ?andb_true_r.
  - rewrite Z.leb_refl. destruct (Z.ltb_spec slot (slot + 1)); [|lia]. done.
  - destruct (Z.leb_spec slot s), (Z.ltb_spec s (slot + 1)); cbn; try lia; done.
Qed.

Lemma set_cache_next : di_next_free ix' =
  if ino =? 0 then Z.min (di_next_free ix) slot
  else if slot =? di_next_free ix then di_next_free ix + 1 else di_next_free ix.
Proof.
  assert (u32 (di_next_free ix + 1) = di_next_free ix + 1 \/ slot <> di_next_free ix) as Hu.
  { destruct (decide (slot = di_next_free ix)); [left|by right]. apply u32_id.
    pose proof (slots_exact ix (ok_blocks ix Hok)) as E. unfold is_u32, U32_MAX.
    pose proof (ok_blocks ix Hok). change SIMPLEFS_MAX_DIR_BLOCKS with 1048575 in *. lia. }
  subst ix'. unfold dir_set_cache, with_entry.
  assert (E : di_next_free (match entry with Some k => set_di_names (<[k := DirName ino slot]> (di_names ix)) ix
    | None => ix end) = di_next_free ix) by (by destruct entry).
  destruct (ino =? 0); cbn [negb]; repeat case_match; cbn in *; bool_hyps;
    try rewrite E in *; try done; repeat case_match; bool_hyps; try lia; try congruence.
Qed.

Lemma set_cache_blocks : di_blocks ix' = di_blocks ix.
Proof.
  subst ix'. unfold dir_set_cache, with_entry. destruct entry; cbn; repeat case_match; done.
Qed.

Lemma set_cache_capacity : di_capacity ix' = di_capacity ix.
Proof.
  subst ix'. unfold dir_set_cache, with_entry. destruct entry; cbn; repeat case_match; done.
Qed.

Lemma new_key_free k : new = Some k -> delete_old old (di_names ix) !! k = None /\ key_ok k /\ ino <> 0.
Proof.
  subst new. unfold new_entry. destruct (Z.eqb_spec ino 0); [done|].
  destruct entry as [k'|] eqn:Ee; intros Hk; simplify_eq.
  - destruct (Hnew k eq_refl) as (? & Hn & ?). split; [|done].
    unfold delete_old. destruct old; [|done]. rewrite lookup_delete. by case_decide.
  - rewrite Hk. cbn. split; [apply lookup_delete_eq|]. split; [|done].
    destruct (ok_entry ix Hok slot k Hk) as (e & He & _). apply (ok_name ix Hok k e He).
Qed.

(** An object of the table other than the slot's old one sits in another slot. *)
Lemma kept_name k e : delete_old old (di_names ix) !! k = Some e ->
  di_names ix !! k = Some e /\ dn_slot e <> slot.
Proof.
  intros H. assert (Hk : di_names ix !! k = Some e).
  { unfold delete_old in H. destruct old; [|done]. rewrite lookup_delete in H. by case_decide. }
  split; [done|]. intros Hs. destruct (ok_name ix Hok k e Hk) as (He & _). rewrite Hs in He.
  unfold delete_old in H. fold old in He. rewrite He in H. by rewrite lookup_delete_eq in H.
Qed.

Lemma other_slot_kept s k : s <> slot -> di_entries ix !! s = Some k ->
  delete_old old (di_names ix) !! k = di_names ix !! k.
Proof.
  intros Hs Hk. unfold delete_old. destruct old as [k'|] eqn:Eo; [|done].
  rewrite lookup_delete_ne; [done|]. intros ->.
  destruct (ok_entry ix Hok s k Hk) as (e & He & E1).
  destruct (ok_entry ix Hok slot k Eo) as (e' & He' & E2). congruence.
Qed.

Lemma set_cache_contents :
  contents ix' = match new with
                 | Some k => <[k := ino]> (delete_old old (contents ix))
                 | None => delete_old old (contents ix)
                 end.
Proof.
  unfold contents. rewrite set_cache_names. unfold delete_old.
  destruct new, old; by rewrite ?fmap_insert, ?fmap_delete.
Qed.

Lemma set_cache_in_index s :
  in_index ix' s = if decide (s = slot) then option_map (fun k => (k, ino)) new else in_index ix s.
Proof.
  unfold in_index. rewrite set_cache_names, set_cache_entries, lookup_partial_alter.
  case_decide as E; case_decide as E'; try congruence.
  - destruct new as [k|]; [|done]. by rewrite lookup_insert_eq.
  - destruct (di_entries ix !! s) as [k|] eqn:Ek; [|done].
    pose proof (other_slot_kept s k E' Ek) as H.
    destruct (ok_entry ix Hok s k Ek) as (e & He & _).
    destruct new as [k'|] eqn:En; [|by rewrite H].
    destruct (new_key_free k' En) as (Hf & _). rewrite lookup_insert_ne; [by rewrite H|].
    intros ->. rewrite Hf, He in H. done.
Qed.

Lemma set_cache_ok : index_ok ix'.
Proof.
  assert (Hslots : dir_slots ix' = dir_slots ix)
    by (unfold dir_slots, di_nr_blocks; by rewrite set_cache_blocks).
  assert (Hnewsome : new <> None <-> ino <> 0).
  { subst new. unfold new_entry. destruct (Z.eqb_spec ino 0); [split; [done|lia]|].
    destruct entry as [k|]; [done|]. destruct (Hold n eq_refl) as [k Hk].
    fold old in Hk. rewrite Hk. done. }
  split.
  - intros s k. rewrite set_cache_entries, set_cache_names, lookup_partial_alter. case_decide as E.
    + intros En. rewrite En, lookup_insert_eq. eexists. by split.
    + intros Ek. pose proof (other_slot_kept s k (not_eq_sym E) Ek) as H.
      destruct (ok_entry ix Hok s k Ek) as (e & He & Hs). exists e. split; [|done].
      destruct new as [k'|] eqn:En; [|by rewrite H].
      destruct (new_key_free k' En) as (Hf & _). rewrite lookup_insert_ne; [by rewrite H|].
      intros ->. rewrite Hf, He in H. done.
  - intros k e. rewrite set_cache_entries, set_cache_names, Hslots.
    assert (Hkept : delete_old old (di_names ix) !! k = Some e ->
      partial_alter (fun _ => new) slot (di_entries ix) !! dn_slot e = Some k /\
      0 <= dn_slot e < dir_slots ix /\ 0 < dn_ino e <= U32_MAX /\ key_ok k).
    { intros H. destruct (kept_name k e H) as [Hk Hs].
      rewrite lookup_partial_alter_ne by done. apply (ok_name ix Hok k e Hk). }
    destruct new as [k'|] eqn:En; [|exact Hkept]. rewrite lookup_insert. case_decide; [|exact Hkept].
    intros [= <-]. subst k'. destruct (new_key_free k En) as (_ & Hk & Hi). cbn.
    rewrite lookup_partial_alter_eq. unfold is_u32 in Hino. split_and!; try done; lia.
  - intros s Hs. rewrite set_cache_used, set_cache_entries by lia.
    rewrite lookup_partial_alter. destruct (Z.eqb_spec s slot) as [->|Hne].
    + rewrite decide_True by done. destruct (Z.eqb_spec ino 0) as [E|E]; cbn [negb]; symmetry.
      * apply bool_decide_eq_false_2. intros [k Hk]. apply (proj1 Hnewsome); [congruence|done].
      * apply bool_decide_eq_true_2. apply not_eq_None_Some. by apply Hnewsome.
    + rewrite decide_False by done. by apply (ok_used ix Hok).
  - destruct (ok_next ix Hok) as [Hn Hall]. rewrite Hslots, set_cache_next. split.
    + destruct (_ =? 0), (Z.eqb_spec slot (di_next_free ix)); lia.
    + intros s Hs. rewrite set_cache_used by lia.
      destruct (Z.eqb_spec s slot) as [->|Hne]; destruct (Z.eqb_spec ino 0); cbn [negb]; try lia.
      * apply Hall. lia.
      * apply Hall. destruct (Z.eqb_spec slot (di_next_free ix)); lia.
  - unfold di_nr_blocks. rewrite set_cache_blocks. apply (ok_blocks ix Hok).
  - unfold di_nr_blocks. rewrite set_cache_blocks, set_cache_capacity. apply (ok_capacity ix Hok).
Qed.

End SetCache.

(** ** The directory on disk *)

Section Refine.
Context {K : Kernel}.

Definition index_at (w : world) (dir : Z) : dir_index :=
  default di_empty (i_dir_index (inode_of w dir)).

Definition slot_block (ix : dir_index) (s : Z) : Z :=
  default 0 (di_blocks ix !! Z.to_nat (s / SIMPLEFS_FILES_PER_BLOCK)).

Definition on_disk (w : world) (ix : dir_index) (s : Z) : option (Z * Z) :=
  let img := block_image w (slot_block ix s) in
  let off := file_off s in
  if file_inode img off =? 0 then None else Some (file_name img off, file_inode img off).

(** The cache says of every slot what its block says. *)
Definition index_matches (w : world) (ix : dir_index) : Prop :=
  forall s, 0 <= s < dir_slots ix -> on_disk w ix s = in_index ix s.

Lemma index_at_store w w' dir : w_inodes w' = w_inodes w -> index_at w' dir = index_at w dir.
Proof. unfold index_at, inode_of. by intros ->. Qed.

Lemma index_at_put w dir ix i :
  index_at (set_w_inodes (<[dir := set_i_dir_index (Some ix) i]> (w_inodes w)) w) dir = ix.
Proof. unfold index_at, inode_of. cbn. by rewrite lookup_insert_eq. Qed.

Lemma matches_ext w w' ix ix' : w_bdev w' = w_bdev w -> di_blocks ix' = di_blocks ix ->
  (forall s, in_index ix' s = in_index ix s) -> index_matches w ix -> index_matches w' ix'.
Proof.
  intros Hb Hbl Hin H s Hs. rewrite Hin, <- H.
  - unfold on_disk, slot_block, block_image. by rewrite Hb, Hbl.
  - unfold dir_slots, di_nr_blocks in *. by rewrite Hbl in Hs.
Qed.

(** Storing an entry changes its slot and no other. *)
Lemma on_disk_put w w' ix slot ino k : NoDup (di_blocks ix) -> 0 <= slot < dir_slots ix ->
  di_nr_blocks ix <= SIMPLEFS_MAX_DIR_BLOCKS -> is_u32 ino -> (ino <> 0 -> key_ok k) ->
  w_bdev w' = <[slot_block ix slot :=
    put_file (block_image w (slot_block ix slot)) (file_off slot) ino k]> (w_bdev w) ->
  forall s, 0 <= s < dir_slots ix -> on_disk w' ix s =
    if decide (s = slot) then (if ino =? 0 then None else Some (k, ino)) else on_disk w ix s.
Proof.
  intros Hnd Hslot Hmax Hi Hk Hw s Hs. rewrite (slots_exact ix Hmax) in *.
  assert (Hb : forall n, block_image w' n = if decide (slot_block ix slot = n)
    then put_file (block_image w (slot_block ix slot)) (file_off slot) ino k else block_image w n).
  { intros n. unfold block_image at 1. rewrite Hw, lookup_insert. by case_decide. }
  pose proof (file_off_bounds slot) as Ho. unfold on_disk. rewrite Hb.
  destruct (decide (s = slot)) as [->|Hd].
  - rewrite decide_True by done. rewrite put_file_inode by (done || lia).
    destruct (Z.eqb_spec ino 0); [done|]. by rewrite put_file_name by (auto || lia).
  - case_decide as E; [|done]. rewrite <- E.
    assert (Hblk : slot / 15 = s / 15).
    { assert (H1 : forall x, 0 <= x < di_nr_blocks ix * 15 ->
        0 <= x / 15 /\ exists b, di_blocks ix !! Z.to_nat (x / 15) = Some b /\ slot_block ix x = b).
      { intros x Hx. split; [apply Z.div_pos; lia|].
        destruct (lookup_lt_is_Some_2 (di_blocks ix) (Z.to_nat (x / 15))) as [b Hbx].
        - assert (x / 15 < di_nr_blocks ix) by (apply Z.div_lt_upper_bound; lia).
          unfold di_nr_blocks in *. lia.
        - exists b. split; [done|]. unfold slot_block. change SIMPLEFS_FILES_PER_BLOCK with 15.
          by rewrite Hbx. }
      destruct (H1 slot Hslot) as (P1 & b1 & L1 & E1), (H1 s Hs) as (P2 & b2 & L2 & E2).
      assert (b1 = b2) as -> by congruence.
      pose proof (NoDup_lookup _ _ _ _ Hnd L1 L2). lia. }
    destruct (put_file_other (block_image w (slot_block ix slot)) slot s ino k) as [-> ->];
      [lia|lia|congruence|done|]. done.
Qed.

Lemma journal_fail_spec e w :
  wp (simplefs_journal_fail e) (fun _ w' => s_shutdown (w_sbi w') = true /\ store w' = store w) w.
Proof.
  apply wp_conj; [|apply store_wp; intros; pres].
  unfold simplefs_journal_fail, simplefs_journal_mark_shutdown. kwpc; done.
Qed.

Lemma set_insert_spec dir slot ino name w :
  let ix := index_at w dir in
  let old := di_entries ix !! slot in
  index_ok ix -> (forall q, name = Some q -> qstr_ok q) ->
  wp (set_insert dir slot ino name ix) (fun re w' => let '(r, entry) := re in
    w_bdev w' = w_bdev w /\
    (r <> 0 -> index_at w' dir = ix) /\
    (r = 0 -> index_at w' dir = with_entry slot ino entry ix /\
       (forall k, entry = Some k -> ino <> 0 /\ di_names ix !! k = None /\ key_ok k) /\
       (forall q, name = Some q -> ino <> 0 -> new_entry ino old entry = Some (qstr_key q) /\
          (old <> Some (qstr_key q) -> contents ix !! qstr_key q = None)) /\
       (name = None -> entry = None))) w.
Proof.
  intros ix old Hok Hq. unfold set_insert. fold old.
  destruct name as [q|]; [|kwp; split_and!; done].
  specialize (Hq q eq_refl). destruct (negb _ && _) eqn:Hc.
  - apply andb_true_iff in Hc as [Hi Hd]. bool_hyps.
    assert (Hno : old <> Some (qstr_key q)).
    { intros E. rewrite E in Hd. rewrite name_differs_spec in Hd; [|by apply qstr_key_ok|done].
      by rewrite Z.eqb_refl in Hd. }
    kwp. destruct (negb _); kwp; [split_and!; done|]. unfold rhash_insert, put_index.
    destruct (di_names ix !! qstr_key q) as [e|] eqn:Hn; kwp.
    + split_and!; [done|intros _; apply index_at_put|done].
    + destruct (negb _) eqn:Hr; kwp; bool_hyps.
      * split_and!; [done|intros _; apply index_at_put|done].
      * split_and!; [done|done|]. intros _. split; [apply index_at_put|]. split_and!; try done.
        -- intros k' [= <-]. split_and!; [done..|by apply qstr_key_ok].
        -- intros q' [= <-] _. unfold new_entry. destruct (Z.eqb_spec ino 0); [done|].
           split; [done|]. intros _. unfold contents. by rewrite lookup_fmap, Hn.
  - kwp. split_and!; try done. intros _. split_and!; try done.
    intros q' [= <-] Hi. unfold new_entry. destruct (Z.eqb_spec ino 0); [done|]. cbn [negb andb] in Hc.
    destruct old as [k|] eqn:Eo; [|done].
    destruct (ok_entry ix Hok slot k Eo) as (e & He & _).
    rewrite name_differs_spec in Hc; [|apply (ok_name ix Hok k e He)|done].
    apply negb_false_iff, Z.eqb_eq in Hc as ->. done.
Qed.

(** What a stored entry does to the directory. *)
Definition stored (ino : Z) (name : option qstr) (old : option Z) (c c' : gmap Z Z) : Prop :=
  if ino =? 0 then c' = delete_old old c
  else exists k, k = match name with Some q => qstr_key q | None => default 0 old end /\
       c' = <[k := ino]> (delete_old old c) /\ (old <> Some k -> c !! k = None).

Definition set_post (dir slot ino : Z) (name : option qstr) (w : world) (r : Z) (w' : world) : Prop :=
  let ix := index_at w dir in
  let ix' := index_at w' dir in
  index_ok ix' /\ di_blocks ix' = di_blocks ix /\ di_nr_files ix' = di_nr_files ix /\
  if r =? 0 then
    di_valid ix' = di_valid ix /\
    (index_matches w ix -> NoDup (di_blocks ix) -> index_matches w' ix') /\
    stored ino name (di_entries ix !! slot) (contents ix) (contents ix')
  else contents ix' = contents ix /\
    (di_valid ix' = di_valid ix /\ (index_matches w ix -> index_matches w' ix') \/
     s_shutdown (w_sbi w') = true).

(** Undoing the insertion gives the old table back. *)
Lemma undo_spec dir slot ino entry ix v (r : Z) w :
  (forall k, entry = Some k -> di_names ix !! k = None) ->
  index_at w dir = set_di_valid v (with_entry slot ino entry ix) ->
  wp (run! match entry with
           | Some k => upd_index dir (fun ix => set_di_names (delete k (di_names ix)) ix)
           | None => ret tt
           end in ret r)
     (fun r' w' => r' = r /\ index_at w' dir = set_di_valid v ix /\ w_bdev w' = w_bdev w /\
        w_sbi w' = w_sbi w) w.
Proof.
  intros H E. destruct entry as [k|]; cbn [with_entry] in E; [|kwp; by rewrite E].
  unfold upd_index, get_index, put_index. kwp. split; [done|]. split; [|done].
  rewrite index_at_put. fold (index_at w dir). rewrite E. cbn.
  rewrite delete_insert_id by (by apply H). done.
Qed.

Lemma set_valid_ok ix b : index_ok ix -> index_ok (set_di_valid b ix).
Proof. intros []. by split. Qed.

Lemma dir_set_spec dir slot ino name w :
  let ix := index_at w dir in
  index_ok ix -> 0 <= slot -> is_u32 ino -> (forall q, name = Some q -> qstr_ok q) ->
  wp (simplefs_dir_set dir slot ino name) (set_post dir slot ino name w) w.
Proof.
  intros ix Hok Hs Hi Hq. unfold simplefs_dir_set. apply wp_bind. unfold get_index at 1.
  apply wp_gets. fold (index_at w dir). fold ix.
  assert (Hfail : forall r w', r <> 0 -> w_bdev w' = w_bdev w -> index_at w' dir = ix ->
    set_post dir slot ino name w r w').
  { intros r w' Hr Hb E. unfold set_post. fold ix. rewrite E. destruct (Z.eqb_spec r 0); [done|].
    split_and!; try done. left. split; [done|]. by apply (matches_ext w w' ix ix). }
  destruct (_ <=? slot) eqn:Hlt; [by apply wp_ret, Hfail|].
  destruct (match name with Some q => _ | None => _ end); [by apply wp_ret, Hfail|].
  destruct (negb (ino =? 0) && _ && _) eqn:Hnone; [by apply wp_ret, Hfail|].
  apply wp_bind. eapply wp_mono; [apply set_insert_spec; done|]. fold ix.
  intros [r entry] w1 (Hb1 & Hbad & Hgood). destruct (Z.eqb_spec r 0) as [->|Hr]; cbn [negb];
    [|by apply wp_ret, Hfail; auto].
  destruct (Hgood eq_refl) as (E1 & Hent & Hname & Hno). clear Hbad Hgood. bool_hyps.
  fold (slot_block ix slot). set (bno := slot_block ix slot).
  set (old := di_entries ix !! slot) in *.
  assert (Hold : ino <> 0 -> entry = None -> is_Some old).
  { intros Hn He. destruct name as [q|].
    - destruct (Hname q eq_refl Hn) as [H _]. unfold new_entry in H.
      destruct (Z.eqb_spec ino 0); [done|]. by rewrite He in H.
    - apply not_eq_None_Some. intros Eo. rewrite !bool_decide_eq_true_2 in Hnone by done.
      by destruct (Z.eqb_spec ino 0). }
  assert (Hfree : forall k, entry = Some k -> di_names ix !! k = None) by (intros; by apply Hent).
  assert (Hkey : ino <> 0 -> key_ok match entry with Some k => k | None => default 0 old end).
  { intros Hn. destruct entry as [k|] eqn:Ee; [by apply Hent|].
    destruct (Hold Hn eq_refl) as [k Ek]. rewrite Ek. destruct (ok_entry ix Hok slot k Ek) as (e & He & _).
    apply (ok_name ix Hok k e He). }
  apply wp_bind. eapply wp_mono; [apply store_wp; intros; pres|].
  intros r w2 [Eb2 Ei2]%store_inv. rewrite <- (index_at_store w1 w2) in E1 by done.
  destruct (IS_ERR r) eqn:Hr.
  { eapply wp_mono; [apply (undo_spec dir slot ino entry ix (di_valid ix) r w2 Hfree)|].
    - rewrite E1. by destruct entry, ix.
    - intros r' w' (-> & E & Eb & _). apply Hfail; [|congruence|by rewrite E; destruct ix].
      unfold IS_ERR in Hr. bool_hyps. lia. }
  kwp. eapply wp_mono; [apply store_wp; intros; pres|].
  intros r3 w3 [Eb3 Ei3]%store_inv. cbn in Eb3, Ei3.
  assert (E3 : index_at w3 dir = with_entry slot ino entry ix)
    by (rewrite <- E1; by apply index_at_store).
  destruct (Z.eqb_spec r3 0) as [->|Hr3]; cbn [negb].
  - unfold upd_index, get_index, put_index. kwp. fold (index_at w3 dir). rewrite E3.
    unfold set_post. rewrite index_at_put. fold ix old. cbn [Z.eqb].
    assert (Hr0 : 0 <= slot < dir_slots ix) by lia.
    set (ix2 := dir_set_cache slot ino old entry (with_entry slot ino entry ix)).
    assert (CB : di_blocks ix2 = di_blocks ix) by (by apply set_cache_blocks).
    assert (CI : forall s, in_index ix2 s = if decide (s = slot)
      then option_map (fun k => (k, ino)) (new_entry ino old entry) else in_index ix s)
      by (intros; by apply set_cache_in_index).
    assert (CC : contents ix2 = match new_entry ino old entry with
      | Some k => <[k := ino]> (delete_old old (contents ix))
      | None => delete_old old (contents ix) end) by (by apply set_cache_contents).
    split; [by apply set_cache_ok|]. rewrite CB.
    split; [done|]. split; [unfold ix2, dir_set_cache, with_entry; destruct entry; cbn; by repeat case_match|].
    assert (Hnew : new_entry ino old entry = if ino =? 0 then None else
      Some match entry with Some k => k | None => default 0 old end).
    { unfold new_entry. destruct (Z.eqb_spec ino 0) as [|Hn]; [done|]. destruct entry as [k'|]; [done|].
      by destruct (Hold Hn eq_refl) as [k' ->]. }
    split; [unfold ix2, dir_set_cache, with_entry; destruct entry; cbn; by repeat case_match|].
    split.
    + intros Hm Hnd s Hs'. rewrite CI. rewrite Hnew.
      assert (E : dir_slots ix2 = dir_slots ix)
        by (unfold dir_slots, di_nr_blocks; by rewrite CB).
      rewrite E in Hs'. unfold on_disk, slot_block. rewrite CB. fold (slot_block ix s).
      match goal with |- context [block_image ?w' _] =>
        pose proof (on_disk_put w w' ix slot ino match entry with Some k => k | None => default 0 old end
          Hnd Hr0 (ok_blocks ix Hok) Hi) as HP end.
      unfold on_disk in HP. rewrite HP; [|intros Hn; by apply Hkey| |done].
      * case_decide; [by destruct (ino =? 0)|]. by apply Hm.
      * cbn. rewrite Eb3, Eb2, Hb1. do 2 f_equal. unfold block_image. by rewrite Eb2, Hb1.
    + unfold stored. rewrite CC. rewrite Hnew.
      destruct (Z.eqb_spec ino 0) as [|Hn]; [done|]. eexists. split; [reflexivity|].
      destruct name as [q|].
      * destruct (Hname q eq_refl Hn) as [Hk Hf]. rewrite Hnew in Hk.
        destruct (Z.eqb_spec ino 0); [done|]. injection Hk as ->. by split.
      * rewrite (Hno eq_refl) in *. destruct (Hold Hn eq_refl) as [k' Ek]. rewrite Ek. by split.
  - unfold upd_index at 1, get_index, put_index. kwp.
    eapply wp_mono; [apply journal_fail_spec|]. intros _ w4 (Hs4 & Hst4).
    apply store_inv in Hst4 as [Eb4 Ei4].
    eapply wp_mono; [apply (undo_spec dir slot ino entry ix false r3 w4 Hfree)|].
    + rewrite (index_at_store _ _ dir Ei4), index_at_put. fold (index_at w3 dir). by rewrite E3.
    + intros r' w' (-> & E & Eb & Es). unfold set_post. fold ix. rewrite E.
      destruct (Z.eqb_spec r3 0); [done|].
      split_and!; try done; [by apply set_valid_ok|]. right. by rewrite Es.
Qed.

(** *** Building the cache from the blocks *)

(** 32 doublings from 4 reach every size a directory may have. *)
Lemma dir_capacity_spec f : forall c b, 1 <= c -> b <= SIMPLEFS_MAX_DIR_BLOCKS ->
  c <= dir_capacity f c b /\ (c <= SIMPLEFS_MAX_DIR_BLOCKS -> dir_capacity f c b <= SIMPLEFS_MAX_DIR_BLOCKS /\
    (b <= c * 2 ^ Z.of_nat f -> b <= dir_capacity f c b)).
Proof.
  change SIMPLEFS_MAX_DIR_BLOCKS with 1048575.
  induction f as [|f IH]; intros c b Hc Hb; cbn [dir_capacity]; [split; [lia|]; intros; split; [done|]; intros; lia|].
  destruct (Z.ltb_spec c b); [|split; [lia|]; intros; lia].
  rewrite u32_id by (unfold is_u32, U32_MAX; lia). change SIMPLEFS_MAX_DIR_BLOCKS with 1048575.
  destruct (IH (Z.min (c * 2) 1048575) b ltac:(lia) Hb) as [H1 H2]. split; [lia|]. intros Hm.
  destruct H2 as [H2 H3]; [lia|]. split; [done|]. intros Hp.
  destruct (Z.le_gt_cases 1048575 (c * 2)); [lia|]. apply H3. rewrite Z.min_l by lia.
  rewrite Nat2Z.inj_succ, Z.pow_succ_r in Hp by lia. lia.
Qed.

Lemma reserve_spec ix b w :
  wp (simplefs_dir_reserve ix b) (fun ri w' => let '(r, ix') := ri in
    store w' = store w /\ (r = 0 -> b <= SIMPLEFS_MAX_DIR_BLOCKS /\
      (di_capacity ix <= SIMPLEFS_MAX_DIR_BLOCKS -> b <= di_capacity ix')) /\
    (di_capacity ix <= SIMPLEFS_MAX_DIR_BLOCKS ->
       di_capacity ix <= di_capacity ix' <= SIMPLEFS_MAX_DIR_BLOCKS) /\ di_valid ix' = di_valid ix /\
    di_names ix' = di_names ix /\ di_blocks ix' = di_blocks ix /\ di_nr_files ix' = di_nr_files ix /\
    di_next_free ix' = di_next_free ix /\ di_mapping ix' = di_mapping ix /\
    (forall s, s < dir_slots ix -> di_capacity ix <> 0 -> di_entries ix' !! s = di_entries ix !! s) /\
    (forall s k, di_entries ix' !! s = Some k -> di_entries ix !! s = Some k) /\
    (forall s, 0 <= s < dir_slots ix -> di_capacity ix <> 0 -> test_bit (di_used ix') s = test_bit (di_used ix) s) /\
    (forall s, 0 <= s -> test_bit (di_used ix') s = true -> test_bit (di_used ix) s = true) /\
    (di_used ix = 0 -> di_used ix' = 0)) w.
Proof.
  unfold simplefs_dir_reserve.
  destruct (_ <? b) eqn:Hb; [apply wp_ret; split_and!; done|]. bool_hyps.
  destruct (Z.leb_spec b (di_capacity ix)); [apply wp_ret; split_and!; try done; lia|].
  kwp. destruct (_ || _ || _); kwp; [split_and!; done|].
  pose proof (dir_capacity_spec 32 (Z.max 4 (di_capacity ix)) b ltac:(lia) Hb) as [Hc1 Hc2].
  change SIMPLEFS_MAX_DIR_BLOCKS with 1048575 in *. split_and!; try done; cbn -[dir_capacity Z.pow] in *.
  - intros _. split; [done|]. intros Hm. destruct Hc2 as [Hc2 Hc3]; [lia|]. apply Hc3.
    change (2 ^ Z.of_nat 32) with 4294967296. lia.
  - lia.
  - intros s Hs Hc. destruct (Z.eqb_spec (di_capacity ix) 0); [done|].
    destruct (di_entries ix !! s) as [k'|] eqn:E.
    + by apply map_lookup_filter_Some_2.
    + apply map_lookup_filter_None_2. by left.
  - intros s k'. destruct (_ =? 0); [done|]. by intros [? _]%map_lookup_filter_Some.
  - intros s Hs Hc. destruct (Z.eqb_spec (di_capacity ix) 0); [done|].
    unfold test_bit. rewrite slice_testbit by lia. rewrite Z.add_0_r.
    destruct (Z.ltb_spec s (dir_slots ix)); [done|lia].
  - intros s Hs. destruct (_ =? 0); [unfold test_bit; by rewrite Z.testbit_0_l|].
    pose proof (u32_range (di_nr_blocks ix * SIMPLEFS_FILES_PER_BLOCK)) as [Hd _]. fold (dir_slots ix) in Hd.
    unfold test_bit. rewrite slice_testbit by lia. rewrite Z.add_0_r. by intros [_ ?]%andb_true_iff.
  - intros ->. destruct (_ =? 0); [done|]. apply slice_0; [lia|]. unfold dir_slots. apply u32_range.
Qed.

(** An index with a block map and no entry yet. *)
Definition unfilled (ix : dir_index) : Prop :=
  di_names ix = ∅ /\ di_entries ix = ∅ /\ di_used ix = 0 /\ di_nr_files ix = 0 /\
  di_next_free ix = 0 /\ di_nr_blocks ix <= di_capacity ix <= SIMPLEFS_MAX_DIR_BLOCKS.

Lemma build_map_spec l : forall ix w, unfilled ix ->
  wp (build_map l ix) (fun ri w' => let '(r, ix') := ri in
    store w' = store w /\ (r = 0 -> unfilled ix')) w.
Proof.
  induction l as [|e l IH]; intros ix w Hu; cbn [build_map]; [by apply wp_ret|].
  kwp. destruct (_ || _); [by apply wp_ret|].
  apply wp_bind. eapply wp_mono; [apply reserve_spec|].
  intros [r ix'] w1 (Hst & Hmax & Hcm & _ & En & Eb & Ef & Ex & Em & _ & Hent & _ & _ & Hused).
  destruct (Z.eqb_spec r 0) as [->|]; cbn [negb]; [|by apply wp_ret].
  destruct Hu as (U1 & U2 & U3 & U4 & U5 & U6). pose proof (ext_len_bounds e) as Hl.
  unfold SIMPLEFS_MAX_BLOCKS_PER_EXTENT in Hl. change SIMPLEFS_MAX_DIR_BLOCKS with 1048575 in *.
  assert (Hu' : unfilled (set_di_blocks (di_blocks ix' ++ seqZ (ee_start e) (simplefs_ext_len e)) ix')).
  { split_and!; cbn; try congruence; try auto.
    - apply map_empty. intros s. destruct (di_entries ix' !! s) as [k|] eqn:E; [|done].
      apply Hent in E. rewrite U2 in E. done.
    - specialize (Hmax eq_refl). unfold di_nr_blocks in *. cbn. rewrite length_app, length_seqZ, Eb.
      rewrite u32_id in Hmax by (unfold is_u32, U32_MAX; lia). lia.
    - apply Hcm. lia. }
  eapply wp_mono; [by apply IH|]. intros [r2 ix2] w2 [H1 H2]. split; [congruence|done].
Qed.

(** The entries of the slots below [n] are in the cache. *)
Record built (w : world) (ix : dir_index) (n : Z) : Prop := Built {
  bl_entry : forall s k, di_entries ix !! s = Some k ->
             exists e, di_names ix !! k = Some e /\ dn_slot e = s;
  bl_name : forall k e, di_names ix !! k = Some e ->
             di_entries ix !! dn_slot e = Some k /\ 0 <= dn_slot e < n /\
             0 < dn_ino e <= U32_MAX /\ key_ok k;
  bl_used : forall s, 0 <= s -> test_bit (di_used ix) s = bool_decide (is_Some (di_entries ix !! s));
  bl_disk : forall s, 0 <= s < n -> on_disk w ix s = in_index ix s;
  bl_files : di_nr_files ix = Z.of_nat (size (di_names ix)) /\ Z.of_nat (size (di_names ix)) <= n;
  bl_next : di_next_free ix = 0;
  bl_capacity : di_nr_blocks ix <= di_capacity ix <= SIMPLEFS_MAX_DIR_BLOCKS
}.

Lemma built_none w ix n : built w ix n -> forall s, n <= s -> di_entries ix !! s = None.
Proof.
  intros H s Hs. destruct (di_entries ix !! s) as [k|] eqn:E; [|done].
  destruct (bl_entry _ _ _ H s k E) as (e & He & <-).
  destruct (bl_name _ _ _ H k e He) as (_ & ? & _). lia.
Qed.

(** An empty slot. *)
Lemma built_skip w ix n : built w ix n -> 0 <= n ->
  file_inode (block_image w (slot_block ix n)) (file_off n) = 0 -> built w ix (n + 1).
Proof.
  intros H Hn Hz. pose proof (built_none w ix n H n ltac:(lia)) as Hnone. destruct H. split; try done.
  - intros k e He. destruct (bl_name0 k e He) as (? & ? & ? & ?). split_and!; try done; lia.
  - intros s Hs. destruct (decide (s = n)) as [->|]; [|apply bl_disk0; lia].
    unfold on_disk, in_index. by rewrite Hz, Hnone.
  - lia.
Qed.

(** A used slot, whose name is new. *)
Lemma built_add w ix n : built w ix n -> 0 <= n ->
  let img := block_image w (slot_block ix n) in
  let ino := file_inode img (file_off n) in
  let key := file_name img (file_off n) in
  ino <> 0 -> di_names ix !! key = None -> n < U32_MAX ->
  built w (set_di_nr_files (u32 (di_nr_files ix + 1))
    (set_di_used (bitmap_set (di_used ix) n 1)
      (set_di_entries (<[n := key]> (di_entries ix))
        (set_di_names (<[key := DirName ino n]> (di_names ix)) ix)))) (n + 1).
Proof.
  intros H Hn img ino key Hi Hfree Hmax. pose proof (built_none w ix n H n ltac:(lia)) as Hnone.
  destruct H. pose proof (get_u32_range img (file_off n) : is_u32 ino) as Hu.
  split; cbn; try done.
  - intros s k. rewrite lookup_insert. case_decide as E.
    + intros [= <-]. rewrite lookup_insert_eq. eexists. by split.
    + intros Hk. destruct (bl_entry0 s k Hk) as (e & He & Hs). exists e. split; [|done].
      rewrite lookup_insert_ne; [done|]. intros <-. congruence.
  - intros k e. rewrite lookup_insert. case_decide as E.
    + intros [= <-]. cbn. subst k. rewrite lookup_insert_eq. unfold is_u32 in Hu.
      split_and!; try done; try lia. apply file_name_key.
    + intros He. destruct (bl_name0 k e He) as (? & ? & ? & ?).
      rewrite lookup_insert_ne by lia. split_and!; try done; lia.
  - intros s Hs. rewrite bitmap_set_testbit, bl_used0, lookup_insert by lia.
    case_decide as E.
    + subst s. rewrite Z.leb_refl. destruct (Z.ltb_spec n (n + 1)); [|lia]. done.
    + destruct (Z.leb_spec n s), (Z.ltb_spec s (n + 1)); try lia; done.
  - intros s Hs. unfold in_index. cbn. rewrite lookup_insert. case_decide as E.
    + subst s. rewrite lookup_insert_eq. transitivity (on_disk w ix n); [done|].
      unfold on_disk. fold img ino. by rewrite (proj2 (Z.eqb_neq ino 0) Hi).
    + transitivity (in_index ix s); [apply bl_disk0; lia|]. unfold in_index.
      destruct (di_entries ix !! s) as [k|] eqn:Ek; [|done].
      destruct (bl_entry0 s k Ek) as (e & He & _).
      rewrite lookup_insert_ne; [done|]. intros <-. congruence.
  - destruct bl_files0 as [E Hle]. rewrite map_size_insert_None by done. rewrite E, u32_id;
      unfold is_u32, U32_MAX in *; lia.
Qed.

Lemma build_files_spec w0 n : forall slot ix w,
  built w0 ix slot -> 0 <= slot -> slot + Z.of_nat n <= U32_MAX ->
  (forall s, slot <= s < slot + Z.of_nat n -> slot_block ix s = slot_block ix slot) ->
  wp (build_files n (block_image w0 (slot_block ix slot)) slot ix) (fun ri w' => let '(r, ix') := ri in
    store w' = store w /\ (r = 0 -> built w0 ix' (slot + Z.of_nat n) /\ di_blocks ix' = di_blocks ix)) w.
Proof.
  induction n as [|n IH]; intros slot ix w Hb H0 Hmax Hsame; cbn [build_files].
  { apply wp_ret. split; [done|]. intros _. by rewrite Z.add_0_r. }
  assert (Hnext : (0 < n)%nat -> slot_block ix slot = slot_block ix (slot + 1))
    by (intros; symmetry; apply Hsame; lia).
  assert (Hgo : forall ix2 w2, built w0 ix2 (slot + 1) -> di_blocks ix2 = di_blocks ix -> store w2 = store w ->
    wp (build_files n (block_image w0 (slot_block ix slot)) (slot + 1) ix2) (fun ri w' => let '(r, ix') := ri in
      store w' = store w /\ (r = 0 -> built w0 ix' (slot + Z.of_nat (S n)) /\ di_blocks ix' = di_blocks ix)) w2).
  { intros ix2 w2 Hb2 Ebl Hst. destruct n as [|n'].
    - cbn [build_files]. apply wp_ret. by split.
    - assert (Esb : forall s, slot_block ix2 s = slot_block ix s) by (intros; unfold slot_block; by rewrite Ebl).
      rewrite Hnext by lia. rewrite <- Esb. eapply wp_mono.
      + apply IH; [done|lia|lia|]. intros s Hs. rewrite !Esb.
        transitivity (slot_block ix slot); [apply Hsame; lia|symmetry; apply Hsame; lia].
      + intros [r ix'] w' [E1 E2]. split; [congruence|]. intros Hr. destruct (E2 Hr) as [E3 E4].
        split; [|congruence]. replace (slot + Z.of_nat (S (S n'))) with (slot + 1 + Z.of_nat (S n')) by lia.
        done. }
  destruct (Z.eqb_spec (file_inode (block_image w0 (slot_block ix slot)) (file_off slot)) 0) as [Ez|Ez].
  { apply Hgo; [by apply built_skip|done|done]. }
  kwp. destruct (_ || _); kwp; [by split|]. destruct (negb _); kwp; [by split|].
  unfold rhash_insert. destruct (di_names ix !! _) as [e|] eqn:En; kwp; [by split|].
  destruct (negb _) eqn:Hr; kwp.
  - rewrite Hr. kwp. split; [done|]. bool_hyps. intros E. exfalso. by destruct (Z.eqb_spec r0 (- EEXIST)).
  - apply Hgo; [|done|done]. apply (built_add w0 ix slot); try done. lia.
Qed.

Lemma slot_block_app ix pre b rest j : di_blocks ix = pre ++ b :: rest -> 0 <= j < 15 ->
  slot_block ix (15 * Z.of_nat (length pre) + j) = b.
Proof.
  intros E Hj. unfold slot_block. change SIMPLEFS_FILES_PER_BLOCK with 15.
  replace (15 * Z.of_nat (length pre) + j) with (j + Z.of_nat (length pre) * 15) by lia.
  rewrite Z.div_add, Z.div_small, Z.add_0_l, Nat2Z.id, E by lia.
  by rewrite lookup_app_r, Nat.sub_diag by lia.
Qed.

Lemma build_blocks_spec w0 rest : forall pre ix w,
  di_blocks ix = pre ++ rest -> di_nr_blocks ix <= SIMPLEFS_MAX_DIR_BLOCKS ->
  built w0 ix (15 * Z.of_nat (length pre)) -> w_bdev w = w_bdev w0 ->
  wp (build_blocks rest (15 * Z.of_nat (length pre)) ix) (fun ri w' => let '(r, ix') := ri in
    store w' = store w /\ (r = 0 -> built w0 ix' (dir_slots ix) /\ di_blocks ix' = di_blocks ix)) w.
Proof.
  induction rest as [|b rest IH]; intros pre ix w E Hmax Hb Hw; cbn [build_blocks].
  { apply wp_ret. split; [done|]. intros _. split; [|done]. rewrite slots_exact by done.
    unfold di_nr_blocks. rewrite E, app_nil_r. by rewrite Z.mul_comm. }
  assert (Hlen : di_nr_blocks ix = Z.of_nat (length pre) + 1 + Z.of_nat (length rest)).
  { unfold di_nr_blocks. rewrite E, length_app. cbn. lia. }
  change SIMPLEFS_MAX_DIR_BLOCKS with 1048575 in *.
  apply wp_bind. eapply wp_mono; [apply store_wp; intros; pres|].
  intros r w1 Hst1. pose proof (store_inv _ _ Hst1) as [Eb1 _]. cbv beta in *.
  destruct (IS_ERR r) eqn:Hr.
  { apply wp_ret. split; [done|]. intros ->. done. }
  kwp. assert (Hblk : slot_block ix (15 * Z.of_nat (length pre)) = b).
  { pose proof (slot_block_app ix pre b rest 0 E ltac:(lia)) as H. by rewrite Z.add_0_r in H. }
  assert (block_image w1 b = block_image w0 (slot_block ix (15 * Z.of_nat (length pre)))) as ->.
  { rewrite Hblk. unfold block_image. by rewrite Eb1, Hw. }
  change SIMPLEFS_FILES_PER_BLOCK with 15. eapply wp_mono.
  { apply (build_files_spec w0 (Z.to_nat 15)); [done|lia|unfold U32_MAX; lia|].
    intros s Hs. rewrite Hblk. replace s with (15 * Z.of_nat (length pre) + (s - 15 * Z.of_nat (length pre))) by lia.
    apply (slot_block_app ix pre b rest); [done|lia]. }
  intros [r2 ix2] w2 [Hst2 Hgood]. destruct (Z.eqb_spec r2 0) as [->|]; cbn [negb].
  - destruct (Hgood eq_refl) as [Hb2 Ebl]. pose proof (store_inv _ _ Hst2) as [Eb2 _].
    specialize (IH (pre ++ [b]) ix2 w2).
    rewrite length_app in IH. cbn [length] in IH.
    replace (15 * Z.of_nat (length pre + 1)) with (15 * Z.of_nat (length pre) + 15) in IH by lia.
    eapply wp_mono; [apply IH|].
    + rewrite Ebl, E, <- app_assoc. done.
    + unfold di_nr_blocks in *. by rewrite Ebl.
    + exact Hb2.
    + congruence.
    + intros [r3 ix3] w3 [E1 E2]. split; [congruence|]. intros Hr3. destruct (E2 Hr3) as [E3 E4].
      split; [|congruence]. unfold dir_slots, di_nr_blocks in *. by rewrite Ebl in E3.
  - apply wp_ret. split; [congruence|]. done.
Qed.

Lemma unfilled_built w ix : unfilled ix -> built w ix 0.
Proof.
  intros (U1 & U2 & U3 & U4 & U5 & U6). split.
  - intros s k. by rewrite U2.
  - intros k e. by rewrite U1.
  - intros s Hs. rewrite U2, U3. unfold test_bit. by rewrite Z.testbit_0_l.
  - lia.
  - rewrite U1, U4. by rewrite map_size_empty.
  - done.
  - done.
Qed.

Lemma built_ok w ix : built w ix (dir_slots ix) ->
  index_ok ix /\ index_matches w ix.
Proof.
  intros [B1 B2 B3 B4 B5 B6 B7]. split; [split; try done; try lia|exact B4].
  - rewrite B6. split; [|intros s; lia]. unfold dir_slots. pose proof (u32_range (di_nr_blocks ix * SIMPLEFS_FILES_PER_BLOCK)).
    unfold is_u32 in *. lia.
Qed.

Lemma dir_build_spec dir w :
  wp (simplefs_dir_build dir di_empty) (fun ri w' => let '(r, ix) := ri in
    store w' = store w /\ (r = 0 -> index_ok ix /\ index_matches w ix /\ di_valid ix = true /\
      di_nr_files ix = Z.of_nat (size (di_names ix)))) w.
Proof.
  unfold simplefs_dir_build. kwp.
  eapply wp_mono; [apply store_wp; intros; pres|]. intros [r mapping] w1 H1. cbv beta in *.
  destruct (negb _) eqn:Hr; [apply wp_ret; bool_hyps; done|].
  apply wp_bind. eapply wp_mono; [apply build_map_spec; split_and!; done|].
  intros [r2 ix2] w2 [H2 Hu]. destruct (Z.eqb_spec r2 0) as [->|]; cbn [negb];
    [|apply wp_ret; split; [congruence|done]].
  specialize (Hu eq_refl). apply wp_bind.
  assert (Hst2 : store w2 = store w) by congruence. apply store_inv in Hst2 as [Eb2 Ei2].
  eapply wp_mono.
  { apply (build_blocks_spec w (di_blocks ix2) []); [done|destruct Hu; intuition lia|by apply unfilled_built|done]. }
  intros [r3 ix3] w3 [H3 Hgood]. destruct (Z.eqb_spec r3 0) as [->|]; cbn [negb];
    apply wp_ret; (split; [congruence|]); [intros _|done].
  destruct (Hgood eq_refl) as [Hb Ebl].
  assert (Hn : di_nr_blocks ix3 = di_nr_blocks ix2) by (unfold di_nr_blocks; by rewrite Ebl).
  assert (dir_slots ix2 = dir_slots ix3) as Es by (unfold dir_slots; by rewrite Hn).
  rewrite Es in Hb. destruct (built_ok w ix3 Hb) as [Hok Hm].
  split_and!; [by apply set_valid_ok|exact Hm|done|apply Hb].
Qed.

(** *** Trimming ends *)

Lemma ext_weight_app l k : ext_weight (l ++ k) = (ext_weight l + ext_weight k)%nat.
Proof. induction l as [|e l IH]; cbn; [done|]. rewrite IH. lia. Qed.

Lemma ext_weight_perm l k : Permutation l k -> ext_weight l = ext_weight k.
Proof. induction 1; cbn; try lia. Qed.

Lemma merge_loop_weight n : forall l, (ext_weight (merge_loop n l) <= ext_weight l)%nat.
Proof.
  induction n as [|n IH]; intros l; cbn [merge_loop]; [done|]. destruct l as [|cur l]; [done|].
  destruct (simplefs_extent_is_empty cur); [specialize (IH l); cbn; lia|].
  destruct l as [|next l]; [specialize (IH []); cbn in *; lia|].
  destruct (mergeable cur next) eqn:Hm.
  - specialize (IH (merge cur next :: l)). cbn in *.
    assert (simplefs_ext_len (merge cur next) = simplefs_ext_len cur + simplefs_ext_len next) as E.
    { unfold mergeable in Hm. bool_hyps. apply ext_set_len_len.
      pose proof (ext_len_bounds cur). pose proof (ext_len_bounds next). lia. }
    rewrite E in IH. pose proof (ext_len_bounds cur). pose proof (ext_len_bounds next). lia.
  - specialize (IH (next :: l)). cbn in *. lia.
Qed.

Lemma normalize_weight l : (ext_weight (normalize l) <= ext_weight l)%nat.
Proof.
  unfold normalize. etransitivity; [apply merge_loop_weight|].
  destruct (exchange_sort_spec (length l) l eq_refl) as [Hp _]. by rewrite (ext_weight_perm _ _ Hp).
Qed.

(** The buffer a write-back leaves has the normalised extents, on every exit. *)
Lemma sync_extents_buf ino buf w :
  wp (simplefs_file_sync_extents ino buf) (fun rb _ =>
    eb_extents rb.2 = normalize (eb_extents buf)) w.
Proof.
  unfold simplefs_file_sync_extents.
  assert (Hm : forall {A} (m : M A) (Q : A -> world -> Prop) w1, (forall a w2, Q a w2) -> wp m Q w1)
    by (intros A m Q w1 H; apply H).
  destruct (_ <? _); [by apply wp_ret|]. apply wp_bind, Hm. intros ok w1.
  destruct (negb ok); [by apply wp_ret|]. apply wp_bind, Hm. intros hd w2.
  destruct (HANDLE_IS_ERR hd); [by apply wp_ret|]. apply wp_bind, Hm. intros i w3.
  apply wp_bind, Hm. intros [[[r leaves] c] u] w4. apply wp_bind.
  eapply (wp_mono _ (fun b _ => eb_extents b = normalize (eb_extents buf))).
  { destruct (r =? 0); kwp; done. }
  intros b w5 Hb. apply wp_bind, Hm. intros _ w6. apply wp_bind, Hm. intros _ w7.
  apply wp_bind, Hm. intros st w8. by apply wp_ret.
Qed.

(** The extents one round leaves to normalise. *)
Lemma trim_shrinks (l : list extent) : l <> [] ->
  let last := Z.to_nat (Z.of_nat (length l) - 1) in
  let ext := default (Extent 0 0 0) (l !! last) in
  let len := simplefs_ext_len ext in
  let count := Z.min len 16 in
  (ext_weight (if (count =? len)%Z then take last l
               else <[last := simplefs_ext_set_len ext (len - count)%Z]> l) < ext_weight l)%nat.
Proof.
  intros Hl. cbv zeta. destruct (rev l) as [|e k] eqn:E.
  { exfalso. apply Hl. by rewrite <- (rev_involutive l), E. }
  assert (l = rev k ++ [e]) as -> by (by rewrite <- (rev_involutive l), E).
  assert (Z.to_nat (Z.of_nat (length (rev k ++ [e])) - 1) = length (rev k)) as ->
    by (rewrite length_app; cbn; lia).
  rewrite lookup_app_r, Nat.sub_diag by lia. cbn. pose proof (ext_len_bounds e) as Hb.
  destruct (Z.eqb_spec (Z.min (simplefs_ext_len e) 16) (simplefs_ext_len e)).
  - rewrite take_app_length, ext_weight_app. cbn. lia.
  - rewrite insert_app_r_alt, Nat.sub_diag by lia. cbn. rewrite !ext_weight_app. cbn.
    rewrite ext_set_len_len by lia. lia.
Qed.

Definition mapped (w : world) (dir : Z) : list extent := eb_extents (di_mapping (index_at w dir)).

Lemma mapped_same w w' dir : w_inodes w' = w_inodes w -> mapped w' dir = mapped w dir.
Proof. unfold mapped. intros H. by rewrite (index_at_store w w' dir H). Qed.

Lemma mapped_frame {A} (m : M A) dir w :
  (forall I, JStable I -> preserves I m) -> wp m (fun _ w' => mapped w' dir = mapped w dir) w.
Proof.
  intros H. apply (H (fun w' => mapped w' dir = mapped w dir)); [|done].
  by apply (view_jstable (fun w' => mapped w' dir) (fun x => x = mapped w dir)).
Qed.

Lemma mapped_alloc_frame {A} (m : M A) dir w :
  (forall I, AStable I -> preserves I m) -> wp m (fun _ w' => mapped w' dir = mapped w dir) w.
Proof.
  intros H. eapply wp_mono.
  - apply (wp_pres (fun w' => w_inodes w' = w_inodes w)); [|done].
    apply H, (inodes_astable (fun m => m = w_inodes w)).
  - intros a w' E. by apply mapped_same.
Qed.

Lemma mapped_put w dir (ix : dir_index) i :
  mapped (set_w_inodes (<[dir := set_i_dir_index (Some ix) i]> (w_inodes w)) w) dir =
  eb_extents (di_mapping ix).
Proof. unfold mapped. by rewrite index_at_put. Qed.

(** One successful round makes the mapping lighter. *)
Lemma trim_step_weight dir w : mapped w dir <> [] ->
  wp (trim_step dir) (fun r w' => r = 0 -> (ext_weight (mapped w' dir) < ext_weight (mapped w dir))%nat) w.
Proof.
  intros Hne. unfold trim_step. apply wp_bind.
  eapply wp_mono; [apply wp_conj; [apply start_sb_err|apply mapped_alloc_frame; intros; pres]|].
  intros hd w1 [He E1]. destruct (HANDLE_IS_ERR hd) eqn:Hh.
  { apply wp_ret. destruct hd; cbn in *; try done. intros. lia. }
  unfold get_index at 1. kwp. fold (index_at w1 dir). set (ix := index_at w1 dir).
  set (l := if _ =? _ then _ else _).
  assert (Hl : (ext_weight l < ext_weight (mapped w dir))%nat).
  { rewrite <- E1. apply (trim_shrinks (mapped w1 dir)). by rewrite E1. }
  eapply wp_mono; [apply sync_extents_buf|]. intros [r mapping] w2 Em. cbn in Em.
  unfold upd_index at 1, get_index at 1, put_index at 1. kwp.
  match goal with |- wp _ _ ?w0 => set (w3 := w0) end.
  assert (E3 : mapped w3 dir = normalize l) by (unfold w3; rewrite mapped_put; exact Em).
  assert (Hlt : (ext_weight (mapped w3 dir) < ext_weight (mapped w dir))%nat).
  { rewrite E3. eapply Nat.le_lt_trans; [apply normalize_weight|exact Hl]. }
  clearbody w3. eapply wp_mono.
  { apply (mapped_alloc_frame _ dir w3). intros. pres. }
  intros r2 w4 E4. cbv beta in E4. apply wp_bind. eapply (wp_mono _ (fun _ w' => mapped w' dir = mapped w3 dir)).
  { destruct (r2 =? 0); [|by apply wp_ret]. unfold upd_index, get_index, put_index. kwp.
    match goal with |- wp _ _ ?w0 => set (w5 := w0) end.
    eapply wp_mono; [apply (mapped_alloc_frame _ dir w5); intros; pres|].
    intros a w' Ea. cbv beta in Ea. rewrite Ea. unfold w5. rewrite <- E4. unfold mapped, index_at, inode_of. cbn.
    by rewrite !lookup_insert_eq. }
  intros r3 w5 E5. apply wp_bind. eapply (wp_mono _ (fun _ w' => mapped w' dir = mapped w3 dir)).
  { unfold when. destruct (negb _); [|by apply wp_ret]. unfold upd_index, get_index, put_index. kwp.
    eapply wp_mono; [apply mapped_alloc_frame; intros; pres|].
    intros a w' Ea. cbv beta in Ea. by rewrite Ea, mapped_put. }
  intros _ w6 E6. apply wp_bind. eapply wp_mono; [apply (mapped_alloc_frame _ dir); intros; pres|].
  intros st w7 E7. apply wp_ret. intros _. by rewrite E7, E6.
Qed.

Lemma trim_loop_ends dir fuel : forall w, (ext_weight (mapped w dir) < fuel)%nat ->
  wp (trim_loop fuel dir) (fun r w' => r = 0 -> mapped w' dir = []) w.
Proof.
  induction fuel as [|fuel IH]; intros w Hf; [lia|]. cbn [trim_loop]. apply wp_bind.
  unfold get_index. apply wp_gets. fold (index_at w dir). unfold nr_extents. fold (mapped w dir).
  destruct (mapped w dir) as [|e l] eqn:E; [by apply wp_ret|].
  cbn [length]. destruct (Z.eqb_spec (Z.of_nat (S (length l))) 0); [lia|].
  apply wp_bind. eapply wp_mono; [apply trim_step_weight; by rewrite E|].
  intros r w' Hr. destruct (Z.eqb_spec r 0) as [->|]; cbn [negb]; [|by apply wp_ret].
  apply IH. specialize (Hr eq_refl). rewrite E in Hr. lia.
Qed.

End Refine.

(** ** Theorems *)

Section Theorems.
Context {K : Kernel}.

(** C24: storing a directory entry refines the update of a map from names to
    inode numbers.  On success [simplefs_dir_set] removes the slot's old name and,
    for a nonzero inode, adds the new one, which was not in the directory under
    another slot; the cache invariant holds and every slot of the cache agrees
    with its block.  On failure the directory is unchanged, and if the block was
    already changed the file system is latched shut. *)
Theorem dir_set_refines dir slot ino name w :
  let ix := index_at w dir in
  index_ok ix -> index_matches w ix -> NoDup (di_blocks ix) -> 0 <= slot -> is_u32 ino ->
  (forall q, name = Some q -> qstr_ok q) ->
  wp (simplefs_dir_set dir slot ino name) (fun r w' =>
    let ix' := index_at w' dir in
    let old := di_entries ix !! slot in
    index_ok ix' /\ di_blocks ix' = di_blocks ix /\
    if r =? 0 then
      index_matches w' ix' /\
      (ino = 0 -> contents ix' = delete_old old (contents ix)) /\
      (forall q, name = Some q -> ino <> 0 ->
         contents ix' = <[qstr_key q := ino]> (delete_old old (contents ix)) /\
         (old <> Some (qstr_key q) -> contents ix !! qstr_key q = None))
    else contents ix' = contents ix /\ (index_matches w' ix' \/ s_shutdown (w_sbi w') = true)) w.
Proof.
  intros ix Hok Hm Hnd Hs Hi Hq. eapply wp_mono; [by apply dir_set_spec|].
  intros r w' (H1 & H2 & _ & H3). cbv zeta. fold ix in H2, H3. split; [done|]. split; [done|].
  destruct (r =? 0); [|destruct H3 as [? [[? ?]|?]]; auto]. destruct H3 as (_ & H3 & H4). split; [auto|]. unfold stored in H4.
  destruct (Z.eqb_spec ino 0) as [E|E].
  - split; [done|]. intros. done.
  - split; [done|]. intros q -> _. destruct H4 as (k & -> & ? & ?). by split.
Qed.

(** the directory cache is disposable: when there is no valid cache,
    [simplefs_dir_get] builds one that satisfies the cache invariant, agrees with
    the blocks in every slot and counts its entries; it changes no block, and any
    earlier sound cache of the same blocks described the same directory.  A
    directory with a duplicate name or a bad extent is refused. *)
Theorem dir_cache_rebuild dir w :
  match i_dir_index (inode_of w dir) with Some ix => di_valid ix = false | None => True end ->
  wp (simplefs_dir_get dir) (fun r w' =>
    w_bdev w' = w_bdev w /\
    (r = 0 -> let ix := index_at w' dir in
       index_ok ix /\ index_matches w' ix /\ di_valid ix = true /\
       di_nr_files ix = Z.of_nat (size (contents ix)) /\
       forall ix0, index_ok ix0 -> index_matches w ix0 -> di_blocks ix0 = di_blocks ix ->
         contents ix0 = contents ix)) w.
Proof.
  intros Hinv. unfold simplefs_dir_get, simplefs_is_shutdown. kwp.
  destruct (s_shutdown _); kwp; [done|].
  assert ((match i_dir_index (inode_of w dir) with Some ix => di_valid ix | None => false end) = false) as ->
    by (by destruct (i_dir_index _)).
  unfold simplefs_dir_destroy. kwp. destruct (negb _); kwp; [done|]. destruct (negb _) eqn:Hr; kwp.
  { split; [done|]. intros ->. done. }
  match goal with |- wp (simplefs_dir_build _ _) _ ?w0 => set (w1 := w0) end.
  eapply wp_mono; [apply dir_build_spec|]. intros [r2 ix] w2 [Hst Hgood].
  apply store_inv in Hst as [Eb2 Ei2].
  destruct (Z.eqb_spec r2 0) as [->|Hr2]; cbn [negb]; [|kwp; by split].
  destruct (Hgood eq_refl) as (Hok & Hm & Hv & Hf). unfold put_index. kwp. split; [exact Eb2|].
  intros _. rewrite index_at_put. cbv zeta.
  assert (Hm2 : index_matches w ix) by (by apply (matches_ext w1 w ix ix)).
  split_and!; [done| |done| |].
  - by apply (matches_ext w1 _ ix ix).
  - rewrite Hf. unfold contents. by rewrite map_size_fmap.
  - intros ix0 Hok0 Hm0 Ebl. apply map_eq. intros k'. apply option_eq. intros i.
    rewrite !in_index_contents by done.
    assert (Hs : dir_slots ix0 = dir_slots ix) by (unfold dir_slots, di_nr_blocks; by rewrite Ebl).
    assert (Hd : forall s, on_disk w ix0 s = on_disk w ix s) by (intros; unfold on_disk, slot_block; by rewrite Ebl).
    assert (Hrange : forall jx s, index_ok jx -> is_Some (in_index jx s) -> 0 <= s < dir_slots jx).
    { intros jx s Hj [[k1 i1] Hsome]. unfold in_index in Hsome.
      destruct (di_entries jx !! s) as [k2|] eqn:E; [|done].
      destruct (ok_entry jx Hj s k2 E) as (e & He & <-). apply (ok_name jx Hj k2 e He). }
    split; intros (s & Hin); exists s.
    + assert (0 <= s < dir_slots ix0) by (apply Hrange; [done|by eexists]).
      rewrite <- Hm2, <- Hd by lia. by rewrite Hm0.
    + assert (0 <= s < dir_slots ix) by (apply Hrange; [done|by eexists]).
      rewrite <- Hm0, Hd by lia. by rewrite Hm2.
Qed.

Lemma entry_in_index ix s k : index_ok ix -> di_entries ix !! s = Some k ->
  in_index ix s = Some (k, dn_ino (default (DirName 0 0) (di_names ix !! k))).
Proof.
  intros Hok E. unfold in_index. rewrite E. destruct (ok_entry ix Hok s k E) as (e & He & _).
  by rewrite He.
Qed.

Lemma find_ino_spec ix ino : index_ok ix -> forall n s,
  match find_ino n ix s ino with
  | Some k => exists s', s <= s' < s + Z.of_nat n /\ in_index ix s' = Some (k, ino)
  | None => forall s' k, s <= s' < s + Z.of_nat n -> in_index ix s' <> Some (k, ino)
  end.
Proof.
  intros Hok n. induction n as [|n IH]; intros s; cbn [find_ino]; [intros; lia|].
  assert (Hrest : (forall k, in_index ix s <> Some (k, ino)) ->
    match find_ino n ix (s + 1) ino with
    | Some k => exists s', s <= s' < s + Z.of_nat (S n) /\ in_index ix s' = Some (k, ino)
    | None => forall s' k, s <= s' < s + Z.of_nat (S n) -> in_index ix s' <> Some (k, ino)
    end).
  { intros Hs. specialize (IH (s + 1)). destruct (find_ino n ix (s + 1) ino) as [k|].
    - destruct IH as (s' & Hr & H). exists s'. split; [lia|done].
    - intros s' k Hr. destruct (decide (s' = s)) as [->|]; [apply Hs|]. apply IH. lia. }
  destruct (di_entries ix !! s) as [k|] eqn:E.
  - pose proof (entry_in_index ix s k Hok E) as Hin. destruct (Z.eqb_spec (dn_ino (default (DirName 0 0) (di_names ix !! k))) ino) as [Ei|Ei].
    + exists s. split; [lia|]. by rewrite Hin, Ei.
    + apply Hrest. intros k'. rewrite Hin. congruence.
  - apply Hrest. intros k'. unfold in_index. by rewrite E.
Qed.

(** lookups answer from the directory's map: [simplefs_dir_find] succeeds
    exactly on the names present (with the requested inode number, when one is
    given) and returns their slot and inode, and the reverse search of
    [simplefs_dir_get_name] finds a name of an inode number exactly when there is
    one. *)
Theorem dir_lookup_correct ix name ino :
  index_ok ix -> qstr_ok name ->
  (let '(r, slot, i) := simplefs_dir_find ix name ino in
   (r = 0 /\ contents ix !! qstr_key name = Some i /\ (ino = 0 \/ ino = i) /\
    in_index ix slot = Some (qstr_key name, i)) \/
   (r = - ENOENT /\ forall i, contents ix !! qstr_key name = Some i -> ino <> 0 /\ ino <> i)) /\
  match find_ino (Z.to_nat (dir_slots ix)) ix 0 ino with
  | Some k => contents ix !! k = Some ino
  | None => forall k, contents ix !! k <> Some ino
  end.
Proof.
  intros Hok [Hl Hq]. split.
  - unfold simplefs_dir_find, contents. rewrite lookup_fmap.
    destruct (Z.ltb_spec SIMPLEFS_FILENAME_LEN (q_len name)); [unfold SIMPLEFS_FILENAME_LEN in *; lia|].
    destruct (di_names ix !! qstr_key name) as [e|] eqn:E; [|by right].
    destruct (Z.eqb_spec ino 0), (Z.eqb_spec ino (dn_ino e)); cbn; [left|left|left|right];
      try (split_and!; auto; destruct (ok_name ix Hok _ e E) as (H1 & _); unfold in_index; by rewrite H1, E).
    split; [done|]. by intros i [= <-].
  - pose proof (find_ino_spec ix ino Hok (Z.to_nat (dir_slots ix)) 0) as H.
    pose proof (u32_range (di_nr_blocks ix * SIMPLEFS_FILES_PER_BLOCK) : is_u32 (dir_slots ix)) as Hu.
    unfold is_u32 in Hu. destruct (find_ino _ ix 0 ino) as [k|].
    + apply in_index_contents; [done|]. destruct H as (s & _ & H). by exists s.
    + intros k Hk. apply in_index_contents in Hk as (s & Hs); [|done]. apply (H s k); [|done].
      unfold in_index in Hs. destruct (di_entries ix !! s) as [k2|] eqn:E; [|done].
      destruct (ok_entry ix Hok s k2 E) as (e & He & <-).
      destruct (ok_name ix Hok k2 e He) as (_ & ? & _). lia.
Qed.

(** The entries of the slots [s, s + n), in slot order. *)
Definition listed (ix : dir_index) (s n : Z) : list (Z * Z) := omap (in_index ix) (seqZ s n).

Lemma listed_step ix s n : 0 < n ->
  listed ix s n = match in_index ix s with Some e => [e] | None => [] end ++ listed ix (s + 1) (n - 1).
Proof.
  intros Hn. unfold listed. rewrite (seqZ_cons s n) by lia. cbn.
  destruct (in_index ix s); f_equal; f_equal; f_equal; lia.
Qed.

Definition emitted (l : list (Z * Z)) : list (kcall * Z) :=
  rev (map (fun '(k, i) => (DirEmit k i, 0)) l).

Lemma emit_slots_spec ix : index_ok ix -> forall n s w,
  wp (emit_slots n ix s) (fun s' w' =>
    s <= s' <= s + Z.of_nat n /\
    exists refused, w_trace w' = refused ++ emitted (listed ix s (s' - s)) ++ w_trace w /\
      ((s' = s + Z.of_nat n /\ refused = []) \/
       exists k i r, refused = [(DirEmit k i, r)] /\ r <> 0 /\ in_index ix s' = Some (k, i))) w.
Proof.
  intros Hok n. induction n as [|n IH]; intros s w; cbn [emit_slots].
  { apply wp_ret. split; [lia|]. exists []. rewrite Z.sub_diag. split; [done|left; split; [lia|done]]. }
  assert (Hgo : forall w1 pre, w_trace w1 = emitted pre ++ w_trace w ->
    pre = match in_index ix s with Some e => [e] | None => [] end ->
    wp (emit_slots n ix (s + 1)) (fun s' w' =>
      s <= s' <= s + Z.of_nat (S n) /\
      exists refused, w_trace w' = refused ++ emitted (listed ix s (s' - s)) ++ w_trace w /\
      ((s' = s + Z.of_nat (S n) /\ refused = []) \/
       exists k i r, refused = [(DirEmit k i, r)] /\ r <> 0 /\ in_index ix s' = Some (k, i))) w1).
  { intros w1 pre Ht Hp. eapply wp_mono; [apply IH|].
    intros s' w' (Hr & refused & Ht' & Hc). split; [lia|]. exists refused. split.
    - rewrite Ht', Ht, (listed_step ix s (s' - s)) by lia. rewrite <- Hp. unfold emitted.
      rewrite map_app, rev_app_distr, <- !app_assoc.
      by replace (s' - s - 1) with (s' - (s + 1)) by lia.
    - destruct Hc as [[? ?]|?]; [left; split; [lia|done]|by right]. }
  destruct (di_entries ix !! s) as [k|] eqn:E.
  - pose proof (entry_in_index ix s k Hok E) as Hin. kwp. destruct (Z.eqb_spec r 0) as [->|Hr]; cbn [negb].
    + eapply Hgo; [|by rewrite Hin]. done.
    + apply wp_ret. split; [lia|]. eexists [_]. rewrite Z.sub_diag. split; [reflexivity|right].
      eexists _, _, _. split; [reflexivity|]. by split.
  - apply (Hgo w []); [done|]. unfold in_index. by rewrite E.
Qed.

Lemma listed_names ix : index_ok ix -> forall n s,
  NoDup (map fst (listed ix s n)) /\
  (forall k i, In (k, i) (listed ix s n) <-> exists s', s <= s' < s + n /\ in_index ix s' = Some (k, i)).
Proof.
  intros Hok n s.
  assert (Hin : forall k i, In (k, i) (listed ix s n) <-> exists s', s <= s' < s + n /\ in_index ix s' = Some (k, i)).
  { intros k i. unfold listed. rewrite <- list_elem_of_In, list_elem_of_omap.
    split; intros (s' & H1 & H2); exists s'; (split; [|done]); by apply elem_of_seqZ. }
  split; [|exact Hin]. clear Hin. unfold listed.
  assert (Hinj : forall s1 s2 k i1 i2, in_index ix s1 = Some (k, i1) -> in_index ix s2 = Some (k, i2) -> s1 = s2).
  { intros s1 s2 k i1 i2 H1 H2. unfold in_index in H1, H2.
    destruct (di_entries ix !! s1) as [k1|] eqn:E1; [|done].
    destruct (di_entries ix !! s2) as [k2|] eqn:E2; [|done].
    destruct (ok_entry ix Hok s1 k1 E1) as (e1 & He1 & <-), (ok_entry ix Hok s2 k2 E2) as (e2 & He2 & <-).
    rewrite He1 in H1. rewrite He2 in H2. simplify_eq. done. }
  pose proof (NoDup_seqZ s n) as Hnd. induction (seqZ s n) as [|x l IH]; cbn; [constructor|].
  apply NoDup_cons in Hnd as [Hx Hnd]. destruct (in_index ix x) as [[k i]|] eqn:E; [|by apply IH].
  cbn. apply NoDup_cons. split; [|by apply IH]. rewrite list_elem_of_In, in_map_iff.
  intros ([k2 i2] & Hk & Hi). cbn in Hk. subst k2. apply Hx.
  apply list_elem_of_In, list_elem_of_omap in Hi as (y & Hy & Hyi).
  by rewrite (Hinj x y k i i2 E Hyi).
Qed.

(** *** A directory read in several calls *)

(** The entries the reader's buffer accepted, oldest first, from a trace. *)
Fixpoint accepted (t : list (kcall * Z)) : list (Z * Z) :=
  match t with
  | (DirEmit k i, r) :: t' => accepted t' ++ (if r =? 0 then [(k, i)] else [])
  | _ :: t' => accepted t'
  | [] => []
  end.

Lemma accepted_app t t' : accepted (t ++ t') = accepted t' ++ accepted t.
Proof.
  induction t as [|[c r] t IH]; cbn; [by rewrite app_nil_r|]. destruct c; rewrite IH; try done. by rewrite app_assoc.
Qed.
Lemma accepted_emitted l : accepted (emitted l) = l.
Proof.
  unfold emitted. induction l as [|[k i] l IH]; cbn; [done|]. by rewrite accepted_app, IH.
Qed.
Lemma listed_app ix s a b : 0 <= a -> 0 <= b -> listed ix s (a + b) = listed ix s a ++ listed ix (s + a) b.
Proof. intros Ha Hb. unfold listed. by rewrite seqZ_app, omap_app. Qed.
Lemma listed_neg ix s n : n <= 0 -> listed ix s n = [].
Proof. intros H. unfold listed. by rewrite seqZ_nil. Qed.

(** Why a call stopped at [pos]: the end, or the last call to the reader's buffer. *)
Definition stopped (ix : dir_index) (pos : Z) (ev : list (kcall * Z)) : Prop :=
  pos = dir_slots ix + 2 \/
  (exists k i r, head ev = Some (DirEmit k i, r) /\ r <> 0 /\ in_index ix (pos - 2) = Some (k, i)) \/
  (exists q, head ev = Some (DirEmitDots q, pos) /\ pos < 2).

(** The slot a position stands for. *)
Definition slot_of (pos : Z) : Z := Z.max 0 (pos - 2).

(** What one call, or several, have passed on between two positions. *)
Definition passed (ix : dir_index) (w : world) (pos pos' : Z) (ev : list (kcall * Z)) (w' : world) : Prop :=
  w_trace w' = ev ++ w_trace w /\ w_inodes w' = w_inodes w /\ w_sbi w' = w_sbi w /\
  accepted ev = listed ix (slot_of pos) (pos' - 2 - slot_of pos) /\
  (2 <= pos -> pos <= pos') /\ (pos <= dir_slots ix + 2 -> pos' <= dir_slots ix + 2).

Lemma passed_refl ix w pos : passed ix w pos pos [] w.
Proof. split_and!; try done. cbn. rewrite listed_neg; [done|unfold slot_of; lia]. Qed.

Lemma dir_emit_spec dir pos w : let ix := index_at w dir in index_ok ix -> di_valid ix = true ->
  wp (simplefs_iterate dir pos) (fun res w' => let '(r, pos') := res in exists ev,
    passed ix w pos pos' ev w' /\ (r <> 0 -> s_shutdown (w_sbi w) = true) /\
    (r = 0 -> pos <= dir_slots ix + 2 -> stopped ix pos' ev)) w.
Proof.
  intros ix Hok Hv. unfold simplefs_iterate, simplefs_dir_emit, simplefs_dir_get, simplefs_is_shutdown, get_index.
  assert (Hslots : 0 <= dir_slots ix) by apply u32_range.
  pose proof (passed_refl ix w pos) as Hself.
  kwp. destruct (s_shutdown (w_sbi w)) eqn:Hs; kwp; [by exists []|].
  unfold ix, index_at in Hv. destruct (i_dir_index (inode_of w dir)) as [jx|] eqn:Ej; cbn in Hv; [|done].
  rewrite Hv. kwp. cbn [Z.eqb negb]. kwp. fold (index_at w dir). fold ix.
  assert (Hgo : forall w1 q dots, 2 <= q -> (q = pos \/ (pos < 2 /\ q = 2)) -> w_trace w1 = dots ++ w_trace w ->
    accepted dots = [] -> w_inodes w1 = w_inodes w -> w_sbi w1 = w_sbi w ->
    wp (if q <? 2 then ret (0, q) else
        let! slot := emit_slots (Z.to_nat (dir_slots ix - (q - 2))) ix (q - 2) in ret (0, slot + 2))
       (fun res w' => let '(r, pos') := res in exists ev, passed ix w pos pos' ev w' /\
          (r <> 0 -> false = true) /\ (r = 0 -> pos <= dir_slots ix + 2 -> stopped ix pos' ev)) w1).
  { intros w1 q dots Hq Hqp Ht Hd Hi Hb. rewrite (proj2 (Z.ltb_ge q 2)) by lia. apply wp_bind. eapply wp_mono.
    { apply wp_conj; [by apply (emit_slots_spec ix Hok)|]. apply wp_conj.
      - apply (frame_wp w_inodes). generalize (Z.to_nat (dir_slots ix - (q - 2))) as n. generalize (q - 2) as sl.
        intros sl n. revert sl. induction n as [|n IH]; intros sl; cbn [emit_slots]; frames; apply IH.
      - apply (frame_wp w_sbi). generalize (Z.to_nat (dir_slots ix - (q - 2))) as n. generalize (q - 2) as sl.
        intros sl n. revert sl. induction n as [|n IH]; intros sl; cbn [emit_slots]; frames; apply IH. }
    intros sl w2 [(Hr & refused & Ht2 & Hc) [Hi2 Hb2]]; cbn beta in *. apply wp_ret.
    assert (Eslot : slot_of pos = q - 2) by (unfold slot_of; lia).
    exists (refused ++ emitted (listed ix (q - 2) (sl - (q - 2))) ++ dots). split_and!.
    - split_and!; [by rewrite Ht2, Ht, <- !app_assoc|congruence|congruence| |lia|lia].
      rewrite !accepted_app, Hd, accepted_emitted, Eslot. cbn [app].
      replace (sl + 2 - 2 - (q - 2)) with (sl - (q - 2)) by lia.
      destruct Hc as [[_ ->]|(k & i & r & -> & Hr0 & _)]; cbn [accepted]; [by rewrite app_nil_r|].
      rewrite (proj2 (Z.eqb_neq _ _) Hr0). cbn. by rewrite app_nil_r.
    - done.
    - intros _ Hle. destruct Hc as [[E _]|(k & i & r & -> & Hr0 & Hin)]; [left; lia|]. right. left.
      exists k, i, r. replace (sl + 2 - 2) with sl by lia. done. }
  destruct (Z.ltb_spec pos 2) as [Hp|Hp]; kwp.
  - destruct (Z.ltb_spec r 2) as [Hr|Hr].
    + kwp. rewrite (proj2 (Z.ltb_lt r 2)) by done. kwp. exists [(DirEmitDots pos, r)]. split_and!; [|done|].
      * split_and!; try done; [|lia|lia]. cbn. rewrite listed_neg; [done|unfold slot_of; lia].
      * intros _ _. right. right. by exists pos.
    + kwp. apply (Hgo _ 2 [(DirEmitDots pos, r)]); [lia|by right|done..].
  - apply (Hgo _ pos []); [lia|by left|done..].
Qed.

(** The reader calls until it has called [n] times or got an error. *)
Fixpoint read_dir (n : nat) (dir pos : Z) : M (Z * Z) :=
  match n with
  | O => ret (0, pos)
  | S n' => let! (r, pos) := simplefs_iterate dir pos in
            if negb (r =? 0) then ret (r, pos) else read_dir n' dir pos
  end.

Lemma read_dir_spec dir n : forall pos w, let ix := index_at w dir in index_ok ix -> di_valid ix = true ->
  pos <= dir_slots ix + 2 ->
  wp (read_dir n dir pos) (fun res w' => let '(r, pos') := res in exists ev,
    passed ix w pos pos' ev w' /\ (r <> 0 -> s_shutdown (w_sbi w) = true) /\
    (r = 0 -> (0 < n)%nat -> stopped ix pos' ev)) w.
Proof.
  induction n as [|n IH]; intros pos w ix Hok Hv Hpos; cbn [read_dir].
  { apply wp_ret. exists []. split_and!; [apply passed_refl|done|lia]. }
  apply wp_bind. eapply wp_mono; [by apply dir_emit_spec|]. intros [r pos1] w1 (ev1 & Hp1 & Hr1 & Hs1). fold ix in Hp1, Hs1.
  pose proof Hp1 as (Ht1 & Hi1 & Hb1 & Ha1 & Hm1 & Hl1).
  destruct (Z.eqb_spec r 0) as [->|Hne]; cbn [negb]; [|apply wp_ret; by exists ev1].
  assert (Eix : index_at w1 dir = ix) by (unfold ix, index_at, inode_of; by rewrite Hi1).
  destruct n as [|n]; [apply wp_ret; exists ev1; split_and!; [done|done|]; auto|].
  eapply wp_mono; [apply (IH pos1 w1); rewrite Eix; auto|]. rewrite Eix.
  intros [r2 pos2] w2 (ev2 & (Ht2 & Hi2 & Hb2 & Ha2 & Hm2 & Hl2) & Hr2 & Hs2).
  exists (ev2 ++ ev1). split_and!.
  - split_and!; [by rewrite Ht2, Ht1, app_assoc|congruence|congruence| |lia|lia].
    rewrite accepted_app, Ha1, Ha2. unfold slot_of in *. destruct (Z.ltb_spec pos1 2).
    + rewrite (listed_neg ix _ (pos1 - 2 - _)) by lia. replace (Z.max 0 (pos1 - 2)) with 0 by lia.
      by replace (Z.max 0 (pos - 2)) with 0 by lia.
    + replace (Z.max 0 (pos1 - 2)) with (Z.max 0 (pos - 2) + (pos1 - 2 - Z.max 0 (pos - 2))) by lia.
      rewrite <- listed_app by lia. f_equal. lia.
  - rewrite Hb1 in Hr2. done.
  - intros Hr _. destruct (Hs2 Hr ltac:(lia)) as [H|[(k & i & a & H & H')|(q & H & H')]];
      [by left|right; left; exists k, i, a|right; right; exists q]; (destruct ev2; [done|]); by split.
Qed.


(** [simplefs_dir_trim] terminates: each round removes an extent or shortens
    the last one, so the loop ends within the fuel of the model, and when it
    reports success no extent of the directory is left. *)
Theorem dir_trim_ends dir w :
  wp (simplefs_dir_trim dir) (fun r w' => r = 0 -> mapped w' dir = []) w.
Proof.
  unfold simplefs_dir_trim. apply wp_bind.
  apply (wp_mono _ (fun _ _ => True)); [done|]. intros r w1 _.
  destruct (negb _) eqn:Hr; [apply wp_ret; intros ->; done|]. unfold get_index. kwp.
  fold (index_at w1 dir). destruct (negb (di_nr_files _ =? 0)); [apply wp_ret; discriminate|].
  apply wp_bind. eapply wp_mono; [apply trim_loop_ends; unfold trim_fuel; apply Nat.lt_succ_diag_r|].
  intros r2 w2 H. destruct (Z.eqb_spec r2 0) as [->|]; cbn [negb]; [|by apply wp_ret].
  unfold upd_index, get_index, put_index. kwp. intros _. rewrite mapped_put. by apply H.
Qed.

End Theorems.

(** ** What the directory operations leave alone *)

Section Preserve.
Context {K : Kernel} (I : world -> Prop).

Lemma get_index_pres dir : preserves I (get_index dir).
Proof. apply preserves_gets. Qed.
Lemma put_index_pres `{!FStable I} dir ix : preserves I (put_index dir ix).
Proof. unfold put_index. pres. Qed.
Local Hint Resolve get_index_pres put_index_pres : pres.
Lemma upd_index_pres `{!FStable I} dir f : preserves I (upd_index dir f).
Proof. unfold upd_index. pres. Qed.
Lemma dir_destroy_pres `{!FStable I} dir : preserves I (simplefs_dir_destroy dir).
Proof. unfold simplefs_dir_destroy. pres. Qed.
Lemma rhash_insert_pres `{!KStable I} k e ix : preserves I (rhash_insert k e ix).
Proof. unfold rhash_insert. pres. Qed.
Lemma dir_reserve_pres `{!KStable I} ix b : preserves I (simplefs_dir_reserve ix b).
Proof. unfold simplefs_dir_reserve. pres. Qed.
Local Hint Resolve upd_index_pres dir_destroy_pres rhash_insert_pres dir_reserve_pres : pres.
Lemma build_map_pres `{!KStable I} l : forall ix, preserves I (build_map l ix).
Proof. induction l; intros ix; cbn [build_map]; pres; auto. Qed.
Lemma build_files_pres `{!KStable I} n img : forall s ix, preserves I (build_files n img s ix).
Proof. induction n; intros s ix; cbn [build_files]; pres; auto. Qed.
Local Hint Resolve build_files_pres : pres.
Lemma build_blocks_pres `{!KStable I} l : forall s ix, preserves I (build_blocks l s ix).
Proof. induction l; intros s ix; cbn [build_blocks]; pres; auto. Qed.
Local Hint Resolve build_map_pres build_blocks_pres : pres.
Lemma dir_build_pres `{!KStable I} dir ix : preserves I (simplefs_dir_build dir ix).
Proof. unfold simplefs_dir_build. pres. Qed.
Local Hint Resolve dir_build_pres : pres.
Lemma dir_get_pres `{!FStable I} dir : preserves I (simplefs_dir_get dir).
Proof. unfold simplefs_dir_get. pres. Qed.
Lemma dir_free_slot_pres `{!FStable I} dir : preserves I (simplefs_dir_free_slot dir).
Proof. unfold simplefs_dir_free_slot. pres. Qed.
Lemma set_insert_pres `{!FStable I} dir s i n ix : preserves I (set_insert dir s i n ix).
Proof. unfold set_insert. pres. Qed.
Local Hint Resolve dir_get_pres dir_free_slot_pres set_insert_pres : pres.
Lemma dir_set_pres `{!FStable I} dir s i n : preserves I (simplefs_dir_set dir s i n).
Proof. unfold simplefs_dir_set. repeat (pres_step || apply js_image). Qed.
Local Hint Resolve dir_set_pres : pres.
Lemma dir_add_pres `{!FStable I} dir q i : preserves I (simplefs_dir_add dir q i).
Proof. unfold simplefs_dir_add, simplefs_persist_inode. pres. Qed.
Lemma trim_step_pres `{!FStable I} dir : preserves I (trim_step dir).
Proof. unfold trim_step, simplefs_persist_inode. pres. Qed.
Local Hint Resolve trim_step_pres : pres.
Lemma trim_loop_pres `{!FStable I} dir n : preserves I (trim_loop n dir).
Proof. induction n; cbn [trim_loop]; pres; auto. Qed.
Local Hint Resolve trim_loop_pres : pres.
Lemma dir_trim_pres `{!FStable I} dir : preserves I (simplefs_dir_trim dir).
Proof. unfold simplefs_dir_trim. pres. Qed.
End Preserve.

#[export] Hint Resolve get_index_pres put_index_pres upd_index_pres dir_destroy_pres
  dir_reserve_pres dir_build_pres dir_get_pres dir_free_slot_pres dir_set_pres dir_add_pres
  dir_trim_pres : pres.
