(* ===== verification/Xattr.v ===== *)
(** * Xattr: extended attributes

    Models simplefs_xattr.c: one block per inode, a header, entries growing up
    from offset 8 and values growing down from the end.  A set rebuilds the block
    in a temporary image and copies it over the old one. *)

From stdpp Require Import base list numbers gmap.
From S2P Require Import Prelude Image Layout Kernel DiskFormat Discard Journal MetaBuf.
From S2P Require Import Alloc Retire ExtentBuf ExtentTree InodeTable.

Local Open Scope Z_scope.
Local Open Scope fs_scope.

(** ** The block format *)

Definition SIMPLEFS_XATTR_MAGIC : Z := 1398292820.   (* 0x53584154 *)
Definition XATTR_CREATE : Z := 1.
Definition XATTR_REPLACE : Z := 2.
Definition sizeof_xattr_header : Z := 8.
Definition sizeof_xattr_entry : Z := 8.

(** [ALIGN(sizeof(struct simplefs_xattr_entry) + name_len, 4)] *)
Definition SIMPLEFS_XATTR_ENTRY_SIZE (name_len : Z) : Z :=
  (sizeof_xattr_entry + name_len + 3) / 4 * 4.

Definition h_magic (img : Z) : Z := get_u32 img 0.
Definition h_count (img : Z) : Z := get_u32 img 4.
Definition e_name_len (img off : Z) : Z := get_u8 img off.
Definition e_value_offs (img off : Z) : Z := get_u16 img (off + 2).
Definition e_value_size (img off : Z) : Z := get_u32 img (off + 4).
Definition e_name (img off : Z) : Z := get_bytes img (off + 8) (e_name_len img off).

(** [entry->e_name_len == name_len && memcmp(entry->e_name, name, name_len) == 0] *)
Definition xattr_name_is (img off name name_len : Z) : bool :=
  (e_name_len img off =? name_len) &&
  (get_bytes img (off + 8) name_len =? get_bytes name 0 name_len).

(** The loop of [simplefs_xattr_validate]: [entries_end] and [values_start], or
    nothing when an entry leaves the block. *)
Fixpoint validate_loop (n : nat) (img entries_end values_start : Z) : option (Z * Z) :=
  match n with
  | O => Some (entries_end, values_start)
  | S n' =>
      if SIMPLEFS_BLOCK_SIZE - sizeof_xattr_entry <? entries_end then None else
      let entry_size := SIMPLEFS_XATTR_ENTRY_SIZE (e_name_len img entries_end) in
      if SIMPLEFS_BLOCK_SIZE - entries_end <? entry_size then None else
      if (SIMPLEFS_BLOCK_SIZE <? e_value_offs img entries_end) ||
         (SIMPLEFS_BLOCK_SIZE - e_value_offs img entries_end <? e_value_size img entries_end)
      then None else
      validate_loop n' img (entries_end + entry_size)
        (Z.min values_start (e_value_offs img entries_end))
  end.

Definition simplefs_xattr_validate (img : Z) : Z :=
  if negb (h_magic img =? SIMPLEFS_XATTR_MAGIC) then - EUCLEAN else
  if (SIMPLEFS_BLOCK_SIZE - sizeof_xattr_header) / sizeof_xattr_entry <? h_count img
  then - EUCLEAN else
  match validate_loop (Z.to_nat (h_count img)) img sizeof_xattr_header SIMPLEFS_BLOCK_SIZE with
  | None => - EUCLEAN
  | Some (entries_end, values_start) => if values_start <? entries_end then - EUCLEAN else 0
  end.

(** The first entry with the name: its offset. *)
Fixpoint xattr_search (n : nat) (img off name name_len : Z) : option Z :=
  match n with
  | O => None
  | S n' =>
      if xattr_name_is img off name name_len then Some off
      else xattr_search n' img (off + SIMPLEFS_XATTR_ENTRY_SIZE (e_name_len img off)) name name_len
  end.

(** The scan of [simplefs_xattr_set]: the index of the last entry with the name,
    or -1. *)
Fixpoint xattr_found (n : nat) (img off i name name_len found : Z) : Z :=
  match n with
  | O => found
  | S n' =>
      xattr_found n' img (off + SIMPLEFS_XATTR_ENTRY_SIZE (e_name_len img off)) (i + 1) name name_len
        (if xattr_name_is img off name name_len then i else found)
  end.

(** The temporary block: image, end of the entries, start of the values. *)
Record xbuf := XBuf { xb_img : Z; xb_end : Z; xb_start : Z }.

Definition xattr_empty : Z := put_u32 (put_u32 0 0 SIMPLEFS_XATTR_MAGIC) 4 0.
Definition xbuf_empty : xbuf := XBuf xattr_empty sizeof_xattr_header SIMPLEFS_BLOCK_SIZE.

(** The stores for one entry at [dst] and its value at [start]. *)
Definition put_entry (img dst start name_len name size value : Z) : Z :=
  let img := put_u8 img dst name_len in
  let img := put_u8 img (dst + 1) 0 in
  let img := put_u32 img (dst + 4) size in
  let img := put_u16 img (dst + 2) start in
  let img := put_bytes img (dst + 8) name_len name in
  put_bytes img start size value.

(** One entry and its value are placed, if there is room. *)
Definition xattr_place (b : xbuf) (name_len name size value : Z) : option xbuf :=
  let entry_size := SIMPLEFS_XATTR_ENTRY_SIZE name_len in
  if (xb_start b <? size) || (xb_start b - size <? xb_end b + entry_size) then None else
  let start := xb_start b - size in
  let img := put_entry (xb_img b) (xb_end b) start name_len name size value in
  Some (XBuf (put_u32 img 4 (u32 (h_count img + 1))) (xb_end b + entry_size) start).

(** The copy of the old entries, without the one at index [found]. *)
Fixpoint xattr_copy (n : nat) (img src j found : Z) (b : xbuf) : option xbuf :=
  match n with
  | O => Some b
  | S n' =>
      let next := src + SIMPLEFS_XATTR_ENTRY_SIZE (e_name_len img src) in
      if j =? found then xattr_copy n' img next (j + 1) found b else
      match xattr_place b (e_name_len img src) (e_name img src) (e_value_size img src)
              (get_bytes img (e_value_offs img src) (e_value_size img src)) with
      | None => None
      | Some b' => xattr_copy n' img next (j + 1) found b'
      end
  end.

Section Ops.
Context {K : Kernel}.

(** The code, and the bytes copied to the caller's buffer of [size] bytes, if any. *)
Definition simplefs_xattr_get (inode name name_len : Z) (buffer : option Z) : M (Z * option Z) :=
  let! i := get_inode inode in
  if i_xattr_block i =? 0 then ret (- ENODATA, None) else
  if 255 <? name_len then ret (- ERANGE, None) else
  let! r := simplefs_get_folio (i_xattr_block i) in
  if IS_ERR r then ret (r, None) else
  let! img := read_image (i_xattr_block i) in
  let r := simplefs_xattr_validate img in
  if negb (r =? 0) then ret (r, None) else
  match xattr_search (Z.to_nat (h_count img)) img sizeof_xattr_header name name_len with
  | None => ret (- ENODATA, None)
  | Some off =>
      match buffer with
      | None => ret (e_value_size img off, None)
      | Some size =>
          if size <? e_value_size img off then ret (- ERANGE, None)
          else ret (e_value_size img off,
                    Some (get_bytes img (e_value_offs img off) (e_value_size img off)))
      end
  end.

(** The block to rebuild: a new empty one, or the inode's after validation. *)
Definition xattr_block_for (inode : Z) : M Z :=
  let! i := get_inode inode in
  if i_xattr_block i =? 0 then
    let! bno := get_free_blocks 1 in
    if bno =? 0 then ret (- ENOSPC) else
    let! r := simplefs_get_folio bno in
    if IS_ERR r then run! put_blocks bno 1 in ret r else
    run! write_image bno xattr_empty in
    run! upd_inode inode (fun i => set_i_blocks (u64 (i_blocks i + simplefs_blocks_to_sectors 1))
           (set_i_xattr_block bno i)) in
    run! kdo (MarkInodeDirty inode) in
    ret 0
  else
    let! r := simplefs_get_folio (i_xattr_block i) in
    if IS_ERR r then ret r else
    let! img := read_image (i_xattr_block i) in
    ret (if negb (simplefs_xattr_validate img =? 0) then - EUCLEAN else 0).

(** From the scan on, in the block of the inode. *)
Definition xattr_update (inode name name_len : Z) (value : option (Z * Z)) (flags : Z) : M Z :=
  let! i := get_inode inode in
  let! img := read_image (i_xattr_block i) in
  let n := Z.to_nat (h_count img) in
  let found := xattr_found n img sizeof_xattr_header 0 name name_len (-1) in
  if (0 <=? found) && negb (Z.land flags XATTR_CREATE =? 0) then ret (- EEXIST) else
  if (found <? 0) && negb (Z.land flags XATTR_REPLACE =? 0) then ret (- ENODATA) else
  let! ok := kmalloc in
  if negb ok then ret (- ENOMEM) else
  match xattr_copy n img sizeof_xattr_header 0 found xbuf_empty with
  | None => ret (- ENOSPC)
  | Some b =>
      match (match value with
             | Some (v, size) => xattr_place b name_len name size v
             | None => Some b
             end) with
      | None => ret (- ENOSPC)
      | Some b =>
          run! write_image (i_xattr_block i) (xb_img b) in
          let! r := simplefs_journal_dirty_folio (i_xattr_block i) (folio_of (i_xattr_block i)) in
          if negb (r =? 0) then ret r else
          let! ts := inode_set_ctime_current inode in
          run! kdo (MarkInodeDirty inode) in
          ret 0
      end
  end.

(** [value] is NULL ([None]) or the bytes and their number. *)
Definition simplefs_xattr_set (inode name name_len : Z) (value : option (Z * Z)) (flags : Z) : M Z :=
  if 255 <? name_len then ret (- ERANGE) else
  let! i := get_inode inode in
  if (i_xattr_block i =? 0) && bool_decide (value = None)
  then ret (if negb (Z.land flags XATTR_REPLACE =? 0) then - ENODATA else 0) else
  let! handle := simplefs_journal_start_sb 3 in
  if HANDLE_IS_ERR handle then ret (HANDLE_PTR_ERR handle) else
  let! r := xattr_block_for inode in
  let! r := (if negb (r =? 0) then ret r else xattr_update inode name name_len value flags) in
  let! stop_ret := simplefs_journal_stop handle in
  ret (if r =? 0 then stop_ret else r).

Definition simplefs_xattr_delete_inode (inode : Z) : M unit :=
  let! i := get_inode inode in
  when (negb (i_xattr_block i =? 0))
    (run! simplefs_retire_metadata_blocks (i_xattr_block i) 1 in
     upd_inode inode (set_i_xattr_block 0)).

(** [name] is the name with the handler's prefix. *)
Definition simplefs_xattr_handler_set (inode name name_len : Z) (value : option (Z * Z)) (flags : Z)
    : M Z :=
  match value with
  | None => simplefs_xattr_set inode name name_len None XATTR_REPLACE
  | Some _ => simplefs_xattr_set inode name name_len value flags
  end.

(** The names, each followed by a zero byte, and their total length; [size] is
    that of the caller's buffer, if there is one. *)
Fixpoint list_loop (n : nat) (img off r : Z) (size : option Z) (out : list (Z * Z)) : Z * list (Z * Z) :=
  match n with
  | O => (r, out)
  | S n' =>
      let full_len := e_name_len img off + 1 in
      let next := off + SIMPLEFS_XATTR_ENTRY_SIZE (e_name_len img off) in
      match size with
      | Some sz =>
          if sz <? r + full_len then (- ERANGE, out)
          else list_loop n' img next (r + full_len) size (out ++ [(e_name_len img off, e_name img off)])
      | None => list_loop n' img next (r + full_len) size out
      end
  end.

Definition simplefs_listxattr (inode : Z) (size : option Z) : M (Z * list (Z * Z)) :=
  let! i := get_inode inode in
  if i_xattr_block i =? 0 then ret (0, []) else
  let! r := simplefs_get_folio (i_xattr_block i) in
  if IS_ERR r then ret (r, []) else
  let! img := read_image (i_xattr_block i) in
  let r := simplefs_xattr_validate img in
  if negb (r =? 0) then ret (r, []) else
  ret (list_loop (Z.to_nat (h_count img)) img sizeof_xattr_header 0 size []).

End Ops.

(** ** Parsed entries *)

Record xent := Xent { x_len : Z; x_name : Z; x_size : Z; x_val : Z }.
Definition read_ent (img off : Z) : xent :=
  Xent (e_name_len img off) (e_name img off) (e_value_size img off)
    (get_bytes img (e_value_offs img off) (e_value_size img off)).
Definition next_off (img off : Z) : Z := off + SIMPLEFS_XATTR_ENTRY_SIZE (e_name_len img off).

Fixpoint parse (n : nat) (img off : Z) : list xent :=
  match n with
  | O => []
  | S n' => read_ent img off :: parse n' img (next_off img off)
  end.

(** The [n] entries from [off] end at [ne] and their values lie in [nv, 4096). *)
Fixpoint fits (n : nat) (img off ne nv : Z) : Prop :=
  match n with
  | O => off = ne
  | S n' => next_off img off <= ne /\ nv <= e_value_offs img off /\
            e_value_offs img off + e_value_size img off <= 4096 /\
            fits n' img (next_off img off) ne nv
  end.

Lemma entry_size_bounds len : 0 <= len -> 8 + len <= SIMPLEFS_XATTR_ENTRY_SIZE len.
Proof.
  intros. unfold SIMPLEFS_XATTR_ENTRY_SIZE, sizeof_xattr_entry.
  pose proof (Z.div_mod (8 + len + 3) 4). pose proof (Z.mod_pos_bound (8 + len + 3) 4). lia.
Qed.

Lemma name_len_range img off : 0 <= e_name_len img off < 256.
Proof. apply get_u8_range. Qed.

Lemma next_off_ge img off : off + 8 + e_name_len img off <= next_off img off.
Proof.
  unfold next_off. pose proof (name_len_range img off).
  pose proof (entry_size_bounds (e_name_len img off)). lia.
Qed.

Lemma fits_ge n img : forall off ne nv, fits n img off ne nv -> off + 8 * Z.of_nat n <= ne.
Proof.
  induction n as [|n IH]; intros off ne nv; cbn [fits]; [lia|].
  intros (H1 & _ & _ & H4). apply IH in H4. pose proof (next_off_ge img off).
  pose proof (name_len_range img off). lia.
Qed.

Lemma fits_weaken n img : forall off ne nv nv', nv' <= nv -> fits n img off ne nv -> fits n img off ne nv'.
Proof.
  induction n as [|n IH]; intros off ne nv nv' Hv; cbn [fits]; [done|].
  intros (? & ? & ? & ?). split_and!; try lia. by eapply IH.
Qed.

(** Images that agree on the entries and on the values parse alike. *)
Definition agree (img img' lo hi : Z) : Prop :=
  forall p m, 8 * lo <= p -> 0 <= m -> p + m <= 8 * hi -> slice img p m = slice img' p m.

Lemma read_ent_agree img img' off ne nv : 8 <= off -> next_off img off <= ne ->
  0 <= nv <= e_value_offs img off -> e_value_offs img off + e_value_size img off <= 4096 ->
  agree img img' 8 ne -> agree img img' nv 4096 ->
  read_ent img' off = read_ent img off /\ next_off img' off = next_off img off /\
  e_value_offs img' off = e_value_offs img off /\ e_value_size img' off = e_value_size img off.
Proof.
  intros Ho Hne Hnv Hv He Ha. pose proof (next_off_ge img off) as Hn.
  pose proof (name_len_range img off) as Hl.
  assert (E1 : e_name_len img' off = e_name_len img off) by (symmetry; apply He; lia).
  assert (E2 : e_value_offs img' off = e_value_offs img off) by (symmetry; apply He; lia).
  assert (E3 : e_value_size img' off = e_value_size img off) by (symmetry; apply He; lia).
  pose proof (get_u32_range img (off + 4) : is_u32 (e_value_size img off)) as [? _].
  split_and!; try done; [|unfold next_off; by rewrite E1].
  unfold read_ent, e_name. rewrite E1, E2, E3. f_equal; symmetry; [apply He|apply Ha]; lia.
Qed.

Lemma parse_agree n img img' ne nv : forall off, 8 <= off -> 0 <= nv -> fits n img off ne nv ->
  agree img img' 8 ne -> agree img img' nv 4096 ->
  parse n img' off = parse n img off /\ fits n img' off ne nv.
Proof.
  induction n as [|n IH]; intros off Ho Hnv Hf He Ha; [done|].
  cbn [fits parse] in *. destruct Hf as (H1 & H2 & H3 & H4).
  destruct (read_ent_agree img img' off ne nv) as (-> & -> & -> & ->); try done.
  pose proof (next_off_ge img off). pose proof (name_len_range img off).
  destruct (IH (next_off img off)) as [-> ?]; try done. lia.
Qed.

(** An entry appended at the end. *)
Lemma parse_snoc n img ne nv : forall off, fits n img off ne nv ->
  next_off img ne <= 4096 -> 0 <= nv <= e_value_offs img ne ->
  e_value_offs img ne + e_value_size img ne <= 4096 ->
  parse (S n) img off = parse n img off ++ [read_ent img ne] /\
  fits (S n) img off (next_off img ne) nv.
Proof.
  induction n as [|n IH]; intros off Hf Hn Hv Hs.
  - cbn [fits] in Hf. subst off. cbn. split_and!; try done; lia.
  - cbn [fits] in Hf. destruct Hf as (H1 & H2 & H3 & H4).
    destruct (IH _ H4 Hn Hv Hs) as [E F].
    change (parse (S (S n)) img off) with (read_ent img off :: parse (S n) img (next_off img off)).
    rewrite E. split; [done|].
    change (next_off img off <= next_off img ne /\ nv <= e_value_offs img off /\
      e_value_offs img off + e_value_size img off <= 4096 /\
      fits (S n) img (next_off img off) (next_off img ne) nv).
    pose proof (next_off_ge img ne). pose proof (name_len_range img ne). split_and!; try done; lia.
Qed.

(** *** The temporary block *)

Definition xb_ok (b : xbuf) (l : list xent) : Prop :=
  8 <= xb_end b /\ xb_end b <= xb_start b /\ xb_start b <= 4096 /\
  h_magic (xb_img b) = SIMPLEFS_XATTR_MAGIC /\ h_count (xb_img b) = Z.of_nat (length l) /\
  fits (length l) (xb_img b) 8 (xb_end b) (xb_start b) /\ parse (length l) (xb_img b) 8 = l.

Lemma xbuf_empty_ok : xb_ok xbuf_empty [].
Proof. split_and!; by vm_compute. Qed.

Lemma put_entry_other img dst start len name size value p m :
  0 <= dst -> 0 <= len -> 0 <= size -> 0 <= p -> 0 <= m -> dst + 8 + len <= start ->
  p + m <= 8 * dst \/ 8 * (start + size) <= p ->
  slice (put_entry img dst start len name size value) p m = slice img p m.
Proof.
  intros. unfold put_entry, put_bytes, put_u16, put_u32, put_u8.
  rewrite !slice_splice_disjoint; try lia; done.
Qed.

(** The entry reads back. *)
Lemma put_entry_fields img dst start len name size value :
  0 <= dst -> 0 <= len <= 255 -> 0 <= size <= U32_MAX -> dst + 8 + len <= start < 65536 ->
  let img' := put_entry img dst start len name size value in
  e_value_offs img' dst = start /\ e_name_len img' dst = len /\
  read_ent img' dst = Xent len (get_bytes name 0 len) size (get_bytes value 0 size).
Proof.
  intros Hd Hl Hs Hst img'.
  set (img1 := put_bytes (put_u16 (put_u32 (put_u8 (put_u8 img dst len) (dst + 1) 0)
    (dst + 4) size) (dst + 2) start) (dst + 8) len name).
  assert (Hf : forall p m, 0 <= p -> 0 <= m -> p + m <= 8 * (dst + 8 + len) ->
    slice img' p m = slice img1 p m).
  { intros p m Hp Hm Hpm. unfold img', put_entry, put_bytes at 1. apply slice_splice_disjoint; lia. }
  assert (F1 : e_name_len img' dst = len).
  { unfold e_name_len, get_u8. rewrite Hf by lia. unfold img1, put_bytes, put_u16, put_u32.
    rewrite !slice_splice_disjoint by lia. unfold put_u8. rewrite slice_splice_disjoint by lia.
    apply get_put_u8; lia. }
  assert (F2 : e_value_offs img' dst = start).
  { unfold e_value_offs, get_u16. rewrite Hf by lia. unfold img1, put_bytes.
    rewrite slice_splice_disjoint by lia. apply get_put_u16; lia. }
  assert (F3 : e_value_size img' dst = size).
  { unfold e_value_size, get_u32. rewrite Hf by lia. unfold img1, put_bytes, put_u16.
    rewrite !slice_splice_disjoint by lia. apply get_put_u32; [lia|]. unfold is_u32. lia. }
  split_and!; [done..|]. unfold read_ent, e_name. rewrite F1, F2, F3. f_equal.
  - unfold get_bytes at 1. rewrite Hf by lia. unfold img1, put_bytes.
    rewrite slice_splice_same by lia. unfold get_bytes. by rewrite Z.mul_0_r.
  - unfold get_bytes at 1, img', put_entry, put_bytes at 1.
    rewrite slice_splice_same by lia. unfold get_bytes. by rewrite Z.mul_0_r.
Qed.

Lemma xattr_place_ok b l len name size value b' : xb_ok b l ->
  0 <= len <= 255 -> 0 <= size ->
  xattr_place b len name size value = Some b' ->
  xb_ok b' (l ++ [Xent len (get_bytes name 0 len) size (get_bytes value 0 size)]).
Proof.
  intros (Hlo & Hmid & Hhi & Hmag & Hcnt & Hfit & Hpar) Hl Hsz. unfold xattr_place.
  destruct (_ || _) eqn:Hroom; [done|]. apply orb_false_iff in Hroom as [R1 R2]. bool_hyps.
  intros [= <-]. pose proof (entry_size_bounds len ltac:(lia)) as Hes.
  set (start := xb_start b - size) in *. set (dst := xb_end b) in *.
  set (img1 := put_entry (xb_img b) dst start len name size value).
  assert (Hag : forall p m, 0 <= p -> 0 <= m ->
    p + m <= 8 * dst \/ 8 * xb_start b <= p -> slice img1 p m = slice (xb_img b) p m)
    by (intros; apply put_entry_other; lia).
  destruct (put_entry_fields (xb_img b) dst start len name size value) as (F1 & F2 & F3);
    [lia|lia|unfold U32_MAX; lia|lia|]. fold img1 in F1, F2, F3.
  assert (Hc1 : h_count img1 = Z.of_nat (length l)) by (rewrite <- Hcnt; apply Hag; lia).
  pose proof (fits_ge _ _ _ _ _ Hfit) as Hge.
  rewrite Hc1, u32_id by (unfold is_u32, U32_MAX; lia).
  set (img2 := put_u32 img1 4 (Z.of_nat (length l) + 1)).
  assert (Hag2 : agree img1 img2 8 4096).
  { intros p m Hp Hm _. unfold img2, put_u32. symmetry. apply slice_splice_disjoint; lia. }
  assert (Hv : e_value_offs img1 dst + e_value_size img1 dst = xb_start b).
  { rewrite F1. injection F3 as _ _ -> _. unfold start. lia. }
  assert (Hn : next_off img1 dst = dst + SIMPLEFS_XATTR_ENTRY_SIZE len) by (unfold next_off; by rewrite F2).
  destruct (parse_agree (length l) (xb_img b) img1 dst (xb_start b) 8) as [E F]; try done; try lia;
    [intros p m ? ? ?; symmetry; apply Hag; lia..|].
  apply (fits_weaken _ _ _ _ _ start) in F; [|lia].
  destruct (parse_snoc (length l) img1 dst start 8 F) as [E1 G1]; try lia.
  destruct (parse_agree (S (length l)) img1 img2 (next_off img1 dst) start 8) as [E2 G2]; try done; try lia.
  { intros p m ? ? ?. apply Hag2; lia. }
  { intros p m ? ? ?. apply Hag2; lia. }
  unfold xb_ok. cbn [xb_img xb_end xb_start]. rewrite length_app, Nat.add_1_r.
  split_and!; try lia.
  - rewrite <- Hmag. unfold h_magic, get_u32, img2, put_u32.
    rewrite slice_splice_disjoint by lia. apply Hag; lia.
  - unfold h_count, img2. rewrite get_put_u32; [cbn; lia|lia|unfold is_u32, U32_MAX; lia].
  - by rewrite <- Hn.
  - by rewrite E2, E1, E, F3, Hpar.
Qed.

(** *** Validation and copying *)

Lemma validate_loop_fits n img : forall off vs ne nv, 8 <= off -> 0 <= vs ->
  validate_loop n img off vs = Some (ne, nv) ->
  fits n img off ne nv /\ nv <= vs /\ 0 <= nv /\ off <= ne /\ (ne <= 4096 \/ n = O).
Proof.
  induction n as [|n IH]; intros off vs ne nv Ho Hvs; cbn [validate_loop]; [by intros [= <- <-]; split_and!; try lia; auto|].
  repeat (case_match; try done). bool_hyps. fold (next_off img off). intros Hr.
  unfold SIMPLEFS_BLOCK_SIZE, sizeof_xattr_entry in *. fold (next_off img off) in *.
  pose proof (next_off_ge img off). pose proof (name_len_range img off).
  pose proof (get_u16_range img (off + 2) : 0 <= e_value_offs img off < 65536).
  apply IH in Hr as (F & Hle & Hnn & Hne & Hbd); [|lia|lia]. split_and!; try lia.
  - cbn [fits]. split_and!; try done; lia.
  - left. destruct Hbd as [?| ->]; [done|]. cbn in F. unfold next_off in *. lia.
Qed.

Definition xattr_list (img : Z) : list xent := parse (Z.to_nat (h_count img)) img 8.

Lemma validate_spec img : simplefs_xattr_validate img = 0 ->
  exists ne nv, 8 <= ne <= nv /\ nv <= 4096 /\ fits (Z.to_nat (h_count img)) img 8 ne nv.
Proof.
  unfold simplefs_xattr_validate. repeat (case_match; try done). intros _. bool_hyps.
  apply validate_loop_fits in H1 as (F & ? & ? & ? & _); unfold SIMPLEFS_BLOCK_SIZE, sizeof_xattr_header in *; try lia.
  eexists _, _. split_and!; [| | |exact F]; lia.
Qed.

Lemma fits_validate n img : forall off vs ne nv, fits n img off ne nv -> 8 <= off -> ne <= 4096 ->
  0 <= nv <= vs -> exists v, nv <= v /\ validate_loop n img off vs = Some (ne, v).
Proof.
  induction n as [|n IH]; intros off vs ne nv F Ho Hne Hv; cbn [fits validate_loop] in *.
  { subst. exists vs. split; [lia|done]. }
  destruct F as (H1 & H2 & H3 & F). pose proof (next_off_ge img off) as Hge.
  pose proof (name_len_range img off). unfold SIMPLEFS_BLOCK_SIZE, sizeof_xattr_entry.
  pose proof (get_u32_range img (off + 4) : is_u32 (e_value_size img off)) as [? _].
  destruct (Z.ltb_spec (4096 - 8) off); [lia|].
  destruct (Z.ltb_spec (4096 - off) (SIMPLEFS_XATTR_ENTRY_SIZE (e_name_len img off)));
    [unfold next_off in *; lia|].
  destruct (Z.ltb_spec 4096 (e_value_offs img off)); [lia|].
  destruct (Z.ltb_spec (4096 - e_value_offs img off) (e_value_size img off)); [lia|].
  cbn [orb]. apply (IH _ _ ne nv F); lia.
Qed.

Lemma xb_ok_valid b l : xb_ok b l -> simplefs_xattr_validate (xb_img b) = 0 /\ xattr_list (xb_img b) = l.
Proof.
  intros (Hlo & Hmid & Hhi & Hmag & Hcnt & Hfit & Hpar). unfold simplefs_xattr_validate, xattr_list.
  rewrite Hmag, Z.eqb_refl, Hcnt, Nat2Z.id. cbn [negb]. split; [|done].
  pose proof (fits_ge _ _ _ _ _ Hfit). change ((SIMPLEFS_BLOCK_SIZE - sizeof_xattr_header) / sizeof_xattr_entry) with 511.
  destruct (Z.ltb_spec 511 (Z.of_nat (length l))); [lia|].
  unfold sizeof_xattr_header, SIMPLEFS_BLOCK_SIZE.
  destruct (fits_validate (length l) (xb_img b) 8 4096 (xb_end b) (xb_start b)) as (v & Hv & ->); try done; try lia.
  destruct (Z.ltb_spec v (xb_end b)); [lia|done].
Qed.

(** The entries kept: all but the one at index [found]. *)
Fixpoint skip (found j : Z) (l : list xent) : list xent :=
  match l with
  | [] => []
  | e :: l' => if j =? found then skip found (j + 1) l' else e :: skip found (j + 1) l'
  end.

Lemma xattr_copy_ok n img found ne nv : forall src j b l b', fits n img src ne nv ->
  xb_ok b l -> xattr_copy n img src j found b = Some b' ->
  xb_ok b' (l ++ skip found j (parse n img src)).
Proof.
  induction n as [|n IH]; intros src j b l b' F Hb; cbn [xattr_copy parse skip].
  { intros [= <-]. by rewrite app_nil_r. }
  cbn [fits] in F. destruct F as (_ & _ & _ & F). fold (next_off img src).
  destruct (j =? found); [by apply IH|]. case_match eqn:Hp; [|done].
  apply (xattr_place_ok b l) in Hp; try done.
  - intros Hc. apply (IH _ _ _ _ _ F Hp) in Hc. rewrite <- app_assoc in Hc. cbn [app] in Hc.
    assert (Xent (e_name_len img src) (get_bytes (e_name img src) 0 (e_name_len img src)) (e_value_size img src)
      (get_bytes (get_bytes img (e_value_offs img src) (e_value_size img src)) 0 (e_value_size img src)) =
      read_ent img src) as Er; [|by rewrite Er in Hc].
    pose proof (name_len_range img src).
    pose proof (get_u16_range img (src + 2) : 0 <= e_value_offs img src < 65536).
    pose proof (get_u32_range img (src + 4) : is_u32 (e_value_size img src)) as [? _].
    unfold read_ent, e_name, get_bytes. f_equal.
    + apply slice_small; [lia|]. split; [apply slice_nonneg; lia|]. by apply slice_lt; lia.
    + apply slice_small; [lia|]. split; [apply slice_nonneg; lia|]. by apply slice_lt; lia.
  - pose proof (name_len_range img src). lia.
  - pose proof (get_u32_range img (src + 4)) as [? _]. done.
Qed.

(** ** The attributes as a map *)

Definition xkey (e : xent) : Z * Z := (x_len e, x_name e).
Definition qkey (name name_len : Z) : Z * Z := (name_len, get_bytes name 0 name_len).
Definition xpair (e : xent) : (Z * Z) * (Z * Z) := (xkey e, (x_size e, x_val e)).

(** No name occurs twice. *)
Definition unique (l : list xent) : Prop := NoDup (map xkey l).
Definition xattr_block_ok (img : Z) : Prop :=
  simplefs_xattr_validate img = 0 /\ unique (xattr_list img).

(** Name to value, with its size. *)
Definition xattrs (img : Z) : gmap (Z * Z) (Z * Z) := list_to_map (map xpair (xattr_list img)).

Lemma name_is_spec img off name len : 0 <= len ->
  xattr_name_is img off name len = bool_decide (xkey (read_ent img off) = qkey name len).
Proof.
  intros Hl. unfold xattr_name_is, xkey, qkey, read_ent, e_name. cbn.
  destruct (Z.eqb_spec (e_name_len img off) len) as [->|Hne]; cbn [andb].
  - destruct (Z.eqb_spec (get_bytes img (off + 8) len) (get_bytes name 0 len)) as [->|Hn].
    + symmetry. by apply bool_decide_eq_true_2.
    + symmetry. apply bool_decide_eq_false_2. congruence.
  - symmetry. apply bool_decide_eq_false_2. congruence.
Qed.

(** The last index with the key, over the parsed list. *)
Fixpoint last_index (q : Z * Z) (j f : Z) (l : list xent) : Z :=
  match l with
  | [] => f
  | e :: l' => last_index q (j + 1) (if bool_decide (xkey e = q) then j else f) l'
  end.

Lemma xattr_found_spec n img name len : 0 <= len -> forall off j f,
  xattr_found n img off j name len f = last_index (qkey name len) j f (parse n img off).
Proof.
  intros Hl. induction n as [|n IH]; intros off j f; cbn [xattr_found parse last_index]; [done|].
  by rewrite IH, name_is_spec.
Qed.

Lemma last_index_none q l : forall j f, q ∉ map xkey l -> last_index q j f l = f.
Proof.
  induction l as [|e l IH]; intros j f Hq; cbn in *; [done|]. apply not_elem_of_cons in Hq as [H1 H2].
  rewrite bool_decide_eq_false_2 by congruence. by apply IH.
Qed.

Lemma last_index_range q l : forall j f, last_index q j f l = f \/ j <= last_index q j f l.
Proof.
  induction l as [|e l IH]; intros j f; cbn; [by left|].
  destruct (IH (j + 1) (if bool_decide (xkey e = q) then j else f)) as [H|H].
  - rewrite H. destruct (bool_decide _); [right; lia|by left].
  - right. lia.
Qed.

Lemma skip_none f l : forall j, f < j -> skip f j l = l.
Proof.
  induction l as [|e l IH]; intros j Hj; cbn; [done|].
  destruct (Z.eqb_spec j f); [lia|]. f_equal. apply IH. lia.
Qed.

Lemma filter_others q l : q ∉ map xkey l -> filter (fun e => xkey e <> q) l = l.
Proof.
  induction l as [|e l IH]; intros Hq; [done|]. apply not_elem_of_cons in Hq as [H1 H2].
  rewrite filter_cons. rewrite decide_True by congruence. by rewrite IH.
Qed.

(** With unique names, skipping the index found removes the name. *)
Lemma skip_found q l : forall j f, unique l -> f < j ->
  skip (last_index q j f l) j l = filter (fun e => xkey e <> q) l.
Proof.
  induction l as [|e l IH]; intros j f Hu Hf; [done|].
  apply NoDup_cons in Hu as [Hx Hu]. fold (map xkey l) in *. cbn [last_index skip].
  rewrite filter_cons. case_decide as Hk.
  - rewrite bool_decide_eq_false_2 by done.
    destruct (last_index_range q l (j + 1) f) as [E|E];
      destruct (Z.eqb_spec j (last_index q (j + 1) f l)); try lia; f_equal; apply IH; try done; lia.
  - rewrite bool_decide_eq_true_2 by done.
    rewrite last_index_none by (by rewrite <- Hk). rewrite Z.eqb_refl.
    rewrite skip_none by lia. symmetry. apply filter_others. by rewrite <- Hk.
Qed.

Lemma last_index_sign q l : last_index q 0 (-1) l < 0 <-> q ∉ map xkey l.
Proof.
  split.
  - intros H Hin. induction l as [|e l IH] using rev_ind; [by apply not_elem_of_nil in Hin|].
    assert (Happ : forall j f, last_index q j f (l ++ [e]) =
      if bool_decide (xkey e = q) then j + Z.of_nat (length l) else last_index q j f l).
    { clear. induction l as [|a l IH]; intros j f; cbn [app last_index length].
      - by rewrite Z.add_0_r.
      - rewrite IH. case_bool_decide; [lia|done]. }
    rewrite Happ in H. case_bool_decide as E; [lia|].
    rewrite map_app in Hin. apply elem_of_app in Hin as [Hin|Hin]; [by apply IH|].
    apply list_elem_of_singleton in Hin. congruence.
  - intros H. rewrite last_index_none by done. lia.
Qed.

Lemma filter_map_lookup q l : unique l ->
  list_to_map (map xpair (filter (fun e => xkey e <> q) l)) =@{gmap (Z * Z) (Z * Z)}
  delete q (list_to_map (map xpair l)).
Proof.
  induction l as [|e l IH]; intros Hu; [cbn; by rewrite delete_empty|].
  apply NoDup_cons in Hu as [Hx Hu]. rewrite filter_cons.
  case_decide as Hk; cbn [map list_to_map foldr].
  - change (<[xkey e := (x_size e, x_val e)]> (list_to_map (map xpair (filter (fun e => xkey e <> q) l))) =@{gmap (Z * Z) (Z * Z)}
      delete q (<[xkey e := (x_size e, x_val e)]> (list_to_map (map xpair l)))).
    rewrite IH by done. by rewrite delete_insert_ne.
  - rewrite IH by done.
    change (delete q (list_to_map (map xpair l)) =@{gmap (Z * Z) (Z * Z)}
      delete q (<[xkey e := (x_size e, x_val e)]> (list_to_map (map xpair l)))).
    by rewrite Hk, delete_insert_eq.
Qed.

Lemma unique_filter q l : unique l -> unique (filter (fun e => xkey e <> q) l).
Proof.
  unfold unique. induction l as [|e l IH]; intros Hu; [constructor|].
  apply NoDup_cons in Hu as [Hx Hu]. rewrite filter_cons. case_decide; [|by apply IH].
  apply NoDup_cons. split; [|by apply IH]. intros (e' & E & He')%list_elem_of_fmap.
  apply Hx, list_elem_of_fmap. exists e'. split; [done|]. by apply list_elem_of_filter in He' as [_ ?].
Qed.

(** The rebuilt block of [simplefs_xattr_set]. *)
Definition xattr_rebuild (img name len : Z) (value : option (Z * Z)) : option xbuf :=
  let n := Z.to_nat (h_count img) in
  let found := xattr_found n img sizeof_xattr_header 0 name len (-1) in
  match xattr_copy n img sizeof_xattr_header 0 found xbuf_empty with
  | None => None
  | Some b => match value with Some (v, size) => xattr_place b len name size v | None => Some b end
  end.

Definition value_ok (value : option (Z * Z)) : Prop :=
  match value with Some (_, size) => 0 <= size | None => True end.

Lemma xattr_rebuild_spec img name len value b : xattr_block_ok img -> 0 <= len <= 255 -> value_ok value ->
  xattr_rebuild img name len value = Some b ->
  xattr_block_ok (xb_img b) /\
  xattrs (xb_img b) = match value with
                      | Some (v, size) => <[qkey name len := (size, get_bytes v 0 size)]> (xattrs img)
                      | None => delete (qkey name len) (xattrs img)
                      end.
Proof.
  intros [Hv Hu] Hl Hval. unfold xattr_rebuild. destruct (validate_spec img Hv) as (ne & nv & _ & _ & F).
  rewrite xattr_found_spec by lia. unfold sizeof_xattr_header. fold (xattr_list img).
  destruct (xattr_copy _ _ _ _ _ _) as [b0|] eqn:Hc; [|discriminate].
  apply (xattr_copy_ok _ _ _ ne nv _ _ _ []) in Hc; [|exact F|apply xbuf_empty_ok].
  fold (xattr_list img) in Hc. cbn [app] in Hc.
  rewrite skip_found in Hc by (done || lia).
  pose proof (unique_filter (qkey name len) _ Hu) as Hu'.
  unfold xattrs. destruct value as [[v size]|]; intros Hp.
  - apply (xattr_place_ok _ _ _ _ _ _ _ Hc Hl Hval), xb_ok_valid in Hp as [Hv' El].
    unfold xattr_block_ok. rewrite El. split_and!; [done| |].
    + unfold unique in *. rewrite map_app. apply NoDup_app. split; [done|]. split; [|apply NoDup_singleton].
      intros k Hk ->%list_elem_of_singleton. apply list_elem_of_fmap in Hk as (e & E & He).
      apply list_elem_of_filter in He as [He _]. apply He. by rewrite <- E.
    + rewrite map_app, list_to_map_app, filter_map_lookup by done. cbn.
      rewrite insert_empty, <- insert_union_singleton_r by apply lookup_delete_eq.
      by rewrite insert_delete_eq.
  - injection Hp as ->. apply xb_ok_valid in Hc as [Hv' El]. unfold xattr_block_ok. rewrite El.
    split_and!; [done|done|]. by rewrite filter_map_lookup.
Qed.

(** A search over the block is a lookup in the map. *)
Lemma xattr_search_spec n img name len : 0 <= len -> forall off,
  match xattr_search n img off name len with
  | Some o => list_to_map (M := gmap (Z * Z) (Z * Z)) (map xpair (parse n img off)) !! qkey name len =
      Some (x_size (read_ent img o), x_val (read_ent img o))
  | None => list_to_map (M := gmap (Z * Z) (Z * Z)) (map xpair (parse n img off)) !! qkey name len = None
  end.
Proof.
  intros Hl. induction n as [|n IH]; intros off; cbn [xattr_search parse map list_to_map foldr]; [done|].
  rewrite name_is_spec by done. cbn. case_bool_decide as E.
  - by rewrite E, lookup_insert_eq.
  - fold (next_off img off). specialize (IH (next_off img off)).
    destruct (xattr_search n img (next_off img off) name len); by rewrite lookup_insert_ne.
Qed.

(** ** Theorems *)

Section Theorems.
Context {K : Kernel}.

Definition xattr_block (w : world) (inode : Z) : Z := i_xattr_block (inode_of w inode).

(** The attributes of an inode: none without a block. *)
Definition xattrs_at (w : world) (inode : Z) : gmap (Z * Z) (Z * Z) :=
  if xattr_block w inode =? 0 then ∅ else xattrs (block_image w (xattr_block w inode)).
Definition attrs_ok (w : world) (inode : Z) : Prop :=
  xattr_block w inode = 0 \/ xattr_block_ok (block_image w (xattr_block w inode)).

Definition xattr_updated (name len : Z) (value : option (Z * Z)) (m : gmap (Z * Z) (Z * Z)) :=
  match value with
  | Some (v, size) => <[qkey name len := (size, get_bytes v 0 size)]> m
  | None => delete (qkey name len) m
  end.

Lemma attrs_store w w' inode : store w' = store w ->
  xattr_block w' inode = xattr_block w inode /\ xattrs_at w' inode = xattrs_at w inode /\
  (attrs_ok w inode -> attrs_ok w' inode).
Proof.
  intros [Eb Ei]%store_inv. unfold attrs_ok, xattrs_at, xattr_block, inode_of, block_image.
  by rewrite Eb, Ei.
Qed.

Lemma no_block_inodes w w' inode : w_inodes w' = w_inodes w -> xattr_block w inode = 0 ->
  xattr_block w' inode = 0 /\ xattrs_at w' inode = ∅ /\ xattrs_at w inode = ∅.
Proof.
  unfold xattrs_at, xattr_block, inode_of. intros -> E. by rewrite E.
Qed.

Lemma xattr_empty_ok : xattr_block_ok xattr_empty /\ xattrs xattr_empty = ∅.
Proof.
  destruct (xb_ok_valid xbuf_empty [] xbuf_empty_ok) as [Hv Hl]. cbn [xb_img xbuf_empty] in *.
  unfold xattr_block_ok, xattrs. rewrite Hl. split; [split; [done|constructor]|done].
Qed.

Lemma xattr_block_for_spec inode w : attrs_ok w inode ->
  wp (xattr_block_for inode) (fun r w' =>
    attrs_ok w' inode /\ xattrs_at w' inode = xattrs_at w inode /\
    (r = 0 -> xattr_block w' inode <> 0)) w.
Proof.
  intros Hok. unfold xattr_block_for. kwp. fold (xattr_block w inode).
  destruct (Z.eqb_spec (xattr_block w inode) 0) as [E|E].
  - assert (Hno : forall w', w_inodes w' = w_inodes w ->
      attrs_ok w' inode /\ xattrs_at w' inode = xattrs_at w inode).
    { intros w' Hi. destruct (no_block_inodes w w' inode Hi E) as (H1 & -> & ->). by split; [left|]. }
    apply wp_bind. eapply wp_mono.
    { apply (wp_pres (fun w' => w_inodes w' = w_inodes w)); [|done].
      apply (get_free_blocks_apres _ (HA := inodes_astable (fun m => m = w_inodes w))). }
    intros bno w1 H1. cbv beta in H1. destruct (Z.eqb_spec bno 0).
    { apply wp_ret. destruct (Hno w1 H1). by split_and!. }
    apply wp_bind. eapply wp_mono; [apply store_wp; intros; pres|].
    intros r w2 [Eb2 Ei2]%store_inv. destruct (IS_ERR r) eqn:Hr.
    + kwp. eapply wp_mono.
      { apply (wp_pres (fun w' => w_inodes w' = w_inodes w)); [|congruence].
        apply (put_blocks_apres _ (HA := inodes_astable (fun m => m = w_inodes w))). }
      intros u w3 H3. cbv beta in H3. apply wp_ret. destruct (Hno w3 H3). split_and!; try done.
      intros ->. done.
    + kwp. unfold attrs_ok, xattrs_at, xattr_block, inode_of, block_image. cbn.
      rewrite !lookup_insert_eq. cbn. rewrite ?lookup_insert_eq. cbn.
      destruct (Z.eqb_spec bno 0); [done|]. destruct xattr_empty_ok as [H2 H3].
      split_and!; [by right| |done]. rewrite H3. change (fun x : Kernel.inode => x) with (@id Kernel.inode). unfold xattr_block, inode_of in E. by rewrite E.
  - apply wp_bind. eapply wp_mono; [apply store_wp; intros; pres|].
    intros r w1 Hst. destruct (attrs_store w w1 inode Hst) as (E1 & E2 & E3).
    destruct (IS_ERR r) eqn:Hr; kwp.
    + split_and!; auto. intros ->. done.
    + split_and!; auto. by rewrite E1.
Qed.

Lemma xattrs_none img q : xattrs img !! q = None <-> q ∉ map xkey (xattr_list img).
Proof.
  unfold xattrs. rewrite <- not_elem_of_list_to_map.
  assert ((map xpair (xattr_list img)).*1 = map xkey (xattr_list img)) as ->; [|done].
  induction (xattr_list img) as [|e l IH]; cbn; [done|]. by rewrite IH.
Qed.

(** The answers with which the journal refuses a block or the end of the
    transaction. *)
Definition journal_refused (r : Z) (c : kcall) (a : Z) : Prop :=
  match c with
  | SbGetblk _ => a <> 0 /\ r = - ENOMEM
  | Jbd2GetWriteAccess _ _ | Jbd2DirtyMetadata _ _ | Jbd2Stop _ => a <> 0 /\ r = a
  | JournalCurrentHandle => a = 0 /\ r = - EUCLEAN
  | _ => False
  end.

Lemma answered_now w (P : kcall -> Z -> Prop) w' t t0 c r :
  w_trace w' = t ++ (c, r) :: t0 ++ w_trace w -> P c r -> answered_since w P w'.
Proof.
  intros Ht HP. exists (t ++ (c, r) :: t0). rewrite Ht, <- app_assoc. split; [done|].
  apply Exists_app. right. by constructor.
Qed.

Lemma jbd2_dirty_refused h n data w :
  wp (simplefs_jbd2_dirty h n data (Some (folio_of n))) (fun r w' =>
    r <> 0 -> answered_since w (journal_refused r) w') w.
Proof.
  unfold simplefs_jbd2_dirty, folio_of, simplefs_journal_mark_shutdown. rewrite !Z.ltb_irrefl. cbn [orb].
  kwp. destruct (Z.eqb_spec r 0) as [->|Hr]; cbn [negb]; kwp.
  - destruct (Z.eqb_spec r 0) as [->|Hr]; cbn [negb]; kwp.
    + intros Hr1. by eapply (answered_now _ _ _ [] [_; _]).
    + wp_if; kwp; intros _; by eapply (answered_now _ _ _ [_] [_]).
  - intros _. by eapply (answered_now _ _ _ [] []).
Qed.

Lemma dirty_folio_refused n w :
  wp (simplefs_journal_dirty_folio n (folio_of n)) (fun r w' =>
    r <> 0 -> answered_since w (journal_refused r) w') w.
Proof.
  assert (Hd : forall h w1, extends w w1 -> wp (simplefs_jbd2_dirty h n 0 (Some (folio_of n)))
    (fun r w' => r <> 0 -> answered_since w (journal_refused r) w') w1).
  { intros h w1 He. eapply wp_mono; [apply jbd2_dirty_refused|]. intros r w' H Hr.
    eapply answered_extends; [exact He|auto]. }
  unfold simplefs_journal_dirty_folio, simplefs_current_jbd2_handle, has_jbd2. kwp.
  destruct (s_journal (w_sbi w)) as [j|]; [|apply wp_ret; cbn; kwp; done].
  destruct (j_jbd2 j); cbn [negb]; [|apply wp_ret; cbn; kwp; done].
  kwp. destruct (Z.eqb_spec r 0) as [->|Hr]; cbn [negb]; kwp.
  - assert (Hex : forall P w1, w_trace w1 = (JournalCurrentHandle, 0) :: w_trace w ->
      P JournalCurrentHandle 0 -> answered_since w P w1) by (intros; by eapply (answered_now _ _ _ [] [])).
    wp_if; apply wp_ret; cbn [Z.eqb negb]; [wp_if; [apply Hd; by eexists [_]|]|]; apply wp_ret; intros _; by apply Hex.
  - rewrite (proj2 (Z.eqb_neq _ _) Hr). cbn [negb]. apply Hd. by eexists [_].
Qed.

Lemma stop_refused hd w :
  wp (simplefs_journal_stop hd) (fun r w' => r <> 0 -> answered_since w (journal_refused r) w') w.
Proof.
  destruct hd as [e| |h]; cbn [simplefs_journal_stop]; try (apply wp_ret; done).
  unfold simplefs_journal_mark_shutdown, upd_journal. kwp.
  destruct (Z.eqb_spec r 0) as [->|Hr]; cbn [negb]; kwp; [done|].
  wp_if; kwp; intros _; by eapply (answered_now _ _ _ [_] []).
Qed.

(** What XATTR_CREATE and XATTR_REPLACE ask of the attributes there are. *)
Definition flags_obeyed (flags name len : Z) (old : gmap (Z * Z) (Z * Z)) : Prop :=
  (Z.land flags XATTR_CREATE <> 0 -> old !! qkey name len = None) /\
  (Z.land flags XATTR_REPLACE <> 0 -> old !! qkey name len <> None).

Lemma xattr_block_for_pres (I : world -> Prop) `{!FStable I} i : preserves I (xattr_block_for i).
Proof. unfold xattr_block_for. repeat (pres_step || apply js_image). Qed.
Lemma xattr_update_pres (I : world -> Prop) `{!FStable I} i n l v f : preserves I (xattr_update i n l v f).
Proof. unfold xattr_update. repeat (pres_step || apply js_image). Qed.

Lemma xattr_update_spec inode name len value flags w :
  attrs_ok w inode -> xattr_block w inode <> 0 -> 0 <= len <= 255 -> value_ok value ->
  let old := xattrs_at w inode in
  let new := xattr_updated name len value old in
  wp (xattr_update inode name len value flags) (fun r w' =>
    attrs_ok w' inode /\
    (r = 0 -> xattrs_at w' inode = new /\ flags_obeyed flags name len old) /\
    (r <> 0 -> xattrs_at w' inode = old \/
       (xattrs_at w' inode = new /\ flags_obeyed flags name len old /\
        answered_since w (journal_refused r) w'))) w.
Proof.
  intros Hok Hb Hl Hv old new. destruct Hok as [?|Hok]; [done|].
  unfold xattr_update. kwp. fold (xattr_block w inode).
  set (img := block_image w (xattr_block w inode)) in *.
  assert (Hold : old = xattrs img).
  { unfold old, xattrs_at. by rewrite (proj2 (Z.eqb_neq _ _) Hb). }
  set (found := xattr_found _ img sizeof_xattr_header 0 name len (-1)).
  assert (Hfound : found < 0 <-> old !! qkey name len = None).
  { rewrite Hold, xattrs_none. unfold found. rewrite xattr_found_spec by lia. apply last_index_sign. }
  assert (Hsame : attrs_ok w inode) by (by right).
  destruct ((0 <=? found) && _) eqn:Hcr; [kwp; split_and!; auto; discriminate|].
  destruct ((found <? 0) && _) eqn:Hre; [kwp; split_and!; auto; discriminate|].
  assert (Hflags : flags_obeyed flags name len old).
  { unfold flags_obeyed. rewrite <- Hfound. destruct (Z.leb_spec 0 found), (Z.ltb_spec found 0); try lia; cbn in *;
      bool_hyps; split; intros; try lia; done. }
  kwp. match goal with |- wp (if ?b then _ else _) _ _ => destruct b end; kwp; [split_and!; auto; discriminate|].
  match goal with |- wp _ _ ?w0 => set (w1 := w0) end.
  assert (Hsame1 : attrs_ok w1 inode /\ xattrs_at w1 inode = old) by (by split).
  pose proof (xattr_rebuild_spec img name len value) as Hspec. unfold xattr_rebuild in Hspec. fold found in Hspec.
  destruct (xattr_copy _ img _ 0 found xbuf_empty) as [b|]; [|kwp; destruct Hsame1; split_and!; auto; discriminate].
  destruct (match value with Some _ => _ | None => _ end) as [b'|] eqn:Hp;
    [|kwp; destruct Hsame1; split_and!; auto; discriminate].
  destruct (Hspec b' Hok Hl Hv eq_refl) as [Hok' Hx]. clear Hspec. kwp.
  match goal with |- wp (simplefs_journal_dirty_folio _ _) _ ?w0 => set (w2 := w0) end.
  assert (E2 : xattr_block w2 inode = xattr_block w inode) by done.
  assert (H2 : attrs_ok w2 inode /\ xattrs_at w2 inode = new).
  { unfold attrs_ok, xattrs_at. rewrite E2, (proj2 (Z.eqb_neq _ _) Hb).
    assert (block_image w2 (xattr_block w inode) = xb_img b') as ->.
    { unfold w2. rewrite block_image_insert. by rewrite decide_True. }
    split; [by right|]. rewrite Hx. unfold new. rewrite Hold. by destruct value as [[? ?]|]. }
  assert (Hx2 : extends w w2) by (by eexists [_]).
  clearbody w2. eapply wp_mono; [apply wp_conj; [apply store_wp; intros; pres|apply dirty_folio_refused]|].
  intros rd w3 [Hst Href]. destruct (attrs_store w2 w3 inode Hst) as (E3 & E4 & E5). destruct H2 as [H2 H2'].
  match goal with |- wp (if ?b then _ else _) _ _ => destruct b eqn:Hr end; kwp.
  { split_and!; [auto|intros ->; done|]. intros Hrd. right. split_and!; [congruence|done|].
    eapply answered_extends; [exact Hx2|by apply Href]. }
  unfold inode_set_ctime_current. kwp.
  unfold attrs_ok, xattrs_at, xattr_block, inode_of, block_image in *. cbn.
  rewrite lookup_insert_eq. cbn. split_and!; [auto| |done]. intros _. rewrite <- H2', <- E4. by split.
Qed.

(** The block is found or made and then rebuilt; whatever happens, the trace only
    grows. *)
Lemma xattr_body_spec inode name len value flags w w1 :
  attrs_ok w1 inode -> extends w w1 -> 0 <= len <= 255 -> value_ok value ->
  let old := xattrs_at w1 inode in
  let new := xattr_updated name len value old in
  wp (let! r := xattr_block_for inode in
      if negb (r =? 0) then ret r else xattr_update inode name len value flags) (fun r w' =>
    extends w w' /\ attrs_ok w' inode /\
    (r = 0 -> xattrs_at w' inode = new /\ flags_obeyed flags name len old) /\
    (r <> 0 -> xattrs_at w' inode = old \/
       (xattrs_at w' inode = new /\ flags_obeyed flags name len old /\
        answered_since w (journal_refused r) w'))) w1.
Proof.
  intros Hok Hx1 Hl Hv old new. apply wp_bind. eapply wp_mono.
  { apply wp_conj; [apply xattr_block_for_spec; auto|]. apply (wp_pres (extends w)); [|exact Hx1].
    apply xattr_block_for_pres; apply _. }
  intros r w2 [(H1 & H2 & H3) Hx2]. fold old in H2.
  destruct (Z.eqb_spec r 0) as [Er|Er]; cbn [negb]; [|apply wp_ret; split_and!; [done..|by left]].
  apply wp_conj; [apply (wp_pres (extends w)); [apply xattr_update_pres; apply _|exact Hx2]|].
  pose proof (xattr_update_spec inode name len value flags w2 H1 (H3 Er) Hl Hv) as Hu.
  rewrite H2 in Hu. cbv zeta in Hu. fold new in Hu. eapply wp_mono; [exact Hu|]. intros r2 w3 (G1 & G2 & G3).
  split_and!; [done..|]. intros Hr2. destruct (G3 Hr2) as [?|(? & ? & Ha)]; [by left|right]. split_and!; [done..|].
  by eapply answered_extends.
Qed.

Lemma bind_assoc_wp {A B C} (m : M A) (f : A -> M B) (g : B -> M C) Q w :
  wp (let! b := (let! a := m in f a) in g b) Q w -> wp (let! a := m in let! b := f a in g b) Q w.
Proof. unfold wp, bind. by destruct (m w). Qed.

(** C26: setting an extended attribute refines a map update: when
    [simplefs_xattr_set] returns 0 the attributes of the inode are the old ones
    with the name bound to the value (or removed), XATTR_CREATE and XATTR_REPLACE
    were obeyed, and the block is valid with no duplicate name; when it fails the
    attributes are the old ones or, if the flags allow the change and the code is
    that with which the journal refused the rebuilt block or the end of the
    transaction, the new ones, never a mixture. *)
Theorem xattr_set_refines inode name len value flags w :
  attrs_ok w inode -> 0 <= len -> value_ok value ->
  let old := xattrs_at w inode in
  let new := xattr_updated name len value old in
  wp (simplefs_xattr_set inode name len value flags) (fun r w' =>
    attrs_ok w' inode /\
    (r = 0 -> xattrs_at w' inode = new /\
       (Z.land flags XATTR_CREATE <> 0 -> value <> None -> old !! qkey name len = None) /\
       (Z.land flags XATTR_REPLACE <> 0 -> old !! qkey name len <> None)) /\
    (r <> 0 -> xattrs_at w' inode = old \/
       (xattrs_at w' inode = new /\ flags_obeyed flags name len old /\
        answered_since w (journal_refused r) w'))) w.
Proof.
  intros Hok Hl Hv old new. unfold simplefs_xattr_set.
  destruct (Z.ltb_spec 255 len); [apply wp_ret; split_and!; auto; discriminate|].
  kwp. fold (xattr_block w inode). destruct ((_ =? 0) && _) eqn:Hnone.
  { apply andb_true_iff in Hnone as [E1 E2]. apply bool_decide_eq_true in E2. bool_hyps.
    assert (Ho : old = ∅) by (unfold old, xattrs_at; by rewrite E1).
    apply wp_ret. split_and!; [done| |by left].
    intros Hr. split_and!; [|done|].
    - unfold new, xattr_updated. rewrite E2, Ho, delete_empty. exact Ho.
    - intros Hf. rewrite (proj2 (Z.eqb_neq _ _) Hf) in Hr. discriminate. }
  apply wp_bind. eapply wp_mono.
  { apply wp_conj; [apply start_sb_err|apply wp_conj; [apply store_wp; intros; pres|]].
    apply (wp_pres (extends w)); [pres|apply extends_refl]. }
  intros hd w1 (He & Hst & Hx1). destruct (attrs_store w w1 inode Hst) as (E1 & E2 & E3).
  destruct (HANDLE_IS_ERR hd) eqn:Hh.
  { apply wp_ret. split_and!; [auto| |intros _; left; done].
    destruct hd; cbn in *; try done. intros. lia. }
  apply bind_assoc_wp, wp_bind. eapply wp_mono.
  { apply (xattr_body_spec inode name len value flags w w1); [auto|done|lia|done]. }
  rewrite E2. fold old. fold new.
  intros r2 w3 (Hx3 & G1 & G2 & G3). apply wp_bind. eapply wp_mono.
  { apply wp_conj; [apply store_wp; intros; pres|apply wp_conj; [apply stop_refused|]].
    apply (wp_imp_pres (answered_since w (journal_refused r2))). pres. }
  intros st w4 (Hst4 & Href & Ha4). destruct (attrs_store w3 w4 inode Hst4) as (F1 & F2 & F3). apply wp_ret.
  split; [auto|]. rewrite F2. destruct (Z.eqb_spec r2 0) as [->|Hr2].
  - destruct (G2 eq_refl) as (A & B). split; [intros _; destruct B; split_and!; auto|]. intros Hs. right.
    split_and!; [done..|]. eapply answered_extends; [exact Hx3|auto].
  - split; [done|]. intros _. destruct (G3 Hr2) as [?|(? & ? & ?)]; [by left|right; auto].
Qed.

(** A folio that cannot be had: the page cache or the journal failed. *)
Lemma get_folio_failed n w :
  wp (simplefs_get_folio n) (fun r w' => store w' = store w /\
    (IS_ERR r = true -> r = - EIO \/ In (ReadMappingFolio n, r) (w_trace w'))) w.
Proof.
  apply wp_conj; [apply store_wp; intros; pres|]. unfold simplefs_get_folio, simplefs_read_metadata.
  kwp. destruct (IS_ERR r) eqn:Hr.
  - rewrite Hr. kwp. intros _. right. by left.
  - cbn. kwp. apply (wp_mono _ (fun _ _ => True)); [done|]. intros p w1 _. kwp.
    destruct (negb _); [by left|done].
Qed.

(** reading an extended attribute is a lookup in the map: the size of the
    value without a buffer, the value and its size with a buffer that is large
    enough, -ERANGE with one that is not, -ENODATA for an absent name; nothing is
    changed, and any other error means the block could not be read. *)
Theorem xattr_get_correct inode name len buffer w :
  attrs_ok w inode -> 0 <= len <= 255 ->
  wp (simplefs_xattr_get inode name len buffer) (fun ro w' => let '(r, out) := ro in
    store w' = store w /\
    match xattrs_at w inode !! qkey name len with
    | Some (size, v) =>
        match buffer with
        | None => r = size /\ out = None
        | Some sz => if sz <? size then r = - ERANGE /\ out = None else r = size /\ out = Some v
        end
    | None => r = - ENODATA /\ out = None
    end \/
    (out = None /\ (r = - EIO \/ In (ReadMappingFolio (xattr_block w inode), r) (w_trace w')))) w.
Proof.
  intros Hok Hl. unfold simplefs_xattr_get. kwp. fold (xattr_block w inode). unfold xattrs_at.
  destruct (Z.eqb_spec (xattr_block w inode) 0) as [E|E]; [apply wp_ret; left; by rewrite lookup_empty|].
  destruct Hok as [?|[Hv _]]; [done|].
  destruct (Z.ltb_spec 255 len); [lia|]. apply wp_bind. eapply wp_mono; [apply get_folio_failed|].
  intros r w1 [Hst He]. destruct (IS_ERR r); [apply wp_ret; right; auto|]. kwp.
  assert (block_image w1 (xattr_block w inode) = block_image w (xattr_block w inode)) as ->.
  { unfold block_image. apply store_inv in Hst as [-> _]. done. }
  set (img := block_image w (xattr_block w inode)) in *. rewrite Hv. cbn [Z.eqb negb].
  pose proof (xattr_search_spec (Z.to_nat (h_count img)) img name len ltac:(lia) sizeof_xattr_header) as Hs.
  unfold sizeof_xattr_header in *. fold (xattr_list img) in Hs. fold (xattrs img) in Hs.
  destruct (xattr_search _ img 8 name len) as [off|]; rewrite Hs; [|apply wp_ret; by left].
  cbn [x_size x_val read_ent]. destruct buffer as [sz|]; [|apply wp_ret; by left].
  destruct (sz <? e_value_size img off); apply wp_ret; by left.
Qed.

(** Stability under the operations of this file. *)
Context (I : world -> Prop).
Lemma xattr_get_pres `{!KStable I} i n l b : preserves I (simplefs_xattr_get i n l b).
Proof. unfold simplefs_xattr_get. pres. Qed.
Lemma xattr_set_pres `{!FStable I} i n l v f : preserves I (simplefs_xattr_set i n l v f).
Proof.
  unfold simplefs_xattr_set. repeat (pres_step || apply xattr_block_for_pres || apply xattr_update_pres); apply _.
Qed.
Lemma xattr_delete_pres `{!FStable I} i : preserves I (simplefs_xattr_delete_inode i).
Proof. unfold simplefs_xattr_delete_inode. pres. Qed.
End Theorems.

#[export] Hint Resolve xattr_get_pres xattr_set_pres xattr_delete_pres : pres.
