(* ===== verification/DirSpec.v ===== *)
(** * DirSpec: a directory as a map from names to inode numbers

    The interface of the directory index to the namespace operations: while a
    directory is cached ([dir_cached]), its operations are updates of a finite
    map, with the entry count equal to the size of the map; a failure leaves the
    map alone or latches the file system shut ([dir_kept]). *)

From stdpp Require Import base list numbers gmap.
From S2P Require Import Prelude Image Layout Kernel DiskFormat Discard Journal MetaBuf.
From S2P Require Import Alloc Retire ExtentBuf ExtentTree InodeTable DirIndex Xattr.

Local Open Scope Z_scope.
Local Open Scope fs_scope.

(** ** Stable predicates *)

Section Connectives.
Context {K : Kernel}.

#[export] Instance kstable_const (P : Prop) : KStable (fun _ => P).
Proof. split; [intros ? ? ? H|intros ? ? ? ? H|intros ? ? H|intros ? H]; exact H. Qed.
Lemma kstable_or I J : KStable I -> KStable J -> KStable (fun w => I w \/ J w).
Proof.
  intros HI HJ. split.
  - intros c Hc w [H|H]; [left|right]; by apply ks_call.
  - intros h n w Hin [H|H]; [left|right]; by apply ks_dirty.
  - intros f w [H|H]; [left|right]; by apply ks_upd_journal.
  - intros w [H|H]; [left|right]; by apply ks_shutdown.
Qed.
Lemma kstable_and I J : KStable I -> KStable J -> KStable (fun w => I w /\ J w).
Proof.
  intros HI HJ. split.
  - intros c Hc w [H1 H2]. split; by apply ks_call.
  - intros h n w Hin [H1 H2]. split; by apply ks_dirty.
  - intros f w [H1 H2]. split; by apply ks_upd_journal.
  - intros w [H1 H2]. split; by apply ks_shutdown.
Qed.
Lemma kstable_ex {A} (I : A -> world -> Prop) : (forall a, KStable (I a)) -> KStable (fun w => exists a, I a w).
Proof.
  intros HI. split.
  - intros c Hc w [a H]. exists a. by apply ks_call.
  - intros h n w Hin [a H]. exists a. by apply ks_dirty.
  - intros f w [a H]. exists a. by apply ks_upd_journal.
  - intros w [a H]. exists a. by apply ks_shutdown.
Qed.
End Connectives.

(** Two invariants at once. *)
Definition both {S} (I J : S -> Prop) (s : S) : Prop := I s /\ J s.
Lemma preserves_both {S A} (I J : S -> Prop) (m : ST S A) :
  preserves I m -> preserves J m -> preserves (both I J) m.
Proof. intros HI HJ s [H1 H2]. split; [by apply HI|by apply HJ]. Qed.
#[export] Hint Extern 1 (preserves (both _ _) _) => (apply preserves_both; pres) : pres.

(** Run the next step under an invariant [H] of the current state. *)
Ltac inv_step H :=
  match type of H with ?I ?w0 =>
    apply wp_bind; eapply wp_mono; [apply (wp_pres I _ w0); [solve [pres]|exact H]|];
    clear H; cbv beta
  end.

(** ** One component of one inode *)

Section Keeps.
Context {K : Kernel}.

Definition keeps {B} (g : inode -> B) (x : Z) (v : B) (w : world) : Prop := g (inode_of w x) = v.

#[export] Instance keeps_astable {B} (g : inode -> B) x v : AStable (keeps g x v).
Proof. apply (inodes_astable (fun m => g (default default_inode (m !! x)) = v)). Qed.

Context {B : Type} (g : inode -> B) (x : Z) (v : B).

Lemma keeps_upd y f : (forall i, g (f i) = g i) -> preserves (keeps g x v) (upd_inode y f).
Proof.
  intros H w Hw. unfold keeps, upd_inode, modify, inode_of in *. cbn.
  rewrite lookup_insert. case_decide as E; [|done]. subst y. cbn. by rewrite H.
Qed.

Lemma keeps_upd_ne y f : y <> x -> preserves (keeps g x v) (upd_inode y f).
Proof.
  intros H w Hw. unfold keeps, upd_inode, modify, inode_of in *. cbn.
  by rewrite lookup_insert_ne.
Qed.
End Keeps.

#[export] Hint Extern 2 (preserves (keeps _ _ _) (upd_inode _ _)) =>
  (first [apply keeps_upd; intros ?; reflexivity | apply keeps_upd_ne; congruence]) : pres.
#[export] Hint Resolve sync_body_apres put_blocks_apres rhash_insert_pres : pres.

(** A component that is not the directory cache. *)
Definition off_index {B} (g : inode -> B) : Prop := forall i d, g (set_i_dir_index d i) = g i.

Section Frames.
Context {K : Kernel} {B : Type} (g : inode -> B) (x : Z) (v : B).

Lemma put_index_keeps dir ix : off_index g \/ dir <> x -> preserves (keeps g x v) (put_index dir ix).
Proof. intros [H|H]; [apply keeps_upd; intros; apply H|by apply keeps_upd_ne]. Qed.
Lemma upd_index_keeps dir f : off_index g \/ dir <> x -> preserves (keeps g x v) (upd_index dir f).
Proof. intros H. unfold upd_index. pres_step; [apply get_index_pres|]. by apply put_index_keeps. Qed.
Local Hint Resolve put_index_keeps upd_index_keeps : pres.

(** A component that updating the size and block count of [y] leaves alone. *)
Definition off_size : Prop := forall i n, g (set_i_size n i) = g i.
Definition off_blocks : Prop := forall i n, g (set_i_blocks n i) = g i.

Lemma sync_extents_keeps y buf : off_blocks \/ y <> x ->
  preserves (keeps g x v) (simplefs_file_sync_extents y buf).
Proof.
  intros H. unfold simplefs_file_sync_extents. pres.
  all: destruct H as [H|H]; [apply keeps_upd; intros; apply H|by apply keeps_upd_ne].
Qed.

Lemma set_insert_keeps dir s i n ix : off_index g \/ dir <> x ->
  preserves (keeps g x v) (set_insert dir s i n ix).
Proof. intros H. unfold set_insert. pres. Qed.
Local Hint Resolve set_insert_keeps : pres.
Lemma dir_set_keeps dir s i n : off_index g \/ dir <> x ->
  preserves (keeps g x v) (simplefs_dir_set dir s i n).
Proof. intros H. unfold simplefs_dir_set. pres. Qed.

End Frames.

Ltac off_or_ne := first [left; intros ? ?; reflexivity | right; congruence].
#[export] Hint Extern 3 (preserves (keeps _ _ _) (put_index _ _)) => (apply put_index_keeps; off_or_ne) : pres.
#[export] Hint Extern 3 (preserves (keeps _ _ _) (upd_index _ _)) => (apply upd_index_keeps; off_or_ne) : pres.
#[export] Hint Extern 3 (preserves (keeps _ _ _) (simplefs_dir_set _ _ _ _)) =>
  (apply dir_set_keeps; off_or_ne) : pres.
#[export] Hint Extern 3 (preserves (keeps _ _ _) (simplefs_file_sync_extents _ _)) =>
  (apply sync_extents_keeps; off_or_ne) : pres.

(** ** The cached directory *)

Section Cached.
Context {K : Kernel}.

(** [index_at] as a component of the inode. *)
Definition ix_of (i : inode) : dir_index := default di_empty (i_dir_index i).

Record caches (ix : dir_index) (c : gmap Z Z) : Prop := Caches {
  dc_ok : index_ok ix;
  dc_valid : di_valid ix = true;
  dc_contents : contents ix = c;
  dc_files : di_nr_files ix = Z.of_nat (size c)
}.
Definition dir_cached (dir : Z) (c : gmap Z Z) (w : world) : Prop := caches (index_at w dir) c.

(** After a failure. *)
Definition dir_kept (dir : Z) (c : gmap Z Z) (w : world) : Prop :=
  dir_cached dir c w \/ s_shutdown (w_sbi w) = true.

Lemma dir_cached_index w w' dir c :
  index_at w' dir = index_at w dir -> dir_cached dir c w -> dir_cached dir c w'.
Proof. unfold dir_cached. by intros ->. Qed.

#[export] Instance dir_cached_astable dir c : AStable (dir_cached dir c).
Proof.
  apply (inodes_astable (fun m => caches (default di_empty (i_dir_index (default default_inode (m !! dir)))) c)).
Qed.

#[export] Instance dir_kept_kstable dir c : KStable (dir_kept dir c).
Proof. apply kstable_or; apply _. Qed.

Lemma dir_cached_pres {A} (m : M A) dir c :
  (forall ix, preserves (keeps ix_of dir ix) m) -> preserves (dir_cached dir c) m.
Proof.
  intros H w Hw. apply (dir_cached_index w); [|done]. exact (H (index_at w dir) w eq_refl).
Qed.

Lemma contents_size ix : index_ok ix -> Z.of_nat (size (contents ix)) <= dir_slots ix <= 15728625.
Proof.
  intros Hok. split.
  - unfold contents. rewrite map_size_fmap. set (l := (fun p : Z * dir_name => dn_slot p.2) <$> map_to_list (di_names ix)).
    assert (Hl : length l = size (di_names ix)).
    { unfold l. by rewrite length_fmap, length_map_to_list. }
    assert (Hnd : NoDup l).
    { apply NoDup_fmap_2_strong; [|apply NoDup_map_to_list].
      intros [k e] [k' e'] H1%elem_of_map_to_list H2%elem_of_map_to_list E. cbn in E.
      destruct (ok_name ix Hok k e H1) as [E1 _], (ok_name ix Hok k' e' H2) as [E2 _].
      rewrite E in E1. rewrite E1 in E2. injection E2 as ->. congruence. }
    assert (Hin : l ⊆ seqZ 0 (dir_slots ix)).
    { intros s [[k e] [-> H]]%list_elem_of_fmap. apply elem_of_map_to_list in H.
      apply elem_of_seqZ. cbn. destruct (ok_name ix Hok k e H) as (_ & ? & _). lia. }
    pose proof (submseteq_length _ _ (NoDup_submseteq _ _ Hnd Hin)) as Hlen.
    rewrite length_seqZ, Hl in Hlen. pose proof (u32_range (di_nr_blocks ix * SIMPLEFS_FILES_PER_BLOCK)).
    unfold dir_slots, is_u32 in *. lia.
  - rewrite (slots_exact ix (ok_blocks ix Hok)). pose proof (ok_blocks ix Hok).
    change SIMPLEFS_MAX_DIR_BLOCKS with 1048575 in *. lia.
Qed.

(** A name is found exactly when the map has it, for the expected inode. *)
Lemma dir_find_spec ix q ino : index_ok ix ->
  let '(r, slot, found) := simplefs_dir_find ix q ino in
  if r =? 0 then
    0 <= slot < dir_slots ix /\ di_entries ix !! slot = Some (qstr_key q) /\
    contents ix !! qstr_key q = Some found /\ (ino <> 0 -> found = ino) /\ 0 < found <= U32_MAX
  else r = - ENAMETOOLONG \/
    r = - ENOENT /\ (contents ix !! qstr_key q = None \/ ino <> 0 /\ contents ix !! qstr_key q <> Some ino).
Proof.
  intros Hok. unfold simplefs_dir_find. destruct (_ <? _); [by left|]. unfold contents. rewrite lookup_fmap.
  destruct (di_names ix !! qstr_key q) as [e|] eqn:E; cbn; [|right; split; [done|by left]].
  destruct (ok_name ix Hok _ _ E) as (H1 & H2 & H3 & _).
  destruct (Z.eqb_spec ino 0); cbn; [split_and!; (done || lia)|].
  destruct (Z.eqb_spec ino (dn_ino e)); cbn; [split_and!; (done || lia)|].
  right. split; [done|]. right. split; [done|]. congruence.
Qed.

(** A valid cache is used as it is. *)
Lemma dir_get_cached dir c w : dir_cached dir c w ->
  wp (simplefs_dir_get dir) (fun r w' => w' = w /\ (r <> 0 -> s_shutdown (w_sbi w) = true)) w.
Proof.
  intros [_ Hv _ _]. unfold simplefs_dir_get, simplefs_is_shutdown. kwp.
  destruct (s_shutdown _) eqn:Hs; kwp; [by split|].
  unfold index_at in Hv. destruct (i_dir_index (inode_of w dir)) as [ix|]; cbn in Hv; [|done].
  rewrite Hv. kwp. done.
Qed.

(** Storing an entry, on the map. *)
Lemma dir_set_cached dir slot ino name c w :
  dir_cached dir c w -> 0 <= slot -> is_u32 ino -> (forall q, name = Some q -> qstr_ok q) ->
  wp (simplefs_dir_set dir slot ino name) (fun r w' =>
    let ix := index_at w' dir in
    if r =? 0 then
      index_ok ix /\ di_valid ix = true /\ di_nr_files ix = Z.of_nat (size c) /\
      stored ino name (di_entries (index_at w dir) !! slot) c (contents ix)
    else dir_kept dir c w') w.
Proof.
  intros [Hok Hv Hc Hf] Hs Hi Hq. eapply wp_mono; [by apply dir_set_spec|].
  intros r w' (H1 & _ & H2 & H3). cbv zeta. destruct (r =? 0).
  - destruct H3 as (E & _ & H3). rewrite Hc in H3. split_and!; [done|congruence|congruence|done].
  - destruct H3 as [H3 [[E _]|Hd]]; [left|by right]. split; congruence.
Qed.

(** Growing the arrays keeps the index. *)
Lemma reserve_cached ix b w : index_ok ix ->
  wp (simplefs_dir_reserve ix b) (fun ri w' => let '(r, ix') := ri in
    store w' = store w /\ w_sbi w' = w_sbi w /\
    index_ok ix' /\ contents ix' = contents ix /\ di_nr_files ix' = di_nr_files ix /\
    di_valid ix' = di_valid ix /\ di_blocks ix' = di_blocks ix /\ di_entries ix' = di_entries ix /\
    (r = 0 -> b <= di_capacity ix' <= SIMPLEFS_MAX_DIR_BLOCKS)) w.
Proof.
  intros Hok. eapply wp_mono; [apply wp_conj; [apply reserve_spec|apply (frame_wp w_sbi); unfold simplefs_dir_reserve; frames]|].
  intros [r ix'] w' [(H1 & H2 & H3 & H4 & H5 & H6 & H7 & H8 & H9 & H10 & H11 & H12 & H13 & _) Hsb].
  pose proof (ok_capacity ix Hok) as Hcap.
  assert (Es : dir_slots ix' = dir_slots ix) by (unfold dir_slots, di_nr_blocks; by rewrite H6).
  assert (Hlow : forall s k, di_entries ix !! s = Some k -> 0 <= s < dir_slots ix /\ di_capacity ix <> 0).
  { intros s k E. destruct (ok_entry ix Hok s k E) as (e & He & <-). destruct (ok_name ix Hok k e He) as (_ & ? & _).
    split; [done|]. intros E0. rewrite (slots_exact ix (ok_blocks ix Hok)) in *. lia. }
  assert (Ee : di_entries ix' = di_entries ix).
  { apply map_eq. intros s. destruct (di_entries ix !! s) as [k|] eqn:E.
    - destruct (Hlow s k E). rewrite H10 by lia. done.
    - destruct (di_entries ix' !! s) as [k|] eqn:E'; [|done]. apply H11 in E'. congruence. }
  assert (Hu : forall s, 0 <= s -> test_bit (di_used ix') s = test_bit (di_used ix) s).
  { intros s Hs. destruct (test_bit (di_used ix) s) eqn:E.
    - rewrite (ok_used ix Hok s Hs) in E. apply bool_decide_eq_true in E as [k Ek].
      destruct (Hlow s k Ek). rewrite H12 by lia. rewrite (ok_used ix Hok s Hs). by rewrite Ek.
    - destruct (test_bit (di_used ix') s) eqn:E'; [|done]. apply H13 in E'; congruence. }
  split_and!; try done; [|unfold contents; by rewrite H5|intros ->; destruct H3; [lia|]; split; [apply H2; [done|lia]|done]].
  split; rewrite ?Ee, ?H5, ?Es; try apply Hok.
  - intros s Hs. rewrite Hu by lia. by apply Hok.
  - rewrite H8. split; [apply Hok|]. intros s Hs. pose proof (proj1 (ok_next ix Hok)). rewrite Hu by lia.
    apply (proj2 (ok_next ix Hok) s Hs).
  - unfold di_nr_blocks. rewrite H6. apply Hok.
  - unfold di_nr_blocks in *. rewrite H6. destruct H3; lia.
Qed.

(** No entry lies past the last slot. *)
Lemma entries_below ix s : index_ok ix -> dir_slots ix <= s -> di_entries ix !! s = None.
Proof.
  intros Hok Hs. destruct (di_entries ix !! s) as [k|] eqn:E; [|done].
  destruct (ok_entry ix Hok s k E) as (e & He & <-). destruct (ok_name ix Hok k e He) as (_ & ? & _). lia.
Qed.

Lemma grown_ok ix b : index_ok ix -> di_nr_blocks ix + 1 <= di_capacity ix ->
  let ix' := set_di_blocks (di_blocks ix ++ [b]) ix in
  index_ok ix' /\ dir_slots ix' = dir_slots ix + 15.
Proof.
  intros Hok Hc ix'. pose proof (ok_capacity ix Hok) as Hcap.
  assert (En : di_nr_blocks ix' = di_nr_blocks ix + 1).
  { unfold ix', di_nr_blocks. cbn. rewrite length_app. cbn. lia. }
  assert (Es : dir_slots ix' = dir_slots ix + 15).
  { rewrite !slots_exact; rewrite ?En; lia. }
  split; [|done]. destruct Hok as [O1 O2 O3 O4 O5 O6]. split; try done; rewrite ?Es, ?En.
  - intros k e H. destruct (O2 k e H) as (? & ? & ? & ?). split_and!; (done || lia).
  - destruct O4. split; [cbn; lia|done].
  - lia.
  - cbn. lia.
Qed.

Lemma upd_index_at dir f w : index_at (snd (upd_index dir f w)) dir = f (index_at w dir).
Proof.
  change (index_at (set_w_inodes (<[dir := set_i_dir_index (Some (f (index_at w dir)))
    (inode_of w dir)]> (w_inodes w)) w) dir = f (index_at w dir)). by rewrite index_at_put.
Qed.

(** The index of [dir] is [ix] up to its extent buffer. *)
Definition index_like (dir : Z) (ix : dir_index) (w : world) : Prop :=
  exists m, index_at w dir = set_di_mapping m ix.

Lemma index_like_pres {A} (m : M A) dir ix :
  (forall ix, preserves (keeps ix_of dir ix) m) -> preserves (index_like dir ix) m.
Proof. intros H w [b Hb]. exists b. exact (H _ w Hb). Qed.

Lemma index_like_put dir ix b : preserves (index_like dir ix) (upd_index dir (set_di_mapping b)).
Proof.
  intros w [m Hm]. exists b. rewrite upd_index_at, Hm. done.
Qed.

Lemma index_like_cached dir ix c w : index_ok ix -> di_valid ix = true -> contents ix = c ->
  di_nr_files ix = Z.of_nat (size c) -> index_like dir ix w -> dir_cached dir c w.
Proof. intros [] Hv Hc Hf [m E]. split; rewrite E; [by split|done..]. Qed.

Local Hint Extern 1 (preserves (index_like _ _) _) => (apply index_like_pres; intros; pres) : pres.
Local Hint Extern 1 (preserves (index_like _ _) (upd_index _ (set_di_mapping _))) => apply index_like_put : pres.

(** A free slot, in a new block when the directory is full. *)
Lemma free_slot_cached dir c w : dir_cached dir c w ->
  wp (simplefs_dir_free_slot dir) (fun rs w' => let '(r, slot) := rs in
    if r =? 0 then
      dir_cached dir c w' /\ 0 <= slot < dir_slots (index_at w' dir) /\
      di_entries (index_at w' dir) !! slot = None /\
      di_entries (index_at w' dir) = di_entries (index_at w dir)
    else dir_kept dir c w') w.
Proof.
  intros Hc. pose proof Hc as [Hok Hv Hm Hf]. unfold simplefs_dir_free_slot. apply wp_bind. unfold get_index at 1.
  apply wp_gets. fold (index_at w dir). set (ix := index_at w dir) in *.
  destruct (ok_next ix Hok) as [Hn _].
  destruct (find_next_zero_bit_spec (di_used ix) (dir_slots ix) (di_next_free ix)) as (F1 & _ & F2); [lia|].
  set (slot := find_next_zero_bit _ _ _) in *. destruct (Z.ltb_spec slot (dir_slots ix)) as [Hlt|Hge].
  { apply wp_ret. cbn [Z.eqb]. split_and!; [done|lia|done| |done].
    specialize (F2 Hlt). rewrite (ok_used ix Hok) in F2 by lia. apply bool_decide_eq_false in F2.
    by apply eq_None_not_Some. }
  apply wp_bind. eapply wp_mono; [by apply reserve_cached|].
  intros [r ix1] w1 (Hst & Hsb & Hok1 & Hm1 & Hf1 & Hv1 & Hb1 & He1 & Hr1).
  assert (HJ : forall w', index_like dir ix1 w' -> dir_kept dir c w').
  { intros w' H. left. apply (index_like_cached dir ix1); congruence. }
  apply wp_bind. unfold put_index at 1. apply wp_modify. wp_name w2.
  assert (H2 : index_like dir ix1 w2).
  { exists (di_mapping ix1). unfold w2. rewrite index_at_put. by destruct ix1. }
  clearbody w2. destruct (Z.eqb_spec r 0) as [->|Hr]; cbn [negb]; [|apply wp_ret; rewrite (proj2 (Z.eqb_neq _ _) Hr); by apply HJ].
  set (Q := fun (rs : Z * Z) w' => _).
  assert (Hret : forall r bno w', r <> 0 -> index_like dir ix1 w' ->
    wp (run! simplefs_retire_metadata_blocks bno 1 in ret (r, slot)) Q w').
  { intros r bno w' Hr H. inv_step H. intros a w3 H. apply wp_ret. unfold Q. rewrite (proj2 (Z.eqb_neq _ _) Hr). by apply HJ. }
  inv_step H2. intros bno w3 H. destruct (Z.eqb_spec bno 0).
  { inv_step H. intros down w4 H. apply wp_ret. unfold Q. destruct down; by apply HJ. }
  inv_step H. intros r w4 H. destruct (IS_ERR r) eqn:Er; [apply Hret; [unfold IS_ERR in Er; bool_hyps; lia|done]|].
  inv_step H. intros r0 w5 H. destruct (Z.eqb_spec r0 0) as [->|]; cbn [negb]; [|by apply Hret].
  inv_step H. intros has w6 H. inv_step H. intros r1 w7 H.
  destruct (Z.eqb_spec r1 0) as [->|]; cbn [negb]; [|by apply Hret].
  inv_step H. intros [r2 mapping] w8 H. inv_step H. intros u w9 H.
  destruct (Z.eqb_spec r2 0) as [->|]; cbn [negb]; [|by apply Hret].
  inv_step H. intros [r3 mapping3] w10 H. inv_step H. intros u' w11 H.
  destruct (Z.eqb_spec r3 0) as [->|Hr3]; cbn [negb].
  2:{ apply wp_bind. apply (wp_mono _ (fun _ _ => True)); [done|]. intros u2 w12 _. apply wp_bind.
      eapply wp_mono; [apply (journal_fail_spec r3 w12)|]. intros u3 w13 [Hd _]. apply wp_ret. unfold Q.
      rewrite (proj2 (Z.eqb_neq _ _) Hr3). by right. }
  destruct H as [m H]. specialize (Hr1 eq_refl). rewrite u32_id in Hr1.
  2:{ pose proof (ok_blocks ix Hok). unfold is_u32, U32_MAX, di_nr_blocks in *.
      change SIMPLEFS_MAX_DIR_BLOCKS with 1048575 in *. lia. }
  destruct (grown_ok ix1 bno Hok1) as [Hok2 Es2]; [unfold di_nr_blocks in *; rewrite Hb1; lia|].
  apply wp_bind. apply (wp_mono _ (fun _ => keeps ix_of dir (set_di_mapping m (set_di_blocks (di_blocks ix1 ++ [bno]) ix1)))).
  { refine (eq_trans (upd_index_at dir _ w11) _). by rewrite H. }
  intros u2 w12 H2. inv_step H2. intros ix3 w13 H3. inv_step H3. intros u3 w14 H3. inv_step H3. intros r4 w15 H3.
  apply wp_ret. unfold Q. cbn [Z.eqb]. unfold keeps in H3. change (ix_of (inode_of w15 dir)) with (index_at w15 dir) in H3.
  assert (Hc2 : dir_cached dir c w15).
  { apply (index_like_cached dir (set_di_blocks (di_blocks ix1 ++ [bno]) ix1));
      [exact Hok2|exact (eq_trans Hv1 Hv)|exact (eq_trans Hm1 Hm)|exact (eq_trans Hf1 Hf)|by exists m]. }
  pose proof (contents_size ix Hok) as [? _].
  split; [done|]. rewrite H3.
  assert (dir_slots (set_di_mapping m (set_di_blocks (di_blocks ix1 ++ [bno]) ix1)) = dir_slots ix1 + 15) as -> by exact Es2.
  assert (E : dir_slots ix1 = dir_slots ix) by (unfold dir_slots, di_nr_blocks; by rewrite Hb1).
  split; [lia|]. cbn. rewrite He1. split; [by apply entries_below|done].
Qed.

(** The entry count follows the map. *)
Lemma nr_files_cached dir n (c c' : gmap Z Z) w :
  index_ok (index_at w dir) -> di_valid (index_at w dir) = true ->
  di_nr_files (index_at w dir) = Z.of_nat (size c) -> contents (index_at w dir) = c' ->
  Z.of_nat (size c') = Z.of_nat (size c) + n ->
  wp (upd_index dir (fun ix => set_di_nr_files (u32 (di_nr_files ix + n)) ix))
     (fun _ w' => dir_cached dir c' w') w.
Proof.
  intros Hok Hv Hf Hc Hn. unfold wp. pose proof (contents_size _ Hok) as [Hs1 Hs2]. rewrite Hc in Hs1.
  split; rewrite upd_index_at.
  - destruct Hok. by split.
  - done.
  - done.
  - cbn. rewrite Hf, <- Hn. apply u32_id. unfold is_u32, U32_MAX. lia.
Qed.

(** A failure to write the directory's record latches the file system shut. *)
Lemma persist_dir_cached dir c w : dir_cached dir c w ->
  wp (let! r := simplefs_persist_inode dir in
      run! when (negb (r =? 0))
        (run! upd_index dir (set_di_valid false) in simplefs_journal_fail r) in
      ret r)
     (fun r w' => if r =? 0 then dir_cached dir c w' else s_shutdown (w_sbi w') = true) w.
Proof.
  intros H1. unfold simplefs_persist_inode. apply wp_bind.
  eapply wp_mono; [apply (wp_pres (dir_cached dir c)); [apply dir_cached_pres; intros; pres|done]|].
  intros r w2 H2. cbv beta in H2. destruct (Z.eqb_spec r 0) as [->|Hr]; cbn [negb]; unfold when; kwp; [done|].
  apply (wp_mono _ (fun _ _ => True)); [done|]. intros ? w3 _.
  eapply wp_mono; [apply journal_fail_spec|]. intros ? w4 [Hd _]. kwp. by rewrite (proj2 (Z.eqb_neq _ _) Hr).
Qed.

Lemma dir_add_cached dir q ino c w :
  dir_cached dir c w -> qstr_ok q -> 0 < ino <= U32_MAX ->
  wp (simplefs_dir_add dir q ino) (fun r w' =>
    if r =? 0 then dir_cached dir (<[qstr_key q := ino]> c) w' /\ c !! qstr_key q = None
    else dir_kept dir c w') w.
Proof.
  intros Hc Hq Hi. unfold simplefs_dir_add. apply wp_bind. eapply wp_mono; [by apply (dir_get_cached dir c)|].
  intros r w1 [-> Hd]. destruct (Z.eqb_spec r 0) as [->|Hr]; cbn [negb].
  2:{ apply wp_ret. rewrite (proj2 (Z.eqb_neq _ _) Hr). right. auto. }
  apply wp_bind. eapply wp_mono; [by apply free_slot_cached|]. intros [r slot] w2 H2. apply wp_bind.
  destruct (Z.eqb_spec r 0) as [->|Hr].
  2:{ apply wp_ret. rewrite (proj2 (Z.eqb_neq _ _) Hr). cbn [negb]. apply wp_ret. by rewrite (proj2 (Z.eqb_neq _ _) Hr). }
  destruct H2 as (H2 & Hs & He & _). eapply wp_mono; [apply (dir_set_cached dir slot ino (Some q) c w2 H2); [lia|unfold is_u32; lia|]|].
  { by intros q' [= <-]. }
  intros r w3 H3. cbv beta zeta in H3. destruct (Z.eqb_spec r 0) as [->|Hr]; cbn [negb].
  2:{ apply wp_ret. by rewrite (proj2 (Z.eqb_neq _ _) Hr). }
  destruct H3 as (Hok & Hv & Hf & Hst). unfold stored in Hst. rewrite (proj2 (Z.eqb_neq ino 0)) in Hst by lia.
  destruct Hst as (k & -> & Hc' & Hfr). rewrite He in Hfr, Hc'. cbn [delete_old] in Hc'. specialize (Hfr ltac:(done)).
  apply wp_bind. eapply wp_mono; [apply (nr_files_cached dir 1 c (<[qstr_key q := ino]> c)); try done|].
  { rewrite map_size_insert_None by done. lia. }
  intros u w4 H4. cbv beta in H4. apply wp_bind.
  eapply wp_mono; [apply (wp_pres (dir_cached dir (<[qstr_key q := ino]> c))); [apply dir_cached_pres; intros; pres|exact H4]|].
  intros a w4' H4'. cbv beta in H4'. eapply wp_mono; [apply (persist_dir_cached dir _ _ H4')|].
  intros r w5 H5. cbv beta in *. destruct (r =? 0); [by split|by right].
Qed.

(** *** A slot that keeps its entry *)

Definition pinned (dir s k : Z) (w : world) : Prop := di_entries (index_at w dir) !! s = Some k.

Lemma pinned_pres {A} (m : M A) dir s k :
  (forall ix, preserves (keeps ix_of dir ix) m) -> preserves (pinned dir s k) m.
Proof. intros H w Hw. unfold pinned. by rewrite (H (index_at w dir) w eq_refl : index_at _ dir = _). Qed.

Lemma pinned_upd dir s k f :
  (forall ix, di_entries (f ix) !! s = di_entries ix !! s) -> preserves (pinned dir s k) (upd_index dir f).
Proof. intros H w Hw. unfold pinned. by rewrite upd_index_at, H. Qed.

Lemma pinned_put dir s k ix : di_entries ix !! s = Some k -> preserves (pinned dir s k) (put_index dir ix).
Proof.
  intros H w _. unfold pinned, put_index, upd_inode, modify. cbn [snd]. unfold index_at, inode_of. cbn.
  by rewrite lookup_insert_eq.
Qed.

Lemma dir_set_cache_other slot ino old entry ix s : s <> slot ->
  di_entries (dir_set_cache slot ino old entry ix) !! s = di_entries ix !! s.
Proof.
  intros Hs. unfold dir_set_cache. cbv zeta. repeat (case_match; cbn); by rewrite lookup_partial_alter_ne.
Qed.

End Cached.

#[export] Hint Extern 3 (preserves (pinned _ _ _) _) => (apply pinned_pres; intros; pres) : pres.
#[export] Hint Extern 1 (preserves (pinned _ _ _) (upd_index _ _)) => (apply pinned_upd; intros; reflexivity) : pres.

Section Pinned.
Context {K : Kernel}.

Lemma set_insert_pinned dir slot ino name ix s k : di_entries ix !! s = Some k ->
  preserves (pinned dir s k) (set_insert dir slot ino name ix).
Proof.
  intros H w Hw. change (wp (set_insert dir slot ino name ix) (fun _ => pinned dir s k) w).
  assert (Hput : forall ix' w', di_entries ix' = di_entries ix -> pinned dir s k (snd (put_index dir ix' w'))).
  { intros ix' w' E. unfold pinned, put_index. rewrite <- H, <- E. f_equal. f_equal. apply index_at_put. }
  unfold set_insert, rhash_insert. destruct name as [q|]; [|by kwp].
  destruct (di_names ix !! qstr_key q); kwpc; try done; by apply Hput.
Qed.

Lemma dir_set_pinned dir slot ino name s k : s <> slot ->
  preserves (pinned dir s k) (simplefs_dir_set dir slot ino name).
Proof.
  intros Hs w Hw. change (wp (simplefs_dir_set dir slot ino name) (fun _ => pinned dir s k) w).
  unfold simplefs_dir_set. apply wp_bind. unfold get_index at 1. apply wp_gets. fold (index_at w dir).
  apply (wp_pres (pinned dir s k)); [|done].
  repeat (pres_step || (apply set_insert_pinned; exact Hw) ||
          (apply pinned_upd; intros; by apply dir_set_cache_other)).
Qed.

End Pinned.

#[export] Hint Resolve get_index_pres : pres.
#[export] Hint Extern 1 (preserves (dir_cached _ _) _) => (apply dir_cached_pres; intros; pres) : pres.
