(* ===== verification/Acl.v ===== *)
(** * Acl: POSIX access control lists (simplefs_acl.c)

    An ACL is stored in the extended attribute that the kernel names after its
    type.  The ACLs themselves, their external form and the rules that derive a
    mode from them are kernel code: the parameter [Vfs]. *)

From stdpp Require Import base list numbers gmap strings.
From S2P Require Import Prelude Image Layout Kernel DiskFormat Discard Journal MetaBuf.
From S2P Require Import Alloc Retire ExtentBuf ExtentTree InodeTable Xattr.

Local Open Scope Z_scope.
Local Open Scope fs_scope.

(** What the VFS, the ACL library and the security modules compute.
    [posix_acl_update_mode] and [posix_acl_create] return the code first, then the
    mode; [posix_acl_chmod] returns the list that a
    new mode makes necessary, if there is one; [security_xattrs] are the attributes a security module asks to store on
    a new inode: name, length of the name, value, length of the value;
    [setattr_copy] applies the attributes of a [setattr] request. *)
Class Vfs {K : Kernel} := {
  posix_acl : Type;
  posix_acl_to_xattr : posix_acl -> Z * Z;
  posix_acl_from_xattr : Z * Z -> Z * option posix_acl;
  posix_acl_update_mode : KW -> inode -> posix_acl -> Z * Z * option posix_acl;
  posix_acl_create : KW -> inode -> Z -> Z * Z * option posix_acl * option posix_acl;
  posix_acl_chmod : KW -> inode -> Z -> Z * option posix_acl;
  security_xattrs : KW -> Z -> Z -> list (Z * Z * Z * Z);
  setattr_copy : KW -> Z -> inode -> inode
}.

Inductive acl_type := ACL_TYPE_ACCESS | ACL_TYPE_DEFAULT.

(** The bytes of a string, the first one lowest. *)
Fixpoint string_image (s : string) : Z :=
  match s with
  | EmptyString => 0
  | String a s' => Z.of_N (Ascii.N_of_ascii a) + 256 * string_image s'
  end.

Definition acl_name (t : acl_type) : string :=
  match t with
  | ACL_TYPE_ACCESS => "system.posix_acl_access"
  | ACL_TYPE_DEFAULT => "system.posix_acl_default"
  end.
Definition posix_acl_xattr_name (t : acl_type) : Z * Z :=
  (string_image (acl_name t), Z.of_nat (String.length (acl_name t))).

Section Ops.
Context {K : Kernel} {V : Vfs}.

(** From the result of the read: the code, and the list or NULL. *)
Definition acl_decode (rv : Z * option Z) : Z * option posix_acl :=
  if 0 <? rv.1 then posix_acl_from_xattr (default 0 rv.2, rv.1)
  else if rv.1 =? - ENODATA then (0, None)
  else (rv.1, None).

Definition simplefs_get_acl (inode : Z) (type : acl_type) (rcu : bool) : M (Z * option posix_acl) :=
  if rcu then ret (- ECHILD, None) else
  let (name, len) := posix_acl_xattr_name type in
  let! (retval, value) := simplefs_xattr_get inode name len None in
  if 0 <? retval then
    let! ok := kmalloc in
    if negb ok then ret (- ENOMEM, None) else
    let! rv := simplefs_xattr_get inode name len (Some retval) in
    ret (acl_decode rv)
  else ret (acl_decode (retval, value)).

(** [SIMPLEFS_BLOCK_SIZE - sizeof(header) - SIMPLEFS_XATTR_ENTRY_SIZE(strlen(name))] *)
Definition acl_max_size (type : acl_type) : Z :=
  SIMPLEFS_BLOCK_SIZE - sizeof_xattr_header - SIMPLEFS_XATTR_ENTRY_SIZE (posix_acl_xattr_name type).2.

(** The kernel's values of the types. *)
Definition acl_type_value (t : acl_type) : Z :=
  match t with ACL_TYPE_ACCESS => 32768 | ACL_TYPE_DEFAULT => 16384 end.

Definition __simplefs_set_acl (inode : Z) (acl : option posix_acl) (type : acl_type) : M Z :=
  let (name, len) := posix_acl_xattr_name type in
  let! i := get_inode inode in
  if match type with ACL_TYPE_DEFAULT => negb (S_ISDIR (i_mode i)) | ACL_TYPE_ACCESS => false end
  then ret (match acl with Some _ => - EACCES | None => 0 end) else
  let! error :=
    match acl with
    | Some a =>
        let! ok := kmalloc in
        if negb ok then ret (- ENOMEM) else
        if acl_max_size type <? (posix_acl_to_xattr a).2 then ret (- EINVAL) else
        simplefs_xattr_set inode name len (Some (posix_acl_to_xattr a)) 0
    | None =>
        let! error := simplefs_xattr_set inode name len None XATTR_REPLACE in
        ret (if error =? - ENODATA then 0 else error)
    end in
  run! when (error =? 0)
    (run! kdo (SetCachedAcl inode (acl_type_value type) (posix_acl_to_xattr <$> acl)) in ret tt) in
  ret error.

Definition simplefs_set_acl (inode : Z) (acl : option posix_acl) (type : acl_type) : M Z :=
  let! i := get_inode inode in
  let! k := gets w_kernel in
  let '(error, mode, acl, update_mode) :=
    match type, acl with
    | ACL_TYPE_ACCESS, Some a =>
        let '(error, mode, acl) := posix_acl_update_mode k i a in (error, mode, acl, true)
    | _, _ => (0, i_mode i, acl, false)
    end in
  if negb (error =? 0) then ret error else
  let! error := __simplefs_set_acl inode acl type in
  run! when ((error =? 0) && update_mode)
    (run! upd_inode inode (set_i_mode mode) in
     run! inode_set_ctime_current inode in
     run! kdo (MarkInodeDirty inode) in ret tt) in
  ret error.

Definition simplefs_init_acl (inode dir : Z) : M Z :=
  let! d := get_inode dir in
  let! i := get_inode inode in
  let! k := gets w_kernel in
  let '(error, mode, default_acl, acl) := posix_acl_create k d (i_mode i) in
  if negb (error =? 0) then ret error else
  run! upd_inode inode (set_i_mode mode) in
  let! error := match default_acl with
                | Some a => __simplefs_set_acl inode (Some a) ACL_TYPE_DEFAULT
                | None => ret 0
                end in
  match acl with
  | Some a => if negb (error =? 0) then ret error else __simplefs_set_acl inode (Some a) ACL_TYPE_ACCESS
  | None => ret error
  end.

End Ops.

Section Preserve.
Context {K : Kernel} {V : Vfs} (I : world -> Prop) `{!FStable I}.

Lemma set_acl_apres ino acl t : preserves I (__simplefs_set_acl ino acl t).
Proof. unfold __simplefs_set_acl. pres. Qed.
Local Hint Resolve set_acl_apres : pres.
Lemma set_acl_pres ino acl t : preserves I (simplefs_set_acl ino acl t).
Proof. unfold simplefs_set_acl. pres. Qed.
Lemma init_acl_pres ino dir : preserves I (simplefs_init_acl ino dir).
Proof. unfold simplefs_init_acl. pres. Qed.
Lemma get_acl_pres ino t rcu : preserves I (simplefs_get_acl ino t rcu).
Proof. unfold simplefs_get_acl. pres. Qed.

End Preserve.

#[export] Hint Resolve set_acl_apres set_acl_pres init_acl_pres get_acl_pres : pres.
