(* ===== verification/Rebuild.v ===== *)
(** * Rebuild: reconstructing the block bitmap from the inodes (simplefs_super.c)

    [simplefs_rebuild_block_bitmap] walks every allocated inode, marks each block
    it owns and refuses a block outside the device or with two owners; the free
    bitmap becomes the complement.  The specification is a relation [claims]
    between blocks and owners that is read off the images: the rebuilt bitmap is
    shown to hold exactly the blocks without a claim. *)

From stdpp Require Import base list numbers gmap.
From S2P Require Import Prelude Image Layout Kernel DiskFormat Discard Journal MetaBuf.
From S2P Require Import Alloc Retire ExtentBuf ExtentTree InodeTable.

Local Open Scope Z_scope.
Local Open Scope fs_scope.

(** ** Marking *)

Inductive block_owner_kind :=
  | OWNER_META
  | OWNER_EXTENT_ROOT
  | OWNER_EXTENT_LEAF
  | OWNER_FILE_DATA
  | OWNER_DIR_INDEX
  | OWNER_DIR_DATA
  | OWNER_SYMLINK
  | OWNER_XATTR.

#[export] Instance owner_kind_eq : EqDecision block_owner_kind.
Proof. solve_decision. Defined.

(** [used_map], and the arrays [owner_kind] and [owner_ino] as one map: an entry
    is absent while the arrays hold their initial zeroes. *)
Record owners := Owners { used_map : Z; owner : gmap Z (block_owner_kind * Z) }.

Definition simplefs_rebuild_mark_block (nr_blocks : Z) (o : owners) (block : Z)
    (kind : block_owner_kind) (ino : Z) : Z * owners :=
  if (block =? 0) || (nr_blocks <=? block) then (- EUCLEAN, o) else
  if test_bit (used_map o) block then (- EUCLEAN, o) else
  (0, Owners (bitmap_set (used_map o) block 1) (<[block := (kind, ino)]> (owner o))).

Fixpoint mark_each (n : nat) (nr_blocks : Z) (o : owners) (block : Z)
    (kind : block_owner_kind) (ino : Z) : Z * owners :=
  match n with
  | O => (0, o)
  | S n' =>
      let '(r, o) := simplefs_rebuild_mark_block nr_blocks o (u32 block) kind ino in
      if negb (r =? 0) then (r, o) else mark_each n' nr_blocks o (block + 1) kind ino
  end.

Definition simplefs_rebuild_mark_range (nr_blocks : Z) (o : owners) (start len : Z)
    (kind : block_owner_kind) (ino : Z) : Z * owners :=
  if len =? 0 then (0, o) else
  if (start =? 0) || (nr_blocks <=? start) || (nr_blocks - start <? len) then (- EUCLEAN, o)
  else mark_each (Z.to_nat len) nr_blocks o start kind ino.

Fixpoint mark_leaves (l : list Z) (nr_blocks : Z) (o : owners) (ino : Z) : Z * owners :=
  match l with
  | [] => (0, o)
  | leaf :: l' =>
      let '(r, o) := simplefs_rebuild_mark_block nr_blocks o leaf OWNER_EXTENT_LEAF ino in
      if negb (r =? 0) then (r, o) else mark_leaves l' nr_blocks o ino
  end.

Fixpoint mark_extents (l : list extent) (nr_blocks : Z) (o : owners) (ino : Z) : Z * owners :=
  match l with
  | [] => (0, o)
  | ext :: l' =>
      if simplefs_extent_is_empty ext then mark_extents l' nr_blocks o ino else
      let '(r, o) := simplefs_rebuild_mark_range nr_blocks o (ee_start ext) (simplefs_ext_len ext)
                       OWNER_FILE_DATA ino in
      if negb (r =? 0) then (r, o) else mark_extents l' nr_blocks o ino
  end.

(** [owner_kind[ino] = SIMPLEFS_OWNER_META] over a range. *)
Definition own_meta (lo n : Z) (m : gmap Z (block_owner_kind * Z)) : gmap Z (block_owner_kind * Z) :=
  foldr (fun b m => <[b := (OWNER_META, 0)]> m) m (seqZ lo n).

Definition meta_end_of (s : sb_info) : Z :=
  u32 (1 + nr_istore_blocks s + nr_ifree_blocks s + nr_bfree_blocks s).

(** The superblock, the tables, the bitmaps and the journal. *)
Definition rebuild_meta (s : sb_info) : owners :=
  let o := Owners (bitmap_set 0 0 (meta_end_of s)) (own_meta 0 (meta_end_of s) ∅) in
  if negb (s_journal_present s =? 0) && (s_journal_start s <? nr_blocks s) then
    let journal_blocks := nr_blocks s - s_journal_start s in
    Owners (bitmap_set (used_map o) (s_journal_start s) journal_blocks)
           (own_meta (s_journal_start s) journal_blocks (owner o))
  else o.

(** [bitmap_complement] and [bitmap_copy] over [n] bits; what follows them in the
    destination keeps its value. *)
Definition bitmap_complement (map n : Z) : Z := Z.ldiff (Z.ones n) map.
Definition bitmap_copy (dst src n : Z) : Z := splice dst 0 n src.

Section Ops.
Context {K : Kernel}.

Definition simplefs_rebuild_scan_file (o : owners) (ino root_block : Z) : M (Z * owners) :=
  let! s := get_sbi in
  let '(r, o) := simplefs_rebuild_mark_block (nr_blocks s) o root_block OWNER_EXTENT_ROOT ino in
  if negb (r =? 0) then ret (r, o) else
  let! (r, buf) := simplefs_file_load_extents root_block in
  if negb (r =? 0) then ret (r, o) else
  let '(r, o) := mark_leaves (eb_leaf_blocks buf) (nr_blocks s) o ino in
  if negb (r =? 0) then ret (r, o) else
  ret (mark_extents (eb_extents buf) (nr_blocks s) o ino).

Definition simplefs_rebuild_scan_dir (o : owners) (ino root : Z) : M (Z * owners) :=
  simplefs_rebuild_scan_file o ino root.

(** The body of the inode loop. *)
Definition rebuild_inode (o : owners) (ino : Z) : M (Z * owners) :=
  let! s := get_sbi in
  if test_bit (ifree_bitmap s) ino then ret (0, o) else
  let! r := simplefs_get_folio (inode_block ino) in
  if IS_ERR r then ret (r, o) else
  let! img := read_image (inode_block ino) in
  let d := get_disk_inode img (inode_off ino) in
  let! (r, o) :=
    (if S_ISREG (d_mode d) && negb (d_ei_block d =? 0) then
       simplefs_rebuild_scan_file o ino (d_ei_block d)
     else if S_ISDIR (d_mode d) && negb (d_ei_block d =? 0) then
       simplefs_rebuild_scan_dir o ino (d_ei_block d)
     else if S_ISLNK (d_mode d) && negb (d_ei_block d =? 0) then
       ret (simplefs_rebuild_mark_block (nr_blocks s) o (d_ei_block d) OWNER_SYMLINK ino)
     else ret (0, o)) in
  ret (if (r =? 0) && negb (d_xattr_block d =? 0) then
         simplefs_rebuild_mark_block (nr_blocks s) o (d_xattr_block d) OWNER_XATTR ino
       else (r, o)).

Fixpoint rebuild_inodes (n : nat) (ino : Z) (o : owners) : M (Z * owners) :=
  match n with
  | O => ret (0, o)
  | S n' =>
      let! (r, o) := rebuild_inode o ino in
      if negb (r =? 0) then ret (r, o) else rebuild_inodes n' (ino + 1) o
  end.

(** The scan for a mapped block that was free only warns. *)
Definition simplefs_rebuild_block_bitmap : M Z :=
  let! s := get_sbi in
  let! ok := kmalloc in
  if negb ok then ret (- ENOMEM) else
  let! ok := kmalloc in
  if negb ok then ret (- ENOMEM) else
  let! ok := kmalloc in
  if negb ok then ret (- ENOMEM) else
  let! (r, o) := rebuild_inodes (Z.to_nat (nr_inodes s - 1)) 1 (rebuild_meta s) in
  if negb (r =? 0) then ret r else
  let! ok := kmalloc in
  if negb ok then ret (- ENOMEM) else
  let new_bfree := bitmap_complement (used_map o) (nr_blocks s) in
  let free_blocks := u32 (bitmap_weight new_bfree (nr_blocks s)) in
  run! lock_bitmap in
  run! upd_sbi (fun s => set_bfree_bitmap (bitmap_copy (bfree_bitmap s) new_bfree (nr_blocks s)) s) in
  run! upd_sbi (fun s => upd_disk (set_nr_free_blocks free_blocks) s) in
  run! upd_sbi (fun s => upd_disk (set_nr_free_inodes
         (u32 (bitmap_weight (ifree_bitmap s) (nr_inodes s)))) s) in
  run! unlock_bitmap in
  ret 0.

End Ops.

(** ** What a tree holds, read off the images *)

Section Claims.
Context {K : Kernel}.

Definition tree_leaves (w : world) (root : Z) : list Z :=
  let img := block_image w root in
  if eh_depth img =? 0 then []
  else map (fun i => ix_leaf_block (root_index img i)) (seqZ 0 (eh_entries img)).

Definition node_extents (img : Z) : list extent := get_extents img 8 (Z.to_nat (eh_entries img)).

Definition tree_extents (w : world) (root : Z) : list extent :=
  let img := block_image w root in
  if eh_depth img =? 0 then node_extents img
  else concat (map (fun leaf => node_extents (block_image w leaf)) (tree_leaves w root)).

Lemma load_leaf_reads leaf buf w :
  wp (simplefs_file_load_leaf leaf buf) (fun rb w' => let '(r, buf') := rb in
    w_bdev w' = w_bdev w /\ (r = 0 ->
    eb_extents buf' = eb_extents buf ++ node_extents (block_image w leaf) /\
    eb_leaf_blocks buf' = eb_leaf_blocks buf)) w.
Proof.
  unfold simplefs_file_load_leaf. apply wp_bind.
  eapply wp_mono; [apply read_metadata_spec|]. intros r w1 [Hb _]; cbv beta.
  destruct (IS_ERR r) eqn:E; kwp.
  { split; [done|]. intros ->. done. }
  assert (Hi : block_image w1 leaf = block_image w leaf) by (unfold block_image; by rewrite Hb).
  rewrite Hi. set (img := block_image w leaf). destruct (negb _); kwp; [by destruct (eh_magic img =? 0)|].
  destruct (_ <? _); kwp; [done|].
  eapply wp_mono; [apply wp_conj; [apply grow_spec|apply (frame_wp _ _ _ (grow_frame_bdev _ _))]|].
  intros [g buf'] w2 [(X1 & X2 & _) Hb2]. cbv beta iota in *.
  destruct (negb (g =? 0)) eqn:Hg; apply wp_ret.
  - split; [congruence|]. intros ->. done.
  - split; [congruence|]. cbn. by rewrite X1, X2.
Qed.

Lemma load_leaves_reads img n : forall i buf w,
  wp (load_leaves n i img buf) (fun rb _ => let '(r, buf') := rb in r = 0 ->
    let leaves := map (fun i => ix_leaf_block (root_index img i)) (seqZ i (Z.of_nat n)) in
    eb_extents buf' = eb_extents buf ++ concat (map (fun b => node_extents (block_image w b)) leaves) /\
    eb_leaf_blocks buf' = eb_leaf_blocks buf ++ leaves) w.
Proof.
  induction n as [|n IH]; intros i buf w; cbn [load_leaves].
  { apply wp_ret. intros _. cbn. by rewrite !app_nil_r. }
  apply wp_bind. eapply wp_mono; [apply load_leaf_reads|].
  intros [r buf1] w1 [Hb H1]; cbv beta iota. cbn [eb_extents eb_leaf_blocks] in H1.
  destruct (Z.eqb_spec r 0) as [->|Hr]; cbn [negb]; [|by apply wp_ret].
  destruct (H1 eq_refl) as [E1 E2]. eapply wp_mono; [apply IH|].
  intros [r2 buf2] w2 H2 ->. destruct (H2 eq_refl) as [F1 F2].
  rewrite Nat2Z.inj_succ, seqZ_cons by lia. replace (Z.pred (Z.succ (Z.of_nat n))) with (Z.of_nat n) by lia.
  cbn [map concat]. rewrite F1, F2, E1, E2, <- !app_assoc. split; [|done].
  do 2 f_equal. unfold block_image. by rewrite Hb.
Qed.

(** A successful load returns what the images hold. *)
Lemma load_extents_reads root w :
  wp (simplefs_file_load_extents root) (fun rb _ => let '(r, buf) := rb in r = 0 ->
    eb_extents buf = tree_extents w root /\ eb_leaf_blocks buf = tree_leaves w root) w.
Proof.
  unfold simplefs_file_load_extents. apply wp_bind.
  eapply wp_mono; [apply read_metadata_spec|]. intros r w1 [Hb _]; cbv beta.
  destruct (IS_ERR r) eqn:E; kwp; [by intros ->|].
  assert (Hi : forall n, block_image w1 n = block_image w n) by (intros; unfold block_image; by rewrite Hb).
  rewrite Hi. unfold tree_extents, tree_leaves. set (img := block_image w root).
  destruct (negb _); kwp; [by destruct (_ && _)|].
  pose proof (get_u16_range img 4). fold (eh_entries img) in *.
  destruct (eh_depth img =? 0).
  - destruct (_ <? _); kwp; [done|]. eapply wp_mono; [apply grow_spec|].
    intros [g buf'] w2 (X1 & X2 & _). cbv beta iota.
    destruct (Z.eqb_spec g 0); apply wp_ret; [|done]. intros _. cbn. by rewrite X2.
  - destruct (_ || _); kwp; [done|]. apply (wp_mono _ (fun _ w2 => w_bdev w2 = w_bdev w1)).
    { destruct (negb _); [|done]. apply frame_wp. auto with frame. }
    intros ok w2 Hb2. destruct (negb ok); [by apply wp_ret|].
    eapply wp_mono; [apply load_leaves_reads|]. intros [r2 buf2] w3 H2 Hr. destruct (H2 Hr) as [-> ->].
    cbn [eb_extents eb_leaf_blocks eb_empty app]. rewrite Z2Nat.id by lia.
    assert (Hi2 : forall n, block_image w2 n = block_image w n).
    { intros n. rewrite <- Hi. unfold block_image. by rewrite Hb2. }
    split; [|done]. f_equal. apply map_ext. intros. by rewrite Hi2.
Qed.

End Claims.

(** ** Marking adds claims *)

(** The bitmap marks the blocks with an owner. *)
Definition owners_ok (o : owners) : Prop :=
  (forall b, 0 <= b -> test_bit (used_map o) b = true <-> is_Some (owner o !! b)) /\
  (forall b x, owner o !! b = Some x -> 0 <= b).

(** [o'] is [o] with the claims [cl] of [ino] on blocks of the device. *)
Definition marked (nr : Z) (o o' : owners) (cl : list (Z * block_owner_kind)) (ino : Z) : Prop :=
  owners_ok o' /\
  (forall b k i, owner o' !! b = Some (k, i) <->
     owner o !! b = Some (k, i) \/ (In (b, k) cl /\ i = ino)) /\
  Forall (fun c => 0 < c.1 < nr) cl.

Lemma marked_nil nr o ino : owners_ok o -> marked nr o o [] ino.
Proof. intros H. split_and!; [done| |done]. intros b k i. cbn. intuition. Qed.

Lemma marked_app nr o1 o2 o3 cl1 cl2 ino :
  marked nr o1 o2 cl1 ino -> marked nr o2 o3 cl2 ino -> marked nr o1 o3 (cl1 ++ cl2) ino.
Proof.
  intros (_ & H1 & F1) (Ho & H2 & F2). split_and!; [done| |by apply Forall_app].
  intros b k i. rewrite H2, H1, in_app_iff. tauto.
Qed.

Lemma mark_block_marked nr o block kind ino o' : owners_ok o -> 0 <= block ->
  simplefs_rebuild_mark_block nr o block kind ino = (0, o') ->
  marked nr o o' [(block, kind)] ino.
Proof.
  intros [Hu Hn] H0. unfold simplefs_rebuild_mark_block.
  destruct (_ || _) eqn:Hr; [done|]. bool_hyps.
  destruct (test_bit _ _) eqn:Ht; [done|]. intros [= <-].
  assert (E : owner o !! block = None).
  { apply eq_None_not_Some. rewrite <- Hu by done. congruence. }
  split_and!; [split| |by constructor; [cbn; lia|]]; cbn.
  - intros b Hb. rewrite bitmap_set_testbit by lia. destruct (Z.eq_dec b block) as [->|Hne].
    + rewrite lookup_insert_eq, Z.leb_refl, (proj2 (Z.ltb_lt _ _)) by lia. cbn. by split; [eauto|].
    + rewrite lookup_insert_ne by done. rewrite <- Hu by done.
      destruct (Z.leb_spec block b), (Z.ltb_spec b (block + 1)); cbn; try lia; done.
  - intros b x. rewrite lookup_insert. case_decide; [intros; lia|apply Hn].
  - intros b k i. rewrite lookup_insert. case_decide as Hd.
    + subst b. rewrite E. split; [intros [= <- <-]; auto|]. intros [?|[[[= <-]|[]] ->]]; done.
    + split; [auto|]. intros [?|[[[= -> _]|[]] _]]; done.
Qed.

Lemma mark_each_marked nr kind ino n : forall o block o',
  owners_ok o -> 0 <= block -> block + Z.of_nat n <= nr -> nr <= U32_MAX ->
  mark_each n nr o block kind ino = (0, o') ->
  marked nr o o' (map (fun b => (b, kind)) (seqZ block (Z.of_nat n))) ino.
Proof.
  induction n as [|n IH]; intros o block o' Ho Hb Hn Hu; cbn [mark_each].
  { intros [= <-]. by apply marked_nil. }
  rewrite u32_id by (unfold is_u32; lia).
  destruct (simplefs_rebuild_mark_block _ _ _ _ _) as [r o1] eqn:Hm.
  destruct (Z.eqb_spec r 0) as [->|]; cbn [negb]; [|intros [=]; done].
  apply mark_block_marked in Hm; [|done|done]. intros H2.
  apply IH in H2; [|apply Hm|lia|lia|done].
  rewrite Nat2Z.inj_succ, seqZ_cons by lia. cbn [map].
  replace (Z.pred (Z.succ (Z.of_nat n))) with (Z.of_nat n) by lia.
  replace (Z.succ block) with (block + 1) by lia. apply (marked_app _ _ _ _ [_] _ _ Hm H2).
Qed.

Definition ext_blocks (e : extent) : list Z :=
  if simplefs_extent_is_empty e then [] else seqZ (ee_start e) (simplefs_ext_len e).

Lemma mark_leaves_marked nr ino l : forall o o', owners_ok o -> Forall (fun b => 0 <= b) l ->
  mark_leaves l nr o ino = (0, o') ->
  marked nr o o' (map (fun b => (b, OWNER_EXTENT_LEAF)) l) ino.
Proof.
  induction l as [|leaf l IH]; intros o o' Ho Hl; cbn [mark_leaves map].
  { intros [= <-]. by apply marked_nil. }
  apply Forall_cons in Hl as [H0 Hl].
  destruct (simplefs_rebuild_mark_block _ _ _ _ _) as [r o1] eqn:Hm.
  destruct (Z.eqb_spec r 0) as [->|]; cbn [negb]; [|intros [=]; done].
  apply mark_block_marked in Hm; [|done|done]. intros H2. apply IH in H2; [|apply Hm|done].
  apply (marked_app _ _ _ _ [_] _ _ Hm H2).
Qed.

Lemma mark_extents_marked nr ino l : forall o o', owners_ok o -> nr <= U32_MAX -> Forall ext_u32 l ->
  mark_extents l nr o ino = (0, o') ->
  marked nr o o' (map (fun b => (b, OWNER_FILE_DATA)) (concat (map ext_blocks l))) ino.
Proof.
  induction l as [|e l IH]; intros o o' Ho Hnr Hl; cbn [mark_extents map concat].
  { intros [= <-]. by apply marked_nil. }
  apply Forall_cons in Hl as [(_ & _ & Hs) Hl]. unfold is_u32 in Hs. unfold ext_blocks at 1.
  destruct (simplefs_extent_is_empty e); [by apply IH|].
  unfold simplefs_rebuild_mark_range. pose proof (ext_len_bounds e) as Hb. rewrite map_app.
  destruct (Z.eqb_spec (simplefs_ext_len e) 0) as [E|E].
  { cbn [Z.eqb negb]. rewrite E. cbn. by apply IH. }
  destruct (_ || _) eqn:Hr; [intros [=]|]. bool_hyps.
  destruct (mark_each _ _ _ _ _ _) as [r o1] eqn:Hm.
  destruct (Z.eqb_spec r 0) as [->|]; cbn [negb]; [|intros [=]; done].
  apply mark_each_marked in Hm; [|done|lia|lia|done]. rewrite Z2Nat.id in Hm by lia.
  intros H2. apply IH in H2; [|apply Hm|done|done]. by apply (marked_app _ _ o1).
Qed.

(** Blocks are only ever added. *)
Lemma own_meta_lookup lo n m b : own_meta lo n m !! b =
  if (lo <=? b) && (b <? lo + n) then Some (OWNER_META, 0) else m !! b.
Proof.
  unfold own_meta. destruct (Z.leb_spec 0 n) as [Hn|Hn].
  2:{ rewrite seqZ_nil by lia. cbn. destruct (Z.leb_spec lo b), (Z.ltb_spec b (lo + n)); cbn; try done; lia. }
  replace ((lo <=? b) && (b <? lo + n)) with (bool_decide (b ∈ seqZ lo n)).
  2:{ case_bool_decide as H; rewrite elem_of_seqZ in H;
      destruct (Z.leb_spec lo b), (Z.ltb_spec b (lo + n)); cbn; try done; lia. }
  induction (seqZ lo n) as [|x l IH]; cbn [foldr]; [done|]. destruct (Z.eq_dec x b) as [->|E].
  - rewrite lookup_insert_eq, bool_decide_true; [done|]. by left.
  - rewrite lookup_insert_ne, IH by done. erewrite (bool_decide_ext (b ∈ x :: l)); [done|].
    rewrite elem_of_cons. split; [by intros [?|?]|by right].
Qed.

(** ** The claims of an inode, and the scan *)

Section Scan.
Context {K : Kernel}.

Definition tree_claims (w : world) (root : Z) : list (Z * block_owner_kind) :=
  (root, OWNER_EXTENT_ROOT) ::
  map (fun b => (b, OWNER_EXTENT_LEAF)) (tree_leaves w root) ++
  map (fun b => (b, OWNER_FILE_DATA)) (concat (map ext_blocks (tree_extents w root))).

Definition inode_claims (w : world) (ino : Z) : list (Z * block_owner_kind) :=
  let d := disk_inode_at w ino in
  (if (S_ISREG (d_mode d) || S_ISDIR (d_mode d)) && negb (d_ei_block d =? 0)
   then tree_claims w (d_ei_block d)
   else if S_ISLNK (d_mode d) && negb (d_ei_block d =? 0) then [(d_ei_block d, OWNER_SYMLINK)]
   else []) ++
  (if negb (d_xattr_block d =? 0) then [(d_xattr_block d, OWNER_XATTR)] else []).

Definition inode_used (w : world) (ino : Z) : Prop :=
  0 < ino < nr_inodes (w_sbi w) /\ test_bit (ifree_bitmap (w_sbi w)) ino = false.

Definition meta_block (s : sb_info) (b : Z) : Prop :=
  0 <= b < meta_end_of s \/
  (s_journal_present s <> 0 /\ s_journal_start s <= b < nr_blocks s).

(** Block [b] belongs to inode [i] (0 for the file system itself) as [k]. *)
Definition claimed (w : world) (b : Z) (k : block_owner_kind) (i : Z) : Prop :=
  (meta_block (w_sbi w) b /\ k = OWNER_META /\ i = 0) \/
  (inode_used w i /\ In (b, k) (inode_claims w i)).

(** The environment has been called; nothing of the file system moved. *)
Definition still (w w' : world) : Prop :=
  w_bdev w' = w_bdev w /\ aeq (w_sbi w') (w_sbi w).

Lemma still_trans w w1 w2 : still w w1 -> still w1 w2 -> still w w2.
Proof. intros [E1 A1] [E2 A2]. split; [congruence|]. by transitivity (w_sbi w1). Qed.

Lemma still_wp {A} (m : M A) w :
  (forall I, KStable I -> preserves I m) -> wp m (fun _ w' => still w w') w.
Proof.
  intros H. apply wp_conj.
  - by apply frame_wp, kstable_view.
  - exact (astate_frame m (fun I HI => H I js_kstable) w).
Qed.

Lemma still_claims w w' i : still w w' -> inode_claims w' i = inode_claims w i.
Proof.
  intros [E _]. unfold inode_claims, tree_claims, tree_extents, tree_leaves, disk_inode_at, block_image.
  by rewrite E.
Qed.

Lemma still_used w w' i : still w w' -> inode_used w' i <-> inode_used w i.
Proof. intros [_ (E1 & E2 & _)%astate_inv]. unfold inode_used. by rewrite E1, E2. Qed.

Lemma tree_leaves_nonneg w root : Forall (fun b => 0 <= b) (tree_leaves w root).
Proof.
  unfold tree_leaves. destruct (_ =? 0); [constructor|]. apply Forall_map, Forall_forall.
  intros i _. cbn. apply (get_u32_range _ _).
Qed.

Lemma tree_extents_u32 w root : Forall ext_u32 (tree_extents w root).
Proof.
  unfold tree_extents. destruct (_ =? 0); [apply get_extents_u32|].
  apply Forall_concat, Forall_map, Forall_forall. intros i _. apply get_extents_u32.
Qed.

Lemma scan_file_marked o ino root w : owners_ok o -> 0 <= root -> nr_blocks (w_sbi w) <= U32_MAX ->
  wp (simplefs_rebuild_scan_file o ino root) (fun ro w' => let '(r, o') := ro in still w w' /\
    (r = 0 -> marked (nr_blocks (w_sbi w)) o o' (tree_claims w root) ino)) w.
Proof.
  intros Ho Hr Hnr. unfold simplefs_rebuild_scan_file. kwp.
  set (nr := nr_blocks (w_sbi w)) in *.
  destruct (simplefs_rebuild_mark_block nr o root _ ino) as [r1 o1] eqn:Hm.
  destruct (Z.eqb_spec r1 0) as [->|]; cbn [negb]; [|by apply wp_ret].
  apply mark_block_marked in Hm; [|done|done]. apply wp_bind.
  eapply wp_mono; [apply wp_conj; [apply load_extents_reads|apply still_wp; intros; apply load_extents_pres; done]|].
  intros [r2 buf] w2 [Hl Hs]. cbv beta iota in *.
  destruct (Z.eqb_spec r2 0) as [->|]; cbn [negb]; [|by apply wp_ret]. destruct (Hl eq_refl) as [-> ->].
  destruct (mark_leaves _ nr o1 ino) as [r3 o3] eqn:Hm3.
  destruct (Z.eqb_spec r3 0) as [->|]; cbn [negb]; apply wp_ret; [|by split].
  apply mark_leaves_marked in Hm3; [|apply Hm|apply tree_leaves_nonneg].
  destruct (mark_extents _ nr o3 ino) as [r4 o4] eqn:Hm4. split; [done|]. intros ->.
  apply mark_extents_marked in Hm4; [|apply Hm3|done|apply tree_extents_u32].
  apply (marked_app _ _ _ _ [_] _ _ Hm). by apply (marked_app _ _ o3).
Qed.

Lemma rebuild_inode_marked o ino w : owners_ok o -> nr_blocks (w_sbi w) <= U32_MAX ->
  wp (rebuild_inode o ino) (fun ro w' => let '(r, o') := ro in still w w' /\
    (r = 0 -> marked (nr_blocks (w_sbi w)) o o'
      (if test_bit (ifree_bitmap (w_sbi w)) ino then [] else inode_claims w ino) ino)) w.
Proof.
  intros Ho Hnr. unfold rebuild_inode. kwp. destruct (test_bit _ ino).
  { apply wp_ret. split; [done|]. intros _. by apply marked_nil. }
  apply wp_bind. eapply wp_mono; [apply still_wp; intros; apply get_folio_pres; done|].
  intros r w1 Hs1. cbv beta. destruct (IS_ERR r) eqn:Hr.
  { apply wp_ret. split; [done|]. intros ->. done. }
  kwp. fold (disk_inode_at w1 ino). set (nr := nr_blocks (w_sbi w)) in *.
  rewrite <- (still_claims w w1) by done. unfold inode_claims. set (d := disk_inode_at w1 ino).
  assert (Hei : 0 <= d_ei_block d /\ 0 <= d_xattr_block d) by (split; apply (get_u32_range _ _)).
  eapply (wp_mono _ (fun ro w2 => let '(r, o') := ro in still w1 w2 /\ (r = 0 -> marked nr o o'
    (if (S_ISREG (d_mode d) || S_ISDIR (d_mode d)) && negb (d_ei_block d =? 0)
     then tree_claims w1 (d_ei_block d)
     else if S_ISLNK (d_mode d) && negb (d_ei_block d =? 0) then [(d_ei_block d, OWNER_SYMLINK)]
     else []) ino))).
  - assert (Hscan : wp (simplefs_rebuild_scan_file o ino (d_ei_block d)) (fun ro w2 =>
      let '(r, o') := ro in still w1 w2 /\ (r = 0 -> marked nr o o' (tree_claims w1 (d_ei_block d)) ino)) w1).
    { destruct Hs1 as [_ (E1 & _)%astate_inv]. unfold nr in *. rewrite <- E1 in *. apply scan_file_marked; tauto. }
    destruct (S_ISREG (d_mode d)), (S_ISDIR (d_mode d)), (S_ISLNK (d_mode d)), (negb _); cbn [andb orb];
      try exact Hscan; apply wp_ret; try (split; [done|]; intros _; by apply marked_nil).
    destruct (simplefs_rebuild_mark_block _ _ _ _ _) as [r2 o2] eqn:Hm. split; [done|]. intros ->.
    apply mark_block_marked in Hm; tauto.
  - intros [r2 o2] w2 [Hs2 Hm]. apply wp_ret.
    destruct (Z.eqb_spec r2 0) as [->|]; cbn [andb]; [|by split; [apply (still_trans w w1 w2)|]].
    specialize (Hm eq_refl). destruct (negb (d_xattr_block d =? 0)).
    + destruct (simplefs_rebuild_mark_block _ _ _ _ _) as [r3 o3] eqn:Hm3.
      split; [by apply (still_trans w w1 w2)|]. intros ->. apply mark_block_marked in Hm3; [|apply Hm|tauto].
      by apply (marked_app _ _ o2).
    + split; [by apply (still_trans w w1 w2)|]. intros _. by rewrite app_nil_r.
Qed.

Lemma rebuild_inodes_marked n : forall ino o w, owners_ok o -> 0 < ino ->
  ino + Z.of_nat n <= nr_inodes (w_sbi w) -> nr_blocks (w_sbi w) <= U32_MAX ->
  wp (rebuild_inodes n ino o) (fun ro w' => let '(r, o') := ro in still w w' /\
    (r = 0 -> owners_ok o' /\ forall b k i, owner o' !! b = Some (k, i) <->
      owner o !! b = Some (k, i) \/
      (ino <= i < ino + Z.of_nat n /\ inode_used w i /\ In (b, k) (inode_claims w i)))) w.
Proof.
  induction n as [|n IH]; intros ino o w Ho Hi Hn Hnr; cbn [rebuild_inodes].
  { apply wp_ret. split; [done|]. intros _. split; [done|]. intros b k i. split; [auto|].
    intros [?|[? _]]; [done|lia]. }
  apply wp_bind. eapply wp_mono; [by apply rebuild_inode_marked|].
  intros [r o1] w1 [Hs1 Hm]. destruct (Z.eqb_spec r 0) as [->|]; cbn [negb]; [|by apply wp_ret].
  destruct (Hm eq_refl) as (Ho1 & H1 & _). pose proof Hs1 as [_ (E1 & E2 & _)%astate_inv].
  eapply wp_mono; [apply IH; try done; rewrite ?E1; lia|].
  intros [r2 o2] w2 [Hs2 H2]. split; [by apply (still_trans w w1 w2)|]. intros ->.
  destruct (H2 eq_refl) as [Ho2 H3]. split; [done|]. intros b k i. rewrite H3, H1.
  rewrite (still_used w w1), (still_claims w w1) by done.
  destruct (test_bit (ifree_bitmap (w_sbi w)) ino) eqn:Ht.
  - split; [intros [[?|[[] _]]|(? & ? & ?)]; [by left|right; split_and!; try done; lia]|].
    intros [?|(? & Hu & ?)]; [by auto|]. destruct (Z.eq_dec i ino) as [->|].
    + destruct Hu. congruence.
    + right. split_and!; try done; lia.
  - split.
    + intros [[?|[? ->]]|(? & ? & ?)]; [by left|right|right; split_and!; try done; lia].
      split_and!; try done; try lia. unfold inode_used. split; [lia|done].
    + intros [?|(? & Hu & ?)]; [by auto|]. destruct (Z.eq_dec i ino) as [->|]; [auto|].
      right. split_and!; try done; lia.
Qed.

End Scan.

Lemma rebuild_meta_marked (s : sb_info) : 0 <= s_journal_start s ->
  owners_ok (rebuild_meta s) /\
  forall b k i, owner (rebuild_meta s) !! b = Some (k, i) <-> meta_block s b /\ k = OWNER_META /\ i = 0.
Proof.
  intros Hj. pose proof (u32_range (1 + nr_istore_blocks s + nr_ifree_blocks s + nr_bfree_blocks s)) as He.
  fold (meta_end_of s) in He. destruct He as [He _]. unfold rebuild_meta, owners_ok, meta_block.
  set (jr := negb (s_journal_present s =? 0) && (s_journal_start s <? nr_blocks s)).
  assert (Hjr : forall b, (s_journal_present s <> 0 /\ s_journal_start s <= b < nr_blocks s) <->
    jr = true /\ s_journal_start s <= b < nr_blocks s).
  { intros b. unfold jr. destruct (Z.eqb_spec (s_journal_present s) 0), (Z.ltb_spec (s_journal_start s) (nr_blocks s));
      cbn; intuition lia. }
  assert (Hjn : jr = true -> s_journal_start s < nr_blocks s) by (unfold jr; intros; bool_hyps; lia).
  destruct jr; [specialize (Hjn eq_refl)|clear Hjn]; cbn [used_map owner]; split_and!.
  - intros b Hb. rewrite !own_meta_lookup, !bitmap_set_testbit by lia.
    unfold test_bit. rewrite Z.testbit_0_l, lookup_empty, orb_false_r.
    destruct ((s_journal_start s <=? b) && _), ((0 <=? b) && _); cbn; by rewrite ?is_Some_alt.
  - intros b x. rewrite !own_meta_lookup, lookup_empty.
    destruct (Z.leb_spec (s_journal_start s) b), (Z.ltb_spec b (s_journal_start s + (nr_blocks s - s_journal_start s))),
      (Z.leb_spec 0 b), (Z.ltb_spec b (0 + meta_end_of s)); cbn; intros; try done; lia.
  - intros b k i. rewrite !own_meta_lookup, lookup_empty, Hjr.
    destruct (Z.leb_spec (s_journal_start s) b), (Z.ltb_spec b (s_journal_start s + (nr_blocks s - s_journal_start s))),
      (Z.leb_spec 0 b), (Z.ltb_spec b (0 + meta_end_of s)); cbn; intuition (congruence || lia).
  - intros b Hb. rewrite !own_meta_lookup, !bitmap_set_testbit by lia.
    unfold test_bit. rewrite Z.testbit_0_l, lookup_empty, orb_false_r.
    destruct ((0 <=? b) && _); cbn; by rewrite ?is_Some_alt.
  - intros b x. rewrite !own_meta_lookup, lookup_empty.
    destruct (Z.leb_spec 0 b), (Z.ltb_spec b (0 + meta_end_of s)); cbn; intros; try done; lia.
  - intros b k i. rewrite !own_meta_lookup, lookup_empty, Hjr.
    destruct (Z.leb_spec 0 b), (Z.ltb_spec b (0 + meta_end_of s)); cbn; intuition (congruence || lia).
Qed.

Lemma complement_copy dst map n b : 0 <= b < n ->
  test_bit (bitmap_copy dst (bitmap_complement map n) n) b = negb (test_bit map b).
Proof.
  intros Hb. unfold test_bit, bitmap_copy, bitmap_complement. rewrite splice_testbit by lia.
  rewrite (proj2 (Z.leb_le 0 b)), (proj2 (Z.ltb_lt b (0 + n))) by lia. cbn [andb].
  rewrite Z.ldiff_spec, ones_testbit, (proj2 (Z.ltb_lt _ _)) by lia. cbn [andb]. do 2 f_equal. lia.
Qed.

Section Theorems.
Context {K : Kernel}.

(** C20: the rebuilt block bitmap is exact: when
    [simplefs_rebuild_block_bitmap] succeeds, no block has two owners, a block is
    free in the new bitmap exactly when no inode (as extent root, leaf, data,
    symlink target or attribute block) and neither the metadata area nor the
    journal claims it, and both free counters are the weights of their bitmaps;
    when it fails, the allocator's state is unchanged.  No block image changes. *)
Theorem rebuild_exact w :
  is_u32 (nr_blocks (w_sbi w)) -> 0 < nr_inodes (w_sbi w) <= U32_MAX ->
  0 <= s_journal_start (w_sbi w) ->
  wp simplefs_rebuild_block_bitmap (fun r w' =>
    w_bdev w' = w_bdev w /\
    if r =? 0 then
      let s' := w_sbi w' in
      (forall b k i k' i', claimed w b k i -> claimed w b k' i' -> k = k' /\ i = i') /\
      (forall b, 0 <= b < nr_blocks s' ->
         test_bit (bfree_bitmap s') b = true <-> ~ exists k i, claimed w b k i) /\
      nr_blocks s' = nr_blocks (w_sbi w) /\ ifree_bitmap s' = ifree_bitmap (w_sbi w) /\
      nr_free_blocks s' = bitmap_weight (bfree_bitmap s') (nr_blocks s') /\
      nr_free_inodes s' = bitmap_weight (ifree_bitmap s') (nr_inodes s') /\ bitmap_lock s' = false
    else aeq (w_sbi w') (w_sbi w)) w.
Proof.
  intros [Hb0 Hb1] Hi Hj. unfold simplefs_rebuild_block_bitmap. kwp.
  do 3 (match goal with |- wp (if ?b then _ else _) _ _ => destruct b end; [by kwp|]; kwp).
  match goal with |- wp _ _ ?w0 => set (w1 := w0) end. assert (Hs0 : still w w1) by done. clearbody w1.
  destruct (rebuild_meta_marked (w_sbi w) Hj) as [Ho Hmeta].
  pose proof Hs0 as [_ (E1 & _)%astate_inv].
  eapply wp_mono; [apply rebuild_inodes_marked; try done; rewrite ?E1; lia|].
  intros [rs o] w2 [Hs1 Hr]. cbv beta iota. pose proof (still_trans _ _ _ Hs0 Hs1) as [Eb Ea].
  destruct (Z.eqb_spec rs 0) as [->|Hr0]; cbn [negb].
  2:{ apply wp_ret. split; [done|]. by rewrite (proj2 (Z.eqb_neq _ _) Hr0). }
  destruct (Hr eq_refl) as [[Ho1 Ho2] Hc]. clear Hr. kwp.
  match goal with |- wp (if ?b then _ else _) _ _ => destruct b end; [by kwp|]. kwp.
  apply astate_inv in Ea as (F1 & F2 & F3 & F4 & F5 & F6). split; [done|]. cbn -[bitmap_weight].
  rewrite F1, F2 in *. set (nr := nr_blocks (w_sbi w)) in *.
  assert (Hcl : forall b k i, owner o !! b = Some (k, i) <-> claimed w b k i).
  { intros b kd i. rewrite Hc, Hmeta. rewrite (still_used w w1), (still_claims w w1) by done.
    unfold claimed, inode_used. rewrite Z2Nat.id by lia. intuition lia. }
  assert (Hbit : forall b, 0 <= b < nr ->
    test_bit (bitmap_copy (bfree_bitmap (w_sbi w2)) (bitmap_complement (used_map o) nr) nr) b =
    test_bit (bitmap_complement (used_map o) nr) b).
  { intros b Hb. rewrite complement_copy by done. unfold test_bit, bitmap_complement.
    rewrite Z.ldiff_spec, ones_testbit, (proj2 (Z.ltb_lt _ _)) by lia. done. }
  split_and!; try done.
  - intros b kd i kd' i' H1%Hcl H2%Hcl. rewrite H1 in H2. by simplify_eq.
  - intros b Hb. rewrite complement_copy by done. rewrite negb_true_iff, <- not_true_iff_false, Ho1 by lia.
    split; intros H1 H2; apply H1.
    + destruct H2 as (kd & i & H%Hcl). by eexists.
    + destruct H2 as [[kd i] H%Hcl]. by eexists _, _.
  - rewrite u32_id.
    + unfold bitmap_weight. apply weight_from_ext. intros b Hb. rewrite Hbit; [done|lia].
    + pose proof (weight_bounds (bitmap_complement (used_map o) nr) nr ltac:(lia)).
      unfold is_u32. lia.
  - apply u32_id. pose proof (weight_bounds (ifree_bitmap (w_sbi w)) (nr_inodes (w_sbi w)) ltac:(lia)).
    unfold is_u32. lia.
Qed.

End Theorems.
