(* ===== verification/Super.v ===== *)
(** * Super: mounting, synchronising, unmounting and eviction (simplefs_super.c)

    [simplefs_fill_super] reads the superblock and the bitmaps, loads the journal
    and reads the bitmaps again; [simplefs_sync_fs] writes them back without a
    journal; [simplefs_put_super] clears the recovery marker last;
    [simplefs_evict_inode] frees what an unlinked inode owned. *)

From stdpp Require Import base list numbers gmap.
From S2P Require Import Prelude Image Layout Kernel DiskFormat Discard Journal MetaBuf.
From S2P Require Import Alloc Retire ExtentBuf ExtentTree InodeTable DirIndex Xattr Rebuild.

Local Open Scope Z_scope.
Local Open Scope fs_scope.

(** The mount options of [struct simplefs_fs_context]. *)
Record fs_context := FsContext { nojournal : bool; norecovery : bool; discard : bool }.

Record kstatfs := Kstatfs {
  f_type : Z; f_bsize : Z; f_blocks : Z; f_bfree : Z; f_bavail : Z; f_files : Z; f_ffree : Z;
  f_namelen : Z
}.

Section Ops.
Context {K : Kernel}.

(** ** Synchronisation

    [sync_inodes] is what the VFS does in [sync_inodes_sb]: it calls back into
    the file system to write the dirty inodes and their data. *)

(** Block [i] of a bitmap that starts after block [first]. *)
Definition bitmap_idx (first i : Z) : Z := s32 (first + i + 1).

Definition sync_bitmap_block (first map i : Z) : M Z :=
  let idx := bitmap_idx first i in
  let! r := simplefs_get_folio idx in
  if IS_ERR r then ret r else
  run! write_image idx (get_bytes map (i * SIMPLEFS_BLOCK_SIZE) SIMPLEFS_BLOCK_SIZE) in
  run! kdo (FolioMarkDirty idx) in
  ret 0.

(** The counters and the geometry, from [nr_blocks] to [nr_free_blocks]. *)
Definition sb_words (d : sb_disk) : list Z :=
  [nr_blocks d; nr_inodes d; nr_istore_blocks d; nr_ifree_blocks d; nr_bfree_blocks d;
   nr_free_inodes d; nr_free_blocks d].

(** Under [bitmap_lock]: the superblock and both bitmaps. *)
Definition sync_snapshot : M Z :=
  let! s := get_sbi in
  let! r := simplefs_get_folio 0 in
  if IS_ERR r then ret r else
  let! img := read_image 0 in
  run! write_image 0 (put_words img 4 (sb_words s)) in
  run! kdo (FolioMarkDirty 0) in
  let! r := for_z (Z.to_nat (nr_ifree_blocks s)) 0
              (sync_bitmap_block (nr_istore_blocks s) (ifree_bitmap s)) in
  if negb (r =? 0) then ret r else
  for_z (Z.to_nat (nr_bfree_blocks s)) 0
    (sync_bitmap_block (nr_istore_blocks s + nr_ifree_blocks s) (bfree_bitmap s)).

Definition simplefs_sync_fs (sync_inodes : M unit) (wait : bool) : M Z :=
  let! down := simplefs_is_shutdown in
  if down then ret (- EIO) else
  let! rdonly := gets w_rdonly in
  if rdonly then ret 0 else
  let! s := get_sbi in
  if has_jbd2 (s_journal s) then
    if negb wait then ret 0 else
    run! sync_inodes in
    simplefs_journal_force_commit
  else
  run! when wait sync_inodes in
  run! lock_bitmap in
  let! r := sync_snapshot in
  run! unlock_bitmap in
  if negb (r =? 0) then ret r else
  if wait then
    let! r := kdo SyncBlockdev in
    if negb (r =? 0) then ret r else
    kdo FilemapWriteAndWaitAll
  else ret 0.

Definition simplefs_freeze (sync_inodes : M unit) : M Z :=
  run! simplefs_sync_fs sync_inodes true in ret 0.

(** [sb->s_fs_info] is not NULL. *)
Definition simplefs_put_super (sync_inodes : M unit) : M unit :=
  let! s := get_sbi in
  let discard_bdev_cache := s_shutdown s in
  let! rdonly := gets w_rdonly in
  run! (if negb rdonly && negb (s_shutdown s) && negb (s_journal_mode s =? 2) then
          let! r := simplefs_sync_fs sync_inodes true in
          let! r := (if r =? 0 then kdo FilemapWriteAndWaitAll else ret r) in
          let! r := (if r =? 0 then simplefs_journal_checkpoint else ret r) in
          let! r := (if r =? 0 then simplefs_journal_set_needs_recovery false else ret r) in
          ret tt
        else ret tt) in
  run! simplefs_journal_destroy in
  when discard_bdev_cache (run! kdo TruncateBdevPages in ret tt).

Definition simplefs_statfs : M kstatfs :=
  let! s := get_sbi in
  ret (Kstatfs SIMPLEFS_MAGIC SIMPLEFS_BLOCK_SIZE (nr_blocks s) (nr_free_blocks s)
         (nr_free_blocks s) (nr_inodes s) (nr_free_inodes s) SIMPLEFS_FILENAME_LEN).

Definition simplefs_shutdown_sb : M unit :=
  run! upd_sbi (set_s_shutdown true) in simplefs_journal_shutdown.

(** ** Eviction *)

(** The blocks of a file or directory with an extent tree; a nonzero result is
    the [goto out_clear]. *)
Definition evict_tree (inode : Z) : M Z :=
  let! i := get_inode inode in
  let! (r, buf) := simplefs_file_load_extents (ei_block i) in
  if negb (r =? 0) then run! simplefs_journal_fail r in ret r else
  run! each_list (eb_extents buf) (fun ext =>
    if S_ISDIR (i_mode i) then
      run! simplefs_retire_metadata_blocks (ee_start ext) (simplefs_ext_len ext) in ret tt
    else put_blocks (ee_start ext) (simplefs_ext_len ext)) in
  run! each_list (eb_leaf_blocks buf) (fun leaf =>
    run! simplefs_retire_metadata_blocks leaf 1 in ret tt) in
  run! simplefs_retire_metadata_blocks (ei_block i) 1 in
  ret 0.

Definition evict_retire (inode : Z) : M unit :=
  let! handle := simplefs_journal_start_sb 64 in
  if HANDLE_IS_ERR handle then ret tt else
  let! i := get_inode inode in
  let! r := (if (S_ISREG (i_mode i) || S_ISDIR (i_mode i)) && negb (ei_block i =? 0)
             then evict_tree inode else ret 0) in
  if negb (r =? 0) then ret tt else
  run! when (S_ISLNK (i_mode i) && negb (ei_block i =? 0))
    (run! simplefs_retire_metadata_blocks (ei_block i) 1 in ret tt) in
  run! simplefs_xattr_delete_inode inode in
  run! simplefs_clear_disk_inode inode in
  run! when (negb (i_ino i =? 0)) (put_inode (i_ino i)) in
  run! simplefs_journal_stop handle in
  ret tt.

Definition simplefs_evict_inode (inode : Z) : M unit :=
  run! simplefs_dir_destroy inode in
  run! kdo (TruncateInodePages inode) in
  let! i := get_inode inode in
  let! deleted :=
    (if negb (i_nlink i =? 0) then ret false else
     let! bad := kdo (IsBadInode inode) in
     if negb (bad =? 0) then ret false else
     let! down := simplefs_is_shutdown in ret (negb down)) in
  run! when deleted (evict_retire inode) in
  run! kdo (ClearInode inode) in
  ret tt.

(** ** File handles *)

(** The inode number 0 or an error. *)
Definition simplefs_nfs_get_inode (ino generation : Z) : M Z :=
  let! s := get_sbi in
  if (ino <? 1) || (nr_inodes s <=? ino) then ret (- ESTALE) else
  run! lock_bitmap in
  let! s := get_sbi in
  let free := test_bit (ifree_bitmap s) ino in
  run! unlock_bitmap in
  if free then ret (- ESTALE) else
  let! r := simplefs_iget ino in
  if IS_ERR r then ret r else
  let! bad := kdo (IsBadInode ino) in
  let! i := get_inode ino in
  if negb (bad =? 0) || (negb (generation =? 0) && negb (i_generation i =? generation))
  then ret (- ESTALE) else ret 0.

(** The parent's number is in the first four bytes of [i_data]; 0 or an error. *)
Definition simplefs_get_parent (dir : Z) : M (Z * Z) :=
  let! i := get_inode dir in
  if negb (S_ISDIR (i_mode i)) then ret (- ENOTDIR, 0) else
  let parent_ino := get_u32 (i_data i) 0 in
  if parent_ino =? 0 then ret (- ENOENT, 0) else
  let! r := simplefs_iget parent_ino in
  ret (r, parent_ino).

(** ** Mounting *)

(** The loops that copy a bitmap from its blocks. *)
Fixpoint read_bitmap (n : nat) (first i map : Z) : M (Z * Z) :=
  match n with
  | O => ret (0, map)
  | S n' =>
      let idx := bitmap_idx first i in
      let! r := simplefs_get_folio idx in
      if IS_ERR r then ret (r, map) else
      let! img := read_image idx in
      read_bitmap n' first (i + 1)
        (put_bytes map (i * SIMPLEFS_BLOCK_SIZE) SIMPLEFS_BLOCK_SIZE img)
  end.

(** Both bitmaps, into the superblock information. *)
Definition load_bitmaps : M Z :=
  let! s := get_sbi in
  let! (r, map) := read_bitmap (Z.to_nat (nr_ifree_blocks s)) (nr_istore_blocks s) 0 (ifree_bitmap s) in
  run! upd_sbi (set_ifree_bitmap map) in
  if negb (r =? 0) then ret r else
  let! (r, map) := read_bitmap (Z.to_nat (nr_bfree_blocks s))
                     (nr_istore_blocks s + nr_ifree_blocks s) 0 (bfree_bitmap s) in
  run! upd_sbi (set_bfree_bitmap map) in
  ret r.

(** The journal's blocks are in use whatever the bitmap says. *)
Definition reserve_journal : M unit :=
  let! s := get_sbi in
  when (negb (s_journal_present s =? 0))
    (upd_sbi (fun s => set_bfree_bitmap (bitmap_clear (bfree_bitmap s) (s_journal_start s)
                                           (u32 (nr_blocks s - s_journal_start s))) s)).

(** The error exits free [sbi] and clear [sb->s_fs_info]. *)
Definition free_sbi (r : Z) : M Z :=
  run! modify (set_w_fs_info false) in ret r.
Definition destroy_and_free (r : Z) : M Z :=
  run! simplefs_journal_destroy in free_sbi r.

(** From the second read of the bitmaps on. *)
Definition fill_super_tail : M Z :=
  let! r := load_bitmaps in
  if negb (r =? 0) then destroy_and_free r else
  run! reserve_journal in
  run! upd_sbi (fun s => upd_disk (set_nr_free_blocks
         (u32 (bitmap_weight (bfree_bitmap s) (nr_blocks s)))) s) in
  run! upd_sbi (fun s => upd_disk (set_nr_free_inodes
         (u32 (bitmap_weight (ifree_bitmap s) (nr_inodes s)))) s) in
  let! r := simplefs_iget 1 in
  if IS_ERR r then destroy_and_free r else
  let! uid := kdo (InitOwnerUid 1) in
  let! gid := kdo (InitOwnerGid 1) in
  run! upd_inode 1 (fun i => set_i_gid gid (set_i_uid uid i)) in
  let! null := kdo DMakeRoot in
  if negb (null =? 0) then destroy_and_free (- ENOMEM) else
  run! modify (set_w_root true) in
  ret 0.

Definition apply_options (ctx : option fs_context) (rdonly : bool) : M Z :=
  match ctx with
  | None => ret 0
  | Some c =>
      if norecovery c && negb rdonly then ret (- EINVAL) else
      run! upd_sbi (fun s => upd_disk (set_s_journal_mode
             (if nojournal c then 1 else if norecovery c then 2 else s_journal_mode s)) s) in
      run! upd_sbi (set_s_discard (discard c)) in
      ret 0
  end.

(** [memory] reads the fields under [__KERNEL__] out of the bytes that follow the
    on-disk fields: the code copies them from the block with the rest. *)
Definition simplefs_fill_super (memory : Z -> sb_info) (ctx : option fs_context) : M Z :=
  let! r := simplefs_get_folio SIMPLEFS_SB_BLOCK_NR in
  if IS_ERR r then ret (- EIO) else
  let! csb := read_image SIMPLEFS_SB_BLOCK_NR in
  if negb (get_u32 csb 0 =? SIMPLEFS_DISK_MAGIC) then ret (- EINVAL) else
  let! ok := kmalloc in
  if negb ok then ret (- ENOMEM) else
  run! upd_sbi (fun _ => set_bitmap_lock false
         (set_sbi_disk (sb_of_image csb) (memory (get_bytes csb 112 3984)))) in
  run! modify (set_w_fs_info true) in
  let! ok := kmalloc in
  if negb ok then free_sbi (- ENOMEM) else
  run! upd_sbi (set_ifree_bitmap 0) in
  let! s := get_sbi in
  let! (r, map) := read_bitmap (Z.to_nat (nr_ifree_blocks s)) (nr_istore_blocks s) 0 0 in
  run! upd_sbi (set_ifree_bitmap map) in
  if negb (r =? 0) then free_sbi (- EIO) else
  let! ok := kmalloc in
  if negb ok then free_sbi (- ENOMEM) else
  run! upd_sbi (set_bfree_bitmap 0) in
  let! ok := kmalloc in
  if negb ok then free_sbi (- ENOMEM) else
  run! upd_sbi (set_discard_pending (Some 0)) in
  let! (r, map) := read_bitmap (Z.to_nat (nr_bfree_blocks s))
                     (nr_istore_blocks s + nr_ifree_blocks s) 0 0 in
  run! upd_sbi (set_bfree_bitmap map) in
  if negb (r =? 0) then free_sbi (- EIO) else
  let meta_end := meta_end_of s in
  if negb (s_journal_present s =? 0) &&
     ((s_journal_start s <=? meta_end) || (nr_blocks s <=? s_journal_start s)) then
    free_sbi (- EFSCORRUPTED)
  else
  run! reserve_journal in
  let! rdonly := gets w_rdonly in
  let! r := apply_options ctx rdonly in
  if negb (r =? 0) then free_sbi r else
  let! r := simplefs_journal_load in
  if negb (r =? 0) then free_sbi r else
  fill_super_tail.

End Ops.

(** ** What the device holds *)

Section Device.
Context {K : Kernel}.

(** Bit [k] of the bitmap whose blocks follow block [first]. *)
Definition dev_bit (w : world) (first k : Z) : bool :=
  Z.testbit (block_image w (first + 1 + k / BITS_PER_BLOCK)) (k mod BITS_PER_BLOCK).

(** Blocks [first + 1 .. first + n] hold bytes of [map]. *)
Definition bitmap_on_device (w : world) (first n map : Z) : Prop :=
  forall j, 0 <= j < n ->
    block_image w (first + j + 1) = get_bytes map (j * SIMPLEFS_BLOCK_SIZE) SIMPLEFS_BLOCK_SIZE.

(** The superblock counters and both bitmaps are those in memory. *)
Definition on_device (w : world) : Prop :=
  let s := w_sbi w in
  get_words (block_image w 0) 4 7 = sb_words s /\
  bitmap_on_device w (nr_istore_blocks s) (nr_ifree_blocks s) (ifree_bitmap s) /\
  bitmap_on_device w (nr_istore_blocks s + nr_ifree_blocks s) (nr_bfree_blocks s) (bfree_bitmap s).

Lemma dev_bit_on_device w first n map k : 0 <= first -> 0 <= k < n * BITS_PER_BLOCK ->
  bitmap_on_device w first n map -> dev_bit w first k = test_bit map k.
Proof.
  unfold dev_bit, test_bit, bitmap_on_device. change BITS_PER_BLOCK with 32768.
  change SIMPLEFS_BLOCK_SIZE with 4096. intros Hf Hk H.
  pose proof (Z.div_mod k 32768 ltac:(lia)) as Hd. pose proof (Z.mod_pos_bound k 32768 ltac:(lia)) as Hm.
  assert (0 <= k / 32768 < n) by lia.
  replace (first + 1 + k / 32768) with (first + k / 32768 + 1) by lia.
  rewrite H by lia. unfold get_bytes. rewrite slice_testbit by lia. rewrite (proj2 (Z.ltb_lt _ _)) by lia. cbn [andb]. f_equal. lia.
Qed.

(** The geometry fits an [int] block index. *)
Definition small_layout (s : sb_disk) : Prop :=
  0 <= nr_istore_blocks s /\ 0 <= nr_ifree_blocks s /\ 0 <= nr_bfree_blocks s /\
  1 + nr_istore_blocks s + nr_ifree_blocks s + nr_bfree_blocks s < 2147483648.

Lemma bitmap_idx_small first i : 0 <= first -> 0 <= i -> first + i + 1 < 2147483648 ->
  bitmap_idx first i = first + i + 1.
Proof.
  intros. unfold bitmap_idx, s32, u32. rewrite Z.mod_small by lia.
  by rewrite (proj2 (Z.ltb_lt _ _)) by lia.
Qed.

Lemma sync_block_pres (I : world -> Prop) `{!JStable I} first map i :
  preserves I (sync_bitmap_block first map i).
Proof. unfold sync_bitmap_block. pres. Qed.

Lemma sync_block_spec first map i w :
  wp (sync_bitmap_block first map i) (fun r w' =>
    (forall b, b <> bitmap_idx first i -> block_image w' b = block_image w b) /\
    (r = 0 -> block_image w' (bitmap_idx first i) =
       get_bytes map (i * SIMPLEFS_BLOCK_SIZE) SIMPLEFS_BLOCK_SIZE)) w.
Proof.
  unfold sync_bitmap_block. apply wp_bind.
  eapply wp_mono; [apply still_wp; intros; apply get_folio_pres; done|].
  intros r w1 [Hb _]. cbv beta. destruct (IS_ERR r) eqn:Hr.
  { apply wp_ret. unfold block_image. rewrite Hb. split; [done|]. intros ->. done. }
  kwp. unfold block_image. cbn. rewrite Hb. split.
  - intros b Hne. by rewrite lookup_insert_ne.
  - intros _. by rewrite lookup_insert_eq.
Qed.

Lemma sync_bitmap_spec first map n : forall i w,
  0 <= first -> 0 <= i -> first + i + Z.of_nat n < 2147483648 ->
  wp (for_z n i (sync_bitmap_block first map)) (fun r w' =>
    astate w' = astate w /\
    (forall b, ~ (first + i + 1 <= b < first + i + Z.of_nat n + 1) -> block_image w' b = block_image w b) /\
    (r = 0 -> forall j, i <= j < i + Z.of_nat n -> block_image w' (first + j + 1) =
       get_bytes map (j * SIMPLEFS_BLOCK_SIZE) SIMPLEFS_BLOCK_SIZE)) w.
Proof.
  induction n as [|n IH]; intros i w Hf Hi Hn; cbn [for_z].
  { apply wp_ret. split_and!; [done|done|lia]. }
  apply wp_bind. eapply wp_mono; [apply wp_conj; [apply sync_block_spec|
    apply (frame_wp astate), astate_frame; intros; by apply sync_block_pres]|].
  intros r w1 [[H1 H2] Ha]. cbv beta. rewrite bitmap_idx_small in H1, H2 by lia.
  destruct (Z.eqb_spec r 0) as [->|Hr].
  - eapply wp_mono; [apply IH; lia|]. intros r2 w2 (A & B & C). split_and!; [congruence| |].
    + intros b Hb. rewrite B by lia. apply H1. lia.
    + intros Hr j Hj. destruct (Z.eq_dec j i) as [->|Hne]; [|apply C; [done|lia]].
      rewrite B by lia. by apply H2.
  - apply wp_ret. split_and!; [done| |done]. intros b Hb. apply H1. lia.
Qed.

Lemma sb_words_stored img l : Forall is_u32 l -> length l = 7%nat ->
  get_words (put_words img 4 l) 4 7 = l.
Proof. intros H E. rewrite <- E. by apply get_put_words. Qed.

(** The snapshot under the lock is exact. *)
Lemma sync_snapshot_spec w :
  small_layout (w_sbi w) -> Forall is_u32 (sb_words (w_sbi w)) ->
  wp sync_snapshot (fun r w' => astate w' = astate w /\ (r = 0 -> on_device w' /\
    forall p m, 0 <= p -> 0 <= m -> p + m <= 32 \/ 256 <= p ->
      slice (block_image w' 0) p m = slice (block_image w 0) p m)) w.
Proof.
  intros (H1 & H2 & H3 & H4) Hu. unfold sync_snapshot. kwp.
  eapply wp_mono; [apply still_wp; intros; apply get_folio_pres; done|].
  intros r w1 [Hb1 Ha]. cbv beta. destruct (IS_ERR r) eqn:Hr.
  { apply wp_ret. split; [done|]. intros ->. done. }
  kwp. match goal with |- wp _ _ ?w0 => set (w2 := w0) end.
  assert (Ha2 : astate w2 = astate w) by exact Ha.
  assert (Hi0 : get_words (block_image w2 0) 4 7 = sb_words (w_sbi w) /\
    forall p m, 0 <= p -> 0 <= m -> p + m <= 32 \/ 256 <= p ->
      slice (block_image w2 0) p m = slice (block_image w 0) p m).
  { unfold w2, block_image. cbn -[put_words get_words sb_words slice]. rewrite lookup_insert_eq, Hb1.
    cbn [default from_option id]. split; [by apply sb_words_stored|]. intros p m Hp Hm H.
    apply put_words_slice; cbn [length sb_words]; lia. }
  clearbody w2. clear Hk. eapply wp_mono; [apply sync_bitmap_spec; lia|].
  rewrite Z2Nat.id by lia. intros r3 w3 (A3 & B3 & C3). cbv beta.
  destruct (Z.eqb_spec r3 0) as [->|]; cbn [negb].
  2:{ apply wp_ret. split; [congruence|done]. }
  eapply wp_mono; [apply sync_bitmap_spec; lia|]. rewrite Z2Nat.id by lia.
  intros r4 w4 (A4 & B4 & C4). split; [congruence|]. intros Hr4.
  assert (Es : astate w4 = astate w) by congruence. apply astate_inv in Es as (E1 & E2 & E3 & _).
  assert (E0 : block_image w4 0 = block_image w2 0) by (rewrite B4, B3 by lia; done).
  unfold on_device, bitmap_on_device. rewrite E0, E1, E2, E3. destruct Hi0 as [Hi0 Hi1]. split; [split_and!|done].
  - exact Hi0.
  - intros j Hj. rewrite B4 by lia. apply C3; [done|lia].
  - intros j Hj. apply C4; [done|lia].
Qed.

Lemma read_bitmap_spec first n : forall i map w,
  0 <= first -> 0 <= i -> first + i + Z.of_nat n < 2147483648 ->
  wp (read_bitmap n first i map) (fun rm w' => let '(r, map') := rm in still w w' /\
    (r = 0 -> forall k, 0 <= k -> test_bit map' k =
       if (i * BITS_PER_BLOCK <=? k) && (k <? (i + Z.of_nat n) * BITS_PER_BLOCK)
       then dev_bit w first k else test_bit map k)) w.
Proof.
  change BITS_PER_BLOCK with 32768.
  induction n as [|n IH]; intros i map w Hf Hi Hn; cbn [read_bitmap].
  { apply wp_ret. split; [done|]. intros _ k Hk.
    destruct (Z.leb_spec (i * 32768) k), (Z.ltb_spec k ((i + Z.of_nat 0) * 32768)); cbn; try done; lia. }
  apply wp_bind. eapply wp_mono; [apply still_wp; intros; apply get_folio_pres; done|].
  intros r w1 Hs. cbv beta. destruct (IS_ERR r) eqn:Hr.
  { apply wp_ret. split; [done|]. intros ->. done. }
  kwp. eapply wp_mono; [apply IH; lia|]. intros [r2 map2] w2 [Hs2 H2].
  split; [by apply (still_trans w w1 w2)|]. intros Hr2 k Hk. rewrite H2 by done.
  rewrite bitmap_idx_small by lia. destruct Hs as [Hb _].
  unfold dev_bit, block_image, test_bit, put_bytes. change SIMPLEFS_BLOCK_SIZE with 4096.
  change BITS_PER_BLOCK with 32768. rewrite Hb, splice_testbit by lia.
  pose proof (Z.div_mod k 32768 ltac:(lia)) as Hd. pose proof (Z.mod_pos_bound k 32768 ltac:(lia)) as Hm.
  destruct (Z.leb_spec ((i + 1) * 32768) k), (Z.ltb_spec k ((i + 1 + Z.of_nat n) * 32768)),
    (Z.leb_spec (i * 32768) k), (Z.ltb_spec k ((i + Z.of_nat (S n)) * 32768)),
    (Z.leb_spec (8 * (i * 4096)) k), (Z.ltb_spec k (8 * (i * 4096) + 8 * 4096)); cbn; try done; try lia.
  assert (k / 32768 = i) as E by lia.
  rewrite E. replace (k mod 32768) with (k - 8 * (i * 4096)) by lia. by replace (first + 1 + i) with (first + i + 1) by lia.
Qed.

End Device.

(** ** Mounting *)

Section Mount.
Context {K : Kernel}.

(** The device apart from the recovery marker. *)
Definition same_device (w w' : world) : Prop :=
  (forall b, b <> 0 -> block_image w' b = block_image w b) /\
  (forall p m, 0 <= p -> 0 <= m -> p + m <= 8 * sb_off_needs_recovery ->
     slice (block_image w' 0) p m = slice (block_image w 0) p m).

(** The log is empty: recovery changes nothing. *)
Definition nothing_to_replay : Prop := forall k m, jbd2_replay k m = m.

(** What loading the journal leaves alone. *)
Definition loaded (w w' : world) : Prop :=
  (nothing_to_replay -> same_device w w') /\
  set_s_needs_recovery 0 (sbi_disk (w_sbi w')) = set_s_needs_recovery 0 (sbi_disk (w_sbi w)) /\
  ifree_bitmap (w_sbi w') = ifree_bitmap (w_sbi w) /\
  bfree_bitmap (w_sbi w') = bfree_bitmap (w_sbi w) /\
  discard_pending (w_sbi w') = discard_pending (w_sbi w) /\
  bitmap_lock (w_sbi w') = bitmap_lock (w_sbi w) /\ w_fs_info w' = w_fs_info w.

Lemma same_device_bdev w w' : w_bdev w' = w_bdev w -> same_device w w'.
Proof. unfold same_device, block_image. by intros ->. Qed.

Lemma same_device_trans w w1 w2 : same_device w w1 -> same_device w1 w2 -> same_device w w2.
Proof. intros [A1 B1] [A2 B2]. split; intros; [rewrite A2, A1|rewrite B2, B1]; done. Qed.

Lemma loaded_refl w : loaded w w.
Proof. by repeat split. Qed.

Lemma loaded_trans w w1 w2 : loaded w w1 -> loaded w1 w2 -> loaded w w2.
Proof.
  intros (D1 & A1 & B1 & C1 & E1 & F1 & G1) (D2 & A2 & B2 & C2 & E2 & F2 & G2).
  split_and!; [intros; apply (same_device_trans _ w1); auto|congruence..].
Qed.

Lemma loaded_kdo c w : wp (kdo c) (fun _ w' => loaded w w') w.
Proof. apply wp_kdo. intros r k _. by repeat split. Qed.

Lemma set_needs_recovery_loaded d w :
  wp (simplefs_journal_set_needs_recovery d) (fun _ w' => loaded w w') w.
Proof.
  unfold simplefs_journal_set_needs_recovery. kwp.
  destruct (_ =? _); kwp; [by apply loaded_refl|]. destruct (negb _); kwp; [by repeat split|].
  destruct (negb _); kwp; [by repeat split|].
  match goal with |- wp _ _ ?w0 => assert (H0 : loaded w w0) end.
  { split; [intros _; split|by repeat split]; unfold block_image; cbn -[slice put_u32 sb_off_needs_recovery].
    - intros b Hb. by rewrite lookup_insert_ne.
    - intros p m Hp Hm H. rewrite lookup_insert_eq. cbn -[slice put_u32]. unfold put_u32.
      apply slice_splice_disjoint; unfold sb_off_needs_recovery in *; lia. }
  match goal with |- wp _ _ ?w0 => set (w1 := w0) in * end. clearbody w1.
  apply (wp_mono _ (fun _ w' => loaded w w')).
  - destruct (_ =? 0); [by apply wp_ret|]. eapply wp_mono; [apply loaded_kdo|].
    intros ? ? H. by apply (loaded_trans w w1).
  - intros r' w2 H. kwp. destruct (_ =? 0); kwp; [|done]. destruct H as (D & A & B & C & E & F & G).
    split_and!; cbn; try done.
Qed.

Lemma journal_load_loaded w : wp simplefs_journal_load (fun _ w' => loaded w w') w.
Proof.
  assert (Hrep : forall k, nothing_to_replay -> jbd2_replay k (w_bdev w) = w_bdev w) by auto.
  assert (Hr : forall w1, (nothing_to_replay -> w_bdev w1 = w_bdev w) -> nothing_to_replay ->
    same_device w w1) by (intros w1 H1 H2; apply same_device_bdev; auto).
  unfold simplefs_journal_load, simplefs_journal_free, jbd2_recovered.
  assert (Hset : forall d w1, loaded w w1 ->
    wp (simplefs_journal_set_needs_recovery d) (fun _ w' => loaded w w') w1).
  { intros d w1 H1. eapply wp_mono; [apply set_needs_recovery_loaded|]. intros u w2 H2.
    by apply (loaded_trans w w1). }
  kwpc; try (by repeat split); try (split; [apply Hr; cbn; auto|by repeat split]).
  all: eapply wp_mono; [apply Hset; split; [apply Hr; cbn; auto|by repeat split]|].
  all: intros rr w1 H1; kwpc; try done; try exact H1.
Qed.

Lemma iget_frame ino : frame (fun w => (w_bdev w, astate w)) (simplefs_iget ino).
Proof.
  assert (Hk : forall c, frame (fun w => (w_bdev w, astate w)) (kdo c)) by (intros; by apply kdo_view).
  assert (Hf : frame (fun w => (w_bdev w, astate w)) (simplefs_get_folio (inode_block ino))).
  { intros w. destruct (still_wp (simplefs_get_folio (inode_block ino)) w) as [E1 E2];
      [intros; by apply get_folio_pres|]. unfold astate. by rewrite E1, E2. }
  unfold simplefs_iget, simplefs_alloc_inode, drop_inode, get_sbi, read_image, upd_inode. frames; auto.
Qed.

(** The journal's range, when there is one. *)
Definition journal_range (d : sb_disk) (k : Z) : bool :=
  negb (s_journal_present d =? 0) && (s_journal_start d <=? k) && (k <? nr_blocks d).

(** The bitmaps in memory are those of the device with the journal reserved. *)
Definition bitmaps_of_device (w : world) (s : sb_info) : Prop :=
  (forall k, 0 <= k < nr_ifree_blocks s * BITS_PER_BLOCK ->
     test_bit (ifree_bitmap s) k = dev_bit w (nr_istore_blocks s) k) /\
  (forall k, 0 <= k < nr_bfree_blocks s * BITS_PER_BLOCK ->
     test_bit (bfree_bitmap s) k =
     dev_bit w (nr_istore_blocks s + nr_ifree_blocks s) k && negb (journal_range s k)).

(** The state of the allocator after a mount. *)
Definition mounted (w : world) : Prop :=
  let s := w_sbi w in
  bitmaps_of_device w s /\
  nr_free_blocks s = bitmap_weight (bfree_bitmap s) (nr_blocks s) /\
  nr_free_inodes s = bitmap_weight (ifree_bitmap s) (nr_inodes s) /\
  discard_pending s = Some 0 /\ bitmap_lock s = false.

Lemma load_bitmaps_spec w : small_layout (w_sbi w) ->
  wp load_bitmaps (fun r w' => let s := w_sbi w' in
    w_bdev w' = w_bdev w /\ sbi_disk s = sbi_disk (w_sbi w) /\
    discard_pending s = discard_pending (w_sbi w) /\ bitmap_lock s = bitmap_lock (w_sbi w) /\
    (r = 0 ->
      (forall k, 0 <= k < nr_ifree_blocks s * BITS_PER_BLOCK ->
         test_bit (ifree_bitmap s) k = dev_bit w (nr_istore_blocks s) k) /\
      (forall k, 0 <= k < nr_bfree_blocks s * BITS_PER_BLOCK ->
         test_bit (bfree_bitmap s) k = dev_bit w (nr_istore_blocks s + nr_ifree_blocks s) k))) w.
Proof.
  intros (H1 & H2 & H3 & H4). unfold load_bitmaps. kwp.
  eapply wp_mono; [apply read_bitmap_spec; lia|]. rewrite Z2Nat.id by lia.
  intros [r map] w1 [[Eb1 Ea1] Hm1]. cbv beta iota.
  apply astate_inv in Ea1 as (A1 & A2 & A3 & A4 & A5 & A6). kwp.
  destruct (Z.eqb_spec r 0) as [->|]; cbn [negb]; [|kwp; cbn; split_and!; done].
  eapply wp_bind, wp_mono; [apply read_bitmap_spec; lia|]. rewrite Z2Nat.id by lia.
  intros [r2 map2] w2 [[Eb2 Ea2] Hm2]. cbv beta iota. kwp. cbn in *.
  apply astate_inv in Ea2 as (B1 & B2 & B3 & B4 & B5 & B6). cbn in *.
  split_and!; try congruence. rewrite B1, B2, A1. intros ->. split; intros k Hk.
  - rewrite Hm1 by (done || lia).
    rewrite (proj2 (Z.leb_le _ _)), (proj2 (Z.ltb_lt _ _)) by lia. done.
  - rewrite Hm2 by (done || lia).
    rewrite (proj2 (Z.leb_le _ _)), (proj2 (Z.ltb_lt _ _)) by lia. cbn [andb].
    unfold dev_bit, block_image. cbn. by rewrite Eb1.
Qed.

Lemma mounted_eq w w' : (w_bdev w', astate w') = (w_bdev w, astate w) -> mounted w -> mounted w'.
Proof.
  intros [= Eb E1 E2 E3 E4 E5 E6]. unfold mounted, bitmaps_of_device, dev_bit, block_image.
  by rewrite Eb, E1, E2, E3, E4, E6.
Qed.

Lemma reserve_journal_wp (Q : unit -> world -> Prop) w :
  Q tt (set_w_sbi (set_bfree_bitmap
    (if negb (s_journal_present (w_sbi w) =? 0) then
       bitmap_clear (bfree_bitmap (w_sbi w)) (s_journal_start (w_sbi w))
         (u32 (nr_blocks (w_sbi w) - s_journal_start (w_sbi w)))
     else bfree_bitmap (w_sbi w)) (w_sbi w)) w) -> wp reserve_journal Q w.
Proof.
  intros H. unfold reserve_journal. kwp. destruct (negb _); kwp; [done|].
  destruct w as [? ? [? ? ? ? ? ? ? ?] ? ? ? ? ? ?]. exact H.
Qed.

Lemma destroy_and_free_wp r (Q : Z -> world -> Prop) w :
  (forall w', w_fs_info w' = false -> Q r w') -> wp (destroy_and_free r) Q w.
Proof.
  intros H. unfold destroy_and_free, free_sbi. apply wp_bind, (wp_mono _ (fun _ _ => True)); [done|].
  intros. kwp. by apply H.
Qed.

(** The root is instantiated; the allocator and the device do not move. *)
Lemma mount_root_spec w :
  wp (let! r := simplefs_iget 1 in
      if IS_ERR r then destroy_and_free r else
      let! uid := kdo (InitOwnerUid 1) in
      let! gid := kdo (InitOwnerGid 1) in
      run! upd_inode 1 (fun i => set_i_gid gid (set_i_uid uid i)) in
      let! null := kdo DMakeRoot in
      if negb (null =? 0) then destroy_and_free (- ENOMEM) else
      run! modify (set_w_root true) in
      ret 0)
     (fun r w' => if r =? 0 then (w_bdev w', astate w') = (w_bdev w, astate w) /\
        is_Some (w_inodes w' !! 1) else w_fs_info w' = false) w.
Proof.
  apply wp_bind. eapply wp_mono; [apply (frame_wp _ _ _ (iget_frame 1))|]. intros r w1 H1. cbv beta in *.
  destruct (IS_ERR r) eqn:Hr.
  { apply destroy_and_free_wp. intros w' H. unfold IS_ERR in Hr. bool_hyps.
    by rewrite (proj2 (Z.eqb_neq _ _)) by lia. }
  kwp. match goal with |- wp (if ?b then _ else _) _ _ => destruct b end; [by apply destroy_and_free_wp|].
  kwp. split; [exact H1|]. cbn. rewrite lookup_insert_eq. by eexists.
Qed.

Lemma reserved_bit (d : sb_disk) map k :
  is_u32 (nr_blocks d) -> is_u32 (s_journal_start d) ->
  (s_journal_present d <> 0 -> s_journal_start d < nr_blocks d) -> 0 <= k ->
  test_bit (if negb (s_journal_present d =? 0) then
      bitmap_clear map (s_journal_start d) (u32 (nr_blocks d - s_journal_start d)) else map) k =
  test_bit map k && negb (journal_range d k).
Proof.
  unfold is_u32. intros Hb Hj Hlt Hk. unfold journal_range.
  destruct (Z.eqb_spec (s_journal_present d) 0) as [|Hp]; cbn [negb andb]; [by rewrite andb_true_r|].
  specialize (Hlt Hp). rewrite u32_id by (unfold is_u32; lia).
  rewrite bitmap_clear_testbit by lia. do 4 f_equal. lia.
Qed.

Lemma fill_super_tail_spec w : small_layout (w_sbi w) -> is_u32 (nr_blocks (w_sbi w)) ->
  is_u32 (nr_inodes (w_sbi w)) -> is_u32 (s_journal_start (w_sbi w)) ->
  (s_journal_present (w_sbi w) <> 0 -> s_journal_start (w_sbi w) < nr_blocks (w_sbi w)) ->
  discard_pending (w_sbi w) = Some 0 -> bitmap_lock (w_sbi w) = false ->
  wp fill_super_tail (fun r w' => if r =? 0 then
    w_bdev w' = w_bdev w /\ mounted w' /\ is_Some (w_inodes w' !! 1) /\
    set_nr_free_blocks 0 (set_nr_free_inodes 0 (sbi_disk (w_sbi w'))) =
    set_nr_free_blocks 0 (set_nr_free_inodes 0 (sbi_disk (w_sbi w)))
    else w_fs_info w' = false) w.
Proof.
  intros Hsl Hub Hui Huj Hjs Hp Hl. unfold fill_super_tail. apply wp_bind.
  eapply wp_mono; [by apply load_bitmaps_spec|]. intros r w1 (Eb & Ed & Ep & El & Hm). cbv beta.
  destruct (Z.eqb_spec r 0) as [->|Hr]; cbn [negb].
  2:{ apply destroy_and_free_wp. intros w' H. by rewrite (proj2 (Z.eqb_neq _ _)) by done. }
  destruct (Hm eq_refl) as [Hmi Hmb]. apply wp_bind, reserve_journal_wp, wp_bind, wp_modify, wp_bind, wp_modify.
  match goal with |- wp _ _ ?w0 => set (w2 := w0) end.
  assert (H2 : w_bdev w2 = w_bdev w /\ mounted w2 /\
    set_nr_free_blocks 0 (set_nr_free_inodes 0 (sbi_disk (w_sbi w2))) =
    set_nr_free_blocks 0 (set_nr_free_inodes 0 (sbi_disk (w_sbi w)))).
  { subst w2. unfold mounted, bitmaps_of_device. cbn -[bitmap_weight test_bit BITS_PER_BLOCK].
    rewrite Ed in *. split_and!; try congruence; try done.
    - intros k Hk. rewrite Hmi by done. unfold dev_bit, block_image. cbn. by rewrite Eb.
    - intros k Hk. rewrite reserved_bit by (done || lia). rewrite Hmb by done.
      unfold dev_bit, block_image. cbn. by rewrite Eb.
    - apply u32_id. unfold is_u32 in *. match goal with |- 0 <= bitmap_weight ?m ?n <= _ =>
        pose proof (weight_bounds m n ltac:(lia)) end. lia.
    - apply u32_id. unfold is_u32 in *. match goal with |- 0 <= bitmap_weight ?m ?n <= _ =>
        pose proof (weight_bounds m n ltac:(lia)) end. lia. }
  clearbody w2. destruct H2 as (A & B & C). eapply wp_mono; [apply mount_root_spec|].
  intros r3 w3 H. cbv beta in H. destruct (r3 =? 0); [|done]. destruct H as [E Hs].
  split_and!; [by injection E; congruence| |done|].
  - by apply (mounted_eq w2).
  - rewrite <- C. by injection E as _ -> _ _ _ _ _.
Qed.

(** The fields of the superblock that never change. *)
Definition sb_geometry (d : sb_disk) :=
  (magic d, nr_blocks d, nr_inodes d, nr_istore_blocks d, nr_ifree_blocks d, nr_bfree_blocks d,
   s_journal_present d, s_journal_start d).

(** The mount is under way: the device has only been read. *)
Definition reading (d : sb_disk) (w w1 : world) : Prop :=
  w_bdev w1 = w_bdev w /\ sb_geometry (w_sbi w1) = sb_geometry d /\ bitmap_lock (w_sbi w1) = false.

Lemma reading_still d w w1 w2 : reading d w w1 -> still w1 w2 -> reading d w w2.
Proof.
  intros (A & B & C) [D (E1 & _ & _ & _ & _ & E6)%astate_inv]. split_and!; [congruence| |congruence].
  by rewrite E1.
Qed.

Lemma free_sbi_wp r (Q : Z -> world -> Prop) w :
  (forall w', w_fs_info w' = false -> Q r w') -> wp (free_sbi r) Q w.
Proof. intros H. unfold free_sbi. kwp. by apply H. Qed.

Lemma apply_options_spec ctx ro d w w1 : reading d w w1 -> 
  wp (apply_options ctx ro) (fun r w' => reading d w w' /\
    discard_pending (w_sbi w') = discard_pending (w_sbi w1)) w1.
Proof.
  intros H. unfold apply_options. destruct ctx as [c|]; [|by kwp].
  destruct (_ && _); kwp; [done|]. done.
Qed.

(** The journal check guarantees the range of the journal. *)
Definition journal_placed (d : sb_disk) : Prop :=
  s_journal_present d <> 0 ->
  u32 (1 + nr_istore_blocks d + nr_ifree_blocks d + nr_bfree_blocks d) < s_journal_start d < nr_blocks d.

Lemma sb_of_image_u32 img : let d := sb_of_image img in
  is_u32 (nr_blocks d) /\ is_u32 (nr_inodes d) /\ is_u32 (s_journal_start d).
Proof. split_and!; apply get_u32_range. Qed.

Lemma geometry_inv (d d' : sb_disk) : sb_geometry d = sb_geometry d' ->
  nr_blocks d = nr_blocks d' /\ nr_inodes d = nr_inodes d' /\
  nr_istore_blocks d = nr_istore_blocks d' /\ nr_ifree_blocks d = nr_ifree_blocks d' /\
  nr_bfree_blocks d = nr_bfree_blocks d' /\ s_journal_present d = s_journal_present d' /\
  s_journal_start d = s_journal_start d'.
Proof. by intros [= ? ? ? ? ? ? ? ?]. Qed.

(** From the loading of the journal on. *)
Lemma mount_load_spec d w w1 : reading d w w1 -> small_layout d -> journal_placed d ->
  is_u32 (nr_blocks d) -> is_u32 (nr_inodes d) -> is_u32 (s_journal_start d) ->
  discard_pending (w_sbi w1) = Some 0 ->
  wp (let! r := simplefs_journal_load in if negb (r =? 0) then free_sbi r else fill_super_tail)
    (fun r w' => if r =? 0 then mounted w' /\ is_Some (w_inodes w' !! 1) /\
       sb_geometry (w_sbi w') = sb_geometry d /\ (nothing_to_replay -> same_device w w')
     else w_fs_info w' = false) w1.
Proof.
  intros (A & B & C) Hs Hj Hb Hi Hjs Hp. apply wp_bind. eapply wp_mono; [apply journal_load_loaded|].
  intros r w2 (D & E1 & E2 & E3 & E4 & E5 & E6). cbv beta.
  destruct (Z.eqb_spec r 0) as [->|Hr]; cbn [negb].
  2:{ apply free_sbi_wp. intros w' H. by rewrite (proj2 (Z.eqb_neq _ _)) by done. }
  assert (G : sb_geometry (w_sbi w2) = sb_geometry d).
  { rewrite <- B. change (sb_geometry (set_s_needs_recovery 0 (w_sbi w2)) = sb_geometry (w_sbi w1)). by rewrite E1. }
  pose proof (geometry_inv _ _ G) as (G1 & G2 & G3 & G4 & G5 & G6 & G7).
  eapply wp_mono; [apply fill_super_tail_spec|].
  - unfold small_layout. by rewrite G3, G4, G5.
  - by rewrite G1.
  - by rewrite G2.
  - by rewrite G7.
  - rewrite G1, G6, G7. intros Hne. destruct (Hj Hne). done.
  - congruence.
  - congruence.
  - intros r3 w3 H. cbv beta in H. destruct (r3 =? 0); [|done]. destruct H as (Fb & Fm & Fr & Fd). split_and!; [done|done| |].
    + rewrite <- G. change (sb_geometry (set_nr_free_blocks 0 (set_nr_free_inodes 0 (w_sbi w3))) =
        sb_geometry (w_sbi w2)). by rewrite Fd.
    + intros Hn. apply (same_device_trans w w1); [by apply same_device_bdev|].
      apply (same_device_trans w1 w2); [by apply D|by apply same_device_bdev].
Qed.

(** C21: mounting is sound: when [simplefs_fill_super] succeeds, the superblock
    geometry is the one on the device, both bitmaps in memory are those on the
    device after journal recovery with the journal's blocks reserved, the free
    counters are their weights, and the root inode is in core; recovery of an empty
    log leaves the device alone apart from the recovery marker.  When it fails,
    no superblock information stays attached. *)
Theorem mount_sound memory ctx w :
  small_layout (sb_of_image (block_image w 0)) -> w_fs_info w = false ->
  wp (simplefs_fill_super memory ctx) (fun r w' =>
    if r =? 0 then
      mounted w' /\ is_Some (w_inodes w' !! 1) /\
      sb_geometry (w_sbi w') = sb_geometry (sb_of_image (block_image w 0)) /\
      journal_placed (w_sbi w') /\ (nothing_to_replay -> same_device w w')
    else w_fs_info w' = false) w.
Proof.
  intros Hs Hf. unfold simplefs_fill_super. set (d := sb_of_image (block_image w 0)) in *.
  assert (Hfree : forall e w1, e <> 0 -> wp (free_sbi e) (fun r w' =>
    if r =? 0 then mounted w' /\ is_Some (w_inodes w' !! 1) /\
      sb_geometry (w_sbi w') = sb_geometry d /\ journal_placed (w_sbi w') /\ (nothing_to_replay -> same_device w w')
    else w_fs_info w' = false) w1).
  { intros e w1 He. apply free_sbi_wp. intros w' H. by rewrite (proj2 (Z.eqb_neq _ _) He). }
  apply wp_bind. eapply wp_mono; [apply wp_conj; [apply still_wp; intros; apply get_folio_pres; done|
    apply (frame_wp w_fs_info), kstable_view; try done; intros; apply get_folio_pres; done]|].
  intros r w1 [Hst Hf1]. cbv beta in Hf1. rewrite Hf in Hf1. destruct (IS_ERR r); [by kwp|]. kwp.
  wp_if; kwp; [done|]. wp_if; kwp; [done|].
  assert (Ei : block_image w1 SIMPLEFS_SB_BLOCK_NR = block_image w 0).
  { destruct Hst as [Hb _]. unfold block_image. by rewrite Hb. }
  rewrite Ei. fold d. wp_if; [by apply Hfree|]. kwp. wp_name w2.
  assert (H2 : reading d w w2) by (split_and!; [apply Hst|done|done]).
  assert (Es : sbi_disk (w_sbi w2) = d) by done. clearbody w2. rewrite Es.
  destruct Hs as (S1 & S2 & S3 & S4). eapply wp_mono; [apply read_bitmap_spec; lia|].
  intros [r3 m3] w3 [Hs3 _]. cbv beta iota. apply (reading_still d w w2 w3 H2) in Hs3 as H3. kwp.
  wp_if; [by apply Hfree|]. kwp. wp_if; [by apply Hfree|]. kwp. wp_if; [by apply Hfree|]. kwp.
  wp_name w4. assert (H4 : reading d w w4) by (by destruct H3).
  assert (P4 : discard_pending (w_sbi w4) = Some 0) by done. clearbody w4.
  eapply wp_mono; [apply read_bitmap_spec; lia|]. intros [r5 m5] w5 [Hs5 _]. cbv beta iota.
  apply (reading_still d w w4 w5 H4) in Hs5 as H5. destruct Hs5 as [_ (_ & _ & _ & P5 & _)%astate_inv].
  kwp. wp_if; [by apply Hfree|].
  match goal with |- wp (if ?b then _ else _) _ _ => destruct b eqn:Hjt end; [by apply Hfree|].
  assert (Hj : journal_placed d).
  { intros Hne. unfold meta_end_of in Hjt. rewrite Es in Hjt. apply andb_false_iff in Hjt as [H|H];
      [apply negb_false_iff in H; bool_hyps; done|]. bool_hyps. lia. }
  apply wp_bind, reserve_journal_wp. kwp. wp_name w6.
  assert (H6 : reading d w w6) by (by destruct H5).
  assert (P6 : discard_pending (w_sbi w6) = Some 0) by (cbn; congruence). clearbody w6.
  eapply wp_mono; [by apply apply_options_spec|]. intros r7 w7 [H7 P7]. cbv beta.
  destruct (Z.eqb_spec r7 0) as [->|]; cbn [negb]; [|by apply Hfree].
  destruct (sb_of_image_u32 (block_image w 0)) as (U1 & U2 & U3).
  eapply wp_mono; [apply (mount_load_spec d w w7); [done|by split_and!|done..|congruence]|].
  intros r8 w8 H8. cbv beta in H8. destruct (r8 =? 0); [|done]. destruct H8 as (A & B & C & D).
  split_and!; [done|done|done| |done]. pose proof (geometry_inv _ _ C) as (G1 & G2 & G3 & G4 & G5 & G6 & G7).
  unfold journal_placed. by rewrite G1, G3, G4, G5, G6, G7.
Qed.

(** A mounted file system: its geometry fits, the superblock block agrees with
    it, the journal's blocks are not free, and the counters count the free bits. *)
Record sync_ready (w : world) : Prop := SyncReady {
  sr_layout : small_layout (w_sbi w);
  sr_words : Forall is_u32 (sb_words (w_sbi w));
  sr_blocks : nr_blocks (w_sbi w) <= nr_bfree_blocks (w_sbi w) * BITS_PER_BLOCK;
  sr_inodes : nr_inodes (w_sbi w) <= nr_ifree_blocks (w_sbi w) * BITS_PER_BLOCK;
  sr_sb : let d := sb_of_image (block_image w 0) in
    magic d = magic (w_sbi w) /\ s_journal_present d = s_journal_present (w_sbi w) /\
    s_journal_start d = s_journal_start (w_sbi w);
  sr_journal : forall k, journal_range (w_sbi w) k = true -> test_bit (bfree_bitmap (w_sbi w)) k = false;
  sr_counts : nr_free_inodes (w_sbi w) = bitmap_weight (ifree_bitmap (w_sbi w)) (nr_inodes (w_sbi w)) /\
    nr_free_blocks (w_sbi w) = bitmap_weight (bfree_bitmap (w_sbi w)) (nr_blocks (w_sbi w))
}.

(** What a remount restores. *)
Definition restored (s s' : sb_info) : Prop :=
  sb_geometry s' = sb_geometry s /\
  (forall k, 0 <= k < nr_inodes s -> test_bit (ifree_bitmap s') k = test_bit (ifree_bitmap s) k) /\
  (forall k, 0 <= k < nr_blocks s -> test_bit (bfree_bitmap s') k = test_bit (bfree_bitmap s) k) /\
  nr_free_inodes s' = nr_free_inodes s /\ nr_free_blocks s' = nr_free_blocks s.

Lemma sb_geometry_image img d : get_words img 4 7 = sb_words d ->
  magic (sb_of_image img) = magic d -> s_journal_present (sb_of_image img) = s_journal_present d ->
  s_journal_start (sb_of_image img) = s_journal_start d ->
  sb_geometry (sb_of_image img) = sb_geometry d.
Proof.
  intros H Em Ep Es. change (get_words img 4 7) with (map (get_u32 img) [4; 8; 12; 16; 20; 24; 28]) in H. injection H as E1 E2 E3 E4 E5 _ _.
  unfold sb_geometry. rewrite Em, Ep, Es. cbn -[get_u32]. by rewrite E1, E2, E3, E4, E5.
Qed.

(** A mount reads back what the device was told. *)
Lemma on_device_restored w w' : on_device w -> sync_ready w -> mounted w' ->
  sb_geometry (w_sbi w') = sb_geometry (w_sbi w) -> same_device w w' -> restored (w_sbi w) (w_sbi w').
Proof.
  intros (_ & Hi & Hb) [(L1 & L2 & L3 & L4) _ Hnb Hni _ Hj [Wi Wb]] ((Mi & Mb) & Cb & Ci & _) G [Hd _].
  pose proof (geometry_inv _ _ G) as (G1 & G2 & G3 & G4 & G5 & G6 & G7).
  assert (Hdev : forall first k, 0 <= first -> 0 <= k -> dev_bit w' first k = dev_bit w first k).
  { intros first k Hf Hk. unfold dev_bit. rewrite Hd; [done|].
    pose proof (Z.div_pos k BITS_PER_BLOCK Hk ltac:(done)). lia. }
  assert (Bi : forall k, 0 <= k < nr_inodes (w_sbi w) ->
    test_bit (ifree_bitmap (w_sbi w')) k = test_bit (ifree_bitmap (w_sbi w)) k).
  { intros k Hk. rewrite Mi, Hdev by lia. rewrite G3. apply (dev_bit_on_device _ _ (nr_ifree_blocks (w_sbi w))); try done; lia. }
  assert (Bb : forall k, 0 <= k < nr_blocks (w_sbi w) ->
    test_bit (bfree_bitmap (w_sbi w')) k = test_bit (bfree_bitmap (w_sbi w)) k).
  { intros k Hk. rewrite Mb, Hdev by lia. rewrite G3, G4.
    rewrite (dev_bit_on_device _ _ (nr_bfree_blocks (w_sbi w)) (bfree_bitmap (w_sbi w))) by (done || lia).
    assert (journal_range (w_sbi w') k = journal_range (w_sbi w) k) as ->.
    { unfold journal_range. by rewrite G1, G6, G7. }
    destruct (journal_range (w_sbi w) k) eqn:E; [|by rewrite andb_true_r]. by rewrite Hj. }
  split_and!; [done|done|done| |].
  - rewrite Ci, G2, Wi. unfold bitmap_weight. apply weight_from_ext. intros k Hk. apply Bi. lia.
  - rewrite Cb, G1, Wb. unfold bitmap_weight. apply weight_from_ext. intros k Hk. apply Bb. lia.
Qed.

End Mount.

(** ** The unmount and mount cycle *)

Section Cycle.
Context {K : Kernel}.

(** The in-core objects go away; the device stays. *)
Definition forget_memory : M unit :=
  modify (fun w => set_w_inodes ∅ (set_w_fs_info false w)).

Lemma sync_fs_on_device sync_inodes wait w :
  has_jbd2 (s_journal (w_sbi w)) = false -> w_rdonly w = false ->
  preserves sync_ready sync_inodes -> sync_ready w ->
  wp (simplefs_sync_fs sync_inodes wait) (fun r w' => r = 0 -> on_device w' /\ sync_ready w') w.
Proof.
  intros Hj Hro Hp Hr. unfold simplefs_sync_fs, simplefs_is_shutdown. kwp. wp_if; [by kwp|]. kwp. rewrite Hro. kwp.
  rewrite Hj. kwp. apply (wp_mono _ (fun _ => sync_ready)).
  { destruct wait; [by apply wp_pres|by apply wp_ret]. }
  intros u w1 H1. kwp. wp_name w2.
  assert (H2 : sync_ready w2) by (destruct H1; by split). clearbody w2. clear H1.
  eapply wp_mono; [apply sync_snapshot_spec; apply H2|]. intros r w3 [Ha Hd]. cbv beta. kwp.
  destruct (Z.eqb_spec r 0) as [->|]; cbn [negb]; [|by kwp]. destruct (Hd eq_refl) as [Hd0 Hsl].
  match goal with |- wp _ _ ?w0 => assert (H4 : on_device w0 /\ sync_ready w0) end.
  { split; [exact Hd0|]. apply astate_inv in Ha as (E1 & E2 & E3 & _).
    destruct H2 as [A1 A2 A3 A4 (A5 & A6 & A7) A8 A9]. split; cbn [w_sbi set_w_sbi sbi_disk set_bitmap_lock bfree_bitmap ifree_bitmap];
      rewrite ?E1, ?E2, ?E3; try done.
    rewrite <- A5, <- A6, <- A7. unfold sb_of_image, block_image in *. cbn -[slice] in *. unfold get_u32.
    split_and!; apply Hsl; lia. }
  match goal with |- wp _ _ ?w0 => set (w4 := w0) in * end. clearbody w4.
  destruct wait; [|by kwp]. kwp. wp_if; [kwp; intros ->; done|]. kwp. intros _. destruct H4 as [? []]. by split; [|split].
Qed.

(** C22: a synchronised file system survives a remount: without a journal, when
    [simplefs_sync_fs] succeeds and the device is mounted again, the geometry, every
    bit of both bitmaps and both free counters are those the first mount had when
    the call returned, whatever inode writeback ran inside it; the first mount's
    counters are those of its bitmaps before the call, and inode write-back keeps that. *)
Theorem sync_mount_roundtrip sync_inodes wait memory ctx w :
  has_jbd2 (s_journal (w_sbi w)) = false -> w_rdonly w = false ->
  preserves sync_ready sync_inodes -> sync_ready w -> nothing_to_replay ->
  wp (let! r := simplefs_sync_fs sync_inodes wait in
      let! s := get_sbi in
      run! forget_memory in
      let! r2 := simplefs_fill_super memory ctx in
      ret (r, s, r2))
     (fun '(r, s, r2) w' => r = 0 -> r2 = 0 -> restored s (w_sbi w')) w.
Proof.
  intros Hj Hro Hp Hr Hn. apply wp_bind. eapply wp_mono; [by apply sync_fs_on_device|].
  intros r w1 H1. cbv beta in H1. unfold forget_memory. kwp.
  destruct (Z.eq_dec r 0) as [->|Hne]; [|apply (wp_mono _ (fun _ _ => True)); [done|]; intros; by apply wp_ret].
  destruct (H1 eq_refl) as [Hd Hr1]. wp_name w2.
  assert (G : sb_geometry (sb_of_image (block_image w2 0)) = sb_geometry (w_sbi w1)).
  { destruct Hd as [Hw _], Hr1 as [_ _ _ _ (A5 & A6 & A7) _ _]. by apply sb_geometry_image. }
  pose proof (geometry_inv _ _ G) as (G1 & G2 & G3 & G4 & G5 & G6 & G7).
  eapply wp_mono; [apply mount_sound; [|done]|].
  { unfold small_layout. rewrite G3, G4, G5. apply Hr1. }
  intros r2 w3 H3. apply wp_ret. intros _ ->. destruct H3 as (A & B & C & D & E).
  apply (on_device_restored w1); [done|done|done|congruence|]. by apply E.
Qed.

End Cycle.

(** ** Eviction *)

Section Evict.
Context {K : Kernel}.

Section Preserve.
Context (I : world -> Prop).

Lemma evict_tree_pres `{!FStable I} ino : preserves I (evict_tree ino).
Proof. unfold evict_tree. pres. Qed.
Local Hint Resolve evict_tree_pres : pres.
Lemma evict_retire_pres `{!FStable I} ino : preserves I (evict_retire ino).
Proof. unfold evict_retire. pres. Qed.
Local Hint Resolve evict_retire_pres : pres.
Lemma evict_inode_pres `{!FStable I} ino : preserves I (simplefs_evict_inode ino).
Proof. unfold simplefs_evict_inode. pres. Qed.
Lemma nfs_get_inode_pres `{!FStable I, !DStable I} ino g : preserves I (simplefs_nfs_get_inode ino g).
Proof. unfold simplefs_nfs_get_inode, lock_bitmap, unlock_bitmap. pres. Qed.
Lemma get_parent_pres `{!FStable I} dir : preserves I (simplefs_get_parent dir).
Proof. unfold simplefs_get_parent. pres. Qed.
End Preserve.

(** evicting an inode is safe: whatever fails on the way, the allocator
    invariant holds afterwards (no block or inode number is freed twice, the counters
    match); and evicting an inode that still has links, as an unmount does, frees
    and writes nothing, it only drops the directory cache. *)
Theorem evict_inode_safe inode :
  preserves (fun w => alloc_inv (w_sbi w)) (simplefs_evict_inode inode) /\
  forall w, i_nlink (inode_of w inode) <> 0 ->
    wp (simplefs_evict_inode inode) (fun _ w' => w_bdev w' = w_bdev w /\ w_sbi w' = w_sbi w /\
      w_inodes w' = <[inode := set_i_dir_index None (inode_of w inode)]> (w_inodes w)) w.
Proof.
  split; [apply evict_inode_pres, _|]. intros w Hn. unfold simplefs_evict_inode, simplefs_dir_destroy. kwp.
  unfold inode_of at 1. cbn. rewrite lookup_insert_eq. cbn.
  rewrite (proj2 (Z.eqb_neq _ _) Hn). cbn [negb]. kwp. done.
Qed.

(** An environment in which allocations and new handles succeed. *)
Definition grants : Prop :=
  (forall k, fst (kstep k Kmalloc) = 0) /\ (forall k n, 0 <= fst (kstep k (Jbd2Start n))) /\
  (forall k ino, fst (kstep k (IsBadInode ino)) = 0) /\ (forall k, fst (kstep k JournalCurrentHandle) = 0).

Lemma start_internal_opens n w : grants -> w_current w <> 0 -> journal_in w Idle ->
  s_shutdown (w_sbi w) = false ->
  wp (simplefs_journal_start_internal n) (fun hd w' => still w w' /\ w_inodes w' = w_inodes w /\
    exists h, hd = HOpen h /\ journal_in w' (Held (w_current w) h)) w.
Proof.
  intros (G1 & G2 & _) Hc (j & Hj & Hl & Hs) Hd.
  apply hstate_idle in Hs as (Hm & Ho & Ha). destruct j as [jl jm jo ja]; cbn in Hl, Hm, Ho, Ha; subst.
  unfold simplefs_journal_start_internal, simplefs_is_shutdown. kwp. rewrite Hd. kwp.
  rewrite Hj. cbn [negb j_jbd2]. kwp. cbn [j_handle_owner]. rewrite (proj2 (Z.eqb_neq 0 (w_current w))) by done.
  unfold upd_journal. kwp. cbn. rewrite Hj, Hd; cbn. kwp.
  match goal with H : kstep ?kk Kmalloc = (?r, _) |- _ =>
    assert (r = 0) as -> by (pose proof (G1 kk) as X; rewrite H in X; exact X) end.
  cbn [Z.eqb negb]. kwp.
  match goal with H : kstep ?kk (Jbd2Start ?m) = (?r, _) |- _ =>
    assert (IS_ERR r = false) as -> by (apply Z.ltb_ge; pose proof (G2 kk m) as X; rewrite H in X; exact X) end.
  kwp. split_and!; [done|done|]. eexists. split; [done|]. eexists. split_and!; [done|done|].
  unfold hstate_of; cbn. by rewrite (proj2 (Z.eqb_neq _ _) Hc).
Qed.

Lemma start_sb_opens n w : grants -> w_current w <> 0 -> journal_in w Idle ->
  s_shutdown (w_sbi w) = false ->
  wp (simplefs_journal_start_sb n) (fun hd w' => still w w' /\ w_inodes w' = w_inodes w /\
    exists h, hd = HOpen h /\ journal_in w' (Held (w_current w) h)) w.
Proof.
  intros G Hc Hin Hd. pose proof G as (_ & _ & _ & G4). pose proof Hin as (j & Hj & Hl & Hs).
  apply hstate_idle in Hs as (Hm & Ho & Ha).
  unfold simplefs_journal_start_sb, simplefs_is_shutdown, simplefs_current_jbd2_handle. kwp. rewrite Hd. kwp.
  rewrite Hj. cbn [has_jbd2]. rewrite Hl. cbn [negb]. kwp. rewrite Hj, Hl. cbn [negb]. kwp.
  assert (r = 0) as -> by (rewrite <- (G4 (w_kernel w)); by rewrite Hk). cbn [Z.eqb negb]. kwp.
  rewrite Ho. cbn [w_current set_w_trace set_w_kernel].
  rewrite (proj2 (Z.eqb_neq 0 (w_current w))) by done. cbn [negb Z.eqb]. kwp. cbn [Z.eqb negb].
  by match goal with |- wp _ _ ?w1 => exact (start_internal_opens n w1 G Hc Hin Hd) end.
Qed.

(** An unreadable root is an error, found before anything changes. *)
Lemma load_bad_root root w : eh_magic (block_image w root) <> SIMPLEFS_EXTENT_ROOT_MAGIC ->
  wp (simplefs_file_load_extents root) (fun rb w' => fst rb <> 0 /\ w_sbi w' = w_sbi w) w.
Proof.
  intros Hm. unfold simplefs_file_load_extents, simplefs_read_metadata. kwp.
  destruct (IS_ERR r) eqn:E; [rewrite E; kwp; split; [apply Z.ltb_lt in E; cbn; lia|done]|].
  cbn [IS_ERR Z.ltb Z.compare]. kwp.
  match goal with |- context [negb (eh_magic ?i =? _)] => replace (eh_magic i) with (eh_magic (block_image w root)) by done end.
  rewrite (proj2 (Z.eqb_neq _ _) Hm). cbn [negb]. kwp. split; [|done]. by repeat case_match.
Qed.

Lemma evict_tree_bad inode st w : journal_in w st ->
  eh_magic (block_image w (ei_block (inode_of w inode))) <> SIMPLEFS_EXTENT_ROOT_MAGIC ->
  wp (evict_tree inode) (fun r w' => r <> 0 /\ journal_in w' st /\ s_shutdown (w_sbi w') = true) w.
Proof.
  intros (j & Hj & Hl & Hs) Hm. unfold evict_tree. kwp. eapply wp_mono; [by apply load_bad_root|].
  intros [r buf] w1 [Hr E]. cbv beta iota. cbn [fst] in Hr. rewrite (proj2 (Z.eqb_neq _ _) Hr). cbn [negb].
  unfold simplefs_journal_fail. kwp.
  cbn [w_sbi set_w_trace set_w_kernel set_w_sbi s_journal set_s_shutdown]. rewrite E, Hj. cbn [has_jbd2]. rewrite Hl.
  kwp. split_and!; [done| |done]. by exists j.
Qed.

(** the journal handle leaks from a failed eviction: when the extent root of
    an unlinked file is unreadable, [simplefs_evict_inode] leaves through
    [out_clear] without [simplefs_journal_stop], so the handle mutex stays held by
    the task and the file system is shut down. *)
Theorem evict_leaks_handle inode w :
  grants -> w_current w <> 0 -> journal_in w Idle -> s_shutdown (w_sbi w) = false ->
  let i := inode_of w inode in
  i_nlink i = 0 -> S_ISREG (i_mode i) = true -> ei_block i <> 0 ->
  eh_magic (block_image w (ei_block i)) <> SIMPLEFS_EXTENT_ROOT_MAGIC ->
  wp (simplefs_evict_inode inode) (fun _ w' =>
    (exists h, journal_in w' (Held (w_current w) h)) /\ s_shutdown (w_sbi w') = true) w.
Proof.
  intros G Hc Hin Hd i Hn Hreg Hb Hm. pose proof G as (_ & _ & G3 & _).
  unfold simplefs_evict_inode, simplefs_dir_destroy, simplefs_is_shutdown. kwp.
  unfold inode_of at 1. cbn [w_inodes set_w_trace set_w_kernel set_w_inodes]. rewrite lookup_insert_eq.
  change (i_nlink _) with (i_nlink i). rewrite Hn. cbn [negb Z.eqb]. kwp.
  match goal with H : kstep ?kk (IsBadInode ?m) = (?r, _) |- _ =>
    assert (r = 0) as -> by (pose proof (G3 kk m) as X; rewrite H in X; exact X) end.
  cbn [negb Z.eqb]. kwp. cbn [w_sbi set_w_trace set_w_kernel set_w_inodes]. rewrite Hd. cbn [negb]. kwp.
  unfold evict_retire. kwp.
  wp_name w1. eapply wp_mono; [apply (start_sb_opens 64 w1 G Hc Hin Hd)|].
  intros hd w2 ((Eb & _) & Ei & h & -> & Hj). cbn [HANDLE_IS_ERR]. kwp.
  assert (inode_of w2 inode = set_i_dir_index None i) as ->.
  { unfold inode_of. rewrite Ei. by cbn; rewrite lookup_insert_eq. }
  cbn [i_mode ei_block set_i_dir_index]. rewrite Hreg, (proj2 (Z.eqb_neq _ _) Hb). cbn [orb andb negb].
  eapply wp_mono; [apply (evict_tree_bad _ _ _ Hj)|].
  { unfold inode_of, block_image. rewrite Ei, Eb. cbn. by rewrite lookup_insert_eq. }
  intros r1 w3 (Hr & Hj3 & Hs). rewrite (proj2 (Z.eqb_neq _ _) Hr). cbn [negb]. kwp. by split; [exists h|].
Qed.

End Evict.

#[export] Hint Resolve evict_inode_pres get_parent_pres : pres.

(** ** Unmounting *)

Section Unmount.
Context {K : Kernel}.

(** In the trace (newest first) the marker is written after a successful
    writeback of the whole device, later than [old]; and a journal the unmount then
    destroys was flushed in between. *)
Definition clean_order (old t : list (kcall * Z)) : Prop :=
  exists late r mid early,
    t = late ++ (SyncDirtyBuffer SIMPLEFS_SB_BLOCK_NR, r) :: mid ++ (FilemapWriteAndWaitAll, 0) :: early /\
    (length old <= length early)%nat /\
    (forall r', In (Jbd2Destroy, r') late -> In (Jbd2Flush, 0) mid).

(** The marker has the value [v] and the trace is at least [n] long. *)
Definition marked_at (v : Z) (n : nat) (w : world) : Prop :=
  s_needs_recovery (w_sbi w) = v /\ (n <= length (w_trace w))%nat.

#[export] Instance marked_jstable v n : JStable (marked_at v n).
Proof.
  split; [split|]; [| |(intros; intros w Hw; exact Hw)..].
  - intros c _ w [H1 H2]. unfold kdo. destruct (kstep _ c). split; cbn; [done|lia].
  - intros h b w _ [H1 H2]. unfold kdo. destruct (kstep _ _). split; cbn; [done|lia].
Qed.
#[export] Instance marked_dstable v n : DStable (marked_at v n).
Proof. split; intros; intros w Hw; exact Hw. Qed.

Lemma sync_fs_pres (I : world -> Prop) `{!JStable I, !DStable I} sync_inodes wait :
  preserves I sync_inodes -> preserves I (simplefs_sync_fs sync_inodes wait).
Proof.
  intros H. unfold simplefs_sync_fs, sync_snapshot, sync_bitmap_block, lock_bitmap, unlock_bitmap. pres; exact H.
Qed.

(** Before the journal is destroyed: the same, with the journal still there. *)
Definition clean_pending (old : list (kcall * Z)) (w : world) : Prop :=
  s_needs_recovery (w_sbi w) = 0 /\
  exists late r mid early,
    w_trace w = late ++ (SyncDirtyBuffer SIMPLEFS_SB_BLOCK_NR, r) :: mid ++ (FilemapWriteAndWaitAll, 0) :: early /\
    (length old <= length early)%nat /\
    (forall r', ~ In (Jbd2Destroy, r') late) /\
    (has_jbd2 (s_journal (w_sbi w)) = true -> In (Jbd2Flush, 0) mid).

(** Clearing the marker, from a state whose trace says what was written back. *)
Lemma clear_marker w v old mid early :
  s_needs_recovery (w_sbi w) = v -> w_trace w = mid ++ (FilemapWriteAndWaitAll, 0) :: early ->
  (length old <= length early)%nat ->
  (has_jbd2 (s_journal (w_sbi w)) = true -> In (Jbd2Flush, 0) mid) ->
  wp (simplefs_journal_set_needs_recovery false)
     (fun _ w' => s_needs_recovery (w_sbi w') = v \/ clean_pending old w') w.
Proof.
  intros Hv Ht Hl Hj. unfold simplefs_journal_set_needs_recovery. kwpc; try (by left).
  right. split; [done|]. cbn. rewrite Ht. eexists [_; _], _, (_ :: _ :: mid), early.
  split_and!; [reflexivity|done|intros r'; cbn; intuition congruence|].
  intros E. do 2 right. by apply Hj.
Qed.

(** unmounting marks the file system clean last: [simplefs_put_super] changes
    the recovery marker only on a writable mount that was not shut down, and only
    to clean; the marker is written after the whole device was written back, and
    after JBD2 flushed the journal that is then destroyed.  In every other case,
    and after every failure on the way, the marker stays. *)
Theorem unmount_clean_order sync_inodes w :
  preserves (marked_at (s_needs_recovery (w_sbi w)) (length (w_trace w))) sync_inodes ->
  wp (simplefs_put_super sync_inodes) (fun _ w' =>
    s_needs_recovery (w_sbi w') <> s_needs_recovery (w_sbi w) ->
    w_rdonly w = false /\ s_shutdown (w_sbi w) = false /\ s_journal_mode (w_sbi w) <> 2 /\
    s_needs_recovery (w_sbi w') = 0 /\ clean_order (w_trace w) (w_trace w')) w.
Proof.
  intros Hp. unfold simplefs_put_super. kwp.
  apply (wp_mono _ (fun _ w1 => s_needs_recovery (w_sbi w1) = s_needs_recovery (w_sbi w) \/
    (w_rdonly w = false /\ s_shutdown (w_sbi w) = false /\ s_journal_mode (w_sbi w) <> 2) /\
    clean_pending (w_trace w) w1)).
  - destruct (w_rdonly w), (s_shutdown (w_sbi w)), (Z.eqb_spec (s_journal_mode (w_sbi w)) 2); cbn [negb andb];
      kwp; try (by left).
    eapply wp_mono;
      [apply (wp_pres (marked_at (s_needs_recovery (w_sbi w)) (length (w_trace w)))); [apply sync_fs_pres; [apply _..|exact Hp]|done]|].
    intros r w1 [E1 Hl].
    destruct (Z.eqb_spec r 0) as [->|]; [|kwp; wp_if; [bool_hyps; congruence|]; kwp;
      wp_if; [bool_hyps; congruence|]; kwp; by left].
    kwp. destruct (Z.eqb_spec r 0) as [->|]; [|kwp; wp_if; [bool_hyps; congruence|]; kwp; by left].
    unfold simplefs_journal_checkpoint, upd_journal. kwp.
    destruct (has_jbd2 (s_journal _)) eqn:Ej; cbn [negb]; kwp.
    + wp_if; [|kwp; by left]. bool_hyps; subst.
      eapply wp_mono; [eapply (clear_marker _ _ (w_trace w) [_] (w_trace w1)); [exact E1|reflexivity|done|by left]|].
      intros u w2 H. kwp. destruct H; [by left|by right].
    + eapply wp_mono; [eapply (clear_marker _ _ (w_trace w) [] (w_trace w1)); [exact E1|reflexivity|done|]|].
      { intros E. exfalso. clear -E Ej. cbn in *. congruence. }
      intros u w2 H. kwp. destruct H; [by left|by right].
  - intros [] w1 H1. unfold simplefs_journal_destroy, simplefs_journal_free. kwp.
    destruct H1 as [E|((A & B & C) & E & late & r & mid & early & Ht & Hl & Hd & Hf)].
    { kwpc; intros X; exfalso; by apply X. }
    rewrite B. destruct (has_jbd2 _) eqn:Ej; kwp; intros _; (split_and!; [done..|]).
    + eexists (_ :: late), r, mid, early. cbn. rewrite Ht. split_and!; [reflexivity|done|]. intros r' _. by apply Hf.
    + exists late, r, mid, early. split_and!; [exact Ht|done|]. intros r' Hin. by destruct (Hd r').
Qed.

End Unmount.
