(* ===== verification/FileOps.v ===== *)
(** * FileOps: the operations on open files (simplefs_file.c, simplefs_inode.c)

    Truncation, the modes of fallocate, the release of speculative preallocation,
    the ends of writes and of write-back, fsync, FIEMAP, FITRIM, the shutdown and
    label ioctls, and attribute changes: the guards and error paths of every handler
    around the sections modelled in FileRange, FileMap, FileWrite and FileZero.

    The page cache is not part of the program.  Its calls that write or zero data are
    parameters, the class [PageCache]; what is assumed of them is that they touch
    the file system only through its callbacks ([ThroughCallbacks]). *)

From stdpp Require Import base list numbers gmap.
From S2P Require Import Prelude Image Layout Kernel DiskFormat Discard Journal MetaBuf.
From S2P Require Import Alloc Retire ExtentBuf ExtentTree Owned Errno InodeTable.
From S2P Require Import FileRange FileMap FileWrite FileZero Super.

Local Open Scope Z_scope.
Local Open Scope fs_scope.

(** The page cache and the inode write-back of the kernel. *)
Class PageCache {K : Kernel} := {
  filemap_write_and_wait : Z -> M Z;                  (* inode *)
  filemap_write_and_wait_range : Z -> Z -> Z -> M Z;  (* inode, first byte, last byte *)
  iomap_zero_range : Z -> Z -> Z -> M Z;              (* inode, position, length *)
  iomap_truncate_page : Z -> Z -> M Z;                (* inode, position *)
  write_inode_now : Z -> M Z;
  sync_inode_metadata : Z -> M Z
}.

Definition EFAULT : Z := 14.

Definition FALLOC_FL_KEEP_SIZE : Z := 1.
Definition FALLOC_FL_PUNCH_HOLE : Z := 2.
Definition FALLOC_FL_COLLAPSE_RANGE : Z := 8.
Definition FALLOC_FL_ZERO_RANGE : Z := 16.
Definition FALLOC_FL_INSERT_RANGE : Z := 32.
Definition FALLOC_SUPPORTED : Z := 59.

Definition IS_ALIGNED (x a : Z) : bool := x mod a =? 0.
(** [ALIGN(offset, block_size)] *)
Definition align_up (offset : Z) : Z := Z.ldiff (offset + (SIMPLEFS_BLOCK_SIZE - 1)) (SIMPLEFS_BLOCK_SIZE - 1).

(** What a size change leaves of the tracked preallocation. *)
Definition truncate_prealloc (new_end : Z) (ci : inode) : inode :=
  if prealloc_len ci =? 0 then ci else
  let pre_end := u32 (prealloc_block ci + prealloc_len ci) in
  if new_end <=? prealloc_block ci then set_prealloc_len 0 (set_prealloc_block 0 ci)
  else if new_end <? pre_end then set_prealloc_len (u32 (new_end - prealloc_block ci)) ci
  else ci.
Definition trims_prealloc (new_end : Z) (ci : inode) : bool :=
  negb (prealloc_len ci =? 0) && (new_end <? u32 (prealloc_block ci + prealloc_len ci)).

Section Ops.
Context {K : Kernel} {PC : PageCache}.

(** A call without a result: taking and releasing locks and pages. *)
Definition call_ (c : kcall) : M unit := run! kdo c in ret tt.

(** [i_size_write] and the drop of the pages behind it. *)
Definition truncate_setsize (ino size : Z) : M unit :=
  run! upd_inode ino (set_i_size size) in
  run! kdo (TruncateSetsize ino size) in ret tt.

Definition simplefs_touch_mctime (ino : Z) : M unit :=
  let! sec := kdo CurrentTimeSec in
  let! nsec := kdo CurrentTimeNsec in
  upd_inode ino (fun i =>
    let floor := Z.max (i_mtime i) (i_ctime i) in
    let '(sec, nsec) := if sec <=? floor then (floor + 1, 0) else (sec, nsec) in
    set_i_mtime_nsec nsec (set_i_mtime sec (set_i_ctime_nsec nsec (set_i_ctime sec i)))).

Definition simplefs_zero_partial_gap (ino start len : Z) : M Z :=
  if len <=? 0 then ret 0 else
  let end_ := start + len - 1 in
  let start_off := start mod SIMPLEFS_BLOCK_SIZE in
  let end_off := end_ mod SIMPLEFS_BLOCK_SIZE in
  if block_of start =? block_of end_ then
    if (start_off =? 0) && (end_off =? SIMPLEFS_BLOCK_SIZE - 1) then ret 0
    else iomap_zero_range ino start len
  else
  let! r := (if negb (start_off =? 0) then iomap_zero_range ino start (SIMPLEFS_BLOCK_SIZE - start_off)
             else ret 0) in
  if negb (r =? 0) then ret r else
  if negb (end_off =? SIMPLEFS_BLOCK_SIZE - 1) then iomap_zero_range ino (end_ - end_off) (end_off + 1)
  else ret 0.

(** ** The end of writes and of write-back *)

(** [im_private] is 0 or the old size plus one. *)
Definition simplefs_write_iomap_end (ino offset written : Z) (im : iomap) : M Z :=
  let! size_changed :=
    (if (0 <? written) && negb (im_private im =? 0) then
       let old_size := im_private im - 1 in
       let end_pos := offset + written in
       let! i := get_inode ino in
       let grows := i_size i <? end_pos in
       run! when grows (upd_inode ino (set_i_size end_pos)) in
       run! kdo (PagecacheIsizeExtended ino old_size end_pos) in
       run! simplefs_zero_partial_gap ino old_size (offset - old_size) in
       ret grows
     else ret false) in
  run! when (0 <? written) (upd_inode ino (simplefs_prealloc_written offset written)) in
  run! when size_changed (run! kdo (MarkInodeDirty ino) in ret tt) in
  ret 0.

(** [unwritten]: the I/O went to unwritten blocks. *)
Definition simplefs_file_dio_write_end_io (ino pos size error : Z) (unwritten : bool) : M Z :=
  if negb (error =? 0) then ret error else
  let! error := (if unwritten then simplefs_convert_unwritten_range ino pos size else ret 0) in
  if negb (error =? 0) then ret error else
  let! i := get_inode ino in
  run! when (i_size i <? pos + size)
    (run! upd_inode ino (set_i_size (pos + size)) in run! kdo (MarkInodeDirty ino) in ret tt) in
  ret 0.

(** The work item that ends a write-back: [status] is the device's answer, the result
    what [iomap_finish_ioends] is given. *)
Definition simplefs_finish_ioend_work (ino io_offset io_size status : Z) (unwritten : bool) : M Z :=
  let! error := (if (status =? 0) && unwritten then simplefs_convert_unwritten_range ino io_offset io_size
                 else ret status) in
  run! when (negb (error =? 0) && negb (error =? - ENOSPC)) (upd_sbi (set_s_shutdown true)) in
  run! kdo (FinishIoends ino error) in ret error.

(** Up to the hand-over of the mapped range to the block layer. *)
Definition simplefs_writeback_range (ino offset len : Z) : M (Z * iomap) :=
  let! (r, im) := simplefs_write_iomap_begin ino offset len true false in
  if r <? 0 then ret (r, im) else
  if (offset <? im_offset im) || (im_offset im + im_length im <=? offset) then ret (- EIO, im)
  else ret (0, im).

(** ** Truncation *)

Definition simplefs_truncate (ino size : Z) : M Z :=
  let! i := get_inode ino in
  let old_size := i_size i in
  let old_blocks := u32 (block_up old_size) in
  let new_blocks := u32 (block_up size) in
  run! kdo (InodeDioWait ino) in
  if old_size <? size then
    run! truncate_setsize ino size in
    let! r := simplefs_zero_partial_gap ino old_size (size - old_size) in
    if negb (r =? 0) then run! truncate_setsize ino old_size in ret r else
    run! kdo (MarkInodeDirty ino) in ret 0
  else
  let! ci := get_inode ino in
  let trim_prealloc_tail := trims_prealloc new_blocks ci in
  run! upd_inode ino (truncate_prealloc new_blocks) in
  let out_unlock r := run! call_ (InvalidateUnlock ino) in ret r in
  let! r := filemap_write_and_wait ino in
  run! kdo (WaitIoendConversions ino) in
  if negb (r =? 0) then ret r else
  run! call_ (InvalidateLock ino) in
  let! r := iomap_truncate_page ino size in
  if negb (r =? 0) then out_unlock r else
  run! truncate_setsize ino size in
  if negb (size =? old_size) && (new_blocks =? old_blocks) && negb trim_prealloc_tail then
    run! kdo (MarkInodeDirty ino) in out_unlock 0
  else
  let! r := truncate_extents ino new_blocks in
  if negb (r =? 0) then out_unlock r else
  run! kdo (MarkInodeDirty ino) in out_unlock 0.

(** ** fallocate *)

Definition simplefs_fallocate_punch_hole (ino offset len : Z) (user_visible : bool) : M Z :=
  let! i := get_inode ino in
  if i_size i <=? offset then ret 0 else
  let end_ := Z.min (offset + len) (i_size i) in
  let! r := (if user_visible then kdo (FileModified ino) else ret 0) in
  if negb (r =? 0) then ret r else
  let! r := filemap_write_and_wait_range ino offset (end_ - 1) in
  run! kdo (WaitIoendConversions ino) in
  if negb (r =? 0) then ret r else
  let out_unlock r := run! call_ (InvalidateUnlock ino) in ret r in
  run! call_ (InvalidateLock ino) in
  let! r := iomap_zero_range ino offset (end_ - offset) in
  if negb (r =? 0) then out_unlock r else
  let first_full := u32 (block_of (align_up offset)) in
  let last_excl := u32 (block_of end_) in
  let! r :=
    (if first_full <? last_excl then
       let! (r, freed) := punch_extents ino first_full last_excl in
       if negb (r =? 0) then ret r else
       run! when freed (run! kdo (TruncatePagecache ino (block_start first_full)
                                    (block_start last_excl - block_start first_full)) in ret tt) in
       ret 0
     else ret 0) in
  if negb (r =? 0) then out_unlock r else
  run! when user_visible (simplefs_touch_mctime ino) in
  run! kdo (MarkInodeDirty ino) in
  run! write_inode_now ino in
  out_unlock 0.

(** The reservation behind the last written block goes back to the allocator. *)
Definition simplefs_discard_prealloc (ino : Z) : M Z :=
  let! ci := get_inode ino in
  let size := i_size ci in
  if prealloc_len ci =? 0 then ret 0 else
  run! upd_inode ino (fun i => set_prealloc_len 0 (set_prealloc_block 0 i)) in
  let start := block_start (prealloc_block ci) in
  let end_ := block_start (u32 (prealloc_block ci + prealloc_len ci)) in
  let! r := (if start <? size then simplefs_fallocate_punch_hole ino start (Z.min end_ size - start) false
             else ret 0) in
  if negb (r =? 0) then ret r else
  simplefs_truncate ino size.

(** [for (block = first_block; block < end_block;)]: every round advances. *)
Fixpoint prealloc_loop (fuel : nat) (ino block end_block : Z) : M Z :=
  match fuel with
  | O => ret 0
  | S fuel' =>
      if end_block <=? block then ret 0 else
      let! (r, _) := simplefs_get_block ino block (end_block - block) true true true false in
      if r <? 0 then ret r else
      prealloc_loop fuel' ino (block + (if 0 <? r then r else 1)) end_block
  end.

Definition simplefs_fallocate_prealloc (ino mode offset len : Z) : M Z :=
  let first_block := block_of offset in
  let end_block := block_up (offset + len) in
  let! i := get_inode ino in
  let old_size := i_size i in
  let new_size := offset + len in
  let grows := (mode =? 0) && (old_size <? new_size) in
  let! r := kdo (FileModified ino) in
  if negb (r =? 0) then ret r else
  run! upd_inode ino (fun i => set_prealloc_len 0 (set_prealloc_block 0 i)) in
  run! when grows (truncate_setsize ino new_size) in
  let tail_end := Z.min new_size (align_up old_size) in
  let! r := (if grows && negb (IS_ALIGNED old_size SIMPLEFS_BLOCK_SIZE) && (0 <? tail_end - old_size)
             then iomap_zero_range ino old_size (tail_end - old_size) else ret 0) in
  let! r := (if negb (r =? 0) then ret r else
             prealloc_loop (Z.to_nat (end_block - first_block)) ino first_block end_block) in
  let! r := (if negb (r =? 0) then ret r else
             run! when (Z.land mode FALLOC_FL_KEEP_SIZE =? 0)
               (upd_inode ino (fun i => set_prealloc_len 0 (set_prealloc_block 0 i))) in
             if grows then iomap_truncate_page ino new_size else ret 0) in
  if negb (r =? 0) then run! when grows (truncate_setsize ino old_size) in ret r else
  run! kdo (MarkInodeDirty ino) in
  ret 0.

(** Take the invalidate lock, write everything out and drop the pages that will move;
    the lock is kept unless this fails. *)
Definition flush_and_drop (ino offset : Z) : M Z :=
  run! call_ (InvalidateLock ino) in
  let! r := filemap_write_and_wait ino in
  run! kdo (WaitIoendConversions ino) in
  if negb (r =? 0) then run! call_ (InvalidateUnlock ino) in ret r else
  run! kdo (TruncatePagecache ino (align_down offset) 0) in
  ret 0.

Definition simplefs_fallocate_collapse (ino offset len : Z) : M Z :=
  if negb (IS_ALIGNED offset SIMPLEFS_BLOCK_SIZE) || negb (IS_ALIGNED len SIMPLEFS_BLOCK_SIZE)
  then ret (- EINVAL) else
  let! i := get_inode ino in
  if i_size i <? offset + len then ret (- EINVAL) else
  let! r := flush_and_drop ino offset in
  if negb (r =? 0) then ret r else
  let! r := collapse_extents ino (u32 (block_of offset)) (u32 (block_of (offset + len))) len in
  if negb (r =? 0) then run! call_ (InvalidateUnlock ino) in ret r else
  run! kdo (MarkInodeDirty ino) in
  run! call_ (InvalidateUnlock ino) in
  ret 0.

Definition simplefs_fallocate_insert (ino offset len : Z) : M Z :=
  if negb (IS_ALIGNED offset SIMPLEFS_BLOCK_SIZE) || negb (IS_ALIGNED len SIMPLEFS_BLOCK_SIZE)
  then ret (- EINVAL) else
  let! i := get_inode ino in
  if i_size i <? offset then ret (- EINVAL) else
  let! r := kdo (InodeNewsizeOk ino (i_size i + len)) in
  if negb (r =? 0) then ret r else
  let! r := flush_and_drop ino offset in
  if negb (r =? 0) then ret r else
  let! r := insert_extents ino (u32 (block_of offset)) (u32 (block_of len)) len in
  if negb (r =? 0) then run! call_ (InvalidateUnlock ino) in ret r else
  run! kdo (MarkInodeDirty ino) in
  run! call_ (InvalidateUnlock ino) in
  ret 0.

(** The part under the invalidate lock. *)
Definition zero_blocks (ino offset len : Z) : M Z :=
  let unlock r := run! call_ (InvalidateUnlock ino) in ret r in
  let end_ := offset + len in
  let align_start := align_up offset in
  let align_end := align_down end_ in
  run! call_ (InvalidateLock ino) in
  if align_start <? align_end then
    let! r := simplefs_zero_range_full_blocks ino (u32 (block_of align_start)) (u32 (block_of align_end)) in
    if negb (r =? 0) then unlock r else
    let! r := (if offset <? align_start then iomap_zero_range ino offset (align_start - offset) else ret 0) in
    if negb (r =? 0) then unlock r else
    let! r := (if align_end <? end_ then iomap_zero_range ino align_end (end_ - align_end) else ret 0) in
    if negb (r =? 0) then unlock r else
    run! kdo (TruncatePagecache ino align_start (align_end - align_start)) in
    unlock 0
  else
    let! r := iomap_zero_range ino offset len in unlock r.

Definition simplefs_fallocate_zero_range (ino mode offset len : Z) : M Z :=
  let end_ := offset + len in
  let! i := get_inode ino in
  let old_size := i_size i in
  let grows := (Z.land mode FALLOC_FL_KEEP_SIZE =? 0) && (old_size <? end_) in
  let! r := (if grows then kdo (InodeNewsizeOk ino end_) else ret 0) in
  if negb (r =? 0) then ret r else
  let! r := filemap_write_and_wait_range ino offset (end_ - 1) in
  run! kdo (WaitIoendConversions ino) in
  if negb (r =? 0) then ret r else
  run! when grows (truncate_setsize ino end_) in
  let! r := (if grows && negb (IS_ALIGNED old_size SIMPLEFS_BLOCK_SIZE)
             then iomap_zero_range ino old_size (Z.min end_ (align_up old_size) - old_size) else ret 0) in
  let! r := (if negb (r =? 0) then ret r else zero_blocks ino offset len) in
  let! r := (if negb (r =? 0) then ret r else
             if grows then iomap_truncate_page ino end_ else ret 0) in
  if negb (r =? 0) then run! when grows (truncate_setsize ino old_size) in ret r else
  run! kdo (MarkInodeDirty ino) in
  ret 0.

Definition simplefs_fallocate (ino mode offset len : Z) : M Z :=
  if negb (Z.ldiff mode FALLOC_SUPPORTED =? 0) then ret (- EOPNOTSUPP) else
  run! call_ (InodeLock ino) in
  let out r := run! call_ (InodeUnlock ino) in ret r in
  run! kdo (InodeDioWait ino) in
  let! r := kdo (FileModified ino) in
  if negb (r =? 0) then out r else
  let! ci := get_inode ino in
  let! r := (if negb (prealloc_len ci =? 0) then simplefs_discard_prealloc ino else ret 0) in
  if negb (r =? 0) then out r else
  if mode =? Z.lor FALLOC_FL_PUNCH_HOLE FALLOC_FL_KEEP_SIZE then
    let! r := simplefs_fallocate_punch_hole ino offset len true in out r
  else if (mode =? 0) || (mode =? FALLOC_FL_KEEP_SIZE) then
    let! r := (if Z.land mode FALLOC_FL_KEEP_SIZE =? 0 then kdo (InodeNewsizeOk ino (offset + len)) else ret 0) in
    if negb (r =? 0) then out r else
    let! r := simplefs_fallocate_prealloc ino mode offset len in out r
  else if mode =? FALLOC_FL_COLLAPSE_RANGE then
    let! r := simplefs_fallocate_collapse ino offset len in out r
  else if mode =? FALLOC_FL_INSERT_RANGE then
    let! r := simplefs_fallocate_insert ino offset len in out r
  else if (mode =? FALLOC_FL_ZERO_RANGE) || (mode =? Z.lor FALLOC_FL_ZERO_RANGE FALLOC_FL_KEEP_SIZE) then
    let! r := simplefs_fallocate_zero_range ino mode offset len in out r
  else out (- EOPNOTSUPP).

(** ** Synchronisation, opening and closing *)

(** The commit of the metadata, or the write-out of the device without a journal. *)
Definition commit_metadata (err : Z) : M Z :=
  let! s := get_sbi in
  if has_jbd2 (s_journal s) then
    let! err2 := simplefs_journal_force_commit in
    ret (if err =? 0 then err2 else err)
  else
  let! err2 := kdo FilemapWriteAndWaitAll in
  let err := if err =? 0 then err2 else err in
  let! err2 := kdo BlkdevIssueFlush in
  ret (if err =? 0 then err2 else err).

(** The reservation is looked at again under the inode lock. *)
Definition discard_locked (ino : Z) : M Z :=
  run! call_ (InodeLock ino) in
  let! ci := get_inode ino in
  let! r := (if negb (prealloc_len ci =? 0) then simplefs_discard_prealloc ino else ret 0) in
  run! call_ (InodeUnlock ino) in
  ret r.

Definition simplefs_file_fsync (ino start end_ : Z) : M Z :=
  let! down := simplefs_is_shutdown in
  if down then ret (- EIO) else
  let! ci := get_inode ino in
  let! err := (if negb (prealloc_len ci =? 0) then discard_locked ino else ret 0) in
  if negb (err =? 0) then ret err else
  let! err := filemap_write_and_wait_range ino start end_ in
  run! kdo (WaitIoendConversions ino) in
  if negb (err =? 0) then ret err else
  let! err := sync_inode_metadata ino in
  commit_metadata err.

(** Without a journal an error of the inode's write-back ends it after the device
    was written out, before the flush. *)
Definition simplefs_dir_fsync (ino : Z) : M Z :=
  let! err := sync_inode_metadata ino in
  let! s := get_sbi in
  if has_jbd2 (s_journal s) then
    let! err2 := simplefs_journal_force_commit in
    ret (if err =? 0 then err2 else err)
  else
  let! err2 := kdo FilemapWriteAndWaitAll in
  if negb (err =? 0) then ret err else
  if negb (err2 =? 0) then ret err2 else kdo BlkdevIssueFlush.

Definition simplefs_file_open (ino : Z) : M Z :=
  let! down := simplefs_is_shutdown in
  if down then ret (- EIO) else kdo (GenericFileOpen ino).

Definition simplefs_file_release (ino : Z) : M Z := discard_locked ino.

Definition simplefs_file_splice_read (ino : Z) : M Z :=
  let! down := simplefs_is_shutdown in
  if down then ret (- EIO) else kdo (SpliceRead ino).

(** ** FIEMAP *)

Definition FIEMAP_EXTENT_LAST : Z := 1.
Definition FIEMAP_EXTENT_UNWRITTEN : Z := 2048.

(** What is reported of the extent at index [i] of [n], if it meets the range. *)
Definition fiemap_entry (i n start end_ : Z) (ext : extent) : option (Z * Z * Z * Z) :=
  let ext_len := simplefs_ext_len ext in
  if (ee_start ext =? 0) || (ext_len =? 0) then None else
  let logical := block_start (ee_block ext) in
  let logical_end := logical + block_start ext_len in
  if (logical_end <=? start) || (end_ <=? logical) then None else
  Some (logical, block_start (ee_start ext), logical_end - logical,
        Z.lor (if simplefs_ext_unwritten ext then FIEMAP_EXTENT_UNWRITTEN else 0)
              (if i =? n - 1 then FIEMAP_EXTENT_LAST else 0)).

Fixpoint fiemap_loop (l : list extent) (i n start end_ : Z) : M Z :=
  match l with
  | [] => ret 0
  | ext :: rest =>
      match fiemap_entry i n start end_ ext with
      | None => fiemap_loop rest (i + 1) n start end_
      | Some (logical, phys, len, flags) =>
          let! r := kdo (FiemapFill logical phys len flags) in
          if negb (r =? 0) then ret r else fiemap_loop rest (i + 1) n start end_
      end
  end.

(** [prep] is the answer of [fiemap_prep], which also bounds [len]; [xattr] its
    attribute flag. *)
Definition simplefs_fiemap (ino prep start len : Z) (xattr : bool) : M Z :=
  if negb (prep =? 0) then ret prep else
  let! ci := get_inode ino in
  if xattr then
    if i_xattr_block ci =? 0 then ret 0
    else kdo (FiemapFill 0 (block_start (i_xattr_block ci)) SIMPLEFS_BLOCK_SIZE FIEMAP_EXTENT_LAST)
  else
  run! call_ (InodeLockShared ino) in
  let! ci := get_inode ino in
  let! (r, buf) := simplefs_file_load_extents (ei_block ci) in
  let! r := (if negb (r =? 0) then ret r else
             fiemap_loop (eb_extents buf) 0 (nr_extents buf) start (start + len)) in
  run! call_ (InodeUnlockShared ino) in
  ret r.

(** ** FITRIM *)

(** [while (b < end_block)]: the code and the number of blocks trimmed.  Every round
    ends a run, so [end_block - start_block] of them are enough. *)
Fixpoint trim_loop (fuel : nat) (bitmap end_block minlen b trimmed : Z) : M (Z * Z) :=
  match fuel with
  | O => ret (0, trimmed)
  | S fuel' =>
      if end_block <=? b then ret (0, trimmed) else
      let b := find_next_bit bitmap end_block b in
      if end_block <=? b then ret (0, trimmed) else
      let run_end := find_next_zero_bit bitmap end_block (b + 1) in
      let run := run_end - b in
      if minlen <=? run then
        let! r := kdo (SbIssueDiscard b run) in
        if negb (r =? 0) then ret (r, trimmed)
        else trim_loop fuel' bitmap end_block minlen run_end (trimmed + run)
      else trim_loop fuel' bitmap end_block minlen run_end trimmed
  end.

(** The code and the new [range->len]. *)
Definition simplefs_trim_fs (start len minlen : Z) : M (Z * Z) :=
  let! s := get_sbi in
  if s_journal_mode s =? 2 then ret (- EROFS, len) else
  if len <? SIMPLEFS_BLOCK_SIZE then ret (- EINVAL, len) else
  let start_block := block_of start in
  let end_block := u64 (start_block + block_of len) in
  let minlen := block_of minlen in
  if nr_blocks s <=? start_block then ret (- EINVAL, len) else
  let end_block := if nr_blocks s <? end_block then nr_blocks s else end_block in
  let minlen := if minlen =? 0 then 1 else minlen in
  run! lock_bitmap in
  let! s := get_sbi in
  let! (r, trimmed) := trim_loop (Z.to_nat (end_block - start_block)) (bfree_bitmap s) end_block minlen start_block 0 in
  run! unlock_bitmap in
  ret (r, u64 (block_start trimmed)).

(** ** Shutdown and the label *)

Definition SIMPLEFS_GOING_DOWN_FULLSYNC : Z := 0.
Definition SIMPLEFS_GOING_DOWN_METASYNC : Z := 1.
Definition SIMPLEFS_GOING_DOWN_NOSYNC : Z := 2.
Definition SIMPLEFS_LABEL_MAX : Z := 63.

(** [sync_filesystem] and [sync_inodes_sb] of the VFS are given; [w_rdonly] is
    [SB_RDONLY]. *)
Definition simplefs_shutdown (sync_filesystem sync_inodes : M unit) (flags : Z) : M Z :=
  let! down := simplefs_is_shutdown in
  if down then ret 0 else
  let! res :=
    (if flags =? SIMPLEFS_GOING_DOWN_FULLSYNC then
       run! sync_filesystem in run! upd_sbi (set_s_shutdown true) in ret (Some 0)
     else if flags =? SIMPLEFS_GOING_DOWN_METASYNC then
       run! sync_inodes in
       run! upd_sbi (set_s_shutdown true) in
       let! r := simplefs_journal_force_commit in
       run! simplefs_journal_shutdown in ret (Some r)
     else if flags =? SIMPLEFS_GOING_DOWN_NOSYNC then
       run! upd_sbi (set_s_shutdown true) in
       run! simplefs_journal_shutdown in ret (Some 0)
     else ret None) in
  match res with
  | None => ret (- EINVAL)
  | Some r => run! modify (set_w_rdonly true) in ret r
  end.

(** The user's buffer of [FSLABEL_MAX] bytes, its last byte cleared; the label ends at
    the first NUL. *)
Definition FSLABEL_MAX : Z := 256.
Fixpoint strnlen (fuel : nat) (buf off : Z) : Z :=
  match fuel with
  | O => off
  | S fuel' => if get_u8 buf off =? 0 then off else strnlen fuel' buf (off + 1)
  end.
Definition label_len (new_label : Z) : Z :=
  strnlen (Z.to_nat FSLABEL_MAX) (get_bytes new_label 0 (FSLABEL_MAX - 1)) 0.

Definition set_label (new_label : Z) : M Z :=
  let len := label_len new_label in
  if SIMPLEFS_LABEL_MAX <? len then ret (- EINVAL) else
  let! handle := simplefs_journal_start_sb 1 in
  if HANDLE_IS_ERR handle then ret (HANDLE_PTR_ERR handle) else
  let label := get_bytes new_label 0 len in
  run! upd_sbi (upd_disk (set_s_volume_name label)) in
  let! r := simplefs_get_folio SIMPLEFS_SB_BLOCK_NR in
  let! r := (if IS_ERR r then ret r else
             let! img := read_image SIMPLEFS_SB_BLOCK_NR in
             run! write_image SIMPLEFS_SB_BLOCK_NR (put_bytes img sb_off_volume_name 64 label) in
             simplefs_journal_dirty_folio SIMPLEFS_SB_BLOCK_NR (folio_of SIMPLEFS_SB_BLOCK_NR)) in
  let! stop_ret := simplefs_journal_stop handle in
  ret (if r =? 0 then stop_ret else r).

Inductive ioctl_cmd :=
  | SIMPLEFS_IOC_SHUTDOWN (flags : Z)
  | FITRIM (start len minlen : Z)
  | FS_IOC_GETFSLABEL
  | FS_IOC_SETFSLABEL (new_label : Z)
  | IOC_OTHER.

Definition as_admin {A} (refused : A) (m : M A) : M A :=
  let! cap := kdo Capable in if cap =? 0 then ret refused else m.

(** The code, and what is copied to the user: the trimmed length or the label. *)
Definition simplefs_ioctl (sync_filesystem sync_inodes : M unit) (cmd : ioctl_cmd) : M (Z * Z) :=
  match cmd with
  | SIMPLEFS_IOC_SHUTDOWN flags =>
      as_admin (- EPERM, 0)
        (let! bad := kdo UserCopy in
         if negb (bad =? 0) then ret (- EFAULT, 0) else
         let! r := simplefs_shutdown sync_filesystem sync_inodes flags in ret (r, 0))
  | FITRIM start len minlen =>
      as_admin (- EPERM, 0)
        (let! bad := kdo UserCopy in
         if negb (bad =? 0) then ret (- EFAULT, 0) else
         let! (r, trimmed) := simplefs_trim_fs start len minlen in
         if negb (r =? 0) then ret (r, 0) else
         let! bad := kdo UserCopy in
         if negb (bad =? 0) then ret (- EFAULT, 0) else ret (0, trimmed))
  | FS_IOC_GETFSLABEL =>
      let! s := get_sbi in
      let! bad := kdo UserCopy in
      if negb (bad =? 0) then ret (- EFAULT, 0) else ret (0, s_volume_name s)
  | FS_IOC_SETFSLABEL new_label =>
      as_admin (- EPERM, 0)
        (let! bad := kdo UserCopy in
         if negb (bad =? 0) then ret (- EFAULT, 0) else
         let! r := set_label new_label in ret (r, 0))
  | IOC_OTHER => ret (- ENOTTY, 0)
  end.

(** ** Attributes *)

(** [ia_size] with [ATTR_SIZE], and whether [ATTR_MODE] is set; [setattr_copy] is what
    the VFS function of that name does to the inode. *)
Definition simplefs_setattr (ino attr : Z) (ia_size : option Z) (attr_mode : bool)
    (setattr_copy : inode -> inode) : M Z :=
  let! error := kdo (SetattrPrepare ino attr) in
  if negb (error =? 0) then ret error else
  let! error :=
    (match ia_size with
     | Some size =>
         let! error := simplefs_truncate ino size in
         if negb (error =? 0) then ret error else
         let! ts := inode_set_ctime_current ino in
         run! inode_set_mtime_to_ts ino ts in ret 0
     | None => ret 0
     end) in
  if negb (error =? 0) then ret error else
  run! upd_inode ino setattr_copy in
  run! kdo (MarkInodeDirty ino) in
  if attr_mode then let! i := get_inode ino in kdo (AclChmod ino (i_mode i)) else ret 0.

Definition STATX_ATTR_IMMUTABLE : Z := 16.
Definition STATX_ATTR_APPEND : Z := 32.
Definition STATX_ATTR_NODUMP : Z := 64.

(** The fields of [struct kstat] set here: attributes and their mask, the birth time
    when asked for, and the alignment of direct I/O when asked for a regular file. *)
Definition simplefs_getattr (i : inode) (want_btime want_dioalign : bool)
    : Z * Z * option (Z * Z) * option (Z * Z) :=
  let flags := Z.land (i_flags i) SIMPLEFS_FL_USER_VISIBLE in
  let attributes :=
    Z.lor (if Z.land flags FS_APPEND_FL =? 0 then 0 else STATX_ATTR_APPEND)
      (Z.lor (if Z.land flags FS_IMMUTABLE_FL =? 0 then 0 else STATX_ATTR_IMMUTABLE)
             (if Z.land flags FS_NODUMP_FL =? 0 then 0 else STATX_ATTR_NODUMP)) in
  (attributes, Z.lor STATX_ATTR_APPEND (Z.lor STATX_ATTR_IMMUTABLE STATX_ATTR_NODUMP),
   if want_btime then Some (i_crtime i, i_crtime_nsec i) else None,
   if want_dioalign && S_ISREG (i_mode i) then Some (SIMPLEFS_BLOCK_SIZE, SIMPLEFS_BLOCK_SIZE) else None).
End Ops.
