(* ===== verification/FileOpsSpec.v ===== *)
(** * FileOpsSpec: what the file operations keep and promise

    Every operation on a file keeps what the allocator, the extent tree and the
    journal promise, whatever the page cache does through its callbacks; fsync
    commits after the data is out; FITRIM discards the free runs of the range and
    nothing else; FIEMAP reports the mapping; a shut down file system refuses. *)

From stdpp Require Import base list numbers gmap relations.
From S2P Require Import Prelude Image Layout Kernel DiskFormat Discard Journal MetaBuf.
From S2P Require Import Alloc Retire ExtentBuf ExtentTree Owned Errno InodeTable.
From S2P Require Import FileRange FileMap FileWrite FileZero Super FileOps.

Local Open Scope Z_scope.
Local Open Scope fs_scope.

(** ** Callbacks *)

Section Callbacks.
Context {K : Kernel}.

(** One step of the kernel's page cache or inode write-back on inode [ino]: a callback
    of the file system, an update of the in-core inode that leaves its tree in place,
    or a call of its own. *)
Inductive callback (ino : Z) : world -> world -> Prop :=
  | cb_write_begin offset len w :
      callback ino w (snd (simplefs_write_iomap_begin ino offset len true false w))
  | cb_convert offset len w : callback ino w (snd (simplefs_convert_unwritten_range ino offset len w))
  | cb_finish offset size status unwritten w :
      callback ino w (snd (simplefs_finish_ioend_work ino offset size status unwritten w))
  | cb_inode f w : (forall i, ei_block (f i) = ei_block i) -> callback ino w (snd (upd_inode ino f w))
  | cb_write_inode w : callback ino w (snd (simplefs_write_inode ino w))
  | cb_call c w : plain_call c -> callback ino w (snd (kdo c w)).

(** A computation that only does such steps. *)
Definition by_callbacks (ino : Z) (m : M Z) : Prop := forall w, rtc (callback ino) w (snd (m w)).
End Callbacks.

Class ThroughCallbacks {K : Kernel} {PC : PageCache} : Prop := {
  tc_wait : forall ino, by_callbacks ino (filemap_write_and_wait ino);
  tc_wait_range : forall ino a b, by_callbacks ino (filemap_write_and_wait_range ino a b);
  tc_zero : forall ino pos len, by_callbacks ino (iomap_zero_range ino pos len);
  tc_page : forall ino pos, by_callbacks ino (iomap_truncate_page ino pos);
  tc_now : forall ino, by_callbacks ino (write_inode_now ino);
  tc_sync : forall ino, by_callbacks ino (sync_inode_metadata ino)
}.

(** ** What every operation keeps *)

#[export] Instance alloc_inv_lstable {K : Kernel} : LStable (fun w => alloc_inv (w_sbi w)).
Proof. intros c _ w Hw. unfold kdo. by destruct (kstep _ c). Qed.
#[export] Instance wal_lstable {K : Kernel} : LStable (fun w => wal_ok (w_trace w)).
Proof. intros c Hc w Hw. unfold kdo. destruct (kstep _ c). by destruct c. Qed.

Section Preserve.
Context {K : Kernel} (I : world -> Prop) {HI : FStable I}.

Lemma grow_loop_fpres ino buf idx ex cu fuel : forall n, 0 <= n <= U32_MAX -> preserves I (grow_loop fuel ino buf idx n ex cu).
Proof.
  induction fuel as [|fuel IH]; intros n Hn; cbn [grow_loop]; [pres|]. destruct (n <=? 0); [pres|]. cbv zeta.
  apply preserves_bind; [apply bs_take; [apply u32_range|exact Hn]|]. intros ok. destruct (negb ok).
  - apply IH. Z.to_euclidean_division_equations. lia.
  - unfold add_blocks. pres.
Qed.
Lemma alloc_halving_fpres fuel : forall n, 0 <= n <= U32_MAX -> preserves I (alloc_halving fuel n).
Proof.
  induction fuel as [|fuel IH]; intros n Hn; cbn [alloc_halving]; (apply preserves_bind; [by apply bs_get_blocks|]); intros b; pres.
  apply IH. Z.to_euclidean_division_equations. lia.
Qed.
Lemma hole_len_u32 buf idx b n : 0 <= hole_len buf idx b n <= U32_MAX.
Proof.
  unfold hole_len, SIMPLEFS_MAX_BLOCKS_PER_EXTENT. pose proof (u32_range n) as H1.
  pose proof (u32_range (ee_block (ext_at (eb_extents buf) idx) - b)) as H2. unfold is_u32, U32_MAX in *.
  destruct (_ && _); lia.
Qed.
Lemma map_hole_fpres ino buf idx b n ex cu : preserves I (map_hole ino buf idx b n ex cu).
Proof.
  pose proof (hole_len_u32 buf idx b n) as Hn. unfold map_hole. apply preserves_bind.
  - destruct (can_grow _ _ _ _) eqn:E; [|pres]. apply grow_loop_fpres. unfold can_grow in E.
    pose proof (ext_len_bounds (ext_at (eb_extents buf) (idx - 1))). unfold SIMPLEFS_MAX_BLOCKS_PER_EXTENT in *. lia.
  - intros [res|]; [pres|]. unfold new_extent, add_blocks. apply preserves_bind; [by apply alloc_halving_fpres|]. intros []. pres.
Qed.
Local Hint Resolve map_hole_fpres : pres.
Lemma get_block_fpres ino b n cr ex cu cv : preserves I (simplefs_get_block ino b n cr ex cu cv).
Proof. unfold simplefs_get_block, map_found. pres. Qed.
Local Hint Resolve get_block_fpres : pres.
Lemma mark_range_fpres ino s n : preserves I (simplefs_mark_unwritten_range ino s n).
Proof. unfold simplefs_mark_unwritten_range, simplefs_mark_unwritten_extent. pres. Qed.
Local Hint Resolve mark_range_fpres : pres.
Lemma write_begin_fpres ino o n cr d : preserves I (simplefs_write_iomap_begin ino o n cr d).
Proof. unfold simplefs_write_iomap_begin. pres. Qed.
Lemma convert_range_fpres ino o n : preserves I (simplefs_convert_unwritten_range ino o n).
Proof.
  unfold simplefs_convert_unwritten_range. pres. apply convert_loop_pres, _.
Qed.
Local Hint Resolve write_begin_fpres convert_range_fpres : pres.
Lemma finish_ioend_fpres ino o n st u : preserves I (simplefs_finish_ioend_work ino o n st u).
Proof. unfold simplefs_finish_ioend_work. pres; apply ks_shutdown. Qed.

Lemma write_inode_fpres ino : preserves I (simplefs_write_inode ino).
Proof. pres. Qed.

Lemma callback_fpres ino w w' : callback ino w w' -> I w -> I w'.
Proof.
  intros [o n v|o n v|o n st u v|f v _|v|c v Hc].
  - apply write_begin_fpres.
  - apply convert_range_fpres.
  - apply finish_ioend_fpres.
  - by apply upd_inode_pres.
  - apply write_inode_fpres.
  - by apply ks_call.
Qed.
Lemma by_callbacks_pres ino m : by_callbacks ino m -> preserves I m.
Proof.
  intros H w Hw. specialize (H w). induction H as [v|v v' v'' Hs _ IH]; [done|]. apply IH. by eapply callback_fpres.
Qed.

Context {PC : PageCache} {TC : ThroughCallbacks}.
Lemma wait_pres ino : preserves I (filemap_write_and_wait ino).
Proof. apply (by_callbacks_pres ino), tc_wait. Qed.
Lemma wait_range_pres ino a b : preserves I (filemap_write_and_wait_range ino a b).
Proof. apply (by_callbacks_pres ino), tc_wait_range. Qed.
Lemma zero_pres ino a b : preserves I (iomap_zero_range ino a b).
Proof. apply (by_callbacks_pres ino), tc_zero. Qed.
Lemma page_pres ino a : preserves I (iomap_truncate_page ino a).
Proof. apply (by_callbacks_pres ino), tc_page. Qed.
Lemma now_pres ino : preserves I (write_inode_now ino).
Proof. apply (by_callbacks_pres ino), tc_now. Qed.
Lemma sync_pres ino : preserves I (sync_inode_metadata ino).
Proof. apply (by_callbacks_pres ino), tc_sync. Qed.
Local Hint Resolve wait_pres wait_range_pres zero_pres page_pres now_pres sync_pres : pres.

Lemma gap_fpres ino a n : preserves I (simplefs_zero_partial_gap ino a n).
Proof. unfold simplefs_zero_partial_gap. pres. Qed.
Local Hint Resolve gap_fpres finish_ioend_fpres : pres.
Lemma write_end_fpres ino o n im : preserves I (simplefs_write_iomap_end ino o n im).
Proof. unfold simplefs_write_iomap_end. pres. Qed.
Lemma dio_end_fpres ino o n e u : preserves I (simplefs_file_dio_write_end_io ino o n e u).
Proof. unfold simplefs_file_dio_write_end_io. pres. Qed.
Lemma release_ranges_fpres ino buf fr : preserves I (release_ranges ino buf fr).
Proof. unfold release_ranges. pres. Qed.
Local Hint Resolve release_ranges_fpres alloc_ranges_pres punch_loop_pres collapse_loop_pres insert_loop_pres : pres.
Lemma truncate_extents_fpres ino n : preserves I (truncate_extents ino n).
Proof. unfold truncate_extents. pres. Qed.
Lemma punch_extents_fpres ino a z : preserves I (punch_extents ino a z).
Proof. unfold punch_extents. pres. Qed.
Lemma collapse_extents_fpres ino s z n : preserves I (collapse_extents ino s z n).
Proof. unfold collapse_extents. pres. Qed.
Lemma insert_extents_fpres ino s z n : preserves I (insert_extents ino s z n).
Proof. unfold insert_extents. pres. Qed.
Local Hint Resolve truncate_extents_fpres punch_extents_fpres collapse_extents_fpres insert_extents_fpres : pres.
Lemma zero_loop_fpres ino last fuel : forall b buf A, preserves I (zero_loop fuel ino b last buf A).
Proof.
  induction fuel as [|fuel IH]; intros b buf A; cbn [zero_loop]; [pres|]. destruct (last <=? b); [pres|].
  destruct (simplefs_file_find_extent buf b) as [found idx]. destruct found; [unfold simplefs_mark_unwritten_extent; pres|].
  apply preserves_bind; [|intros [bno n]; unfold add_blocks; pres].
  apply alloc_halving_fpres. unfold SIMPLEFS_MAX_BLOCKS_PER_EXTENT. pose proof (u32_range (last - b)) as H1.
  pose proof (u32_range (ee_block (ext_at (eb_extents buf) idx) - b)) as H2. unfold is_u32, U32_MAX in *.
  destruct (_ && _); lia.
Qed.
Local Hint Resolve zero_loop_fpres : pres.
Lemma zero_full_fpres ino a z : preserves I (simplefs_zero_range_full_blocks ino a z).
Proof. unfold simplefs_zero_range_full_blocks, sub_blocks. pres. Qed.
Local Hint Resolve zero_full_fpres : pres.
Lemma setsize_fpres ino n : preserves I (truncate_setsize ino n).
Proof. unfold truncate_setsize. pres. Qed.
Local Hint Resolve setsize_fpres : pres.
Lemma prealloc_loop_fpres ino z fuel : forall b, preserves I (prealloc_loop fuel ino b z).
Proof. induction fuel as [|fuel IH]; intros b; cbn [prealloc_loop]; pres. Qed.

(** The operations that take locks. *)
Context {HL : LStable I}.
Lemma call_lpres c : lock_call c -> preserves I (call_ c).
Proof. intros Hc. unfold call_. apply preserves_bind; [by apply ls_call|]. intros. apply preserves_ret. Qed.
Local Hint Extern 2 (preserves _ (call_ _)) => (apply call_lpres; exact Logic.I) : pres.
Lemma truncate_fpres ino n : preserves I (simplefs_truncate ino n).
Proof. unfold simplefs_truncate. pres. Qed.
Local Hint Resolve truncate_fpres : pres.
Lemma punch_hole_fpres ino o n v : preserves I (simplefs_fallocate_punch_hole ino o n v).
Proof. unfold simplefs_fallocate_punch_hole, simplefs_touch_mctime. pres. Qed.
Local Hint Resolve punch_hole_fpres : pres.
Lemma discard_prealloc_fpres ino : preserves I (simplefs_discard_prealloc ino).
Proof. unfold simplefs_discard_prealloc. pres. Qed.
Local Hint Resolve discard_prealloc_fpres prealloc_loop_fpres get_block_fpres : pres.
Lemma fallocate_fpres ino m o n : preserves I (simplefs_fallocate ino m o n).
Proof.
  unfold simplefs_fallocate, simplefs_fallocate_prealloc, simplefs_fallocate_collapse, simplefs_fallocate_insert,
    simplefs_fallocate_zero_range, flush_and_drop, zero_blocks. pres.
Qed.
Lemma release_fpres ino : preserves I (simplefs_file_release ino).
Proof. unfold simplefs_file_release, discard_locked. pres. Qed.
Lemma setattr_fpres ino a sz m f : preserves I (simplefs_setattr ino a sz m f).
Proof. unfold simplefs_setattr, inode_set_ctime_current, inode_set_mtime_to_ts. pres. Qed.
End Preserve.

(** ** Sequences of operations *)

Inductive file_op :=
  | Truncate (size : Z)
  | Fallocate (mode offset len : Z)
  | Release
  | Setattr (attr : Z) (size : option Z) (mode : bool) (copy : inode -> inode)
  | WriteBegin (offset len : Z) (direct : bool)
  | WriteEnd (offset written : Z) (im : iomap)
  | DioEnd (pos size error : Z) (unwritten : bool)
  | IoendWork (offset size status : Z) (unwritten : bool)
  | Fileattr (has_fsx : bool) (flags : Z).

Definition run_op {K : Kernel} {PC : PageCache} (ino : Z) (op : file_op) : M unit :=
  let done {A} (m : M A) : M unit := run! m in ret tt in
  match op with
  | Truncate size => done (simplefs_truncate ino size)
  | Fallocate mode offset len => done (simplefs_fallocate ino mode offset len)
  | Release => done (simplefs_file_release ino)
  | Setattr attr size mode copy => done (simplefs_setattr ino attr size mode copy)
  | WriteBegin offset len direct => done (simplefs_write_iomap_begin ino offset len true direct)
  | WriteEnd offset written im => done (simplefs_write_iomap_end ino offset written im)
  | DioEnd pos size error unwritten => done (simplefs_file_dio_write_end_io ino pos size error unwritten)
  | IoendWork offset size status unwritten => done (simplefs_finish_ioend_work ino offset size status unwritten)
  | Fileattr has_fsx flags => done (simplefs_fileattr_set ino has_fsx flags)
  end.

Lemma run_op_pres {K : Kernel} {PC : PageCache} {TC : ThroughCallbacks} (I : world -> Prop) {HI : FStable I} {HL : LStable I} ino op :
  preserves I (run_op ino op).
Proof.
  destruct op; cbn [run_op]; (apply preserves_bind; [|intros; apply preserves_ret]).
  - by apply truncate_fpres.
  - by apply fallocate_fpres.
  - by apply release_fpres.
  - by apply setattr_fpres.
  - by apply write_begin_fpres.
  - by apply write_end_fpres.
  - by apply dio_end_fpres.
  - by apply finish_ioend_fpres.
  - by apply fileattr_set_apres.
Qed.

(** whatever sequence of truncations, allocations, releases, attribute changes,
    mappings for writing and completions of writing runs on whatever files, the
    allocator's counters and bitmaps stay consistent and no block is journalled as dirty
    without write access, when the kernel's page cache works through the callbacks. *)
Theorem file_ops_keep_invariants {K : Kernel} {PC : PageCache} {TC : ThroughCallbacks} (ops : list (Z * file_op)) :
  preserves (fun w => alloc_inv (w_sbi w) /\ wal_ok (w_trace w)) (each_list ops (fun o => run_op o.1 o.2)).
Proof.
  assert (H : forall I, FStable I -> LStable I -> preserves I (each_list ops (fun o => run_op o.1 o.2))).
  { intros I HI HL. apply preserves_each_list. intros o. by apply run_op_pres. }
  intros w [H1 H2]. split; [by apply (H _ alloc_inv_fstable _)|by apply (H (fun w => wal_ok (w_trace w)) _ _)].
Qed.

(** ** FITRIM *)
Section Trim.
Context {K : Kernel}.

(** A request that covers free blocks only, inside [s, e), at least [minlen] long. *)
Definition trims (bm s e minlen : Z) (c : kcall * Z) : Prop :=
  exists b n r, c = (SbIssueDiscard b n, r) /\ s <= b /\ minlen <= n /\ b + n <= e /\
    forall k, b <= k < b + n -> test_bit bm k = true.
Definition covers (p : Z) (c : kcall * Z) : Prop :=
  exists b n, c = (SbIssueDiscard b n, 0) /\ b <= p < b + n.

(** The calls of the loop, newest first: each is good, all free runs from [b] on that
    are long enough are covered when no request failed. *)
Definition trim_post (bm b0 b e minlen : Z) (w : world) (res : Z * Z) (w' : world) : Prop :=
  w_sbi w' = w_sbi w /\ exists calls, w_trace w' = calls ++ w_trace w /\ Forall (trims bm b0 e minlen) calls /\
    (fst res = 0 -> forall a n, b <= a -> a + n <= e -> minlen <= n ->
       (forall k, a <= k < a + n -> test_bit bm k = true) -> forall p, a <= p < a + n -> Exists (covers p) calls).

Lemma trim_post_skip bm b0 b b' e minlen w res w' : b <= b' ->
  (forall a n, b <= a -> a + n <= e -> minlen <= n -> (forall k, a <= k < a + n -> test_bit bm k = true) ->
     0 < n -> b' <= a) ->
  trim_post bm b0 b' e minlen w res w' -> trim_post bm b0 b e minlen w res w'.
Proof.
  intros Hb Hskip (H1 & calls & H2 & H3 & H4). split; [done|]. exists calls. split_and!; [done..|].
  intros Hr a n Ha Hn Hm Hall p Hp. apply (H4 Hr a n); try done. apply (Hskip a n); try done. lia.
Qed.

Lemma trim_loop_spec bm b0 e minlen fuel : 0 < minlen -> forall b t w, b0 <= b <= e -> e - b <= Z.of_nat fuel ->
  wp (trim_loop fuel bm e minlen b t) (fun res w' => trim_post bm b0 b e minlen w res w') w.
Proof.
  intros Hmin. induction fuel as [|fuel IH]; intros b t w Hb Hfuel; cbn [trim_loop].
  { apply wp_ret. split; [done|]. exists []. split_and!; [done|constructor|]. intros _ a n H1 H2 H3 _ p Hp. lia. }
  destruct (Z.leb_spec e b).
  { apply wp_ret. split; [done|]. exists []. split_and!; [done|constructor|]. intros _ a n H1 H2 H3 _ p Hp. lia. }
  destruct (find_next_bit_spec bm e b) as (F1 & F2 & F3); [lia|]. set (c := find_next_bit bm e b) in *. clearbody c. cbv zeta.
  assert (Hc : forall a n, b <= a -> a + n <= e -> minlen <= n -> (forall k, a <= k < a + n -> test_bit bm k = true) ->
    0 < n -> c <= a).
  { intros a n Ha _ _ Hall Hn. destruct (Z_lt_le_dec a c) as [Hlt|]; [|done].
    specialize (Hall a ltac:(lia)). rewrite F2 in Hall by lia. done. }
  destruct (Z.leb_spec e c).
  { apply wp_ret. split; [done|]. exists []. split_and!; [done|constructor|]. intros _ a n H1 H2 H3 Hall p Hp.
    specialize (Hc a n H1 H2 H3 Hall ltac:(lia)). lia. }
  destruct (find_next_zero_bit_spec bm e (c + 1)) as (G1 & G2 & G3); [lia|].
  set (z := find_next_zero_bit bm e (c + 1)) in *. clearbody z.
  assert (Hrun : forall k, c <= k < z -> test_bit bm k = true).
  { intros k Hk. destruct (Z.eq_dec k c) as [->|]; [apply F3; lia|apply G2; lia]. }
  assert (Hz : forall a n, c <= a < z -> a + n <= e -> (forall k, a <= k < a + n -> test_bit bm k = true) -> a + n <= z).
  { intros a n Ha Hn Hall. destruct (Z_lt_le_dec z (a + n)); [|done]. specialize (Hall z ltac:(lia)).
    rewrite G3 in Hall by lia. done. }
  destruct (Z.leb_spec minlen (z - c)) as [Hlong|Hshort].
  - apply wp_bind. apply wp_kdo. intros r k _. set (w1 := set_w_trace _ _).
    assert (Hcall : trims bm b0 e minlen (SbIssueDiscard c (z - c), r)).
    { exists c, (z - c), r. split_and!; [done|lia|lia|lia|]. intros j Hj. apply Hrun. lia. }
    destruct (Z.eqb_spec r 0) as [->|Hr]; cbn [negb].
    + eapply wp_mono; [apply (IH z _ w1); lia|]. intros res w' (H1 & calls & H2 & H3 & H4).
      split; [done|]. exists (calls ++ [(SbIssueDiscard c (z - c), 0)]).
      split_and!; [rewrite H2; cbn; by rewrite <- app_assoc|apply Forall_app; split; [done|by constructor]|].
      intros Hres a n Ha Hn Hm Hall p Hp. pose proof (Hc a n Ha Hn Hm Hall ltac:(lia)) as Hca. apply Exists_app.
      destruct (Z_lt_le_dec a z) as [Hlt|Hge].
      * right. apply Exists_cons. left. exists c, (z - c). split; [done|]. specialize (Hz a n ltac:(lia) Hn Hall). lia.
      * left. by apply (H4 Hres a n).
    + apply wp_ret. split; [done|]. exists [(SbIssueDiscard c (z - c), r)].
      split_and!; [done|by constructor|]. cbn. done.
  - eapply wp_mono; [apply (IH z t w); lia|]. intros res w'. apply trim_post_skip; [lia|].
    intros a n Ha Hn Hm Hall Hpos. pose proof (Hc a n Ha Hn Hm Hall Hpos) as Hca.
    destruct (Z_lt_le_dec a z) as [Hlt|]; [|done]. specialize (Hz a n ltac:(lia) Hn Hall). lia.
Qed.

Definition is_u64 (x : Z) : Prop := 0 <= x < 18446744073709551616.

Lemma block_of_range x : is_u64 x -> 0 <= block_of x < 2 ^ 52.
Proof.
  intros Hx. unfold block_of, blkbits. rewrite Z.shiftr_div_pow2 by lia. unfold is_u64 in Hx.
  change (2 ^ 12) with 4096. change (2 ^ 52) with 4503599627370496. Z.to_euclidean_division_equations. lia.
Qed.

(** FITRIM discards free blocks of the requested range and nothing else, in
    requests of at least the requested length, and changes no state; when it succeeds,
    every run of free blocks of that length inside the range was discarded. *)
Theorem trim_discards_free_runs start len minlen w : is_u64 start -> is_u64 len -> is_u64 minlen ->
  bitmap_lock (w_sbi w) = false ->
  wp (simplefs_trim_fs start len minlen) (fun res w' =>
    let s := block_of start in let e := Z.min (nr_blocks (w_sbi w)) (s + block_of len) in
    trim_post (bfree_bitmap (w_sbi w)) s s e (Z.max 1 (block_of minlen)) w res w') w.
Proof.
  intros Hs Hl Hm Hlock. unfold simplefs_trim_fs. cbv zeta. pose proof (block_of_range _ Hs) as Bs.
  pose proof (block_of_range _ Hl) as Bl. pose proof (block_of_range _ Hm) as Bm.
  set (s := block_of start) in *. set (n := block_of len) in *. set (m := block_of minlen) in *. clearbody s n m.
  apply wp_bind, wp_gets.
  assert (Hnone : forall r t, r <> 0 -> trim_post (bfree_bitmap (w_sbi w)) s s (Z.min (nr_blocks (w_sbi w)) (s + n)) (Z.max 1 m) w (r, t) w).
  { intros r t Hr. split; [done|]. exists []. split_and!; [done|constructor|]. cbn. done. }
  destruct (s_journal_mode (w_sbi w) =? 2); [apply wp_ret; by apply Hnone|].
  destruct (len <? SIMPLEFS_BLOCK_SIZE); [apply wp_ret; by apply Hnone|].
  destruct (Z.leb_spec (nr_blocks (w_sbi w)) s); [apply wp_ret; by apply Hnone|].
  replace (u64 (s + n)) with (s + n) by (unfold u64; rewrite Z.mod_small; lia).
  assert (He : (if nr_blocks (w_sbi w) <? s + n then nr_blocks (w_sbi w) else s + n) = Z.min (nr_blocks (w_sbi w)) (s + n))
    by (destruct (Z.ltb_spec (nr_blocks (w_sbi w)) (s + n)); lia).
  assert (Hmin : (if m =? 0 then 1 else m) = Z.max 1 m) by (destruct (Z.eqb_spec m 0); lia).
  rewrite He, Hmin. apply wp_bind, wp_modify, wp_bind, wp_gets, wp_bind. cbn [w_sbi set_w_sbi].
  change (bfree_bitmap (set_bitmap_lock true (w_sbi w))) with (bfree_bitmap (w_sbi w)).
  eapply wp_mono; [apply (trim_loop_spec _ s); lia|]. intros [r t] w1 (H1 & calls & H2 & H3 & H4).
  apply wp_bind, wp_modify, wp_ret. split; [|by exists calls]. cbn [w_sbi set_w_sbi]. rewrite H1. cbn [w_sbi set_w_sbi].
  destruct (w_sbi w). cbn in Hlock. by subst.
Qed.
End Trim.

(** ** The order of fsync *)
Section Fsync.
Context {K : Kernel} {PC : PageCache} {TC : ThroughCallbacks}.

(** The calls of [t] were answered before those that followed. *)
Definition since (t : list (kcall * Z)) (w : world) : Prop := exists late, w_trace w = late ++ t.

#[export] Instance since_istable t : IStable (since t).
Proof.
  split; [split; [split; [split|]|split|]|].
  - intros c _ w [late E]. unfold kdo. destruct (kstep _ c) as [r k]. exists ((c, r) :: late). cbn. by rewrite E.
  - intros h n w _ [late E]. unfold kdo. destruct (kstep _ _) as [r k]. eexists (_ :: late). cbn. by rewrite E.
  - intros f w Hw. exact Hw.
  - intros w Hw. exact Hw.
  - intros n v w Hw. exact Hw.
  - intros f w Hw. exact Hw.
  - intros b w Hw. exact Hw.
  - intros f _ _ w Hw. exact Hw.
  - intros f w Hw. exact Hw.
Qed.

#[export] Instance since_lstable t : LStable (since t).
Proof.
  intros c _ w [late E]. unfold kdo. destruct (kstep _ c) as [r k]. exists ((c, r) :: late). cbn. by rewrite E.
Qed.

(** The last call is the flush, and [c] was answered 0 since [t]. *)
Definition flushed_after (c : kcall) (t : list (kcall * Z)) (w : world) : Prop :=
  exists late mid, w_trace w = (BlkdevIssueFlush, 0) :: late ++ (c, 0) :: mid ++ t.

Lemma force_commit_flushes t w : has_jbd2 (s_journal (w_sbi w)) = true -> since t w ->
  wp simplefs_journal_force_commit (fun r w' => r = 0 -> flushed_after Jbd2ForceCommit t w') w.
Proof.
  intros Hj [mid E]. unfold simplefs_journal_force_commit. apply wp_bind, wp_gets. rewrite Hj. cbn [negb].
  apply wp_bind, wp_modify, wp_bind, wp_kdo. intros r k _. apply wp_bind, wp_gets.
  set (w1 := set_w_trace _ _). destruct (Z.eqb_spec r 0) as [->|Hr]; cbn [andb].
  2:{ apply wp_bind, wp_ret. rewrite (proj2 (Z.eqb_neq r 0)) by done. apply wp_bind, wp_ret, wp_bind, wp_modify, wp_ret. done. }
  apply wp_bind. eapply (wp_mono _ (fun _ w2 => since ((Jbd2ForceCommit, 0) :: mid ++ t) w2)).
  { apply (wp_pres (since ((Jbd2ForceCommit, 0) :: mid ++ t))).
    - destruct (s_discard _ && _); [|pres]. apply issue_discards_pres; apply _.
    - exists []. unfold w1. cbn [w_trace set_w_trace set_w_kernel set_w_sbi app]. by rewrite <- E. }
  intros r2 w2 [late E2]; cbn beta in *. destruct (Z.eqb_spec r2 0) as [->|Hr2].
  - apply wp_bind, wp_kdo. intros r3 k3 _. apply wp_bind, wp_modify, wp_ret. intros ->.
    exists late, mid. cbn. by rewrite E2.
  - apply wp_bind, wp_ret, wp_bind, wp_modify, wp_ret. done.
Qed.

Lemma wp_result {A} (m : M A) (Q : A -> world -> Prop) w : (forall r w', m w = (r, w') -> Q r w') -> wp m Q w.
Proof. intros H. unfold wp. destruct (m w) as [r w'] eqn:E. by apply H. Qed.

Lemma commit_flushes err t w : since t w -> wp (commit_metadata err) (fun r w' => r = 0 ->
  err = 0 /\ (flushed_after Jbd2ForceCommit t w' \/ flushed_after FilemapWriteAndWaitAll t w')) w.
Proof.
  intros Ht. unfold commit_metadata. apply wp_bind, wp_gets. destruct (has_jbd2 (s_journal (w_sbi w))) eqn:Hj.
  - apply wp_bind. eapply wp_mono; [by apply (force_commit_flushes t)|]. intros r w' H. apply wp_ret.
    destruct (Z.eqb_spec err 0); intros Hr; [|done]. split; [done|]. left. by apply H.
  - destruct Ht as [mid E]. apply wp_bind, wp_kdo. intros r k _. apply wp_bind, wp_kdo. intros r2 k2 _. apply wp_ret.
    destruct (Z.eqb_spec err 0) as [->|He].
    + destruct (Z.eqb_spec r 0) as [->|Hr]; [|done]. intros ->. split; [done|]. right. exists [], mid. cbn. by rewrite E.
    + rewrite (proj2 (Z.eqb_neq err 0)) by done. done.
Qed.

End Fsync.

(** ** FIEMAP *)
Section Fiemap.
Context {K : Kernel}.

Fixpoint fiemap_entries (l : list extent) (i n s e : Z) : list (Z * Z * Z * Z) :=
  match l with
  | [] => []
  | x :: rest => match fiemap_entry i n s e x with
                 | Some y => y :: fiemap_entries rest (i + 1) n s e
                 | None => fiemap_entries rest (i + 1) n s e
                 end
  end.
Definition fill_call (y : Z * Z * Z * Z) : kcall * Z :=
  let '(logical, phys, len, flags) := y in (FiemapFill logical phys len flags, 0).

Lemma fiemap_loop_spec n s e l : forall i w,
  wp (fiemap_loop l i n s e) (fun r w' => file_view w' = file_view w /\
    (r = 0 -> w_trace w' = rev (map fill_call (fiemap_entries l i n s e)) ++ w_trace w)) w.
Proof.
  induction l as [|x l IH]; intros i w; cbn [fiemap_loop fiemap_entries]; [by apply wp_ret|].
  destruct (fiemap_entry i n s e x) as [[[[lo ph] len] fl]|]; [|apply IH].
  apply wp_bind, wp_kdo. intros r k _. set (w1 := set_w_trace _ _).
  destruct (Z.eqb_spec r 0) as [->|Hr]; cbn [negb]; [|by apply wp_ret].
  eapply wp_mono; [apply IH|]. intros r2 w2 [H1 H2]; cbn beta in *. split; [exact H1|]. intros Hr2.
  rewrite (H2 Hr2). cbn [map rev fill_call]. rewrite <- app_assoc. done.
Qed.

(** An entry describes blocks the tree maps, in the state the flag says. *)
Definition entry_maps (l : list extent) (y : Z * Z * Z * Z) : Prop :=
  let '(logical, phys, len, flags) := y in
  exists b p n u, logical = block_start b /\ phys = block_start p /\ len = block_start n /\ 0 < n /\
    (Z.testbit flags 11 = u) /\ forall k, 0 <= k < n -> maps l (b + k) (p + k) u.
(** An entry that covers block [b], mapped to [p] in state [u]. *)
Definition entry_covers (b p : Z) (u : bool) (y : Z * Z * Z * Z) : Prop :=
  let '(logical, phys, len, flags) := y in
  logical <= block_start b /\ block_start (b + 1) <= logical + len /\
  phys + (block_start b - logical) = block_start p /\ Z.testbit flags 11 = u.

Lemma block_start_mul b : block_start b = b * 4096.
Proof. unfold block_start, blkbits. by rewrite Z.shiftl_mul_pow2. Qed.

Lemma fiemap_flag (u c : bool) : Z.testbit (Z.lor (if u then FIEMAP_EXTENT_UNWRITTEN else 0) (if c then FIEMAP_EXTENT_LAST else 0)) 11 = u.
Proof. by destruct u, c. Qed.

Lemma fiemap_entry_spec i n s e x : nonempty x -> match fiemap_entry i n s e x with
  | Some y => entry_maps [x] y /\ (forall b p u, ext_maps x b p u -> entry_covers b p u y)
  | None => forall b p u, ext_maps x b p u -> block_start (b + 1) <= s \/ e <= block_start b
  end.
Proof.
  intros Hne. unfold fiemap_entry. pose proof (proj1 (nonempty_len x) Hne) as [H1 H2].
  rewrite (proj2 (Z.eqb_neq (ee_start x) 0)), (proj2 (Z.eqb_neq (simplefs_ext_len x) 0)) by lia. cbn [orb].
  rewrite !block_start_mul.
  destruct (Z.leb_spec (ee_block x * 4096 + simplefs_ext_len x * 4096) s), (Z.leb_spec e (ee_block x * 4096)); cbn [orb].
  1-3: (intros b p u (_ & Hb & _ & _); rewrite !block_start_mul; lia). split.
  - exists (ee_block x), (ee_start x), (simplefs_ext_len x), (simplefs_ext_unwritten x). rewrite !block_start_mul.
    split_and!; try lia; [apply fiemap_flag|]. intros k Hk. exists x. split; [by left|]. split_and!; [done|lia..|done].
  - intros b p u (_ & Hb & -> & ->). unfold entry_covers. rewrite !block_start_mul, fiemap_flag. split_and!; [lia..|done].
Qed.

Lemma fiemap_entries_spec n s e l : forall i, Forall nonempty l ->
  Forall (entry_maps l) (fiemap_entries l i n s e) /\
  (forall b p u, maps l b p u -> s < block_start (b + 1) -> block_start b < e -> Exists (entry_covers b p u) (fiemap_entries l i n s e)).
Proof.
  induction l as [|x l IH]; intros i Hne; cbn [fiemap_entries].
  { split; [constructor|]. intros b p u []%maps_nil. }
  apply Forall_cons in Hne as [Hx Hne]. destruct (IH (i + 1) Hne) as [I1 I2]. pose proof (fiemap_entry_spec i n s e x Hx) as Hy.
  assert (Hup : forall y, entry_maps l y -> entry_maps (x :: l) y).
  { intros [[[lo ph] len] fl] (b & p & k & u & E1 & E2 & E3 & E4 & E5 & E6). exists b, p, k, u. split_and!; try done.
    intros j Hj. apply maps_cons. right. by apply E6. }
  destruct (fiemap_entry i n s e x) as [y|].
  - destruct Hy as [Y1 Y2]. split.
    + constructor; [|by eapply Forall_impl]. destruct y as [[[lo ph] len] fl]. destruct Y1 as (b & p & k & u & E1 & E2 & E3 & E4 & E5 & E6).
      exists b, p, k, u. split_and!; try done. intros j Hj. destruct (E6 j Hj) as (z & [<-|[]] & Hz). exists x. split; [by left|done].
    + intros b p u [Hm|Hm]%maps_cons Hs He; apply Exists_cons; [left; by apply Y2|right; by apply I2].
  - split; [by eapply Forall_impl|]. intros b p u [Hm|Hm]%maps_cons Hs He; [|by apply I2].
    destruct (Hy b p u Hm); lia.
Qed.

(** FIEMAP reports the mapping of the file: when it succeeds, every entry it fills
    in describes blocks the extent tree maps, at their place and in the state the flag
    says, and every mapped block that meets the range is in an entry; nothing of the
    file changes. *)
Theorem fiemap_exact ino start len l leaves w : file_ok w ino l leaves ->
  wp (simplefs_fiemap ino 0 start len false) (fun r w' => file_view w' = file_view w /\
    (r = 0 -> exists entries w1 a, settled w w1 /\
       w_trace w' = (InodeUnlockShared ino, a) :: rev (map fill_call entries) ++ w_trace w1 /\
       Forall (entry_maps l) entries /\
       forall b p u, maps l b p u -> start < block_start (b + 1) -> block_start b < start + len ->
         Exists (entry_covers b p u) entries)) w.
Proof.
  intros Hf. unfold simplefs_fiemap. cbn [Z.eqb negb]. apply wp_bind, wp_gets, wp_bind.
  unfold call_ at 1. apply wp_bind, wp_kdo. intros r0 k0 _. apply wp_ret, wp_bind, wp_gets, wp_bind.
  set (w0 := set_w_trace _ _). assert (H0 : settled w w0) by (by split).
  apply (load_file ino l leaves); [by apply (settled_file w)|..].
  { intros r w' Hr [Hv _]. rewrite (proj2 (Z.eqb_neq r 0)) by lia. apply wp_bind, wp_ret, wp_bind. unfold call_.
    apply wp_bind, wp_kdo. intros r1 k1 _. apply wp_ret, wp_ret. split; [exact Hv|]. lia. }
  intros buf w1 Hx Hl Hs. cbn [Z.eqb negb]. apply wp_bind. eapply wp_mono; [apply fiemap_loop_spec|].
  intros r w' [H1 H2]; cbn beta in *. apply wp_bind. unfold call_. apply wp_bind, wp_kdo. intros r1 k1 _. apply wp_ret, wp_ret.
  split; [destruct Hs as [Hs _]; change (file_view w' = file_view w0); congruence|]. intros Hr.
  destruct (fiemap_entries_spec (nr_extents buf) start (start + len) l 0) as [E1 E2]; [apply Hf|].
  exists (fiemap_entries l 0 (nr_extents buf) start (start + len)), w1, r1. rewrite Hx in H2. split_and!; try done.
  cbn. by rewrite H2.
Qed.
End Fiemap.

(** ** Shutdown *)
Section Shutdown.
Context {K : Kernel} {PC : PageCache}.

(** Latched shut and read-only. *)
Definition shut (w : world) : Prop := s_shutdown (w_sbi w) = true /\ w_rdonly w = true.

Lemma shutdown_spec sf si flags w : s_shutdown (w_sbi w) = false ->
  wp (simplefs_shutdown sf si flags) (fun r w' =>
    (0 <= flags <= 2 -> shut w') /\ (~ 0 <= flags <= 2 -> r = - EINVAL /\ w' = w)) w.
Proof.
  intros Hd. unfold simplefs_shutdown, SIMPLEFS_GOING_DOWN_FULLSYNC, SIMPLEFS_GOING_DOWN_METASYNC, SIMPLEFS_GOING_DOWN_NOSYNC.
  apply wp_bind, wp_gets. rewrite Hd. apply wp_bind.
  assert (Hlatch : forall A (m : M A) w1, (forall I, IStable I -> preserves I m) -> s_shutdown (w_sbi w1) = true ->
    wp m (fun _ w2 => s_shutdown (w_sbi w2) = true) w1).
  { intros A m w1 Hm Hw. by apply (Hm _ shutdown_astable). }
  assert (Hend : forall r w1, s_shutdown (w_sbi w1) = true ->
    wp (run! modify (set_w_rdonly true) in ret r) (fun r w' =>
    (0 <= flags <= 2 -> shut w') /\ (~ 0 <= flags <= 2 -> r = - EINVAL /\ w' = w)) w1 \/ ~ 0 <= flags <= 2).
  { intros r w1 Hw. destruct (decide (0 <= flags <= 2)); [left|by right]. apply wp_bind, wp_modify, wp_ret. split; [by split|lia]. }
  destruct (Z.eqb_spec flags 0) as [->|H0]; [|destruct (Z.eqb_spec flags 1) as [->|H1]; [|destruct (Z.eqb_spec flags 2) as [->|H2]]].
  - apply wp_bind. eapply (wp_mono _ (fun _ _ => True)); [done|]. intros _ w1 _. apply wp_bind, wp_modify, wp_ret.
    destruct (Hend 0 (set_w_sbi (set_s_shutdown true (w_sbi w1)) w1) eq_refl); [done|lia].
  - apply wp_bind. eapply (wp_mono _ (fun _ _ => True)); [done|]. intros _ w1 _. apply wp_bind, wp_modify, wp_bind.
    eapply wp_mono; [apply Hlatch; [intros I HI; apply force_commit_pres; apply _|done]|]. intros r w2 Hw2; cbn beta in *.
    apply wp_bind. eapply wp_mono; [apply Hlatch; [intros I HI; pres|exact Hw2]|]. intros u w3 Hw3; cbn beta in *. apply wp_ret.
    destruct (Hend r w3 Hw3); [done|lia].
  - apply wp_bind, wp_modify, wp_bind. eapply wp_mono; [apply Hlatch; [intros I HI; pres|done]|].
    intros u w3 Hw3; cbn beta in *. apply wp_ret. destruct (Hend 0 w3 Hw3); [done|lia].
  - apply wp_ret, wp_ret. split; [lia|done].
Qed.

(** What a latched file system refuses, without an effect. *)
Lemma shut_refuses ino a z w : shut w ->
  simplefs_file_open ino w = (- EIO, w) /\ simplefs_file_fsync ino a z w = (- EIO, w) /\
  simplefs_file_splice_read ino w = (- EIO, w) /\ simplefs_write_inode ino w = (- EIO, w) /\
  simplefs_sync_fs (ret tt) true w = (- EIO, w).
Proof.
  intros [Hd _]. unfold simplefs_file_open, simplefs_file_fsync, simplefs_file_splice_read, simplefs_write_inode,
    simplefs_sync_fs, simplefs_is_shutdown, bind, gets. rewrite Hd. done.
Qed.
End Shutdown.

(** ** Truncation of a file whose pages are clean *)
Section Truncate.
Context {K : Kernel} {PC : PageCache}.

(** Nothing of the inode is dirty: writing it out and zeroing behind [size] does
    nothing to the file. *)
Definition cache_clean (ino size : Z) : Prop := forall w,
  settled w (snd (filemap_write_and_wait ino w)) /\ settled w (snd (iomap_truncate_page ino size w)).

Definition has_size (ino size : Z) (w : world) : Prop := i_size (inode_of w ino) = size.
#[export] Instance has_size_astable ino size : AStable (has_size ino size).
Proof. apply (inodes_astable (fun m => i_size (default default_inode (m !! ino)) = size)). Qed.
Lemma has_size_upd ino size f : (forall i, i_size (f i) = i_size i) -> preserves (has_size ino size) (upd_inode ino f).
Proof. intros H w Hw. unfold has_size, upd_inode, modify, inode_of in *. cbn. rewrite lookup_insert_eq. cbn. by rewrite H. Qed.

Lemma truncate_extents_size ino size n : preserves (has_size ino size) (truncate_extents ino n).
Proof.
  unfold truncate_extents, release_ranges. pres.
  - apply sync_extents_ipres; [apply _|]. intros v. by apply has_size_upd.
  - by apply has_size_upd.
Qed.

Lemma block_up_u32 size : 0 <= size <= SIMPLEFS_BLOCK_SIZE * U32_MAX -> 0 <= block_up size <= U32_MAX.
Proof.
  intros H. unfold block_up, blkbits, SIMPLEFS_BLOCK_SIZE, U32_MAX in *. rewrite Z.shiftr_div_pow2 by lia.
  change (2 ^ 12) with 4096. Z.to_euclidean_division_equations. lia.
Qed.

(** The tree afterwards: nothing new, everything below the new end, and nothing behind
    it unless only bytes of the last block were cut. *)
Definition cut (size old : Z) (l l' : list extent) : Prop :=
  (forall b p u, maps l' b p u -> maps l b p u) /\
  (forall b p u, maps l b p u -> b < block_up size -> maps l' b p u) /\
  (size = old \/ block_up size <> block_up old -> forall b p u, maps l' b p u -> b < block_up size).

(** A step that only calls the environment keeps the file and its size. *)
Lemma wp_held {A} (m : M A) (Q : A -> world -> Prop) ino size l leaves w :
  (forall I, KStable I -> preserves I m) -> file_ok w ino l leaves -> has_size ino size w ->
  (forall r w', file_ok w' ino l leaves -> has_size ino size w' -> Q r w') -> wp m Q w.
Proof.
  intros Hm Hf Hs HQ. apply HQ; [by apply (Hm _ (file_ok_kstable ino l leaves))|by apply (Hm (has_size ino size) _)].
Qed.

Lemma wp_clean {A} (m : M A) (Q : A -> world -> Prop) ino l leaves w : settled w (snd (m w)) -> file_ok w ino l leaves ->
  (forall r w', file_ok w' ino l leaves -> Q r w') -> wp m Q w.
Proof. intros H Hf HQ. apply HQ. by eapply settled_file. Qed.

Lemma call_settled c w : settled w (snd (call_ c w)).
Proof. unfold call_, bind, ret, kdo. by destruct (kstep _ c). Qed.

Lemma truncate_setsize_spec ino size l leaves w : file_ok w ino l leaves ->
  wp (truncate_setsize ino size) (fun _ w' => file_ok w' ino l leaves /\ has_size ino size w') w.
Proof.
  intros Hf. unfold truncate_setsize. apply wp_bind, wp_modify, wp_bind. eapply (wp_held _ _ ino size l leaves).
  - intros I HI. pres.
  - by apply (file_ok_upd w ino l leaves (set_i_size size)).
  - unfold has_size, inode_of. cbn. by rewrite lookup_insert_eq.
  - intros r w' H1 H2. by apply wp_ret.
Qed.

Lemma trunc_map_cut size old l l' : (forall b p u, maps l' b p u <-> exists b0, maps l b0 p u /\ trunc_map (block_up size) b0 = Some b) -> cut size old l l'.
Proof.
  intros Hm. unfold trunc_map in Hm. split_and!.
  - intros b p u (b0 & Hb & E)%Hm. destruct (b0 <? _); simplify_eq. done.
  - intros b p u Hb Hlt. apply Hm. exists b. split; [done|]. by rewrite (proj2 (Z.ltb_lt b (block_up size))).
  - intros _ b p u (b0 & Hb & E)%Hm. destruct (Z.ltb_spec b0 (block_up size)); simplify_eq. lia.
Qed.

(** shrinking a file whose pages are clean, when it succeeds: the size is the new
    one, the tree is sound, has lost nothing below the new end and gained nothing, and
    maps nothing behind the end unless only bytes of the last block were cut off. *)
Theorem file_shrinks ino size l leaves w : 0 <= size <= i_size (inode_of w ino) ->
  i_size (inode_of w ino) <= SIMPLEFS_BLOCK_SIZE * U32_MAX -> cache_clean ino size -> file_ok w ino l leaves ->
  wp (simplefs_truncate ino size) (fun r w' => r = 0 -> has_size ino size w' /\
    exists l' leaves', file_ok w' ino l' leaves' /\ cut size (i_size (inode_of w ino)) l l') w.
Proof.
  intros Hsize Hmax Hclean Hf. set (old := i_size (inode_of w ino)) in *. unfold simplefs_truncate.
  apply wp_bind, wp_gets. cbv zeta. fold old.
  pose proof (block_up_u32 size ltac:(lia)) as Hnb. pose proof (block_up_u32 old ltac:(lia)) as Hob.
  rewrite !u32_id by (unfold is_u32; lia).
  apply wp_bind, (wp_held _ _ ino old l leaves); [intros I HI; pres|done|exact eq_refl|]. intros r1 w1 Hf1 _.
  rewrite (proj2 (Z.ltb_ge old size)) by lia. apply wp_bind, wp_gets, wp_bind, wp_modify.
  assert (Hf2 : file_ok (snd (upd_inode ino (truncate_prealloc (block_up size)) w1)) ino l leaves).
  { apply (file_ok_upd w1 ino l leaves (truncate_prealloc (block_up size))); [|done]. intros i. unfold truncate_prealloc.
    destruct (_ =? 0); [done|]. destruct (_ <=? _); [done|]. by destruct (_ <? _). }
  apply wp_bind, (wp_clean _ _ ino l leaves); [apply Hclean|exact Hf2|]. intros r w3 Hf3.
  apply wp_bind, (wp_held _ _ ino (i_size (inode_of w3 ino)) l leaves); [intros I HI; pres|done|exact eq_refl|]. intros r4 w4 Hf4 _.
  destruct (negb (r =? 0)) eqn:Er; [apply wp_ret; intros ->; done|].
  apply wp_bind, (wp_clean _ _ ino l leaves); [apply call_settled|exact Hf4|]. intros u5 w5' Hf4'.
  apply wp_bind, (wp_clean _ _ ino l leaves); [apply Hclean|exact Hf4'|]. intros r5 w5 Hf5.
  assert (Hout : forall (r : Z) w6 (Q : Z -> world -> Prop), (forall w', settled w6 w' -> has_size ino (i_size (inode_of w6 ino)) w' -> Q r w') ->
    wp (run! call_ (InvalidateUnlock ino) in ret r) Q w6).
  { intros r6 w6 Q HQ. apply wp_bind. unfold wp at 1. apply wp_ret, HQ; [apply call_settled|]. unfold call_, has_size, inode_of, kdo, bind, ret.
    by destruct (kstep _ _). }
  destruct (Z.eqb_spec r5 0) as [->|Hr5]; cbn [negb]; [|apply Hout; intros w' _ _; done].
  apply wp_bind. eapply wp_mono; [by apply truncate_setsize_spec|]. intros u7 w7 [Hf7 Hs7]; cbn beta in *.
  destruct (negb (size =? old) && (block_up size =? block_up old) && negb _) eqn:Eshort.
  - apply andb_true_iff in Eshort as [Eshort _]. apply andb_true_iff in Eshort as [E1 E2].
    apply negb_true_iff, Z.eqb_neq in E1. apply Z.eqb_eq in E2.
    apply wp_bind, (wp_held _ _ ino size l leaves); [intros I HI; pres|done|done|]. intros r8 w8 Hf8 Hs8.
    apply Hout. intros w' Hset Hsz _. unfold has_size in Hs8. rewrite Hs8 in Hsz. split; [done|].
    exists l, leaves. split; [by apply (settled_file w8)|]. split_and!; [done|done|]. intros [?|?]; done.
  - apply wp_bind. eapply wp_mono.
    { apply wp_conj; [apply (truncate_extents_spec ino (block_up size) l leaves w7); [lia|done]|].
      apply (wp_pres (has_size ino size)); [apply truncate_extents_size|done]. }
    intros r8 w8 [[_ H8] Hs8]; cbn beta in *. destruct (Z.eqb_spec r8 0) as [->|Hr8]; cbn [negb]; [|apply Hout; intros w' _ _; done].
    destruct (H8 eq_refl) as (l' & lv & Hf8 & Hm & _).
    apply wp_bind, (wp_held _ _ ino size l' lv); [intros I HI; pres|done|done|]. intros r9 w9 Hf9 Hs9.
    apply Hout. intros w' Hset Hsz _. unfold has_size in Hs9. rewrite Hs9 in Hsz. split; [done|].
    exists l', lv. split; [by apply (settled_file w9)|]. by apply trunc_map_cut.
Qed.
End Truncate.
