(* ===== verification/FileIo.v ===== *)
(** * FileIo: reading, writing and write-back of file data (simplefs_file.c)

    The entry points of a read, a write and a page fault with their guards, the
    direct write with its retries on pinned user pages and its fall-back to the page
    cache, and the completion of write-back.  The data itself is moved by the kernel:
    the calls that do so are the class [DataPath], what is documented of their
    results the class [DataLaws] of FileIoSpec. *)

From stdpp Require Import base list numbers gmap.
From S2P Require Import Prelude Image Layout Kernel DiskFormat Discard Journal MetaBuf.
From S2P Require Import Alloc Retire ExtentBuf ExtentTree Owned Errno InodeTable.
From S2P Require Import FileRange FileMap FileWrite FileZero Super FileOps.

Local Open Scope Z_scope.
Local Open Scope fs_scope.

Definition ENOTBLK : Z := 15.
Definition VM_FAULT_SIGBUS : Z := 2.
Definition PAGE_SHIFT : Z := 12.
Definition PAGE_SIZE : Z := 4096.
Definition SIMPLEFS_DIO_MAX_BYTES : Z := 67108864.

(** The parts of [struct kiocb], [struct iov_iter] and [struct bio_vec] the code reads. *)
Record kiocb := Kiocb { ki_pos : Z; ki_direct : bool; ki_nowait : bool }.
Record iov_iter := IovIter { it_count : Z; it_align : Z; it_user : bool }.
Record bio_vec := BioVec { bv_page : Z; bv_offset : Z; bv_len : Z }.

(** A transfer: what it returns, the position behind it and the bytes left. *)
Record transfer := Transfer { t_ret : Z; t_pos : Z; t_left : Z }.

Class DataPath {K : Kernel} := {
  generic_write_checks : Z -> kiocb -> Z -> M transfer;         (* inode, position and flags, bytes *)
  iomap_dio_rw : Z -> Z -> Z -> bool -> Z -> M transfer;        (* inode, position, bytes, wait, done before *)
  iomap_file_buffered_write : Z -> Z -> Z -> M transfer;        (* inode, position, bytes *)
  iov_iter_extract_bvecs : Z -> M (Z * list bio_vec);           (* at most so many bytes *)
  generic_write_sync : Z -> Z -> Z -> M Z;                      (* inode, position, bytes *)
  iomap_dio_read : Z -> Z -> Z -> M Z;
  filemap_read : Z -> Z -> Z -> M Z;
  iomap_page_mkwrite : Z -> M Z
}.

(** The pages of a vector, as many as its bytes touch. *)
Definition bvec_pages (b : bio_vec) : list Z :=
  let nr_pages := u32 ((bv_offset b + bv_len b + PAGE_SIZE - 1) / PAGE_SIZE) in
  map (fun j => bv_page b + Z.of_nat j) (seq 0 (Z.to_nat nr_pages)).

Definition misaligned (pos count align blocksize : Z) : bool :=
  negb (Z.land (Z.lor pos (Z.lor count align)) (blocksize - 1) =? 0).

Section Io.
Context {K : Kernel} {PC : PageCache} {DP : DataPath}.

Definition simplefs_file_read_iter (ino : Z) (iocb : kiocb) (to : iov_iter) : M Z :=
  if it_count to =? 0 then ret 0 else
  let! down := simplefs_is_shutdown in
  if down then ret (- EIO) else
  if ki_direct iocb then
    let! blocksize := kdo BdevLogicalBlockSize in
    if misaligned (ki_pos iocb) (it_count to) (it_align to) blocksize then ret (- EINVAL) else
    let! r := filemap_write_and_wait_range ino (ki_pos iocb) (ki_pos iocb + it_count to - 1) in
    if negb (r =? 0) then ret r else
    iomap_dio_read ino (ki_pos iocb) (it_count to)
  else filemap_read ino (ki_pos iocb) (it_count to).

Definition simplefs_unpin_bvecs (bvecs : list bio_vec) : M unit :=
  each_list bvecs (fun b => each_list (bvec_pages b) (fun p => call_ (UnpinUserPage p))).

(** One transfer of [dio_retry]; [inl] goes to [dio_unlock]. *)
Definition dio_pinned (ino pos count written : Z) : M (Z + transfer) :=
  let! (extracted, bvecs) := iov_iter_extract_bvecs (Z.min count SIMPLEFS_DIO_MAX_BYTES) in
  if extracted <=? 0 then ret (inl (if extracted =? 0 then - EFAULT else extracted)) else
  run! call_ (InvalidateLock ino) in
  let! t := iomap_dio_rw ino pos extracted true written in
  run! call_ (InvalidateUnlock ino) in
  let consumed := extracted - t_left t in
  run! simplefs_unpin_bvecs bvecs in
  ret (inr (Transfer (t_ret t) (t_pos t) (count - consumed))).

Definition dio_plain (ino pos count written : Z) (guarded_dio : bool) : M (Z + transfer) :=
  run! when guarded_dio (call_ (InvalidateLock ino)) in
  let! t := iomap_dio_rw ino pos count guarded_dio written in
  run! when guarded_dio (call_ (InvalidateUnlock ino)) in
  ret (inr t).

(** The loop at [dio_retry] up to the fall-back: the code so far, the position and the
    bytes left.  [None] when the fuel runs out. *)
Fixpoint dio_retry (fuel : nat) (ino pos count written : Z) (guarded_dio bvecs : bool) : M (option transfer) :=
  match fuel with
  | O => ret None
  | S fuel' =>
      let! step := (if bvecs then dio_pinned ino pos count written
                    else dio_plain ino pos count written guarded_dio) in
      match step with
      | inl e => ret (Some (Transfer e pos count))
      | inr t =>
          let r := if t_ret t =? - ENOTBLK then 0 else t_ret t in
          let written := if 0 <? r then r else written in
          if (0 <? r) && negb (t_left t =? 0) then
            dio_retry fuel' ino (t_pos t) (t_left t) written guarded_dio bvecs
          else ret (Some (Transfer (if r <? 0 then r else written) (t_pos t) (t_left t)))
      end
  end.

(** What is left goes through the page cache, and out of it. *)
Definition dio_fallback (ino : Z) (t : transfer) : M transfer :=
  if (0 <=? t_ret t) && negb (t_left t =? 0) then
    let pos := t_pos t in
    let! b := iomap_file_buffered_write ino pos (t_left t) in
    if t_ret b <? 0 then ret b else
    if 0 <? t_ret b then
      let endbyte := pos + t_ret b - 1 in
      let! writeback_status := filemap_write_and_wait_range ino pos endbyte in
      run! when (writeback_status =? 0)
        (call_ (InvalidateMappingPages ino (Z.shiftr pos PAGE_SHIFT) (Z.shiftr endbyte PAGE_SHIFT))) in
      ret (Transfer (t_ret t + t_ret b) (t_pos b) (t_left b))
    else ret (Transfer (t_ret t) (t_pos b) (t_left b))
  else ret t.

(** From the checks to [dio_unlock]. *)
Definition dio_body (ino pos count : Z) (user : bool) : M (option transfer) :=
  let leave r := ret (Some (Transfer r pos count)) in
  let! ci := get_inode ino in
  let! r := (if negb (prealloc_len ci =? 0) then simplefs_discard_prealloc ino else ret 0) in
  if negb (r =? 0) then leave r else
  let! i := get_inode ino in
  let old_size := i_size i in
  let! r := (if old_size <? pos then simplefs_zero_partial_gap ino old_size (pos - old_size) else ret 0) in
  if negb (r =? 0) then leave r else
  let! mapped := kdo (MappingMapped ino) in
  let guarded_dio := negb (mapped =? 0) in
  let! ok := (if guarded_dio && user then kmalloc else ret true) in
  if negb ok then leave (- ENOMEM) else
  let! t := dio_retry (S (Z.to_nat count)) ino pos count 0 guarded_dio (guarded_dio && user) in
  match t with
  | None => ret None
  | Some t => let! t := dio_fallback ino t in ret (Some t)
  end.

Definition write_sync (ino : Z) (t : transfer) : M Z :=
  if 0 <? t_ret t then generic_write_sync ino (t_pos t) (t_ret t) else ret (t_ret t).

(** [None]: the loop has not ended. *)
Definition simplefs_file_write_iter (ino : Z) (iocb : kiocb) (from : iov_iter) : M (option Z) :=
  let leave r := run! call_ (InodeUnlock ino) in ret (Some r) in
  if it_count from =? 0 then ret (Some 0) else
  let! down := simplefs_is_shutdown in
  if down then ret (Some (- EIO)) else
  if ki_nowait iocb && negb (ki_direct iocb) then ret (Some (- EOPNOTSUPP)) else
  if ki_direct iocb then
    let! blocksize := kdo BdevLogicalBlockSize in
    run! call_ (InodeLock ino) in
    if misaligned (ki_pos iocb) (it_count from) (it_align from) blocksize then leave (- EINVAL) else
    let! c := generic_write_checks ino iocb (it_count from) in
    if t_ret c <=? 0 then leave (t_ret c) else
    let! r := kdo (FileModified ino) in
    if negb (r =? 0) then leave r else
    let! t := dio_body ino (t_pos c) (t_left c) (it_user from) in
    run! call_ (InodeUnlock ino) in
    match t with
    | None => ret None
    | Some t => let! r := write_sync ino t in ret (Some r)
    end
  else
    run! call_ (InodeLock ino) in
    let! c := generic_write_checks ino iocb (it_count from) in
    if t_ret c <=? 0 then leave (t_ret c) else
    let! r := kdo (FileModified ino) in
    if negb (r =? 0) then leave r else
    let! b := iomap_file_buffered_write ino (t_pos c) (t_left c) in
    run! call_ (InodeUnlock ino) in
    let! r := write_sync ino b in ret (Some r).

Definition simplefs_page_mkwrite (ino : Z) : M Z :=
  let! down := simplefs_is_shutdown in
  if down then ret VM_FAULT_SIGBUS else
  run! kdo (FileUpdateTime ino) in
  run! call_ (InvalidateLockShared ino) in
  let! r := iomap_page_mkwrite ino in
  run! call_ (InvalidateUnlockShared ino) in
  ret r.

(** ** Write-back *)

Record ioend := Ioend { io_offset : Z; io_size : Z; io_unwritten : bool }.

(** The result, and whether a completion was attached to the ioend: then its end is
    counted in [writeback_ioends] and runs [simplefs_finish_ioend_work]. *)
Definition simplefs_writeback_submit (ino : Z) (io : ioend) (error : Z) : M (Z * bool) :=
  run! when (negb (error =? 0) && negb (error =? - ENOSPC)) (upd_sbi (set_s_shutdown true)) in
  if negb (error =? 0) || negb (io_unwritten io) then
    let! r := kdo (IoendWritebackSubmit ino error) in ret (r, false)
  else
  let! ok := kmalloc in
  if negb ok then let! r := kdo (IoendWritebackSubmit ino (- ENOMEM)) in ret (r, false) else
  let! r := kdo (IoendWritebackSubmit ino 0) in ret (r, true).

(** Write-back of one inode beside everything else.  [writeback_ioends] is the counter of
    the inode; [wb_bios] are the ioends in flight that carry a completion, [wb_works]
    those whose work item is scheduled, with the device's status; [wb_submitted] and
    [wb_done] record what was submitted and what was finished, with its code. *)
Record wb_state := Wb {
  wb_world : world;
  writeback_ioends : Z;
  wb_bios : list ioend;
  wb_works : list (ioend * Z);
  wb_submitted : list ioend;
  wb_done : list (ioend * Z)
}.

Definition wb_start (w : world) : wb_state := Wb w 0 [] [] [] [].

(** [simplefs_writeback_submit] with the counter. *)
Definition wb_submit (ino : Z) (io : ioend) (error : Z) (s : wb_state) : wb_state :=
  let '((_, attached), w') := simplefs_writeback_submit ino io error (wb_world s) in
  if attached : bool
  then Wb w' (writeback_ioends s + 1) (io :: wb_bios s) (wb_works s) (io :: wb_submitted s) (wb_done s)
  else Wb w' (writeback_ioends s) (wb_bios s) (wb_works s) (wb_submitted s) (wb_done s).

(** [simplefs_finish_ioend_work] with the counter. *)
Definition wb_finish (ino : Z) (io : ioend) (status : Z) (works : list (ioend * Z)) (s : wb_state) : wb_state :=
  let '(error, w') := simplefs_finish_ioend_work ino (io_offset io) (io_size io) status (io_unwritten io) (wb_world s) in
  Wb w' (writeback_ioends s - 1) (wb_bios s) works (wb_submitted s) ((io, error) :: wb_done s).

(** [simplefs_wait_ioend_conversions] returns in such a state. *)
Definition wait_passes (s : wb_state) : bool := writeback_ioends s =? 0.
End Io.
