(* ===== verification/FileIoSpec.v ===== *)
(** * FileIoSpec: what the write path and write-back promise

    A write releases every lock it takes and every page it pins, reports the bytes it
    consumed and ends; waiting for write-back means that every conversion of unwritten
    blocks has been made. *)

From stdpp Require Import base list numbers gmap relations.
From S2P Require Import Prelude Image Layout Kernel DiskFormat Discard Journal MetaBuf.
From S2P Require Import Alloc Retire ExtentBuf ExtentTree Owned Errno InodeTable.
From S2P Require Import FileRange FileMap FileWrite FileZero Super FileOps FileOpsSpec FileIo.

Local Open Scope Z_scope.
Local Open Scope fs_scope.

(** ** The kernel's side of the data path *)

Section Laws.
Context {K : Kernel} {PC : PageCache} {DP : DataPath}.

(** One step of the kernel while it moves data of [ino]. *)
Inductive io_step (ino : Z) : world -> world -> Prop :=
  | io_callback w w' : callback ino w w' -> io_step ino w w'
  | io_write_begin offset len create direct w :
      io_step ino w (snd (simplefs_write_iomap_begin ino offset len create direct w))
  | io_write_end offset written im w : io_step ino w (snd (simplefs_write_iomap_end ino offset written im w))
  | io_dio_end pos size error unwritten w :
      io_step ino w (snd (simplefs_file_dio_write_end_io ino pos size error unwritten w))
  | io_fsync start end_ w : io_step ino w (snd (simplefs_file_fsync ino start end_ w)).

Definition through {A} (ino : Z) (m : M A) : Prop := forall w, rtc (io_step ino) w (snd (m w)).

(** The pages a successful extraction has pinned. *)
Definition pins (res : Z * list bio_vec) : list Z :=
  if fst res <=? 0 then [] else concat (map bvec_pages (snd res)).
Definition pin_pages (l : list Z) : M unit := each_list l (fun p => call_ (PinUserPage p)).

(** The documented results: a transfer that reports bytes reports those done before
    plus those it took from the iterator, and took some; one that reports none, or asks for the
    fall-back, took none; an extraction pins the pages of the vectors it returns. *)
Class DataLaws : Prop := {
  dl_checks : forall ino iocb n, through ino (generic_write_checks ino iocb n);
  dl_dio : forall ino pos n wait before, through ino (iomap_dio_rw ino pos n wait before);
  dl_buffered : forall ino pos n, through ino (iomap_file_buffered_write ino pos n);
  dl_sync : forall ino pos n, through ino (generic_write_sync ino pos n);
  dl_mkwrite : forall ino, through ino (iomap_page_mkwrite ino);
  dl_extract : forall n w, snd (iov_iter_extract_bvecs n w) = snd (pin_pages (pins (fst (iov_iter_extract_bvecs n w))) w);
  dl_extract_max : forall n w, fst (fst (iov_iter_extract_bvecs n w)) <= n;
  dl_dio_ret : forall ino pos n wait before w, 0 <= before -> let t := fst (iomap_dio_rw ino pos n wait before w) in
    (0 < t_ret t -> t_ret t = before + (n - t_left t) /\ 0 <= t_left t < n) /\
    (t_ret t = 0 \/ t_ret t = - ENOTBLK -> t_left t = n);
  dl_buffered_ret : forall ino pos n w, let t := fst (iomap_file_buffered_write ino pos n w) in
    0 <= t_ret t -> t_ret t = n - t_left t
}.
End Laws.

(** ** Locks and pins *)

Inductive claim := InodeHeld (ino : Z) | InvalidateHeld (ino : Z) | PageHeld (page : Z).
#[export] Instance claim_eq_dec : EqDecision claim.
Proof. solve_decision. Defined.

Definition unit_of (k k' : claim) : Z := if decide (k = k') then 1 else 0.
Definition weight (k : claim) (c : kcall) : Z :=
  match c with
  | InodeLock i | InodeLockShared i => unit_of k (InodeHeld i)
  | InodeUnlock i | InodeUnlockShared i => - unit_of k (InodeHeld i)
  | InvalidateLock i | InvalidateLockShared i => unit_of k (InvalidateHeld i)
  | InvalidateUnlock i | InvalidateUnlockShared i => - unit_of k (InvalidateHeld i)
  | PinUserPage p => unit_of k (PageHeld p)
  | UnpinUserPage p => - unit_of k (PageHeld p)
  | _ => 0
  end.
(** How often [k] is held after the calls of [t]. *)
Definition balance (k : claim) (t : list (kcall * Z)) : Z := foldr (fun c n => weight k (fst c) + n) 0 t.

Section Balance.
Context {K : Kernel} (k : claim).

Definition holds (n : Z) (w : world) : Prop := balance k (w_trace w) = n.
Definition moves {A} (d : Z) (m : M A) : Prop :=
  forall w, balance k (w_trace (snd (m w))) = balance k (w_trace w) + d.

Lemma kdo_balance c w : balance k (w_trace (snd (kdo c w))) = balance k (w_trace w) + weight k c.
Proof. unfold kdo. destruct (kstep _ c) as [r s]. apply Z.add_comm. Qed.

#[export] Instance holds_istable n : IStable (holds n).
Proof.
  split; [split; [split; [split|]|split|]|]; unfold holds.
  - intros c Hc w Hw. rewrite kdo_balance. destruct c; try done; cbn; lia.
  - intros h b w _ Hw. rewrite kdo_balance. cbn. lia.
  - intros f w Hw. exact Hw.
  - intros w Hw. exact Hw.
  - intros b v w Hw. exact Hw.
  - intros f w Hw. exact Hw.
  - intros b w Hw. exact Hw.
  - intros f _ _ w Hw. exact Hw.
  - intros f w Hw. exact Hw.
Qed.

Lemma moves_pres {A} (m : M A) : (forall n, preserves (holds n) m) -> moves 0 m.
Proof. intros H w. rewrite (H (balance k (w_trace w)) w); [lia|done]. Qed.
Lemma moves_ret {A} (a : A) : moves 0 (ret a).
Proof. intros w. cbn. lia. Qed.
Lemma moves_dep {A B} (m : M A) (f : A -> M B) (d : A -> Z) e :
  (forall w, balance k (w_trace (snd (m w))) = balance k (w_trace w) + d (fst (m w))) ->
  (forall a, moves (e - d a) (f a)) -> moves e (bind m f).
Proof.
  intros H1 H2 w. unfold bind. specialize (H1 w). destruct (m w) as [a w1]; cbn in H1. rewrite (H2 a). lia.
Qed.
Lemma moves_bind {A B} d1 d2 (m : M A) (f : A -> M B) d : moves d1 m -> (forall a, moves d2 (f a)) -> d = d1 + d2 ->
  moves d (bind m f).
Proof. intros H1 H2 ->. apply (moves_dep _ _ (fun _ => d1)); [apply H1|]. intros a. by replace (d1 + d2 - d1) with d2 by lia. Qed.
Lemma moves_call c : moves (weight k c) (call_ c).
Proof. unfold call_. apply (moves_bind (weight k c) 0); [intros w; apply kdo_balance|intros; apply moves_ret|lia]. Qed.
Lemma moves_when b c : moves (if b : bool then weight k c else 0) (when b (call_ c)).
Proof. destruct b; [apply moves_call|apply moves_ret]. Qed.

Definition pages_held (l : list Z) : Z := foldr (fun p n => unit_of k (PageHeld p) + n) 0 l.
Lemma pages_held_app l l' : pages_held (l ++ l') = pages_held l + pages_held l'.
Proof. unfold pages_held. induction l as [|p l IH]; cbn; [done|]. rewrite IH. lia. Qed.

Lemma pin_moves l : moves (pages_held l) (pin_pages l).
Proof.
  induction l as [|p l IH]; cbn; [apply moves_ret|].
  eapply moves_bind; [apply moves_call|intros; apply IH|done].
Qed.
Lemma unpin_moves bv : moves (- pages_held (concat (map bvec_pages bv))) (simplefs_unpin_bvecs bv).
Proof.
  assert (H : forall l, moves (- pages_held l) (each_list l (fun p => call_ (UnpinUserPage p)))).
  { induction l as [|p l IH]; cbn [each_list]; [apply moves_ret|].
    eapply moves_bind; [apply moves_call|intros; apply IH|unfold pages_held; cbn; lia]. }
  induction bv as [|b bv IH]; cbn [each_list]; [apply moves_ret|].
  eapply moves_bind; [apply H|intros; apply IH|]. cbn [map concat]. rewrite pages_held_app. lia.
Qed.
End Balance.

(** ** A write gives back what it took *)
Section Release.
Context {K : Kernel} {PC : PageCache} {TC : ThroughCallbacks} {DP : DataPath} {DL : DataLaws}.

Context (k : claim).
Lemma stable_moves {A} (m : M A) : (forall I, FStable I -> preserves I m) -> moves k 0 m.
Proof. intros H. apply moves_pres. intros n. apply H, _. Qed.

(** Taking a lock, and releasing it on the way out. *)
Lemma unlock_moves {A} c (r : A) : moves k (weight k c) (run! call_ c in ret r).
Proof. eapply moves_bind; [apply moves_call|intros; apply moves_ret|lia]. Qed.
Lemma lock_moves {A} c c' (m : M A) : weight k c + weight k c' = 0 -> moves k (weight k c') m ->
  moves k 0 (run! call_ c in m).
Proof. intros E H. eapply moves_bind; [apply moves_call|intros _; exact H|lia]. Qed.
Lemma invalidate_moves {A} ino (m : M A) : moves k (weight k (InvalidateUnlock ino)) m ->
  moves k 0 (run! call_ (InvalidateLock ino) in m).
Proof. apply lock_moves. cbn. lia. Qed.
Lemma inode_moves {A} ino (m : M A) : moves k (weight k (InodeUnlock ino)) m ->
  moves k 0 (run! call_ (InodeLock ino) in m).
Proof. apply lock_moves. cbn. lia. Qed.
Lemma neutral_moves {A B} d (m : M A) (f : A -> M B) : moves k 0 m -> (forall a, moves k d (f a)) -> moves k d (bind m f).
Proof. intros H1 H2. by apply (moves_bind k 0 d). Qed.

Create HintDb moves.
Local Hint Extern 4 (moves _ 0 (ret _)) => apply moves_ret : moves.
Local Hint Extern 5 (moves _ 0 _) => (apply moves_pres; intros; solve [pres]) : moves.
Ltac moving :=
  cbv zeta;
  repeat match goal with
  | |- moves _ _ (bind (call_ (InvalidateUnlock _)) _) => apply unlock_moves
  | |- moves _ _ (bind (call_ (InodeUnlock _)) _) => apply unlock_moves
  | |- moves _ 0 (bind (call_ (InvalidateLock _)) _) => apply invalidate_moves
  | |- moves _ 0 (bind (call_ (InodeLock _)) _) => apply inode_moves
  | |- moves _ _ (bind _ _) => apply neutral_moves; [|intros ?]
  | |- moves _ _ (match ?x with _ => _ end) => destruct x
  | |- moves _ 0 _ => solve [eauto 2 with moves]
  end.

Local Hint Extern 3 (moves _ 0 (filemap_write_and_wait _)) => (apply stable_moves; intros; by apply wait_pres) : moves.
Local Hint Extern 3 (moves _ 0 (filemap_write_and_wait_range _ _ _)) => (apply stable_moves; intros; by apply wait_range_pres) : moves.
Local Hint Extern 3 (moves _ 0 (iomap_zero_range _ _ _)) => (apply stable_moves; intros; by apply zero_pres) : moves.
Local Hint Extern 3 (moves _ 0 (iomap_truncate_page _ _)) => (apply stable_moves; intros; by apply page_pres) : moves.
Local Hint Extern 3 (moves _ 0 (write_inode_now _)) => (apply stable_moves; intros; by apply now_pres) : moves.
Local Hint Extern 3 (moves _ 0 (sync_inode_metadata _)) => (apply stable_moves; intros; by apply sync_pres) : moves.
Local Hint Extern 3 (moves _ 0 (simplefs_zero_partial_gap _ _ _)) => (apply stable_moves; intros; by apply gap_fpres) : moves.
Local Hint Extern 3 (moves _ 0 (truncate_setsize _ _)) => (apply stable_moves; intros; by apply setsize_fpres) : moves.
Local Hint Extern 3 (moves _ 0 (truncate_extents _ _)) => (apply stable_moves; intros; by apply truncate_extents_fpres) : moves.
Local Hint Extern 3 (moves _ 0 (punch_extents _ _ _)) => (apply stable_moves; intros; by apply punch_extents_fpres) : moves.
Local Hint Extern 3 (moves _ 0 (collapse_extents _ _ _ _)) => (apply stable_moves; intros; by apply collapse_extents_fpres) : moves.
Local Hint Extern 3 (moves _ 0 (insert_extents _ _ _ _)) => (apply stable_moves; intros; by apply insert_extents_fpres) : moves.
Local Hint Extern 3 (moves _ 0 (simplefs_zero_range_full_blocks _ _ _)) => (apply stable_moves; intros; by apply zero_full_fpres) : moves.
Local Hint Extern 3 (moves _ 0 (prealloc_loop _ _ _ _)) => (apply stable_moves; intros; by apply prealloc_loop_fpres) : moves.
Local Hint Extern 3 (moves _ 0 (when _ _)) => (unfold when; moving) : moves.
Local Hint Extern 3 (moves _ 0 (simplefs_touch_mctime _)) => (unfold simplefs_touch_mctime; moving) : moves.

Lemma truncate_moves ino size : moves k 0 (simplefs_truncate ino size).
Proof. unfold simplefs_truncate. moving. Qed.
Lemma punch_hole_moves ino o n v : moves k 0 (simplefs_fallocate_punch_hole ino o n v).
Proof. unfold simplefs_fallocate_punch_hole. moving. Qed.
Local Hint Resolve truncate_moves punch_hole_moves : moves.
Lemma discard_prealloc_moves ino : moves k 0 (simplefs_discard_prealloc ino).
Proof. unfold simplefs_discard_prealloc. moving. Qed.
Local Hint Resolve discard_prealloc_moves : moves.
Lemma discard_locked_moves ino : moves k 0 (discard_locked ino).
Proof. unfold discard_locked. moving. Qed.
Local Hint Resolve discard_locked_moves : moves.
Lemma fsync_moves ino a z : moves k 0 (simplefs_file_fsync ino a z).
Proof. unfold simplefs_file_fsync, commit_metadata, simplefs_is_shutdown. moving. Qed.
Lemma prealloc_moves ino m o n : moves k 0 (simplefs_fallocate_prealloc ino m o n).
Proof. unfold simplefs_fallocate_prealloc. moving. Qed.

(** Dropping the pages that move keeps the lock exactly when it succeeds. *)
Lemma flush_moves {A} ino o (f : M A) :
  moves k (weight k (InvalidateUnlock ino)) f ->
  forall (g : Z -> M A), (forall r, moves k 0 (g r)) ->
  moves k 0 (let! r := flush_and_drop ino o in if negb (r =? 0) then g r else f).
Proof.
  intros Hf g Hg. apply (moves_dep k _ _ (fun r => if negb (r =? 0) then 0 else - weight k (InvalidateUnlock ino))).
  - assert (Hwp : forall B (m : M B) d w, moves k d m -> wp m (fun _ w' => balance k (w_trace w') = balance k (w_trace w) + d) w)
      by (intros B m d w H; apply H).
    intros w. change (wp (flush_and_drop ino o) (fun r w' => balance k (w_trace w') = balance k (w_trace w) +
      (if negb (r =? 0) then 0 else - weight k (InvalidateUnlock ino))) w). unfold flush_and_drop.
    apply wp_bind. eapply wp_mono; [apply Hwp, moves_call|]. intros u w1 H1.
    apply wp_bind. eapply wp_mono; [apply (Hwp _ _ 0); eauto 2 with moves|]. intros r w2 H2.
    apply wp_bind. eapply wp_mono; [apply (Hwp _ _ 0); eauto 2 with moves|]. intros r1 w3 H3. cbn beta in *.
    destruct (negb (r =? 0)) eqn:Hr; apply wp_bind;
      (eapply wp_mono; [first [apply Hwp, moves_call|apply (Hwp _ _ 0); eauto 2 with moves]|]); intros u4 w4 H4; apply wp_ret;
      cbn in *; rewrite ?Hr; lia.
  - intros r. destruct (negb (r =? 0)); [apply Hg|]. replace (0 - _) with (weight k (InvalidateUnlock ino)) by lia. exact Hf.
Qed.

Lemma collapse_moves ino o n : moves k 0 (simplefs_fallocate_collapse ino o n).
Proof.
  unfold simplefs_fallocate_collapse. destruct (_ || _); [apply moves_ret|]. apply neutral_moves; [moving|]. intros i.
  destruct (_ <? _); [apply moves_ret|]. apply (flush_moves ino o) with (g := ret); [moving|]. intros; apply moves_ret.
Qed.
Lemma insert_moves ino o n : moves k 0 (simplefs_fallocate_insert ino o n).
Proof.
  unfold simplefs_fallocate_insert. destruct (_ || _); [apply moves_ret|]. apply neutral_moves; [moving|]. intros i.
  destruct (_ <? _); [apply moves_ret|]. apply neutral_moves; [moving|]. intros r. destruct (negb _); [apply moves_ret|].
  apply (flush_moves ino o) with (g := ret); [moving|]. intros; apply moves_ret.
Qed.
Lemma zero_blocks_moves ino o n : moves k 0 (zero_blocks ino o n).
Proof. unfold zero_blocks. moving. Qed.
Local Hint Resolve prealloc_moves collapse_moves insert_moves zero_blocks_moves : moves.
Lemma zero_range_moves ino m o n : moves k 0 (simplefs_fallocate_zero_range ino m o n).
Proof. unfold simplefs_fallocate_zero_range. moving. Qed.
Local Hint Resolve zero_range_moves : moves.
Lemma fallocate_moves ino m o n : moves k 0 (simplefs_fallocate ino m o n).
Proof. unfold simplefs_fallocate. moving. Qed.

Lemma through_moves {A} ino (m : M A) : through ino m -> moves k 0 m.
Proof.
  intros H w. specialize (H w). induction H as [v|v v' v'' Hs _ IH]; [lia|]. rewrite IH. clear IH.
  enough (E : balance k (w_trace v') = balance k (w_trace v)) by lia. destruct Hs.
  - by eapply (callback_fpres (holds k _)).
  - by apply (write_begin_fpres (holds k _)).
  - by apply (write_end_fpres (holds k _)).
  - by apply (dio_end_fpres (holds k _)).
  - rewrite (fsync_moves ino start end_ _). lia.
Qed.

Lemma dio_pinned_moves ino pos n wr : moves k 0 (dio_pinned ino pos n wr).
Proof.
  unfold dio_pinned. eapply (moves_dep k _ _ (fun res => pages_held k (pins res))).
  { intros w. rewrite dl_extract. apply pin_moves. }
  intros [e bv]. unfold pins. cbn [fst snd]. destruct (e <=? 0); [apply moves_ret|].
  eapply moves_bind; [apply moves_call|intros _|].
  - eapply moves_bind; [eapply through_moves, dl_dio|intros t|].
    + eapply moves_bind; [apply moves_call|intros _|].
      * eapply moves_bind; [apply unpin_moves|intros _; apply moves_ret|]. reflexivity.
      * reflexivity.
    + reflexivity.
  - cbn. lia.
Qed.
Lemma dio_plain_moves ino pos n wr g : moves k 0 (dio_plain ino pos n wr g).
Proof.
  unfold dio_plain. eapply moves_bind; [apply moves_when|intros _|].
  - eapply moves_bind; [eapply through_moves, dl_dio|intros t|reflexivity].
    eapply moves_bind; [apply moves_when|intros _; apply moves_ret|reflexivity].
  - destruct g; cbn; lia.
Qed.
Lemma dio_retry_moves ino g bv fuel : forall pos n wr, moves k 0 (dio_retry fuel ino pos n wr g bv).
Proof.
  induction fuel as [|fuel IH]; intros pos n wr; cbn [dio_retry]; [apply moves_ret|].
  apply (moves_bind k 0 0); [destruct bv; [apply dio_pinned_moves|apply dio_plain_moves]| |done].
  intros [e|t]; [apply moves_ret|]. destruct (_ && _); [apply IH|apply moves_ret].
Qed.

Ltac moves0 := first [apply moves_ret|apply dio_retry_moves|apply moves_pres; intros; pres].
Lemma fallback_moves ino t : moves k 0 (dio_fallback ino t).
Proof.
  unfold dio_fallback. destruct (_ && _); [|apply moves_ret].
  apply (moves_bind k 0 0); [eapply through_moves, dl_buffered| |done]. intros b.
  destruct (_ <? 0); [apply moves_ret|]. destruct (0 <? _); [|apply moves_ret].
  apply (moves_bind k 0 0); [apply stable_moves; intros; by apply wait_range_pres| |done]. intros r.
  apply (moves_bind k 0 0); [|intros; apply moves_ret|done]. destruct (r =? 0); [apply moves_call|apply moves_ret].
Qed.
Lemma dio_body_moves ino pos n u : moves k 0 (dio_body ino pos n u).
Proof.
  unfold dio_body. apply (moves_bind k 0 0); [moves0| |done]. intros ci.
  apply (moves_bind k 0 0); [destruct (negb _); [apply discard_prealloc_moves|moves0]| |done].
  intros r. destruct (negb _); [moves0|]. apply (moves_bind k 0 0); [moves0| |done]. intros i.
  apply (moves_bind k 0 0); [destruct (_ <? _); [apply stable_moves; intros; by apply gap_fpres|moves0]| |done].
  intros r'. destruct (negb _); [moves0|]. apply (moves_bind k 0 0); [moves0| |done]. intros m.
  apply (moves_bind k 0 0); [destruct (_ && _); moves0| |done]. intros ok. destruct (negb ok); [moves0|].
  apply (moves_bind k 0 0); [moves0| |done]. intros [t|]; [|moves0].
  apply (moves_bind k 0 0); [apply fallback_moves|intros; moves0|done].
Qed.
Lemma write_sync_moves ino t : moves k 0 (write_sync ino t).
Proof. unfold write_sync. destruct (0 <? _); [eapply through_moves, dl_sync|apply moves_ret]. Qed.
Lemma write_iter_moves ino iocb from : moves k 0 (simplefs_file_write_iter ino iocb from).
Proof.
  unfold simplefs_file_write_iter, simplefs_is_shutdown. destruct (_ =? 0); [apply moves_ret|].
  apply (moves_bind k 0 0); [moves0| |done]. intros down. destruct down; [apply moves_ret|].
  destruct (_ && _); [apply moves_ret|]. destruct (ki_direct iocb).
  - apply (moves_bind k 0 0); [moves0| |done]. intros bs. apply inode_moves.
    destruct (misaligned _ _ _ _); [apply unlock_moves|].
    eapply moves_bind; [eapply through_moves, dl_checks|intros c|symmetry; apply Z.add_0_l].
    destruct (_ <=? 0); [apply unlock_moves|].
    eapply moves_bind; [apply stable_moves; intros; pres|intros r|symmetry; apply Z.add_0_l].
    destruct (negb _); [apply unlock_moves|].
    eapply moves_bind; [apply dio_body_moves|intros t|symmetry; apply Z.add_0_l].
    eapply moves_bind; [apply moves_call|intros _|symmetry; apply Z.add_0_r].
    destruct t as [t|]; [|apply moves_ret].
    apply (moves_bind k 0 0); [apply write_sync_moves|intros; apply moves_ret|done].
  - apply inode_moves.
    eapply moves_bind; [eapply through_moves, dl_checks|intros c|symmetry; apply Z.add_0_l].
    destruct (_ <=? 0); [apply unlock_moves|].
    eapply moves_bind; [apply stable_moves; intros; pres|intros r|symmetry; apply Z.add_0_l].
    destruct (negb _); [apply unlock_moves|].
    eapply moves_bind; [eapply through_moves, dl_buffered|intros t|symmetry; apply Z.add_0_l].
    eapply moves_bind; [apply moves_call|intros _|symmetry; apply Z.add_0_r].
    apply (moves_bind k 0 0); [apply write_sync_moves|intros; apply moves_ret|done].
Qed.

(** C15: the file operations give back what they took: on every path through a write
    (refusals, failed checks, direct transfers on pinned pages and their retries, the
    fall-back, success), an fallocate in any mode, an fsync, the release of a file and a
    truncation, with whatever these do to the reservation, the inode lock, the page
    cache's invalidation lock and every pinned user page are held as often afterwards
    as before. *)
Theorem write_iter_releases ino iocb from mode offset len start end_ w :
  let keeps {A} (m : M A) := balance k (w_trace (snd (m w))) = balance k (w_trace w) in
  keeps (simplefs_file_write_iter ino iocb from) /\
  keeps (simplefs_fallocate ino mode offset len) /\
  keeps (simplefs_file_fsync ino start end_) /\
  keeps (simplefs_file_release ino) /\
  keeps (simplefs_truncate ino len).
Proof.
  assert (H : forall A (m : M A), moves k 0 m -> balance k (w_trace (snd (m w))) = balance k (w_trace w))
    by (intros A m Hm; rewrite Hm; lia).
  cbv zeta. split_and!; apply H; [apply write_iter_moves|apply fallocate_moves|apply fsync_moves|
    apply discard_locked_moves|apply truncate_moves].
Qed.
End Release.

(** ** The sign of what a direct write does first *)
Class PageErrno {K : Kernel} {PC : PageCache} : Prop := {
  pe_wait : forall ino, always (fun r => r <= 0) (filemap_write_and_wait ino);
  pe_wait_range : forall ino a b, always (fun r => r <= 0) (filemap_write_and_wait_range ino a b);
  pe_zero : forall ino pos len, always (fun r => r <= 0) (iomap_zero_range ino pos len);
  pe_page : forall ino pos, always (fun r => r <= 0) (iomap_truncate_page ino pos)
}.

Section Sign.
Context {K : Kernel} {HE : Errno} {PC : PageCache} {PE : PageErrno}.
Abbreviation err := (always (S := world) (fun r : Z => r <= 0)).
Abbreviation err1 := (always (S := world) (fun r => fst r <= 0)).
Local Hint Resolve pe_wait pe_wait_range pe_zero pe_page : err.

Lemma err_grow buf n : err1 (simplefs_file_grow_extent_buffer buf n).
Proof. unfold simplefs_file_grow_extent_buffer. errs. Qed.
Local Hint Resolve err_grow : err.
Lemma err_load_leaf b buf : err1 (simplefs_file_load_leaf b buf).
Proof. unfold simplefs_file_load_leaf. errs. by destruct (_ =? 0). Qed.
Local Hint Resolve err_load_leaf : err.
Lemma err_load_leaves n : forall i img buf, err1 (load_leaves n i img buf).
Proof. induction n as [|n IH]; intros i img buf; cbn [load_leaves]; errs. Qed.
Local Hint Resolve err_load_leaves : err.
Lemma err_load b : err1 (simplefs_file_load_extents b).
Proof. unfold simplefs_file_load_extents. errs. by destruct (_ && _). Qed.
Local Hint Resolve err_load : err.
Lemma err_release ino buf fr : err (release_ranges ino buf fr).
Proof. unfold release_ranges. errs. Qed.
Local Hint Resolve err_release : err.
Lemma err_truncate_extents ino n : err (truncate_extents ino n).
Proof. unfold truncate_extents. errs. Qed.
Lemma err_append buf x : err1 (simplefs_file_append_extent buf x).
Proof. unfold simplefs_file_append_extent. errs. Qed.
Local Hint Resolve err_append : err.
Lemma err_insert buf i x : err1 (simplefs_file_insert_extent buf i x).
Proof. unfold simplefs_file_insert_extent. errs. Qed.
Local Hint Resolve err_insert : err.
Lemma err_punch_loop n : forall i a z buf fr, always (fun r => fst (fst r) <= 0) (punch_loop n i a z buf fr).
Proof. induction n as [|n IH]; intros i a z buf fr; cbn [punch_loop]; errs. Qed.
Local Hint Resolve err_truncate_extents err_punch_loop : err.
Lemma err_punch_extents ino a z : err1 (punch_extents ino a z).
Proof. unfold punch_extents. errs. Qed.
Local Hint Resolve err_punch_extents : err.
Lemma err_gap ino a n : err (simplefs_zero_partial_gap ino a n).
Proof. unfold simplefs_zero_partial_gap. errs. Qed.
Local Hint Resolve err_gap : err.
Lemma err_truncate ino n : err (simplefs_truncate ino n).
Proof. unfold simplefs_truncate. errs. Qed.
Lemma err_punch_step ino a z (c : M unit) :
  err (if a <? z then let! (r, freed) := punch_extents ino a z in
                      if negb (r =? 0) then ret r else run! when freed c in ret 0
       else ret 0).
Proof. errs. Qed.
Local Hint Resolve err_punch_step : err.
Lemma err_punch_hole ino o n v : err (simplefs_fallocate_punch_hole ino o n v).
Proof. unfold simplefs_fallocate_punch_hole. errs. Qed.
Local Hint Resolve err_truncate err_punch_hole : err.
Lemma err_discard_prealloc ino : err (simplefs_discard_prealloc ino).
Proof. unfold simplefs_discard_prealloc. errs. Qed.
End Sign.

(** ** The bytes of a direct write *)
Section Count.
Context {K : Kernel} {HE : Errno} {PC : PageCache} {PE : PageErrno} {DP : DataPath} {DL : DataLaws}.

(** What a transfer of [n] bytes with [before] bytes done promises; [r] is its code
    with the request for the fall-back taken for 0. *)
Definition counted (before n r left : Z) : Prop :=
  (0 < r -> r = before + (n - left) /\ 0 <= left < n) /\ (r = 0 -> left = n).
Definition code (t : transfer) : Z := if t_ret t =? - ENOTBLK then 0 else t_ret t.

Lemma dio_counted ino pos n wait before w : 0 <= before ->
  let t := fst (iomap_dio_rw ino pos n wait before w) in counted before n (code t) (t_left t).
Proof.
  intros Hb. cbv zeta. pose proof (dl_dio_ret ino pos n wait before w Hb) as [H1 H2]; cbv zeta in *. unfold code, counted.
  destruct (Z.eqb_spec (t_ret (fst (iomap_dio_rw ino pos n wait before w))) (- ENOTBLK)) as [E|E]; [split; [lia|auto]|].
  split; [done|]. intros H. apply H2. by left.
Qed.

Definition step_counted (before n : Z) (step : Z + transfer) : Prop :=
  match step with inl e => e < 0 | inr t => counted before n (code t) (t_left t) end.

Lemma dio_pinned_counted ino pos n before w : 0 <= before -> wp (dio_pinned ino pos n before) (fun step _ => step_counted before n step) w.
Proof.
  intros Hb. unfold dio_pinned. apply wp_bind, wp_result. intros [e bv] w1 E.
  pose proof (dl_extract_max (Z.min n SIMPLEFS_DIO_MAX_BYTES) w) as Hmax. rewrite E in Hmax. cbn [fst] in Hmax.
  destruct (Z.leb_spec e 0); [apply wp_ret; cbn; unfold EFAULT; destruct (Z.eqb_spec e 0); lia|].
  apply wp_bind. eapply (wp_mono _ (fun _ _ => True)); [done|]. intros _ w2 _. apply wp_bind, wp_result. intros t w3 E3.
  pose proof (dio_counted ino pos e true before w2 Hb) as Hc. cbv zeta in Hc. rewrite E3 in Hc. cbn [fst] in Hc.
  apply wp_bind. eapply (wp_mono _ (fun _ _ => True)); [done|]. intros _ w4 _.
  apply wp_bind. eapply (wp_mono _ (fun _ _ => True)); [done|]. intros _ w5 _.
  apply wp_ret. unfold step_counted, counted, code in *. cbn [t_ret t_left]. lia.
Qed.
Lemma dio_plain_counted ino pos n before g w : 0 <= before -> wp (dio_plain ino pos n before g) (fun step _ => step_counted before n step) w.
Proof.
  intros Hb. unfold dio_plain. apply wp_bind. eapply (wp_mono _ (fun _ _ => True)); [done|]. intros _ w1 _.
  apply wp_bind, wp_result. intros t w2 E. pose proof (dio_counted ino pos n g before w1 Hb) as Hc. cbv zeta in Hc.
  rewrite E in Hc. apply wp_bind. eapply (wp_mono _ (fun _ _ => True)); [done|]. intros _ w3 _. by apply wp_ret.
Qed.

Lemma dio_retry_counted ino g bv total fuel : forall pos n before w, 0 <= before -> before = total - n -> n < Z.of_nat fuel ->
  (0 < fuel)%nat ->
  wp (dio_retry fuel ino pos n before g bv) (fun res _ => exists t, res = Some t /\
    (0 <= t_ret t -> t_ret t = total - t_left t)) w.
Proof.
  induction fuel as [|fuel IH]; intros pos n before w Hb Hn Hf Hf0; [lia|]. cbn [dio_retry]. apply wp_bind.
  eapply (wp_mono _ (fun step _ => step_counted before n step)).
  { destruct bv; [by apply dio_pinned_counted|by apply dio_plain_counted]. }
  intros [e|t] w1 H; cbn in H; [apply wp_ret; eexists; split; [done|]; cbn; lia|].
  fold (code t). destruct H as [H1 H2].
  destruct (Z.ltb_spec 0 (code t)) as [Hp|Hp]; cbn [andb].
  - destruct (H1 Hp) as [E HL]. destruct (Z.eqb_spec (t_left t) 0); cbn [negb].
    + apply wp_ret. eexists. split; [done|]. cbn. rewrite (proj2 (Z.ltb_ge (code t) 0)) by lia. lia.
    + apply IH; lia.
  - apply wp_ret. eexists. split; [done|]. cbn. destruct (Z.ltb_spec (code t) 0); [lia|]. intros _. rewrite H2; lia.
Qed.

Lemma err_prealloc ino (ci : inode) :
  always (fun r => r <= 0) (if negb (prealloc_len ci =? 0) then simplefs_discard_prealloc ino else ret 0).
Proof. destruct (negb _); [apply err_discard_prealloc|by apply always_ret]. Qed.
Lemma err_old_gap ino size pos :
  always (fun r => r <= 0) (if size <? pos then simplefs_zero_partial_gap ino size (pos - size) else ret 0).
Proof. destruct (_ <? _); [apply err_gap|by apply always_ret]. Qed.

End Count.

(** ** Waiting for write-back *)
Section Writeback.
Context {K : Kernel} (ino : Z).

(** A submission, the end of a bio ([simplefs_end_bio]: the work item is scheduled), a
    work item, or anything else that happens to the file system, in any order. *)
Inductive wb_step : wb_state -> wb_state -> Prop :=
  | wb_step_submit io error s : wb_step s (wb_submit ino io error s)
  | wb_step_end io status bios s : wb_bios s ≡ₚ io :: bios ->
      wb_step s (Wb (wb_world s) (writeback_ioends s) bios ((io, status) :: wb_works s) (wb_submitted s) (wb_done s))
  | wb_step_finish io status works s : wb_works s ≡ₚ (io, status) :: works ->
      wb_step s (wb_finish ino io status works s)
  | wb_step_other ino' s w' : callback ino' (wb_world s) w' ->
      wb_step s (Wb w' (writeback_ioends s) (wb_bios s) (wb_works s) (wb_submitted s) (wb_done s)).

(** What the end of an ioend does to the file system: the conversion of its blocks if the
    device has reported success, nothing otherwise. *)
Definition ioend_result (io : ioend) (status : Z) (w : world) : Z * world :=
  if status =? 0 then simplefs_convert_unwritten_range ino (io_offset io) (io_size io) w else (status, w).

(** How a finished ioend ended on the way from [w] to [s]: in some state in between its
    work item was waiting with the device's status; its code is that status if the
    device failed, and otherwise that of the conversion of its blocks in that state, which
    the next step made, in the blocks of the device and in the inodes; a failure other
    than a full tree has shut the file system down. *)
Definition ended (w : world) (s : wb_state) (d : ioend * Z) : Prop :=
  exists s1 s2 status, rtc wb_step (wb_start w) s1 /\ wb_step s1 s2 /\ rtc wb_step s2 s /\
    (fst d, status) ∈ wb_works s1 /\
    snd d = fst (ioend_result (fst d) status (wb_world s1)) /\
    store (wb_world s2) = store (snd (ioend_result (fst d) status (wb_world s1))) /\
    (snd d = 0 \/ snd d = - ENOSPC \/ s_shutdown (w_sbi (wb_world s)) = true).

Record wb_inv (w : world) (s : wb_state) : Prop := WbInv {
  wi_count : writeback_ioends s = Z.of_nat (length (wb_bios s) + length (wb_works s));
  wi_all : wb_submitted s ≡ₚ wb_bios s ++ map fst (wb_works s) ++ map fst (wb_done s);
  wi_unwritten : Forall (fun io => io_unwritten io = true) (wb_submitted s);
  wi_ended : Forall (ended w s) (wb_done s)
}.

Lemma ended_mono w s s' l : wb_step s s' ->
  (s_shutdown (w_sbi (wb_world s)) = true -> s_shutdown (w_sbi (wb_world s')) = true) ->
  Forall (ended w s) l -> Forall (ended w s') l.
Proof.
  intros Hs H Hl. eapply Forall_impl; [exact Hl|].
  intros d (s1 & s2 & st & H0 & H1 & H2 & H3 & H4 & H5 & H6). exists s1, s2, st. split_and!; try done; [by eapply rtc_r|].
  destruct H6 as [?|[?|?]]; auto.
Qed.

Lemma submit_attached io error w : wp (simplefs_writeback_submit ino io error) (fun res w' =>
  (s_shutdown (w_sbi w) = true -> s_shutdown (w_sbi w') = true) /\ (snd res = true -> io_unwritten io = true)) w.
Proof.
  apply wp_conj.
  - intros Hd. apply (wp_pres (fun w => s_shutdown (w_sbi w) = true)); [|done].
    unfold simplefs_writeback_submit. pres.
  - unfold simplefs_writeback_submit. apply wp_bind. eapply (wp_mono _ (fun _ _ => True)); [done|]. intros _ w1 _.
    destruct (io_unwritten io); [by apply wp_always; intros ?|]. rewrite orb_true_r. apply wp_bind.
    eapply (wp_mono _ (fun _ _ => True)); [done|]. intros r w2 _. by apply wp_ret.
Qed.

Lemma finish_ended io status w : io_unwritten io = true ->
  wp (simplefs_finish_ioend_work ino (io_offset io) (io_size io) status (io_unwritten io))
     (fun error w' => (s_shutdown (w_sbi w) = true -> s_shutdown (w_sbi w') = true) /\
        error = fst (ioend_result io status w) /\ store w' = store (snd (ioend_result io status w)) /\
        (error = 0 \/ error = - ENOSPC \/ s_shutdown (w_sbi w') = true)) w.
Proof.
  intros Hu. apply wp_conj.
  { intros Hd. by apply (finish_ioend_fpres (fun w => s_shutdown (w_sbi w) = true)). }
  unfold simplefs_finish_ioend_work. rewrite Hu, andb_true_r. apply wp_bind, wp_result. intros error w1 E.
  assert (He : ioend_result io status w = (error, w1)) by (unfold ioend_result; by destruct (status =? 0)).
  rewrite He. cbn [fst snd].
  apply wp_bind. destruct (Z.eqb_spec error 0) as [H0|H0]; [|destruct (Z.eqb_spec error (- ENOSPC)) as [H1|H1]]; cbn [andb negb when].
  - apply wp_ret, wp_bind. eapply wp_mono; [apply store_wp; intros; pres|]. intros r w2 Hs. apply wp_ret. auto.
  - apply wp_ret, wp_bind. eapply wp_mono; [apply store_wp; intros; pres|]. intros r w2 Hs. apply wp_ret. auto.
  - apply wp_modify, wp_bind. eapply wp_mono.
    { apply wp_conj; [apply (wp_pres (fun w => s_shutdown (w_sbi w) = true)); [pres|done]|apply store_wp; intros; pres]. }
    intros r w2 [Hw2 Hs]. apply wp_ret. split_and!; [done|exact Hs|auto].
Qed.

Lemma wb_submit_inv w io error s : wb_inv w s -> wb_inv w (wb_submit ino io error s).
Proof.
  intros [I1 I2 I3 I4]. pose proof (wb_step_submit io error s) as Hst. revert Hst. unfold wb_submit.
  pose proof (submit_attached io error (wb_world s)) as H. unfold wp in H.
  destruct (simplefs_writeback_submit ino io error (wb_world s)) as [[r att] w']. cbn in H. destruct H as [H1 H2].
  intros Hst. destruct att; constructor; cbn; try done; [lia|by rewrite I2|constructor; auto|..];
    by eapply ended_mono; [exact Hst|..].
Qed.

Lemma wb_finish_inv w io status works s : rtc wb_step (wb_start w) s -> wb_works s ≡ₚ (io, status) :: works ->
  wb_inv w s -> wb_inv w (wb_finish ino io status works s).
Proof.
  intros Hr Hw [I1 I2 I3 I4]. assert (Hu : io_unwritten io = true).
  { rewrite Forall_forall in I3. apply I3. rewrite I2, Hw. cbn. set_solver. }
  pose proof (wb_step_finish io status works s Hw) as Hst. revert Hst. unfold wb_finish.
  pose proof (finish_ended io status (wb_world s) Hu) as H. unfold wp in H.
  destruct (simplefs_finish_ioend_work _ _ _ _ _ _) as [error w']. cbn in H. destruct H as [H1 H2]. intros Hst.
  constructor; cbn; try done.
  - rewrite I1, Hw. cbn. lia.
  - rewrite I2, Hw. cbn. apply Permutation_app_head, Permutation_middle.
  - constructor; [|by eapply ended_mono; [exact Hst|..]].
    eexists s, _, status. split_and!; [done|exact Hst|done|rewrite Hw; by left|apply H2..].
Qed.

Lemma wb_step_inv w s s' : rtc wb_step (wb_start w) s -> wb_step s s' -> wb_inv w s -> wb_inv w s'.
Proof.
  intros Hr Hst Hi. pose proof Hst as Hst'. destruct Hst as [io error s1|io status bios s1 Hb|io status works s1 Hw|ino' s1 w' Hc].
  - by apply wb_submit_inv.
  - destruct Hi as [I1 I2 I3 I4]. constructor; cbn; try done; [rewrite I1, Hb; cbn; lia|rewrite I2, Hb; cbn; apply Permutation_middle|].
    by eapply ended_mono; [exact Hst'|..].
  - by apply wb_finish_inv.
  - destruct Hi as [I1 I2 I3 I4]. constructor; cbn; try done. eapply ended_mono; [exact Hst'| |exact I4]. cbn. intros Hd.
    by apply (callback_fpres (fun w => s_shutdown (w_sbi w) = true) ino' (wb_world s1) w').
Qed.

End Writeback.

(** ** Shutdown *)
Section Down.
Context {K : Kernel} {PC : PageCache} {DP : DataPath}.

(** GOINGDOWN latches the file system: with one of its three flags the file system
    is shut down and read-only afterwards, whatever the calls it makes answer, and from
    then on opening, reading, fsync, splicing, writing an inode and syncing answer -EIO,
    a write answers -EIO and a fault on a mapped page SIGBUS, and none of them changes
    anything; any other flag is refused without an effect. *)
Theorem shutdown_latches sf si flags ino a z iocb it w : s_shutdown (w_sbi w) = false -> it_count it <> 0 ->
  wp (simplefs_shutdown sf si flags) (fun r w' =>
    (~ 0 <= flags <= 2 -> r = - EINVAL /\ w' = w) /\
    (0 <= flags <= 2 -> shut w' /\ Forall (fun m : M Z => m w' = (- EIO, w'))
       [simplefs_file_open ino; simplefs_file_read_iter ino iocb it; simplefs_file_fsync ino a z;
        simplefs_file_splice_read ino; simplefs_write_inode ino; simplefs_sync_fs (ret tt) true] /\
      simplefs_file_write_iter ino iocb it w' = (Some (- EIO), w') /\
      simplefs_page_mkwrite ino w' = (VM_FAULT_SIGBUS, w'))) w.
Proof.
  intros Hd Hc. eapply wp_mono; [by apply shutdown_spec|]. intros r w' [H1 H2]; cbn beta in *. split; [done|].
  intros Hf. specialize (H1 Hf). split; [done|]. destruct (shut_refuses ino a z w' H1) as (E1 & E2 & E3 & E4 & E5).
  destruct H1 as [Hs _]. apply Z.eqb_neq in Hc.
  assert (Hread : simplefs_file_read_iter ino iocb it w' = (- EIO, w')).
  { unfold simplefs_file_read_iter, simplefs_is_shutdown, bind, gets. rewrite Hc, Hs. done. }
  split; [by repeat constructor|].
  unfold simplefs_file_write_iter, simplefs_page_mkwrite, simplefs_is_shutdown, bind, gets. rewrite Hc, Hs. done.
Qed.
End Down.
