(* ===== verification/Namespace.v ===== *)
(** * Namespace: names, links and renames (simplefs_inode.c)

    The directory operations of the VFS: lookup, creation of files, directories,
    links, symbolic links and special files, removal, and the three kinds of
    rename.  An inode object is named by its number; a dentry carries its name, its
    inode if it is positive, and the inodes of its ancestors below the root. *)

From stdpp Require Import base list numbers gmap.
From S2P Require Import Prelude Image Layout Kernel DiskFormat Discard Journal MetaBuf.
From S2P Require Import Alloc Retire ExtentBuf ExtentTree InodeTable DirIndex Xattr Acl.
From S2P Require Import Rebuild Super.

Local Open Scope Z_scope.
Local Open Scope fs_scope.

Record dentry := Dentry { d_name : qstr; d_inode : option Z; d_ancestors : list Z }.

(** The inode of a positive dentry. *)
Definition d_positive (d : dentry) : Z := default 0 (d_inode d).
Definition is_positive (d : dentry) : bool := bool_decide (is_Some (d_inode d)).

Definition S_ISGID : Z := 1024.
Definition S_IFREG : Z := 32768.
Definition S_IFCHR : Z := 8192.
Definition S_IFLNK : Z := 40960.
Definition RENAME_NOREPLACE : Z := 1.
Definition RENAME_EXCHANGE : Z := 2.
Definition RENAME_WHITEOUT : Z := 4.
Definition WHITEOUT_MODE : Z := 0.
Definition WHITEOUT_DEV : Z := 0.
Definition has_flag (flags f : Z) : bool := negb (Z.land flags f =? 0).
Definition sizeof_i_data : Z := 32.

Section Ops.
Context {K : Kernel} {V : Vfs}.

(** ** Link counts and references of the VFS *)

Definition set_nlink (inode n : Z) : M unit := upd_inode inode (set_i_nlink n).
Definition clear_nlink (inode : Z) : M unit := set_nlink inode 0.
Definition drop_nlink (inode : Z) : M unit :=
  upd_inode inode (fun i => set_i_nlink (u32 (i_nlink i - 1)) i).
Definition inc_nlink (inode : Z) : M unit :=
  upd_inode inode (fun i => set_i_nlink (u32 (i_nlink i + 1)) i).
Definition drop_nlink_if (inode : Z) : M unit :=
  let! i := get_inode inode in when (0 <? i_nlink i) (drop_nlink inode).
Definition mark_inode_dirty (inode : Z) : M unit := run! kdo (MarkInodeDirty inode) in ret tt.
Definition touch_ctime (inode : Z) : M unit := run! inode_set_ctime_current inode in ret tt.
(** [inode_set_mtime_to_ts(dir, inode_set_ctime_current(dir))] *)
Definition touch_dir (dir : Z) : M unit :=
  let! ts := inode_set_ctime_current dir in inode_set_mtime_to_ts dir ts.

(** The last reference to an inode without links evicts it. *)
Definition iput (inode : Z) : M unit :=
  let! last := kdo (Iput inode) in
  if last =? 0 then ret tt else
  let! i := get_inode inode in
  when (i_nlink i =? 0) (run! simplefs_evict_inode inode in drop_inode inode).
(** Clears [I_NEW] and drops the reference. *)
Definition discard_new_inode (inode : Z) : M unit := iput inode.

(** The owner, and the mode with the set-group-ID bit that directories inherit. *)
Definition inode_init_owner (inode dir mode : Z) : M unit :=
  let! uid := kdo (InitOwnerUid inode) in
  let! d := get_inode dir in
  if has_flag (i_mode d) S_ISGID then
    upd_inode inode (fun i => set_i_mode (if S_ISDIR mode then Z.lor mode S_ISGID else mode)
                                (set_i_gid (i_gid d) (set_i_uid uid i)))
  else
  let! gid := kdo (InitOwnerGid inode) in
  upd_inode inode (fun i => set_i_mode mode (set_i_gid gid (set_i_uid uid i))).

(** [i_rdev] of a device node. *)
Definition init_special_inode (inode mode rdev : Z) : M unit :=
  when (S_ISCHR mode || S_ISBLK mode) (upd_inode inode (set_i_rdev rdev)).

(** ** Helpers *)

(** 1 when it is, 0 when not, or an error. *)
Definition simplefs_dir_is_empty (inode : Z) : M Z :=
  let! r := simplefs_dir_get inode in
  if negb (r =? 0) then ret r else
  let! ix := get_index inode in
  ret (if di_nr_files ix =? 0 then 1 else 0).

Definition simplefs_initxattrs (inode : Z) (xattr_array : list (Z * Z * Z * Z)) : M Z :=
  for_list xattr_array (fun x =>
    let '(name, len, value, value_len) := x in
    let! err := simplefs_xattr_set inode name len (Some (value, value_len)) 0 in
    ret (if err <? 0 then err else 0)).

(** [security_inode_init_security] calls back with the attributes to store. *)
Definition simplefs_init_security (inode dir : Z) : M Z :=
  let! r := kdo (InitSecurity inode dir) in
  if negb (r =? 0) then ret r else
  let! k := gets w_kernel in
  simplefs_initxattrs inode (security_xattrs k inode dir).

Definition simplefs_release_new_inode (inode : Z) : M unit :=
  run! clear_nlink inode in iput inode.

Definition simplefs_set_parent_ino (inode dir : Z) : M unit :=
  let! i := get_inode inode in
  let! d := get_inode dir in
  when (S_ISDIR (i_mode i)) (upd_inode inode (fun i => set_i_data (put_u32 (i_data i) 0 (u32 (i_ino d))) i)).

(** The code and the slot of the entry [name] for [inode]. *)
Definition simplefs_find_dir_entry (dir : Z) (name : qstr) (inode : Z) : M (Z * Z) :=
  let! ix := get_index dir in
  let! i := get_inode inode in
  let '(r, slot, _) := simplefs_dir_find ix name (u32 (i_ino i)) in
  ret (r, slot).

Definition simplefs_find_free_dir_entry (dir : Z) : M (Z * Z) := simplefs_dir_free_slot dir.

Definition simplefs_update_dir_entry (dir slot ino : Z) (name : option qstr) (clear : bool) : M Z :=
  simplefs_dir_set dir slot (if clear then 0 else ino) name.

Definition nr_files_add (dir n : Z) : M unit :=
  upd_index dir (fun ix => set_di_nr_files (u32 (di_nr_files ix + n)) ix).

Definition simplefs_mark_dir_index_dirty (dir : Z) : M Z :=
  run! mark_inode_dirty dir in
  let! r := simplefs_persist_inode dir in
  run! when (negb (r =? 0)) (run! upd_index dir (set_di_valid false) in simplefs_journal_fail r) in
  ret r.

Definition simplefs_rename_check_subdir (old_inode : Z) (new_dentry : dentry) : M Z :=
  let! i := get_inode old_inode in
  ret (if S_ISDIR (i_mode i) && bool_decide (old_inode ∈ d_ancestors new_dentry) then - EINVAL else 0).

Definition simplefs_prepare_rename_target (old_inode : Z) (new_inode : option Z) : M Z :=
  match new_inode with
  | None => ret 0
  | Some n =>
      let! i := get_inode n in
      let! o := get_inode old_inode in
      if S_ISDIR (i_mode i) then
        if negb (S_ISDIR (i_mode o)) then ret (- EISDIR) else
        let! r := simplefs_dir_is_empty n in
        ret (if r <? 0 then r else if r =? 0 then - ENOTEMPTY else 0)
      else ret (if S_ISDIR (i_mode o) then - ENOTDIR else 0)
  end.

Definition simplefs_touch_rename_dirs (old_dir new_dir : Z) : M unit :=
  run! touch_dir old_dir in
  run! mark_inode_dirty old_dir in
  when (negb (old_dir =? new_dir)) (run! touch_dir new_dir in mark_inode_dirty new_dir).

(** [simplefs_journal_start], the operation, and [simplefs_journal_abort] before
    [simplefs_journal_stop] when it fails. *)
Definition in_transaction (credits : Z) (body : M Z) : M Z :=
  let! handle := simplefs_journal_start credits in
  if HANDLE_IS_ERR handle then ret (HANDLE_PTR_ERR handle) else
  let! r := body in
  if negb (r =? 0) then
    run! simplefs_journal_abort handle r in
    run! simplefs_journal_stop handle in
    ret r
  else simplefs_journal_stop handle.

(** The same with a single exit [out_stop]. *)
Definition in_handle (credits : Z) (body : M Z) : M Z :=
  let! handle := simplefs_journal_start credits in
  if HANDLE_IS_ERR handle then ret (HANDLE_PTR_ERR handle) else
  let! err := body in
  let! stop_err := simplefs_journal_stop handle in
  ret (if err =? 0 then stop_err else err).

(** ** Removal *)

Definition simplefs_unlink_internal (dir : Z) (dentry : dentry) : M Z :=
  let inode := d_positive dentry in
  let! r := simplefs_dir_get dir in
  if negb (r =? 0) then ret r else
  let! (r, slot) := simplefs_find_dir_entry dir (d_name dentry) inode in
  if negb (r =? 0) then ret r else
  let! r := simplefs_dir_set dir slot 0 None in
  if negb (r =? 0) then ret r else
  run! nr_files_add dir (-1) in
  run! touch_dir dir in
  let! i := get_inode inode in
  run! (if S_ISDIR (i_mode i) then clear_nlink inode
        else when (negb (i_nlink i =? 0)) (drop_nlink inode)) in
  run! touch_ctime inode in
  run! mark_inode_dirty inode in
  let! r := simplefs_persist_inode inode in
  let! r := (if r =? 0 then simplefs_mark_dir_index_dirty dir else ret r) in
  run! when (negb (r =? 0)) (simplefs_journal_fail r) in
  ret r.

Definition simplefs_unlink (dir : Z) (dentry : dentry) : M Z :=
  in_transaction 32 (simplefs_unlink_internal dir dentry).

Definition rmdir_body (dir : Z) (dentry : dentry) : M Z :=
  let! r := simplefs_unlink_internal dir dentry in
  if negb (r =? 0) then ret r else
  run! drop_nlink_if dir in
  run! mark_inode_dirty dir in
  simplefs_persist_inode dir.

Definition simplefs_rmdir (dir : Z) (dentry : dentry) : M Z :=
  let inode := d_positive dentry in
  let! i := get_inode inode in
  if negb (S_ISDIR (i_mode i)) then ret (- ENOTDIR) else
  let! r := simplefs_dir_is_empty inode in
  if r <? 0 then ret r else
  if r =? 0 then ret (- ENOTEMPTY) else
  let! r := simplefs_dir_trim inode in
  if negb (r =? 0) then ret r else
  in_transaction 32 (rmdir_body dir dentry).

(** ** Symbolic link targets *)

(** The code and the target; without a dentry the walk cannot sleep. *)
Definition simplefs_get_link (has_dentry : bool) (inode : Z) : M (Z * Z) :=
  if negb has_dentry then ret (- ECHILD, 0) else
  let! i := get_inode inode in
  if i_size i <? sizeof_i_data then
    if get_u8 (i_data i) 0 =? 0 then ret (- EINVAL, 0) else ret (0, i_data i)
  else
  if ei_block i =? 0 then ret (- EINVAL, 0) else
  let! r := simplefs_get_folio (ei_block i) in
  if IS_ERR r then ret (r, 0) else
  let! img := read_image (ei_block i) in
  let! ok := kmalloc in
  if negb ok then ret (- ENOMEM, 0) else
  ret (0, get_bytes img 0 (i_size i)).

(** ** Lookup *)

(** The code, and the inode the dentry gets; none when the name is absent. *)
Definition simplefs_lookup (dir : Z) (name : qstr) : M (Z * option Z) :=
  let! r := simplefs_dir_get dir in
  if negb (r =? 0) then ret (r, None) else
  let! ix := get_index dir in
  let '(r, _, ino) := simplefs_dir_find ix name 0 in
  let! (r, inode) :=
    (if r =? 0 then
       let! e := simplefs_iget ino in ret (if IS_ERR e then e else 0, Some ino)
     else ret (if r =? - ENOENT then 0 else r, None)) in
  if negb (r =? 0) then ret (r, None) else
  let! alias := kdo (DSpliceAlias (default 0 inode)) in
  ret (if IS_ERR alias then alias else 0, inode).

(** ** Creation *)

Definition mode_supported (mode : Z) : bool :=
  S_ISDIR mode || S_ISREG mode || S_ISLNK mode || S_ISCHR mode || S_ISBLK mode ||
  S_ISFIFO mode || S_ISSOCK mode.

(** A safe unlinked object before any allocation that can fail. *)
Definition fresh_inode (ino generation : Z) (i : inode) : inode :=
  Inode ino 0 (i_uid i) (i_gid i) 0 (i_ctime i) (i_ctime_nsec i) (i_atime i) (i_atime_nsec i)
    (i_mtime i) (i_mtime_nsec i) 0 0 generation 0 (i_vfs_flags i) 0 0 0 (i_crtime i)
    (i_crtime_nsec i) 0 0 0 (i_dir_index i).

Definition stamp_inode (sec nsec : Z) (i : inode) : inode :=
  Inode (i_ino i) (i_mode i) (i_uid i) (i_gid i) (i_size i) sec nsec sec nsec sec nsec
    (i_blocks i) (i_nlink i) (i_generation i) (i_rdev i) (i_vfs_flags i) (ei_block i)
    (i_xattr_block i) (i_flags i) sec nsec (i_data i) (prealloc_block i) (prealloc_len i)
    (i_dir_index i).

Definition current_time_all (ino : Z) : M unit :=
  let! sec := kdo CurrentTimeSec in
  let! nsec := kdo CurrentTimeNsec in
  upd_inode ino (stamp_inode sec nsec).

(** The number of the inode, locked and unlinked, or an error.
    [insert_inode_locked] refuses a number that is already hashed. *)
Definition alloc_new_inode : M Z :=
  let! s := get_sbi in
  if nr_free_inodes s =? 0 then ret (- ENOSPC) else
  let! ino := get_free_inode in
  if ino =? 0 then ret (- ENOSPC) else
  let! null := kdo NewInode in
  if negb (null =? 0) then run! put_inode ino in ret (- ENOMEM) else
  let! hashed := gets (fun w => bool_decide (is_Some (w_inodes w !! ino))) in
  let! busy := kdo (InsertInodeLocked ino) in
  if hashed || negb (busy =? 0) then
    run! kdo (MakeBadInode ino) in
    run! kdo (TruncateInodePages ino) in
    run! kdo (ClearInode ino) in
    run! put_inode ino in
    ret (- EIO)
  else
  run! simplefs_alloc_inode ino in
  let! gen := kdo GetRandomU32 in
  let gen := if u32 gen =? 0 then 1 else u32 gen in
  run! upd_inode ino (fresh_inode ino gen) in
  ret ino.

(** Symbolic links and special files have no block of their own. *)
Definition init_blockless (ino dir mode : Z) : M Z :=
  run! inode_init_owner ino dir mode in
  run! set_nlink ino 1 in
  run! current_time_all ino in
  simplefs_init_acl ino dir.

(** Regular files and directories start with an empty extent root. *)
Definition init_with_root (ino dir mode : Z) : M Z :=
  let! bno := get_free_blocks 1 in
  if bno =? 0 then ret (- ENOSPC) else
  let! r := simplefs_get_zeroed_folio bno in
  if IS_ERR r then run! put_blocks bno 1 in ret r else
  let! img := read_image bno in
  run! write_image bno (if S_ISREG mode || S_ISDIR mode
                        then simplefs_file_init_extent_root img else 0) in
  let! r := simplefs_journal_dirty_folio bno (folio_of bno) in
  if negb (r =? 0) then run! put_blocks bno 1 in ret r else
  run! inode_init_owner ino dir mode in
  run! upd_inode ino (set_i_blocks (simplefs_blocks_to_sectors 1)) in
  run! (if S_ISDIR mode then upd_inode ino (fun i => set_i_nlink 2 (set_i_size 0 (set_ei_block bno i)))
        else when (S_ISREG mode)
               (upd_inode ino (fun i => set_i_nlink 1 (set_i_size 0 (set_ei_block bno i))))) in
  run! current_time_all ino in
  simplefs_init_acl ino dir.

Definition simplefs_new_inode (dir mode : Z) : M Z :=
  if negb (mode_supported mode) then ret (- EINVAL) else
  let! ino := alloc_new_inode in
  if IS_ERR ino then ret ino else
  let! r := (if S_ISLNK mode || S_ISCHR mode || S_ISBLK mode || S_ISFIFO mode || S_ISSOCK mode
             then init_blockless ino dir mode else init_with_root ino dir mode) in
  if negb (r =? 0) then
    run! clear_nlink ino in
    run! discard_new_inode ino in
    ret r
  else ret ino.

Definition simplefs_create_internal (dir : Z) (dentry : dentry) (mode : Z) : M Z :=
  if SIMPLEFS_FILENAME_LEN <? q_len (d_name dentry) then ret (- ENAMETOOLONG) else
  let! ino := simplefs_new_inode dir mode in
  if IS_ERR ino then ret ino else
  let fail r := run! simplefs_release_new_inode ino in ret r in
  let! r := simplefs_init_security ino dir in
  if negb (r =? 0) then fail r else
  run! simplefs_set_parent_ino ino dir in
  run! mark_inode_dirty ino in
  let! r := simplefs_persist_inode ino in
  if negb (r =? 0) then fail r else
  let! r := simplefs_dir_add dir (d_name dentry) ino in
  if negb (r =? 0) then fail r else
  run! when (S_ISDIR mode) (inc_nlink dir) in
  run! touch_dir dir in
  run! mark_inode_dirty dir in
  let! r := simplefs_persist_inode dir in
  if negb (r =? 0) then run! simplefs_journal_fail r in fail r else
  run! kdo (DInstantiate ino) in
  ret 0.

Definition simplefs_create (dir : Z) (dentry : dentry) (mode : Z) : M Z :=
  in_transaction 32 (simplefs_create_internal dir dentry mode).

Definition simplefs_mkdir (dir : Z) (dentry : dentry) (mode : Z) : M Z :=
  let! handle := simplefs_journal_start 32 in
  if HANDLE_IS_ERR handle then ret (HANDLE_PTR_ERR handle) else
  let! de := simplefs_create_internal dir dentry (Z.lor mode S_IFDIR) in
  if IS_ERR de then
    run! simplefs_journal_abort handle de in
    run! simplefs_journal_stop handle in
    ret de
  else
  let! r := simplefs_journal_stop handle in
  ret (if negb (r =? 0) then - EIO else de).

Definition simplefs_add_to_dir (dir : Z) (dentry : dentry) (inode : Z) : M Z :=
  let! i := get_inode inode in
  simplefs_dir_add dir (d_name dentry) (u32 (i_ino i)).

(** Both records go to the inode table; the codes are not looked at. *)
Definition publish_new (dir inode : Z) : M unit :=
  run! mark_inode_dirty inode in
  run! simplefs_persist_inode inode in
  run! touch_dir dir in
  run! mark_inode_dirty dir in
  run! simplefs_persist_inode dir in
  run! kdo (DInstantiate inode) in
  ret tt.

(** The target of [len] bytes, in the inode or in a block of its own. *)
Definition symlink_store (ino symname len : Z) : M Z :=
  if len <? sizeof_i_data then
    run! upd_inode ino (fun i => set_i_blocks 0 (set_ei_block 0
           (set_i_data (put_bytes (put_bytes (i_data i) 0 len symname) len 1 0) i))) in
    ret 0
  else
  let! bno := get_free_blocks 1 in
  if bno =? 0 then ret (- ENOSPC) else
  let! r := simplefs_get_folio bno in
  if IS_ERR r then run! put_blocks bno 1 in ret r else
  run! write_image bno (put_bytes 0 0 len symname) in
  let! r := simplefs_journal_dirty_folio bno (folio_of bno) in
  if negb (r =? 0) then run! put_blocks bno 1 in ret r else
  run! upd_inode ino (fun i => set_i_blocks (simplefs_blocks_to_sectors 1)
         (set_i_data 0 (set_ei_block bno i))) in
  ret 0.

Definition symlink_body (dir : Z) (dentry : dentry) (symname len : Z) : M Z :=
  let! ino := simplefs_new_inode dir (Z.lor S_IFLNK 511) in
  if IS_ERR ino then ret ino else
  let fail r := run! simplefs_release_new_inode ino in ret r in
  let! r := symlink_store ino symname len in
  if negb (r =? 0) then fail r else
  run! upd_inode ino (set_i_size len) in
  let! r := simplefs_init_security ino dir in
  if negb (r =? 0) then fail r else
  let! r := simplefs_add_to_dir dir dentry ino in
  if negb (r =? 0) then fail r else
  run! publish_new dir ino in
  ret 0.

Definition simplefs_symlink (dir : Z) (dentry : dentry) (symname len : Z) : M Z :=
  if SIMPLEFS_BLOCK_SIZE <=? len then ret (- ENAMETOOLONG) else
  in_handle 32 (symlink_body dir dentry symname len).

Definition simplefs_link (old_dentry : dentry) (dir : Z) (dentry : dentry) : M Z :=
  let inode := d_positive old_dentry in
  let! handle := simplefs_journal_start 32 in
  if HANDLE_IS_ERR handle then ret (HANDLE_PTR_ERR handle) else
  run! touch_ctime inode in
  run! inc_nlink inode in
  run! mark_inode_dirty inode in
  let! err := simplefs_add_to_dir dir dentry inode in
  if negb (err =? 0) then
    run! drop_nlink inode in
    run! mark_inode_dirty inode in
    run! iput inode in
    run! simplefs_journal_abort handle err in
    run! simplefs_journal_stop handle in
    ret err
  else
  run! publish_new dir inode in
  simplefs_journal_stop handle.

Definition tmpfile_body (dir mode : Z) : M Z :=
  let! ino := simplefs_new_inode dir (Z.lor mode S_IFREG) in
  if IS_ERR ino then ret ino else
  run! set_nlink ino 1 in
  run! mark_inode_dirty ino in
  run! drop_nlink ino in                   (* d_tmpfile *)
  run! mark_inode_dirty ino in
  run! kdo (DTmpfile ino) in
  let! err := kdo (FinishOpenSimple ino) in
  run! when (negb (err =? 0)) (discard_new_inode ino) in
  ret err.

Definition simplefs_tmpfile (dir mode : Z) : M Z := in_handle 32 (tmpfile_body dir mode).

Definition mknod_body (dir : Z) (dentry : dentry) (mode rdev : Z) : M Z :=
  let! ino := simplefs_new_inode dir mode in
  if IS_ERR ino then ret ino else
  let fail r := run! simplefs_release_new_inode ino in ret r in
  let! i := get_inode ino in
  run! init_special_inode ino (i_mode i) rdev in
  run! when (S_ISBLK mode || S_ISCHR mode)
    (upd_inode ino (fun i => set_i_data (put_u32 (i_data i) 0 (u32 (old_encode_dev rdev))) i)) in
  let! r := simplefs_init_security ino dir in
  if negb (r =? 0) then fail r else
  let! r := simplefs_add_to_dir dir dentry ino in
  if negb (r =? 0) then fail r else
  run! publish_new dir ino in
  ret 0.

Definition simplefs_mknod (dir : Z) (dentry : dentry) (mode rdev : Z) : M Z :=
  in_handle 32 (mknod_body dir dentry mode rdev).

(** ** Rename *)

(** The old entry takes the new name, in place. *)
Definition rename_in_place (dir slot old_inode : Z) (new_dentry : dentry) : M Z :=
  let! i := get_inode old_inode in
  let! r := simplefs_update_dir_entry dir slot (u32 (i_ino i)) (Some (d_name new_dentry)) false in
  if negb (r =? 0) then ret r else
  run! touch_ctime old_inode in
  run! mark_inode_dirty old_inode in
  run! simplefs_touch_rename_dirs dir dir in
  ret 0.

(** A replaced target loses its entry first. *)
Definition rename_replace (new_dir : Z) (new_dentry : dentry) : M Z :=
  match d_inode new_dentry with
  | None => ret 0
  | Some n =>
      let! r := simplefs_unlink_internal new_dir new_dentry in
      if negb (r =? 0) then ret r else
      let! i := get_inode n in
      run! when (S_ISDIR (i_mode i)) (drop_nlink_if new_dir) in
      ret 0
  end.

(** The new entry. *)
Definition rename_enter (old_inode new_dir : Z) (new_dentry : dentry) : M Z :=
  let! i := get_inode old_inode in
  let! (r, new_slot) := simplefs_find_free_dir_entry new_dir in
  if negb (r =? 0) then ret r else
  let! r := simplefs_update_dir_entry new_dir new_slot (u32 (i_ino i)) (Some (d_name new_dentry)) false in
  if negb (r =? 0) then ret r else
  run! nr_files_add new_dir 1 in
  simplefs_mark_dir_index_dirty new_dir.

(** The removal of the old one. *)
Definition rename_leave (old_dir old_slot : Z) : M Z :=
  let! r := simplefs_update_dir_entry old_dir old_slot 0 None true in
  if negb (r =? 0) then ret r else
  run! nr_files_add old_dir (-1) in
  simplefs_mark_dir_index_dirty old_dir.

(** Both, then the link counts. *)
Definition rename_move (old_dir old_slot old_inode new_dir : Z) (new_dentry : dentry) : M Z :=
  let! r := rename_enter old_inode new_dir new_dentry in
  if negb (r =? 0) then ret r else
  let! r := rename_leave old_dir old_slot in
  if negb (r =? 0) then ret r else
  let! i := get_inode old_inode in
  run! when (S_ISDIR (i_mode i) && negb (old_dir =? new_dir))
    (run! simplefs_set_parent_ino old_inode new_dir in
     run! drop_nlink_if old_dir in
     inc_nlink new_dir) in
  run! touch_ctime old_inode in
  run! mark_inode_dirty old_inode in
  run! simplefs_touch_rename_dirs old_dir new_dir in
  ret 0.

Definition simplefs_rename_normal (old_dir : Z) (old_dentry : dentry) (new_dir : Z)
    (new_dentry : dentry) (flags : Z) : M Z :=
  let old_inode := d_positive old_dentry in
  if has_flag flags RENAME_NOREPLACE && is_positive new_dentry then ret (- EEXIST) else
  let! r := simplefs_dir_get old_dir in
  if negb (r =? 0) then ret r else
  let! (r, old_slot) := simplefs_find_dir_entry old_dir (d_name old_dentry) old_inode in
  if negb (r =? 0) then ret r else
  if (old_dir =? new_dir) && negb (is_positive new_dentry) then
    rename_in_place old_dir old_slot old_inode new_dentry
  else
  let! r := simplefs_rename_check_subdir old_inode new_dentry in
  if negb (r =? 0) then ret r else
  let! r := simplefs_prepare_rename_target old_inode (d_inode new_dentry) in
  if negb (r =? 0) then ret r else
  let! r := rename_replace new_dir new_dentry in
  if negb (r =? 0) then ret r else
  let! r := (if old_dir =? new_dir then ret 0 else simplefs_dir_get new_dir) in
  if negb (r =? 0) then ret r else
  rename_move old_dir old_slot old_inode new_dir new_dentry.

(** The link counts of the parents of two exchanged entries. *)
Definition exchange_links (old_dir new_dir : Z) (old_is_dir new_is_dir : bool) : M unit :=
  when (negb (old_dir =? new_dir) && negb (Bool.eqb old_is_dir new_is_dir))
    (if old_is_dir then run! drop_nlink_if old_dir in inc_nlink new_dir
     else run! inc_nlink old_dir in drop_nlink_if new_dir).

Definition simplefs_rename_exchange (old_dir : Z) (old_dentry : dentry) (new_dir : Z)
    (new_dentry : dentry) : M Z :=
  let old_inode := d_positive old_dentry in
  match d_inode new_dentry with
  | None => ret (- ENOENT)
  | Some new_inode =>
      let! r := simplefs_dir_get old_dir in
      if negb (r =? 0) then ret r else
      let! (r, old_slot) := simplefs_find_dir_entry old_dir (d_name old_dentry) old_inode in
      if negb (r =? 0) then ret r else
      let! r := (if old_dir =? new_dir then ret 0 else simplefs_dir_get new_dir) in
      if negb (r =? 0) then ret r else
      let! (r, new_slot) := simplefs_find_dir_entry new_dir (d_name new_dentry) new_inode in
      if negb (r =? 0) then ret r else
      let! o := get_inode old_inode in
      let! n := get_inode new_inode in
      let! r := simplefs_update_dir_entry old_dir old_slot (u32 (i_ino n)) None false in
      if negb (r =? 0) then ret r else
      let! r := simplefs_update_dir_entry new_dir new_slot (u32 (i_ino o)) None false in
      if negb (r =? 0) then
        run! simplefs_update_dir_entry old_dir old_slot (u32 (i_ino o)) None false in
        ret r
      else
      run! exchange_links old_dir new_dir (S_ISDIR (i_mode o)) (S_ISDIR (i_mode n)) in
      run! when (negb (old_dir =? new_dir)) (simplefs_set_parent_ino old_inode new_dir) in
      run! when (negb (old_dir =? new_dir)) (simplefs_set_parent_ino new_inode old_dir) in
      run! touch_ctime old_inode in
      run! mark_inode_dirty old_inode in
      run! touch_ctime new_inode in
      run! mark_inode_dirty new_inode in
      run! simplefs_touch_rename_dirs old_dir new_dir in
      ret 0
  end.

Definition simplefs_rollback_whiteout_target (new_dir new_slot : Z) (replaced_target : bool)
    (replaced_ino : Z) : M unit :=
  if replaced_target then
    run! simplefs_update_dir_entry new_dir new_slot replaced_ino None false in ret tt
  else
  run! simplefs_update_dir_entry new_dir new_slot 0 None true in
  let! ix := get_index new_dir in
  when (0 <? di_nr_files ix)
    (run! nr_files_add new_dir (-1) in
     run! simplefs_mark_dir_index_dirty new_dir in ret tt).

Definition simplefs_new_whiteout (dir : Z) : M Z :=
  let! ino := simplefs_new_inode dir (Z.lor S_IFCHR WHITEOUT_MODE) in
  if IS_ERR ino then ret ino else
  let! i := get_inode ino in
  run! init_special_inode ino (i_mode i) WHITEOUT_DEV in
  run! upd_inode ino (fun i => set_i_data (put_u32 (i_data i) 0 (u32 (old_encode_dev WHITEOUT_DEV))) i) in
  let! r := simplefs_init_security ino dir in
  if negb (r =? 0) then run! simplefs_release_new_inode ino in ret r else ret ino.

(** The new name points to the moved inode: the code and the slot. *)
Definition whiteout_target (old_inode new_dir : Z) (new_dentry : dentry) : M (Z * Z) :=
  let! o := get_inode old_inode in
  match d_inode new_dentry with
  | Some n =>
      let! (r, new_slot) := simplefs_find_dir_entry new_dir (d_name new_dentry) n in
      if negb (r =? 0) then ret (r, new_slot) else
      let! r := simplefs_update_dir_entry new_dir new_slot (u32 (i_ino o)) None false in
      ret (r, new_slot)
  | None =>
      let! (r, new_slot) := simplefs_find_free_dir_entry new_dir in
      if negb (r =? 0) then ret (r, new_slot) else
      let! r := simplefs_update_dir_entry new_dir new_slot (u32 (i_ino o)) (Some (d_name new_dentry)) false in
      if negb (r =? 0) then ret (r, new_slot) else
      run! nr_files_add new_dir 1 in
      let! r := simplefs_mark_dir_index_dirty new_dir in
      if negb (r =? 0) then
        run! nr_files_add new_dir (-1) in
        run! simplefs_update_dir_entry new_dir new_slot 0 None true in
        ret (r, new_slot)
      else ret (0, new_slot)
  end.

(** Link counts and time stamps after both entries are in place. *)
Definition whiteout_links (old_dir old_inode new_dir : Z) (new_dentry : dentry) : M unit :=
  run! touch_ctime old_inode in
  run! mark_inode_dirty old_inode in
  run! match d_inode new_dentry with
       | Some n =>
           let! i := get_inode n in
           run! (if S_ISDIR (i_mode i) then clear_nlink n else drop_nlink_if n) in
           run! touch_ctime n in
           mark_inode_dirty n
       | None => ret tt
       end in
  let! o := get_inode old_inode in
  run! when (S_ISDIR (i_mode o) && negb (old_dir =? new_dir))
    (run! simplefs_set_parent_ino old_inode new_dir in
     run! drop_nlink_if old_dir in
     when (negb (is_positive new_dentry)) (inc_nlink new_dir)) in
  simplefs_touch_rename_dirs old_dir new_dir.

Definition whiteout_body (whiteout old_dir : Z) (old_dentry : dentry) (new_dir : Z)
    (new_dentry : dentry) : M Z :=
  let old_inode := d_positive old_dentry in
  let! r := simplefs_dir_get old_dir in
  if negb (r =? 0) then ret r else
  let! (r, old_slot) := simplefs_find_dir_entry old_dir (d_name old_dentry) old_inode in
  if negb (r =? 0) then ret r else
  let! r := simplefs_rename_check_subdir old_inode new_dentry in
  if negb (r =? 0) then ret r else
  let! r := simplefs_prepare_rename_target old_inode (d_inode new_dentry) in
  if negb (r =? 0) then ret r else
  let! r := (if old_dir =? new_dir then ret 0 else simplefs_dir_get new_dir) in
  if negb (r =? 0) then ret r else
  let! (r, new_slot) := whiteout_target old_inode new_dir new_dentry in
  if negb (r =? 0) then ret r else
  let! wo := get_inode whiteout in
  let! n := get_inode (d_positive new_dentry) in
  let! r := simplefs_update_dir_entry old_dir old_slot (u32 (i_ino wo)) None false in
  if negb (r =? 0) then
    run! simplefs_rollback_whiteout_target new_dir new_slot (is_positive new_dentry) (u32 (i_ino n)) in
    ret r
  else
  run! mark_inode_dirty whiteout in
  let! r := simplefs_persist_inode whiteout in
  if negb (r =? 0) then run! simplefs_journal_fail r in ret r else
  run! whiteout_links old_dir old_inode new_dir new_dentry in
  ret 0.

Definition simplefs_rename_whiteout (old_dir : Z) (old_dentry : dentry) (new_dir : Z)
    (new_dentry : dentry) : M Z :=
  let! whiteout := simplefs_new_whiteout old_dir in
  if IS_ERR whiteout then ret whiteout else
  let! r := whiteout_body whiteout old_dir old_dentry new_dir new_dentry in
  run! (if negb (r =? 0) then simplefs_release_new_inode whiteout else iput whiteout) in
  ret r.

Definition simplefs_rename_internal (old_dir : Z) (old_dentry : dentry) (new_dir : Z)
    (new_dentry : dentry) (flags : Z) : M Z :=
  if negb (Z.ldiff flags (Z.lor RENAME_NOREPLACE (Z.lor RENAME_EXCHANGE RENAME_WHITEOUT)) =? 0)
  then ret (- EINVAL) else
  if has_flag flags RENAME_EXCHANGE then simplefs_rename_exchange old_dir old_dentry new_dir new_dentry else
  if has_flag flags RENAME_WHITEOUT then simplefs_rename_whiteout old_dir old_dentry new_dir new_dentry else
  simplefs_rename_normal old_dir old_dentry new_dir new_dentry flags.

(** The records of every inode a rename touched. *)
Definition rename_persist (old_dir old_inode new_dir : Z) (new_inode : option Z) : M Z :=
  let! r := simplefs_persist_inode old_inode in
  let! r := (match new_inode with
             | Some n => if r =? 0 then simplefs_persist_inode n else ret r
             | None => ret r
             end) in
  let! r := (if r =? 0 then simplefs_persist_inode old_dir else ret r) in
  if (r =? 0) && negb (old_dir =? new_dir) then simplefs_persist_inode new_dir else ret r.

Definition rename_credits (old_dir new_dir : Z) (positive : bool) (flags : Z) : Z :=
  8 + (if old_dir =? new_dir then 0 else 2) + (if positive then 2 else 0) +
  (if has_flag flags RENAME_EXCHANGE then 2 else 0) +
  (if has_flag flags RENAME_WHITEOUT then 4 else 0).

Definition simplefs_rename (old_dir : Z) (old_dentry : dentry) (new_dir : Z)
    (new_dentry : dentry) (flags : Z) : M Z :=
  let! n := get_inode (d_positive new_dentry) in
  let! r := (if negb (has_flag flags RENAME_EXCHANGE) && is_positive new_dentry && S_ISDIR (i_mode n)
             then simplefs_dir_trim (d_positive new_dentry) else ret 0) in
  if negb (r =? 0) then ret r else
  let! handle := simplefs_journal_start (rename_credits old_dir new_dir (is_positive new_dentry) flags) in
  if HANDLE_IS_ERR handle then ret (HANDLE_PTR_ERR handle) else
  let! r := simplefs_rename_internal old_dir old_dentry new_dir new_dentry flags in
  if negb (r =? 0) then
    run! simplefs_journal_abort handle r in
    run! simplefs_journal_stop handle in
    ret r
  else
  let! r := rename_persist old_dir (d_positive old_dentry) new_dir (d_inode new_dentry) in
  run! when (negb (r =? 0)) (simplefs_journal_fail r) in
  let! stop_ret := simplefs_journal_stop handle in
  ret (if negb (r =? 0) then r else stop_ret).

End Ops.

(** ** What every operation preserves

    An invariant of the interface [FStable], the allocator's invariant and the
    write-ahead discipline among them, survives each operation. *)

Section Preserve.
Context {K : Kernel} {V : Vfs} (I : world -> Prop) `{!FStable I}.

Lemma drop_inode_pres ino : preserves I (drop_inode ino).
Proof. apply fs_inodes. Qed.
Lemma alloc_inode_pres ino : preserves I (simplefs_alloc_inode ino).
Proof. unfold simplefs_alloc_inode. pres. Qed.
Local Hint Resolve drop_inode_pres alloc_inode_pres : pres.
Lemma set_nlink_pres inode n : preserves I (set_nlink inode n).
Proof. unfold set_nlink. pres. Qed.
Local Hint Resolve set_nlink_pres : pres.
Lemma clear_nlink_pres inode : preserves I (clear_nlink inode).
Proof. unfold clear_nlink. pres. Qed.
Local Hint Resolve clear_nlink_pres : pres.
Lemma drop_nlink_pres inode : preserves I (drop_nlink inode).
Proof. unfold drop_nlink. pres. Qed.
Local Hint Resolve drop_nlink_pres : pres.
Lemma inc_nlink_pres inode : preserves I (inc_nlink inode).
Proof. unfold inc_nlink. pres. Qed.
Local Hint Resolve inc_nlink_pres : pres.
Lemma drop_nlink_if_pres inode : preserves I (drop_nlink_if inode).
Proof. unfold drop_nlink_if. pres. Qed.
Local Hint Resolve drop_nlink_if_pres : pres.
Lemma mark_inode_dirty_pres inode : preserves I (mark_inode_dirty inode).
Proof. unfold mark_inode_dirty. pres. Qed.
Local Hint Resolve mark_inode_dirty_pres : pres.
Lemma touch_ctime_pres inode : preserves I (touch_ctime inode).
Proof. unfold touch_ctime. pres. Qed.
Local Hint Resolve touch_ctime_pres : pres.
Lemma touch_dir_pres dir : preserves I (touch_dir dir).
Proof. unfold touch_dir. pres. Qed.
Local Hint Resolve touch_dir_pres : pres.
Lemma iput_pres inode : preserves I (iput inode).
Proof. unfold iput. pres. Qed.
Local Hint Resolve iput_pres : pres.
Lemma discard_new_inode_pres inode : preserves I (discard_new_inode inode).
Proof. unfold discard_new_inode. pres. Qed.
Local Hint Resolve discard_new_inode_pres : pres.
Lemma inode_init_owner_pres inode dir mode : preserves I (inode_init_owner inode dir mode).
Proof. unfold inode_init_owner. pres. Qed.
Local Hint Resolve inode_init_owner_pres : pres.
Lemma init_special_inode_pres inode mode rdev : preserves I (init_special_inode inode mode rdev).
Proof. unfold init_special_inode. pres. Qed.
Local Hint Resolve init_special_inode_pres : pres.
Lemma dir_is_empty_pres inode : preserves I (simplefs_dir_is_empty inode).
Proof. unfold simplefs_dir_is_empty. pres. Qed.
Local Hint Resolve dir_is_empty_pres : pres.
Lemma initxattrs_pres inode xattr_array : preserves I (simplefs_initxattrs inode xattr_array).
Proof. unfold simplefs_initxattrs. pres. Qed.
Local Hint Resolve initxattrs_pres : pres.
Lemma init_security_pres inode dir : preserves I (simplefs_init_security inode dir).
Proof. unfold simplefs_init_security. pres. Qed.
Local Hint Resolve init_security_pres : pres.
Lemma release_new_inode_pres inode : preserves I (simplefs_release_new_inode inode).
Proof. unfold simplefs_release_new_inode. pres. Qed.
Local Hint Resolve release_new_inode_pres : pres.
Lemma set_parent_ino_pres inode dir : preserves I (simplefs_set_parent_ino inode dir).
Proof. unfold simplefs_set_parent_ino. pres. Qed.
Local Hint Resolve set_parent_ino_pres : pres.
Lemma find_dir_entry_pres dir name inode : preserves I (simplefs_find_dir_entry dir name inode).
Proof. unfold simplefs_find_dir_entry. pres. Qed.
Local Hint Resolve find_dir_entry_pres : pres.
Lemma find_free_dir_entry_pres dir : preserves I (simplefs_find_free_dir_entry dir).
Proof. unfold simplefs_find_free_dir_entry. pres. Qed.
Local Hint Resolve find_free_dir_entry_pres : pres.
Lemma update_dir_entry_pres dir slot ino name clear : preserves I (simplefs_update_dir_entry dir slot ino name clear).
Proof. unfold simplefs_update_dir_entry. pres. Qed.
Local Hint Resolve update_dir_entry_pres : pres.
Lemma nr_files_add_pres dir n : preserves I (nr_files_add dir n).
Proof. unfold nr_files_add. pres. Qed.
Local Hint Resolve nr_files_add_pres : pres.
Lemma mark_dir_index_dirty_pres dir : preserves I (simplefs_mark_dir_index_dirty dir).
Proof. unfold simplefs_mark_dir_index_dirty. pres. Qed.
Local Hint Resolve mark_dir_index_dirty_pres : pres.
Lemma rename_check_subdir_pres old_inode new_dentry : preserves I (simplefs_rename_check_subdir old_inode new_dentry).
Proof. unfold simplefs_rename_check_subdir. pres. Qed.
Local Hint Resolve rename_check_subdir_pres : pres.
Lemma prepare_rename_target_pres old_inode new_inode : preserves I (simplefs_prepare_rename_target old_inode new_inode).
Proof. unfold simplefs_prepare_rename_target. pres. Qed.
Local Hint Resolve prepare_rename_target_pres : pres.
Lemma touch_rename_dirs_pres old_dir new_dir : preserves I (simplefs_touch_rename_dirs old_dir new_dir).
Proof. unfold simplefs_touch_rename_dirs. pres. Qed.
Local Hint Resolve touch_rename_dirs_pres : pres.
Lemma in_transaction_pres c m : preserves I m -> preserves I (in_transaction c m).
Proof. intros H. unfold in_transaction. pres; exact H. Qed.
Local Hint Resolve in_transaction_pres : pres.
Lemma in_handle_pres c m : preserves I m -> preserves I (in_handle c m).
Proof. intros H. unfold in_handle. pres; exact H. Qed.
Local Hint Resolve in_handle_pres : pres.
Lemma unlink_internal_pres dir de : preserves I (simplefs_unlink_internal dir de).
Proof. unfold simplefs_unlink_internal. pres. Qed.
Local Hint Resolve unlink_internal_pres : pres.
Lemma unlink_pres dir de : preserves I (simplefs_unlink dir de).
Proof. unfold simplefs_unlink. pres. Qed.
Local Hint Resolve unlink_pres : pres.
Lemma rmdir_body_pres dir de : preserves I (rmdir_body dir de).
Proof. unfold rmdir_body. pres. Qed.
Local Hint Resolve rmdir_body_pres : pres.
Lemma rmdir_pres dir de : preserves I (simplefs_rmdir dir de).
Proof. unfold simplefs_rmdir. pres. Qed.
Local Hint Resolve rmdir_pres : pres.
Lemma get_link_pres has_dentry inode : preserves I (simplefs_get_link has_dentry inode).
Proof. unfold simplefs_get_link. pres. Qed.
Local Hint Resolve get_link_pres : pres.
Lemma lookup_pres dir name : preserves I (simplefs_lookup dir name).
Proof. unfold simplefs_lookup. pres. Qed.
Local Hint Resolve lookup_pres : pres.
Lemma current_time_all_pres ino : preserves I (current_time_all ino).
Proof. unfold current_time_all. pres. Qed.
Local Hint Resolve current_time_all_pres : pres.
Lemma alloc_new_inode_pres : preserves I (alloc_new_inode ).
Proof. unfold alloc_new_inode. pres. Qed.
Local Hint Resolve alloc_new_inode_pres : pres.
Lemma init_blockless_pres ino dir mode : preserves I (init_blockless ino dir mode).
Proof. unfold init_blockless. pres. Qed.
Local Hint Resolve init_blockless_pres : pres.
Lemma init_with_root_pres ino dir mode : preserves I (init_with_root ino dir mode).
Proof. unfold init_with_root. pres. Qed.
Local Hint Resolve init_with_root_pres : pres.
Lemma new_inode_pres dir mode : preserves I (simplefs_new_inode dir mode).
Proof. unfold simplefs_new_inode. pres. Qed.
Local Hint Resolve new_inode_pres : pres.
Lemma create_internal_pres dir de mode : preserves I (simplefs_create_internal dir de mode).
Proof. unfold simplefs_create_internal. pres. Qed.
Local Hint Resolve create_internal_pres : pres.
Lemma create_pres dir de mode : preserves I (simplefs_create dir de mode).
Proof. unfold simplefs_create. pres. Qed.
Local Hint Resolve create_pres : pres.
Lemma mkdir_pres dir de mode : preserves I (simplefs_mkdir dir de mode).
Proof. unfold simplefs_mkdir. pres. Qed.
Local Hint Resolve mkdir_pres : pres.
Lemma add_to_dir_pres dir de inode : preserves I (simplefs_add_to_dir dir de inode).
Proof. unfold simplefs_add_to_dir. pres. Qed.
Local Hint Resolve add_to_dir_pres : pres.
Lemma publish_new_pres dir inode : preserves I (publish_new dir inode).
Proof. unfold publish_new. pres. Qed.
Local Hint Resolve publish_new_pres : pres.
Lemma symlink_store_pres ino symname len : preserves I (symlink_store ino symname len).
Proof. unfold symlink_store. pres. Qed.
Local Hint Resolve symlink_store_pres : pres.
Lemma symlink_body_pres dir de symname len : preserves I (symlink_body dir de symname len).
Proof. unfold symlink_body. pres. Qed.
Local Hint Resolve symlink_body_pres : pres.
Lemma symlink_pres dir de symname len : preserves I (simplefs_symlink dir de symname len).
Proof. unfold simplefs_symlink. pres. Qed.
Local Hint Resolve symlink_pres : pres.
Lemma link_pres old_dentry dir de : preserves I (simplefs_link old_dentry dir de).
Proof. unfold simplefs_link. pres. Qed.
Local Hint Resolve link_pres : pres.
Lemma tmpfile_body_pres dir mode : preserves I (tmpfile_body dir mode).
Proof. unfold tmpfile_body. pres. Qed.
Local Hint Resolve tmpfile_body_pres : pres.
Lemma tmpfile_pres dir mode : preserves I (simplefs_tmpfile dir mode).
Proof. unfold simplefs_tmpfile. pres. Qed.
Local Hint Resolve tmpfile_pres : pres.
Lemma mknod_body_pres dir de mode rdev : preserves I (mknod_body dir de mode rdev).
Proof. unfold mknod_body. pres. Qed.
Local Hint Resolve mknod_body_pres : pres.
Lemma mknod_pres dir de mode rdev : preserves I (simplefs_mknod dir de mode rdev).
Proof. unfold simplefs_mknod. pres. Qed.
Local Hint Resolve mknod_pres : pres.
Lemma rename_in_place_pres dir slot old_inode new_dentry : preserves I (rename_in_place dir slot old_inode new_dentry).
Proof. unfold rename_in_place. pres. Qed.
Local Hint Resolve rename_in_place_pres : pres.
Lemma rename_replace_pres new_dir new_dentry : preserves I (rename_replace new_dir new_dentry).
Proof. unfold rename_replace. pres. Qed.
Local Hint Resolve rename_replace_pres : pres.
Lemma rename_enter_pres old_inode new_dir new_dentry : preserves I (rename_enter old_inode new_dir new_dentry).
Proof. unfold rename_enter. pres. Qed.
Lemma rename_leave_pres old_dir old_slot : preserves I (rename_leave old_dir old_slot).
Proof. unfold rename_leave. pres. Qed.
Local Hint Resolve rename_enter_pres rename_leave_pres : pres.
Lemma rename_move_pres old_dir old_slot old_inode new_dir new_dentry : preserves I (rename_move old_dir old_slot old_inode new_dir new_dentry).
Proof. unfold rename_move. pres. Qed.
Local Hint Resolve rename_move_pres : pres.
Lemma rename_normal_pres old_dir old_dentry new_dir new_dentry flags : preserves I (simplefs_rename_normal old_dir old_dentry new_dir new_dentry flags).
Proof. unfold simplefs_rename_normal. pres. Qed.
Local Hint Resolve rename_normal_pres : pres.
Lemma exchange_links_pres old_dir new_dir old_is_dir new_is_dir : preserves I (exchange_links old_dir new_dir old_is_dir new_is_dir).
Proof. unfold exchange_links. pres. Qed.
Local Hint Resolve exchange_links_pres : pres.
Lemma rename_exchange_pres old_dir old_dentry new_dir new_dentry : preserves I (simplefs_rename_exchange old_dir old_dentry new_dir new_dentry).
Proof. unfold simplefs_rename_exchange. pres. Qed.
Local Hint Resolve rename_exchange_pres : pres.
Lemma rollback_whiteout_target_pres new_dir new_slot replaced_target replaced_ino : preserves I (simplefs_rollback_whiteout_target new_dir new_slot replaced_target replaced_ino).
Proof. unfold simplefs_rollback_whiteout_target. pres. Qed.
Local Hint Resolve rollback_whiteout_target_pres : pres.
Lemma new_whiteout_pres dir : preserves I (simplefs_new_whiteout dir).
Proof. unfold simplefs_new_whiteout. pres. Qed.
Local Hint Resolve new_whiteout_pres : pres.
Lemma whiteout_target_pres old_inode new_dir new_dentry : preserves I (whiteout_target old_inode new_dir new_dentry).
Proof. unfold whiteout_target. pres. Qed.
Local Hint Resolve whiteout_target_pres : pres.
Lemma whiteout_links_pres old_dir old_inode new_dir new_dentry : preserves I (whiteout_links old_dir old_inode new_dir new_dentry).
Proof. unfold whiteout_links. pres. Qed.
Local Hint Resolve whiteout_links_pres : pres.
Lemma whiteout_body_pres whiteout old_dir old_dentry new_dir new_dentry : preserves I (whiteout_body whiteout old_dir old_dentry new_dir new_dentry).
Proof. unfold whiteout_body. pres. Qed.
Local Hint Resolve whiteout_body_pres : pres.
Lemma rename_whiteout_pres old_dir old_dentry new_dir new_dentry : preserves I (simplefs_rename_whiteout old_dir old_dentry new_dir new_dentry).
Proof. unfold simplefs_rename_whiteout. pres. Qed.
Local Hint Resolve rename_whiteout_pres : pres.
Lemma rename_internal_pres old_dir old_dentry new_dir new_dentry flags : preserves I (simplefs_rename_internal old_dir old_dentry new_dir new_dentry flags).
Proof. unfold simplefs_rename_internal. pres. Qed.
Local Hint Resolve rename_internal_pres : pres.
Lemma rename_persist_pres old_dir old_inode new_dir new_inode : preserves I (rename_persist old_dir old_inode new_dir new_inode).
Proof. unfold rename_persist. pres. Qed.
Local Hint Resolve rename_persist_pres : pres.
Lemma rename_pres old_dir old_dentry new_dir new_dentry flags : preserves I (simplefs_rename old_dir old_dentry new_dir new_dentry flags).
Proof. unfold simplefs_rename. pres. Qed.
Local Hint Resolve rename_pres : pres.
End Preserve.

#[export] Hint Resolve set_nlink_pres clear_nlink_pres drop_nlink_pres inc_nlink_pres drop_nlink_if_pres
  mark_inode_dirty_pres touch_ctime_pres touch_dir_pres iput_pres discard_new_inode_pres
  inode_init_owner_pres init_special_inode_pres dir_is_empty_pres initxattrs_pres init_security_pres
  release_new_inode_pres set_parent_ino_pres find_dir_entry_pres find_free_dir_entry_pres update_dir_entry_pres
  nr_files_add_pres mark_dir_index_dirty_pres rename_check_subdir_pres prepare_rename_target_pres touch_rename_dirs_pres
  in_transaction_pres in_handle_pres unlink_internal_pres unlink_pres rmdir_body_pres
  rmdir_pres get_link_pres lookup_pres current_time_all_pres alloc_new_inode_pres
  init_blockless_pres init_with_root_pres new_inode_pres create_internal_pres create_pres
  mkdir_pres add_to_dir_pres publish_new_pres symlink_store_pres symlink_body_pres
  symlink_pres link_pres tmpfile_body_pres tmpfile_pres mknod_body_pres
  mknod_pres rename_in_place_pres rename_replace_pres rename_move_pres rename_normal_pres
  exchange_links_pres rename_exchange_pres rollback_whiteout_target_pres new_whiteout_pres whiteout_target_pres
  whiteout_links_pres whiteout_body_pres rename_whiteout_pres rename_internal_pres rename_persist_pres
  rename_pres : pres.
