(* ===== verification/NamespaceSpec.v ===== *)
(** * NamespaceSpec: the namespace operations on directories as maps

    Each operation, run on cached directories, is the corresponding update of the
    maps from names to inode numbers and of the link counts; a failed one leaves
    them alone, unless the file system is latched shut. *)

From stdpp Require Import base list numbers gmap.
From S2P Require Import Prelude Image Layout Kernel DiskFormat Discard Journal MetaBuf.
From S2P Require Import Alloc Retire ExtentBuf ExtentTree InodeTable DirIndex Xattr Acl.
From S2P Require Import DirSpec Rebuild Super Namespace.

Local Open Scope Z_scope.
Local Open Scope fs_scope.

(** The component of one inode that an invariant looks at survives an operation
    when every update in it leaves that component alone or concerns another inode:
    the operations are opened until only updates are left. *)
#[export] Hint Extern 2 (preserves (keeps _ _ _) (touch_dir _)) => (unfold touch_dir; solve [pres]) : pres.
#[export] Hint Extern 2 (preserves (keeps _ _ _) (touch_ctime _)) => (unfold touch_ctime; solve [pres]) : pres.
#[export] Hint Extern 2 (preserves (keeps _ _ _) (mark_inode_dirty _)) => (unfold mark_inode_dirty; solve [pres]) : pres.
#[export] Hint Extern 2 (preserves (keeps _ _ _) (inode_set_ctime_current _)) => (unfold inode_set_ctime_current; solve [pres]) : pres.
#[export] Hint Extern 2 (preserves (keeps _ _ _) (inode_set_mtime_to_ts _ _)) => (unfold inode_set_mtime_to_ts; solve [pres]) : pres.
#[export] Hint Extern 2 (preserves (keeps _ _ _) (simplefs_persist_inode _)) => (unfold simplefs_persist_inode; solve [pres]) : pres.
#[export] Hint Extern 2 (preserves (keeps _ _ _) (simplefs_touch_rename_dirs _ _)) => (unfold simplefs_touch_rename_dirs; solve [pres]) : pres.
#[export] Hint Extern 2 (preserves (keeps _ _ _) (set_nlink _ _)) => (unfold set_nlink; solve [pres]) : pres.
#[export] Hint Extern 2 (preserves (keeps _ _ _) (clear_nlink _)) => (unfold clear_nlink; solve [pres]) : pres.
#[export] Hint Extern 2 (preserves (keeps _ _ _) (drop_nlink _)) => (unfold drop_nlink; solve [pres]) : pres.
#[export] Hint Extern 2 (preserves (keeps _ _ _) (inc_nlink _)) => (unfold inc_nlink; solve [pres]) : pres.
#[export] Hint Extern 2 (preserves (keeps _ _ _) (drop_nlink_if _)) => (unfold drop_nlink_if; solve [pres]) : pres.
#[export] Hint Extern 2 (preserves (keeps _ _ _) (simplefs_set_parent_ino _ _)) => (unfold simplefs_set_parent_ino; solve [pres]) : pres.
#[export] Hint Extern 2 (preserves (keeps _ _ _) (simplefs_dir_get _)) => (unfold simplefs_dir_get; solve [pres]) : pres.
#[export] Hint Extern 2 (preserves (keeps _ _ _) (simplefs_dir_destroy _)) => (unfold simplefs_dir_destroy; solve [pres]) : pres.
#[export] Hint Extern 2 (preserves (keeps _ _ _) (simplefs_dir_free_slot _)) => (unfold simplefs_dir_free_slot; solve [pres]) : pres.
#[export] Hint Extern 2 (preserves (keeps _ _ _) (nr_files_add _ _)) => (unfold nr_files_add; solve [pres]) : pres.
#[export] Hint Extern 2 (preserves (keeps _ _ _) (simplefs_mark_dir_index_dirty _)) => (unfold simplefs_mark_dir_index_dirty; solve [pres]) : pres.
#[export] Hint Extern 2 (preserves (keeps _ _ _) (simplefs_update_dir_entry _ _ _ _ _)) => (unfold simplefs_update_dir_entry; solve [pres]) : pres.
#[export] Hint Extern 2 (preserves (keeps _ _ _) (simplefs_find_free_dir_entry _)) => (unfold simplefs_find_free_dir_entry; solve [pres]) : pres.
#[export] Hint Extern 2 (preserves (keeps _ _ _) (simplefs_find_dir_entry _ _ _)) => (unfold simplefs_find_dir_entry; solve [pres]) : pres.
#[export] Hint Extern 2 (preserves (keeps _ _ _) (simplefs_dir_is_empty _)) => (unfold simplefs_dir_is_empty; solve [pres]) : pres.
#[export] Hint Extern 2 (preserves (keeps _ _ _) (simplefs_unlink_internal _ _)) => (unfold simplefs_unlink_internal; solve [pres]) : pres.
#[export] Hint Extern 2 (preserves (keeps _ _ _) (rename_enter _ _ _)) => (unfold rename_enter; solve [pres]) : pres.
#[export] Hint Extern 2 (preserves (keeps _ _ _) (rename_leave _ _)) => (unfold rename_leave; solve [pres]) : pres.
#[export] Hint Extern 2 (preserves (keeps _ _ _) (rename_replace _ _)) => (unfold rename_replace; solve [pres]) : pres.
#[export] Hint Extern 2 (preserves (keeps _ _ _) (simplefs_prepare_rename_target _ _)) => (unfold simplefs_prepare_rename_target; solve [pres]) : pres.
#[export] Hint Extern 2 (preserves (keeps _ _ _) (simplefs_rename_check_subdir _ _)) => (unfold simplefs_rename_check_subdir; solve [pres]) : pres.

Section Transaction.
Context {K : Kernel} {V : Vfs}.

#[export] Instance both_kstable I J `{!KStable I, !KStable J} : KStable (both I J).
Proof. by apply kstable_and. Qed.

(** The last thing that happened is the end of a transaction that JBD2 refused with
    the code [r]. *)
Definition commit_failed (r : Z) (w : world) : Prop :=
  r <> 0 /\ exists h a t, w_trace w = (IsJournalAborted, a) :: (Jbd2Stop h, r) :: t.

Lemma stop_commit hd w : HANDLE_IS_ERR hd = false ->
  wp (simplefs_journal_stop hd) (fun r w' => r = 0 \/ commit_failed r w') w.
Proof.
  destruct hd as [e| |h]; cbn [HANDLE_IS_ERR simplefs_journal_stop]; intros Hh; [done|apply wp_ret; by left|].
  unfold simplefs_journal_mark_shutdown, upd_journal. kwp.
  destruct (Z.eqb_spec r 0) as [->|Hr]; cbn [negb]; kwp; [by left|].
  wp_if; kwp; right; (split; [done|]); by exists h, r0, (w_trace w).
Qed.

(** The operation runs in a state that only the adapter has touched, and what it
    establishes outlives the end of the transaction. *)
Lemma in_transaction_wp n body (P : world -> Prop) (R : Z -> world -> Prop) w :
  KStable P -> (forall r, KStable (R r)) -> P w ->
  (forall e w1, e <> 0 -> P w1 -> R e w1) -> (forall w1, P w1 -> wp body R w1) ->
  wp (in_transaction n body) (fun r w' => R r w' \/ (commit_failed r w' /\ R 0 w')) w.
Proof.
  intros HP HR Hw He Hb. unfold in_transaction, simplefs_journal_start. apply wp_bind.
  eapply wp_mono; [apply wp_conj; [apply start_internal_err|apply (wp_pres P); [pres|done]]|].
  intros hd w1 [Herr H1]. destruct (HANDLE_IS_ERR hd) eqn:E.
  { apply wp_ret. left. apply He; [|done]. destruct hd; cbn in *; try done. lia. }
  apply wp_bind. eapply wp_mono; [by apply Hb|]. intros r w2 H2.
  destruct (Z.eqb_spec r 0) as [->|Hr]; cbn [negb].
  - eapply wp_mono; [apply wp_conj; [apply (wp_pres (R 0)); [pres|done]|by apply stop_commit]|].
    intros r w3 [H3 [->|Hc]]; [by left|by right].
  - unfold simplefs_journal_abort. kwp. eapply wp_mono; [apply (wp_pres (R r)); [pres|done]|].
    intros st w3 H3. apply wp_ret. by left.
Qed.

End Transaction.

Section Unlink.
Context {K : Kernel} {V : Vfs}.

(** The links an inode has after one of its names is removed. *)
Definition unlinked (i : inode) : Z :=
  if S_ISDIR (i_mode i) then 0 else if i_nlink i =? 0 then 0 else u32 (i_nlink i - 1).

(** Type and links, which only the link count functions change. *)
Definition links (i : inode) : Z * Z := (i_mode i, i_nlink i).

Lemma mark_dir_cached dir c w : dir_cached dir c w ->
  wp (simplefs_mark_dir_index_dirty dir) (fun r w' =>
    if r =? 0 then dir_cached dir c w' else s_shutdown (w_sbi w') = true) w.
Proof.
  intros H. unfold simplefs_mark_dir_index_dirty. apply wp_bind.
  eapply wp_mono; [apply (wp_pres (dir_cached dir c)); [apply dir_cached_pres; intros; pres|exact H]|].
  intros u w1 H1. by apply persist_dir_cached.
Qed.

Lemma mark_dir_keeps {B} (g : inode -> B) x v dir : off_index g \/ dir <> x ->
  preserves (keeps g x v) (simplefs_mark_dir_index_dirty dir).
Proof. intros H. unfold simplefs_mark_dir_index_dirty. pres; by apply upd_index_keeps. Qed.

(** Every step of an unlink but the two that matter. *)
Lemma unlink_tail_spec dir inode c n0 w :
  dir_cached dir c w -> keeps links inode n0 w ->
  wp (run! touch_dir dir in
      let! i := get_inode inode in
      run! (if S_ISDIR (i_mode i) then clear_nlink inode
            else when (negb (i_nlink i =? 0)) (drop_nlink inode)) in
      run! touch_ctime inode in
      run! mark_inode_dirty inode in
      let! r := simplefs_persist_inode inode in
      let! r := (if r =? 0 then simplefs_mark_dir_index_dirty dir else ret r) in
      run! when (negb (r =? 0)) (simplefs_journal_fail r) in
      ret r)
     (fun r w' => if r =? 0 then dir_cached dir c w' /\
        i_nlink (inode_of w' inode) = (if S_ISDIR n0.1 then 0 else if n0.2 =? 0 then 0 else u32 (n0.2 - 1))
      else s_shutdown (w_sbi w') = true) w.
Proof.
  intros Hc Hn.
  assert (H : both (dir_cached dir c) (keeps links inode n0) w) by done.
  inv_step H. intros u w1 [H1 H2].
  set (n1 := if S_ISDIR n0.1 then 0 else if n0.2 =? 0 then 0 else u32 (n0.2 - 1)).
  kwp. apply (wp_mono _ (fun _ => both (dir_cached dir c) (keeps i_nlink inode n1))).
  { unfold keeps in H2. subst n0. subst n1. cbn [links fst snd].
    apply wp_conj; [apply (wp_pres (dir_cached dir c)); [|done]; pres|].
    unfold keeps, clear_nlink, set_nlink, drop_nlink, upd_inode. destruct (S_ISDIR _); kwp; [|unfold when; destruct (Z.eqb_spec (i_nlink (inode_of w1 inode)) 0) as [E|E]; cbn [negb]; kwp; [exact E|]];
      unfold inode_of; cbn; by rewrite lookup_insert_eq. }
  intros u1 w2 H. inv_step H. intros u2 w3 H. inv_step H. intros u3 w4 H. inv_step H. intros r w5 [H3 H4].
  apply wp_bind. destruct (Z.eqb_spec r 0) as [->|Hr].
  - eapply wp_mono; [apply wp_conj; [by apply (mark_dir_cached dir c)|
      apply (wp_pres (keeps i_nlink inode n1)); [apply mark_dir_keeps; by left|done]]|].
    intros r w6 [H5 H6]. cbv beta in H5. unfold when. destruct (Z.eqb_spec r 0) as [->|Hr]; cbn [negb]; kwp; [by split|].
    eapply wp_mono; [apply journal_fail_spec|]. intros ? w7 [Hd _]. kwp. by rewrite (proj2 (Z.eqb_neq _ _) Hr).
  - apply wp_ret. unfold when. rewrite (proj2 (Z.eqb_neq _ _) Hr). cbn [negb]. kwp.
    eapply wp_mono; [apply journal_fail_spec|]. intros ? w7 [Hd _]. kwp. by rewrite (proj2 (Z.eqb_neq _ _) Hr).
Qed.

Lemma unlink_internal_spec dir d c w :
  let inode := d_positive d in
  let i := inode_of w inode in
  let key := qstr_key (d_name d) in
  dir_cached dir c w -> 0 < i_ino i <= U32_MAX ->
  wp (simplefs_unlink_internal dir d) (fun r w' =>
    if r =? 0 then
      c !! key = Some (i_ino i) /\ dir_cached dir (delete key c) w' /\
      i_nlink (inode_of w' inode) = unlinked i
    else dir_cached dir c w' /\ keeps links inode (links i) w' \/ s_shutdown (w_sbi w') = true) w.
Proof.
  intros inode i key Hc Hi. unfold simplefs_unlink_internal. fold inode. apply wp_bind.
  eapply wp_mono; [by apply (dir_get_cached dir c)|]. intros r w1 [-> Hd].
  destruct (Z.eqb_spec r 0) as [->|Hr]; cbn [negb]; [|apply wp_ret; rewrite (proj2 (Z.eqb_neq _ _) Hr); right; auto].
  pose proof Hc as [Hok Hv Hm Hf]. unfold simplefs_find_dir_entry, get_index. kwp. fold (index_at w dir) i.
  rewrite u32_id by (unfold is_u32; lia).
  pose proof (dir_find_spec (index_at w dir) (d_name d) (i_ino i) Hok) as Hfind.
  destruct (simplefs_dir_find _ _ _) as [[r slot] found].
  kwp. destruct (Z.eqb_spec r 0) as [->|Hr]; cbn [negb]; [|apply wp_ret; rewrite (proj2 (Z.eqb_neq _ _) Hr); by left].
  destruct Hfind as (Hs & He & Hg & Hino & _). fold key in He, Hg. rewrite Hm in Hg.
  assert (found = i_ino i) as -> by (apply Hino; lia).
  apply wp_bind. eapply wp_mono.
  { apply wp_conj; [apply (dir_set_cached dir slot 0 None c w Hc); [lia|unfold is_u32, U32_MAX; lia|done]|].
    apply (wp_pres (keeps links inode (links i))); [apply dir_set_keeps; by left|done]. }
  intros r w1 [H1 H2]. cbv beta zeta in H1. destruct (Z.eqb_spec r 0) as [->|Hr]; cbn [negb].
  2:{ apply wp_ret. rewrite (proj2 (Z.eqb_neq _ _) Hr). destruct H1; [by left|by right]. }
  destruct H1 as (Hok1 & Hv1 & Hf1 & Hst). unfold stored in Hst. cbn [Z.eqb] in Hst. rewrite He in Hst.
  unfold nr_files_add. apply wp_bind. eapply wp_mono.
  { apply wp_conj; [apply (nr_files_cached dir (-1) c (delete key c)); try done|].
    - rewrite map_size_delete_Some by done.
      assert (size c <> 0%nat) by (intros E; apply map_size_empty_inv in E; subst c; rewrite E in Hg; done). lia.
    - apply (wp_pres (keeps links inode (links i))); [apply upd_index_keeps; by left|done]. }
  intros u w2 [H3 H4]. eapply wp_mono; [by apply (unlink_tail_spec dir inode (delete key c) (links i))|].
  intros r w3 H5. cbv beta in H5. destruct (r =? 0); [by destruct H5|by right].
Qed.

(** What an unlink does to the directory and to the inode's links. *)
Definition unlink_post (dir inode key : Z) (c : gmap Z Z) (v : Z * (Z * Z)) (r : Z) (w' : world) : Prop :=
  if r =? 0 then
    c !! key = Some v.1 /\ dir_cached dir (delete key c) w' /\
    keeps i_nlink inode (if S_ISDIR v.2.1 then 0 else if v.2.2 =? 0 then 0 else u32 (v.2.2 - 1)) w'
  else both (dir_cached dir c) (keeps links inode v.2) w' \/ s_shutdown (w_sbi w') = true.

#[export] Instance unlink_post_kstable dir inode key c v r : KStable (unlink_post dir inode key c v r).
Proof.
  unfold unlink_post. destruct (r =? 0); [|apply kstable_or; apply _].
  apply kstable_and; [apply _|]. apply kstable_and; apply _.
Qed.

(** C8: [simplefs_unlink] removes one name: when it returns 0 the directory had the
    name bound to the dentry's inode, its map is the old one without that name, the
    entry count and the cache invariant hold, and the inode has one link less (none
    if it is a directory); when it fails the directory and the links are the old
    ones, or the removal is complete and the code is the one with which JBD2 refused
    to end the transaction, the last call made, or the file system is shut down. *)
Theorem unlink_refines dir d c w :
  let inode := d_positive d in
  let i := inode_of w inode in
  let key := qstr_key (d_name d) in
  dir_cached dir c w -> 0 < i_ino i <= U32_MAX ->
  wp (simplefs_unlink dir d) (fun r w' =>
    let gone := c !! key = Some (i_ino i) /\ dir_cached dir (delete key c) w' /\
                i_nlink (inode_of w' inode) = unlinked i in
    if r =? 0 then gone
    else dir_cached dir c w' /\ links (inode_of w' inode) = links i \/
         (gone /\ commit_failed r w') \/ s_shutdown (w_sbi w') = true) w.
Proof.
  intros inode i key Hc Hi. unfold simplefs_unlink.
  set (v := (i_ino i, links i)).
  eapply wp_mono.
  - apply (in_transaction_wp 32 _ (both (dir_cached dir c) (keeps (fun i => (i_ino i, links i)) inode v))
      (unlink_post dir inode key c v)); [apply _|apply _|done| |].
    + intros e w1 He [H1 H2]. unfold unlink_post. rewrite (proj2 (Z.eqb_neq _ _) He). left. split; [done|].
      unfold keeps in *. rewrite <- H2. done.
    + intros w1 [H1 H2]. unfold keeps in H2. injection H2 as E1 E2 E3.
      eapply wp_mono; [apply (unlink_internal_spec dir d c w1 H1); fold inode; by rewrite E1|].
      intros r w2 H. cbv beta zeta in H. fold inode key in H. unfold unlink_post, keeps, unlinked, links, both in *. cbn.
      rewrite E1, E2, E3 in H. exact H.
  - intros r w' H. unfold unlink_post in H. cbn [v fst snd] in H. unfold keeps, unlinked, both in *. cbv zeta.
    destruct (Z.eqb_spec r 0) as [->|Hr]; [destruct H as [H|[[] _]]; [exact H|done]|].
    destruct H as [[[? ?]|?]|[? ?]]; auto.
Qed.

End Unlink.

(** ** Rename *)

Section Rename.
Context {K : Kernel} {V : Vfs}.

(** A slot with an entry is a name of the map. *)
Lemma pinned_contents dir s k c w : dir_cached dir c w -> pinned dir s k w ->
  is_Some (c !! k) /\ 0 <= s.
Proof.
  intros [Hok _ <- _] Hp. destruct (ok_entry _ Hok s k Hp) as (e & He & <-).
  unfold contents. rewrite lookup_fmap, He. split; [by eexists|]. apply (ok_name _ Hok k e He).
Qed.

Lemma unlink_pinned dir d c s k w :
  dir_cached dir c w -> pinned dir s k w -> k <> qstr_key (d_name d) ->
  wp (simplefs_unlink_internal dir d) (fun _ => pinned dir s k) w.
Proof.
  intros Hc Hp Hk. unfold simplefs_unlink_internal. apply wp_bind.
  eapply wp_mono; [by apply (dir_get_cached dir c)|]. intros r w1 [-> _].
  destruct (negb _); [by apply wp_ret|]. pose proof Hc as [Hok _ _ _].
  unfold simplefs_find_dir_entry, get_index. kwp. fold (index_at w dir).
  pose proof (dir_find_spec (index_at w dir) (d_name d) (u32 (i_ino (inode_of w (d_positive d)))) Hok) as Hfind.
  destruct (simplefs_dir_find _ _ _) as [[r2 slot] found]. kwp.
  destruct (Z.eqb_spec r2 0) as [->|]; cbn [negb]; [|by apply wp_ret].
  destruct Hfind as (_ & He & _). assert (Hs : s <> slot).
  { intros ->. unfold pinned in Hp. congruence. }
  apply (wp_pres (pinned dir s k)); [|done]. unfold simplefs_mark_dir_index_dirty, nr_files_add.
  repeat (pres_step || (apply dir_set_pinned; exact Hs)).
Qed.

(** Removing a pinned entry. *)
Lemma rename_leave_spec dir slot key c w : dir_cached dir c w -> pinned dir slot key w ->
  wp (rename_leave dir slot) (fun r w' =>
    if r =? 0 then dir_cached dir (delete key c) w' else dir_kept dir c w') w.
Proof.
  intros Hc Hp. destruct (pinned_contents _ _ _ _ _ Hc Hp) as [[v Hv] Hs].
  unfold rename_leave, simplefs_update_dir_entry. apply wp_bind.
  eapply wp_mono; [apply (dir_set_cached dir slot 0 None c w Hc); [done|unfold is_u32, U32_MAX; lia|done]|].
  intros r w1 H1. cbv beta zeta in H1. destruct (Z.eqb_spec r 0) as [->|Hr]; cbn [negb];
    [|apply wp_ret; by rewrite (proj2 (Z.eqb_neq _ _) Hr)].
  destruct H1 as (Hok & Hval & Hf & Hst). unfold stored in Hst. cbn [Z.eqb] in Hst. unfold pinned in Hp. rewrite Hp in Hst.
  unfold nr_files_add. apply wp_bind. eapply wp_mono; [apply (nr_files_cached dir (-1) c (delete key c)); try done|].
  { rewrite map_size_delete_Some by done.
    assert (size c <> 0%nat) by (intros E%map_size_empty_inv; rewrite E in Hv; done). lia. }
  intros u w2 H2. eapply wp_mono; [by apply (mark_dir_cached dir (delete key c))|].
  intros r w3 H3. cbv beta in H3. destruct (r =? 0); [done|by right].
Qed.

(** Every occupied slot keeps its entry. *)
Definition pins (dir : Z) (w w' : world) : Prop := forall s k, pinned dir s k w -> pinned dir s k w'.
Lemma pins_wp {A} (m : M A) dir w w1 :
  (forall s k, pinned dir s k w -> wp m (fun _ => pinned dir s k) w1) -> wp m (fun _ => pins dir w) w1.
Proof. intros H s k Hp. exact (H s k Hp). Qed.

(** Adding one. *)
Lemma rename_enter_spec old_inode dir d c w :
  let ino := i_ino (inode_of w old_inode) in
  let key := qstr_key (d_name d) in
  dir_cached dir c w -> 0 < ino <= U32_MAX -> qstr_ok (d_name d) ->
  wp (rename_enter old_inode dir d) (fun r w' =>
    (r = 0 -> pins dir w w') /\
    if r =? 0 then c !! key = None /\ dir_cached dir (<[key := ino]> c) w' else dir_kept dir c w') w.
Proof.
  intros ino key Hc Hi Hq. unfold rename_enter, simplefs_find_free_dir_entry, simplefs_update_dir_entry.
  kwp. fold ino. rewrite u32_id by (unfold is_u32; lia).
  eapply wp_mono; [by apply free_slot_cached|]. intros [r slot] w1 H1.
  destruct (Z.eqb_spec r 0) as [->|Hr]; cbn [negb].
  2:{ apply wp_ret. split; [by intros|]. by rewrite (proj2 (Z.eqb_neq _ _) Hr). }
  destruct H1 as (H1 & Hs & Hnone & Hent).
  assert (Hpin : forall s k, pinned dir s k w -> s <> slot /\ pinned dir s k w1).
  { intros s k H. unfold pinned in *. rewrite <- Hent in H. split; [intros ->; congruence|done]. }
  apply wp_bind. eapply wp_mono; [apply wp_conj; [apply (dir_set_cached dir slot ino (Some (d_name d)) c w1 H1); [lia|unfold is_u32; lia|by intros q [= <-]]|]|].
  { apply (pins_wp _ dir w). intros s k H. destruct (Hpin s k H) as [Hne H'].
    by apply (wp_pres (pinned dir s k)); [apply dir_set_pinned|]. }
  intros r w2 [H2 Hp2]. cbv beta zeta in H2. destruct (Z.eqb_spec r 0) as [->|Hr]; cbn [negb].
  2:{ apply wp_ret. split; [by intros|]. by rewrite (proj2 (Z.eqb_neq _ _) Hr). }
  destruct H2 as (Hok & Hval & Hf & Hst). unfold stored in Hst. rewrite (proj2 (Z.eqb_neq ino 0)) in Hst by lia.
  destruct Hst as (k & -> & Hc' & Hfr). rewrite Hnone in Hfr, Hc'. cbn [delete_old] in Hc'. specialize (Hfr ltac:(done)).
  fold key in Hc', Hfr. unfold nr_files_add. apply wp_bind. eapply wp_mono.
  { apply wp_conj; [apply (nr_files_cached dir 1 c (<[key := ino]> c)); try done; rewrite map_size_insert_None by done; lia|].
    apply (pins_wp _ dir w). intros s k H. apply (wp_pres (pinned dir s k)); [pres|by apply Hp2]. }
  intros u w3 [H3 Hp3]. eapply wp_mono.
  { apply wp_conj; [by apply (mark_dir_cached dir (<[key := ino]> c))|].
    apply (pins_wp _ dir w). intros s k H. apply (wp_pres (pinned dir s k)); [|by apply Hp3].
    unfold simplefs_mark_dir_index_dirty. pres. }
  intros r w4 [H4 Hp4]. cbv beta in H4, Hp4. split; [auto|]. destruct (r =? 0); [done|by right].
Qed.

Lemma rename_in_place_spec dir slot old_inode d c ok w :
  let ino := i_ino (inode_of w old_inode) in
  let key := qstr_key (d_name d) in
  dir_cached dir c w -> pinned dir slot ok w -> 0 < ino <= U32_MAX -> qstr_ok (d_name d) ->
  wp (rename_in_place dir slot old_inode d) (fun r w' =>
    if r =? 0 then (key <> ok -> c !! key = None) /\ dir_cached dir (<[key := ino]> (delete ok c)) w'
    else dir_kept dir c w') w.
Proof.
  intros ino key Hc Hp Hi Hq. destruct (pinned_contents _ _ _ _ _ Hc Hp) as [[v Hv] Hs].
  unfold rename_in_place, simplefs_update_dir_entry. kwp. fold ino. rewrite u32_id by (unfold is_u32; lia).
  eapply wp_mono; [apply (dir_set_cached dir slot ino (Some (d_name d)) c w Hc); [done|unfold is_u32; lia|by intros q [= <-]]|].
  intros r w1 H1. cbv beta zeta in H1. destruct (Z.eqb_spec r 0) as [->|Hr]; cbn [negb];
    [|apply wp_ret; by rewrite (proj2 (Z.eqb_neq _ _) Hr)].
  destruct H1 as (Hok & Hval & Hf & Hst). unfold stored in Hst. rewrite (proj2 (Z.eqb_neq ino 0)) in Hst by lia.
  destruct Hst as (k & -> & Hc' & Hfr). unfold pinned in Hp. rewrite Hp in Hfr, Hc'. cbn [delete_old] in Hc'. fold key in Hc', Hfr.
  assert (Hfree : key <> ok -> c !! key = None) by (intros Hne; apply Hfr; congruence).
  assert (H1 : dir_cached dir (<[key := ino]> (delete ok c)) w1).
  { split; [done|done|done|]. rewrite Hf. f_equal.
    assert (delete ok c !! key = None) as E.
    { rewrite lookup_delete. case_decide; [done|]. apply Hfree. congruence. }
    rewrite map_size_insert_None, map_size_delete_Some by done.
    assert (size c <> 0%nat) by (intros Ez%map_size_empty_inv; rewrite Ez in Hv; done). lia. }
  inv_step H1. intros u w2 H1. inv_step H1. intros u2 w3 H1. inv_step H1. intros u3 w4 H1. apply wp_ret. by split.
Qed.

(** Within one directory. *)
Lemma rename_move_same dir slot old_inode d c ok w :
  let ino := i_ino (inode_of w old_inode) in
  let key := qstr_key (d_name d) in
  dir_cached dir c w -> pinned dir slot ok w -> 0 < ino <= U32_MAX -> qstr_ok (d_name d) ->
  wp (rename_move dir slot old_inode dir d) (fun r w' =>
    if r =? 0 then c !! key = None /\ dir_cached dir (delete ok (<[key := ino]> c)) w'
    else dir_kept dir c w' \/ dir_kept dir (<[key := ino]> c) w') w.
Proof.
  intros ino key Hc Hp Hi Hq. unfold rename_move. apply wp_bind.
  eapply wp_mono; [by apply (rename_enter_spec old_inode dir d c)|]. intros r w1 [Hpin H1]. cbv zeta in H1. fold ino key in H1.
  destruct (Z.eqb_spec r 0) as [->|Hr]; cbn [negb]; [|apply wp_ret; rewrite (proj2 (Z.eqb_neq _ _) Hr); by left].
  destruct H1 as [Hn H1]. apply wp_bind. eapply wp_mono; [apply (rename_leave_spec dir slot ok _ w1 H1); by apply Hpin|].
  intros r w2 H2. cbv beta in H2. destruct (Z.eqb_spec r 0) as [->|Hr]; cbn [negb];
    [|apply wp_ret; rewrite (proj2 (Z.eqb_neq _ _) Hr); by right].
  kwp. rewrite Z.eqb_refl. rewrite andb_false_r. unfold when. kwp.
  inv_step H2. intros u w3 H2. inv_step H2. intros u2 w4 H2. inv_step H2. intros u3 w5 H2. apply wp_ret. by split.
Qed.

(** From one directory to another. *)
Lemma rename_move_across dir slot old_inode dir' d c c' ok w :
  let ino := i_ino (inode_of w old_inode) in
  let key := qstr_key (d_name d) in
  dir <> dir' -> dir_cached dir c w -> dir_cached dir' c' w -> pinned dir slot ok w ->
  0 < ino <= U32_MAX -> qstr_ok (d_name d) ->
  wp (rename_move dir slot old_inode dir' d) (fun r w' =>
    if r =? 0 then c' !! key = None /\ dir_cached dir (delete ok c) w' /\ dir_cached dir' (<[key := ino]> c') w'
    else dir_kept dir c w' /\ (dir_kept dir' c' w' \/ dir_kept dir' (<[key := ino]> c') w')) w.
Proof.
  intros ino key Hne Hc Hc' Hp Hi Hq. unfold rename_move. apply wp_bind.
  eapply wp_mono.
  { apply wp_conj; [by apply (rename_enter_spec old_inode dir' d c')|].
    apply (wp_pres (both (dir_cached dir c) (pinned dir slot ok))); [pres|by split]. }
  intros r w1 [[_ H1] [Hc1 Hp1]]. cbv zeta in H1. fold ino key in H1.
  destruct (Z.eqb_spec r 0) as [->|Hr]; cbn [negb].
  2:{ apply wp_ret. rewrite (proj2 (Z.eqb_neq _ _) Hr). split; [by left|by left]. }
  destruct H1 as [Hn H1]. apply wp_bind. eapply wp_mono.
  { apply wp_conj; [by apply (rename_leave_spec dir slot ok c w1)|].
    apply (wp_pres (dir_cached dir' (<[key := ino]> c'))); [pres|done]. }
  intros r w2 [H2 H3]. cbv beta in H2. destruct (Z.eqb_spec r 0) as [->|Hr]; cbn [negb].
  2:{ apply wp_ret. rewrite (proj2 (Z.eqb_neq _ _) Hr). split; [done|]. right. by left. }
  assert (H : both (dir_cached dir (delete ok c)) (dir_cached dir' (<[key := ino]> c')) w2) by done.
  clear H2 H3. inv_step H. intros i w3 H. inv_step H. intros u w4 H. inv_step H. intros u1 w5 H. inv_step H.
  intros u2 w6 H. inv_step H. intros u3 w7 [H2 H3]. apply wp_ret. by split_and!.
Qed.

(** What the target directory may look like after a failed rename: as before,
    without the target, or with the new name already entered. *)
Definition rename_partial (key ino : Z) (c c' : gmap Z Z) : Prop :=
  c' = c \/ c' = delete key c \/ c' = <[key := ino]> (delete key c).

(** The replacement of a target, seen from the directories. *)
Lemma rename_replace_spec dir dir' slot ok d c c' w :
  let key := qstr_key (d_name d) in
  dir_cached dir c w -> dir_cached dir' c' w -> pinned dir slot ok w -> (dir = dir' -> ok <> key) ->
  (forall n, d_inode d = Some n -> 0 < i_ino (inode_of w n) <= U32_MAX) ->
  wp (rename_replace dir' d) (fun r w' =>
    if r =? 0 then
      (forall n, d_inode d = Some n -> c' !! key = Some (i_ino (inode_of w n))) /\
      pinned dir slot ok w' /\ (dir <> dir' -> dir_cached dir c w') /\
      dir_cached dir' (if is_positive d then delete key c' else c') w'
    else s_shutdown (w_sbi w') = true \/ dir_cached dir' c' w' /\ (dir <> dir' -> dir_cached dir c w')) w.
Proof.
  intros key Hc Hc' Hp Hok Hn. unfold rename_replace, is_positive.
  destruct (d_inode d) as [n|] eqn:E; [|apply wp_ret; cbn [Z.eqb]; by split_and!].
  rewrite bool_decide_eq_true_2 by done. apply wp_bind.
  assert (En : d_positive d = n) by (unfold d_positive; by rewrite E).
  eapply (wp_mono _ (fun r w1 => (if r =? 0 then c' !! key = Some (i_ino (inode_of w n)) /\
      dir_cached dir' (delete key c') w1 /\ pinned dir slot ok w1
      else s_shutdown (w_sbi w1) = true \/ dir_cached dir' c' w1) /\ (dir <> dir' -> dir_cached dir c w1))).
  { apply wp_conj.
    - eapply wp_mono; [eapply (wp_conj _ _ (fun _ => pinned dir slot ok));
        [apply (unlink_internal_spec dir' d c' w Hc'); rewrite En; auto|]|].
      + destruct (Z.eq_dec dir dir') as [->|Hne].
        * apply (unlink_pinned dir' d c' slot ok w); auto.
        * apply (wp_pres (pinned dir slot ok)); [pres|done].
      + intros r w1 [H1 H2]. cbv beta zeta in H1. fold key in H1. rewrite En in H1.
        destruct (r =? 0); [by destruct H1 as (? & ? & _)|]. destruct H1 as [[? _]|?]; auto.
    - destruct (Z.eq_dec dir dir') as [->|Hne]; [by intros ?|].
      eapply wp_mono; [apply (wp_pres (dir_cached dir c)); [pres|done]|]. auto. }
  intros r w1 [H1 H2]. destruct (Z.eqb_spec r 0) as [->|Hr]; cbn [negb].
  2:{ apply wp_ret. rewrite (proj2 (Z.eqb_neq _ _) Hr). destruct H1; auto. }
  destruct H1 as (Hg & H1 & H3). kwp.
  assert (H : both (dir_cached dir' (delete key c')) (pinned dir slot ok) w1) by done.
  apply (wp_mono _ (fun _ w2 => both (dir_cached dir' (delete key c')) (pinned dir slot ok) w2 /\
    (dir <> dir' -> dir_cached dir c w2))).
  { apply wp_conj; [apply (wp_pres (both (dir_cached dir' (delete key c')) (pinned dir slot ok))); [pres|done]|].
    destruct (Z.eq_dec dir dir') as [->|Hne]; [by intros ?|].
    eapply wp_mono; [apply (wp_pres (dir_cached dir c)); [pres|by apply H2]|]. auto. }
  intros u w2 [[H4 H5] H6]. apply wp_ret. cbn [Z.eqb]. split_and!; try done. by intros ? [= <-].
Qed.

(** The outcome of moving the name [ok] of [old_dir] to the name [nk] of [new_dir],
    which was bound to [target]. *)
Definition renamed (old_dir new_dir ok nk ino : Z) (target : option Z) (co cn : gmap Z Z)
    (r : Z) (w' : world) : Prop :=
  if r =? 0 then
    co !! ok = Some ino /\ cn !! nk = target /\
    (old_dir = new_dir -> dir_cached old_dir (<[nk := ino]> (delete ok co)) w') /\
    (old_dir <> new_dir -> dir_cached old_dir (delete ok co) w' /\ dir_cached new_dir (<[nk := ino]> cn) w')
  else s_shutdown (w_sbi w') = true \/
    exists c', rename_partial nk ino cn c' /\ dir_cached new_dir c' w' /\
      (old_dir <> new_dir -> dir_cached old_dir co w').

Lemma renamed_same old_dir new_dir ok nk ino target co cn (r : Z) w' : r <> 0 ->
  dir_cached old_dir co w' -> dir_cached new_dir cn w' -> renamed old_dir new_dir ok nk ino target co cn r w'.
Proof.
  intros Hr H1 H2. unfold renamed. rewrite (proj2 (Z.eqb_neq _ _) Hr). right. exists cn. split; [by left|done].
Qed.

(** The inode number of a replaced target. *)
Definition target_of (w : world) (d : dentry) : option Z := (fun n => i_ino (inode_of w n)) <$> d_inode d.

(** The last part of a rename: from the replacement of the target on. *)
Lemma rename_tail_spec old_dir slot old new_dir d co cn ok w :
  let ino := i_ino (inode_of w old) in
  let nk := qstr_key (d_name d) in
  dir_cached old_dir co w -> dir_cached new_dir cn w -> pinned old_dir slot ok w -> co !! ok = Some ino ->
  0 < ino <= U32_MAX -> qstr_ok (d_name d) -> (old_dir = new_dir -> ok <> nk) ->
  (forall n, d_inode d = Some n -> 0 < i_ino (inode_of w n) <= U32_MAX) ->
  wp (let! r := rename_replace new_dir d in
      if negb (r =? 0) then ret r else
      let! r := (if old_dir =? new_dir then ret 0 else simplefs_dir_get new_dir) in
      if negb (r =? 0) then ret r else
      rename_move old_dir slot old new_dir d)
     (renamed old_dir new_dir ok nk ino (target_of w d) co cn) w.
Proof.
  intros ino nk Hco Hcn Hp Hin Hi Hq Hne Hn. apply wp_bind.
  eapply wp_mono; [apply wp_conj; [by apply (rename_replace_spec old_dir new_dir slot ok d co cn)|
    apply (wp_pres (keeps i_ino old ino)); [pres|done]]|].
  intros r w1 [H1 Eino]. cbv zeta in H1. fold nk in H1. destruct (Z.eqb_spec r 0) as [->|Hr]; cbn [negb].
  2:{ apply wp_ret. unfold renamed. rewrite (proj2 (Z.eqb_neq _ _) Hr). destruct H1 as [?|[? ?]]; [by left|]. right. exists cn. split; [by left|done]. }
  destruct H1 as (Hg & Hp1 & Ho1 & Hn1). set (c1 := if is_positive d then delete nk cn else cn) in *.
  assert (Hc1 : c1 !! nk = None -> cn !! nk = target_of w d).
  { unfold c1, is_positive, target_of. destruct (d_inode d) as [n|]; [by rewrite (Hg n)|]. done. }
  assert (Hins : c1 !! nk = None -> <[nk := ino]> c1 = <[nk := ino]> (delete nk cn)).
  { intros E. unfold c1 in *. destruct (is_positive d); [done|]. by rewrite delete_id. }
  assert (Hins2 : <[nk := ino]> c1 = <[nk := ino]> cn).
  { unfold c1. destruct (is_positive d); [by rewrite insert_delete_eq|done]. }
  assert (Hpart : rename_partial nk ino cn c1).
  { unfold c1. destruct (is_positive d); [right; by left|by left]. }
  assert (Hpart2 : rename_partial nk ino cn (<[nk := ino]> c1)).
  { right. right. by rewrite Hins2, insert_delete_eq. }
  unfold keeps in Eino. apply wp_bind. destruct (Z.eqb_spec old_dir new_dir) as [E|E].
  - apply wp_ret. cbn [Z.eqb negb]. subst new_dir.
    eapply wp_mono; [apply (rename_move_same old_dir slot old d c1 ok w1); [done|done|by rewrite Eino|done]|].
    cbv zeta. fold nk. rewrite Eino. intros r w2 H2. unfold renamed. destruct (r =? 0).
    + destruct H2 as [E2 H2]. split; [done|]. split; [by apply Hc1|]. split; [intros _|done].
      assert (cn = co) as -> by (destruct Hcn as [_ _ <- _], Hco as [_ _ <- _]; done).
      rewrite Hins2 in H2. rewrite delete_insert_ne in H2 by (intros E3; by apply (Hne eq_refl)). exact H2.
    + destruct H2 as [[?|?]|[?|?]]; try (by left); right; [exists c1|exists (<[nk := ino]> c1)]; by split.
  - eapply wp_mono; [by apply (dir_get_cached new_dir c1)|]. intros r w2 [-> Hd].
    destruct (Z.eqb_spec r 0) as [->|Hr]; cbn [negb].
    2:{ apply wp_ret. unfold renamed. rewrite (proj2 (Z.eqb_neq _ _) Hr). left. auto. }
    eapply wp_mono; [apply (rename_move_across old_dir slot old new_dir d co c1 ok w1); try done; [by apply Ho1|by rewrite Eino]|].
    cbv zeta. fold nk. rewrite Eino. intros r w2 H2. unfold renamed. destruct (r =? 0).
    + destruct H2 as (E2 & H2 & H3). split; [done|]. split; [by apply Hc1|]. split; [done|]. intros _. rewrite <- Hins2. by split.
    + destruct H2 as [[Ho|?] H2]; [|by left]. destruct H2 as [[?|?]|[?|?]]; try (by left); right; [exists c1|exists (<[nk := ino]> c1)]; by split.
Qed.


End Rename.
