(* ===== verification/CreateSpec.v ===== *)
(** * CreateSpec: what creating a name does

    A new inode takes a number that was free and that no inode in core has, and its
    set-up leaves the directory alone; entering its name adds one binding.  The
    codes that decide whether a new inode is an error pointer are zero or negated
    error numbers, which rests on the same of the journal's ([Errnos]). *)

From stdpp Require Import base list numbers gmap.
From S2P Require Import Prelude Image Layout Kernel DiskFormat Discard Journal MetaBuf.
From S2P Require Import Alloc Retire ExtentBuf ExtentTree InodeTable DirIndex Xattr Acl.
From S2P Require Import DirSpec Rebuild Super Namespace NamespaceSpec.

Local Open Scope Z_scope.
Local Open Scope fs_scope.

Lemma drop_inode_keeps {K : Kernel} {B} (g : inode -> B) x v y : y <> x -> preserves (keeps g x v) (drop_inode y).
Proof.
  intros H w Hw. unfold keeps, drop_inode, modify, inode_of in *. cbn. by rewrite lookup_delete_ne.
Qed.
#[export] Hint Extern 2 (preserves (keeps _ _ _) (drop_inode _)) => (apply drop_inode_keeps; congruence) : pres.
#[export] Hint Extern 2 (preserves (keeps _ _ _) (iput _)) => (unfold iput; solve [pres]) : pres.
#[export] Hint Extern 2 (preserves (keeps _ _ _) (discard_new_inode _)) => (unfold discard_new_inode; solve [pres]) : pres.
#[export] Hint Extern 2 (preserves (keeps _ _ _) (simplefs_release_new_inode _)) => (unfold simplefs_release_new_inode; solve [pres]) : pres.
#[export] Hint Extern 2 (preserves (keeps _ _ _) (simplefs_evict_inode _)) => (unfold simplefs_evict_inode; solve [pres]) : pres.
#[export] Hint Extern 2 (preserves (keeps _ _ _) (evict_retire _)) => (unfold evict_retire; solve [pres]) : pres.
#[export] Hint Extern 2 (preserves (keeps _ _ _) (evict_tree _)) => (unfold evict_tree; solve [pres]) : pres.
#[export] Hint Extern 2 (preserves (keeps _ _ _) (simplefs_xattr_delete_inode _)) => (unfold simplefs_xattr_delete_inode; solve [pres]) : pres.
#[export] Hint Extern 2 (preserves (keeps _ _ _) (simplefs_alloc_inode _)) => (unfold simplefs_alloc_inode; solve [pres]) : pres.
#[export] Hint Extern 2 (preserves (keeps _ _ _) (simplefs_init_security _ _)) => (unfold simplefs_init_security; solve [pres]) : pres.
#[export] Hint Extern 2 (preserves (keeps _ _ _) (simplefs_initxattrs _ _)) => (unfold simplefs_initxattrs; solve [pres]) : pres.
#[export] Hint Extern 2 (preserves (keeps _ _ _) (simplefs_xattr_set _ _ _ _ _)) => (unfold simplefs_xattr_set; solve [pres]) : pres.
#[export] Hint Extern 2 (preserves (keeps _ _ _) (xattr_block_for _)) => (unfold xattr_block_for; solve [pres]) : pres.
#[export] Hint Extern 2 (preserves (keeps _ _ _) (xattr_update _ _ _ _ _)) => (unfold xattr_update; solve [pres]) : pres.
#[export] Hint Extern 2 (preserves (keeps _ _ _) (__simplefs_set_acl _ _ _)) => (unfold __simplefs_set_acl; solve [pres]) : pres.
#[export] Hint Extern 2 (preserves (keeps _ _ _) (simplefs_init_acl _ _)) => (unfold simplefs_init_acl; solve [pres]) : pres.
#[export] Hint Extern 2 (preserves (keeps _ _ _) (inode_init_owner _ _ _)) => (unfold inode_init_owner; solve [pres]) : pres.
#[export] Hint Extern 2 (preserves (keeps _ _ _) (current_time_all _)) => (unfold current_time_all; solve [pres]) : pres.
#[export] Hint Extern 2 (preserves (keeps _ _ _) (init_blockless _ _ _)) => (unfold init_blockless; solve [pres]) : pres.
#[export] Hint Extern 2 (preserves (keeps _ _ _) (init_with_root _ _ _)) => (unfold init_with_root; solve [pres]) : pres.
#[export] Hint Extern 2 (preserves (keeps _ _ _) (simplefs_clear_disk_inode _)) => (unfold simplefs_clear_disk_inode; solve [pres]) : pres.

#[export] Hint Extern 2 (preserves (keeps _ _ _) (simplefs_dir_destroy _)) => (unfold simplefs_dir_destroy; solve [pres]) : pres.
#[export] Hint Extern 2 (preserves (keeps _ _ _) (simplefs_dir_get _)) => (unfold simplefs_dir_get; solve [pres]) : pres.
#[export] Hint Extern 2 (preserves (keeps _ _ _) (simplefs_dir_free_slot _)) => (unfold simplefs_dir_free_slot; solve [pres]) : pres.
#[export] Hint Extern 2 (preserves (keeps _ _ _) (simplefs_dir_add _ _ _)) => (unfold simplefs_dir_add; solve [pres]) : pres.

Create HintDb codes.

(** The status codes of the journal and of the access control lists, by the kernel's
    convention: zero, or a negated error number. *)
Class Errnos `{V : Vfs} : Prop := {
  errno_access : forall k h n, (kstep k (Jbd2GetWriteAccess h n)).1 <= 0;
  errno_dirty : forall k h n, (kstep k (Jbd2DirtyMetadata h n)).1 <= 0;
  errno_stop : forall k h, (kstep k (Jbd2Stop h)).1 <= 0;
  errno_acl : forall k d mode, (posix_acl_create k d mode).1.1.1 <= 0
}.

Section Codes.
Context {K : Kernel} {V : Vfs} {E : Errnos}.

(** [m] returns such a code. *)
Definition errno {S} (m : ST S Z) : Prop := forall s, (m s).1 <= 0.

Lemma errno_ret {S} r : r <= 0 -> errno (ret r : ST S Z).
Proof. by intros H s. Qed.
Lemma errno_bind {S A} (m : ST S A) f : (forall a, errno (f a)) -> errno (bind m f).
Proof. intros H s. unfold bind. destruct (m s) as [a s']. apply H. Qed.
Lemma errno_use {S A} (m : ST S A) f (P : A -> Prop) : (forall s, P (m s).1) -> (forall a, P a -> errno (f a)) -> errno (bind m f).
Proof. intros Hm H s. unfold bind. specialize (Hm s). destruct (m s) as [a s']. by apply H. Qed.
Lemma errno_kdo c : (forall k, (kstep k c).1 <= 0) -> errno (kdo c).
Proof. intros H w. unfold kdo. specialize (H (w_kernel w)). by destruct (kstep _ c). Qed.
Lemma errno_when_zero {S} (m : ST S Z) f : errno m -> (forall r, r <= 0 -> errno (f r)) -> errno (bind m f).
Proof. intros Hm Hf. by apply (errno_use _ _ (fun r => r <= 0)). Qed.

Lemma errno_kdo_access h n : errno (kdo (Jbd2GetWriteAccess h n)).
Proof. apply errno_kdo. intros. apply errno_access. Qed.
Lemma errno_kdo_dirty h n : errno (kdo (Jbd2DirtyMetadata h n)).
Proof. apply errno_kdo. intros. apply errno_dirty. Qed.
Lemma errno_kdo_stop h : errno (kdo (Jbd2Stop h)).
Proof. apply errno_kdo. intros. apply errno_stop. Qed.
Local Hint Resolve errno_kdo_access errno_kdo_dirty errno_kdo_stop : codes.

Ltac codes := repeat first
  [ progress intros
  | match goal with
    | |- errno (ret _) => apply errno_ret
    | |- errno (bind _ _) => first [apply errno_when_zero; [solve [eauto with codes]|] | apply errno_bind]
    | |- errno (if IS_ERR ?r then _ else _) =>
        let H := fresh in destruct (IS_ERR r) eqn:H; unfold IS_ERR in H; bool_hyps
    | |- errno (match ?x with _ => _ end) => destruct x
    | |- errno _ => solve [eauto with codes]
    | |- (if ?b then _ else _) <= 0 => destruct b
    | |- - _ <= 0 => done
    end
  | lia ].

Lemma jbd2_dirty_errno h n v f : errno (simplefs_jbd2_dirty h n v f).
Proof. unfold simplefs_jbd2_dirty. codes. Qed.
Local Hint Resolve jbd2_dirty_errno : codes.
Lemma dirty_folio_errno n f : errno (simplefs_journal_dirty_folio n f).
Proof. unfold simplefs_journal_dirty_folio. codes. Qed.
Lemma stop_errno hd : errno (simplefs_journal_stop hd).
Proof. unfold simplefs_journal_stop. codes. Qed.
Local Hint Resolve dirty_folio_errno stop_errno : codes.
Lemma xattr_block_errno ino : errno (xattr_block_for ino).
Proof. unfold xattr_block_for. codes. Qed.
Lemma xattr_update_errno ino name len v flags : errno (xattr_update ino name len v flags).
Proof. unfold xattr_update. codes. Qed.
Local Hint Resolve xattr_block_errno xattr_update_errno : codes.

Lemma xattr_set_errno ino name len v flags : errno (simplefs_xattr_set ino name len v flags).
Proof.
  unfold simplefs_xattr_set. destruct (_ <? _); [by apply errno_ret|]. apply errno_bind. intros i.
  destruct (_ && _); [apply errno_ret; by destruct (negb _)|].
  apply (errno_use _ _ (fun hd => match hd with HErr e => e < 0 | _ => True end)); [intros w; apply start_sb_err|].
  intros hd Hhd. destruct (HANDLE_IS_ERR hd) eqn:Eh; [apply errno_ret; destruct hd; cbn in *; lia|].
  apply errno_when_zero; [auto with codes|]. intros r Hr. apply errno_when_zero; [codes|]. codes.
Qed.
Local Hint Resolve xattr_set_errno : codes.
Lemma set_acl_errno ino acl t : errno (__simplefs_set_acl ino acl t).
Proof.
  unfold __simplefs_set_acl. destruct (posix_acl_xattr_name t). apply errno_bind. intros i.
  destruct (match t with ACL_TYPE_ACCESS => _ | ACL_TYPE_DEFAULT => _ end); [codes|].
  apply errno_when_zero; codes.
Qed.
Local Hint Resolve set_acl_errno : codes.
Lemma init_acl_errno ino dir : errno (simplefs_init_acl ino dir).
Proof.
  unfold simplefs_init_acl. do 3 (apply errno_bind; intros ?).
  pose proof (errno_acl a1 a (i_mode a0)) as H. destruct (posix_acl_create _ _ _) as [[[e mode] da] acl]. cbn in H.
  destruct (negb _); [by apply errno_ret|]. apply errno_bind. intros _. apply errno_when_zero; codes.
Qed.
Local Hint Resolve init_acl_errno : codes.
Lemma init_blockless_errno ino dir mode : errno (init_blockless ino dir mode).
Proof. unfold init_blockless. codes. Qed.
Lemma init_with_root_errno ino dir mode : errno (init_with_root ino dir mode).
Proof. unfold init_with_root. codes. Qed.

End Codes.

Section Create.
Context {K : Kernel} {V : Vfs} {HE : Errnos}.

Lemma evict_keeps {B} (g : inode -> B) x v y : y <> x -> preserves (keeps g x v) (simplefs_release_new_inode y).
Proof. intros H. pres. Qed.

Lemma init_keeps {B} (g : inode -> B) x v y dir mode : y <> x ->
  preserves (keeps g x v) (init_blockless y dir mode) /\ preserves (keeps g x v) (init_with_root y dir mode).
Proof. intros H. split; pres. Qed.

Definition same_inodes (m : gmap Z inode) (w : world) : Prop := w_inodes w = m.
#[export] Instance same_inodes_astable m : AStable (same_inodes m).
Proof. apply (inodes_astable (fun m' => m' = m)). Qed.

(** A number that was free and that no inode in core has. *)
Definition fresh_ino (w : world) (ino : Z) : Prop :=
  0 < ino < nr_inodes (w_sbi w) /\ test_bit (ifree_bitmap (w_sbi w)) ino = true /\ w_inodes w !! ino = None.

Lemma alloc_new_inode_spec w : alloc_inv (w_sbi w) ->
  wp alloc_new_inode (fun ino w' =>
    (ino < 0 /\ w_inodes w' = w_inodes w) \/
    (fresh_ino w ino /\ exists i, w_inodes w' = <[ino := i]> (w_inodes w) /\ i_ino i = ino)) w.
Proof.
  intros (Hg & _ & _ & _ & Hl). unfold alloc_new_inode. kwp. wp_if; [apply wp_ret; by left|].
  apply wp_bind. eapply wp_mono; [apply wp_conj; [by apply get_free_inode_spec|
    apply (wp_pres (same_inodes (w_inodes w))); [pres|done]]|].
  intros ino w1 [Hr Hi]. unfold same_inodes in Hi.
  destruct (Z.eqb_spec ino 0) as [|Hne]; [apply wp_ret; by left|].
  assert (Hf : first_free_inode (w_sbi w) ino).
  { destruct Hr as [[? _]|(j & Hj & _ & [->|[? _]])]; done. }
  assert (Hput : forall (e : Z) w2, e < 0 -> w_inodes w2 = w_inodes w ->
    wp (put_inode ino) (fun _ => wp (ret e) (fun ino w' => (ino < 0 /\ w_inodes w' = w_inodes w) \/
      (fresh_ino w ino /\ exists i, w_inodes w' = <[ino := i]> (w_inodes w) /\ i_ino i = ino))) w2).
  { intros e w2 He E. eapply wp_mono; [apply (wp_pres (same_inodes (w_inodes w))); [pres|done]|].
    intros u w3 E3. apply wp_ret. by left. }
  kwp. wp_if; [kwp; by apply Hput|]. kwp. destruct (bool_decide _ || _) eqn:Hb; kwp; [by apply Hput|].
  apply orb_false_iff in Hb as [Hb _]. apply bool_decide_eq_false in Hb. cbn in Hb. rewrite Hi in Hb.
  unfold simplefs_alloc_inode. kwp. right. destruct Hf as (H1 & H2 & _).
  split; [split; [done|split; [done|by apply eq_None_not_Some]]|].
  eexists. cbn. rewrite Hi, insert_insert_eq. split; [reflexivity|done].
Qed.

(** The links of a new inode. *)
Definition new_links (mode : Z) : Z := if S_ISDIR mode then 2 else 1.

(** What survives the set-up of a new inode [ino] in directory [dir]. *)
Definition setting_up (dir ino : Z) (c : gmap Z Z) (n : Z) : world -> Prop :=
  both (both (dir_cached dir c) (keeps i_nlink dir n)) (keeps i_ino ino ino).

Lemma upd_inode_sets {B} (g : inode -> B) v y f I w :
  (forall i, g (f i) = v) -> preserves I (upd_inode y f) -> I w ->
  wp (upd_inode y f) (fun _ => both I (keeps g y v)) w.
Proof.
  intros Hg HI H. split; [exact (HI w H)|]. unfold keeps, inode_of. cbn.
  rewrite lookup_insert, decide_True by done. apply Hg.
Qed.

Lemma init_blockless_spec dir ino mode c n w : ino <> dir -> setting_up dir ino c n w ->
  wp (init_blockless ino dir mode) (fun _ => both (setting_up dir ino c n) (keeps i_nlink ino 1)) w.
Proof.
  intros Hne H. unfold init_blockless, setting_up in *. inv_step H. intros ? w1 H. apply wp_bind.
  eapply wp_mono; [apply (upd_inode_sets i_nlink 1); [done| |exact H]; pres|].
  intros ? w2 H2. cbv beta in H2. inv_step H2. intros ? w3 H3. apply wp_pres; [pres|done].
Qed.

Lemma init_with_root_spec dir ino mode c n w : ino <> dir -> setting_up dir ino c n w ->
  S_ISDIR mode = true \/ S_ISREG mode = true ->
  wp (init_with_root ino dir mode) (fun r => both (setting_up dir ino c n)
    (fun w' => r = 0 -> keeps i_nlink ino (new_links mode) w')) w.
Proof.
  intros Hne H Hmode. unfold init_with_root, setting_up in *.
  assert (Hstop : forall r (m : M unit) w1, r <> 0 -> preserves (setting_up dir ino c n) m -> setting_up dir ino c n w1 ->
    wp (run! m in ret r) (fun r => both (setting_up dir ino c n)
      (fun w' => r = 0 -> keeps i_nlink ino (new_links mode) w')) w1).
  { intros r m w1 Hr Hm H1. apply wp_bind. eapply wp_mono; [by apply (wp_pres (setting_up dir ino c n))|].
    intros u w2 H2. apply wp_ret. by split. }
  unfold setting_up in Hstop. inv_step H. intros bno w1 H. wp_if; [apply wp_ret; by split|].
  inv_step H. intros r w2 H. destruct (IS_ERR r) eqn:Er; [apply Hstop; [|pres|done]; unfold IS_ERR in Er; bool_hyps; lia|].
  inv_step H. intros img w3 H. inv_step H. intros ? w4 H. inv_step H. intros r' w5 H.
  destruct (Z.eqb_spec r' 0) as [->|Hr]; cbn [negb]; [|by apply Hstop; [|pres|]].
  inv_step H. intros ? w6 H. inv_step H. intros ? w7 H. apply wp_bind.
  eapply (wp_mono _ (fun _ => both _ (keeps i_nlink ino (new_links mode)))).
  { unfold new_links, when. destruct (S_ISDIR mode) eqn:Ed; [|destruct Hmode as [|E]; [done|rewrite E]];
      (apply upd_inode_sets; [done| |exact H]; pres). }
  intros ? w8 H8. cbv beta in H8. inv_step H8. intros ? w9 H9.
  eapply wp_mono; [apply wp_pres; [|exact H9]; pres|]. intros r0 w10 [? ?]. by split.
Qed.

Lemma new_inode_spec dir mode c n w :
  alloc_inv (w_sbi w) -> dir_cached dir c w -> keeps i_nlink dir n w ->
  wp (simplefs_new_inode dir mode) (fun ino w' =>
    both (dir_cached dir c) (keeps i_nlink dir n) w' /\
    (0 <= ino -> fresh_ino w ino /\ ino <> dir /\ keeps i_ino ino ino w' /\ keeps i_nlink ino (new_links mode) w')) w.
Proof.
  intros Ha Hc Hn. unfold simplefs_new_inode.
  assert (Hd : is_Some (w_inodes w !! dir)).
  { destruct Hc as [_ Hv _ _]. unfold index_at, inode_of in Hv. destruct (w_inodes w !! dir); [done|]. done. }
  destruct (mode_supported mode) eqn:Hmode; cbn [negb]; [|apply wp_ret; by split_and!].
  apply wp_bind. eapply wp_mono; [by apply alloc_new_inode_spec|]. intros ino w1 H1.
  destruct H1 as [[He E]|(Hf & i & E & Ei)].
  { unfold IS_ERR. rewrite (proj2 (Z.ltb_lt _ _) He). apply wp_ret. split; [|lia].
    unfold both, dir_cached, keeps, index_at, inode_of in *. by rewrite E. }
  assert (Hne : ino <> dir) by (intros ->; destruct Hf as (_ & _ & Hf); rewrite Hf in Hd; by destruct Hd).
  assert (H0 : setting_up dir ino c n w1).
  { unfold setting_up, both, dir_cached, keeps, index_at, inode_of in *.
    rewrite E, lookup_insert_ne, lookup_insert, decide_True by done. by split. }
  destruct Hf as [Hf1 Hf2]. unfold IS_ERR. rewrite (proj2 (Z.ltb_ge _ _)) by lia. apply wp_bind.
  eapply wp_mono; [apply (wp_conj _ (fun r => both (setting_up dir ino c n)
    (fun w' => r = 0 -> keeps i_nlink ino (new_links mode) w')) (fun r _ => r <= 0))|].
  2:{ destruct (_ || _); [exact (init_blockless_errno _ _ _ _)|exact (init_with_root_errno _ _ _ _)]. }
  { match goal with |- wp (if ?b then _ else _) _ _ => destruct b eqn:Hl end.
    - assert (new_links mode = 1) as ->.
      { unfold new_links, S_ISDIR, S_ISLNK, S_ISCHR, S_ISBLK, S_ISFIFO, S_ISSOCK, S_IFDIR in *.
        destruct (Z.eqb_spec (Z.land mode S_IFMT) 16384) as [Em|]; [|done]. rewrite Em in Hl. done. }
      eapply wp_mono; [by apply init_blockless_spec|]. intros r w2 [? ?]. by split.
    - apply init_with_root_spec; [done|done|]. unfold mode_supported in Hmode.
      repeat (apply orb_false_iff in Hl as [Hl ?]); repeat (apply orb_true_iff in Hmode as [Hmode|?]); auto; congruence. }
  intros r w2 [[H2 H3] Hle]. cbv beta in H3, Hle. destruct (Z.eqb_spec r 0) as [->|Hr]; cbn [negb].
  - apply wp_ret. destruct H2 as [H2 H4]. split; [done|]. intros _. by split_and!; try lia; [..|apply H3].
  - destruct H2 as [H2 _]. inv_step H2. intros ? w3 H2. inv_step H2. intros ? w4 H2. apply wp_ret. split; [done|].
    lia.
Qed.

(** The state of a new name [key] for the inode [ino] in [dir]. *)
Definition entered (dir ino mode key : Z) (c : gmap Z Z) (n : Z) : world -> Prop :=
  both (both (dir_cached dir (<[key := ino]> c)) (keeps i_nlink dir (if S_ISDIR mode then u32 (n + 1) else n)))
       (both (keeps i_ino ino ino) (keeps i_nlink ino (new_links mode))).

Definition create_post (w : world) (dir mode key : Z) (c : gmap Z Z) (n r : Z) (w' : world) : Prop :=
  if r =? 0 then c !! key = None /\ exists ino, fresh_ino w ino /\ entered dir ino mode key c n w'
  else dir_kept dir c w'.

Lemma release_kept dir ino c w : ino <> dir -> dir_kept dir c w ->
  wp (simplefs_release_new_inode ino) (fun _ => dir_kept dir c) w.
Proof.
  intros Hne [H|H].
  - eapply wp_mono; [apply (wp_pres (dir_cached dir c)); [apply dir_cached_pres; intros; pres|done]|]. by left.
  - eapply wp_mono; [apply (wp_pres (fun w => s_shutdown (w_sbi w) = true)); [pres|done]|]. by right.
Qed.

Lemma create_internal_spec dir d mode c n w :
  alloc_inv (w_sbi w) -> dir_cached dir c w -> keeps i_nlink dir n w ->
  qstr_ok (d_name d) ->
  wp (simplefs_create_internal dir d mode) (create_post w dir mode (qstr_key (d_name d)) c n) w.
Proof.
  intros Ha Hc Hn Hq. pose proof Ha as ((_ & Hu & _) & _). unfold simplefs_create_internal. set (key := qstr_key _).
  assert (Hr : forall r w1, r <> 0 -> dir_kept dir c w1 -> wp (ret r) (create_post w dir mode key c n) w1).
  { intros r w1 Hr H. apply wp_ret. unfold create_post. by rewrite (proj2 (Z.eqb_neq _ _) Hr). }
  wp_if; [apply Hr; [done|by left]|]. apply wp_bind. eapply wp_mono; [by apply (new_inode_spec dir mode c n)|].
  intros ino w1 [H1 Hnew]. unfold IS_ERR. destruct (Z.ltb_spec ino 0) as [Hneg|Hpos]; [apply Hr; [lia|by left; apply H1]|].
  destruct (Hnew Hpos) as (Hf & Hne & Hi & Hl). clear Hnew.
  assert (Hfail : forall r w2, r <> 0 -> dir_kept dir c w2 ->
    wp (run! simplefs_release_new_inode ino in ret r) (create_post w dir mode key c n) w2).
  { intros r w2 Hr0 H. apply wp_bind. eapply wp_mono; [by apply (release_kept dir ino c)|]. intros u w3 H3. by apply Hr. }
  assert (H : both (both (dir_cached dir c) (keeps i_nlink dir n)) (both (keeps i_ino ino ino) (keeps i_nlink ino (new_links mode))) w1)
    by (by split).
  clear H1 Hi Hl.
  inv_step H. intros r w2 H. destruct (Z.eqb_spec r 0) as [->|Hr0]; cbn [negb]; [|apply Hfail; [done|left; apply H]].
  inv_step H. intros ? w3 H. inv_step H. intros ? w4 H.
  inv_step H. intros r w5 H. destruct (Z.eqb_spec r 0) as [->|Hr0]; cbn [negb]; [|apply Hfail; [done|left; apply H]].
  destruct H as [[H1 H2] H3]. apply wp_bind. eapply wp_mono.
  { apply wp_conj; [apply (dir_add_cached dir (d_name d) ino c); try done; unfold fresh_ino in Hf; lia|].
    apply (wp_pres (both (keeps i_nlink dir n) (both (keeps i_ino ino ino) (keeps i_nlink ino (new_links mode)))));
      [pres|by split]. }
  intros r w6 [H4 H5]. fold key in H4. cbv beta in H4.
  destruct (Z.eqb_spec r 0) as [->|Hr0]; cbn [negb]; [|by apply Hfail].
  destruct H4 as [H4 Hnone]. apply wp_bind. eapply (wp_mono _ (fun _ => entered dir ino mode key c n)).
  { unfold entered, when. destruct H5 as [H5 H6]. destruct (S_ISDIR mode); [|by apply wp_ret; split].
    split; [split|].
    - apply (dir_cached_pres (inc_nlink dir)); [intros; pres|done].
    - unfold keeps in H5 |- *. unfold inode_of at 1. cbn. rewrite lookup_insert, decide_True by done. cbn. by rewrite H5.
    - apply (preserves_both _ _ (inc_nlink dir)); [apply keeps_upd_ne; congruence..|done]. }
  clear H1 H2 H3 H4 H5. intros ? w7 H. cbv beta in H. unfold entered in H.
  inv_step H. intros ? w8 H. inv_step H. intros ? w9 H. inv_step H. intros r w10 H.
  destruct (Z.eqb_spec r 0) as [->|Hr0]; cbn [negb].
  - inv_step H. intros ? w11 H. apply wp_ret. split; [done|]. exists ino. by split.
  - apply wp_bind. eapply wp_mono; [apply journal_fail_spec|]. intros ? w11 [Hs _]. apply Hfail; [done|by right].
Qed.

(** What a new number is taken from. *)
Definition number_view (w : world) := (astate w, w_inodes w).
Lemma fresh_ino_view w w' ino : number_view w' = number_view w -> fresh_ino w' ino -> fresh_ino w ino.
Proof.
  intros Hv. injection Hv as E1 E2 E3 E4 E5 E6 E7. unfold fresh_ino, nr_inodes in *. by rewrite E1, E2, E7.
Qed.
#[local] Instance number_kstable v : KStable (fun w => number_view w = v).
Proof. apply (view_jstable number_view (fun x => x = v)); done. Qed.
#[local] Instance create_post_kstable w dir mode key c n r : KStable (create_post w dir mode key c n r).
Proof.
  unfold create_post. destruct (r =? 0); [|apply _]. apply kstable_and; [apply _|].
  apply kstable_ex. intros ino. apply kstable_and; [apply _|]. repeat apply kstable_and; apply _.
Qed.

(** C7: [simplefs_create] adds one name: when it returns 0 the name was free, it is
    now bound to an inode number that was free in the bitmap and not in core, whose
    inode carries that number and the links of a new file (2 for a directory, 1
    otherwise), and the directory gained a link for a new subdirectory.  When it
    fails the directory is as it was or the file system is shut down; the new name
    stays in core only when the creation was complete and the code returned is the
    one with which JBD2 refused to end the transaction, the last call made. *)
Theorem create_refines dir d mode c n w :
  alloc_inv (w_sbi w) -> dir_cached dir c w -> i_nlink (inode_of w dir) = n -> qstr_ok (d_name d) ->
  let key := qstr_key (d_name d) in
  let made w' := c !! key = None /\ exists ino, fresh_ino w ino /\
    dir_cached dir (<[key := ino]> c) w' /\ i_ino (inode_of w' ino) = ino /\
    i_nlink (inode_of w' ino) = (if S_ISDIR mode then 2 else 1) /\
    i_nlink (inode_of w' dir) = (if S_ISDIR mode then u32 (n + 1) else n) in
  wp (simplefs_create dir d mode) (fun r w' =>
    if r =? 0 then made w' else dir_kept dir c w' \/ (made w' /\ commit_failed r w')) w.
Proof.
  intros Ha Hc Hn Hq key made. unfold simplefs_create. eapply wp_mono.
  - apply (in_transaction_wp 32 _ (fun w1 => both (fun w1 => alloc_inv (w_sbi w1)) (fun w1 => number_view w1 = number_view w) w1 /\
      both (dir_cached dir c) (keeps i_nlink dir n) w1) (create_post w dir mode key c n)).
    + apply kstable_and; apply kstable_and; apply _.
    + apply _.
    + done.
    + intros e w1 He [_ [H _]]. unfold create_post. rewrite (proj2 (Z.eqb_neq _ _) He). by left.
    + intros w1 [[H1 H2] [H3 H4]]. eapply wp_mono; [by apply (create_internal_spec dir d mode c n)|].
      intros r w2. unfold create_post. destruct (r =? 0); [|done]. intros [? (ino & ? & ?)].
      split; [done|]. exists ino. split; [by apply (fresh_ino_view w w1)|done].
  - assert (Hm : forall w', create_post w dir mode key c n 0 w' -> made w').
    { intros w' [? (ino & ? & [[? ?] [? ?]])]. split; [done|]. exists ino. by split_and!. }
    intros r w' [H|[Hr H]].
    + destruct (Z.eqb_spec r 0) as [->|Hr]; [by apply Hm|]. left. unfold create_post in H.
      by rewrite (proj2 (Z.eqb_neq _ _) Hr) in H.
    + rewrite (proj2 (Z.eqb_neq r 0)) by apply Hr. right. split; [by apply Hm|done].
Qed.

End Create.
