(* ===== verification/Mkfs.v ===== *)
(** * Mkfs: making a file system (mkfs_common.c, mkfs_common.h)

    The layout computation, the images of the structures, the writes that put
    them on the device and the two verification routines.  The file descriptor is
    the state [mkworld]: a position and the blocks of the device; the operating
    system ([Posix]) answers each call with its result, a failed call with the
    negated [errno].  A write starts at a multiple of the block size: every seek
    goes to one and a short write ends the run. *)

From stdpp Require Import base list numbers gmap.
From S2P Require Import Prelude Image Layout Kernel DiskFormat.

Local Open Scope Z_scope.
Local Open Scope fs_scope.

Definition SIMPLEFS_MIN_SIZE : Z := 100 * SIMPLEFS_BLOCK_SIZE.
Definition SIMPLEFS_JBD2_MAGIC : Z := 3225106840.       (* 0xc03b3998 *)
Definition SIMPLEFS_JBD2_SUPERBLOCK_V2 : Z := 4.
Definition UINT64_MAX : Z := Z.ones 64.

(** ** The layout *)

Record mkfs_layout := MkfsLayout {
  l_nr_blocks : Z;
  l_nr_inodes : Z;
  l_nr_istore_blocks : Z;
  l_nr_ifree_blocks : Z;
  l_nr_bfree_blocks : Z;
  l_nr_journal_blocks : Z;
  l_nr_data_blocks : Z;
  l_first_data_block : Z;
  l_journal_start_block : Z
}.

Definition idiv_ceil (a b : Z) : Z := u32 (a / b + (if a mod b =? 0 then 0 else 1)).

(** The aligned number of inodes, or the error. *)
Definition align_inodes (nr_inodes : Z) : Z + Z :=
  let nr_inodes := if nr_inodes <? 2 then 2 else nr_inodes in
  let mod_ := nr_inodes mod SIMPLEFS_INODES_PER_BLOCK in
  if mod_ =? 0 then inr nr_inodes else
  if U32_MAX - (SIMPLEFS_INODES_PER_BLOCK - mod_) <? nr_inodes then inl (- EFBIG) else
  inr (u32 (nr_inodes + (SIMPLEFS_INODES_PER_BLOCK - mod_))).

Definition layout_for (nr_blocks nr_inodes : Z) : mkfs_layout :=
  let istore := idiv_ceil nr_inodes SIMPLEFS_INODES_PER_BLOCK in
  let ifree := idiv_ceil nr_inodes (SIMPLEFS_BLOCK_SIZE * 8) in
  let bfree := idiv_ceil nr_blocks (SIMPLEFS_BLOCK_SIZE * 8) in
  let fixed_blocks := u32 (1 + istore + ifree + bfree) in
  let journal := if u32 (fixed_blocks + SIMPLEFS_JOURNAL_BLOCKS) <? nr_blocks
                 then SIMPLEFS_JOURNAL_BLOCKS else 0 in
  MkfsLayout nr_blocks nr_inodes istore ifree bfree journal
    (u32 (nr_blocks - 1 - istore - ifree - bfree - journal))
    (u32 (1 + istore + ifree + bfree)) (u32 (nr_blocks - journal)).

(** [image_size] is a [size_t], [bytes_per_inode] a [uint32_t]. *)
Definition mkfs_calculate_layout (image_size bytes_per_inode : Z) : Z + mkfs_layout :=
  if image_size <=? SIMPLEFS_MIN_SIZE then inl (- E2BIG) else
  if (bytes_per_inode <? SIMPLEFS_BLOCK_SIZE) || negb (bytes_per_inode mod SIMPLEFS_BLOCK_SIZE =? 0) ||
     (U32_MAX <? image_size / SIMPLEFS_BLOCK_SIZE) then inl (- EINVAL) else
  match align_inodes (u32 (image_size / bytes_per_inode)) with
  | inl e => inl e
  | inr nr_inodes => inr (layout_for (u32 (image_size / SIMPLEFS_BLOCK_SIZE)) nr_inodes)
  end.

Definition mkfs_validate_layout (l : mkfs_layout) : bool :=
  negb (l_nr_blocks l =? 0) && negb (l_nr_inodes l =? 0) && negb (l_nr_data_blocks l =? 0) &&
  (u32 (1 + l_nr_istore_blocks l + l_nr_ifree_blocks l + l_nr_bfree_blocks l) <? l_nr_blocks l) &&
  (l_nr_inodes l <=? l_nr_istore_blocks l * SIMPLEFS_INODES_PER_BLOCK).

(** ** The images *)

(** The fields in the order of the structure; the rest of the block is zero. *)
Definition mkfs_init_superblock (l : mkfs_layout) : Z :=
  put_words 0 0
    [SIMPLEFS_DISK_MAGIC; l_nr_blocks l; l_nr_inodes l; l_nr_istore_blocks l; l_nr_ifree_blocks l;
     l_nr_bfree_blocks l; u32 (l_nr_inodes l - 2); u32 (l_nr_data_blocks l - 1);
     if 0 <? l_nr_journal_blocks l then 1 else 0; l_journal_start_block l].

(** [S_IFDIR] with mode 0775. *)
Definition root_mode : Z := 16384 + 509.
Definition mkfs_init_root_inode (first_data_block : Z) : disk_inode :=
  DiskInode root_mode 0 0 0 0 0 0 0 0 0 1 2 first_data_block 0 0 0 0 0 0.

(** [htobe32] *)
Definition htobe32 (v : Z) : Z :=
  put_u8 (put_u8 (put_u8 (put_u8 0 0 (get_u8 v 3)) 1 (get_u8 v 2)) 2 (get_u8 v 1)) 3 (get_u8 v 0).

(** The first eight words, and [s_nr_users] at offset 64. *)
Definition mkfs_init_journal_superblock (journal_blocks : Z) : Z :=
  put_u32 (put_words 0 0 (map htobe32
    [SIMPLEFS_JBD2_MAGIC; SIMPLEFS_JBD2_SUPERBLOCK_V2; 0; SIMPLEFS_BLOCK_SIZE; journal_blocks; 1; 1; 0]))
    64 (htobe32 1).

Definition mkfs_calc_ifree_value (block_idx : Z) : Z :=
  if block_idx =? 0 then Z.ldiff UINT64_MAX 3 else UINT64_MAX.

(** One group of 64 bits: the value and the used bits that remain. *)
Fixpoint mark_bits (n : nat) (bit val remaining_used : Z) : Z * Z :=
  match n with
  | O => (val, remaining_used)
  | S n' =>
      if 0 <? remaining_used then mark_bits n' (bit + 1) (Z.clearbit val bit) (remaining_used - 1)
      else (val, remaining_used)
  end.
Fixpoint bfree_values (max_values : nat) (remaining_used : Z) : list Z :=
  match max_values with
  | O => []
  | S n' =>
      if 0 <? remaining_used then
        let '(val, rest) := mark_bits 64 0 UINT64_MAX remaining_used in val :: bfree_values n' rest
      else []
  end.
(** The error, or the values filled in. *)
Definition mkfs_calc_bfree_values (block_idx nr_used max_values : Z) : Z + list Z :=
  if max_values <? 1 then inl (- EINVAL) else
  let block_start_bit := u32 (block_idx * (SIMPLEFS_BLOCK_SIZE * 8)) in
  if nr_used <=? block_start_bit then inr [UINT64_MAX] else
  inr (bfree_values (Z.to_nat max_values) (u32 (nr_used - block_start_bit))).

(** [block_vals[j]] for the words of block [i] of the inode bitmap. *)
Fixpoint ifree_words (n : nat) (i j img : Z) : Z :=
  match n with
  | O => img
  | S n' => ifree_words n' i (j + 1)
      (put_bytes img (8 * j) 8 (if (i =? 0) && (j =? 0) then mkfs_calc_ifree_value 0 else UINT64_MAX))
  end.

Definition nr_used (l : mkfs_layout) : Z :=
  u32 (1 + l_nr_istore_blocks l + l_nr_ifree_blocks l + l_nr_bfree_blocks l + 1).

(** The bits of one block of the block bitmap, from [bit] on. *)
Fixpoint bfree_bits (n : nat) (l : mkfs_layout) (block_start bit img : Z) : Z :=
  match n with
  | O => img
  | S n' =>
      let block_no := u32 (block_start + bit) in
      if l_nr_blocks l <=? block_no then img else
      bfree_bits n' l block_start (bit + 1)
        (if (block_no <? nr_used l) ||
            (negb (l_nr_journal_blocks l =? 0) && (l_journal_start_block l <=? block_no))
         then Z.clearbit img bit else img)
  end.
Definition bfree_image (l : mkfs_layout) (i : Z) : Z :=
  bfree_bits (Z.to_nat 32768) l (u32 (i * SIMPLEFS_BLOCK_SIZE * 8)) 0 (Z.ones 32768).

(** ** The device *)

Inductive mkcall :=
  | Malloc | Lseek (off : Z) | Write (off : Z) | Read (off n : Z) | Fsync
  (* the command: negative answers are the negated [errno] *)
  | Open | Close | Fstat | StMode | StSize | BlkGetSize64 | BlkSize
  | Pread (off n : Z) | Pipe | Fork | PipeRead (n : Z) | PipeBytes | Waitpid | ExitStatus.

Class Posix := { PW : Type; psys : PW -> mkcall -> Z * PW }.

Section Io.
Context {X : Posix}.

Record mkworld := MkWorld { mk_sys : PW; mk_pos : Z; mk_dev : gmap Z Z }.
Definition MK (A : Type) : Type := ST mkworld A.

Definition sys (c : mkcall) : MK Z := fun s =>
  let '(r, k) := psys (mk_sys s) c in (r, MkWorld k (mk_pos s) (mk_dev s)).

Definition dev_block (d : gmap Z Z) (b : Z) : Z := get_bytes (default 0 (d !! b)) 0 SIMPLEFS_BLOCK_SIZE.

(** [malloc]/[calloc] gave memory. *)
Definition malloc : MK bool := let! r := sys Malloc in ret (r =? 0).

Definition lseek (off : Z) : MK Z :=
  let! r := sys (Lseek off) in
  if r <? 0 then ret r else
  run! modify (fun s => MkWorld (mk_sys s) off (mk_dev s)) in ret 0.

(** [write] of one block: the bytes that went out, and the usual test of them. *)
Definition write_block (img : Z) : MK Z :=
  let! pos := gets mk_pos in
  let! n := sys (Write pos) in
  if n <? 0 then ret n else
  let k := Z.min n SIMPLEFS_BLOCK_SIZE in
  run! modify (fun s => MkWorld (mk_sys s) (pos + k)
         (<[pos / SIMPLEFS_BLOCK_SIZE :=
              put_bytes (dev_block (mk_dev s) (pos / SIMPLEFS_BLOCK_SIZE)) 0 k img]> (mk_dev s))) in
  ret (if k =? SIMPLEFS_BLOCK_SIZE then 0 else - EIO).

Definition fsync : MK Z := let! r := sys Fsync in ret (if r <? 0 then r else 0).

(** [read] of [n] bytes that lie in one block: the code and the bytes. *)
Definition read_bytes (n : Z) : MK (Z * Z) :=
  let! s := gets id in
  let! r := sys (Read (mk_pos s) n) in
  if r <? 0 then ret (r, 0) else
  ret (if r =? n then 0 else - EIO,
       get_bytes (dev_block (mk_dev s) (mk_pos s / SIMPLEFS_BLOCK_SIZE)) (mk_pos s mod SIMPLEFS_BLOCK_SIZE) n).

(** ** Writing the structures *)

Definition mkfs_write_superblock (fd : Z) (sb : Z) : MK Z :=
  if fd <? 0 then ret (- EINVAL) else
  let! r := lseek 0 in
  if r <? 0 then ret r else
  let! r := write_block sb in
  if negb (r =? 0) then ret r else
  fsync.

Definition mkfs_write_journal (fd : Z) (l : mkfs_layout) : MK Z :=
  if fd <? 0 then ret (- EINVAL) else
  if l_nr_journal_blocks l =? 0 then ret 0 else
  let! ok := malloc in
  if negb ok then ret (- ENOMEM) else
  let! r := lseek (l_journal_start_block l * SIMPLEFS_BLOCK_SIZE) in
  if r <? 0 then ret r else
  let! r := write_block (mkfs_init_journal_superblock (l_nr_journal_blocks l)) in
  if negb (r =? 0) then ret r else
  let! r := for_z (Z.to_nat (l_nr_journal_blocks l - 1)) 1 (fun _ => write_block 0) in
  if negb (r =? 0) then ret r else
  fsync.

Definition root_store (l : mkfs_layout) : Z :=
  put_disk_inode 0 sizeof_simplefs_inode (mkfs_init_root_inode (l_first_data_block l)).

Definition mkfs_write_inode_store (fd : Z) (l : mkfs_layout) : MK Z :=
  if fd <? 0 then ret (- EINVAL) else
  let! ok := malloc in
  if negb ok then ret (- ENOMEM) else
  let! r := lseek SIMPLEFS_BLOCK_SIZE in
  if r <? 0 then ret r else
  let! r := write_block (root_store l) in
  if negb (r =? 0) then ret r else
  for_z (Z.to_nat (l_nr_istore_blocks l - 1)) 1 (fun _ => write_block 0).

Definition mkfs_init_root_index_block (fd : Z) (l : mkfs_layout) : MK Z :=
  if fd <? 0 then ret (- EINVAL) else
  let! r := lseek (l_first_data_block l * SIMPLEFS_BLOCK_SIZE) in
  if r <? 0 then ret r else
  write_block (put_u32 0 0 SIMPLEFS_EXTENT_ROOT_MAGIC).

(** The offset is an [unsigned int] product before it becomes an [off_t]. *)
Definition mkfs_write_ifree_bitmap (fd : Z) (l : mkfs_layout) : MK Z :=
  if fd <? 0 then ret (- EINVAL) else
  let! ok := malloc in
  if negb ok then ret (- ENOMEM) else
  let! r := lseek (u32 (SIMPLEFS_BLOCK_SIZE * u32 (1 + l_nr_istore_blocks l))) in
  if r <? 0 then ret r else
  for_z (Z.to_nat (l_nr_ifree_blocks l)) 0 (fun i => write_block (ifree_words 512 i 0 0)).

Definition mkfs_write_bfree_bitmap (fd : Z) (l : mkfs_layout) : MK Z :=
  if fd <? 0 then ret (- EINVAL) else
  let! ok := malloc in
  if negb ok then ret (- ENOMEM) else
  let! r := lseek (u32 (SIMPLEFS_BLOCK_SIZE * u32 (1 + l_nr_istore_blocks l + l_nr_ifree_blocks l))) in
  if r <? 0 then ret r else
  for_z (Z.to_nat (l_nr_bfree_blocks l)) 0 (fun i => write_block (bfree_image l i)).

(** The code and, on success, the superblock of the result. *)
Definition mkfs_create_fs (fd image_size bytes_per_inode : Z) : MK (Z * option Z) :=
  match mkfs_calculate_layout image_size bytes_per_inode with
  | inl e => ret (e, None)
  | inr l =>
      if negb (mkfs_validate_layout l) then ret (- EINVAL, None) else
      let sb := mkfs_init_superblock l in
      let! r := mkfs_write_superblock fd sb in
      if r <? 0 then ret (r, None) else
      let! r := mkfs_write_inode_store fd l in
      if r <? 0 then ret (r, None) else
      let! r := mkfs_init_root_index_block fd l in
      if r <? 0 then ret (r, None) else
      let! r := mkfs_write_ifree_bitmap fd l in
      if r <? 0 then ret (r, None) else
      let! r := mkfs_write_bfree_bitmap fd l in
      if r <? 0 then ret (r, None) else
      let! r := mkfs_write_journal fd l in
      if r <? 0 then ret (r, None) else
      ret (0, Some sb)
  end.

(** ** Verification routines *)

Definition sb_matches (d : sb_disk) (l : mkfs_layout) : bool :=
  (nr_blocks d =? l_nr_blocks l) && (nr_inodes d =? l_nr_inodes l) &&
  (nr_istore_blocks d =? l_nr_istore_blocks l) && (nr_ifree_blocks d =? l_nr_ifree_blocks l) &&
  (nr_bfree_blocks d =? l_nr_bfree_blocks l).

Definition mkfs_verify_superblock (fd : Z) (expected : option mkfs_layout) : MK Z :=
  if fd <? 0 then ret (- EINVAL) else
  let! r := lseek 0 in
  if r <? 0 then ret r else
  let! (r, sb) := read_bytes SIMPLEFS_BLOCK_SIZE in
  if negb (r =? 0) then ret r else
  let d := sb_of_image sb in
  if negb (magic d =? SIMPLEFS_DISK_MAGIC) then ret (- EINVAL) else
  match expected with
  | Some l => ret (if sb_matches d l then 0 else - EINVAL)
  | None => ret 0
  end.

Definition mkfs_verify_root_inode (fd : Z) (l : mkfs_layout) : MK Z :=
  if fd <? 0 then ret (- EINVAL) else
  let! r := lseek (SIMPLEFS_BLOCK_SIZE + sizeof_simplefs_inode) in
  if r <? 0 then ret r else
  let! (r, img) := read_bytes sizeof_simplefs_inode in
  if negb (r =? 0) then ret r else
  let d := get_disk_inode img 0 in
  if negb (Z.land (d_mode d) 61440 =? 16384) then ret (- EINVAL) else
  if negb (Z.land (d_mode d) 511 =? 509) then ret (- EINVAL) else
  if negb (d_size d =? SIMPLEFS_BLOCK_SIZE) then ret (- EINVAL) else
  if negb (d_nlink d =? 2) then ret (- EINVAL) else
  if negb (d_ei_block d =? l_first_data_block l) then ret (- EINVAL) else
  ret 0.

End Io.

(** ** The layout theorem *)

Lemma idiv_ceil_spec a b : 0 <= a <= U32_MAX -> 1 < b ->
  b * (idiv_ceil a b - 1) < a <= b * idiv_ceil a b /\ 0 <= idiv_ceil a b <= a.
Proof.
  unfold idiv_ceil, u32, U32_MAX. intros Ha Hb.
  pose proof (Z.div_mod a b ltac:(lia)) as E. pose proof (Z.mod_pos_bound a b ltac:(lia)) as Hm.
  assert (0 <= a / b <= a / 2) by (split; [apply Z.div_pos; lia|apply Z.div_le_compat_l; lia]).
  assert (a / 2 <= a) by (apply Z.div_le_upper_bound; lia).
  assert (a / 2 <= 2147483648) by (apply Z.div_le_upper_bound; lia).
  destruct (Z.eqb_spec (a mod b) 0) as [E0|E0]; rewrite Z.mod_small by lia; split; try nia.
Qed.

(** The regions of the device, in order: the superblock, the inode table, the two
    bitmaps, the data, the journal. *)
Record layout_sound (l : mkfs_layout) : Prop := LayoutSound {
  ls_blocks : 100 <= l_nr_blocks l <= U32_MAX;
  ls_inodes : 2 < l_nr_inodes l <= U32_MAX;
  ls_istore : l_nr_inodes l = SIMPLEFS_INODES_PER_BLOCK * l_nr_istore_blocks l;
  ls_ifree : 32768 * (l_nr_ifree_blocks l - 1) < l_nr_inodes l <= 32768 * l_nr_ifree_blocks l;
  ls_bfree : 32768 * (l_nr_bfree_blocks l - 1) < l_nr_blocks l <= 32768 * l_nr_bfree_blocks l;
  ls_first : l_first_data_block l = 1 + l_nr_istore_blocks l + l_nr_ifree_blocks l + l_nr_bfree_blocks l;
  ls_journal : l_nr_journal_blocks l = 0 \/ l_nr_journal_blocks l = SIMPLEFS_JOURNAL_BLOCKS;
  ls_journal_start : l_journal_start_block l = l_nr_blocks l - l_nr_journal_blocks l;
  ls_data : l_nr_data_blocks l = l_journal_start_block l - l_first_data_block l /\ 0 < l_nr_data_blocks l
}.

Lemma align_inodes_spec n nb r : 0 <= n <= nb -> 100 <= nb <= U32_MAX -> align_inodes n = inr r ->
  2 < r <= U32_MAX /\ r mod 39 = 0 /\ r <= nb + 38.
Proof.
  intros Hn Hb. unfold align_inodes, U32_MAX, u32 in *. change SIMPLEFS_INODES_PER_BLOCK with 39.
  set (m := if n <? 2 then 2 else n). assert (Hm : 2 <= m <= nb /\ m <= 4294967295).
  { unfold m. destruct (Z.ltb_spec n 2); lia. }
  clearbody m. pose proof (Z.div_mod m 39 ltac:(lia)) as E. pose proof (Z.mod_pos_bound m 39 ltac:(lia)) as Hp.
  destruct (Z.eqb_spec (m mod 39) 0) as [E0|E0].
  - intros [= <-]. lia.
  - destruct (Z.ltb_spec (4294967295 - (39 - m mod 39)) m) as [|Hle]; [done|]. intros [= <-].
    rewrite Z.mod_small by lia. split; [lia|]. split; [|lia].
    replace (m + (39 - m mod 39)) with ((m / 39 + 1) * 39) by lia. apply Z.mod_mul. lia.
Qed.

Lemma layout_for_sound nb ni : 100 <= nb <= U32_MAX -> 2 < ni <= U32_MAX -> ni mod 39 = 0 -> ni <= nb + 38 ->
  layout_sound (layout_for nb ni).
Proof.
  intros Hb Hi Hm Hle. unfold layout_for. change SIMPLEFS_INODES_PER_BLOCK with 39.
  change (SIMPLEFS_BLOCK_SIZE * 8) with 32768. change SIMPLEFS_JOURNAL_BLOCKS with 1024.
  pose proof (idiv_ceil_spec ni 39 ltac:(lia) ltac:(lia)) as [Ha _].
  pose proof (idiv_ceil_spec ni 32768 ltac:(lia) ltac:(lia)) as [Hf _].
  pose proof (idiv_ceil_spec nb 32768 ltac:(lia) ltac:(lia)) as [Hg _].
  set (a := idiv_ceil ni 39) in *. set (f := idiv_ceil ni 32768) in *. set (g := idiv_ceil nb 32768) in *.
  clearbody a f g. unfold U32_MAX in *.
  assert (Ea : ni = 39 * a).
  { apply Z.mod_divide in Hm as [q ->]; [|lia]. lia. }
  assert (Hu : u32 (1 + a + f + g) = 1 + a + f + g) by (apply u32_id; unfold is_u32, U32_MAX; lia).
  rewrite Hu. rewrite (u32_id (1 + a + f + g + 1024)) by (unfold is_u32, U32_MAX; lia).
  destruct (Z.ltb_spec (1 + a + f + g + 1024) nb); rewrite ?u32_id by (unfold is_u32, U32_MAX; lia);
    split; cbn [l_nr_blocks l_nr_inodes l_nr_istore_blocks l_nr_ifree_blocks l_nr_bfree_blocks
      l_nr_journal_blocks l_nr_data_blocks l_first_data_block l_journal_start_block];
    change SIMPLEFS_INODES_PER_BLOCK with 39; unfold U32_MAX, SIMPLEFS_JOURNAL_BLOCKS; try lia.
Qed.

Lemma layout_sound_valid l : layout_sound l -> mkfs_validate_layout l = true.
Proof.
  intros [H1 H2 H3 H4 H5 H6 H7 H8 [H9 H10]]. unfold mkfs_validate_layout, U32_MAX in *. rewrite H3.
  change SIMPLEFS_INODES_PER_BLOCK with 39 in *. change SIMPLEFS_JOURNAL_BLOCKS with 1024 in *.
  rewrite u32_id by (unfold is_u32, U32_MAX; lia). rewrite !andb_true_iff, !negb_true_iff, !Z.eqb_neq, Z.ltb_lt, Z.leb_le.
  lia.
Qed.

Lemma calculate_layout_sound image_size bytes_per_inode l :
  mkfs_calculate_layout image_size bytes_per_inode = inr l -> layout_sound l.
Proof.
  unfold mkfs_calculate_layout. change SIMPLEFS_MIN_SIZE with 409600. change SIMPLEFS_BLOCK_SIZE with 4096.
  destruct (Z.leb_spec image_size 409600) as [|Hs]; [done|].
  destruct (_ || _) eqn:Hc; [done|]. rewrite !orb_false_iff in Hc. destruct Hc as [[H1 H2] H3]. bool_hyps.
  assert (Hb : 100 <= image_size / 4096) by (apply Z.div_le_lower_bound; lia).
  assert (Hd : 0 <= image_size / bytes_per_inode <= image_size / 4096)
    by (split; [apply Z.div_pos; lia|apply Z.div_le_compat_l; lia]).
  rewrite !u32_id by (unfold is_u32; lia).
  destruct (align_inodes _) as [|r] eqn:E; [done|]. intros [= <-].
  apply (align_inodes_spec _ (image_size / 4096)) in E as (E1 & E2 & E3); [|done|lia].
  apply layout_for_sound; lia.
Qed.


(** ** What the writes leave on the device *)

Section Device.
Context {X : Posix}.

(** A block of the device after a run of [n] blocks from block [p] on. *)
Definition wrote (p n : Z) (f : Z -> Z) (s s' : mkworld) : Prop :=
  forall b, dev_block (mk_dev s') b =
    if (p <=? b) && (b <? p + n) then get_bytes (f (b - p)) 0 SIMPLEFS_BLOCK_SIZE else dev_block (mk_dev s) b.

Lemma write_block_spec img p s : mk_pos s = p * SIMPLEFS_BLOCK_SIZE ->
  wp (write_block img) (fun r s' => r <= 0 /\ (r = 0 ->
    mk_pos s' = (p + 1) * SIMPLEFS_BLOCK_SIZE /\ wrote p 1 (fun _ => img) s s')) s.
Proof.
  intros Hp. unfold write_block, sys. change SIMPLEFS_BLOCK_SIZE with 4096 in *. wps. unfold wp at 1.
  destruct (psys _ _) as [n k]. cbn [fst snd mk_pos mk_dev mk_sys].
  destruct (Z.ltb_spec n 0); [apply wp_ret; lia|]. wps. cbn [mk_pos mk_dev].
  destruct (Z.eqb_spec (Z.min n 4096) 4096) as [E|]; [|done]. split; [done|]. intros _. rewrite E, Hp, Z.div_mul by lia.
  split; [lia|]. intros b. cbn [mk_dev]. unfold dev_block at 1. rewrite lookup_insert. case_decide as Hb; cbn [from_option].
  - subst b. rewrite (proj2 (Z.leb_le _ _)), (proj2 (Z.ltb_lt _ _)) by lia. cbn [andb].
    change SIMPLEFS_BLOCK_SIZE with 4096. unfold get_bytes, put_bytes, id. rewrite slice_splice_same by lia. done.
  - destruct ((p <=? b) && (b <? p + 1)) eqn:Eb; [|done]. apply andb_true_iff in Eb as [? ?]. bool_hyps. lia.
Qed.

(** A loop that writes [f i], [f (i + 1)], ... *)
Lemma write_loop f n : forall i p s, mk_pos s = p * SIMPLEFS_BLOCK_SIZE ->
  wp (for_z n i (fun j => write_block (f j))) (fun r s' => r <= 0 /\ (r = 0 ->
    mk_pos s' = (p + Z.of_nat n) * SIMPLEFS_BLOCK_SIZE /\ wrote p (Z.of_nat n) (fun b => f (i + b)) s s')) s.
Proof.
  induction n as [|n IH]; intros i p s Hp; cbn [for_z].
  - apply wp_ret. split; [done|]. intros _. split; [lia|]. intros b.
    destruct ((p <=? b) && (b <? p + Z.of_nat 0)) eqn:E; [|done]. apply andb_true_iff in E as [? ?]. bool_hyps. lia.
  - apply wp_bind. eapply wp_mono; [by apply (write_block_spec _ p)|]. intros r s1 [Hle H1].
    destruct (Z.eqb_spec r 0) as [->|Hr]; [|by apply wp_ret]. destruct (H1 eq_refl) as [P1 W1].
    eapply wp_mono; [by apply (IH (i + 1) (p + 1))|]. intros r s2 [Hle2 H2]. split; [done|]. intros ->. destruct (H2 eq_refl) as [P2 W2].
    split; [rewrite P2; lia|]. intros b. rewrite (W2 b), (W1 b).
    destruct (Z.leb_spec (p + 1) b), (Z.ltb_spec b (p + 1 + Z.of_nat n)), (Z.leb_spec p b), (Z.ltb_spec b (p + 1)),
      (Z.ltb_spec b (p + Z.of_nat (S n))); try lia; cbn [andb]; try done; do 2 f_equal; lia.
Qed.

Lemma lseek_spec off s : wp (lseek off) (fun r s' => mk_dev s' = mk_dev s /\ r <= 0 /\ (r = 0 -> mk_pos s' = off)) s.
Proof.
  unfold lseek, sys. apply wp_bind. unfold wp at 1. destruct (psys _ _) as [r k]. cbn [fst snd].
  destruct (Z.ltb_spec r 0); [apply wp_ret|wps; split_and!; done]. cbn. split_and!; [done|lia|lia].
Qed.
Lemma malloc_spec s : wp malloc (fun _ s' => mk_dev s' = mk_dev s /\ mk_pos s' = mk_pos s) s.
Proof. unfold malloc, sys. apply wp_bind. unfold wp at 1. destruct (psys _ _). by apply wp_ret. Qed.
Lemma fsync_spec s : wp fsync (fun r s' => r <= 0 /\ mk_dev s' = mk_dev s) s.
Proof.
  unfold fsync, sys. apply wp_bind. unfold wp at 1. destruct (psys _ _) as [r k]. apply wp_ret.
  cbn. destruct (Z.ltb_spec r 0); split; done || lia.
Qed.

Lemma wrote_dev p n f s s1 s' : mk_dev s1 = mk_dev s -> wrote p n f s1 s' -> wrote p n f s s'.
Proof. intros E H b. rewrite (H b). by rewrite E. Qed.

(** A first block and [n] more. *)
Lemma wrote_first (img : Z) f n i p s s1 s2 :
  wrote p 1 (fun _ => img) s s1 -> wrote (p + 1) n (fun b => f (i + b)) s1 s2 -> 0 <= n ->
  wrote p (1 + n) (fun b => if b =? 0 then img else f (i + (b - 1))) s s2.
Proof.
  intros W1 W2 Hn b. rewrite (W2 b), (W1 b).
  destruct (Z.leb_spec (p + 1) b), (Z.ltb_spec b (p + 1 + n)), (Z.leb_spec p b), (Z.ltb_spec b (p + 1)),
    (Z.ltb_spec b (p + (1 + n))), (Z.eqb_spec (b - p) 0); try lia; cbn [andb]; try done; do 2 f_equal; lia.
Qed.

(** A routine that, when it succeeds, writes [n] blocks from block [p] on. *)
Definition writes (m : MK Z) (p n : Z) (f : Z -> Z) : Prop :=
  forall s, wp m (fun r s' => r <= 0 /\ (r = 0 -> wrote p n f s s')) s.

Lemma writes_err (e : Z) p n f : e < 0 -> writes (ret e) p n f.
Proof. intros H s. apply wp_ret. lia. Qed.
Lemma writes_malloc k p n f : writes k p n f ->
  writes (let! ok := malloc in if negb ok then ret (- ENOMEM) else k) p n f.
Proof.
  intros H s. apply wp_bind. eapply wp_mono; [apply malloc_spec|]. intros ok s1 [E _].
  destruct ok; [|by apply wp_ret]. eapply wp_mono; [apply H|]. intros r s2 [? H2].
  split; [done|]. intros Hr. by apply (wrote_dev p n f s s1), H2.
Qed.
Lemma writes_seek k p n f : 0 <= p ->
  (forall s, mk_pos s = p * SIMPLEFS_BLOCK_SIZE -> wp k (fun r s' => r <= 0 /\ (r = 0 -> wrote p n f s s')) s) ->
  writes (let! r := lseek (p * SIMPLEFS_BLOCK_SIZE) in if r <? 0 then ret r else k) p n f.
Proof.
  intros Hp H s. apply wp_bind. eapply wp_mono; [apply lseek_spec|]. intros r s1 (E & Hr & P).
  destruct (Z.ltb_spec r 0); [apply wp_ret; lia|]. eapply wp_mono; [apply H, P; lia|]. intros r2 s2 [? H2].
  split; [done|]. intros Hr2. by apply (wrote_dev p n f s s1), H2.
Qed.
Lemma writes_fd fd k p n f : writes k p n f -> writes (if fd <? 0 then ret (- EINVAL) else k) p n f.
Proof. intros H. destruct (fd <? 0); [by apply writes_err|done]. Qed.

Lemma wrote_ext p n f g s s' : (forall b, 0 <= b < n -> f b = g b) -> wrote p n f s s' -> wrote p n g s s'.
Proof.
  intros H W b. rewrite (W b). destruct ((p <=? b) && (b <? p + n)) eqn:E; [|done].
  apply andb_true_iff in E as [? ?]. bool_hyps. by rewrite H by lia.
Qed.

Lemma superblock_writes fd sb : writes (mkfs_write_superblock fd sb) 0 1 (fun _ => sb).
Proof.
  apply writes_fd. change 0 with (0 * SIMPLEFS_BLOCK_SIZE) at 1. apply writes_seek; [done|]. intros s Hp.
  apply wp_bind. eapply wp_mono; [by apply (write_block_spec sb 0)|]. intros r s1 [Hle H1].
  destruct (Z.eqb_spec r 0) as [->|Hr]; cbn [negb]; [|apply wp_ret; lia]. destruct (H1 eq_refl) as [_ W].
  eapply wp_mono; [apply fsync_spec|]. intros r s2 [? E]. split; [done|]. intros _ b. rewrite E. apply W.
Qed.

(** The images of a region whose first block is special. *)
Definition headed (img : Z) (b : Z) : Z := if b =? 0 then img else 0.

Lemma write_headed img n p s : mk_pos s = p * SIMPLEFS_BLOCK_SIZE -> 1 <= n ->
  wp (let! r := write_block img in
      if negb (r =? 0) then ret r else for_z (Z.to_nat (n - 1)) 1 (fun _ => write_block 0))
     (fun r s' => r <= 0 /\ (r = 0 -> wrote p n (headed img) s s')) s.
Proof.
  intros Hp Hn. apply wp_bind. eapply wp_mono; [by apply (write_block_spec _ p)|]. intros r s1 [Hle H1].
  destruct (Z.eqb_spec r 0) as [->|Hr]; cbn [negb]; [|apply wp_ret; lia]. destruct (H1 eq_refl) as [P W].
  eapply wp_mono; [by apply (write_loop (fun _ => 0) _ 1 (p + 1))|]. rewrite Z2Nat.id by lia.
  intros r s2 [? H2]. split; [done|]. intros Hr. destruct (H2 Hr) as [_ W2].
  replace n with (1 + (n - 1)) by lia. apply (wrote_first img (fun _ => 0) (n - 1) 1 p s s1); [done|done|lia].
Qed.

Lemma inode_store_writes fd l : 1 <= l_nr_istore_blocks l ->
  writes (mkfs_write_inode_store fd l) 1 (l_nr_istore_blocks l) (headed (root_store l)).
Proof.
  intros H. apply writes_fd, writes_malloc. apply (writes_seek _ 1); [done|]. intros s Hp. by apply write_headed.
Qed.

Definition root_index_image : Z := put_u32 0 0 SIMPLEFS_EXTENT_ROOT_MAGIC.
Lemma root_index_writes fd l : 0 <= l_first_data_block l ->
  writes (mkfs_init_root_index_block fd l) (l_first_data_block l) 1 (fun _ => root_index_image).
Proof.
  intros H. apply writes_fd, writes_seek; [done|]. intros s Hp.
  eapply wp_mono; [by apply (write_block_spec _ (l_first_data_block l))|]. intros r s1 [? H1]. split; [done|].
  intros Hr. by apply H1.
Qed.

(** The offset of a bitmap, when the product stays below 4 GiB. *)
Lemma bitmap_offset b : 0 <= b < 1048576 -> u32 (SIMPLEFS_BLOCK_SIZE * u32 b) = b * SIMPLEFS_BLOCK_SIZE.
Proof.
  intros H. change SIMPLEFS_BLOCK_SIZE with 4096. rewrite (u32_id b) by (unfold is_u32, U32_MAX; lia).
  rewrite u32_id by (unfold is_u32, U32_MAX; lia). lia.
Qed.

Lemma ifree_writes fd l p n : u32 (SIMPLEFS_BLOCK_SIZE * u32 (1 + l_nr_istore_blocks l)) = p * SIMPLEFS_BLOCK_SIZE ->
  0 <= p -> l_nr_ifree_blocks l = n -> 0 <= n ->
  writes (mkfs_write_ifree_bitmap fd l) p n (fun i => ifree_words 512 i 0 0).
Proof.
  intros E Hp <- Hn. apply writes_fd, writes_malloc. rewrite E. apply writes_seek; [done|]. intros s Hs.
  eapply wp_mono; [by apply (write_loop (fun i => ifree_words 512 i 0 0) _ 0 p)|]. rewrite Z2Nat.id by lia.
  intros r s1 [? H1]. split; [done|]. intros Hr. eapply wrote_ext; [|by apply H1]. done.
Qed.

Lemma bfree_writes fd l p n :
  u32 (SIMPLEFS_BLOCK_SIZE * u32 (1 + l_nr_istore_blocks l + l_nr_ifree_blocks l)) = p * SIMPLEFS_BLOCK_SIZE ->
  0 <= p -> l_nr_bfree_blocks l = n -> 0 <= n ->
  writes (mkfs_write_bfree_bitmap fd l) p n (bfree_image l).
Proof.
  intros E Hp <- Hn. apply writes_fd, writes_malloc. rewrite E. apply writes_seek; [done|]. intros s Hs.
  eapply wp_mono; [by apply (write_loop (bfree_image l) _ 0 p)|]. rewrite Z2Nat.id by lia.
  intros r s1 [? H1]. split; [done|]. intros Hr. eapply wrote_ext; [|by apply H1]. done.
Qed.

Lemma journal_writes fd l : 0 <= l_journal_start_block l -> 0 <= l_nr_journal_blocks l ->
  writes (mkfs_write_journal fd l) (l_journal_start_block l) (l_nr_journal_blocks l)
    (headed (mkfs_init_journal_superblock (l_nr_journal_blocks l))).
Proof.
  intros Hp Hn. apply writes_fd. destruct (Z.eqb_spec (l_nr_journal_blocks l) 0) as [->|Hne].
  { intros s. apply wp_ret. split; [done|]. intros _ b.
    destruct ((_ <=? b) && (b <? _ + 0)) eqn:E; [|done]. apply andb_true_iff in E as [? ?]. bool_hyps. lia. }
  apply writes_malloc, writes_seek; [done|]. intros s Hs.
  assert (H1 : 1 <= l_nr_journal_blocks l) by lia.
  pose proof (write_headed (mkfs_init_journal_superblock (l_nr_journal_blocks l)) _ _ s Hs H1) as H.
  unfold wp, bind in *. destruct (write_block _ s) as [r1 s1]. destruct (negb (r1 =? 0)); [exact H|].
  destruct (for_z _ 1 _ s1) as [r2 s2]. cbn [fst snd] in H. destruct H as [Hle H].
  destruct (Z.eqb_spec r2 0) as [->|Hr]; cbn [negb fst snd ret]; [|split; [done|lia]].
  destruct (fsync_spec s2) as [Hf E]. split; [done|]. intros _ b. rewrite E. by apply H.
Qed.

(** All the regions of a new file system. *)
Record formatted (l : mkfs_layout) (s : mkworld) : Prop := Formatted {
  f_super : dev_block (mk_dev s) 0 = get_bytes (mkfs_init_superblock l) 0 SIMPLEFS_BLOCK_SIZE;
  f_istore : forall i, 0 <= i < l_nr_istore_blocks l ->
    dev_block (mk_dev s) (1 + i) = get_bytes (headed (root_store l) i) 0 SIMPLEFS_BLOCK_SIZE;
  f_ifree : forall i, 0 <= i < l_nr_ifree_blocks l ->
    dev_block (mk_dev s) (1 + l_nr_istore_blocks l + i) = get_bytes (ifree_words 512 i 0 0) 0 SIMPLEFS_BLOCK_SIZE;
  f_bfree : forall i, 0 <= i < l_nr_bfree_blocks l ->
    dev_block (mk_dev s) (1 + l_nr_istore_blocks l + l_nr_ifree_blocks l + i) =
    get_bytes (bfree_image l i) 0 SIMPLEFS_BLOCK_SIZE;
  f_root : dev_block (mk_dev s) (l_first_data_block l) = get_bytes root_index_image 0 SIMPLEFS_BLOCK_SIZE;
  f_journal : forall i, 0 <= i < l_nr_journal_blocks l ->
    dev_block (mk_dev s) (l_journal_start_block l + i) =
    get_bytes (headed (mkfs_init_journal_superblock (l_nr_journal_blocks l)) i) 0 SIMPLEFS_BLOCK_SIZE
}.

(** The six runs cover the regions, each in its place. *)
Lemma formatted_of_runs l s0 s1 s2 s3 s4 s5 s6 : layout_sound l ->
  wrote 0 1 (fun _ => mkfs_init_superblock l) s0 s1 ->
  wrote 1 (l_nr_istore_blocks l) (headed (root_store l)) s1 s2 ->
  wrote (l_first_data_block l) 1 (fun _ => root_index_image) s2 s3 ->
  wrote (1 + l_nr_istore_blocks l) (l_nr_ifree_blocks l) (fun i => ifree_words 512 i 0 0) s3 s4 ->
  wrote (1 + l_nr_istore_blocks l + l_nr_ifree_blocks l) (l_nr_bfree_blocks l) (bfree_image l) s4 s5 ->
  wrote (l_journal_start_block l) (l_nr_journal_blocks l)
    (headed (mkfs_init_journal_superblock (l_nr_journal_blocks l))) s5 s6 ->
  formatted l s6.
Proof.
  intros [L1 L2 L3 L4 L5 L6 L7 L8 [L9 L10]] W1 W2 W3 W4 W5 W6. change SIMPLEFS_INODES_PER_BLOCK with 39 in L3.
  assert (Hj : 0 <= l_nr_journal_blocks l) by (destruct L7 as [->| ->]; done).
  assert (Hrun : forall p n f s s' b, wrote p n f s s' -> ~ (p <= b < p + n) -> dev_block (mk_dev s') b = dev_block (mk_dev s) b).
  { intros p n f s s' b W H. rewrite (W b). destruct (Z.leb_spec p b), (Z.ltb_spec b (p + n)); try done. lia. }
  assert (Hin : forall p n f s s' i, wrote p n f s s' -> 0 <= i < n ->
    dev_block (mk_dev s') (p + i) = get_bytes (f i) 0 SIMPLEFS_BLOCK_SIZE).
  { intros p n f s s' i W H. rewrite (W (p + i)). rewrite (proj2 (Z.leb_le _ _)), (proj2 (Z.ltb_lt _ _)) by lia.
    cbn [andb]. do 2 f_equal. lia. }
  split.
  - rewrite (Hrun _ _ _ _ _ _ W6), (Hrun _ _ _ _ _ _ W5), (Hrun _ _ _ _ _ _ W4), (Hrun _ _ _ _ _ _ W3),
      (Hrun _ _ _ _ _ _ W2) by lia. by apply (Hin 0 1 _ s0 s1 0 W1).
  - intros i Hi. rewrite (Hrun _ _ _ _ _ _ W6), (Hrun _ _ _ _ _ _ W5), (Hrun _ _ _ _ _ _ W4), (Hrun _ _ _ _ _ _ W3) by lia.
    by apply (Hin _ _ _ _ _ _ W2).
  - intros i Hi. rewrite (Hrun _ _ _ _ _ _ W6), (Hrun _ _ _ _ _ _ W5) by lia. by apply (Hin _ _ _ _ _ _ W4).
  - intros i Hi. rewrite (Hrun _ _ _ _ _ _ W6) by lia. by apply (Hin _ _ _ _ _ _ W5).
  - rewrite (Hrun _ _ _ _ _ _ W6), (Hrun _ _ _ _ _ _ W5), (Hrun _ _ _ _ _ _ W4) by lia.
    replace (l_first_data_block l) with (l_first_data_block l + 0) by lia. by apply (Hin _ _ _ _ _ 0 W3).
  - intros i Hi. by apply (Hin _ _ _ _ _ _ W6).
Qed.

Lemma writes_next (m : MK Z) p n f k s (Q : Z * option Z -> mkworld -> Prop) :
  writes m p n f -> (forall r s', r < 0 -> Q (r, None) s') ->
  (forall s', wrote p n f s s' -> wp k Q s') ->
  wp (let! r := m in if r <? 0 then ret (r, None) else k) Q s.
Proof.
  intros Hm He Hk. apply wp_bind. eapply wp_mono; [apply Hm|]. intros r s' [Hle H].
  destruct (Z.ltb_spec r 0); [apply wp_ret; by apply He|]. apply Hk, H. lia.
Qed.

(** A successful run leaves every region in place; the bitmaps must start below 4 GiB. *)
Lemma create_fs_formats fd image_size bytes_per_inode s :
  wp (mkfs_create_fs fd image_size bytes_per_inode) (fun r s' => r.1 = 0 ->
    exists l, mkfs_calculate_layout image_size bytes_per_inode = inr l /\ layout_sound l /\
      (l_first_data_block l < 1048576 -> formatted l s')) s.
Proof.
  unfold mkfs_create_fs. destruct (mkfs_calculate_layout _ _) as [e|l] eqn:E.
  { apply wp_ret. cbn. intros ->. unfold mkfs_calculate_layout, align_inodes in E. repeat case_match; simplify_eq. }
  pose proof E as Hl. apply calculate_layout_sound in Hl. pose proof Hl as Hl2.
  destruct Hl2 as [L1 L2 L3 L4 L5 L6 L7 L8 [L9 L10]]. change SIMPLEFS_INODES_PER_BLOCK with 39 in L3. unfold U32_MAX in *.
  destruct (Z.ltb_spec (l_first_data_block l) 1048576) as [Hb|Hb].
  2:{ eapply (wp_mono _ (fun _ _ => True)); [done|]. intros r s' _ _. exists l. split_and!; [done|done|lia]. }
  rewrite layout_sound_valid by done. cbn [negb].
  assert (Hj : 0 <= l_nr_journal_blocks l <= 1024) by (destruct L7 as [->| ->]; done).
  assert (He : forall (r : Z) s', r < 0 -> (fun (r : Z * option Z) s' => r.1 = 0 -> exists l',
    inr l = inr l' :> Z + mkfs_layout /\ layout_sound l' /\ (l_first_data_block l' < 1048576 -> formatted l' s')) (r, None) s').
  { intros r s' Hr Hr0. cbn in Hr0. lia. }
  apply (writes_next _ _ _ _ _ _ _ (superblock_writes fd _)); [done|]. intros s1 W1.
  apply (writes_next _ _ _ _ _ _ _ (inode_store_writes fd l ltac:(lia))); [done|]. intros s2 W2.
  apply (writes_next _ _ _ _ _ _ _ (root_index_writes fd l ltac:(lia))); [done|]. intros s3 W3.
  assert (O4 := bitmap_offset (1 + l_nr_istore_blocks l) ltac:(lia)).
  apply (writes_next _ _ _ _ _ _ _ (ifree_writes fd l _ _ O4 ltac:(lia) eq_refl ltac:(lia))); [done|]. intros s4 W4.
  assert (O5 := bitmap_offset (1 + l_nr_istore_blocks l + l_nr_ifree_blocks l) ltac:(lia)).
  apply (writes_next _ _ _ _ _ _ _ (bfree_writes fd l _ _ O5 ltac:(lia) eq_refl ltac:(lia))); [done|]. intros s5 W5.
  apply (writes_next _ _ _ _ _ _ _ (journal_writes fd l ltac:(lia) ltac:(lia))); [done|]. intros s6 W6.
  apply wp_ret. intros _. exists l. split; [done|]. split; [done|]. intros _.
  by apply (formatted_of_runs l s s1 s2 s3 s4 s5 s6).
Qed.
End Device.

(** ** The contents of the regions *)

Lemma slice_block img p m : 0 <= p -> 0 <= m -> p + m <= 32768 ->
  slice (get_bytes img 0 SIMPLEFS_BLOCK_SIZE) p m = slice img p m.
Proof.
  intros. unfold get_bytes. change (8 * 0) with 0. change (8 * SIMPLEFS_BLOCK_SIZE) with 32768.
  rewrite slice_slice by lia. done.
Qed.
Lemma testbit_block img k : 0 <= k < 32768 -> Z.testbit (get_bytes img 0 SIMPLEFS_BLOCK_SIZE) k = Z.testbit img k.
Proof.
  intros. unfold get_bytes. change (8 * 0) with 0. change (8 * SIMPLEFS_BLOCK_SIZE) with 32768.
  rewrite slice_testbit by lia. rewrite (proj2 (Z.ltb_lt _ _)) by lia. cbn [andb]. f_equal. lia.
Qed.

(** No field of the layout wraps. *)
Lemma layout_u32 l : layout_sound l ->
  is_u32 (l_nr_blocks l) /\ is_u32 (l_nr_inodes l) /\ is_u32 (l_nr_istore_blocks l) /\ is_u32 (l_nr_ifree_blocks l) /\
  is_u32 (l_nr_bfree_blocks l) /\ is_u32 (l_nr_inodes l - 2) /\ is_u32 (l_nr_data_blocks l - 1) /\
  is_u32 (l_journal_start_block l) /\ is_u32 (l_first_data_block l) /\ 0 <= l_nr_journal_blocks l <= 1024.
Proof.
  intros [L1 L2 L3 L4 L5 L6 L7 L8 [L9 L10]]. change SIMPLEFS_INODES_PER_BLOCK with 39 in L3. unfold is_u32, U32_MAX in *.
  change SIMPLEFS_JOURNAL_BLOCKS with 1024 in L7. lia.
Qed.

Lemma sb_of_words img w0 w1 w2 w3 w4 w5 w6 w7 w8 w9 :
  get_words img 0 10 = [w0; w1; w2; w3; w4; w5; w6; w7; w8; w9] ->
  get_u32 img 40 = 0 -> get_bytes img 44 64 = 0 -> get_u32 img 108 = 0 ->
  sb_of_image img = SbDisk w0 w1 w2 w3 w4 w5 w6 w7 w8 w9 0 0 0.
Proof.
  change (get_words img 0 10) with (map (get_u32 img) [0; 4; 8; 12; 16; 20; 24; 28; 32; 36]). cbn [map].
  intros [= E0 E1 E2 E3 E4 E5 E6 E7 E8 E9] E10 E11 E12.
  unfold sb_of_image. by rewrite E0, E1, E2, E3, E4, E5, E6, E7, E8, E9, E10, E11, E12.
Qed.

Lemma superblock_decoded l : layout_sound l ->
  sb_of_image (get_bytes (mkfs_init_superblock l) 0 SIMPLEFS_BLOCK_SIZE) =
  SbDisk SIMPLEFS_DISK_MAGIC (l_nr_blocks l) (l_nr_inodes l) (l_nr_istore_blocks l) (l_nr_ifree_blocks l)
    (l_nr_bfree_blocks l) (l_nr_inodes l - 2) (l_nr_data_blocks l - 1)
    (if 0 <? l_nr_journal_blocks l then 1 else 0) (l_journal_start_block l) 0 0 0.
Proof.
  intros (U1 & U2 & U3 & U4 & U5 & U6 & U7 & U8 & U9 & _)%layout_u32.
  unfold mkfs_init_superblock. rewrite !u32_id by done. set (ws := [_; _; _; _; _; _; _; _; _; _]).
  assert (Hw : Forall is_u32 ws) 
    by (unfold ws; repeat (apply Forall_cons_2; [try done; by destruct (0 <? _)|]); apply Forall_nil_2).
  apply sb_of_words.
  - rewrite (get_words_ext 10 _ (put_words 0 0 ws)); [by apply (get_put_words ws)|].
    intros k Hk. apply slice_block; lia.
  - unfold get_u32. rewrite slice_block, put_words_slice by (cbn; lia). by apply slice_0.
  - unfold get_bytes at 1. rewrite slice_block, put_words_slice by (cbn; lia). by apply slice_0.
  - unfold get_u32. rewrite slice_block, put_words_slice by (cbn; lia). by apply slice_0.
Qed.

Lemma ifree_value_testbit b m : 0 <= m < 64 ->
  Z.testbit (if b : bool then mkfs_calc_ifree_value 0 else UINT64_MAX) m = negb (b && (m <? 2)).
Proof.
  intros H. unfold mkfs_calc_ifree_value, UINT64_MAX. cbn [Z.eqb]. change 3 with (Z.ones 2). destruct b;
    rewrite ?Z.ldiff_spec, !ones_testbit, (proj2 (Z.ltb_lt m 64)) by lia; done.
Qed.

(** A free inode: every one but the reserved 0 and the root. *)
Lemma ifree_words_testbit n i : forall j img k, 0 <= j -> 0 <= k ->
  Z.testbit (ifree_words n i j img) k =
  if (64 * j <=? k) && (k <? 64 * (j + Z.of_nat n)) then negb ((i =? 0) && (k <? 2)) else Z.testbit img k.
Proof.
  induction n as [|n IH]; intros j img k Hj Hk; cbn [ifree_words].
  - destruct (Z.leb_spec (64 * j) k), (Z.ltb_spec k (64 * (j + Z.of_nat 0))); try done. lia.
  - rewrite IH by lia. unfold put_bytes. rewrite splice_testbit by lia. change (8 * 8) with 64.
    replace (8 * (8 * j)) with (64 * j) by lia.
    destruct (Z.leb_spec (64 * j) k), (Z.ltb_spec k (64 * j + 64)); cbn [andb].
    1: rewrite ifree_value_testbit by lia.
    all: destruct (Z.leb_spec (64 * (j + 1)) k), (Z.ltb_spec k (64 * (j + 1 + Z.of_nat n))),
      (Z.ltb_spec k (64 * (j + Z.of_nat (S n)))); try lia; try done.
    all: cbn [andb]; destruct (Z.eqb_spec i 0), (Z.eqb_spec j 0), (Z.ltb_spec (k - 64 * j) 2), (Z.ltb_spec k 2); try lia; done.
Qed.

(** A used block: the metadata, the root directory's block, the journal. *)
Definition mkfs_used (l : mkfs_layout) (b : Z) : bool :=
  (b <? nr_used l) || (negb (l_nr_journal_blocks l =? 0) && (l_journal_start_block l <=? b)).

Lemma bfree_bits_testbit l start n : forall bit img k, 0 <= start -> 0 <= bit -> 0 <= k ->
  start + bit + Z.of_nat n <= 4294967296 ->
  Z.testbit (bfree_bits n l start bit img) k =
  Z.testbit img k && negb ((bit <=? k) && (k <? bit + Z.of_nat n) && (start + k <? l_nr_blocks l) && mkfs_used l (start + k)).
Proof.
  induction n as [|n IH]; intros bit img k Hs Hb Hk Hn; cbn [bfree_bits].
  - destruct (Z.leb_spec bit k), (Z.ltb_spec k (bit + Z.of_nat 0)); try lia; cbn; by rewrite andb_true_r.
  - rewrite (u32_id (start + bit)) by (unfold is_u32, U32_MAX; lia). fold (mkfs_used l (start + bit)).
    destruct (Z.leb_spec (l_nr_blocks l) (start + bit)) as [Hend|Hend].
    + destruct (Z.leb_spec bit k), (Z.ltb_spec (start + k) (l_nr_blocks l)); try lia;
        cbn [andb negb]; rewrite ?andb_false_r; cbn; by rewrite andb_true_r.
    + rewrite IH by lia. destruct (Z.eq_dec k bit) as [->|Hne].
      * rewrite (proj2 (Z.leb_gt (bit + 1) bit)), (proj2 (Z.leb_le bit bit)), (proj2 (Z.ltb_lt bit (bit + Z.of_nat (S n)))),
          (proj2 (Z.ltb_lt (start + bit) (l_nr_blocks l))) by lia. cbn [andb negb]. rewrite andb_true_r.
        destruct (mkfs_used l (start + bit)); cbn [negb]; [by rewrite Z.clearbit_eq, andb_false_r|by rewrite andb_true_r].
      * replace (Z.testbit (if mkfs_used l (start + bit) then Z.clearbit img bit else img) k) with (Z.testbit img k)
          by (destruct (mkfs_used _ (start + bit)); [by rewrite Z.clearbit_neq by lia|done]).
        destruct (Z.leb_spec (bit + 1) k), (Z.leb_spec bit k), (Z.ltb_spec k (bit + 1 + Z.of_nat n)),
          (Z.ltb_spec k (bit + Z.of_nat (S n))); try lia; done.
Qed.

Lemma bfree_image_testbit l i k : layout_sound l -> 0 <= i < l_nr_bfree_blocks l -> 0 <= k < 32768 ->
  Z.testbit (bfree_image l i) k =
  negb ((i * 32768 + k <? l_nr_blocks l) && mkfs_used l (i * 32768 + k)).
Proof.
  intros [L1 _ _ _ L5 _ _ _ _] Hi Hk. unfold bfree_image, U32_MAX in *. replace (i * SIMPLEFS_BLOCK_SIZE * 8) with (i * 32768)
    by (change SIMPLEFS_BLOCK_SIZE with 4096; lia).
  rewrite u32_id by (unfold is_u32, U32_MAX; lia). rewrite bfree_bits_testbit by lia.
  rewrite ones_testbit, (proj2 (Z.ltb_lt k 32768)), (proj2 (Z.leb_le 0 k)), (proj2 (Z.ltb_lt k (0 + Z.of_nat (Z.to_nat 32768)))) by lia.
  done.
Qed.

(** ** The word-wise block bitmap *)

Lemma mark_bits_spec n : forall bit val rem, 0 <= bit -> 0 <= rem ->
  (forall m, 0 <= m -> Z.testbit (mark_bits n bit val rem).1 m =
     Z.testbit val m && negb ((bit <=? m) && (m <? bit + Z.min (Z.of_nat n) rem))) /\
  (mark_bits n bit val rem).2 = rem - Z.min (Z.of_nat n) rem.
Proof.
  induction n as [|n IH]; intros bit val rem Hb Hr; cbn [mark_bits fst snd].
  - split; [|lia]. intros m Hm. destruct (Z.leb_spec bit m), (Z.ltb_spec m (bit + Z.min (Z.of_nat 0) rem)); try lia;
      cbn; by rewrite andb_true_r.
  - destruct (Z.ltb_spec 0 rem) as [Hp|Hp]; cbn [fst snd].
    + destruct (IH (bit + 1) (Z.clearbit val bit) (rem - 1) ltac:(lia) ltac:(lia)) as [H1 H2]. split; [|lia].
      intros m Hm. rewrite H1 by done. destruct (Z.eq_dec m bit) as [->|Hne].
      * rewrite Z.clearbit_eq. destruct (Z.leb_spec bit bit), (Z.ltb_spec bit (bit + Z.min (Z.of_nat (S n)) rem)); try lia; done.
      * rewrite Z.clearbit_neq by lia. f_equal. destruct (Z.leb_spec (bit + 1) m), (Z.leb_spec bit m),
          (Z.ltb_spec m (bit + 1 + Z.min (Z.of_nat n) (rem - 1))), (Z.ltb_spec m (bit + Z.min (Z.of_nat (S n)) rem)); lia || done.
    + split; [|lia]. intros m Hm. destruct (Z.leb_spec bit m), (Z.ltb_spec m (bit + Z.min (Z.of_nat (S n)) rem)); try lia;
        cbn; by rewrite andb_true_r.
Qed.

(** Word [w] has the bits from the used ones on. *)
Lemma bfree_values_spec n : forall rem w, 0 <= rem -> (w < n)%nat -> forall m, 0 <= m < 64 ->
  Z.testbit (default UINT64_MAX (bfree_values n rem !! w)) m = (rem <=? 64 * Z.of_nat w + m).
Proof.
  assert (Hones : forall m, 0 <= m < 64 -> Z.testbit UINT64_MAX m = true).
  { intros m Hm. unfold UINT64_MAX. rewrite ones_testbit by lia. apply Z.ltb_lt; lia. }
  induction n as [|n IH]; intros rem w Hr Hw m Hm; [lia|]. cbn [bfree_values].
  destruct (Z.ltb_spec 0 rem) as [Hp|Hp].
  - destruct (mark_bits_spec 64 0 UINT64_MAX rem ltac:(lia) ltac:(lia)) as [H1 H2].
    destruct (mark_bits 64 0 UINT64_MAX rem) as [val rest]. cbn [fst snd] in *. destruct w as [|w]; cbn [lookup list_lookup].
    + cbn. rewrite H1, Hones by lia. cbn [andb].
      destruct (Z.leb_spec 0 m), (Z.ltb_spec m (0 + Z.min (Z.of_nat 64) rem)), (Z.leb_spec rem (64 * Z.of_nat 0 + m)); lia || done.
    + rewrite IH by lia. subst rest. destruct (Z.leb_spec (rem - Z.min (Z.of_nat 64) rem) (64 * Z.of_nat w + m)),
        (Z.leb_spec rem (64 * Z.of_nat (S w) + m)); lia || done.
  - cbn. rewrite Hones by done. symmetry. apply Z.leb_le. lia.
Qed.

(** the two computations of the block bitmap agree: without a journal, word [w] of
    block [i] as [mkfs_calc_bfree_values] computes it (a word it does not fill in
    being free) is word [w] of the block that [mkfs_write_bfree_bitmap] clears bit
    by bit. *)
Theorem bfree_values_agree l i vs w :
  layout_sound l -> l_nr_journal_blocks l = 0 -> 0 <= i < l_nr_bfree_blocks l ->
  mkfs_calc_bfree_values i (nr_used l) 512 = inr vs -> (w < 512)%nat ->
  slice (bfree_image l i) (64 * Z.of_nat w) 64 = slice (default UINT64_MAX (vs !! w)) 0 64.
Proof.
  intros Hl Hj Hi Hv Hw. pose proof Hl as [L1 L2 L3 L4 L5 L6 _ L8 [L9 L10]]. change SIMPLEFS_INODES_PER_BLOCK with 39 in L3.
  unfold U32_MAX in *. apply Z.bits_inj'. intros m Hm. rewrite !slice_testbit by lia. destruct (Z.ltb_spec m 64); [cbn [andb]|done].
  rewrite bfree_image_testbit by (done || lia). rewrite Z.add_0_r.
  assert (Hu : nr_used l = l_first_data_block l + 1) by (unfold nr_used; rewrite u32_id; unfold is_u32, U32_MAX; lia).
  unfold mkfs_used. rewrite Hj. cbn [Z.eqb negb andb]. rewrite orb_false_r.
  assert (E : Z.testbit (default UINT64_MAX (vs !! w)) m = (nr_used l <=? i * 32768 + (64 * Z.of_nat w + m))).
  { unfold mkfs_calc_bfree_values in Hv. change (SIMPLEFS_BLOCK_SIZE * 8) with 32768 in Hv. cbn [Z.ltb Z.compare] in Hv.
    rewrite u32_id in Hv by (unfold is_u32, U32_MAX; lia).
    destruct (Z.leb_spec (nr_used l) (i * 32768)) as [Hle|Hlt];
      apply (inj inr) in Hv as <-.
    - replace (default UINT64_MAX ([UINT64_MAX] !! w)) with UINT64_MAX by (by destruct w as [|[|]]).
      unfold UINT64_MAX. rewrite ones_testbit, (proj2 (Z.ltb_lt _ _)) by lia. symmetry. apply Z.leb_le. lia.
    - rewrite u32_id by (unfold is_u32, U32_MAX; lia). rewrite (bfree_values_spec 512) by lia.
      destruct (Z.leb_spec (nr_used l - i * 32768) (64 * Z.of_nat w + m)), (Z.leb_spec (nr_used l) (i * 32768 + (64 * Z.of_nat w + m)));
        lia || done. }
  rewrite E. replace (i * 32768 + (m + 64 * Z.of_nat w)) with (i * 32768 + (64 * Z.of_nat w + m)) by lia.
  destruct (Z.ltb_spec (i * 32768 + (64 * Z.of_nat w + m)) (l_nr_blocks l)),
    (Z.ltb_spec (i * 32768 + (64 * Z.of_nat w + m)) (nr_used l)), (Z.leb_spec (nr_used l) (i * 32768 + (64 * Z.of_nat w + m)));
    lia || done.
Qed.
