(* ===== verification/MkfsSpec.v ===== *)
(** * MkfsSpec: a new file system mounts

    The composition of [mkfs_create_fs] and [simplefs_fill_super]: the mounted
    allocator of a device that was just made satisfies its invariant, and exactly
    the metadata, the root directory's block and the journal are in use.  And what
    the verification routine and very large devices do. *)

From stdpp Require Import base list numbers gmap.
From S2P Require Import Prelude Image Layout Kernel DiskFormat Discard Journal MetaBuf.
From S2P Require Import Alloc Retire ExtentBuf ExtentTree InodeTable DirIndex Xattr.
From S2P Require Import Rebuild Super Mkfs.

Local Open Scope Z_scope.
Local Open Scope fs_scope.

Section Spec.
Context {K : Kernel} {X : Posix}.

(** The kernel sees the blocks that were written. *)
Definition device_of (s : mkworld) (w : world) : Prop := w_bdev w = mk_dev s.

Lemma dev_block_image s w b : device_of s w -> dev_block (mk_dev s) b = get_bytes (block_image w b) 0 SIMPLEFS_BLOCK_SIZE.
Proof. unfold device_of, dev_block, block_image. by intros ->. Qed.

Lemma sb_of_block img : sb_of_image (get_bytes img 0 SIMPLEFS_BLOCK_SIZE) = sb_of_image img.
Proof.
  unfold sb_of_image, get_u32. rewrite !slice_block by lia. unfold get_bytes at 1. by rewrite slice_block by lia.
Qed.

Lemma formatted_superblock l s w : layout_sound l -> formatted l s -> device_of s w ->
  sb_of_image (block_image w 0) =
  SbDisk SIMPLEFS_DISK_MAGIC (l_nr_blocks l) (l_nr_inodes l) (l_nr_istore_blocks l) (l_nr_ifree_blocks l)
    (l_nr_bfree_blocks l) (l_nr_inodes l - 2) (l_nr_data_blocks l - 1)
    (if 0 <? l_nr_journal_blocks l then 1 else 0) (l_journal_start_block l) 0 0 0.
Proof.
  intros Hl Hf Hd. rewrite <- sb_of_block, <- (dev_block_image s w 0 Hd), (f_super l s Hf). by apply superblock_decoded.
Qed.

(** A bit of a bitmap that starts after block [first]. *)
Lemma formatted_bit s w first n f k : device_of s w ->
  (forall i, 0 <= i < n -> dev_block (mk_dev s) (1 + first + i) = get_bytes (f i) 0 SIMPLEFS_BLOCK_SIZE) ->
  0 <= k < n * 32768 -> dev_bit w first k = Z.testbit (f (k / 32768)) (k mod 32768).
Proof.
  intros Hd Hf Hk. unfold dev_bit. change BITS_PER_BLOCK with 32768.
  pose proof (Z.mod_pos_bound k 32768 ltac:(lia)). pose proof (Z.div_mod k 32768 ltac:(lia)).
  rewrite <- (testbit_block (block_image w _)), <- (dev_block_image s w _ Hd) by lia.
  replace (first + 1 + k / 32768) with (1 + first + k / 32768) by lia.
  rewrite Hf by lia. by apply testbit_block.
Qed.

Lemma formatted_ifree l s w k : layout_sound l -> formatted l s -> device_of s w ->
  0 <= k < l_nr_ifree_blocks l * 32768 -> dev_bit w (l_nr_istore_blocks l) k = (2 <=? k).
Proof.
  intros Hl Hf Hd Hk.
  rewrite (formatted_bit s w _ (l_nr_ifree_blocks l) (fun i => ifree_words 512 i 0 0)) by (done || apply Hf).
  pose proof (Z.mod_pos_bound k 32768 ltac:(lia)). pose proof (Z.div_mod k 32768 ltac:(lia)).
  rewrite ifree_words_testbit, (proj2 (Z.leb_le _ _)), (proj2 (Z.ltb_lt _ _)) by lia. cbn [andb].
  destruct (Z.eqb_spec (k / 32768) 0), (Z.ltb_spec (k mod 32768) 2), (Z.leb_spec 2 k); try lia; done.
Qed.

Lemma formatted_bfree l s w k : layout_sound l -> formatted l s -> device_of s w ->
  0 <= k < l_nr_bfree_blocks l * 32768 ->
  dev_bit w (l_nr_istore_blocks l + l_nr_ifree_blocks l) k = negb ((k <? l_nr_blocks l) && mkfs_used l k).
Proof.
  intros Hl Hf Hd Hk.
  rewrite (formatted_bit s w _ (l_nr_bfree_blocks l) (bfree_image l)); [|done| |done].
  2:{ intros i Hi. rewrite <- (f_bfree l s Hf) by done. f_equal. lia. }
  pose proof (Z.mod_pos_bound k 32768 ltac:(lia)). pose proof (Z.div_mod k 32768 ltac:(lia)).
  rewrite bfree_image_testbit by (done || lia). by replace (k / 32768 * 32768 + k mod 32768) with k by lia.
Qed.

(** The device bits survive a mount. *)
Lemma dev_bit_same w w' first k : same_device w w' -> 0 <= first -> 0 <= k -> dev_bit w' first k = dev_bit w first k.
Proof.
  intros [H _] Hf Hk. unfold dev_bit. rewrite H; [done|]. change BITS_PER_BLOCK with 32768.
  pose proof (Z.div_pos k 32768 Hk ltac:(lia)). lia.
Qed.

(** The allocator of a new file system. *)
Record fresh_fs (l : mkfs_layout) (s : sb_info) : Prop := FreshFs {
  ff_inv : alloc_inv s;
  ff_blocks : nr_blocks s = l_nr_blocks l /\ nr_inodes s = l_nr_inodes l;
  ff_used : forall k, 0 <= k < l_nr_blocks l ->
    test_bit (bfree_bitmap s) k = (l_first_data_block l <? k) && (k <? l_journal_start_block l);
  ff_inodes : forall k, 0 <= k < l_nr_inodes l -> test_bit (ifree_bitmap s) k = (2 <=? k);
  ff_free_inodes : nr_free_inodes s = l_nr_inodes l - 2;
  ff_free_blocks : nr_free_blocks s = l_nr_data_blocks l - 1
}.

(** A bitmap whose set bits are an interval. *)
Lemma weight_interval bm a b n : 0 <= a -> a <= b -> b <= n ->
  (forall k, 0 <= k < n -> test_bit bm k = (a <=? k) && (k <? b)) -> bitmap_weight bm n = b - a.
Proof.
  intros Ha Hb Hn H. unfold bitmap_weight.
  replace (Z.to_nat n) with (Z.to_nat a + (Z.to_nat (b - a) + Z.to_nat (n - b)))%nat by lia.
  rewrite !weight_from_app, weight_from_none, weight_from_all, weight_from_none; [lia|..];
    intros k Hk; rewrite H by lia; destruct (Z.leb_spec a k), (Z.ltb_spec k b); try lia; done.
Qed.

Lemma mounted_fresh l s w w' : layout_sound l -> formatted l s -> device_of s w -> same_device w w' -> mounted w' ->
  sb_geometry (w_sbi w') = sb_geometry (sb_of_image (block_image w 0)) -> fresh_fs l (w_sbi w').
Proof.
  intros Hl Hf Hd Hs [[Hi Hb] (Hfb & Hfi & Hp & Hlock)] Hg.
  rewrite (formatted_superblock l s w Hl Hf Hd) in Hg.
  pose proof (geometry_inv _ _ Hg) as (G1 & G2 & G3 & G4 & G5 & G6 & G7). cbn in G1, G2, G3, G4, G5, G6, G7.
  pose proof Hl as [L1 L2 L3 L4 L5 L6 L7 L8 [L9 L10]]. change SIMPLEFS_INODES_PER_BLOCK with 39 in L3.
  change BITS_PER_BLOCK with 32768 in *. change SIMPLEFS_JOURNAL_BLOCKS with 1024 in L7.
  assert (Hin : forall k, 0 <= k < l_nr_inodes l -> test_bit (ifree_bitmap (w_sbi w')) k = (2 <=? k)).
  { intros k Hk. rewrite Hi, G3, (dev_bit_same w w') by (done || lia). apply (formatted_ifree l s w); done || lia. }
  assert (Hbl : forall k, 0 <= k < l_nr_blocks l ->
    test_bit (bfree_bitmap (w_sbi w')) k = (l_first_data_block l <? k) && (k <? l_journal_start_block l)).
  { intros k Hk. rewrite Hb, G3, G4, (dev_bit_same w w') by (done || lia).
    rewrite (formatted_bfree l s w) by (done || lia). unfold journal_range, mkfs_used, nr_used. rewrite G1, G6, G7.
    unfold U32_MAX in L1. rewrite u32_id by (unfold is_u32, U32_MAX; lia).
    destruct (Z.ltb_spec 0 (l_nr_journal_blocks l)), (Z.eqb_spec (l_nr_journal_blocks l) 0),
      (Z.ltb_spec k (l_nr_blocks l)), (Z.leb_spec (l_journal_start_block l) k), (Z.ltb_spec k (l_journal_start_block l)),
      (Z.ltb_spec (l_first_data_block l) k), (Z.ltb_spec k (1 + l_nr_istore_blocks l + l_nr_ifree_blocks l + l_nr_bfree_blocks l + 1));
      try lia; done. }
  assert (Hwi : bitmap_weight (ifree_bitmap (w_sbi w')) (l_nr_inodes l) = l_nr_inodes l - 2).
  { apply weight_interval; try lia. intros k Hk. rewrite Hin by done. by rewrite (proj2 (Z.ltb_lt k _)), andb_true_r by lia. }
  assert (Hwb : bitmap_weight (bfree_bitmap (w_sbi w')) (l_nr_blocks l) = l_nr_data_blocks l - 1).
  { rewrite (weight_interval _ (l_first_data_block l + 1) (l_journal_start_block l)); [lia..|]. intros k Hk. rewrite Hbl by done.
    f_equal. destruct (Z.ltb_spec (l_first_data_block l) k), (Z.leb_spec (l_first_data_block l + 1) k); lia || done. }
  split; try done; [|congruence..]. unfold alloc_inv, geometry_ok, pending. rewrite G1, G2, Hp.
  split_and!; try lia; try done; try congruence.
  - rewrite Hbl by lia. by rewrite (proj2 (Z.ltb_ge _ _)) by lia.
  - by rewrite Hin by lia.
  - intros k Hk H. cbn in H. unfold test_bit in H. by rewrite Z.testbit_0_l in H.
Qed.

(** C18: making and mounting compose: when [mkfs_create_fs] returns 0 on a device
    whose metadata ends below 4 GiB and the kernel then mounts that device, whose
    log is empty, the allocator satisfies its invariant, the used blocks are
    exactly the superblock, the inode table, the bitmaps, the root directory's block
    and the journal, the used inodes are 0 and 1, and the free counts are the ones
    mkfs computed. *)
Theorem mkfs_then_mount fd image_size bytes_per_inode s memory ctx w l :
  let made := mkfs_create_fs fd image_size bytes_per_inode s in
  made.1.1 = 0 -> mkfs_calculate_layout image_size bytes_per_inode = inr l -> l_first_data_block l < 1048576 ->
  device_of made.2 w -> w_fs_info w = false -> nothing_to_replay ->
  wp (simplefs_fill_super memory ctx) (fun r w' =>
    if r =? 0 then fresh_fs l (w_sbi w') /\ is_Some (w_inodes w' !! 1) else w_fs_info w' = false) w.
Proof.
  intros made Hr Hc Hsmall Hd Hf Hn.
  destruct (create_fs_formats fd image_size bytes_per_inode s Hr) as (l' & Hc' & Hl & Hfm).
  rewrite Hc in Hc'. injection Hc' as <-. specialize (Hfm Hsmall). fold made in Hfm.
  pose proof (formatted_superblock l made.2 w Hl Hfm Hd) as Hsb.
  eapply wp_mono; [apply mount_sound; [|done]|].
  - rewrite Hsb. pose proof Hl as [L1 L2 L3 L4 L5 L6 _ _ _]. unfold small_layout. cbn.
    change SIMPLEFS_INODES_PER_BLOCK with 39 in L3. lia.
  - intros r w' H. cbv beta in H. destruct (r =? 0); [|done]. destruct H as (Hm & Hi & Hg & _ & Hs).
    split; [|done]. by apply (mounted_fresh l made.2 w w'); [..|apply Hs| |].
Qed.

(** The root inode that was written, as the verification reads it. *)
Lemma root_record l s : layout_sound l -> formatted l s ->
  get_disk_inode (get_bytes (dev_block (mk_dev s) 1) sizeof_simplefs_inode sizeof_simplefs_inode) 0 =
  mkfs_init_root_inode (l_first_data_block l).
Proof.
  intros Hl Hf. pose proof (layout_u32 l Hl) as (_ & _ & _ & _ & _ & _ & _ & _ & U & _). pose proof Hl as [_ L2 L3 _ _ _ _ _ _].
  change SIMPLEFS_INODES_PER_BLOCK with 39 in L3.
  replace 1 with (1 + 0) at 1 by lia. rewrite (f_istore l s Hf) by lia. unfold headed. cbn [Z.eqb]. unfold root_store.
  change sizeof_simplefs_inode with 104. set (d := mkfs_init_root_inode _).
  transitivity (get_disk_inode (put_disk_inode 0 104 d) 104).
  - set (img := put_disk_inode 0 104 d). clearbody img.
    assert (Hs : forall p m, 0 <= p -> 0 <= m -> p + m <= 832 ->
      slice (get_bytes (get_bytes img 0 SIMPLEFS_BLOCK_SIZE) 104 104) p m = slice img (832 + p) m).
    { intros p m Hp Hm Hpm. unfold get_bytes at 1. rewrite slice_slice, slice_block by lia. done. }
    unfold get_disk_inode, get_u32.
    match goal with |- context [get_bytes ?x (0 + 72) 32] => change (get_bytes x (0 + 72) 32) with (slice x (8 * (0 + 72)) (8 * 32)) end.
    rewrite !Hs by lia. unfold get_bytes. f_equal; f_equal; lia.
  - apply get_put_disk_inode; [lia|]. split; [|cbn; lia]. unfold d, inode_words, mkfs_init_root_inode. cbn.
    repeat (apply Forall_cons_2; [done|]). apply Forall_nil_2.
Qed.

Lemma read_bytes_spec n s : wp (read_bytes n) (fun r s' => mk_dev s' = mk_dev s /\ (r.1 = 0 -> r.2 =
  get_bytes (dev_block (mk_dev s) (mk_pos s / SIMPLEFS_BLOCK_SIZE)) (mk_pos s mod SIMPLEFS_BLOCK_SIZE) n)) s.
Proof.
  unfold read_bytes, sys. wps. unfold wp at 1. destruct (psys _ _) as [r k]. cbn [fst snd id].
  destruct (Z.ltb_spec r 0); apply wp_ret; [split; [done|]; cbn; lia|done].
Qed.

Lemma verify_root_formatted fd l s : layout_sound l -> formatted l s ->
  wp (mkfs_verify_root_inode fd l) (fun r _ => r <> 0) s.
Proof.
  intros Hl Hf. unfold mkfs_verify_root_inode. destruct (fd <? 0); [by apply wp_ret|]. apply wp_bind.
  eapply wp_mono; [apply lseek_spec|]. intros r s1 (E1 & Hle & Hp). destruct (Z.ltb_spec r 0); [apply wp_ret; lia|].
  specialize (Hp ltac:(lia)). apply wp_bind. eapply wp_mono; [apply read_bytes_spec|]. intros [r2 img] s2 [_ H2].
  cbn [fst snd] in H2. destruct (Z.eqb_spec r2 0) as [->|Hr]; cbn [negb]; [|by apply wp_ret].
  specialize (H2 eq_refl). rewrite Hp, E1 in H2.
  change ((SIMPLEFS_BLOCK_SIZE + sizeof_simplefs_inode) / SIMPLEFS_BLOCK_SIZE) with 1 in H2.
  change ((SIMPLEFS_BLOCK_SIZE + sizeof_simplefs_inode) mod SIMPLEFS_BLOCK_SIZE) with sizeof_simplefs_inode in H2.
  rewrite H2, (root_record l s Hl Hf). cbn. by apply wp_ret.
Qed.

(** the verification of the root inode never accepts a file system that was just
    made: after a successful [mkfs_create_fs], [mkfs_verify_root_inode] returns an
    error whatever the system calls answer, since it expects a directory of one block
    and the new root is empty. *)
Theorem verify_root_refuses_new fd image_size bytes_per_inode s l :
  mkfs_calculate_layout image_size bytes_per_inode = inr l -> l_first_data_block l < 1048576 ->
  wp (let! r := mkfs_create_fs fd image_size bytes_per_inode in
      let! v := mkfs_verify_root_inode fd l in
      ret (r.1, v)) (fun r _ => r.1 = 0 -> r.2 <> 0) s.
Proof.
  intros Hc Hs. apply wp_bind. eapply wp_mono; [apply create_fs_formats|]. intros [r sb] s1 H1. cbn [fst] in *.
  apply wp_bind. destruct (Z.eq_dec r 0) as [->|Hr].
  - destruct (H1 eq_refl) as (l' & Hc' & Hl & Hf). rewrite Hc in Hc'. injection Hc' as <-.
    eapply wp_mono; [by apply (verify_root_formatted fd l), Hf|]. intros v s2 Hv. by apply wp_ret.
  - apply (wp_mono _ (fun _ _ => True)); [done|]. intros v s2 _. by apply wp_ret.
Qed.

Lemma magic_bit img : Z.testbit img 2 = true -> magic (sb_of_image img) <> SIMPLEFS_DISK_MAGIC.
Proof.
  intros H Hm. unfold sb_of_image, get_u32 in Hm. cbn [magic] in Hm. change (8 * 0) with 0 in Hm.
  apply (f_equal (fun x => Z.testbit x 2)) in Hm. rewrite slice_testbit in Hm by lia.
  change (2 + 0) with 2 in Hm. rewrite H in Hm. by vm_compute in Hm.
Qed.

(** the offset of the inode bitmap wraps at 4 GiB: on a device whose inode table
    has 2^20 - 1 blocks, which [mkfs_calculate_layout] accepts, a successful
    [mkfs_write_ifree_bitmap] has overwritten block 0, and the superblock's magic is
    gone. *)
Theorem large_table_destroys_superblock fd image_size bytes_per_inode s l :
  mkfs_calculate_layout image_size bytes_per_inode = inr l -> l_nr_istore_blocks l = 1048575 ->
  wp (mkfs_write_ifree_bitmap fd l) (fun r s' => r = 0 ->
    magic (sb_of_image (dev_block (mk_dev s') 0)) <> SIMPLEFS_DISK_MAGIC) s.
Proof.
  intros Hl%calculate_layout_sound Hi. pose proof Hl as [_ L2 _ L4 _ _ _ _ _].
  eapply wp_mono; [apply (ifree_writes fd l 0 (l_nr_ifree_blocks l)); [by rewrite Hi|lia|done|lia]|].
  intros r s' [_ W] Hr. apply magic_bit. rewrite (W Hr 0), (proj2 (Z.leb_le 0 0)), (proj2 (Z.ltb_lt 0 _)) by lia.
  cbn [andb]. rewrite testbit_block, ifree_words_testbit by lia. cbn. by rewrite andb_false_r.
Qed.

End Spec.
