(* ===== verification/MkfsMain.v ===== *)
(** * MkfsMain: the command that makes a file system (user_mkfs.c)

    Option parsing, the size of the device, the search for an existing file system
    and the calls around [mkfs_create_fs].  What the command prints is left out.
    [StMode], [StSize] and [BlkSize] are what [fstat] and the [BLKGETSIZE64] ioctl
    filled in, [PipeBytes] the output of blkid, [ExitStatus] 0 when it exited with 0. *)

From Stdlib Require Import Ascii String.
From stdpp Require Import base list numbers gmap strings.
From S2P Require Import Prelude Image Layout Kernel DiskFormat Owned InodeTable Mkfs.

Local Open Scope Z_scope.
Local Open Scope fs_scope.

Definition ENOTSUP : Z := 95.
Definition ULONG_MAX : Z := Z.ones 64.

(** ** [strtoul] in base 10 *)

Definition code (c : ascii) : Z := Z.of_N (N_of_ascii c).
Definition isspace (c : ascii) : bool := (code c =? 32) || ((9 <=? code c) && (code c <=? 13)).
Definition isdigit (c : ascii) : bool := (48 <=? code c) && (code c <=? 57).

Fixpoint skip_space (s : string) : string :=
  match s with
  | String c rest => if isspace c then skip_space rest else s
  | EmptyString => s
  end.
(** The value so far, whether there was a digit, and what follows. *)
Fixpoint scan_digits (s : string) (value : Z) (any : bool) : Z * bool * string :=
  match s with
  | String c rest => if isdigit c then scan_digits rest (10 * value + (code c - 48)) true else (value, any, s)
  | EmptyString => (value, any, s)
  end.
(** The value, where it ends, and whether [errno] was set. *)
Definition strtoul (nptr : string) : Z * string * bool :=
  let s := skip_space nptr in
  let '(neg, s) := match s with
                   | String "+" rest => (false, rest)
                   | String "-" rest => (true, rest)
                   | _ => (false, s)
                   end in
  let '(value, any, rest) := scan_digits s 0 false in
  if negb any then (0, nptr, false) else
  if ULONG_MAX <? value then (ULONG_MAX, rest, true) else
  (if neg : bool then (2 ^ 64 - value) mod 2 ^ 64 else value, rest, false).

(** ** The options *)

Record options := Options { o_verbose : bool; o_force : bool; o_bytes_per_inode : Z; o_path : option string }.

(** The argument of [-i]. *)
Definition bytes_argument (arg : string) : option Z :=
  let '(value, end_, failed) := strtoul arg in
  if failed || String.eqb arg "" || negb (String.eqb end_ "") || (U32_MAX <? value) ||
     (value <? SIMPLEFS_BLOCK_SIZE) || negb (value mod SIMPLEFS_BLOCK_SIZE =? 0) then None
  else Some value.

Fixpoint parse_options (argv : list string) (o : options) : option options :=
  match argv with
  | [] => match o_path o with Some _ => Some o | None => None end
  | arg :: rest =>
      if String.eqb arg "-v" then
        parse_options rest (Options true (o_force o) (o_bytes_per_inode o) (o_path o))
      else if String.eqb arg "-f" || String.eqb arg "--force" then
        parse_options rest (Options (o_verbose o) true (o_bytes_per_inode o) (o_path o))
      else if String.eqb arg "-i" then
        match rest with
        | value :: rest =>
            match bytes_argument value with
            | Some n => parse_options rest (Options (o_verbose o) (o_force o) n (o_path o))
            | None => None
            end
        | [] => None
        end
      else if String.eqb arg "-l" then
        match rest with
        | value :: rest => if String.eqb value "defaults" then parse_options rest o else None
        | [] => None
        end
      else match o_path o with
           | None => parse_options rest (Options (o_verbose o) (o_force o) (o_bytes_per_inode o) (Some arg))
           | Some _ => None
           end
  end.
Definition default_options : options := Options false false 16384 None.

(** ** The command *)

Section Command.
Context {X : Posix}.

(** A negative code, or 0 and the size. *)
Definition get_device_size : MK (Z * Z) :=
  let! mode := sys StMode in
  if S_ISREG mode then let! size := sys StSize in ret (0, u64 size) else
  if S_ISBLK mode then
    let! r := sys BlkGetSize64 in
    if r <? 0 then ret (r, 0) else
    let! size := sys BlkSize in ret (0, u64 size)
  else ret (- ENOTSUP, 0).

(** The length of the output without the white space at its end. *)
Fixpoint trimmed (n : nat) (img : Z) : nat :=
  match n with
  | O => O
  | S n' =>
      let c := get_u8 img (Z.of_nat n') in
      if (c =? 10) || (c =? 13) || (c =? 32) || (c =? 9) then trimmed n' img else n
  end.

(** 1: there is a file system.  The child of [fork] runs blkid and does not return. *)
Definition detect_existing_filesystem (fd : Z) : MK Z :=
  if fd <? 0 then ret (- EINVAL) else
  let! s := gets id in
  let! n := sys (Pread 0 SIMPLEFS_BLOCK_SIZE) in
  if (n =? SIMPLEFS_BLOCK_SIZE) && (magic (sb_of_image (dev_block (mk_dev s) 0)) =? SIMPLEFS_DISK_MAGIC) then ret 1 else
  let! r := sys Pipe in
  if r <? 0 then ret r else
  let! pid := sys Fork in
  if pid <? 0 then ret pid else
  let! nread := sys (PipeRead 127) in
  let nread := if nread <? 0 then 0 else nread in
  let! img := sys PipeBytes in
  let! r := sys Waitpid in
  if r <? 0 then ret r else
  let! status := sys ExitStatus in
  if negb (status =? 0) then ret 0 else
  let len := trimmed (Z.to_nat nread) img in
  ret (if (len =? 0)%nat || (get_u8 img 0 =? 0) then 0 else 1).

(** [argv] without the name of the command; the result is the exit status. *)
Definition main (argv : list string) : MK Z :=
  match parse_options argv default_options with
  | None => ret 1
  | Some o =>
      let! fd := sys Open in
      if fd <? 0 then ret 1 else
      let fail := run! sys Close in ret 1 in
      let! r := sys Fstat in
      if r <? 0 then fail else
      let! (r, image_size) := get_device_size in
      if r <? 0 then fail else
      if image_size <=? SIMPLEFS_MIN_SIZE then fail else
      let! r := detect_existing_filesystem fd in
      if r <? 0 then fail else
      if (0 <? r) && negb (o_force o) then fail else
      let! (r, _) := mkfs_create_fs fd image_size (o_bytes_per_inode o) in
      if r <? 0 then fail else
      run! sys Close in ret 0
  end.

(** ** What it promises *)

(** A system call leaves the device alone. *)
Lemma sys_dev c s : wp (sys c) (fun _ s' => mk_dev s' = mk_dev s) s.
Proof. unfold wp, sys. by destruct (psys (mk_sys s) c). Qed.

Definition same_dev (s s' : mkworld) : Prop := mk_dev s' = mk_dev s.
Lemma size_dev s : wp get_device_size (fun _ => same_dev s) s.
Proof.
  unfold get_device_size, same_dev. apply wp_bind. eapply wp_mono; [apply sys_dev|]. intros m s1 H1.
  destruct (S_ISREG m); [apply wp_bind; eapply wp_mono; [apply sys_dev|]; intros z s2 H2; apply wp_ret; cbn beta in *; congruence|].
  destruct (S_ISBLK m); [|by apply wp_ret]. apply wp_bind. eapply wp_mono; [apply sys_dev|]. intros r s2 H2; cbn beta in *.
  destruct (r <? 0); [apply wp_ret; congruence|]. apply wp_bind. eapply wp_mono; [apply sys_dev|]. intros z s3 H3.
  apply wp_ret; cbn beta in *; congruence.
Qed.

Lemma create_fs_code fd size bytes : always (fun r => fst r <= 0) (mkfs_create_fs fd size bytes).
Proof.
  unfold mkfs_create_fs. destruct (mkfs_calculate_layout size bytes) as [e|l] eqn:E.
  - apply always_ret. cbn. unfold mkfs_calculate_layout, align_inodes in E.
    repeat case_match; simplify_eq; unfold E2BIG, EINVAL, EFBIG; lia.
  - destruct (negb _); [by apply always_ret|].
    repeat (apply always_bind; let r := fresh in intros r; destruct (Z.ltb_spec r 0); [apply always_ret; cbn; lia|]).
    by apply always_ret.
Qed.

Lemma create_fs_code_wp fd size bytes s : wp (mkfs_create_fs fd size bytes) (fun r _ => fst r <= 0) s.
Proof. exact (create_fs_code fd size bytes s). Qed.

Definition has_simplefs (s : mkworld) : Prop := magic (sb_of_image (dev_block (mk_dev s) 0)) = SIMPLEFS_DISK_MAGIC.

Lemma bytes_argument_ok arg n : bytes_argument arg = Some n ->
  SIMPLEFS_BLOCK_SIZE <= n <= U32_MAX /\ n mod SIMPLEFS_BLOCK_SIZE = 0.
Proof.
  unfold bytes_argument. destruct (strtoul arg) as [[value rest] failed].
  destruct (_ || _) eqn:E; [done|]. intros [= <-]. rewrite !orb_false_iff in E.
  destruct E as [[[_ E1] E2] E3]. apply Z.ltb_ge in E1, E2. apply negb_false_iff, Z.eqb_eq in E3. lia.
Qed.

Context (full_reads : forall k off n, fst (psys k (Pread off n)) = n).

Lemma detect_finds fd s : 0 <= fd ->
  wp (detect_existing_filesystem fd) (fun r s' => same_dev s s' /\ (has_simplefs s -> r = 1)) s.
Proof.
  intros Hfd. unfold detect_existing_filesystem. rewrite (proj2 (Z.ltb_ge fd 0)) by done.
  apply wp_bind, wp_gets, wp_bind.
  eapply (wp_mono _ (fun n s' => n = SIMPLEFS_BLOCK_SIZE /\ same_dev s s')).
  { unfold wp, sys. pose proof (full_reads (mk_sys s) 0 SIMPLEFS_BLOCK_SIZE) as H. by destruct (psys _ _). }
  intros n s1 [-> H1]. rewrite Z.eqb_refl. unfold has_simplefs, id. cbn [andb].
  destruct (Z.eqb_spec (magic (sb_of_image (dev_block (mk_dev s) 0))) SIMPLEFS_DISK_MAGIC) as [Hm|Hm]; [by apply wp_ret|].
  eapply (wp_mono _ (fun _ s' => same_dev s s')); [|done]. unfold same_dev in *.
  repeat (apply wp_bind; eapply wp_mono; [apply sys_dev|]; let r := fresh in let s' := fresh in let H := fresh in
    intros r s' H; cbn beta in H; try (destruct (r <? 0); [apply wp_ret; congruence|])).
  destruct (negb _); apply wp_ret; congruence.
Qed.

Lemma close_dev (r : Z) s : wp (run! sys Close in ret r) (fun r' s' => r' = r /\ same_dev s s') s.
Proof. apply wp_bind. eapply wp_mono; [apply sys_dev|]. intros c s1 H1. by apply wp_ret. Qed.

Lemma formatted_dev l s s' : mk_dev s' = mk_dev s -> formatted l s -> formatted l s'.
Proof. intros E []. split; by rewrite E. Qed.

(** the command makes the file system it was asked for and keeps what it finds: it
    exits with 0 only if the options are valid and the device then holds a complete
    file system with the layout for its size and the bytes per inode given; on a device
    that carries a simplefs and without -f or --force it exits with 1 and the device
    is unchanged. *)
Theorem mkfs_command_safe argv s : wp (main argv) (fun status s' =>
  (status = 0 -> exists o size l, parse_options argv default_options = Some o /\
     mkfs_calculate_layout size (o_bytes_per_inode o) = inr l /\ layout_sound l /\
     (l_first_data_block l < 1048576 -> formatted l s')) /\
  (has_simplefs s -> forall o, parse_options argv default_options = Some o -> o_force o = false ->
     status = 1 /\ mk_dev s' = mk_dev s)) s.
Proof.
  unfold main. destruct (parse_options argv default_options) as [o|] eqn:Eo; [|apply wp_ret; split; [done|by intros]].
  assert (Hfail : forall r s1, mk_dev s1 = mk_dev s -> r = 1 -> wp (run! sys Close in ret r) (fun status s' =>
    (status = 0 -> exists o' size l, Some o = Some o' /\ mkfs_calculate_layout size (o_bytes_per_inode o') = inr l /\
       layout_sound l /\ (l_first_data_block l < 1048576 -> formatted l s')) /\
    (has_simplefs s -> forall o', Some o = Some o' -> o_force o' = false -> status = 1 /\ mk_dev s' = mk_dev s)) s1).
  { intros r s1 H1 ->. eapply wp_mono; [apply close_dev|]. intros r s2 [-> H2]. split; [done|]. intros _ o' _ _.
    split; [done|]. unfold same_dev in H2. congruence. }
  apply wp_bind. eapply wp_mono; [apply sys_dev|]. intros fd s1 H1; cbn beta in *.
  destruct (Z.ltb_spec fd 0) as [|Hfd]; [apply wp_ret; split; [done|by intros]|]. cbv zeta.
  apply wp_bind. eapply wp_mono; [apply sys_dev|]. intros r s2 H2; cbn beta in *. rewrite H1 in H2.
  destruct (r <? 0); [by apply Hfail|].
  apply wp_bind. eapply wp_mono; [apply size_dev|]. intros [r3 size] s3 H3; cbn beta in *. unfold same_dev in H3. rewrite H2 in H3.
  destruct (r3 <? 0); [by apply Hfail|]. destruct (size <=? _); [by apply Hfail|].
  apply wp_bind. eapply wp_mono; [by apply detect_finds|]. intros r4 s4 [H4 Hd]; cbn beta in *. unfold same_dev in H4. rewrite H3 in H4.
  assert (Hd' : has_simplefs s -> r4 = 1) by (intros Hs; apply Hd; unfold has_simplefs; by rewrite H3).
  destruct (r4 <? 0); [by apply Hfail|]. destruct ((0 <? r4) && negb (o_force o)) eqn:Er; [by apply Hfail|].
  apply wp_bind. eapply wp_mono.
  { apply wp_conj; [apply (create_fs_formats fd size (o_bytes_per_inode o))|apply (create_fs_code_wp fd size (o_bytes_per_inode o))]. }
  intros [r5 sb] s5 [H5 H5']; cbn [fst] in *. assert (Hforce : has_simplefs s -> o_force o = false -> False).
  { intros Hs Ho. rewrite (Hd' Hs), Ho in Er. done. }
  destruct (Z.ltb_spec r5 0).
  - eapply wp_mono; [apply close_dev|]. intros r6 s6 [-> _]. split; [done|]. intros Hs o' [= <-] Ho. by destruct Hforce.
  - eapply wp_mono; [apply close_dev|]. intros r6 s6 [-> H6]. split.
    + intros _. destruct (H5 ltac:(lia)) as (l & L1 & L2 & L3). exists o, size, l. split_and!; [done..|].
      intros Hl. eapply formatted_dev; [exact H6|auto].
    + intros Hs o' [= <-] Ho. by destruct Hforce.
Qed.
End Command.
