(* ===== verification/ModuleInit.v ===== *)
(** * ModuleInit: loading, unloading and mount options (simplefs_fs.c)

    The slab cache, the debugfs directory and the registration with the VFS are taken
    in this order and given back in the reverse one; a mount option sets a field of the
    mount's context.  [live] reads from the trace what the module holds. *)

From stdpp Require Import base list numbers gmap.
From S2P Require Import Prelude Image Layout Kernel DiskFormat Discard Journal MetaBuf.
From S2P Require Import Alloc Retire ExtentBuf ExtentTree InodeTable Super.

Local Open Scope Z_scope.
Local Open Scope fs_scope.

Definition Opt_nojournal : Z := 0.
Definition Opt_norecovery : Z := 1.
Definition Opt_discard : Z := 2.

Section Operations.
Context {K : Kernel}.

Definition simplefs_init_inode_cache : M Z :=
  let! r := kdo KmemCacheCreate in ret (if r =? 0 then 0 else - ENOMEM).
Definition simplefs_destroy_inode_cache : M unit := run! kdo KmemCacheDestroy in ret tt.

Definition simplefs_debugfs_init : M Z :=
  let! r := kdo DebugfsCreateDir in ret (if IS_ERR r then r else 0).
Definition simplefs_debugfs_exit : M unit := run! kdo DebugfsRemove in ret tt.

Definition simplefs_init : M Z :=
  let! r := simplefs_init_inode_cache in
  if negb (r =? 0) then ret r else
  let! r := simplefs_debugfs_init in
  if negb (r =? 0) then run! simplefs_destroy_inode_cache in ret r else
  let! r := kdo RegisterFilesystem in
  if negb (r =? 0) then run! simplefs_debugfs_exit in run! simplefs_destroy_inode_cache in ret r else
  ret 0.

Definition simplefs_exit : M unit :=
  run! kdo UnregisterFilesystem in
  run! simplefs_debugfs_exit in
  simplefs_destroy_inode_cache.

Definition simplefs_init_fs_context : M (Z * option fs_context) :=
  let! ok := kmalloc in
  if negb ok then ret (- ENOMEM, None) else ret (0, Some (FsContext false false false)).

(** The parameter is a key of the VFS parser. *)
Definition simplefs_parse_param (param : Z) (ctx : fs_context) : M (Z * fs_context) :=
  let! opt := kdo (FsParse param) in
  if opt <? 0 then ret (opt, ctx) else
  ret (0, if opt =? Opt_nojournal then FsContext true (norecovery ctx) (discard ctx)
          else if opt =? Opt_norecovery then FsContext (nojournal ctx) true (discard ctx)
          else if opt =? Opt_discard then FsContext (nojournal ctx) (norecovery ctx) true
          else ctx).
End Operations.

(** ** What the module holds *)

Record held := Held { h_cache : bool; h_debugfs : bool; h_registered : bool }.
Definition idle : held := Held false false false.

Definition step_held (c : kcall * Z) (h : held) : held :=
  match c with
  | (KmemCacheCreate, r) => if r =? 0 then Held true (h_debugfs h) (h_registered h) else h
  | (KmemCacheDestroy, _) => Held false (h_debugfs h) (h_registered h)
  | (DebugfsCreateDir, r) => if IS_ERR r then h else Held (h_cache h) true (h_registered h)
  | (DebugfsRemove, _) => Held (h_cache h) false (h_registered h)
  | (RegisterFilesystem, r) => if r =? 0 then Held (h_cache h) (h_debugfs h) true else h
  | (UnregisterFilesystem, _) => Held (h_cache h) (h_debugfs h) false
  | _ => h
  end.
Definition live (t : list (kcall * Z)) : held := foldr step_held idle t.

Section Spec.
Context {K : Kernel}.

Lemma live_kdo c (Q : Z -> world -> Prop) w :
  (forall r w', live (w_trace w') = step_held (c, r) (live (w_trace w)) -> Q r w') -> wp (kdo c) Q w.
Proof. intros H. unfold wp, kdo. destruct (kstep _ c) as [r k]. by apply H. Qed.

(** Loading takes everything or nothing. *)
Lemma init_all_or_nothing w : live (w_trace w) = idle ->
  wp simplefs_init (fun r w' => live (w_trace w') = if r =? 0 then Held true true true else idle) w.
Proof.
  intros H0. unfold simplefs_init, simplefs_init_inode_cache, simplefs_debugfs_init, simplefs_debugfs_exit, simplefs_destroy_inode_cache.
  apply wp_bind, wp_bind, live_kdo. intros r1 w1 H1. apply wp_ret. rewrite H0 in H1. cbn in H1.
  destruct (r1 =? 0); cbn [negb Z.eqb]; [|by apply wp_ret].
  apply wp_bind, wp_bind, live_kdo. intros r2 w2 H2. apply wp_ret. rewrite H1 in H2. cbn in H2.
  unfold IS_ERR in *. destruct (Z.ltb_spec r2 0) as [Hr2|Hr2].
  { rewrite (proj2 (Z.eqb_neq r2 0)) by lia. cbn [negb]. apply wp_bind, wp_bind, live_kdo. intros r3 w3 H3.
    apply wp_ret, wp_ret. rewrite H3, H2. cbn. by rewrite (proj2 (Z.eqb_neq r2 0)) by lia. }
  cbn [Z.eqb negb]. apply wp_bind, live_kdo. intros r3 w3 H3. rewrite H2 in H3. cbn in H3.
  destruct (Z.eqb_spec r3 0) as [->|Hr3]; cbn [negb]; [by apply wp_ret|].
  apply wp_bind, wp_bind, live_kdo. intros r4 w4 H4. apply wp_ret, wp_bind, wp_bind, live_kdo. intros r5 w5 H5.
  apply wp_ret, wp_ret. rewrite H5, H4, H3. cbn. by rewrite (proj2 (Z.eqb_neq r3 0)).
Qed.

(** Unloading gives back what loading took, also when loading is repeated. *)
Lemma init_exit_idle w : live (w_trace w) = idle ->
  wp (let! r := simplefs_init in if r =? 0 then simplefs_exit else ret tt) (fun _ w' => live (w_trace w') = idle) w.
Proof.
  intros H0. apply wp_bind. eapply wp_mono; [by apply init_all_or_nothing|]. intros r w1 H1; cbn beta in *.
  destruct (r =? 0); [|by apply wp_ret]. unfold simplefs_exit, simplefs_debugfs_exit, simplefs_destroy_inode_cache.
  apply wp_bind, live_kdo. intros r2 w2 H2. apply wp_bind, wp_bind, live_kdo. intros r3 w3 H3.
  apply wp_ret, wp_bind, live_kdo. intros r4 w4 H4. apply wp_ret. by rewrite H4, H3, H2, H1.
Qed.
End Spec.
