(* ===== verification/Witnesses.v ===== *)
(** * Witnesses: the theorems at concrete inputs

    A 64-block device with a one-block inode table, one-block bitmaps and the
    root directory in block 4, driven by the environment [ok_kernel] in which
    every call succeeds.  Each lemma applies one theorem there, with every
    hypothesis discharged by evaluation. *)

From Stdlib Require Import String.
From stdpp Require Import base list numbers gmap.
From S2P Require Import Prelude Image Layout Kernel DiskFormat Discard Journal MetaBuf.
From S2P Require Import Alloc Retire ExtentBuf ExtentTree InodeTable DirIndex Xattr.
From S2P Require Import DirSpec Acl Rebuild Super Namespace NamespaceSpec CreateSpec.
From S2P Require Import Mkfs MkfsSpec MkfsMain.

Local Open Scope Z_scope.
Local Open Scope fs_scope.
#[local] Existing Instance ok_kernel.

Definition sample_disk : sb_disk :=
  SbDisk SIMPLEFS_DISK_MAGIC 64 39 1 1 1 38 59 0 0 0 0 0.
Definition sample_sbi (j : option journal) : sb_info :=
  SbInfo sample_disk (Z.shiftl (Z.ones 38) 1) (Z.shiftl (Z.ones 59) 5) None false true j false.
Definition sample_inode (ino root : Z) : inode :=
  Inode ino 33188 0 0 4096 0 0 0 0 0 0 16 1 0 0 0 root 0 0 0 0 0 0 0 None.
Definition sample_world (j : option journal) : world :=
  World 0%nat [] (sample_sbi j) true ∅ {[ 3 := sample_inode 3 4 ]} false true 7.
Definition idle_journal : journal := Journal true false 0 0.

(** The plain file system, and the one with a live idle journal. *)
Definition plain : world := sample_world None.
Definition journaled : world := sample_world (Some idle_journal).

Lemma sample_inv j : alloc_inv (sample_sbi j).
Proof.
  unfold alloc_inv, geometry_ok, U32_MAX, pending. cbn -[test_bit bitmap_weight].
  split_and!; try (vm_compute; done); try lia.
  intros k _ H. unfold test_bit in *. by rewrite Z.testbit_0_l in H.
Defined.

Lemma sample_layout j : layout_ok (sample_sbi j).
Proof. unfold layout_ok, BITS_PER_BLOCK, SIMPLEFS_BLOCK_SIZE, U32_MAX. cbn. lia. Defined.

Lemma sample_sync_ok j : sync_ok (sample_sbi j) [4].
Proof.
  split_and!; [apply sample_inv|apply sample_layout| | |].
  - apply none_setb_spec. vm_compute. done.
  - constructor; [|constructor]. split_and!; vm_compute; done.
  - apply NoDup_singleton.
Defined.

Lemma journaled_idle : journal_in journaled Idle.
Proof. by exists idle_journal. Defined.

Definition sample_extents : list extent :=
  [Extent 0 4 10; Extent 4 4 14; Extent 20 (SIMPLEFS_EXTENT_UNWRITTEN + 8) 30].
Definition sample_buf : extent_buffer := ExtentBuffer sample_extents 8 [].

Ltac concrete :=
  repeat match goal with
  | |- Forall _ [] => constructor
  | |- Forall _ (_ :: _) => constructor
  | |- ForallOrdPairs _ _ => constructor
  | |- _ /\ _ => split
  end; try (vm_compute; done); try (vm_compute; intuition congruence).

Lemma sample_ext_ok : Forall ext_ok sample_extents.
Proof. unfold sample_extents. concrete. Defined.
Lemma sample_ext_u32 : Forall ext_u32 sample_extents.
Proof. unfold sample_extents. concrete. Defined.
Lemma sample_nonempty : Forall nonempty sample_extents.
Proof. unfold sample_extents. concrete. Defined.
Lemma sample_disj : ForallOrdPairs disj sample_extents.
Proof. unfold sample_extents, disj. concrete. all: vm_compute; left; done. Defined.
Lemma sample_wf : wf_extents sample_extents.
Proof. unfold wf_extents, sample_extents. concrete. Defined.

(** ** Discard and journal *)

Lemma discards_only_free_queued_units_witness :
  wp simplefs_issue_pending_discards (fun _ w' =>
    (w_trace w' = w_trace plain /\ w_sbi w' = w_sbi plain) \/
    (exists g ds, w_trace w' = ds ++ (BdevDiscardGranularity, g) :: w_trace plain /\
       Forall (fun cr => discard_ok (gran_blocks_of g) (nr_blocks (w_sbi plain))
          (bfree_bitmap (w_sbi plain)) (pending (w_sbi plain)) cr.1) ds) /\
    bitmap_lock (w_sbi w') = false /\ drained (w_sbi w') (w_sbi plain)) plain.
Proof. apply (discards_only_free_queued_units plain). vm_compute. split; discriminate. Defined.

Lemma journal_start_refines_witness :
  wp (simplefs_journal_start 8)
     (fun hd w' => exists ev st', w_trace w' = ev ++ [] /\
        start_step 7 8 false Idle ev hd st' /\ journal_in w' st') journaled /\
  fst (simplefs_journal_start_sb 8 journaled) = HOpen 1.
Proof.
  split; [|reflexivity].
  apply (journal_start_refines 8 journaled Idle); [done|apply journaled_idle|by left].
Defined.

Lemma journal_start_stop_idle_witness :
  wp (let! hd := simplefs_journal_start 8 in
      if HANDLE_IS_ERR hd then ret (HANDLE_PTR_ERR hd) else simplefs_journal_stop hd)
     (fun _ w' => journal_in w' Idle) journaled.
Proof. apply (journal_start_stop_idle 8 journaled); [done|apply journaled_idle]. Defined.

Lemma journal_fail_latches_witness :
  wp (run! simplefs_journal_fail (- EIO) in run! simplefs_journal_checkpoint in
      let! w1 := gets w_trace in
      let! h1 := simplefs_journal_start 8 in
      let! h2 := simplefs_journal_start_sb 8 in
      let! w2 := gets w_trace in ret (h1, h2, w1, w2))
     (fun '(h1, h2, t1, t2) w' =>
        h1 = HErr (- EIO) /\ h2 = HErr (- EIO) /\ t1 = t2 /\ s_shutdown (w_sbi w') = true)
     journaled.
Proof.
  apply (journal_fail_latches (- EIO) 8 journaled simplefs_journal_checkpoint).
  apply (checkpoint_pres _).
Defined.

Lemma dirty_folio_needs_handle_witness :
  wp (simplefs_journal_dirty_folio 4 (folio_of 4)) (fun r w' =>
    r = - EUCLEAN /\ w_trace w' = [(JournalCurrentHandle, 0)]) journaled.
Proof. apply (dirty_folio_needs_handle 4 (folio_of 4) journaled); [by intros|by vm_compute]. Defined.

Lemma journal_load_no_leak_witness :
  wp simplefs_journal_load (fun r w' =>
    jbd2_open_count (w_trace w') = jbd2_open_count (w_trace plain) +
      (if has_jbd2 (s_journal (w_sbi w')) then 1 else 0) /\
    (r <> 0 -> s_journal (w_sbi w') = None)) plain.
Proof. apply (journal_load_no_leak plain). reflexivity. Defined.

Definition journal_tail : sb_info :=
  set_sbi_disk (SbDisk SIMPLEFS_DISK_MAGIC 2048 39 1 1 1 38 59 1 1024 0 0 0) (sample_sbi None).

Lemma journal_bmap_in_region_witness :
  (fst (simplefs_journal_bmap (Some journal_tail) 1024 5) = 0 <-> 5 < 1024) /\
  (5 < 1024 -> 1024 <= snd (simplefs_journal_bmap (Some journal_tail) 1024 5) < 2048 /\
     forall b', 0 <= b' < 1024 ->
       snd (simplefs_journal_bmap (Some journal_tail) 1024 5) =
       snd (simplefs_journal_bmap (Some journal_tail) 1024 b') -> 5 = b').
Proof.
  apply (journal_bmap_in_region journal_tail 1024 5);
    [vm_compute; split; discriminate|vm_compute; split; discriminate|lia|reflexivity].
Defined.

(** ** Allocator *)

Lemma first_free_bits_first_fit_witness :
  get_first_free_bits_from 112 8 2 1 = (4, 64) /\ no_run_before 112 1 2 5.
Proof.
  split; [reflexivity|].
  apply (first_free_bits_first_fit 112 8 2 1 4 64); by vm_compute.
Defined.


Lemma put_blocks_guarded_witness :
  wp (put_blocks 5 3) (fun _ w' => bitmap_lock (w_sbi w') = false /\
    drained (w_sbi w') (w_sbi plain)) plain.
Proof.
  apply (put_blocks_guarded 5 3 plain); first [reflexivity|vm_compute; split; discriminate].
Defined.

Lemma alloc_free_roundtrip_witness :
  wp (let! b := get_free_blocks 3 in if b =? 0 then ret tt else put_blocks b 3)
     (fun _ w' => sbi_disk (w_sbi w') = sample_disk /\
        bfree_bitmap (w_sbi w') = bfree_bitmap (w_sbi plain) /\
        ifree_bitmap (w_sbi w') = ifree_bitmap (w_sbi plain)) plain.
Proof.
  apply (alloc_free_roundtrip 3 plain);
    [unfold U32_MAX; lia|apply (sample_inv None)|by split|by vm_compute].
Defined.

Lemma inode_bitmap_ops_witness :
  wp (put_inode 9) (fun _ w' => aeq (w_sbi w') (w_sbi plain)) plain.
Proof.
  apply (inode_bitmap_ops 9 plain); [vm_compute; split; discriminate|apply (sample_inv None)|reflexivity].
Defined.

Lemma allocator_invariant_witness :
  preserves (fun w => alloc_inv (w_sbi w)) (get_free_blocks 3) /\ alloc_inv (w_sbi plain).
Proof.
  split; [|apply (sample_inv None)].
  apply (allocator_invariant 3 5 2); unfold U32_MAX; lia.
Defined.

(** ** Extents *)

Lemma normalize_keeps_mapping_witness :
  wf_extents (eb_extents (simplefs_file_normalize_extents sample_buf)) /\
  nr_extents (simplefs_file_normalize_extents sample_buf) <= 3.
Proof.
  destruct (normalize_keeps_mapping sample_buf sample_ext_ok) as (_ & _ & H & _ & Hwf).
  split; [apply Hwf, sample_disj|exact H].
Defined.

Lemma normalize_idempotent_witness :
  unmergeable (normalize sample_extents) /\
  normalize (normalize sample_extents) = normalize sample_extents.
Proof. apply (normalize_idempotent _ sample_ext_ok sample_nonempty sample_disj). Defined.

Lemma find_extent_correct_witness :
  simplefs_file_find_extent sample_buf 21 = (true, 2) /\
  exists e, sample_extents !! 2%nat = Some e /\
    ext_maps e 21 (ee_start e + (21 - ee_block e)) (simplefs_ext_unwritten e).
Proof.
  split; [reflexivity|].
  exact (proj1 (proj2 (proj2 (find_extent_correct sample_buf 21 sample_wf))) eq_refl).
Defined.

Lemma split_extent_effect_witness :
  wp (split_extent true sample_buf 2 22 3) (fun rb _ => let '(r, buf') := rb in
    r = - ENOMEM \/
    (r = 0 /\ chain 0 (eb_extents buf') /\
     forall x p u, maps (eb_extents buf') x p u <->
       maps (take 2 sample_extents) x p u \/ maps [] x p u \/
       exists u0, ext_maps (Extent 20 (SIMPLEFS_EXTENT_UNWRITTEN + 8) 30) x p u0 /\
         u = if (22 <=? x) && (x <? 22 + 3) then negb true else u0)) plain.
Proof.
  apply (split_extent_effect true sample_buf (take 2 sample_extents)
    (Extent 20 (SIMPLEFS_EXTENT_UNWRITTEN + 8) 30) [] 22 3 plain);
    [reflexivity|apply sample_wf|reflexivity| |lia].
  vm_compute. split; [discriminate|reflexivity].
Defined.

Lemma extent_tree_roundtrip_witness :
  wp (simplefs_file_sync_extents 3 sample_buf) (fun rb w' => let '(r, buf') := rb in
    r = 0 -> wp (simplefs_file_load_extents 4) (fun rl w'' => let '(r2, buf2) := rl in
      if r2 =? 0 then
        eb_extents buf2 = eb_extents (simplefs_file_normalize_extents sample_buf) /\
        eb_leaf_blocks buf2 = eb_leaf_blocks buf' /\
        forall b p u, maps (eb_extents buf2) b p u <-> maps sample_extents b p u
      else load_failed r2 w'') w') plain.
Proof.
  apply (extent_tree_roundtrip 3 sample_buf plain);
    [apply (sample_sync_ok None)|apply sample_ext_u32|apply sample_ext_ok].
Defined.

Lemma sync_extents_failure_safe_witness :
  wp (simplefs_file_sync_extents 3 sample_buf) (fun rb w' => let '(r, _) := rb in
    r <> 0 -> s_shutdown (w_sbi w') = true \/ same_images [] journaled w' \/
              exists h, In (Jbd2Stop h, r) (w_trace w')) journaled.
Proof.
  apply (sync_extents_failure_safe 3 sample_buf journaled);
    [apply (sample_sync_ok (Some idle_journal))|apply sample_ext_u32].
Defined.

(** ** Inode table *)

#[export] Instance ok_dev_laws : DevLaws (K := ok_kernel).
Proof. by split. Defined.

Lemma inode_table_roundtrip_witness :
  wp (let! r := simplefs_write_inode 3 in
      if negb (r =? 0) then ret (r, 0) else
      run! drop_inode 3 in
      let! r2 := simplefs_iget 3 in ret (r, r2))
     (fun '(r, r2) w' => r = 0 ->
        (r2 = 0 /\ same_file (inode_of journaled 3) (inode_of w' 3)) \/
        (r2 < 0 /\ w_inodes w' !! 3 = None)) journaled.
Proof.
  apply (inode_table_roundtrip 3 journaled); [by vm_compute|by vm_compute|].
  unfold inode_fits. concrete.
Defined.

Lemma inode_update_local_witness :
  wp (simplefs_write_inode 3) (fun _ w' => disk_inode_at w' 4 = disk_inode_at plain 4 /\
    block_image w' 9 = block_image plain 9 /\ w_inodes w' = w_inodes plain) plain.
Proof. apply (inode_update_local 3 4 9 plain); by vm_compute. Defined.

Definition large : world :=
  set_w_inodes {[ 3 := set_i_size 4294971392 (sample_inode 3 4) ]} plain.

Lemma large_file_size_lost_witness :
  wp (simplefs_write_inode 3) (fun r w' => r = 0 ->
    d_size (disk_inode_at w' 3) = 4096 /\ d_size (disk_inode_at w' 3) < 4294971392) large.
Proof.
  apply (large_file_size_lost 3 large); [by vm_compute|by vm_compute|].
  vm_compute. split; discriminate.
Defined.

Definition stored_regular : world :=
  set_w_inodes ∅ (set_w_bdev {[ 1 := put_disk_inode 0 (inode_off 3)
    (disk_of_inode (sample_inode 3 4) 0) ]} plain).

Lemma regular_file_stores_slab_bytes_witness :
  wp (let! r := simplefs_iget 3 in if negb (r =? 0) then ret r else simplefs_write_inode 3)
     (fun r w' => r = 0 ->
        exists k, d_data (disk_inode_at w' 3) = get_bytes (i_data (slab_inode k)) 0 32)
     stored_regular.
Proof. apply (regular_file_stores_slab_bytes 3 stored_regular); by vm_compute. Defined.

(** ** Directories: inode 3 is a directory of one block, 6, with one name *)

Definition one_name : dir_index :=
  DirIndex (ExtentBuffer [Extent 0 1 6] 4 []) {[ 97 := DirName 5 0 ]} {[ 0 := 97 ]} 1 [6] 1 4 1 true.
Definition dir_world : world :=
  set_w_inodes {[ 3 := set_i_dir_index (Some one_name) (sample_inode 3 4) ]}
    (set_w_bdev {[ 6 := put_file 0 0 5 97 ]} journaled).

(** A property of the slots of a block, by evaluation. *)
Lemma below_all (n : Z) (f : Z -> bool) : forallb f (seqZ 0 n) = true ->
  forall s, 0 <= s < n -> f s = true.
Proof.
  intros H s Hs. rewrite forallb_forall in H. apply H, list_elem_of_In, elem_of_seqZ. lia.
Defined.

Lemma one_name_ok : index_ok one_name.
Proof.
  constructor; cbn [one_name di_entries di_names di_used di_next_free].
  - intros s k [<- <-]%lookup_singleton_Some. exists (DirName 5 0). by rewrite lookup_singleton_eq.
  - intros k e [<- <-]%lookup_singleton_Some. cbn. rewrite lookup_singleton_eq. concrete.
  - intros s Hs. destruct (decide (s = 0)) as [->|Hne]; [by vm_compute|].
    rewrite lookup_singleton_ne by lia. unfold test_bit. by rewrite Z.bits_above_log2 by (cbn; lia).
  - split; [by vm_compute|]. intros s Hs. assert (s = 0) as -> by lia. reflexivity.
  - by vm_compute.
  - by vm_compute.
Defined.

Lemma one_name_matches : index_matches dir_world one_name.
Proof.
  intros s Hs. change (dir_slots one_name) with 15 in Hs. revert s Hs.
  cut (forall s, 0 <= s < 15 ->
    bool_decide (on_disk dir_world one_name s = in_index one_name s) = true).
  { intros H s Hs. by apply (bool_decide_eq_true_1 _ (H s Hs)). }
  apply below_all. by vm_compute.
Defined.

Definition name_b : qstr := Qstr 98 1.
Lemma name_b_ok : qstr_ok name_b.
Proof. split; [by vm_compute|]. intros j Hj. cbn in Hj. assert (j = 0) as -> by lia. by vm_compute. Defined.

Lemma dir_set_refines_witness :
  wp (simplefs_dir_set 3 1 7 (Some name_b)) (fun r w' => r = 0 ->
    index_matches w' (index_at w' 3) /\
    contents (index_at w' 3) = <[98 := 7]> (contents one_name)) dir_world.
Proof.
  eapply wp_mono.
  - apply (dir_set_refines 3 1 7 (Some name_b) dir_world).
    + exact one_name_ok.
    + exact one_name_matches.
    + apply NoDup_singleton.
    + lia.
    + by vm_compute.
    + intros q [= <-]. apply name_b_ok.
  - intros r w' (_ & _ & H) ->. cbn [Z.eqb] in H. destruct H as (H & _ & H2).
    split; [done|]. by apply (H2 name_b).
Defined.

Lemma dir_cache_rebuild_witness :
  wp (simplefs_dir_get 3) (fun r w' => w_bdev w' = w_bdev plain) plain.
Proof.
  eapply wp_mono; [apply (dir_cache_rebuild 3 plain); exact I|]. by intros r w' [H _].
Defined.

Lemma dir_lookup_correct_witness :
  simplefs_dir_find one_name (Qstr 97 1) 0 = (0, 0, 5) /\
  match find_ino 15 one_name 0 5 with
  | Some k => contents one_name !! k = Some 5
  | None => forall k, contents one_name !! k <> Some 5
  end.
Proof.
  split; [by vm_compute|].
  refine (proj2 (dir_lookup_correct one_name (Qstr 97 1) 5 one_name_ok _)).
  split; [by vm_compute|]. intros j Hj. cbn in Hj. assert (j = 0) as -> by lia. by vm_compute.
Defined.


(** ** Extended attributes *)

Lemma xattr_set_refines_witness :
  (simplefs_xattr_set 3 98 1 (Some (7, 1)) 0 journaled).1 = 0 /\
  wp (simplefs_xattr_set 3 98 1 (Some (7, 1)) 0) (fun r w' => r = 0 ->
    xattrs_at w' 3 = <[(1, 98) := (1, 7)]> ∅) journaled.
Proof.
  split; [by vm_compute|].
  eapply wp_mono; [apply (xattr_set_refines 3 98 1 (Some (7, 1)) 0 journaled)|].
  - left. reflexivity.
  - lia.
  - cbn. lia.
  - intros r w' (_ & H & _) Hr. by apply H.
Defined.

(** The attribute named by byte 98 with the one-byte value 7, in block 7. *)
Definition attr_img : Z := match xattr_place xbuf_empty 1 98 1 7 with Some b => xb_img b | None => 0 end.
Definition attr_world : world :=
  set_w_inodes {[ 3 := set_i_xattr_block 7 (sample_inode 3 4) ]}
    (set_w_bdev {[ 7 := attr_img ]} plain).

Lemma attr_world_ok : attrs_ok attr_world 3.
Proof.
  right. change (xattr_block attr_world 3) with 7. unfold block_image, attr_world.
  cbn [w_bdev set_w_bdev set_w_inodes]. rewrite lookup_singleton_eq. cbn [default from_option id].
  split; [by vm_compute|]. unfold unique. assert (map xkey (xattr_list attr_img) = [(1, 98)]) as -> by (by vm_compute).
  apply NoDup_singleton.
Defined.

Lemma xattr_get_correct_witness :
  wp (simplefs_xattr_get 3 98 1 (Some 16)) (fun ro w' => let '(r, out) := ro in
    store w' = store attr_world /\ r = 1 /\ out = Some 7 \/
    (out = None /\ (r = - EIO \/ In (ReadMappingFolio 7, r) (w_trace w')))) attr_world.
Proof.
  eapply wp_mono; [apply (xattr_get_correct 3 98 1 (Some 16) attr_world); [exact attr_world_ok|lia]|].
  assert (E : xattrs_at attr_world 3 !! qkey 98 1 = Some (1, 7)) by (by vm_compute).
  intros [r out] w'. rewrite E. cbn [Z.ltb Z.compare]. auto.
Defined.

(** ** Rebuilding, mounting, unmounting and eviction *)

Lemma rebuild_exact_witness :
  wp simplefs_rebuild_block_bitmap (fun r w' => w_bdev w' = w_bdev plain /\
    (r = 0 -> forall b, 0 <= b < 64 ->
       test_bit (bfree_bitmap (w_sbi w')) b = true <-> ~ exists k i, claimed plain b k i)) plain.
Proof.
  eapply wp_mono; [apply (rebuild_exact plain); vm_compute; intuition discriminate|].
  intros r w' [Hb H]. split; [exact Hb|]. intros ->. cbn [Z.eqb] in H.
  destruct H as (_ & H & E & _). rewrite E in H. exact H.
Defined.

(** The same file system with its superblock in block 0, not mounted. *)
Definition sb_image : Z := put_words 0 0 (SIMPLEFS_DISK_MAGIC :: sb_words sample_disk).
Definition offline : world :=
  World 0%nat [] (sample_sbi None) false {[ 0 := sb_image ]} ∅ false false 7.

Lemma offline_layout : small_layout (sb_of_image (block_image offline 0)).
Proof. vm_compute. intuition discriminate. Defined.

Lemma mount_sound_witness :
  wp (simplefs_fill_super (fun _ => sample_sbi None) None) (fun r w' =>
    if r =? 0 then mounted w' /\ is_Some (w_inodes w' !! 1) else w_fs_info w' = false) offline.
Proof.
  eapply wp_mono; [apply (mount_sound (fun _ => sample_sbi None) None offline); [apply offline_layout|reflexivity]|].
  intros r w' H. cbv beta in H. destruct (r =? 0); [destruct H as (A & B & _); by split|exact H].
Defined.

Definition online : world := set_w_bdev {[ 0 := sb_image ]} plain.

Lemma online_ready : sync_ready online.
Proof.
  split; [vm_compute; intuition discriminate| |vm_compute; discriminate..|vm_compute; done| |vm_compute; done].
  - repeat constructor; vm_compute; discriminate.
  - intros k H. discriminate.
Defined.

Lemma sync_mount_roundtrip_witness :
  wp (let! r := simplefs_sync_fs (ret tt) true in
      let! s := get_sbi in
      run! forget_memory in
      let! r2 := simplefs_fill_super (fun _ => sample_sbi None) None in
      ret (r, s, r2))
     (fun '(r, s, r2) w' => r = 0 -> r2 = 0 -> restored s (w_sbi w')) online.
Proof.
  apply (sync_mount_roundtrip (ret tt) true (fun _ => sample_sbi None) None online); try reflexivity.
  - apply preserves_ret.
  - exact online_ready.
  - intros k m. reflexivity.
Defined.

Lemma evict_inode_safe_witness :
  wp (simplefs_evict_inode 3) (fun _ w' => w_bdev w' = w_bdev plain /\ w_sbi w' = w_sbi plain) plain.
Proof.
  eapply wp_mono; [apply (proj2 (evict_inode_safe 3) plain); by vm_compute|].
  intros u w' (A & B & _). by split.
Defined.

(** The sample file, unlinked, with an empty root block. *)
Definition orphaned : world :=
  set_w_inodes {[ 3 := set_i_nlink 0 (sample_inode 3 4) ]} journaled.

Lemma evict_leaks_handle_witness :
  wp (simplefs_evict_inode 3) (fun _ w' =>
    (exists h, journal_in w' (Held 7 h)) /\ s_shutdown (w_sbi w') = true) orphaned.
Proof.
  apply (evict_leaks_handle 3 orphaned); try (by vm_compute).
  exact journaled_idle.
Defined.

(** A live journal and the recovery marker set, as during a mount. *)
Definition dirty : world := set_w_sbi (upd_disk (set_s_needs_recovery 1) (w_sbi journaled)) journaled.

Lemma unmount_clean_order_witness :
  wp (simplefs_put_super (ret tt)) (fun _ w' =>
    s_needs_recovery (w_sbi w') = 0 /\ clean_order [] (w_trace w')) dirty.
Proof.
  assert (E : wp (simplefs_put_super (ret tt)) (fun _ w' => s_needs_recovery (w_sbi w') = 0) dirty) by (by vm_compute).
  eapply wp_mono; [apply (wp_conj _ _ _ _ E (unmount_clean_order (ret tt) dirty (preserves_ret _ _)))|].
  intros u w' [Hr H]. split; [exact Hr|]. apply H. rewrite Hr. by vm_compute.
Defined.

(** ** Names: inode 5 is a file in core, named [a] in directory 3 *)

#[local] Instance ok_vfs : Vfs := {|
  posix_acl := unit;
  posix_acl_to_xattr := fun _ => (0, 4);
  posix_acl_from_xattr := fun _ => (0, Some tt);
  posix_acl_update_mode := fun _ i a => (0, i_mode i, Some a);
  posix_acl_create := fun _ _ mode => (0, mode, None, None);
  posix_acl_chmod := fun _ _ _ => (0, None);
  security_xattrs := fun _ _ _ => [];
  setattr_copy := fun _ _ i => i
|}.
#[local] Instance ok_errnos : Errnos.
Proof. split; intros; by vm_compute. Defined.

Definition names_world : world :=
  set_w_inodes (<[ 5 := sample_inode 5 7 ]> (w_inodes dir_world)) dir_world.
Definition entry_a : dentry := Dentry (Qstr 97 1) (Some 5) [].
Definition entry_b : dentry := Dentry name_b None [].

Lemma names_cached : dir_cached 3 {[ 97 := 5 ]} names_world.
Proof. split; [exact one_name_ok|done|by vm_compute|done]. Defined.

Lemma unlink_refines_witness :
  (simplefs_unlink 3 entry_a names_world).1 = 0 /\
  dir_cached 3 (delete 97 {[ 97 := 5 ]}) (simplefs_unlink 3 entry_a names_world).2.
Proof.
  assert (E : (simplefs_unlink 3 entry_a names_world).1 = 0) by (vm_compute; reflexivity).
  split; [exact E|].
  pose proof (unlink_refines 3 entry_a {[ 97 := 5 ]} names_world names_cached) as H.
  specialize (H ltac:(vm_compute; split; done)). unfold wp in H. rewrite E in H. apply H.
Defined.

(** The same without a journal. *)
Definition no_journal : world := set_w_sbi (sample_sbi None) names_world.
Lemma no_journal_cached : dir_cached 3 {[ 97 := 5 ]} no_journal.
Proof. exact names_cached. Defined.


Lemma create_returns : (simplefs_create 3 entry_b S_IFREG names_world).1 = 0.
Proof. vm_compute. reflexivity. Qed.

Lemma create_refines_witness :
  (simplefs_create 3 entry_b S_IFREG names_world).1 = 0 /\
  wp (simplefs_create 3 entry_b S_IFREG) (fun r w' => r = 0 ->
    exists ino, fresh_ino names_world ino /\ dir_cached 3 (<[ 98 := ino ]> {[ 97 := 5 ]}) w') names_world.
Proof.
  split; [exact create_returns|]. eapply wp_mono.
  - apply (create_refines 3 entry_b S_IFREG {[ 97 := 5 ]} 1 names_world).
    + apply sample_inv.
    + apply names_cached.
    + reflexivity.
    + apply name_b_ok.
  - intros r w' H ->. cbn [Z.eqb] in H. destruct H as (_ & ino & H1 & H2 & _). by exists ino.
Defined.

(** ** Making a file system: a hundred blocks, with every system call successful *)

#[local] Instance ok_posix : Posix := {|
  PW := unit;
  psys := fun k c => (match c with Write _ => SIMPLEFS_BLOCK_SIZE | Read _ n => n | _ => 0 end, k)
|}.

Definition small_disk : mkfs_layout := MkfsLayout 100 39 1 1 1 0 96 4 100.
Definition blank : mkworld := MkWorld tt 0 ∅.
Definition made : mkworld := (mkfs_create_fs 3 409601 16384 blank).2.

Lemma small_disk_layout : mkfs_calculate_layout 409601 16384 = inr small_disk.
Proof. vm_compute. reflexivity. Defined.
Lemma small_disk_sound : layout_sound small_disk.
Proof. exact (calculate_layout_sound 409601 16384 small_disk small_disk_layout). Defined.


Lemma bfree_values_agree_witness :
  slice (bfree_image small_disk 0) (64 * Z.of_nat 1) 64 = slice UINT64_MAX 0 64.
Proof.
  apply (bfree_values_agree small_disk 0 [Z.ldiff UINT64_MAX 31] 1 small_disk_sound eq_refl).
  - cbn. lia.
  - vm_compute. reflexivity.
  - lia.
Defined.

Definition new_disk : world := set_w_bdev (mk_dev made) offline.

Lemma mkfs_then_mount_witness :
  wp (simplefs_fill_super (fun _ => sample_sbi None) None) (fun r w' =>
    r = 0 -> alloc_inv (w_sbi w') /\ nr_free_inodes (w_sbi w') = 37 /\ nr_free_blocks (w_sbi w') = 95) new_disk.
Proof.
  eapply wp_mono.
  - apply (mkfs_then_mount 3 409601 16384 blank (fun _ => sample_sbi None) None new_disk small_disk).
    + reflexivity.
    + exact small_disk_layout.
    + reflexivity.
    + reflexivity.
    + reflexivity.
    + intros k m. reflexivity.
  - intros r w' H ->. cbn [Z.eqb] in H. destruct H as [[H1 _ _ _ H2 H3] _]. split; [exact H1|]. split; [exact H2|exact H3].
Defined.

Lemma verify_root_refuses_new_witness :
  wp (let! r := mkfs_create_fs 3 409601 16384 in
      let! v := mkfs_verify_root_inode 3 small_disk in
      ret (r.1, v)) (fun r _ => r.1 = 0 -> r.2 <> 0) blank.
Proof. apply (verify_root_refuses_new 3 409601 16384 blank small_disk small_disk_layout). reflexivity. Defined.

(** 160 GB with an inode per block. *)
Definition large_disk : mkfs_layout :=
  MkfsLayout 40894425 40894425 1048575 1248 1248 1024 39842329 1051072 40893401.

Lemma large_table_destroys_superblock_witness :
  wp (mkfs_write_ifree_bitmap 3 large_disk) (fun r s' => r = 0 ->
    magic (sb_of_image (dev_block (mk_dev s') 0)) <> SIMPLEFS_DISK_MAGIC) blank.
Proof.
  apply (large_table_destroys_superblock 3 167503564800 4096 blank large_disk).
  - vm_compute. reflexivity.
  - reflexivity.
Defined.

(** ** The command: a regular file of 400 KB and a byte, every call successful *)

Definition cmd_posix : Posix := {|
  PW := unit;
  psys := fun k c => (match c with
                      | Write _ => SIMPLEFS_BLOCK_SIZE | Read _ n | Pread _ n => n
                      | Open => 3 | StMode => 33188 | StSize => 409601 | _ => 0
                      end, k)
|}.
Definition empty_file : @mkworld cmd_posix := @MkWorld cmd_posix tt 0 ∅.
Definition after_mkfs : @mkworld cmd_posix := (@main cmd_posix ["-i"; "16384"; "disk"]%string empty_file).2.

Lemma mkfs_command_safe_witness :
  (@main cmd_posix ["-i"; "16384"; "disk"]%string empty_file).1 = 0 /\
  (exists o size l, parse_options ["-i"; "16384"; "disk"]%string default_options = Some o /\
     mkfs_calculate_layout size (o_bytes_per_inode o) = inr l /\ layout_sound l /\
     (l_first_data_block l < 1048576 -> @formatted cmd_posix l after_mkfs)) /\
  (@main cmd_posix ["disk"]%string after_mkfs).1 = 1 /\
  mk_dev (@main cmd_posix ["disk"]%string after_mkfs).2 = mk_dev after_mkfs.
Proof.
  assert (Hr : forall k off n, fst (@psys cmd_posix k (Pread off n)) = n) by reflexivity.
  assert (H0 : (@main cmd_posix ["-i"; "16384"; "disk"]%string empty_file).1 = 0) by (vm_compute; reflexivity).
  split; [exact H0|]. split.
  - exact (proj1 (@mkfs_command_safe cmd_posix Hr ["-i"; "16384"; "disk"]%string empty_file) H0).
  - apply (proj2 (@mkfs_command_safe cmd_posix Hr ["disk"]%string after_mkfs)) with (o := Options false false 16384 (Some "disk"%string)).
    + vm_compute. reflexivity.
    + reflexivity.
    + reflexivity.
Defined.
