(* ===== verification/FileWitnesses.v ===== *)
(** * FileWitnesses: the theorems about files at concrete inputs

    The device of Witnesses with a regular file in inode 3: the root of its tree in
    block 5, four written blocks from 0 on in the blocks 6 to 9, four unwritten ones
    from 8 on in the blocks 10 to 13. *)

From stdpp Require Import base list numbers gmap relations.
From S2P Require Import Prelude Image Layout Kernel DiskFormat Discard Journal MetaBuf.
From S2P Require Import Alloc Retire ExtentBuf ExtentTree Owned Errno InodeTable.
From S2P Require Import FileRange FileMap FileWrite FileZero Super FileOps FileOpsSpec FileIo FileIoSpec.

Local Open Scope Z_scope.
Local Open Scope fs_scope.
#[local] Existing Instance ok_kernel.

#[local] Instance ok_errno : Errno.
Proof. intros k []; done || (vm_compute; discriminate). Defined.

Definition file_disk : sb_disk := SbDisk SIMPLEFS_DISK_MAGIC 64 39 1 1 1 38 50 0 0 0 0 0.
Definition file_sbi : sb_info :=
  SbInfo file_disk (Z.shiftl (Z.ones 38) 1) (Z.shiftl (Z.ones 50) 14) None false true None false.
Definition sample_inode : inode :=
  Inode 3 33188 0 0 16384 0 0 0 0 0 0 64 1 0 0 0 5 0 0 0 0 0 0 0 None.
Definition file_extents : list extent := [Extent 0 4 6; Extent 8 (SIMPLEFS_EXTENT_UNWRITTEN + 4) 10].
Definition file_world : world :=
  World 0%nat [] file_sbi true {[ 5 := root_image 0 file_extents [] ]} {[ 3 := sample_inode ]} false true 7.

Lemma file_maps b p u : maps file_extents b p u ->
  (0 <= b < 4 /\ p = 6 + b /\ u = false) \/ (8 <= b < 12 /\ p = 10 + (b - 8) /\ u = true).
Proof.
  unfold file_extents. intros [He|[He|[]%maps_nil]%maps_cons]%maps_cons; destruct He as (_ & H1 & H2 & H3).
  - change (0 <= b < 4) in H1. change (p = 6 + (b - 0)) in H2. left. split_and!; [lia|lia|lia|exact H3].
  - change (8 <= b < 12) in H1. change (p = 10 + (b - 8)) in H2. right. split_and!; [lia|lia|lia|exact H3].
Defined.

Ltac concrete :=
  repeat match goal with
  | |- Forall _ [] => constructor
  | |- Forall _ (_ :: _) => constructor
  | |- _ /\ _ => split
  end; try (vm_compute; done); try (vm_compute; intuition congruence).

Lemma file_inv : alloc_inv file_sbi.
Proof.
  unfold alloc_inv, geometry_ok, U32_MAX, pending. cbn -[test_bit bitmap_weight].
  split_and!; try (vm_compute; done); try lia.
  intros k _ H. unfold test_bit in *. by rewrite Z.testbit_0_l in H.
Defined.
Lemma file_wf : wf_extents file_extents.
Proof. split_and!; [vm_compute; intuition congruence|unfold file_extents; concrete..]. Defined.
Lemma file_used p : 0 <= p < 14 -> test_bit (bfree_bitmap file_sbi) p = false.
Proof.
  intros Hp. assert (H : none_setb (bfree_bitmap file_sbi) 0 14 = true) by (vm_compute; done).
  apply none_setb_spec in H. replace p with (0 + p) by lia. apply H. lia.
Defined.

Lemma file_sound : file_ok file_world 3 file_extents [].
Proof.
  assert (Hr : root_dir_block (w_sbi file_world) = 4) by (vm_compute; done).
  assert (Hi : ei_block (inode_of file_world 3) = 5) by (vm_compute; done).
  constructor; rewrite ?Hr, ?Hi.
  - split_and!; [|vm_compute; done|done]. vm_compute. done.
  - apply file_wf.
  - unfold file_extents. concrete.
  - vm_compute. discriminate.
  - unfold layout_ok, BITS_PER_BLOCK, SIMPLEFS_BLOCK_SIZE, U32_MAX. cbn. lia.
  - split_and!; [|constructor|constructor]. split_and!; [apply file_inv|done|].
    intros p [Hp|Hp]; [|by apply elem_of_nil in Hp]. unfold file_blocks in Hp. rewrite Hr in Hp.
    assert (0 <= p < 14); [|split; [lia|by apply file_used]].
    destruct Hp as [?|[?|(b & u & [?|?]%file_maps)]]; lia.
  - vm_compute. split; [split; discriminate|reflexivity].
  - change (nr_blocks (w_sbi file_world)) with 64. intros b p u [?|?]%file_maps; lia.
  - intros b b' p u u' [?|?]%file_maps [?|?]%file_maps; lia.
Defined.

Lemma truncate_refines_witness :
  wp (truncate_extents 3 2) (remapped (trunc_map 2) 3 file_extents file_world) file_world.
Proof. apply (truncate_refines 3 2 file_extents [] file_world); [vm_compute; split; discriminate|apply file_sound]. Defined.

Lemma punch_refines_witness :
  wp (punch_extents 3 1 9) (fun res => remapped (punch_map 1 9) 3 file_extents file_world (fst res)) file_world.
Proof.
  apply (punch_refines 3 1 9 file_extents [] file_world); [lia|vm_compute; discriminate|apply file_sound].
Defined.

Lemma collapse_refines_witness :
  wp (collapse_extents 3 1 2 4096) (remapped (collapse_map 1 2) 3 file_extents file_world) file_world.
Proof.
  apply (collapse_refines 3 1 2 4096 file_extents [] file_world); [lia|vm_compute; discriminate|apply file_sound].
Defined.

Lemma insert_collapse_roundtrip_witness :
  wp (let! r := insert_extents 3 2 3 12288 in
      if negb (r =? 0) then ret r else collapse_extents 3 2 (2 + 3) 12288)
     (fun r w' => r = 0 -> exists l' leaves', file_ok w' 3 l' leaves' /\
        forall b p u, maps l' b p u <-> maps file_extents b p u) file_world.
Proof.
  apply (insert_collapse_roundtrip 3 2 3 12288 file_extents [] file_world);
    [lia|lia|vm_compute; discriminate|unfold file_extents; concrete|apply file_sound].
Defined.

Lemma block_lookup_correct_witness :
  wp (simplefs_get_block 3 1 1 false false false false) (fun res w' =>
    settled file_world w' /\ lookup_post file_extents 1 res /\ (max_file_blocks <= 1 -> fst res = - EFBIG)) file_world /\
  fst (simplefs_get_block 3 1 1 false false false false file_world) = (3, GbOut 7 false false).
Proof.
  split; [|vm_compute; reflexivity].
  apply (block_lookup_correct 3 1 1 false false file_extents [] file_world); [lia|apply file_sound].
Defined.

Lemma block_alloc_adds_witness :
  wp (simplefs_get_block 3 4 2 true true false false) (fun res w' =>
    (settled file_world w' /\ lookup_post file_extents 4 res /\ fst res <> 0) \/
    hole_post file_world 3 file_extents [] 4 false res w') file_world /\
  fst (simplefs_get_block 3 4 2 true true false false file_world) = (2, GbOut 14 true false).
Proof.
  split; [|vm_compute; reflexivity].
  apply (block_alloc_adds 3 4 2 true false file_extents [] file_world); [lia|apply file_sound].
Defined.

Lemma report_iomap_sound_witness :
  wp (simplefs_report_iomap_begin 3 36864) (fun res w' => settled file_world w' /\ fst res <= 0 /\
    (fst res = 0 -> reports file_extents (inode_of file_world 3) (block_of 36864) (snd res))) file_world.
Proof.
  apply (report_iomap_sound 3 36864 file_extents [] file_world);
    [vm_compute; split; [discriminate|reflexivity]|vm_compute; discriminate..|apply file_sound].
Defined.

Lemma convert_range_refines_witness :
  wp (simplefs_convert_unwritten_range 3 36864 8192)
     (retagged (tag (range_start 36864) (range_end 36864 8192) false) 3 file_extents file_world) file_world.
Proof.
  apply (convert_range_refines 3 36864 8192 file_extents [] file_world); [|apply file_sound].
  split_and!; [lia|lia|vm_compute; discriminate].
Defined.

Definition file_buf : extent_buffer := ExtentBuffer file_extents 8 [].
Lemma convert_range_ends_witness :
  wp (convert_loop (convert_fuel file_buf) 0 9 11 file_buf) (fun res _ => exists r buf', res = Some (r, buf') /\
    eb_leaf_blocks buf' = eb_leaf_blocks file_buf /\
    (r = - ENOMEM \/ (r = 0 /\ retags (tag 9 11 false) file_extents (eb_extents buf')))) file_world.
Proof.
  apply (convert_range_ends 9 11 file_extents file_buf file_world);
    [lia|vm_compute; discriminate|reflexivity|apply file_wf|apply (fo_u32 _ _ _ _ file_sound)].
Defined.

Lemma write_begin_correct_witness :
  wp (simplefs_write_iomap_begin 3 16384 4096 true false)
     (write_post file_world 3 file_extents (block_of 16384) (blocks_spanned 16384 4096) false) file_world /\
  fst (fst (simplefs_write_iomap_begin 3 16384 4096 true false file_world)) = 0.
Proof.
  split; [|vm_compute; reflexivity].
  apply (write_begin_correct 3 16384 4096 false file_extents [] file_world); [lia|lia|apply file_sound].
Defined.

Lemma zero_range_refines_witness :
  wp (simplefs_zero_range_full_blocks 3 2 10) (zero_post file_world 3 file_extents 2 10) file_world /\
  fst (simplefs_zero_range_full_blocks 3 2 10 file_world) = 0.
Proof.
  split; [|vm_compute; reflexivity].
  apply (zero_range_refines 3 2 10 file_extents [] file_world); [lia|vm_compute; discriminate|apply file_sound].
Defined.

(** A page cache without dirty pages that writes inodes back. *)
#[local] Instance idle_cache : PageCache := {|
  filemap_write_and_wait _ := ret 0;
  filemap_write_and_wait_range _ _ _ := ret 0;
  iomap_zero_range _ _ _ := ret 0;
  iomap_truncate_page _ _ := ret 0;
  write_inode_now ino := simplefs_write_inode ino;
  sync_inode_metadata ino := simplefs_write_inode ino
|}.
#[local] Instance idle_callbacks : ThroughCallbacks.
Proof. split; intros; intros w; first [apply rtc_refl|apply rtc_once; constructor]. Defined.

Definition some_ops : list (Z * file_op) :=
  [(3, WriteBegin 16384 8192 false); (3, IoendWork 16384 8192 0 true); (3, Fallocate 3 4096 4096); (3, Truncate 8192); (3, Release)].
Lemma file_ops_keep_invariants_witness :
  alloc_inv (w_sbi (snd (each_list some_ops (fun o => run_op o.1 o.2) file_world))) /\
  wal_ok (w_trace (snd (each_list some_ops (fun o => run_op o.1 o.2) file_world))).
Proof. apply (file_ops_keep_invariants some_ops file_world). split; [apply file_inv|exact I]. Defined.


Lemma trim_discards_free_runs_witness :
  wp (simplefs_trim_fs 0 262144 8192) (fun res w' => trim_post (bfree_bitmap file_sbi) 0 0 64 2 file_world res w') file_world /\
  w_trace (snd (simplefs_trim_fs 0 262144 8192 file_world)) = [(SbIssueDiscard 14 50, 0)].
Proof.
  split; [|vm_compute; reflexivity].
  apply (trim_discards_free_runs 0 262144 8192 file_world); [unfold is_u64; lia..|reflexivity].
Defined.

Lemma fiemap_exact_witness :
  wp (simplefs_fiemap 3 0 0 65536 false) (fun r w' => file_view w' = file_view file_world /\
    (r = 0 -> exists entries w1 a, settled file_world w1 /\ w_trace w' = (InodeUnlockShared 3, a) :: rev (map fill_call entries) ++ w_trace w1 /\
       Forall (entry_maps file_extents) entries /\
       forall b p u, maps file_extents b p u -> 0 < block_start (b + 1) -> block_start b < 0 + 65536 ->
         Exists (entry_covers b p u) entries)) file_world /\
  fst (simplefs_fiemap 3 0 0 65536 false file_world) = 0.
Proof. split; [apply (fiemap_exact 3 0 65536 file_extents [] file_world), file_sound|vm_compute; reflexivity]. Defined.

(** A kernel that transfers at most a page at a time and pins one vector of pages. *)
#[local] Instance page_path : DataPath := {|
  generic_write_checks _ iocb n := ret (Transfer n (ki_pos iocb) n);
  iomap_dio_rw _ pos n _ before :=
    if n <=? 0 then ret (Transfer 0 pos n)
    else let k := Z.min n PAGE_SIZE in ret (Transfer (before + k) (pos + k) (n - k));
  iomap_file_buffered_write _ pos n := ret (Transfer n (pos + n) 0);
  iov_iter_extract_bvecs n :=
    let res := (Z.min n 8192, [BioVec 100 0 (Z.min n 8192)]) in
    run! pin_pages (pins res) in ret res;
  generic_write_sync _ _ n := ret n;
  iomap_dio_read _ _ n := ret n;
  filemap_read _ _ n := ret n;
  iomap_page_mkwrite _ := ret 0
|}.
#[local] Instance page_laws : DataLaws.
Proof.
  split; intros.
  - intros w. apply rtc_refl.
  - intros w. cbn. destruct (n <=? 0); apply rtc_refl.
  - intros w. apply rtc_refl.
  - intros w. apply rtc_refl.
  - intros w. apply rtc_refl.
  - cbn. unfold bind. destruct (pin_pages _ w) as [u w'] eqn:E. cbn [ret fst snd]. by rewrite E.
  - cbn. unfold bind. destruct (pin_pages _ w). cbn. lia.
  - unfold t. cbn. unfold ENOTBLK, PAGE_SIZE. destruct (Z.leb_spec n 0); cbn; split; intros; lia.
  - cbn. lia.
Defined.
#[local] Instance idle_errno : PageErrno.
Proof. split; intros; intros w; cbn; lia. Defined.

Definition dio_iocb : kiocb := Kiocb 4096 true false.
Definition user_iter : iov_iter := IovIter 12288 0 true.

Lemma write_iter_releases_witness :
  balance (PageHeld 100) (w_trace (snd (simplefs_file_write_iter 3 dio_iocb user_iter file_world))) = 0 /\
  fst (simplefs_file_write_iter 3 dio_iocb user_iter file_world) = Some 12288.
Proof.
  split; [|vm_compute; reflexivity].
  exact (proj1 (write_iter_releases (PageHeld 100) 3 dio_iocb user_iter 0 0 4096 0 4095 file_world)).
Defined.


Definition tail_ioend : ioend := Ioend 32768 4096 true.
Definition submitted : wb_state := wb_submit 3 tail_ioend 0 (wb_start file_world).
Definition scheduled : wb_state :=
  Wb (wb_world submitted) (writeback_ioends submitted) [] [(tail_ioend, 0)] (wb_submitted submitted) (wb_done submitted).
Definition finished : wb_state := wb_finish 3 tail_ioend 0 [] scheduled.

Lemma shutdown_latches_witness :
  wp (simplefs_shutdown (ret tt) (ret tt) 2) (fun r w' =>
    (~ 0 <= 2 <= 2 -> r = - EINVAL /\ w' = file_world) /\
    (0 <= 2 <= 2 -> shut w' /\ Forall (fun m : M Z => m w' = (- EIO, w'))
       [simplefs_file_open 3; simplefs_file_read_iter 3 dio_iocb user_iter; simplefs_file_fsync 3 0 4095;
        simplefs_file_splice_read 3; simplefs_write_inode 3; simplefs_sync_fs (ret tt) true] /\
      simplefs_file_write_iter 3 dio_iocb user_iter w' = (Some (- EIO), w') /\
      simplefs_page_mkwrite 3 w' = (VM_FAULT_SIGBUS, w'))) file_world.
Proof.
  apply (shutdown_latches (ret tt) (ret tt) 2 3 0 4095 dio_iocb user_iter file_world); [reflexivity|discriminate].
Defined.

Lemma file_shrinks_witness :
  wp (simplefs_truncate 3 8192) (fun r w' => r = 0 -> has_size 3 8192 w' /\
    exists l' leaves', file_ok w' 3 l' leaves' /\ cut 8192 16384 file_extents l') file_world /\
  fst (simplefs_truncate 3 8192 file_world) = 0.
Proof.
  split; [|vm_compute; reflexivity]. apply (file_shrinks 3 8192 file_extents [] file_world).
  - vm_compute. split; discriminate.
  - vm_compute. discriminate.
  - intros w. split; apply settled_refl.
  - apply file_sound.
Defined.

Lemma free_block_is_found_witness :
  wp (alloc_halving 13 64) (fun res w' => 0 < snd res <= 64 /\ free_run file_sbi (fst res) (snd res) /\
    aeq (w_sbi w') (take_blocks (fst res) (snd res) file_sbi)) file_world /\
  fst (alloc_halving 13 64 file_world) = (14, 32).
Proof.
  split; [|vm_compute; reflexivity]. apply (free_block_is_found 64 20 file_world); [lia|apply file_inv|by split|].
  split_and!; [lia|lia|vm_compute; discriminate|]. intros k Hk. replace k with 20 by lia. reflexivity.
Defined.
