(* ===== verification/CString.v ===== *)
(** * CString: strings and buffers of the user-space programs

    A C string is the list of its characters, each a [Z] in 1..255, without the
    NUL that ends it; a buffer is the list of all its bytes.  A function of
    <string.h> that has to meet a NUL in the buffer returns [None] when it would
    run past the end. *)

From Stdlib Require Import Ascii String.
From stdpp Require Import base list numbers.
From S2P Require Import Prelude.

Local Open Scope Z_scope.

Definition cstr : Type := list Z.

(** A string literal. *)
Definition str (s : string) : cstr := map (fun c => Z.of_N (N_of_ascii c)) (list_ascii_of_string s).

Definition SLASH : Z := 47.
Definition DOT : Z := 46.

Definition streq (a b : cstr) : bool := bool_decide (a = b).

Lemma streq_true a b : streq a b = true <-> a = b.
Proof. apply bool_decide_eq_true. Qed.

Lemma streq_false a b : streq a b = false <-> a <> b.
Proof. apply bool_decide_eq_false. Qed.

(** The offset of the first [c]. *)
Fixpoint strchr (s : cstr) (c : Z) : option nat :=
  match s with
  | [] => None
  | x :: s' => if x =? c then Some O else option_map S (strchr s' c)
  end.

Lemma strchr_Some s c i :
  strchr s c = Some i ->
  exists rest, s = take i s ++ c :: rest /\ ~ In c (take i s) /\ drop i s = c :: rest.
Proof.
  revert i; induction s as [|x s IH]; intros i H; simpl in H; [done|].
  destruct (Z.eqb_spec x c) as [->|Hx].
  - injection H as <-. exists s. by repeat split; try tauto.
  - destruct (strchr s c) as [j|]; [|done]. injection H as <-.
    destruct (IH j eq_refl) as (rest & H1 & H2 & H3).
    exists rest. simpl. rewrite <- H1. repeat split; [|done]. intros [?|?]; auto.
Qed.

Lemma strchr_None s c : strchr s c = None <-> ~ In c s.
Proof.
  induction s as [|x s IH]; simpl; [by split; [intros _ []|]|].
  destruct (Z.eqb_spec x c) as [->|Hx].
  - split; [done|]. intros H. exfalso. auto.
  - destruct (strchr s c); simpl; split; try done.
    + intros H. exfalso. apply H. right. destruct IH as [_ IH].
      destruct (in_dec Z.eq_dec c s); [done|]. by specialize (IH n0).
    + intros _ [?|?]; [done|]. by apply IH.
Qed.

(** The string that starts a buffer; [None] when no byte of it is NUL. *)
Fixpoint cstr_of (buf : list Z) : option cstr :=
  match buf with
  | [] => None
  | x :: buf' => if x =? 0 then Some [] else option_map (cons x) (cstr_of buf')
  end.

Definition no_nul (s : cstr) : Prop := Forall (fun c => c <> 0) s.

Lemma cstr_of_app s buf : no_nul s -> cstr_of (s ++ 0 :: buf) = Some s.
Proof.
  induction s as [|x s IH]; intros H; [done|]. inversion H; subst. simpl.
  destruct (Z.eqb_spec x 0); [done|]. by rewrite IH.
Qed.

Lemma cstr_of_no_nul buf s : cstr_of buf = Some s -> no_nul s.
Proof.
  revert s; induction buf as [|x buf IH]; intros s H; simpl in H; [done|].
  destruct (Z.eqb_spec x 0); [by injection H as <-; constructor|].
  destruct (cstr_of buf) as [t|]; [|done]. injection H as <-.
  constructor; [done|]. by apply IH.
Qed.

Lemma cstr_of_length buf s : cstr_of buf = Some s -> (length s < length buf)%nat.
Proof.
  revert s; induction buf as [|x buf IH]; intros s H; simpl in H; [done|].
  destruct (x =? 0); [injection H as <-; simpl; lia|].
  destruct (cstr_of buf) as [t|]; [|done]. injection H as <-.
  specialize (IH t eq_refl). simpl. lia.
Qed.

Lemma cstr_of_Some buf : In 0 buf -> is_Some (cstr_of buf).
Proof.
  induction buf as [|x buf IH]; [done|]. intros [->|H]; [by eexists|].
  simpl. destruct (x =? 0); [by eexists|]. destruct (IH H) as [t ->]. by eexists.
Qed.

(** [memcpy(buf + off, src, length src)]. *)
Definition memcpy (buf : list Z) (off : nat) (src : list Z) : list Z :=
  take off buf ++ src ++ drop (off + length src) buf.

(** [snprintf] with a string of that length: what is stored in a buffer of [size]
    bytes, and the length it would have needed. *)
Definition snprintf (size : Z) (s : cstr) : Z * cstr :=
  (Z.of_nat (length s), take (Z.to_nat (size - 1)) s).

Lemma snprintf_fits size s :
  Z.of_nat (length s) < size -> snprintf size s = (Z.of_nat (length s), s).
Proof. intros H. unfold snprintf. rewrite take_ge; [done|]. lia. Qed.
