(* ===== verification/NfsCore.v ===== *)
(** * NfsCore: paths and file handles of the NFS server (user_nfsd_core.c)

    A file handle carries the path of the file, relative to the exported
    directory: four bytes of magic, the path and its NUL.  A handle comes back
    from the network and may be anything, so its path is checked before it is
    joined to the exported directory.  An output buffer is given by its size; the
    callers pass the address of a local array. *)

From Stdlib Require Import String.
From stdpp Require Import base list numbers.
From S2P Require Import Prelude CString.

Local Open Scope Z_scope.

Definition UNFS_MAX_PATH : Z := 1024.
Definition UNFS_FHSIZE : Z := 64.
Definition UNFS_MAGIC : cstr := Eval vm_compute in str "UNFS".
Definition UNFS_MAGIC_LEN : Z := 4.

Record unfs_fh := UnfsFh { fh_len : Z; fh_data : list Z }.

Definition component_is_dotdot (start : cstr) (len : nat) : bool :=
  match start with
  | a :: b :: _ => (len =? 2)%nat && (a =? DOT) && (b =? DOT)
  | _ => false
  end.

(** The loop over the components; every round consumes at least one character. *)
Fixpoint components_safe (fuel : nat) (component : cstr) : bool :=
  match fuel with
  | O => true
  | S fuel' =>
      match component with
      | [] => true
      | _ =>
          let slash := match strchr component SLASH with
                       | Some i => i
                       | None => length component
                       end in
          if component_is_dotdot component slash then false else
          match drop slash component with
          | [] => components_safe fuel' []
          | _ :: rest => components_safe fuel' rest
          end
      end
  end.

Definition unfs_path_is_safe (path : option cstr) : bool :=
  match path with
  | None => false
  | Some p =>
      if match p with c :: _ => c =? SLASH | [] => false end then false
      else components_safe (S (length p)) p
  end.

Definition unfs_fh_from_path (path : option cstr) (fh : option unfs_fh) : Z * option unfs_fh :=
  match fh, path with
  | Some _, Some p =>
      if negb (unfs_path_is_safe path) then (- EINVAL, fh) else
      let len := Z.of_nat (length p) in
      if UNFS_FHSIZE <? UNFS_MAGIC_LEN + len + 1 then (- ENAMETOOLONG, fh) else
      let data := replicate (Z.to_nat UNFS_FHSIZE) 0 in
      let data := memcpy data 0 UNFS_MAGIC in
      let data := memcpy data (Z.to_nat UNFS_MAGIC_LEN) (p ++ [0]) in
      (0, Some (UnfsFh (u32 (UNFS_MAGIC_LEN + len + 1)) data))
  | _, _ => (- EINVAL, fh)
  end.

(** The path stored in the caller's buffer of [path_len] bytes, when there is one.
    A NUL is known to be in the array when [strlen] reads it. *)
Definition unfs_path_from_fh (fh : option unfs_fh) (path_len : Z) : Z * option cstr :=
  match fh with
  | None => (- EINVAL, None)
  | Some fh =>
      if path_len =? 0 then (- EINVAL, None) else
      if (fh_len fh <=? UNFS_MAGIC_LEN) || (UNFS_FHSIZE <? fh_len fh) then (- EINVAL, None) else
      if negb (streq (take (Z.to_nat UNFS_MAGIC_LEN) (fh_data fh)) UNFS_MAGIC) then (- EINVAL, None) else
      if negb (nth (Z.to_nat (fh_len fh - 1)) (fh_data fh) 0 =? 0) then (- EINVAL, None) else
      match cstr_of (drop (Z.to_nat UNFS_MAGIC_LEN) (fh_data fh)) with
      | None => (- EINVAL, None)
      | Some encoded =>
          if path_len <? Z.of_nat (length encoded) + 1 then (- ENAMETOOLONG, None) else
          if negb (unfs_path_is_safe (Some encoded)) then (- EINVAL, None) else
          (0, Some encoded)
      end
  end.

(** [while (root_len > 1 && export_root[root_len - 1] == '/') root_len--]. *)
Fixpoint strip_slashes (root_len : nat) (export_root : cstr) : nat :=
  match root_len with
  | S (S _ as n) => if nth n export_root 0 =? SLASH then strip_slashes n export_root else root_len
  | _ => root_len
  end.

Definition unfs_join_export_path (export_root relpath : option cstr) (out_len : Z) : Z * cstr :=
  match export_root, relpath with
  | Some root, Some rel =>
      if out_len =? 0 then (- EINVAL, []) else
      if negb (unfs_path_is_safe relpath) then (- EINVAL, []) else
      let root_len := strip_slashes (length root) root in
      let '(written, out) :=
        if streq rel [] then snprintf out_len (take root_len root)
        else if (root_len =? 1)%nat && (nth 0 root 0 =? SLASH) then snprintf out_len (SLASH :: rel)
        else snprintf out_len (take root_len root ++ SLASH :: rel) in
      if out_len <=? written then (- ENAMETOOLONG, out) else (0, out)
  | _, _ => (- EINVAL, [])
  end.

(** ** What a path means *)

(** The components of a path, as [split] on '/'. *)
Fixpoint components (p : cstr) : list cstr :=
  match p with
  | [] => [[]]
  | c :: p' =>
      if c =? SLASH then [] :: components p'
      else match components p' with
           | w :: ws => (c :: w) :: ws
           | [] => [[c]]
           end
  end.

(** Following the components from a directory, itself the list of names from the
    root, without symbolic links: an empty component and "." stay, ".." goes up. *)
Fixpoint walk (dir : list cstr) (ws : list cstr) : list cstr :=
  match ws with
  | [] => dir
  | w :: ws' =>
      if streq w [] || streq w [DOT] then walk dir ws'
      else if streq w [DOT; DOT] then walk (removelast dir) ws'
      else walk (dir ++ [w]) ws'
  end.

(** The directory or file a path names. *)
Definition resolve (p : cstr) : list cstr := walk [] (components p).

(** [p] is below the directory [root]. *)
Definition below (root p : cstr) : Prop := resolve root `prefix_of` resolve p.

(** ** The components of a path *)

Lemma components_nonempty p : components p <> [].
Proof. destruct p as [|c p]; [done|]. simpl. destruct (c =? SLASH); [done|]. by destruct (components p). Qed.

Lemma components_app_slash a b : components (a ++ SLASH :: b) = components a ++ components b.
Proof.
  induction a as [|c a IH]; [done|]. simpl. rewrite IH.
  destruct (c =? SLASH); [done|]. pose proof (components_nonempty a).
  by destruct (components a).
Qed.

Lemma components_no_slash p : ~ In SLASH p -> components p = [p].
Proof.
  induction p as [|c p IH]; intros H; [done|]. simpl.
  destruct (Z.eqb_spec c SLASH) as [->|Hc]; [exfalso; apply H; by left|].
  rewrite IH; [done|]. intros ?. apply H. by right.
Qed.

Lemma components_slashes a k : components (a ++ replicate k SLASH) = components a ++ replicate k [].
Proof.
  revert a; induction k as [|k IH]; intros a; simpl; [by rewrite !app_nil_r|].
  rewrite components_app_slash. f_equal. apply (IH []).
Qed.

(** No component is "..": the loop of [unfs_path_is_safe] decides it. *)
Definition no_dotdot (p : cstr) : bool := forallb (fun w => negb (streq w [DOT; DOT])) (components p).

Lemma component_is_dotdot_spec s len :
  (len <= length s)%nat -> component_is_dotdot s len = streq (take len s) [DOT; DOT].
Proof.
  intros H. apply eq_true_iff_eq. rewrite streq_true. unfold component_is_dotdot.
  destruct s as [|a [|b s]]; simpl in H.
  - destruct len; [|lia]. done.
  - destruct len as [|[|]]; try lia; done.
  - rewrite !andb_true_iff, !Z.eqb_eq, Nat.eqb_eq. split.
    + intros ((-> & ->) & ->). done.
    + destruct len as [|[|[|len]]]; try done; [by intros [= -> ->]|].
      destruct s; [simpl in H; lia|done].
Qed.

Lemma components_safe_spec fuel p : (length p < fuel)%nat -> components_safe fuel p = no_dotdot p.
Proof.
  revert p; induction fuel as [|fuel IH]; intros p H; [lia|].
  destruct p as [|c p']; [done|]. cbn [components_safe]. set (p := c :: p') in *.
  assert (Hne : (0 < length p)%nat) by (simpl; lia). clearbody p.
  destruct (strchr p SLASH) as [i|] eqn:E.
  - apply strchr_Some in E as (rest & Hp & Hi & Hd). rewrite Hd.
    assert (Hl : (i < length p)%nat).
    { apply (f_equal length) in Hd. rewrite length_drop in Hd. simpl in Hd. lia. }
    rewrite component_is_dotdot_spec by lia. unfold no_dotdot. rewrite Hp.
    rewrite components_app_slash, forallb_app, (components_no_slash (take i p)) by done.
    rewrite <- Hp. simpl. rewrite andb_true_r. destruct (streq _ _) eqn:?; [done|].
    apply IH. apply (f_equal length) in Hd. rewrite length_drop in Hd. simpl in *. lia.
  - apply strchr_None in E. rewrite component_is_dotdot_spec by lia. rewrite take_ge, drop_ge by lia.
    unfold no_dotdot. rewrite components_no_slash by done. simpl.
    destruct (streq p _); [done|]. rewrite IH; [done|]. simpl. lia.
Qed.

(** A safe path is relative and climbs nowhere. *)
Lemma unfs_path_is_safe_spec p :
  unfs_path_is_safe (Some p) = true <->
  (forall q, p <> SLASH :: q) /\ Forall (fun w => w <> [DOT; DOT]) (components p).
Proof.
  unfold unfs_path_is_safe. rewrite components_safe_spec by lia.
  assert (Hd : no_dotdot p = true <-> Forall (fun w => w <> [DOT; DOT]) (components p)).
  { unfold no_dotdot. rewrite forallb_forall, List.Forall_forall.
    split; intros H w Hw; specialize (H w Hw); [by apply negb_true_iff, streq_false in H|].
    by apply negb_true_iff, streq_false. }
  destruct p as [|c p]; [by rewrite Hd; split; [intros ?; split|intros []]|].
  destruct (Z.eqb_spec c SLASH) as [->|Hc].
  - split; [done|]. intros [H _]. by destruct (H p).
  - rewrite Hd. split; [intros ?; split; [congruence|done]|by intros []].
Qed.

(** ** Walking *)

Lemma walk_app dir a b : walk dir (a ++ b) = walk (walk dir a) b.
Proof. revert dir; induction a as [|w a IH]; intros dir; simpl; [done|]. by repeat case_match. Qed.

Lemma walk_stay dir ws : Forall (fun w => w <> [DOT; DOT]) ws -> dir `prefix_of` walk dir ws.
Proof.
  intros H; revert dir; induction H as [|w ws Hw _ IH]; intros dir; simpl; [done|].
  case_match; [done|]. case_match eqn:E; [by apply streq_true in E|].
  etrans; [|apply IH]. by apply prefix_app_r.
Qed.

Lemma walk_empties dir k : walk dir (replicate k []) = dir.
Proof. by induction k. Qed.

Lemma resolve_slashes a k : resolve (a ++ replicate k SLASH) = resolve a.
Proof. unfold resolve. by rewrite components_slashes, walk_app, walk_empties. Qed.

Lemma strip_slashes_le n root : (strip_slashes n root <= n)%nat.
Proof.
  induction n as [|n IH]; [done|]. cbn [strip_slashes]. destruct n; [done|].
  case_match; [|done]. lia.
Qed.

Lemma strip_slashes_spec n root :
  (n <= length root)%nat ->
  exists k, take n root = take (strip_slashes n root) root ++ replicate k SLASH.
Proof.
  induction n as [|n IH]; intros H; [by exists O|]. cbn [strip_slashes].
  destruct n as [|n]; [exists O; by rewrite app_nil_r|].
  case_match eqn:E; [|exists O; by rewrite app_nil_r].
  destruct (IH ltac:(lia)) as [k Hk]. exists (S k).
  destruct (nth_lookup_or_length root (S n) 0) as [Hl|]; [|lia].
  apply Z.eqb_eq in E. rewrite E in Hl.
  rewrite (take_S_r _ _ _ Hl), Hk, <- app_assoc. f_equal.
  change [SLASH] with (replicate 1 SLASH). rewrite <- replicate_add. f_equal. lia.
Qed.

Lemma resolve_strip root : resolve (take (strip_slashes (length root) root) root) = resolve root.
Proof.
  destruct (strip_slashes_spec (length root) root (le_n _)) as [k Hk].
  rewrite firstn_all in Hk. by rewrite <- (resolve_slashes (take _ _) k), <- Hk.
Qed.

(** ** What the functions return *)

(** A joined path is below the exported directory, whatever was sent. *)
Lemma join_below root rel size out :
  unfs_join_export_path (Some root) rel size = (0, out) -> below root out.
Proof.
  destruct rel as [rel|]; [|done]. unfold unfs_join_export_path, below.
  destruct (size =? 0); [done|]. destruct (unfs_path_is_safe (Some rel)) eqn:Hs; [|done]. cbn [negb].
  apply unfs_path_is_safe_spec in Hs as [_ Hs].
  assert (Hw : forall a, resolve root `prefix_of` resolve a -> forall out,
             (if size <=? Z.of_nat (length (a ++ SLASH :: rel)) then (- ENAMETOOLONG, take (Z.to_nat (size - 1)) (a ++ SLASH :: rel))
              else (0, take (Z.to_nat (size - 1)) (a ++ SLASH :: rel))) = (0, out) ->
             resolve root `prefix_of` resolve out).
  { intros a Ha out' H. case_match eqn:E; [done|]. apply Z.leb_gt in E. injection H as <-.
    rewrite take_ge by lia. etrans; [exact Ha|]. unfold resolve.
    rewrite components_app_slash, walk_app. by apply walk_stay. }
  set (n := strip_slashes (length root) root) in *.
  assert (Hn : resolve (take n root) = resolve root) by apply resolve_strip.
  destruct (streq rel []) eqn:Er.
  - unfold snprintf. case_match eqn:E; [done|]. intros [= <-]. apply Z.leb_gt in E.
    rewrite (take_ge _ (Z.to_nat _)) by lia. by rewrite Hn.
  - unfold snprintf. destruct (_ && _) eqn:E; [|apply Hw; by rewrite Hn].
    apply andb_true_iff in E as [E1 E2]. apply Nat.eqb_eq in E1. apply Z.eqb_eq in E2.
    apply (Hw []). rewrite <- Hn, E1. destruct root as [|c root]; [done|].
    simpl in E2. subst c. done.
Qed.

(** Of a handle whose last byte is NUL, [strlen] stays inside the array. *)
Lemma handle_has_nul fh :
  length (fh_data fh) = Z.to_nat UNFS_FHSIZE -> UNFS_MAGIC_LEN < fh_len fh <= UNFS_FHSIZE ->
  nth (Z.to_nat (fh_len fh - 1)) (fh_data fh) 0 = 0 ->
  is_Some (cstr_of (drop (Z.to_nat UNFS_MAGIC_LEN) (fh_data fh))).
Proof.
  unfold UNFS_FHSIZE, UNFS_MAGIC_LEN. intros Hd Hl Hz. apply cstr_of_Some.
  apply list_elem_of_In, list_elem_of_lookup. exists (Z.to_nat (fh_len fh - 5)).
  rewrite lookup_drop. destruct (nth_lookup_or_length (fh_data fh) (Z.to_nat (fh_len fh - 1)) 0) as [H|H]; [|lia].
  rewrite Hz in H. rewrite <- H. f_equal. lia.
Qed.

(** What comes out of a handle is safe and fits the buffer. *)
Lemma path_from_fh_safe fh size path :
  unfs_path_from_fh fh size = (0, Some path) ->
  unfs_path_is_safe (Some path) = true /\ no_nul path /\ Z.of_nat (length path) < size.
Proof.
  destruct fh as [fh|]; [|done]. unfold unfs_path_from_fh.
  do 4 (case_match; [done|]).
  destruct (cstr_of _) as [e|] eqn:E; [|done].
  case_match eqn:E2; [done|]. destruct (unfs_path_is_safe (Some e)) eqn:?; [|done].
  intros [= <-]. repeat split; [done|by eapply cstr_of_no_nul|]. apply Z.ltb_ge in E2. lia.
Qed.

Lemma path_from_fh_code fh size : exists path,
  unfs_path_from_fh fh size = (0, Some path) \/
  (exists e, unfs_path_from_fh fh size = (- e, None) /\ 0 < e).
Proof.
  unfold unfs_path_from_fh.
  repeat case_match; (by eexists; left) || (exists []; right; eexists; split; [reflexivity|done]).
Qed.

(** The data of a handle made from a path. *)
Definition handle_bytes (p : cstr) : list Z :=
  UNFS_MAGIC ++ p ++ 0 :: replicate (Z.to_nat UNFS_FHSIZE - 5 - length p) 0.

Lemma fh_from_path_ok p fh :
  unfs_path_is_safe (Some p) = true -> Z.of_nat (length p) <= 59 ->
  unfs_fh_from_path (Some p) (Some fh) = (0, Some (UnfsFh (Z.of_nat (length p) + 5) (handle_bytes p))).
Proof.
  intros Hs Hl. unfold unfs_fh_from_path. rewrite Hs. cbn [negb].
  unfold UNFS_FHSIZE, UNFS_MAGIC_LEN.
  destruct (Z.ltb_spec 64 (4 + Z.of_nat (length p) + 1)); [lia|]. do 3 f_equal.
  - rewrite u32_id by (unfold is_u32, U32_MAX; lia). lia.
  - unfold memcpy, handle_bytes. change (Z.to_nat 4) with 4%nat. rewrite length_app. cbn [length].
    change (Z.to_nat 64) with 64%nat. change (length UNFS_MAGIC) with 4%nat.
    rewrite take_0. cbn [app Nat.add]. rewrite take_app_ge by (cbn; lia).
    change (take (4 - length UNFS_MAGIC) _) with (@nil Z). rewrite app_nil_r, <- app_assoc. f_equal.
    f_equal. cbn [app]. f_equal. rewrite drop_app_ge by (cbn; lia).
    change (length UNFS_MAGIC) with 4%nat. rewrite !drop_replicate.
    unfold UNFS_FHSIZE. f_equal. lia.
Qed.

Lemma fh_from_path_long p fh :
  unfs_path_is_safe (Some p) = true -> 59 < Z.of_nat (length p) ->
  unfs_fh_from_path (Some p) (Some fh) = (- ENAMETOOLONG, Some fh).
Proof.
  intros Hs Hl. unfold unfs_fh_from_path. rewrite Hs. cbn [negb]. unfold UNFS_FHSIZE, UNFS_MAGIC_LEN.
  by destruct (Z.ltb_spec 64 (4 + Z.of_nat (length p) + 1)); [|lia].
Qed.

Lemma nth_handle_end p n : nth (4 + length p) (UNFS_MAGIC ++ p ++ 0 :: n) 0 = 0.
Proof. change 4%nat with (length UNFS_MAGIC). by rewrite app_nth2_plus, nth_middle. Qed.

(** The path of a handle is the one it was made from. *)
Lemma path_of_handle p size :
  no_nul p -> unfs_path_is_safe (Some p) = true -> Z.of_nat (length p) <= 59 -> 64 <= size ->
  unfs_path_from_fh (Some (UnfsFh (Z.of_nat (length p) + 5) (handle_bytes p))) size = (0, Some p).
Proof.
  intros Hn Hs Hl Hsz. unfold unfs_path_from_fh. cbn [fh_len fh_data].
  unfold UNFS_FHSIZE, UNFS_MAGIC_LEN.
  destruct (Z.eqb_spec size 0); [lia|].
  destruct (Z.leb_spec (Z.of_nat (length p) + 5) 4); [lia|].
  destruct (Z.ltb_spec 64 (Z.of_nat (length p) + 5)); [lia|]. cbn [orb].
  change (take (Z.to_nat 4) (handle_bytes p)) with UNFS_MAGIC.
  change (drop (Z.to_nat 4) (handle_bytes p)) with (p ++ 0 :: replicate (64 - 5 - length p) 0).
  replace (streq UNFS_MAGIC UNFS_MAGIC) with true by (symmetry; by apply streq_true).
  replace (Z.to_nat (Z.of_nat (length p) + 5 - 1)) with (4 + length p)%nat by lia.
  unfold handle_bytes. rewrite nth_handle_end, cstr_of_app, Hs by done. cbn [negb Z.eqb].
  by destruct (Z.ltb_spec size (Z.of_nat (length p) + 1)); [lia|].
Qed.
