(* ===== verification/NfsServer.v ===== *)
(** * NfsServer: the procedures of the NFS server (user_nfsd.c)

    The server keeps no table of open files: a request carries a file handle, the
    handle a path, and the procedure makes system calls on that path.  The operating
    system is a parameter, the class [Posix]: what it answers to a call may depend on
    everything that happened before.  Every call is logged with its answer, so that
    a theorem can speak about what the server did.  Here arguments are decoded and
    results are values; [NfsXdr] and [NfsRpc] have the way to and from the wire.

    A reply is a C union with a status beside it: [status] is what the client will
    look at, [union] the member that was filled in. *)

From Stdlib Require Import String.
From stdpp Require Import base list numbers.
From S2P Require Import Prelude CString NfsCore.

Local Open Scope Z_scope.
Local Open Scope fs_scope.

(** ** The operating system *)

Definition timespec : Type := Z * Z.

Record stat := Stat {
  st_mode : Z; st_nlink : Z; st_uid : Z; st_gid : Z; st_size : Z; st_blocks : Z;
  st_dev : Z; st_ino : Z; st_atim : timespec; st_mtim : timespec; st_ctim : timespec
}.

Record dirent := Dirent { d_ino : Z; d_name : cstr }.

Inductive syscall :=
  | Lstat (path : cstr)
  | StatPath (path : cstr)
  | Access (path : cstr) (mode : Z)
  | Open (path : cstr) (flags mode : Z)
  | Chmod (path : cstr) (mode : Z)
  | Chown (path : cstr) (uid gid : Z)
  | Truncate (path : cstr) (size : Z)
  | Utimensat (path : cstr) (atime mtime : timespec)
  | Unlink (path : cstr)
  | Opendir (path : cstr)
  | Readdir (dir : Z)
  | Closedir (dir : Z)
  | Pread (fd count offset : Z)
  | Pwrite (fd : Z) (data : list Z) (offset : Z)
  | Fsync (fd : Z)
  | Fstat (fd : Z)
  | Close (fd : Z)
  | Malloc (size : Z)
  | Realpath (path : cstr)
  | Socket | SetReuseaddr (fd : Z) | Bind (fd port : Z) | Listen (fd : Z)
  | SvctcpCreate (fd : Z) | SvcRegister (xprt prog vers : Z) | SvcDestroy (xprt : Z)
  | SvcRun.

(** A call failed when [a_ret] is negative (a null pointer for those that return
    one); [a_errno] is then the error number. *)
Record answer := Answer {
  a_ret : Z; a_errno : Z; a_stat : stat; a_data : list Z; a_dirent : option dirent
}.

Class Posix := {
  OS : Type;
  os_step : OS -> syscall -> answer * OS
}.

Record server {P : Posix} := Server {
  export_root : cstr;
  read_buf : option (list Z);
  errno : Z;
  log : list (syscall * answer);
  os : OS
}.

Section Server.
Context {P : Posix}.

Definition M : Type -> Type := ST server.

Definition sys (c : syscall) : M answer := fun s =>
  let '(a, o) := os_step (os s) c in
  (a, Server _ (export_root s) (read_buf s) (if a_ret a <? 0 then a_errno a else errno s)
        ((c, a) :: log s) o).

Definition get_errno : M Z := gets errno.
Definition set_read_buf (b : option (list Z)) : M unit :=
  modify (fun s => Server _ (export_root s) b (errno s) (log s) (os s)).
Definition set_export_root (r : cstr) : M unit :=
  modify (fun s => Server _ r (read_buf s) (errno s) (log s) (os s)).

(** ** Constants *)

Definition DEFAULT_NFS_PORT : Z := 3049.
Definition DEFAULT_MOUNT_PORT : Z := 3050.
Definition DEFAULT_MODE : Z := 420.
Definition PATH_MAX : Z := 4096.
Definition NFS3_MAXDATA : Z := 1048576.
Definition NFS3_MAXNAMLEN : Z := 255.

Definition ENODEV : Z := 19.
Definition EMLINK : Z := 31.

Definition F_OK : Z := 0.
Definition X_OK : Z := 1.
Definition W_OK : Z := 2.
Definition R_OK : Z := 4.
Definition O_RDONLY : Z := 0.
Definition O_WRONLY : Z := 1.
Definition O_CREAT : Z := 64.
Definition O_EXCL : Z := 128.
Definition UTIME_NOW : Z := 1073741823.
Definition UTIME_OMIT : Z := 1073741822.
Definition ID_NONE : Z := 4294967295.

Definition ACCESS3_READ : Z := 1.
Definition ACCESS3_LOOKUP : Z := 2.
Definition ACCESS3_MODIFY : Z := 4.
Definition ACCESS3_EXTEND : Z := 8.
Definition ACCESS3_DELETE : Z := 16.
Definition ACCESS3_EXECUTE : Z := 32.

(** The cast of a [uint64] to the signed [off_t]. *)
Definition off_t (z : Z) : Z := let y := u64 z in if y <? 2 ^ 63 then y else y - 2 ^ 64.

(** ** The protocol's types *)

Inductive nfsstat3 :=
  | NFS3_OK | NFS3ERR_PERM | NFS3ERR_NOENT | NFS3ERR_IO | NFS3ERR_NXIO | NFS3ERR_ACCES
  | NFS3ERR_EXIST | NFS3ERR_XDEV | NFS3ERR_NODEV | NFS3ERR_NOTDIR | NFS3ERR_ISDIR
  | NFS3ERR_INVAL | NFS3ERR_FBIG | NFS3ERR_NOSPC | NFS3ERR_ROFS | NFS3ERR_MLINK
  | NFS3ERR_NAMETOOLONG | NFS3ERR_NOTEMPTY | NFS3ERR_DQUOT | NFS3ERR_STALE | NFS3ERR_REMOTE
  | NFS3ERR_BADHANDLE | NFS3ERR_NOT_SYNC | NFS3ERR_BAD_COOKIE | NFS3ERR_NOTSUPP
  | NFS3ERR_TOOSMALL | NFS3ERR_SERVERFAULT | NFS3ERR_BADTYPE | NFS3ERR_JUKEBOX.

#[global] Instance nfsstat3_eq_dec : EqDecision nfsstat3.
Proof. solve_decision. Defined.

Inductive mountstat3 :=
  | MNT3_OK | MNT3ERR_PERM | MNT3ERR_NOENT | MNT3ERR_IO | MNT3ERR_ACCES | MNT3ERR_NOTDIR
  | MNT3ERR_INVAL | MNT3ERR_NAMETOOLONG | MNT3ERR_NOTSUPP | MNT3ERR_SERVERFAULT.

Inductive ftype3 := NF3REG | NF3DIR | NF3BLK | NF3CHR | NF3LNK | NF3SOCK | NF3FIFO.

Record specdata3 := Specdata3 { specdata1 : Z; specdata2 : Z }.
Record nfstime3 := Nfstime3 { seconds : Z; nseconds : Z }.

Record fattr3 := Fattr3 {
  type : ftype3; mode : Z; nlink : Z; uid : Z; gid : Z; size : Z; used : Z;
  rdev : specdata3; fsid : Z; fileid : Z; atime : nfstime3; mtime : nfstime3; ctime : nfstime3
}.

(** [attributes_follow] and the attributes. *)
Definition post_op_attr : Type := option fattr3.
Record wcc_attr := WccAttr { wcc_size : Z; wcc_mtime : nfstime3; wcc_ctime : nfstime3 }.
Definition pre_op_attr : Type := option wcc_attr.
Record wcc_data := WccData { before : pre_op_attr; after : post_op_attr }.

(** [data_val], of [data_len] bytes. *)
Definition nfs_fh3 : Type := list Z.
Record diropargs3 := Diropargs3 { dir : nfs_fh3; name : option cstr }.

Inductive set_time := DONT_CHANGE | SET_TO_SERVER_TIME | SET_TO_CLIENT_TIME (t : nfstime3).
Record sattr3 := Sattr3 {
  sa_mode : option Z; sa_uid : option Z; sa_gid : option Z; sa_size : option Z;
  sa_atime : set_time; sa_mtime : set_time
}.
Inductive createhow3 := UNCHECKED (a : sattr3) | GUARDED (a : sattr3) | EXCLUSIVE (verf : list Z).
(** A value that is none of the three passes through the code unchecked. *)
Inductive stable_how := UNSTABLE | DATA_SYNC | FILE_SYNC | STABLE_VALUE (v : Z).

Record res (A B : Type) := Res { status : nfsstat3; union : A + B }.
#[global] Arguments Res {A B}.
#[global] Arguments status {A B}.
#[global] Arguments union {A B}.

Record LOOKUP3resok := LookupOk { lk_object : nfs_fh3; lk_attributes : post_op_attr; lk_dir : post_op_attr }.
Record ACCESS3resok := AccessOk { ac_attributes : post_op_attr; ac_access : Z }.
Record READ3resok := ReadOk { rd_attributes : post_op_attr; rd_count : Z; rd_eof : bool; rd_data : list Z }.
Record WRITE3resok := WriteOk { wr_wcc : wcc_data; wr_count : Z; wr_committed : stable_how; wr_verf : list Z }.
Record CREATE3resok := CreateOk { cr_obj : option nfs_fh3; cr_attributes : post_op_attr; cr_wcc : wcc_data }.
Record entry3 := Entry3 { e_fileid : Z; e_name : cstr; e_cookie : Z }.
Record READDIR3resok := ReaddirOk { rdd_attributes : post_op_attr; rdd_verf : list Z;
                                    rdd_entries : list entry3; rdd_eof : bool }.
Record FSINFO3resok := FsinfoOk {
  fi_attributes : post_op_attr; rtmax : Z; rtpref : Z; rtmult : Z; wtmax : Z; wtpref : Z; wtmult : Z;
  dtpref : Z; maxfilesize : Z; time_delta : nfstime3; properties : Z
}.
Record mountres3_ok := MountOk { fhandle : list Z; auth_flavors : list Z }.

(** What [memset(res, 0, sizeof( *res))] leaves in a [wcc_data]. *)
Definition wcc_zero : wcc_data := WccData None None.

(** ** Helpers *)

Definition errno_to_nfs3 (err : Z) : nfsstat3 :=
  if err =? 0 then NFS3_OK
  else if err =? EPERM then NFS3ERR_PERM
  else if err =? ENOENT then NFS3ERR_NOENT
  else if err =? EACCES then NFS3ERR_ACCES
  else if err =? EEXIST then NFS3ERR_EXIST
  else if err =? EXDEV then NFS3ERR_XDEV
  else if err =? ENODEV then NFS3ERR_NODEV
  else if err =? ENOTDIR then NFS3ERR_NOTDIR
  else if err =? EISDIR then NFS3ERR_ISDIR
  else if err =? EINVAL then NFS3ERR_INVAL
  else if err =? EFBIG then NFS3ERR_FBIG
  else if err =? ENOSPC then NFS3ERR_NOSPC
  else if err =? EROFS then NFS3ERR_ROFS
  else if err =? EMLINK then NFS3ERR_MLINK
  else if err =? ENAMETOOLONG then NFS3ERR_NAMETOOLONG
  else if err =? ENOTEMPTY then NFS3ERR_NOTEMPTY
  else if err =? EOPNOTSUPP then NFS3ERR_NOTSUPP
  else NFS3ERR_IO.

Definition errno_to_mount3 (err : Z) : mountstat3 :=
  if err =? 0 then MNT3_OK
  else if err =? EPERM then MNT3ERR_PERM
  else if err =? ENOENT then MNT3ERR_NOENT
  else if err =? EACCES then MNT3ERR_ACCES
  else if err =? ENOTDIR then MNT3ERR_NOTDIR
  else if err =? EINVAL then MNT3ERR_INVAL
  else if err =? ENAMETOOLONG then MNT3ERR_NAMETOOLONG
  else MNT3ERR_IO.

Definition nfstime_from_stat (src : timespec) : nfstime3 := Nfstime3 (u32 (fst src)) (u32 (snd src)).

(** The type bits of a mode. *)
Definition S_IFMT (mode : Z) : Z := Z.land mode 61440.
Definition S_ISDIR (mode : Z) : bool := S_IFMT mode =? 16384.

Definition ftype_from_mode (mode : Z) : ftype3 :=
  if S_IFMT mode =? 32768 then NF3REG
  else if S_ISDIR mode then NF3DIR
  else if S_IFMT mode =? 24576 then NF3BLK
  else if S_IFMT mode =? 8192 then NF3CHR
  else if S_IFMT mode =? 40960 then NF3LNK
  else if S_IFMT mode =? 49152 then NF3SOCK
  else if S_IFMT mode =? 4096 then NF3FIFO
  else NF3REG.

Definition fill_fattr (st : stat) : fattr3 :=
  Fattr3 (ftype_from_mode (st_mode st)) (u32 (Z.land (st_mode st) 4095)) (u32 (st_nlink st))
    (u32 (st_uid st)) (u32 (st_gid st)) (u64 (st_size st)) (u64 (u64 (st_blocks st) * 512))
    (Specdata3 0 0) (u64 (st_dev st)) (u64 (st_ino st)) (nfstime_from_stat (st_atim st))
    (nfstime_from_stat (st_mtim st)) (nfstime_from_stat (st_ctim st)).

Definition fill_post_attr (path : cstr) : M post_op_attr :=
  let! a := sys (Lstat path) in
  ret (if a_ret a =? 0 then Some (fill_fattr (a_stat a)) else None).

Definition fill_pre_attr_from_stat (st : stat) : pre_op_attr :=
  Some (WccAttr (u64 (st_size st)) (nfstime_from_stat (st_mtim st)) (nfstime_from_stat (st_ctim st))).

(** [before] is [None] when [have_before] is false. *)
Definition fill_wcc (path : cstr) (before : option stat) : M wcc_data :=
  let! after := fill_post_attr path in
  ret (WccData (match before with Some st => fill_pre_attr_from_stat st | None => None end) after).

(** [have_before = lstat(path, &before) == 0]. *)
Definition stat_before (path : cstr) : M (option stat) :=
  let! a := sys (Lstat path) in
  ret (if a_ret a =? 0 then Some (a_stat a) else None).

Definition nfsfh_to_relpath (fh : nfs_fh3) (relpath_len : Z) : Z * option cstr :=
  if UNFS_FHSIZE <? Z.of_nat (length fh) then (- EINVAL, None) else
  let data := memcpy (replicate (Z.to_nat UNFS_FHSIZE) 0) 0 fh in
  unfs_path_from_fh (Some (UnfsFh (Z.of_nat (length fh)) data)) relpath_len.

(** Every handle the server makes lives in a static [struct unfs_fh]. *)
Definition relpath_to_core_fh (relpath : cstr) : Z * option unfs_fh :=
  unfs_fh_from_path (Some relpath) (Some (UnfsFh 0 (replicate (Z.to_nat UNFS_FHSIZE) 0))).

Definition set_nfsfh (src : option unfs_fh) : nfs_fh3 :=
  match src with
  | Some fh => take (Z.to_nat (fh_len fh)) (fh_data fh)
  | None => []
  end.

(** The code, the relative path and the full path. *)
Definition fullpath_from_fh (fh : nfs_fh3) : M (Z * cstr * cstr) :=
  let! root := gets export_root in
  let '(r, rel) := nfsfh_to_relpath fh UNFS_MAX_PATH in
  if r <? 0 then ret (r, default [] rel, []) else
  let '(r, full) := unfs_join_export_path (Some root) rel PATH_MAX in
  ret (r, default [] rel, full).

Definition validate_name (name : option cstr) : Z :=
  match name with
  | None => - EINVAL
  | Some n =>
      if streq n [] then - EINVAL
      else if bool_decide (is_Some (strchr n SLASH)) then - EINVAL
      else if streq n (str "..") then - EINVAL
      else 0
  end.

Definition child_relpath (dir : cstr) (name : option cstr) (out_len : Z) : Z * cstr :=
  if validate_name name <? 0 then (- EINVAL, []) else
  let n := default [] name in
  let '(written, out) :=
    if streq n (str ".") then snprintf out_len dir
    else if streq dir [] then snprintf out_len n
    else snprintf out_len (dir ++ SLASH :: n) in
  if out_len <=? written then (- ENAMETOOLONG, out)
  else if negb (unfs_path_is_safe (Some out)) then (- EINVAL, out)
  else (0, out).

Definition create_mode_from_args (how : createhow3) : Z :=
  match how with
  | UNCHECKED a | GUARDED a =>
      match sa_mode a with Some m => Z.land m 4095 | None => DEFAULT_MODE end
  | EXCLUSIVE _ => DEFAULT_MODE
  end.

(** ** The NFS procedures *)

Definition nfsproc3_getattr_3_svc (object : nfs_fh3) : M (res fattr3 unit) :=
  let! (r, _, full) := fullpath_from_fh object in
  if r <? 0 then ret (Res NFS3ERR_BADHANDLE (inr tt)) else
  let! a := sys (Lstat full) in
  if a_ret a <? 0 then
    let! e := get_errno in ret (Res (errno_to_nfs3 e) (inr tt))
  else ret (Res NFS3_OK (inl (fill_fattr (a_stat a)))).

Definition timespec_from_nfs (src : nfstime3) : timespec := (seconds src, nseconds src).

(** One entry of [times] and whether it asks for a change; [tv_sec] is left unset,
    and not looked at, beside [UTIME_OMIT] and [UTIME_NOW]. *)
Definition utime_of (t : set_time) : timespec * bool :=
  match t with
  | DONT_CHANGE => ((0, UTIME_OMIT), false)
  | SET_TO_SERVER_TIME => ((0, UTIME_NOW), true)
  | SET_TO_CLIENT_TIME c => (timespec_from_nfs c, true)
  end.

(** The changes in order; the first that fails ends them. *)
Definition apply_sattr (full : cstr) (new : sattr3) : M bool :=
  let! ok := match sa_mode new with
             | Some m => let! a := sys (Chmod full (Z.land m 4095)) in ret (negb (a_ret a <? 0))
             | None => ret true
             end in
  if negb ok then ret false else
  let! ok := match sa_uid new, sa_gid new with
             | None, None => ret true
             | u, g => let! a := sys (Chown full (default ID_NONE u) (default ID_NONE g)) in
                       ret (negb (a_ret a <? 0))
             end in
  if negb ok then ret false else
  let! ok := match sa_size new with
             | Some sz => let! a := sys (Truncate full (off_t sz)) in ret (negb (a_ret a <? 0))
             | None => ret true
             end in
  if negb ok then ret false else
  let '(t0, c0) := utime_of (sa_atime new) in
  let '(t1, c1) := utime_of (sa_mtime new) in
  if c0 || c1 then
    let! a := sys (Utimensat full t0 t1) in ret (negb (a_ret a <? 0))
  else ret true.

Definition nfsproc3_setattr_3_svc (object : nfs_fh3) (new : sattr3) (guard : option nfstime3) :
    M (res wcc_data wcc_data) :=
  let! (r, _, full) := fullpath_from_fh object in
  if r <? 0 then ret (Res NFS3ERR_BADHANDLE (inr wcc_zero)) else
  let! before := stat_before full in
  match before with
  | None =>
      let! e := get_errno in
      let! wcc := fill_wcc full None in
      ret (Res (errno_to_nfs3 e) (inr wcc))
  | Some st =>
      if match guard with
         | Some t => negb (u32 (fst (st_ctim st)) =? seconds t) || negb (u32 (snd (st_ctim st)) =? nseconds t)
         | None => false
         end then
        let! wcc := fill_wcc full before in ret (Res NFS3ERR_NOT_SYNC (inr wcc))
      else
      let! ok := apply_sattr full new in
      if ok then let! wcc := fill_wcc full before in ret (Res NFS3_OK (inl wcc))
      else
        let! e := get_errno in
        let! wcc := fill_wcc full before in
        ret (Res (errno_to_nfs3 e) (inr wcc))
  end.

Definition nfsproc3_lookup_3_svc (what : diropargs3) : M (res LOOKUP3resok post_op_attr) :=
  let! (r, dir_rel, dir_full) := fullpath_from_fh (dir what) in
  if r <? 0 then ret (Res NFS3ERR_BADHANDLE (inr None)) else
  let fail st := let! attr := fill_post_attr dir_full in ret (Res st (inr attr)) in
  let! root := gets export_root in
  let '(r, child_rel) := child_relpath dir_rel (name what) UNFS_MAX_PATH in
  if r <? 0 then fail (errno_to_nfs3 (- r)) else
  let '(r, child_full) := unfs_join_export_path (Some root) (Some child_rel) PATH_MAX in
  if r <? 0 then fail (errno_to_nfs3 (- r)) else
  let! a := sys (Lstat child_full) in
  if a_ret a <? 0 then let! e := get_errno in fail (errno_to_nfs3 e) else
  let '(r, object_fh) := relpath_to_core_fh child_rel in
  if r <? 0 then fail (errno_to_nfs3 (- r)) else
  let! attr := fill_post_attr dir_full in
  ret (Res NFS3_OK (inl (LookupOk (set_nfsfh object_fh) (Some (fill_fattr (a_stat a))) attr))).

(** One bit of the reply to ACCESS. *)
Definition grant (full : cstr) (asked bit mode granted : Z) : M Z :=
  if negb (Z.land asked bit =? 0) then
    let! a := sys (Access full mode) in
    ret (if a_ret a =? 0 then Z.lor granted bit else granted)
  else ret granted.

Definition nfsproc3_access_3_svc (object : nfs_fh3) (access : Z) : M (res ACCESS3resok post_op_attr) :=
  let! (r, _, full) := fullpath_from_fh object in
  if r <? 0 then ret (Res NFS3ERR_BADHANDLE (inr None)) else
  let! a := sys (Access full F_OK) in
  if a_ret a <? 0 then
    let! e := get_errno in
    let! attr := fill_post_attr full in
    ret (Res (errno_to_nfs3 e) (inr attr))
  else
  let! granted := grant full access ACCESS3_READ R_OK 0 in
  let! granted := grant full access ACCESS3_LOOKUP X_OK granted in
  let! granted := grant full access ACCESS3_MODIFY W_OK granted in
  let! granted := grant full access ACCESS3_EXTEND W_OK granted in
  let! granted := grant full access ACCESS3_DELETE W_OK granted in
  let! granted := grant full access ACCESS3_EXECUTE X_OK granted in
  let! attr := fill_post_attr full in
  ret (Res NFS3_OK (inl (AccessOk attr granted))).

Definition nfsproc3_read_3_svc (file : nfs_fh3) (offset count : Z) : M (res READ3resok post_op_attr) :=
  run! set_read_buf None in
  let! (r, _, full) := fullpath_from_fh file in
  if r <? 0 then ret (Res NFS3ERR_BADHANDLE (inr None)) else
  let! a := sys (Open full O_RDONLY 0) in
  let fd := a_ret a in
  if fd <? 0 then
    let! e := get_errno in
    let! attr := fill_post_attr full in
    ret (Res (errno_to_nfs3 e) (inr attr))
  else
  let count := if NFS3_MAXDATA <? count then NFS3_MAXDATA else count in
  let! m := sys (Malloc (if count =? 0 then 1 else count)) in
  if a_ret m <? 0 then
    run! sys (Close fd) in
    let! attr := fill_post_attr full in
    ret (Res NFS3ERR_IO (inr attr))
  else
  let! rd := sys (Pread fd count (off_t offset)) in
  run! set_read_buf (Some (a_data rd)) in
  let nread := a_ret rd in
  let! st := sys (Fstat fd) in
  run! sys (Close fd) in
  if (nread <? 0) || (a_ret st <? 0) then
    let! e := get_errno in
    let! attr := fill_post_attr full in
    ret (Res (errno_to_nfs3 e) (inr attr))
  else
  ret (Res NFS3_OK (inl (ReadOk (Some (fill_fattr (a_stat st))) (u32 nread)
         (u64 (st_size (a_stat st)) <=? u64 (offset + u64 nread)) (take (Z.to_nat nread) (a_data rd))))).

Definition nfsproc3_write_3_svc (file : nfs_fh3) (offset count : Z) (stable : stable_how) (data : list Z) :
    M (res WRITE3resok wcc_data) :=
  let! (r, _, full) := fullpath_from_fh file in
  if r <? 0 then ret (Res NFS3ERR_BADHANDLE (inr wcc_zero)) else
  let! before := stat_before full in
  let! a := sys (Open full O_WRONLY 0) in
  let fd := a_ret a in
  if fd <? 0 then
    let! e := get_errno in
    let! wcc := fill_wcc full before in
    ret (Res (errno_to_nfs3 e) (inr wcc))
  else
  let count := if Z.of_nat (length data) <? count then Z.of_nat (length data) else count in
  let! wr := sys (Pwrite fd (take (Z.to_nat count) data) (off_t offset)) in
  let! nwritten := (if 0 <=? a_ret wr then
                      let! f := sys (Fsync fd) in
                      ret (if a_ret f <? 0 then -1 else a_ret wr)
                    else ret (a_ret wr)) in
  run! sys (Close fd) in
  if nwritten <? 0 then
    let! e := get_errno in
    let! wcc := fill_wcc full before in
    ret (Res (errno_to_nfs3 e) (inr wcc))
  else
  let! wcc := fill_wcc full before in
  ret (Res NFS3_OK (inl (WriteOk wcc (u32 nwritten) FILE_SYNC (replicate 8 66)))).

Definition nfsproc3_create_3_svc (where_ : diropargs3) (how : createhow3) : M (res CREATE3resok wcc_data) :=
  let! (r, dir_rel, dir_full) := fullpath_from_fh (dir where_) in
  if r <? 0 then ret (Res NFS3ERR_BADHANDLE (inr wcc_zero)) else
  let! before := stat_before dir_full in
  let fail st := let! wcc := fill_wcc dir_full before in ret (Res st (inr wcc)) in
  let! root := gets export_root in
  let '(r, child_rel) := child_relpath dir_rel (name where_) UNFS_MAX_PATH in
  if (r <? 0) || streq (default [] (name where_)) (str ".") then
    fail (if r <? 0 then errno_to_nfs3 (- r) else NFS3ERR_EXIST)
  else
  let '(r, child_full) := unfs_join_export_path (Some root) (Some child_rel) PATH_MAX in
  if r <? 0 then fail (errno_to_nfs3 (- r)) else
  let mode := create_mode_from_args how in
  let flags := Z.lor O_WRONLY O_CREAT in
  let flags := match how with UNCHECKED _ => flags | _ => Z.lor flags O_EXCL end in
  let! a := sys (Open child_full flags mode) in
  let fd := a_ret a in
  if fd <? 0 then let! e := get_errno in fail (errno_to_nfs3 e) else
  run! sys (Close fd) in
  let! st := sys (Lstat child_full) in
  if a_ret st <? 0 then let! e := get_errno in fail (errno_to_nfs3 e) else
  let '(r, object_fh) := relpath_to_core_fh child_rel in
  if r <? 0 then fail (errno_to_nfs3 (- r)) else
  let! wcc := fill_wcc dir_full before in
  ret (Res NFS3_OK (inl (CreateOk (Some (set_nfsfh object_fh)) (Some (fill_fattr (a_stat st))) wcc))).

Definition nfsproc3_remove_3_svc (object : diropargs3) : M (res wcc_data wcc_data) :=
  let! (r, dir_rel, dir_full) := fullpath_from_fh (dir object) in
  if r <? 0 then ret (Res NFS3ERR_BADHANDLE (inr wcc_zero)) else
  let! before := stat_before dir_full in
  let fail st := let! wcc := fill_wcc dir_full before in ret (Res st (inr wcc)) in
  let! root := gets export_root in
  let '(r, child_rel) := child_relpath dir_rel (name object) UNFS_MAX_PATH in
  if (r <? 0) || streq (default [] (name object)) (str ".") then
    fail (if r <? 0 then errno_to_nfs3 (- r) else NFS3ERR_INVAL)
  else
  let '(r, child_full) := unfs_join_export_path (Some root) (Some child_rel) PATH_MAX in
  if r <? 0 then fail (errno_to_nfs3 (- r)) else
  let! a := sys (Unlink child_full) in
  if a_ret a <? 0 then let! e := get_errno in fail (errno_to_nfs3 e) else
  let! wcc := fill_wcc dir_full before in
  ret (Res NFS3_OK (inl wcc)).

(** [de] is [None] when [readdir] returned a null pointer.  The entries collected so
    far are [idx] many; the last component of the result is [de == NULL].  A round
    skips an entry, stores one or ends the loop, so [cookie + max_entries + 1]
    rounds are enough whatever the directory holds ([readdir_loop_ends]), but for the
    last 257 cookies, which no directory of fewer than 2^64 - 257 entries gives out. *)
Fixpoint readdir_loop (fuel : nat) (dir max_entries cookie seq : Z) (entries : list entry3) :
    M (option (list entry3 * bool)) :=
  match fuel with
  | O => ret None
  | S fuel' =>
      let! a := sys (Readdir dir) in
      match a_dirent a with
      | None => ret (Some (entries, true))
      | Some de =>
          let seq := u64 (seq + 1) in
          if seq <=? cookie then readdir_loop fuel' dir max_entries cookie seq entries else
          if Z.of_nat (length entries) =? max_entries then ret (Some (entries, false)) else
          let '(_, nm) := snprintf (NFS3_MAXNAMLEN + 1) (d_name de) in
          readdir_loop fuel' dir max_entries cookie seq (entries ++ [Entry3 (u64 (d_ino de)) nm seq])
      end
  end.

(** How many entries a reply holds; the static array has 256. *)
Definition readdir_max (count : Z) : Z :=
  let max_entries := count / 32 in
  let max_entries := if max_entries =? 0 then 1 else max_entries in
  if 256 <? max_entries then 256 else max_entries.

Definition nfsproc3_readdir_3_svc (dir : nfs_fh3) (cookie count : Z) : M (res READDIR3resok post_op_attr) :=
  let! (r, _, full) := fullpath_from_fh dir in
  if r <? 0 then ret (Res NFS3ERR_BADHANDLE (inr None)) else
  let! a := sys (Opendir full) in
  let d := a_ret a in
  if d <? 0 then
    let! e := get_errno in
    let! attr := fill_post_attr full in
    ret (Res (errno_to_nfs3 e) (inr attr))
  else
  let max_entries := readdir_max count in
  let! l := readdir_loop (Z.to_nat (cookie + max_entries + 1)) d max_entries cookie 0 [] in
  let '(entries, eof) := default ([], false) l in
  let! attr := fill_post_attr full in
  run! sys (Closedir d) in
  ret (Res NFS3_OK (inl (ReaddirOk attr (replicate 8 0) entries eof))).

Definition nfsproc3_fsinfo_3_svc (fsroot : nfs_fh3) : M (res FSINFO3resok post_op_attr) :=
  let! (r, _, full) := fullpath_from_fh fsroot in
  if r <? 0 then ret (Res NFS3ERR_BADHANDLE (inr None)) else
  let! attr := fill_post_attr full in
  ret (Res NFS3_OK (inl (FsinfoOk attr NFS3_MAXDATA 65536 4096 NFS3_MAXDATA 65536 4096 4096
                           (2 ^ 63 - 1) (Nfstime3 0 1) 0))).

(** READLINK, MKDIR, SYMLINK, MKNOD, RMDIR, RENAME, LINK, FSSTAT, PATHCONF and COMMIT. *)
Definition unsupported : nfsstat3 := NFS3ERR_NOTSUPP.

Definition nfsproc3_readdirplus_3_svc (dir : nfs_fh3) : M (res unit post_op_attr) :=
  let! (r, _, full) := fullpath_from_fh dir in
  if r =? 0 then let! attr := fill_post_attr full in ret (Res NFS3ERR_NOTSUPP (inr attr))
  else ret (Res NFS3ERR_NOTSUPP (inr None)).

(** ** The mount procedures *)

Definition mountproc3_mnt_3_svc (path : option cstr) : M (mountstat3 * option mountres3_ok) :=
  if negb (bool_decide (path = Some (str "/"))) then ret (MNT3ERR_NOENT, None) else
  let! root := gets export_root in
  let! a := sys (StatPath root) in
  if (a_ret a <? 0) || negb (S_ISDIR (st_mode (a_stat a))) then
    let! e := get_errno in
    ret (errno_to_mount3 (if negb (e =? 0) then e else ENOTDIR), None)
  else
  let '(r, root_fh) := relpath_to_core_fh [] in
  if r <? 0 then ret (errno_to_mount3 (- r), None) else
  ret (MNT3_OK, Some (MountOk (set_nfsfh root_fh) [1])).

(** ** Starting the server *)

Definition LONG_MAX : Z := 2 ^ 63 - 1.
Definition LONG_MIN : Z := - 2 ^ 63.
Definition NFS_PROGRAM : Z := 100003.
Definition NFS_V3 : Z := 3.
Definition MOUNTPROG : Z := 100005.
Definition MOUNTVERS3 : Z := 3.

Definition isspace (c : Z) : bool := (c =? 32) || ((9 <=? c) && (c <=? 13)).
Definition isdigit (c : Z) : bool := (48 <=? c) && (c <=? 57).

Fixpoint skip_space (s : cstr) : cstr :=
  match s with
  | c :: rest => if isspace c then skip_space rest else s
  | [] => s
  end.

(** The value so far, whether there was a digit, and what follows. *)
Fixpoint scan_digits (s : cstr) (value : Z) (any : bool) : Z * bool * cstr :=
  match s with
  | c :: rest => if isdigit c then scan_digits rest (10 * value + (c - 48)) true else (value, any, s)
  | [] => (value, any, s)
  end.

(** [strtol] in base 10: the value, where it ends, and whether [errno] was set. *)
Definition strtol (text : cstr) : Z * cstr * bool :=
  let s := skip_space text in
  let '(neg, s) := match s with
                   | c :: rest => if c =? 43 then (false, rest) else if c =? 45 then (true, rest) else (false, s)
                   | [] => (false, s)
                   end in
  let '(value, any, rest) := scan_digits s 0 false in
  if negb any then (0, text, false) else
  let value := if neg : bool then - value else value in
  if LONG_MAX <? value then (LONG_MAX, rest, true)
  else if value <? LONG_MIN then (LONG_MIN, rest, true)
  else (value, rest, false).

Definition parse_port (text : cstr) : option Z :=
  let '(value, end_, failed) := strtol text in
  if failed || negb (streq end_ []) || (value <=? 0) || (65535 <? value) then None
  else Some value.

(** The listening socket, or -1. *)
Definition make_listener (port : Z) : M Z :=
  let! s := sys Socket in
  let fd := a_ret s in
  if fd <? 0 then ret (-1) else
  let! o := sys (SetReuseaddr fd) in
  if a_ret o <? 0 then run! sys (Close fd) in ret (-1) else
  let! b := sys (Bind fd port) in
  if a_ret b <? 0 then run! sys (Close fd) in ret (-1) else
  let! l := sys (Listen fd) in
  if a_ret l <? 0 then run! sys (Close fd) in ret (-1) else
  ret fd.

Definition register_tcp_service (port prog vers : Z) : M Z :=
  let! fd := make_listener port in
  if fd <? 0 then ret (-1) else
  let! x := sys (SvctcpCreate fd) in
  if a_ret x <? 0 then run! sys (Close fd) in ret (-1) else
  let! g := sys (SvcRegister (a_ret x) prog vers) in
  if a_ret g <? 0 then run! sys (SvcDestroy (a_ret x)) in ret (-1) else
  ret 0.

(** The ports and the root; [None] when the usage is printed. *)
Fixpoint parse_args (argv : list cstr) (nfs_port mount_port : Z) (root : option cstr) :
    option (Z * Z * option cstr) :=
  match argv with
  | [] => Some (nfs_port, mount_port, root)
  | arg :: rest =>
      let other := match root with
                   | None => parse_args rest nfs_port mount_port (Some arg)
                   | Some _ => None
                   end in
      if streq arg (str "--nfs-port") then
        match rest with
        | v :: rest => match parse_port v with
                       | Some n => parse_args rest n mount_port root
                       | None => None
                       end
        | [] => other
        end
      else if streq arg (str "--mount-port") then
        match rest with
        | v :: rest => match parse_port v with
                       | Some n => parse_args rest nfs_port n root
                       | None => None
                       end
        | [] => other
        end
      else other
  end.

(** The exit code; [argv] without the program's name. *)
Definition main (argv : list cstr) : M Z :=
  match parse_args argv DEFAULT_NFS_PORT DEFAULT_MOUNT_PORT None with
  | Some (nfs_port, mount_port, Some root_arg) =>
      let! a := sys (Realpath root_arg) in
      if a_ret a <? 0 then ret 1 else
      run! set_export_root (a_data a) in
      let! r := register_tcp_service nfs_port NFS_PROGRAM NFS_V3 in
      if r <? 0 then ret 1 else
      let! r := register_tcp_service mount_port MOUNTPROG MOUNTVERS3 in
      if r <? 0 then ret 1 else
      run! sys SvcRun in
      ret 1
  | _ => ret 2
  end.

End Server.
