(* ===== verification/NfsXdr.v ===== *)
(** * NfsXdr: the messages on the wire (nfs3_xdr.c, mount3_xdr.c)

    An XDR routine writes a value or reads one, whichever direction its stream has; it
    is modelled by both directions together, [xput] and [xget], each of which may fail.
    The routines of the C library for the basic types are a parameter, [XdrLib]; those
    for the messages are built from them field by field, in the order of the code. *)

From Stdlib Require Import String.
From stdpp Require Import base list numbers.
From S2P Require Import Prelude CString NfsCore NfsServer.

Local Open Scope Z_scope.

Record xdr (A : Type) := Xdr {
  xput : A -> option (list Z);
  xget : list Z -> option (A * list Z)
}.
Arguments Xdr {A}.
Arguments xput {A}.
Arguments xget {A}.

(** The library: numbers, booleans, fixed and counted bytes, strings, optional and
    counted values. *)
Class XdrLib := {
  xdr_u_int : xdr Z;
  xdr_int : xdr Z;
  xdr_u_quad_t : xdr Z;
  xdr_quad_t : xdr Z;
  xdr_bool : xdr bool;
  xdr_enum : xdr Z;
  xdr_opaque : Z -> xdr (list Z);
  xdr_bytes : Z -> xdr (list Z);
  xdr_string : Z -> xdr cstr;
  xdr_pointer : forall A, xdr A -> xdr (option A);
  xdr_array : forall A, Z -> xdr A -> xdr (list A)
}.
Arguments xdr_pointer {_ A}.
Arguments xdr_array {_ A}.

(** ** Fields and unions *)

(** [if (!xdr_c(xdrs, &objp->f)) return FALSE], followed by the rest. *)
Definition xdr_field {R A} (f : R -> A) (c : xdr A) (k : A -> xdr R) : xdr R :=
  Xdr (fun r => match xput c (f r), xput (k (f r)) r with
                | Some b, Some b' => Some (b ++ b')
                | _, _ => None
                end)
      (fun l => match xget c l with Some (a, l') => xget (k a) l' | None => None end).

(** The same for the member of a union.  Writing a member that was not filled in is
    not defined. *)
Definition xdr_arm {R A} (f : R -> option A) (c : xdr A) (k : A -> xdr R) : xdr R :=
  Xdr (fun r => match f r with
                | Some a => match xput c a, xput (k a) r with
                            | Some b, Some b' => Some (b ++ b')
                            | _, _ => None
                            end
                | None => None
                end)
      (fun l => match xget c l with Some (a, l') => xget (k a) l' | None => None end).

Definition xdr_done {R} (r : R) : xdr R := Xdr (fun _ => Some []) (fun l => Some (r, l)).
Definition xdr_fail {R} : xdr R := Xdr (fun _ => None) (fun _ => None).

Declare Scope xdr_scope.
Delimit Scope xdr_scope with xdr.
Notation "'field!' x := f 'via' c 'in' k" := (xdr_field f c (fun x => k))
  (at level 10, x name, f at level 200, c at level 200, k at level 200) : xdr_scope.
Notation "'arm!' x := f 'via' c 'in' k" := (xdr_arm f c (fun x => k))
  (at level 10, x name, f at level 200, c at level 200, k at level 200) : xdr_scope.
Local Open Scope xdr_scope.

Section Messages.
Context {X : XdrLib}.

Definition NFS3_FHSIZE : Z := 64.
Definition NFS3_COOKIEVERFSIZE : Z := 8.
Definition NFS3_CREATEVERFSIZE : Z := 8.
Definition NFS3_WRITEVERFSIZE : Z := 8.
Definition MNTPATHLEN : Z := 1024.
Definition FHSIZE3 : Z := 64.

Definition xdr_void : xdr unit := xdr_done tt.

Definition xdr_uint64 : xdr Z := xdr_u_quad_t.
Definition xdr_int64 : xdr Z := xdr_quad_t.
Definition xdr_uint32 : xdr Z := xdr_u_int.
Definition xdr_int32 : xdr Z := xdr_int.
Definition xdr_filename3 : xdr cstr := xdr_string NFS3_MAXNAMLEN.
Definition xdr_cookie3 : xdr Z := xdr_uint64.
Definition xdr_cookieverf3 : xdr (list Z) := xdr_opaque NFS3_COOKIEVERFSIZE.
Definition xdr_nfs_fh3 : xdr nfs_fh3 := xdr_bytes NFS3_FHSIZE.

(** ** Enumerations *)

Definition nfsstat3_code (s : nfsstat3) : Z :=
  match s with
  | NFS3_OK => 0 | NFS3ERR_PERM => 1 | NFS3ERR_NOENT => 2 | NFS3ERR_IO => 5 | NFS3ERR_NXIO => 6
  | NFS3ERR_ACCES => 13 | NFS3ERR_EXIST => 17 | NFS3ERR_XDEV => 18 | NFS3ERR_NODEV => 19
  | NFS3ERR_NOTDIR => 20 | NFS3ERR_ISDIR => 21 | NFS3ERR_INVAL => 22 | NFS3ERR_FBIG => 27
  | NFS3ERR_NOSPC => 28 | NFS3ERR_ROFS => 30 | NFS3ERR_MLINK => 31 | NFS3ERR_NAMETOOLONG => 63
  | NFS3ERR_NOTEMPTY => 66 | NFS3ERR_DQUOT => 69 | NFS3ERR_STALE => 70 | NFS3ERR_REMOTE => 71
  | NFS3ERR_BADHANDLE => 10001 | NFS3ERR_NOT_SYNC => 10002 | NFS3ERR_BAD_COOKIE => 10003
  | NFS3ERR_NOTSUPP => 10004 | NFS3ERR_TOOSMALL => 10005 | NFS3ERR_SERVERFAULT => 10006
  | NFS3ERR_BADTYPE => 10007 | NFS3ERR_JUKEBOX => 10008
  end.
Definition nfsstat3_all : list nfsstat3 :=
  [NFS3_OK; NFS3ERR_PERM; NFS3ERR_NOENT; NFS3ERR_IO; NFS3ERR_NXIO; NFS3ERR_ACCES; NFS3ERR_EXIST; NFS3ERR_XDEV;
   NFS3ERR_NODEV; NFS3ERR_NOTDIR; NFS3ERR_ISDIR; NFS3ERR_INVAL; NFS3ERR_FBIG; NFS3ERR_NOSPC; NFS3ERR_ROFS;
   NFS3ERR_MLINK; NFS3ERR_NAMETOOLONG; NFS3ERR_NOTEMPTY; NFS3ERR_DQUOT; NFS3ERR_STALE; NFS3ERR_REMOTE;
   NFS3ERR_BADHANDLE; NFS3ERR_NOT_SYNC; NFS3ERR_BAD_COOKIE; NFS3ERR_NOTSUPP; NFS3ERR_TOOSMALL;
   NFS3ERR_SERVERFAULT; NFS3ERR_BADTYPE; NFS3ERR_JUKEBOX].

Definition ftype3_code (t : ftype3) : Z :=
  match t with
  | NF3REG => 1 | NF3DIR => 2 | NF3BLK => 3 | NF3CHR => 4 | NF3LNK => 5 | NF3SOCK => 6 | NF3FIFO => 7
  end.
Definition ftype3_all : list ftype3 := [NF3REG; NF3DIR; NF3BLK; NF3CHR; NF3LNK; NF3SOCK; NF3FIFO].

Definition mountstat3_code (s : mountstat3) : Z :=
  match s with
  | MNT3_OK => 0 | MNT3ERR_PERM => 1 | MNT3ERR_NOENT => 2 | MNT3ERR_IO => 5 | MNT3ERR_ACCES => 13
  | MNT3ERR_NOTDIR => 20 | MNT3ERR_INVAL => 22 | MNT3ERR_NAMETOOLONG => 63 | MNT3ERR_NOTSUPP => 10004
  | MNT3ERR_SERVERFAULT => 10006
  end.
Definition mountstat3_all : list mountstat3 :=
  [MNT3_OK; MNT3ERR_PERM; MNT3ERR_NOENT; MNT3ERR_IO; MNT3ERR_ACCES; MNT3ERR_NOTDIR; MNT3ERR_INVAL;
   MNT3ERR_NAMETOOLONG; MNT3ERR_NOTSUPP; MNT3ERR_SERVERFAULT].

Definition stable_how_code (h : stable_how) : Z :=
  match h with UNSTABLE => 0 | DATA_SYNC => 1 | FILE_SYNC => 2 | STABLE_VALUE v => v end.
Definition stable_how_of (v : Z) : stable_how :=
  if v =? 0 then UNSTABLE else if v =? 1 then DATA_SYNC else if v =? 2 then FILE_SYNC else STABLE_VALUE v.

(** A status of a reply, which only a client reads; a number without a name has no value
    in the type. *)
Definition xdr_code {E} (code : E -> Z) (all : list E) : xdr E :=
  field! v := code via xdr_enum in
  match List.find (fun e => code e =? v) all with Some e => xdr_done e | None => xdr_fail end.

Definition xdr_nfsstat3 : xdr nfsstat3 := xdr_code nfsstat3_code nfsstat3_all.
Definition xdr_ftype3 : xdr ftype3 := xdr_code ftype3_code ftype3_all.
Definition xdr_mountstat3 : xdr mountstat3 := xdr_code mountstat3_code mountstat3_all.
Definition xdr_stable_how : xdr stable_how :=
  field! v := stable_how_code via xdr_enum in xdr_done (stable_how_of v).
Definition xdr_time_how : xdr Z := xdr_enum.
Definition xdr_createmode3 : xdr Z := xdr_enum.
Definition xdr_createverf3 : xdr (list Z) := xdr_opaque NFS3_CREATEVERFSIZE.

(** ** Attributes *)

Definition xdr_specdata3 : xdr specdata3 :=
  field! a := specdata1 via xdr_uint32 in
  field! b := specdata2 via xdr_uint32 in
  xdr_done (Specdata3 a b).

Definition xdr_nfstime3 : xdr nfstime3 :=
  field! s := seconds via xdr_uint32 in
  field! n := nseconds via xdr_uint32 in
  xdr_done (Nfstime3 s n).

Definition xdr_fattr3 : xdr fattr3 :=
  field! t := type via xdr_ftype3 in
  field! m := mode via xdr_uint32 in
  field! n := nlink via xdr_uint32 in
  field! u := uid via xdr_uint32 in
  field! g := gid via xdr_uint32 in
  field! sz := size via xdr_uint64 in
  field! us := used via xdr_uint64 in
  field! rd := rdev via xdr_specdata3 in
  field! fs := fsid via xdr_uint64 in
  field! fi := fileid via xdr_uint64 in
  field! at_ := atime via xdr_nfstime3 in
  field! mt := mtime via xdr_nfstime3 in
  field! ct := ctime via xdr_nfstime3 in
  xdr_done (Fattr3 t m n u g sz us rd fs fi at_ mt ct).

(** A boolean, and a member when it is true: the unions that the model has as options. *)
Definition xdr_optional {A} (c : xdr A) : xdr (option A) :=
  field! follows := (fun o => bool_decide (is_Some o)) via xdr_bool in
  if follows : bool then arm! a := (fun o => o) via c in xdr_done (Some a) else xdr_done None.

Definition xdr_post_op_attr : xdr post_op_attr := xdr_optional xdr_fattr3.

Definition xdr_wcc_attr : xdr wcc_attr :=
  field! sz := wcc_size via xdr_uint64 in
  field! mt := wcc_mtime via xdr_nfstime3 in
  field! ct := wcc_ctime via xdr_nfstime3 in
  xdr_done (WccAttr sz mt ct).

Definition xdr_pre_op_attr : xdr pre_op_attr := xdr_optional xdr_wcc_attr.

Definition xdr_wcc_data : xdr wcc_data :=
  field! b := before via xdr_pre_op_attr in
  field! a := after via xdr_post_op_attr in
  xdr_done (WccData b a).

Definition xdr_diropargs3 : xdr diropargs3 :=
  field! d := dir via xdr_nfs_fh3 in
  arm! n := name via xdr_filename3 in
  xdr_done (Diropargs3 d (Some n)).

Definition xdr_post_op_fh3 : xdr (option nfs_fh3) := xdr_optional xdr_nfs_fh3.
Definition xdr_set_mode3 : xdr (option Z) := xdr_optional xdr_uint32.
Definition xdr_set_uid3 : xdr (option Z) := xdr_optional xdr_uint32.
Definition xdr_set_gid3 : xdr (option Z) := xdr_optional xdr_uint32.
Definition xdr_set_size3 : xdr (option Z) := xdr_optional xdr_uint64.
Definition xdr_sattrguard3 : xdr (option nfstime3) := xdr_optional xdr_nfstime3.

Definition time_how (t : set_time) : Z :=
  match t with DONT_CHANGE => 0 | SET_TO_SERVER_TIME => 1 | SET_TO_CLIENT_TIME _ => 2 end.

(** Only the time of the client follows; the server takes every other value but 1 for
    [DONT_CHANGE]. *)
Definition xdr_set_atime : xdr set_time :=
  field! how := time_how via xdr_time_how in
  if how =? 2 then
    arm! t := (fun t => match t with SET_TO_CLIENT_TIME c => Some c | _ => None end) via xdr_nfstime3 in
    xdr_done (SET_TO_CLIENT_TIME t)
  else xdr_done (if how =? 1 then SET_TO_SERVER_TIME else DONT_CHANGE).
Definition xdr_set_mtime : xdr set_time :=
  field! how := time_how via xdr_time_how in
  if how =? 2 then
    arm! t := (fun t => match t with SET_TO_CLIENT_TIME c => Some c | _ => None end) via xdr_nfstime3 in
    xdr_done (SET_TO_CLIENT_TIME t)
  else xdr_done (if how =? 1 then SET_TO_SERVER_TIME else DONT_CHANGE).

Definition xdr_sattr3 : xdr sattr3 :=
  field! m := sa_mode via xdr_set_mode3 in
  field! u := sa_uid via xdr_set_uid3 in
  field! g := sa_gid via xdr_set_gid3 in
  field! sz := sa_size via xdr_set_size3 in
  field! at_ := sa_atime via xdr_set_atime in
  field! mt := sa_mtime via xdr_set_mtime in
  xdr_done (Sattr3 m u g sz at_ mt).

(** [switch (status)]: the member of a success or of a failure. *)
Definition xdr_result {A B} (ok : xdr A) (failed : xdr B) : xdr (res A B) :=
  field! st := status via xdr_nfsstat3 in
  match st with
  | NFS3_OK =>
      arm! a := (fun r => match union r with inl a => Some a | inr _ => None end) via ok in
      xdr_done (Res st (inl a))
  | _ =>
      arm! b := (fun r => match union r with inr b => Some b | inl _ => None end) via failed in
      xdr_done (Res st (inr b))
  end.

(** ** The procedures' arguments and results *)

Definition GETATTR3args : Type := nfs_fh3.
Definition xdr_GETATTR3args : xdr GETATTR3args := xdr_nfs_fh3.
Definition xdr_GETATTR3res : xdr (res fattr3 unit) := xdr_result xdr_fattr3 xdr_void.

Definition LOOKUP3args : Type := diropargs3.
Definition xdr_LOOKUP3args : xdr LOOKUP3args := xdr_diropargs3.
Definition xdr_LOOKUP3resok : xdr LOOKUP3resok :=
  field! o := lk_object via xdr_nfs_fh3 in
  field! a := lk_attributes via xdr_post_op_attr in
  field! d := lk_dir via xdr_post_op_attr in
  xdr_done (LookupOk o a d).
Definition xdr_LOOKUP3resfail : xdr post_op_attr := xdr_post_op_attr.
Definition xdr_LOOKUP3res : xdr (res LOOKUP3resok post_op_attr) := xdr_result xdr_LOOKUP3resok xdr_LOOKUP3resfail.

Record ACCESS3args := Access3Args { aa_object : nfs_fh3; aa_access : Z }.
Definition xdr_ACCESS3args : xdr ACCESS3args :=
  field! o := aa_object via xdr_nfs_fh3 in
  field! a := aa_access via xdr_uint32 in
  xdr_done (Access3Args o a).
Definition xdr_ACCESS3resok : xdr ACCESS3resok :=
  field! a := ac_attributes via xdr_post_op_attr in
  field! x := ac_access via xdr_uint32 in
  xdr_done (AccessOk a x).
Definition xdr_ACCESS3resfail : xdr post_op_attr := xdr_post_op_attr.
Definition xdr_ACCESS3res : xdr (res ACCESS3resok post_op_attr) := xdr_result xdr_ACCESS3resok xdr_ACCESS3resfail.

Record READ3args := Read3Args { ra_file : nfs_fh3; ra_offset : Z; ra_count : Z }.
Definition xdr_READ3args : xdr READ3args :=
  field! f := ra_file via xdr_nfs_fh3 in
  field! o := ra_offset via xdr_uint64 in
  field! c := ra_count via xdr_uint32 in
  xdr_done (Read3Args f o c).
Definition xdr_READ3resok : xdr READ3resok :=
  field! a := rd_attributes via xdr_post_op_attr in
  field! c := rd_count via xdr_uint32 in
  field! e := rd_eof via xdr_bool in
  field! d := rd_data via xdr_bytes NFS3_MAXDATA in
  xdr_done (ReadOk a c e d).
Definition xdr_READ3resfail : xdr post_op_attr := xdr_post_op_attr.
Definition xdr_READ3res : xdr (res READ3resok post_op_attr) := xdr_result xdr_READ3resok xdr_READ3resfail.

Record WRITE3args := Write3Args {
  wa_file : nfs_fh3; wa_offset : Z; wa_count : Z; wa_stable : stable_how; wa_data : list Z }.
Definition xdr_WRITE3args : xdr WRITE3args :=
  field! f := wa_file via xdr_nfs_fh3 in
  field! o := wa_offset via xdr_uint64 in
  field! c := wa_count via xdr_uint32 in
  field! s := wa_stable via xdr_stable_how in
  field! d := wa_data via xdr_bytes NFS3_MAXDATA in
  xdr_done (Write3Args f o c s d).
Definition xdr_WRITE3resok : xdr WRITE3resok :=
  field! w := wr_wcc via xdr_wcc_data in
  field! c := wr_count via xdr_uint32 in
  field! s := wr_committed via xdr_stable_how in
  field! v := wr_verf via xdr_opaque NFS3_WRITEVERFSIZE in
  xdr_done (WriteOk w c s v).
Definition xdr_WRITE3resfail : xdr wcc_data := xdr_wcc_data.
Definition xdr_WRITE3res : xdr (res WRITE3resok wcc_data) := xdr_result xdr_WRITE3resok xdr_WRITE3resfail.

Record SETATTR3args := Setattr3Args { sga_object : nfs_fh3; sga_new : sattr3; sga_guard : option nfstime3 }.
Definition xdr_SETATTR3args : xdr SETATTR3args :=
  field! o := sga_object via xdr_nfs_fh3 in
  field! n := sga_new via xdr_sattr3 in
  field! g := sga_guard via xdr_sattrguard3 in
  xdr_done (Setattr3Args o n g).
Definition xdr_SETATTR3resok : xdr wcc_data := xdr_wcc_data.
Definition xdr_SETATTR3resfail : xdr wcc_data := xdr_wcc_data.
Definition xdr_SETATTR3res : xdr (res wcc_data wcc_data) := xdr_result xdr_SETATTR3resok xdr_SETATTR3resfail.

Definition createmode3 (h : createhow3) : Z :=
  match h with UNCHECKED _ => 0 | GUARDED _ => 1 | EXCLUSIVE _ => 2 end.
Definition xdr_createhow3 : xdr createhow3 :=
  field! m := createmode3 via xdr_createmode3 in
  if m =? 0 then
    arm! a := (fun h => match h with UNCHECKED a => Some a | _ => None end) via xdr_sattr3 in xdr_done (UNCHECKED a)
  else if m =? 1 then
    arm! a := (fun h => match h with GUARDED a => Some a | _ => None end) via xdr_sattr3 in xdr_done (GUARDED a)
  else if m =? 2 then
    arm! v := (fun h => match h with EXCLUSIVE v => Some v | _ => None end) via xdr_createverf3 in xdr_done (EXCLUSIVE v)
  else xdr_fail.

Record CREATE3args := Create3Args { ca_where : diropargs3; ca_how : createhow3 }.
Definition xdr_CREATE3args : xdr CREATE3args :=
  field! w := ca_where via xdr_diropargs3 in
  field! h := ca_how via xdr_createhow3 in
  xdr_done (Create3Args w h).
Definition xdr_CREATE3resok : xdr CREATE3resok :=
  field! o := cr_obj via xdr_post_op_fh3 in
  field! a := cr_attributes via xdr_post_op_attr in
  field! w := cr_wcc via xdr_wcc_data in
  xdr_done (CreateOk o a w).
Definition xdr_CREATE3resfail : xdr wcc_data := xdr_wcc_data.
Definition xdr_CREATE3res : xdr (res CREATE3resok wcc_data) := xdr_result xdr_CREATE3resok xdr_CREATE3resfail.

Definition REMOVE3args : Type := diropargs3.
Definition xdr_REMOVE3args : xdr REMOVE3args := xdr_diropargs3.
Definition xdr_REMOVE3resok : xdr wcc_data := xdr_wcc_data.
Definition xdr_REMOVE3resfail : xdr wcc_data := xdr_wcc_data.
Definition xdr_REMOVE3res : xdr (res wcc_data wcc_data) := xdr_result xdr_REMOVE3resok xdr_REMOVE3resfail.

(** An entry and those behind it; [next] is the routine for the pointer [nextentry]. *)
Definition xdr_entry3 (next : xdr (list entry3)) : xdr (list entry3) :=
  arm! f := (fun es => option_map e_fileid (head es)) via xdr_uint64 in
  arm! n := (fun es => option_map e_name (head es)) via xdr_filename3 in
  arm! c := (fun es => option_map e_cookie (head es)) via xdr_cookie3 in
  field! r := tail via next in
  xdr_done (Entry3 f n c :: r).

(** A pointer to an entry: the null pointer ends the list.  The fuel bounds the number of
    entries. *)
Fixpoint xdr_entries (fuel : nat) : xdr (list entry3) :=
  match fuel with
  | O => xdr_fail
  | S fuel' =>
      field! p := (fun es => match es with [] => None | _ => Some es end) via xdr_pointer (xdr_entry3 (xdr_entries fuel')) in
      xdr_done (default [] p)
  end.

(** The array the server fills has 256 entries. *)
Definition entries_max : nat := 257.
Definition xdr_dirlist3 : xdr (list entry3 * bool) :=
  field! es := fst via xdr_entries entries_max in
  field! eof := snd via xdr_bool in
  xdr_done (es, eof).

Record READDIR3args := Readdir3Args { rda_dir : nfs_fh3; rda_cookie : Z; rda_verf : list Z; rda_count : Z }.
Definition xdr_READDIR3args : xdr READDIR3args :=
  field! d := rda_dir via xdr_nfs_fh3 in
  field! k := rda_cookie via xdr_cookie3 in
  field! v := rda_verf via xdr_cookieverf3 in
  field! c := rda_count via xdr_uint32 in
  xdr_done (Readdir3Args d k v c).
Definition xdr_READDIR3resok : xdr READDIR3resok :=
  field! a := rdd_attributes via xdr_post_op_attr in
  field! v := rdd_verf via xdr_cookieverf3 in
  field! l := (fun r => (rdd_entries r, rdd_eof r)) via xdr_dirlist3 in
  xdr_done (ReaddirOk a v (fst l) (snd l)).
Definition xdr_READDIR3resfail : xdr post_op_attr := xdr_post_op_attr.
Definition xdr_READDIR3res : xdr (res READDIR3resok post_op_attr) := xdr_result xdr_READDIR3resok xdr_READDIR3resfail.

Record READDIRPLUS3args := Readdirplus3Args {
  rpa_dir : nfs_fh3; rpa_cookie : Z; rpa_verf : list Z; rpa_dircount : Z; rpa_maxcount : Z }.
Definition xdr_READDIRPLUS3args : xdr READDIRPLUS3args :=
  field! d := rpa_dir via xdr_nfs_fh3 in
  field! k := rpa_cookie via xdr_cookie3 in
  field! v := rpa_verf via xdr_cookieverf3 in
  field! c := rpa_dircount via xdr_uint32 in
  field! m := rpa_maxcount via xdr_uint32 in
  xdr_done (Readdirplus3Args d k v c m).
Definition xdr_READDIRPLUS3resfail : xdr post_op_attr := xdr_post_op_attr.
Definition xdr_READDIRPLUS3res : xdr (res unit post_op_attr) := xdr_result xdr_void xdr_READDIRPLUS3resfail.

Definition FSINFO3args : Type := nfs_fh3.
Definition xdr_FSINFO3args : xdr FSINFO3args := xdr_nfs_fh3.
Definition xdr_FSINFO3resok : xdr FSINFO3resok :=
  field! a := fi_attributes via xdr_post_op_attr in
  field! r1 := rtmax via xdr_uint32 in
  field! r2 := rtpref via xdr_uint32 in
  field! r3 := rtmult via xdr_uint32 in
  field! w1 := wtmax via xdr_uint32 in
  field! w2 := wtpref via xdr_uint32 in
  field! w3 := wtmult via xdr_uint32 in
  field! d := dtpref via xdr_uint32 in
  field! m := maxfilesize via xdr_uint64 in
  field! t := time_delta via xdr_nfstime3 in
  field! p := properties via xdr_uint32 in
  xdr_done (FsinfoOk a r1 r2 r3 w1 w2 w3 d m t p).
Definition xdr_FSINFO3resfail : xdr post_op_attr := xdr_post_op_attr.
Definition xdr_FSINFO3res : xdr (res FSINFO3resok post_op_attr) := xdr_result xdr_FSINFO3resok xdr_FSINFO3resfail.

Definition DUMMY3args : Type := nfs_fh3.
Definition xdr_DUMMY3args : xdr DUMMY3args := xdr_nfs_fh3.
Definition xdr_DUMMY3res : xdr nfsstat3 := xdr_nfsstat3.

(** ** The mount protocol *)

Definition xdr_dirpath : xdr (option cstr) :=
  arm! p := (fun o => o) via xdr_string MNTPATHLEN in xdr_done (Some p).
Definition xdr_fhandle3 : xdr (list Z) := xdr_bytes FHSIZE3.
Definition xdr_mountres3_ok : xdr mountres3_ok :=
  field! h := fhandle via xdr_fhandle3 in
  field! f := auth_flavors via xdr_array (2 ^ 32 - 1) xdr_int in
  xdr_done (MountOk h f).
Definition xdr_mountres3 : xdr (mountstat3 * option mountres3_ok) :=
  field! st := fst via xdr_mountstat3 in
  match st with
  | MNT3_OK => arm! i := snd via xdr_mountres3_ok in xdr_done (st, Some i)
  | _ => xdr_done (st, None)
  end.

End Messages.
