(* ===== verification/NfsRpc.v ===== *)
(** * NfsRpc: calls and replies (nfs3_svc.c, mount3_svc.c)

    A call is a program, a procedure number and the bytes of its arguments.  The
    dispatchers choose by the number how arguments are read, which procedure runs and
    how its result is written; a call that cannot be read runs nothing. *)

From Stdlib Require Import String.
From stdpp Require Import base list numbers.
From S2P Require Import Prelude CString NfsCore NfsServer NfsXdr.

Local Open Scope Z_scope.
Local Open Scope fs_scope.

Section Rpc.
Context {P : Posix} {X : XdrLib}.

(** What the switch of a dispatcher sets: [_xdr_argument], [_xdr_result] and [local]. *)
Inductive procedure :=
  | Procedure {A R : Type} (argument : xdr A) (result : xdr R) (local : A -> M R).

Inductive rpc_reply :=
  | Replied (body : list Z)
  | NoProc
  | DecodeError
  | SystemError.

(** READLINK, MKDIR, SYMLINK, MKNOD, RMDIR, RENAME, LINK, FSSTAT, PATHCONF and COMMIT. *)
Definition dummy : procedure := Procedure xdr_DUMMY3args xdr_DUMMY3res (fun _ => ret unsupported).

Definition nfs_procedures (proc : Z) : option procedure :=
  if proc =? 0 then Some (Procedure xdr_void xdr_void (fun _ => ret tt))
  else if proc =? 1 then Some (Procedure xdr_GETATTR3args xdr_GETATTR3res nfsproc3_getattr_3_svc)
  else if proc =? 2 then Some (Procedure xdr_SETATTR3args xdr_SETATTR3res
                                 (fun a => nfsproc3_setattr_3_svc (sga_object a) (sga_new a) (sga_guard a)))
  else if proc =? 3 then Some (Procedure xdr_LOOKUP3args xdr_LOOKUP3res nfsproc3_lookup_3_svc)
  else if proc =? 4 then Some (Procedure xdr_ACCESS3args xdr_ACCESS3res
                                 (fun a => nfsproc3_access_3_svc (aa_object a) (aa_access a)))
  else if proc =? 5 then Some dummy
  else if proc =? 6 then Some (Procedure xdr_READ3args xdr_READ3res
                                 (fun a => nfsproc3_read_3_svc (ra_file a) (ra_offset a) (ra_count a)))
  else if proc =? 7 then Some (Procedure xdr_WRITE3args xdr_WRITE3res
                                 (fun a => nfsproc3_write_3_svc (wa_file a) (wa_offset a) (wa_count a) (wa_stable a) (wa_data a)))
  else if proc =? 8 then Some (Procedure xdr_CREATE3args xdr_CREATE3res
                                 (fun a => nfsproc3_create_3_svc (ca_where a) (ca_how a)))
  else if (proc =? 9) || (proc =? 10) || (proc =? 11) then Some dummy
  else if proc =? 12 then Some (Procedure xdr_REMOVE3args xdr_REMOVE3res nfsproc3_remove_3_svc)
  else if (proc =? 13) || (proc =? 14) || (proc =? 15) then Some dummy
  else if proc =? 16 then Some (Procedure xdr_READDIR3args xdr_READDIR3res
                                  (fun a => nfsproc3_readdir_3_svc (rda_dir a) (rda_cookie a) (rda_count a)))
  else if proc =? 17 then Some (Procedure xdr_READDIRPLUS3args xdr_READDIRPLUS3res
                                  (fun a => nfsproc3_readdirplus_3_svc (rpa_dir a)))
  else if proc =? 18 then Some dummy
  else if proc =? 19 then Some (Procedure xdr_FSINFO3args xdr_FSINFO3res nfsproc3_fsinfo_3_svc)
  else if (proc =? 20) || (proc =? 21) then Some dummy
  else None.

Definition mount_procedures (proc : Z) : option procedure :=
  if proc =? 0 then Some (Procedure xdr_void xdr_void (fun _ => ret tt))
  else if proc =? 1 then Some (Procedure xdr_dirpath xdr_mountres3 mountproc3_mnt_3_svc)
  else if proc =? 3 then Some (Procedure xdr_dirpath xdr_void (fun _ => ret tt))
  else None.

(** The rest of a dispatcher; what follows the arguments in the message is not looked at. *)
Definition dispatch (p : option procedure) (body : list Z) : M rpc_reply :=
  match p with
  | None => ret NoProc
  | Some (Procedure argument result local) =>
      match xget argument body with
      | None => ret DecodeError
      | Some (a, _) =>
          let! r := local a in
          ret (match xput result r with Some b => Replied b | None => SystemError end)
      end
  end.

Definition nfs_program_3 (proc : Z) (body : list Z) : M rpc_reply := dispatch (nfs_procedures proc) body.
Definition mountprog_3 (proc : Z) (body : list Z) : M rpc_reply := dispatch (mount_procedures proc) body.

(** A call of the NFS or of the mount program. *)
Inductive call :=
  | NfsCall (proc : Z) (body : list Z)
  | MountCall (proc : Z) (body : list Z).

Definition answer_call (c : call) : M rpc_reply :=
  match c with
  | NfsCall proc body => nfs_program_3 proc body
  | MountCall proc body => mountprog_3 proc body
  end.

(** [svc_run]: one call after the other. *)
Definition serve (cs : list call) : M unit :=
  each_list cs (fun c => run! answer_call c in ret tt).

End Rpc.

(** Look at every procedure of the tables. *)
Ltac each_procedure :=
  unfold nfs_procedures, mount_procedures, dummy;
  repeat match goal with |- context [?p =? ?k] => is_var p; destruct (p =? k); cbn [orb] end.
