(* ===== verification/NfsSpec.v ===== *)
(** * NfsSpec: what the NFS server guarantees

    Confinement to the exported directory, descriptors, durable writes, handles and
    the listing of a directory, for every answer the operating system may give. *)

From Stdlib Require Import String.
From stdpp Require Import base list numbers.
From S2P Require Import Prelude CString NfsCore NfsServer NfsXdr NfsRpc.

Local Open Scope Z_scope.
Local Open Scope fs_scope.

Section Confinement.
Context {P : Posix}.
Context (root : cstr).

(** The paths a system call is given. *)
Definition paths (c : syscall) : list cstr :=
  match c with
  | Lstat p | StatPath p | Access p _ | Open p _ _ | Chmod p _ | Chown p _ _ | Truncate p _
  | Utimensat p _ _ | Unlink p | Opendir p => [p]
  | _ => []
  end.

(** Every call made so far named only files below [root]. *)
Definition confined (s : server) : Prop :=
  export_root s = root /\ Forall (fun c => Forall (below root) (paths (fst c))) (log s).

Lemma confined_sys c : Forall (below root) (paths c) -> preserves confined (sys c).
Proof. intros H s [H1 H2]. unfold sys. destruct (os_step _ _). by split; [|constructor]. Qed.

Lemma confined_read_buf b : preserves confined (set_read_buf b).
Proof. by intros s []. Qed.

Lemma join_code r rel size root' out :
  unfs_join_export_path (Some root') rel size = (r, out) -> (r <? 0) = false ->
  unfs_join_export_path (Some root') rel size = (0, out).
Proof.
  assert (Hc : (fst (unfs_join_export_path (Some root') rel size) <? 0) = true \/
               fst (unfs_join_export_path (Some root') rel size) = 0).
  { unfold unfs_join_export_path. destruct rel; [|by left].
    destruct (size =? 0); [by left|]. destruct (negb _); [by left|].
    destruct (if streq _ _ then _ else _) as [w o]. destruct (size <=? w); [by left|by right]. }
  intros E H. rewrite E in *. cbn [fst] in Hc. destruct Hc as [Hc| ->]; [congruence|done].
Qed.

Lemma confined_join {A} rel size (k : Z * cstr -> M A) :
  (forall r out, ((r <? 0) = false -> below root out) -> preserves confined (k (r, out))) ->
  preserves confined (k (unfs_join_export_path (Some root) rel size)).
Proof.
  intros H. destruct (unfs_join_export_path _ _ _) as [r out] eqn:E. apply H.
  intros Hr. eapply join_below, join_code; done.
Qed.

Lemma confined_fullpath {A} fh (k : Z * cstr * cstr -> M A) :
  (forall r rel full, ((r <? 0) = false -> below root full) -> preserves confined (k (r, rel, full))) ->
  preserves confined (bind (fullpath_from_fh fh) k).
Proof.
  intros H s [Hr Hs]. unfold fullpath_from_fh, bind, gets. rewrite Hr. cbn [fst snd].
  destruct (nfsfh_to_relpath fh UNFS_MAX_PATH) as [r rel] eqn:E.
  destruct (r <? 0) eqn:Hn; [by apply H; [rewrite Hn|split]|].
  destruct (unfs_join_export_path (Some root) rel PATH_MAX) as [r' full] eqn:E'.
  apply H; [|by split]. intros Hr'. eapply join_below, join_code; done.
Qed.

(** [gets export_root] reads the root itself. *)
Lemma confined_root {A} (k : cstr -> M A) :
  preserves confined (k root) -> preserves confined (bind (gets export_root) k).
Proof. intros H s Hs. unfold bind, gets. destruct Hs as [Hr Hs]. rewrite Hr. by apply H. Qed.

Lemma below_root : below root root.
Proof. unfold below. reflexivity. Qed.

End Confinement.

Create HintDb nfs.
#[export] Hint Resolve confined_read_buf below_root : nfs.

(** Walk through a procedure, keeping what is known of the paths. *)
Ltac confine_step :=
  match goal with
  | |- preserves _ (bind (fullpath_from_fh _) _) => apply confined_fullpath; intros ??? ?
  | |- preserves _ (bind (gets export_root) _) => apply confined_root
  | |- preserves _ (let '(r, out) := unfs_join_export_path (Some _) ?rel ?size in @?k r out) =>
      apply (confined_join _ rel size (fun p => let '(r, out) := p in k r out)); intros ?? ?
  | |- preserves _ (bind _ _) => apply preserves_bind; [|intros ?]
  | |- preserves _ (sys _) => apply confined_sys; repeat constructor; auto with nfs
  | |- preserves _ (ret _) => apply preserves_ret
  | |- preserves _ (gets _) => apply preserves_gets
  | |- preserves _ get_errno => apply preserves_gets
  | |- preserves _ (let '(_, _) := ?x in _) => destruct x
  | |- preserves _ (if ?b then _ else _) => destruct b eqn:?
  | |- preserves _ (match ?x with _ => _ end) => destruct x
  | |- preserves _ _ => solve [eauto 3 with nfs]
  end.
Ltac confine := cbv zeta; repeat (confine_step; cbv beta zeta).

Section ConfinedProcedures.
Context {P : Posix} {root : cstr}.

Lemma confined_post_attr path : below root path -> preserves (confined root) (fill_post_attr path).
Proof. intros H. unfold fill_post_attr. confine. Qed.
#[local] Hint Resolve confined_post_attr : nfs.

Lemma confined_wcc path b : below root path -> preserves (confined root) (fill_wcc path b).
Proof. intros H. unfold fill_wcc. confine. Qed.
#[local] Hint Resolve confined_wcc : nfs.

Lemma confined_before path : below root path -> preserves (confined root) (stat_before path).
Proof. intros H. unfold stat_before. confine. Qed.
#[local] Hint Resolve confined_before : nfs.

Lemma confined_grant path a b m g : below root path -> preserves (confined root) (grant path a b m g).
Proof. intros H. unfold grant. confine. Qed.
#[local] Hint Resolve confined_grant : nfs.

Lemma confined_apply_sattr path n : below root path -> preserves (confined root) (apply_sattr path n).
Proof. intros H. unfold apply_sattr. confine. Qed.
#[local] Hint Resolve confined_apply_sattr : nfs.

Lemma confined_readdir_loop fuel d mx k : forall seq es,
  preserves (confined root) (readdir_loop fuel d mx k seq es).
Proof. induction fuel as [|fuel IH]; intros seq es; cbn [readdir_loop snprintf]; confine; apply IH. Qed.
#[local] Hint Resolve confined_readdir_loop : nfs.

Lemma confined_procedures {X : XdrLib} c : preserves (confined root) (answer_call c).
Proof.
  assert (Hd : forall p body, match p with
                              | Some (Procedure _ _ local) => forall a, preserves (confined root) (local a)
                              | None => True
                              end -> preserves (confined root) (dispatch p body)).
  { intros [[A R arg result local]|] body Hp; cbn [dispatch]; [|apply preserves_ret].
    destruct (xget arg body) as [[a l]|]; [|apply preserves_ret]. apply preserves_bind; [apply Hp|intros; apply preserves_ret]. }
  destruct c; cbn [answer_call]; apply Hd; each_procedure; try done; intros a; cbv beta;
    unfold nfsproc3_getattr_3_svc, nfsproc3_setattr_3_svc, nfsproc3_lookup_3_svc,
      nfsproc3_access_3_svc, nfsproc3_read_3_svc, nfsproc3_write_3_svc, nfsproc3_create_3_svc,
      nfsproc3_remove_3_svc, nfsproc3_readdir_3_svc, nfsproc3_readdirplus_3_svc, nfsproc3_fsinfo_3_svc,
      mountproc3_mnt_3_svc; confine.
  apply confined_post_attr. bool_hyps. subst. auto.
Qed.

End ConfinedProcedures.

(** ** Descriptors *)

Fixpoint delete_first (d : Z) (l : list Z) : list Z :=
  match l with
  | [] => []
  | x :: l' => if x =? d then l' else x :: delete_first d l'
  end.

Section Descriptors.
Context {P : Posix}.

(** The descriptors and directory streams that are open after the calls of a log,
    the last opened first. *)
Fixpoint open_after (l : list (syscall * answer)) : list Z :=
  match l with
  | [] => []
  | (c, a) :: l' =>
      match c with
      | Open _ _ _ | Opendir _ => if a_ret a <? 0 then open_after l' else a_ret a :: open_after l'
      | Close d | Closedir d => delete_first d (open_after l')
      | _ => open_after l'
      end
  end.

Definition held (s : server) : list Z := open_after (log s).

(** A call that opens and closes nothing. *)
Definition plain (c : syscall) : bool :=
  match c with Open _ _ _ | Opendir _ | Close _ | Closedir _ => false | _ => true end.

Lemma held_sys c : plain c = true -> frame held (sys c).
Proof. intros H s. unfold sys, held. destruct (os_step _ _). by destruct c. Qed.

Lemma held_read_buf b : frame held (set_read_buf b).
Proof. done. Qed.

(** A computation that gives back the descriptor opened last. *)
Definition closes {A} (d : Z) (m : M A) : Prop :=
  forall s rest, held s = d :: rest -> held (snd (m s)) = rest.

Lemma closes_bind {A B} d (m : M A) (k : A -> M B) :
  frame held m -> (forall a, closes d (k a)) -> closes d (bind m k).
Proof.
  intros Hm Hk s rest H. unfold bind. specialize (Hm s). destruct (m s) as [a s1].
  apply Hk. cbn [snd] in Hm. by rewrite Hm.
Qed.

Lemma closes_close {A} c d (k : answer -> M A) :
  c = Close d \/ c = Closedir d -> (forall a, frame held (k a)) -> closes d (bind (sys c) k).
Proof.
  intros Hc Hk s rest H. unfold bind, sys. destruct (os_step _ _) as [a o]. rewrite Hk.
  unfold held in *. destruct Hc as [-> | ->]; cbn [log open_after]; rewrite H; cbn [delete_first];
    by rewrite Z.eqb_refl.
Qed.

Lemma held_open {A} c (k : answer -> M A) :
  (exists p f m, c = Open p f m) \/ (exists p, c = Opendir p) ->
  (forall a, (a_ret a <? 0) = true -> frame held (k a)) ->
  (forall a, (a_ret a <? 0) = false -> closes (a_ret a) (k a)) ->
  frame held (bind (sys c) k).
Proof.
  intros Hc H1 H2 s. unfold bind, sys. destruct (os_step _ _) as [a o].
  set (s1 := Server _ _ _ _ _ _).
  assert (Hh : held s1 = if a_ret a <? 0 then held s else a_ret a :: held s)
    by (destruct Hc as [(p & f & m & ->)|[p ->]]; done).
  clearbody s1. destruct (a_ret a <? 0) eqn:E.
  - by rewrite H1, Hh.
  - by apply H2.
Qed.

Lemma held_fullpath fh : frame held (fullpath_from_fh fh).
Proof. unfold fullpath_from_fh. frames. Qed.

End Descriptors.

#[export] Hint Resolve held_read_buf held_fullpath : frame.

(** The opening call of a procedure, then what gives the descriptor back. *)
Ltac held_step :=
  match goal with
  | |- frame held (bind (sys (Open _ _ _)) _) =>
      apply held_open; [left; by repeat eexists| |]; intros ?a ?Ha; rewrite Ha; cbv zeta
  | |- frame held (bind (sys (Opendir _)) _) =>
      apply held_open; [right; by eexists| |]; intros ?a ?Ha; rewrite Ha; cbv zeta
  | |- frame held (sys _) => by apply held_sys
  | |- frame held get_errno => apply frame_gets
  | |- frame held _ => frame_step
  | |- closes _ (bind (sys (Close _)) _) => apply closes_close; [by left|intros ?]
  | |- closes _ (bind (sys (Closedir _)) _) => apply closes_close; [by right|intros ?]
  | |- closes _ (bind _ _) => apply closes_bind; [|intros ?]
  | |- closes _ (let '(_, _) := ?x in _) => destruct x
  | |- closes _ (if ?b then _ else _) => destruct b
  end.
Ltac helds := cbv zeta; repeat (held_step; cbv beta zeta).

Section HeldProcedures.
Context {P : Posix}.

Lemma held_post_attr path : frame held (fill_post_attr path).
Proof. unfold fill_post_attr. helds. Qed.
#[local] Hint Resolve held_post_attr : frame.

Lemma held_wcc path b : frame held (fill_wcc path b).
Proof. unfold fill_wcc. helds. Qed.
#[local] Hint Resolve held_wcc : frame.

Lemma held_before path : frame held (stat_before path).
Proof. unfold stat_before. helds. Qed.
#[local] Hint Resolve held_before : frame.

Lemma held_grant path a b m g : frame held (grant path a b m g).
Proof. unfold grant. helds. Qed.
#[local] Hint Resolve held_grant : frame.

Lemma held_apply_sattr path n : frame held (apply_sattr path n).
Proof. unfold apply_sattr. helds. Qed.
#[local] Hint Resolve held_apply_sattr : frame.

Lemma held_readdir_loop fuel d mx k : forall seq es, frame held (readdir_loop fuel d mx k seq es).
Proof. induction fuel as [|fuel IH]; intros seq es; cbn [readdir_loop snprintf]; helds; apply IH. Qed.
#[local] Hint Resolve held_readdir_loop : frame.

Lemma held_procedures {X : XdrLib} c : frame held (answer_call c).
Proof.
  assert (Hd : forall p body, match p with
                              | Some (Procedure _ _ local) => forall a, frame held (local a)
                              | None => True
                              end -> frame held (dispatch p body)).
  { intros [[A R arg result local]|] body Hp; cbn [dispatch]; [|apply frame_ret].
    destruct (xget arg body) as [[a l]|]; [|apply frame_ret]. apply frame_bind; [apply Hp|intros; apply frame_ret]. }
  destruct c; cbn [answer_call]; apply Hd; each_procedure; try done; intros a; cbv beta;
    unfold nfsproc3_getattr_3_svc, nfsproc3_setattr_3_svc, nfsproc3_lookup_3_svc,
      nfsproc3_access_3_svc, nfsproc3_read_3_svc, nfsproc3_write_3_svc, nfsproc3_create_3_svc,
      nfsproc3_remove_3_svc, nfsproc3_readdir_3_svc, nfsproc3_readdirplus_3_svc, nfsproc3_fsinfo_3_svc,
      mountproc3_mnt_3_svc; helds.
Qed.

End HeldProcedures.

(** C29: whatever calls arrive, in whatever order and with whatever bytes in them, and
    whatever the operating system answers: every system call the server makes names only
    files below the exported directory (following the path without symbolic links), and
    once the calls are answered no descriptor and no directory stream is left open. *)
Theorem requests_stay_below_root {P : Posix} {X : XdrLib} (root : cstr) (qs : list call) (s : server) :
  export_root s = root -> log s = [] ->
  let s' := snd (serve qs s) in
  Forall (fun c => Forall (below root) (paths (fst c))) (log s') /\ held s' = [].
Proof.
  intros Hr Hl s'. split.
  - apply (preserves_each_list (confined root) qs); [|by split; [|rewrite Hl]].
    intros q. apply preserves_bind; [apply confined_procedures|intros; apply preserves_ret].
  - transitivity (held s); [|unfold held; by rewrite Hl].
    apply (frame_each_list held qs). intros q.
    apply frame_bind; [apply held_procedures|intros; apply frame_ret].
Qed.

(** ** Error numbers *)

(** A call that fails sets [errno] to a nonzero number. *)
Class PosixErrno {P : Posix} : Prop :=
  os_errno : forall o c, a_ret (fst (os_step o c)) < 0 -> a_errno (fst (os_step o c)) <> 0.

Lemma errno_to_nfs3_ok e : errno_to_nfs3 e = NFS3_OK -> e = 0.
Proof. unfold errno_to_nfs3. destruct (Z.eqb_spec e 0); [done|]. by repeat case_match. Qed.

Section Write.
Context {P : Posix} {E : PosixErrno}.

(** What a call does to the state. *)
Lemma sys_spec c s : exists a o,
  sys c s = (a, Server _ (export_root s) (read_buf s) (if a_ret a <? 0 then a_errno a else errno s)
                  ((c, a) :: log s) o) /\ (a_ret a < 0 -> a_errno a <> 0).
Proof.
  unfold sys. pose proof (os_errno (os s) c) as H. destruct (os_step (os s) c) as [a o].
  by exists a, o.
Qed.

Lemma errno_stays c : preserves (fun s => errno s <> 0) (sys c).
Proof.
  intros s H. destruct (sys_spec c s) as (a & o & -> & Ha). cbn.
  destruct (Z.ltb_spec (a_ret a) 0); auto.
Qed.

(** What the code has when a handle was accepted. *)
Lemma fullpath_from_fh_spec fh s r rel full s' :
  fullpath_from_fh fh s = (r, rel, full, s') -> (r <? 0) = false ->
  s' = s /\ nfsfh_to_relpath fh UNFS_MAX_PATH = (0, Some rel) /\
  unfs_join_export_path (Some (export_root s)) (Some rel) PATH_MAX = (0, full).
Proof.
  unfold fullpath_from_fh, bind, gets.
  destruct (nfsfh_to_relpath fh UNFS_MAX_PATH) as [r1 rel1] eqn:E1. destruct (r1 <? 0) eqn:Hr1.
  { intros [= <- _ _ _]. by rewrite Hr1. }
  destruct (unfs_join_export_path _ rel1 PATH_MAX) as [r2 out] eqn:E2. intros [= <- <- <- <-] Hr.
  destruct rel1 as [rel1|]; [|by cbn in E2; injection E2 as <- <-].
  split; [done|]. split; [|by apply join_code in E2].
  unfold nfsfh_to_relpath in E1. destruct (UNFS_FHSIZE <? _); [by injection E1 as <-|].
  destruct (path_from_fh_code (Some (UnfsFh (Z.of_nat (length fh))
              (memcpy (replicate (Z.to_nat UNFS_FHSIZE) 0) 0 fh))) UNFS_MAX_PATH) as [p [H|(e & H & He)]];
    rewrite H in E1; cbn; congruence.
Qed.

(** Run the next system call. *)
Ltac run_sys a Ha :=
  match goal with
  | |- context [sys ?c ?s] =>
      let os' := fresh "os" in
      destruct (sys_spec c s) as (a & os' & -> & Ha); cbn [fst snd export_root read_buf log]
  end.

(** C32: a WRITE that is answered with [NFS3_OK] was written with one [pwrite] of the
    client's bytes at the client's offset to the file the handle names, then [fsync]
    of the same descriptor succeeded, and the reply reports the count of that [pwrite]
    and [FILE_SYNC]; the calls are exactly these, in this order. *)
Theorem write_ok_is_durable s file offset count stable data r s' :
  nfsproc3_write_3_svc file offset count stable data s = (r, s') -> status r = NFS3_OK ->
  exists rel full wcc st o w f c st',
    nfsfh_to_relpath file UNFS_MAX_PATH = (0, Some rel) /\
    unfs_join_export_path (Some (export_root s)) (Some rel) PATH_MAX = (0, full) /\
    union r = inl (WriteOk wcc (u32 (a_ret w)) FILE_SYNC (replicate 8 66)) /\
    0 <= a_ret o /\ 0 <= a_ret w /\ 0 <= a_ret f /\
    log s' = [(Lstat full, st');
              (Close (a_ret o), c);
              (Fsync (a_ret o), f);
              (Pwrite (a_ret o) (take (Z.to_nat (Z.min count (Z.of_nat (length data)))) data) (off_t offset), w);
              (Open full O_WRONLY 0, o);
              (Lstat full, st)] ++ log s.
Proof.
  assert (Hmin : forall n, (if n <? count then n else count) = Z.min count n)
    by (intros n; destruct (Z.ltb_spec n count); lia).
  unfold nfsproc3_write_3_svc, stat_before, fill_wcc, fill_post_attr, get_errno, bind, ret, gets.
  rewrite Hmin. destruct (fullpath_from_fh file s) as [[[r0 rel] full] s0] eqn:E0.
  destruct (r0 <? 0) eqn:Hr0; [by intros [= <- <-]|].
  apply fullpath_from_fh_spec in E0 as (-> & Hrel & Hfull); [|done].
  run_sys st Est. run_sys o Eo. destruct (Z.ltb_spec (a_ret o) 0) as [Ho|Ho].
  { cbn [errno]. run_sys x Ex. intros [= <- <-] H. apply errno_to_nfs3_ok in H. by destruct Eo. }
  run_sys w Ew. destruct (Z.leb_spec 0 (a_ret w)) as [Hw|Hw].
  - run_sys f Ef. cbn [errno].
    destruct (Z.ltb_spec (a_ret f) 0) as [Hf|Hf].
    + run_sys c Ec. change (-1 <? 0) with true. cbv iota. cbn [errno]. run_sys x Ex.
      intros [= <- <-] H. apply errno_to_nfs3_ok in H. destruct (Z.ltb_spec (a_ret c) 0); naive_solver.
    + run_sys c Ec. destruct (Z.ltb_spec (a_ret w) 0) as [|_]; [lia|]. run_sys x Ex. intros [= <- <-] _.
      eexists rel, full, _, st, o, w, f, c, x. repeat split; try done.
  - run_sys c Ec. destruct (Z.ltb_spec (a_ret w) 0) as [_|]; [|lia]. cbn [errno]. run_sys x Ex.
    intros [= <- <-] H. apply errno_to_nfs3_ok in H. cbn in H.
    destruct (Z.ltb_spec (a_ret c) 0), (Z.ltb_spec (a_ret w) 0); naive_solver.
Qed.

End Write.

(** ** Handles *)

Section Handles.
Context {P : Posix}.

(** A handle the server sends out, and gets back, names the path it was made from. *)
Lemma handle_roundtrip p :
  no_nul p -> unfs_path_is_safe (Some p) = true -> Z.of_nat (length p) <= 59 ->
  exists fh, relpath_to_core_fh p = (0, Some fh) /\
    nfsfh_to_relpath (set_nfsfh (Some fh)) UNFS_MAX_PATH = (0, Some p).
Proof.
  intros Hn Hs Hl. eexists. split; [by apply fh_from_path_ok|].
  assert (He : set_nfsfh (Some (UnfsFh (Z.of_nat (length p) + 5) (handle_bytes p))) = UNFS_MAGIC ++ p ++ [0]).
  { unfold set_nfsfh, handle_bytes. cbn [fh_len fh_data].
    replace (Z.to_nat (Z.of_nat (length p) + 5)) with (length (UNFS_MAGIC ++ p ++ [0]))
      by (rewrite !length_app; cbn; lia).
    set (z := replicate _ _). replace (UNFS_MAGIC ++ p ++ 0 :: z) with ((UNFS_MAGIC ++ p ++ [0]) ++ z)
      by (by rewrite <- !app_assoc). apply take_app_length. }
  assert (Hlen : length (UNFS_MAGIC ++ p ++ [0]) = (length p + 5)%nat) by (rewrite !length_app; cbn; lia).
  rewrite He. unfold nfsfh_to_relpath. rewrite Hlen. unfold UNFS_FHSIZE.
  destruct (Z.ltb_spec 64 (Z.of_nat (length p + 5))); [lia|].
  replace (memcpy (replicate (Z.to_nat 64) 0) 0 (UNFS_MAGIC ++ p ++ [0])) with (handle_bytes p).
  { rewrite Nat2Z.inj_add. apply path_of_handle; done. }
  unfold memcpy, handle_bytes. rewrite Hlen, take_0, drop_replicate, <- !app_assoc. cbn [app].
  unfold UNFS_FHSIZE. by replace (Z.to_nat 64 - (0 + (length p + 5)))%nat with (Z.to_nat 64 - 5 - length p)%nat by lia.
Qed.

Lemma child_relpath_ok d nm size out :
  child_relpath d nm size = (0, out) ->
  unfs_path_is_safe (Some out) = true /\
  exists n, nm = Some n /\ n <> [] /\ ~ In SLASH n /\ n <> str ".." /\
    out = (if streq n (str ".") then d else if streq d [] then n else d ++ SLASH :: n).
Proof.
  unfold child_relpath. destruct (validate_name nm <? 0) eqn:Hv; [done|].
  destruct nm as [n|]; [|done]. change (default [] (Some n)) with n.
  intros H. replace (if streq n (str ".") then snprintf size d
           else if streq d [] then snprintf size n else snprintf size (d ++ SLASH :: n))
    with (snprintf size (if streq n (str ".") then d else if streq d [] then n else d ++ SLASH :: n)) in H
    by (by repeat case_match).
  set (x := if streq n (str ".") then d else _) in *. unfold snprintf in H. cbv beta iota in H.
  destruct (size <=? Z.of_nat (length x)) eqn:Hx; [done|]. apply Z.leb_gt in Hx.
  rewrite take_ge in H by lia. destruct (unfs_path_is_safe (Some x)) eqn:Hp; [|done].
  injection H as <-. split; [done|]. exists n.
  unfold validate_name in Hv. destruct (streq n []) eqn:E1; [done|].
  destruct (bool_decide (is_Some (strchr n SLASH))) eqn:E2; [done|].
  destruct (streq n (str "..")) eqn:E3; [done|].
  apply streq_false in E1, E3. apply bool_decide_eq_false in E2.
  repeat split; try done. apply strchr_None. by apply eq_None_not_Some.
Qed.

(** A call and its effect on the log. *)
Lemma sys_run c s : exists a o e,
  sys c s = (a, Server _ (export_root s) (read_buf s) e ((c, a) :: log s) o).
Proof. unfold sys. destruct (os_step (os s) c) as [a o]. by eexists _, _, _. Qed.

(** [h] is a handle of the file [name] of the directory [dir], and [full] its path. *)
Definition handle_of_child (root : cstr) (w : diropargs3) (h : nfs_fh3) (full : cstr) : Prop :=
  exists dir_rel n child,
    nfsfh_to_relpath (dir w) UNFS_MAX_PATH = (0, Some dir_rel) /\ name w = Some n /\
    child = (if streq n (str ".") then dir_rel else if streq dir_rel [] then n else dir_rel ++ SLASH :: n) /\
    nfsfh_to_relpath h UNFS_MAX_PATH = (0, Some child) /\
    unfs_join_export_path (Some root) (Some child) PATH_MAX = (0, full).

Lemma nfsfh_to_relpath_no_nul fh rel :
  nfsfh_to_relpath fh UNFS_MAX_PATH = (0, Some rel) -> no_nul rel.
Proof. unfold nfsfh_to_relpath. destruct (_ <? _); [done|]. intros H. by apply path_from_fh_safe in H as (_ & ? & _). Qed.

(** From the steps LOOKUP and CREATE have in common. *)
Lemma child_handle root w dir_rel child full fh :
  (forall n, name w = Some n -> no_nul n) ->
  nfsfh_to_relpath (dir w) UNFS_MAX_PATH = (0, Some dir_rel) ->
  child_relpath dir_rel (name w) UNFS_MAX_PATH = (0, child) ->
  unfs_join_export_path (Some root) (Some child) PATH_MAX = (0, full) ->
  relpath_to_core_fh child = (0, Some fh) ->
  handle_of_child root w (set_nfsfh (Some fh)) full.
Proof.
  intros Hn Hd Hc Hj Hf. apply child_relpath_ok in Hc as (Hs & n & Hw & _ & _ & _ & ->).
  specialize (Hn n Hw). apply nfsfh_to_relpath_no_nul in Hd as Hdn.
  set (child := if streq n _ then _ else _) in *.
  assert (Hcn : no_nul child).
  { unfold child, no_nul in *. repeat case_match; try done. apply Forall_app. split; [done|]. by constructor. }
  exists dir_rel, n, child. repeat split; try done.
  destruct (Z_le_gt_dec (Z.of_nat (length child)) 59) as [Hl|Hl].
  - destruct (handle_roundtrip child Hcn Hs Hl) as (fh' & H1 & H2). by rewrite Hf in H1; injection H1 as <-.
  - unfold relpath_to_core_fh in Hf. rewrite fh_from_path_long in Hf by (done || lia). done.
Qed.

Lemma code_of_child d nm size r out :
  child_relpath d nm size = (r, out) -> (r <? 0) = false -> child_relpath d nm size = (0, out).
Proof.
  assert (Hc : (fst (child_relpath d nm size) <? 0) = true \/ fst (child_relpath d nm size) = 0).
  { unfold child_relpath. destruct (validate_name nm <? 0); [by left|].
    destruct (if streq _ _ then _ else _) as [w o]. destruct (size <=? w); [by left|].
    destruct (negb _); [by left|by right]. }
  intros E H. rewrite E in *. cbn [fst] in Hc. destruct Hc as [Hc| ->]; [congruence|done].
Qed.

Lemma code_of_handle p r fh : relpath_to_core_fh p = (r, fh) -> (r <? 0) = false ->
  exists fh', fh = Some fh' /\ relpath_to_core_fh p = (0, Some fh').
Proof.
  unfold relpath_to_core_fh, unfs_fh_from_path.
  destruct (negb _); [by intros [= <- <-]|]. destruct (_ <? _); [by intros [= <- <-]|].
  intros [= <- <-] _. by eexists.
Qed.

End Handles.

Ltac step_sys a := match goal with |- context [sys ?c ?s] =>
  let o := fresh "o" in let e := fresh "e" in destruct (sys_run c s) as (a & o & e & ->);
  cbn [fst snd export_root read_buf log] end.

Section ReplyHandles.
Context {P : Posix} (s : server) (w : diropargs3) (Hn : forall n, name w = Some n -> no_nul n).

Lemma lookup_reply_handle r s' ok :
  nfsproc3_lookup_3_svc w s = (r, s') -> union r = inl ok ->
  exists full a, handle_of_child (export_root s) w (lk_object ok) full /\
    In (Lstat full, a) (log s') /\ 0 <= a_ret a /\ lk_attributes ok = Some (fill_fattr (a_stat a)).
Proof.
  unfold nfsproc3_lookup_3_svc, fill_post_attr, get_errno, bind, ret, gets.
  destruct (fullpath_from_fh (dir w) s) as [[[r0 rel] full] s0] eqn:E0.
  destruct (r0 <? 0) eqn:Hr0; [by intros [= <- <-]|].
  apply fullpath_from_fh_spec in E0 as (-> & Hrel & Hfull); [|done].
  destruct (child_relpath rel (name w) UNFS_MAX_PATH) as [r1 child] eqn:Ec.
  destruct (r1 <? 0) eqn:Hr1; [step_sys x; by intros [= <- <-]|].
  apply code_of_child in Ec; [|done].
  destruct (unfs_join_export_path _ (Some child) _) as [r2 cfull] eqn:Ej.
  destruct (r2 <? 0) eqn:Hr2; [step_sys x; by intros [= <- <-]|].
  apply join_code in Ej; [|done]. step_sys a.
  destruct (Z.ltb_spec (a_ret a) 0); [step_sys x; by intros [= <- <-]|].
  destruct (relpath_to_core_fh child) as [r3 fh] eqn:Eh.
  destruct (r3 <? 0) eqn:Hr3; [step_sys x; by intros [= <- <-]|].
  apply code_of_handle in Eh as (fh' & -> & Eh); [|done]. step_sys x.
  intros [= <- <-] [= <-]. exists cfull, a. cbn.
  split; [by eapply child_handle|]. auto.
Qed.

Lemma create_reply_handle how r s' ok :
  nfsproc3_create_3_svc w how s = (r, s') -> union r = inl ok ->
  exists h full flags a o, cr_obj ok = Some h /\ handle_of_child (export_root s) w h full /\
    In (Open full flags (create_mode_from_args how), o) (log s') /\ 0 <= a_ret o /\
    In (Lstat full, a) (log s') /\ 0 <= a_ret a /\ cr_attributes ok = Some (fill_fattr (a_stat a)).
Proof.
  unfold nfsproc3_create_3_svc, stat_before, fill_wcc, fill_post_attr, get_errno, bind, ret, gets.
  destruct (fullpath_from_fh (dir w) s) as [[[r0 rel] full] s0] eqn:E0.
  destruct (r0 <? 0) eqn:Hr0; [by intros [= <- <-]|].
  apply fullpath_from_fh_spec in E0 as (-> & Hrel & Hfull); [|done]. step_sys b.
  destruct (child_relpath rel (name w) UNFS_MAX_PATH) as [r1 child] eqn:Ec.
  destruct (r1 <? 0) eqn:Hr1; [cbn [orb]; step_sys x; by intros [= <- <-]|].
  apply code_of_child in Ec; [|done]. cbn [orb].
  destruct (streq _ _); [step_sys x; by intros [= <- <-]|].
  destruct (unfs_join_export_path _ (Some child) _) as [r2 cfull] eqn:Ej.
  destruct (r2 <? 0) eqn:Hr2; [step_sys x; by intros [= <- <-]|].
  apply join_code in Ej; [|done]. step_sys op.
  destruct (Z.ltb_spec (a_ret op) 0); [step_sys x; by intros [= <- <-]|]. step_sys c. step_sys a.
  destruct (Z.ltb_spec (a_ret a) 0); [step_sys x; by intros [= <- <-]|].
  destruct (relpath_to_core_fh child) as [r3 fh] eqn:Eh.
  destruct (r3 <? 0) eqn:Hr3; [step_sys x; by intros [= <- <-]|].
  apply code_of_handle in Eh as (fh' & -> & Eh); [|done]. step_sys x.
  intros [= <- <-] [= <-]. eexists _, cfull, _, a, op. cbn.
  split; [done|]. split; [by eapply child_handle|]. repeat split; eauto.
Qed.

End ReplyHandles.

(** C33: the handle in a successful reply to LOOKUP or CREATE names, when a client sends
    it back, exactly the file that was asked for: its path is the directory's path and
    the name, and the attributes in the reply are those [lstat] gave for that path. *)
Theorem reply_handles_name_the_child {P : Posix} (s : server) (w : diropargs3) (how : createhow3) :
  (forall n, name w = Some n -> no_nul n) ->
  (forall r s' ok, nfsproc3_lookup_3_svc w s = (r, s') -> union r = inl ok ->
     exists full a, handle_of_child (export_root s) w (lk_object ok) full /\
       In (Lstat full, a) (log s') /\ 0 <= a_ret a /\ lk_attributes ok = Some (fill_fattr (a_stat a))) /\
  (forall r s' ok, nfsproc3_create_3_svc w how s = (r, s') -> union r = inl ok ->
     exists h full flags a o, cr_obj ok = Some h /\ handle_of_child (export_root s) w h full /\
       In (Open full flags (create_mode_from_args how), o) (log s') /\ 0 <= a_ret o /\
       In (Lstat full, a) (log s') /\ 0 <= a_ret a /\ cr_attributes ok = Some (fill_fattr (a_stat a))).
Proof.
  intros Hn. split; intros r s' ok.
  - by apply lookup_reply_handle.
  - by apply create_reply_handle.
Qed.

Lemma fullpath_run {P : Posix} fh s rel full :
  nfsfh_to_relpath fh UNFS_MAX_PATH = (0, Some rel) ->
  unfs_join_export_path (Some (export_root s)) (Some rel) PATH_MAX = (0, full) ->
  fullpath_from_fh fh s = (0, rel, full, s).
Proof. intros H1 H2. unfold fullpath_from_fh, bind, gets, ret. rewrite H1. cbn [Z.ltb Z.compare]. by rewrite H2. Qed.

(** a handle holds paths of at most 59 bytes, and CREATE finds that out too late: for
    a file whose path is longer, on a system where every call succeeds, the file is
    created and then the request is answered with [NFS3ERR_NAMETOOLONG]; nothing
    removes the file again. *)
Theorem create_fails_after_creating {P : Posix} (s : server) (w : diropargs3) (how : createhow3)
    dir_rel dir_full child full :
  (forall o c, 0 <= a_ret (fst (os_step o c))) ->
  nfsfh_to_relpath (dir w) UNFS_MAX_PATH = (0, Some dir_rel) ->
  unfs_join_export_path (Some (export_root s)) (Some dir_rel) PATH_MAX = (0, dir_full) ->
  child_relpath dir_rel (name w) UNFS_MAX_PATH = (0, child) -> name w <> Some (str ".") ->
  unfs_join_export_path (Some (export_root s)) (Some child) PATH_MAX = (0, full) ->
  59 < Z.of_nat (length child) ->
  exists r s' flags st o c st' st'',
    nfsproc3_create_3_svc w how s = (r, s') /\ status r = NFS3ERR_NAMETOOLONG /\
    log s' = [(Lstat dir_full, st''); (Lstat full, st'); (Close (a_ret o), c);
              (Open full flags (create_mode_from_args how), o); (Lstat dir_full, st)] ++ log s /\
    0 <= a_ret o /\ Z.land flags O_CREAT = O_CREAT.
Proof.
  intros Hos Hd Hdf Hc Hdot Hj Hl.
  unfold nfsproc3_create_3_svc, stat_before, fill_wcc, fill_post_attr, get_errno, bind, ret, gets.
  rewrite (fullpath_run _ _ _ _ Hd Hdf). cbn [Z.ltb Z.compare].
  assert (Hs : forall c s1, exists a s2, sys c s1 = (a, s2) /\ 0 <= a_ret a /\
                 export_root s2 = export_root s1 /\ log s2 = (c, a) :: log s1).
  { intros c s1. unfold sys. specialize (Hos (os s1) c). destruct (os_step _ _) as [a o].
    by eexists _, _. }
  destruct (Hs (Lstat dir_full) s) as (st & s1 & -> & _ & Hr1 & Hl1). rewrite Hr1, Hc.
  change (0 <? 0) with false. cbn [orb].
  destruct (name w) as [n|] eqn:En; [|done]. change (default [] (Some n)) with n.
  destruct (streq n (str ".")) eqn:Ed; [by apply streq_true in Ed; subst|]. rewrite Hj. cbn [Z.ltb Z.compare].
  set (flags := match how with UNCHECKED _ => _ | _ => _ end).
  destruct (Hs (Open full flags (create_mode_from_args how)) s1) as (o & s2 & -> & Ho & Hr2 & Hl2).
  destruct (Z.ltb_spec (a_ret o) 0); [lia|].
  destruct (Hs (Close (a_ret o)) s2) as (c & s3 & -> & _ & Hr3 & Hl3).
  destruct (Hs (Lstat full) s3) as (st' & s4 & -> & Hst & Hr4 & Hl4).
  destruct (Z.ltb_spec (a_ret st') 0); [lia|].
  apply child_relpath_ok in Hc as [Hsafe _].
  unfold relpath_to_core_fh. rewrite fh_from_path_long by done.
  change (- ENAMETOOLONG <? 0) with true. cbv iota.
  destruct (Hs (Lstat dir_full) s4) as (st'' & s5 & -> & _ & _ & Hl5).
  eexists _, _, flags, st, o, c, st', st''. split; [reflexivity|]. split; [done|].
  split; [by rewrite Hl5, Hl4, Hl3, Hl2, Hl1|]. split; [done|]. unfold flags. by destruct how.
Qed.

(** ** Listing a directory *)

Section Listing.
Context {P : Posix}.

(** The operating system reads the directory [full] as the entries [ents]: [opendir] starts
    a stream, [readdir] takes its next entry, and a null pointer ends it. *)
Class ReadsDir (full : cstr) (ents : list dirent) := {
  stream : OS -> Z -> list dirent -> Prop;
  stream_open : forall o, let '(a, o') := os_step o (Opendir full) in 0 <= a_ret a /\ stream o' (a_ret a) ents;
  stream_next : forall o d e l, stream o d (e :: l) ->
    let '(a, o') := os_step o (Readdir d) in a_dirent a = Some e /\ stream o' d l;
  stream_end : forall o d, stream o d [] -> a_dirent (fst (os_step o (Readdir d))) = None
}.

(** A client lists a directory page by page: it asks for what follows the cookie of the
    last entry it has, until a reply says that this was the end. *)
Fixpoint list_pages (fuel : nat) (dir : nfs_fh3) (cookie count : Z) : M (option (list entry3)) :=
  match fuel with
  | O => ret None
  | S fuel' =>
      let! r := nfsproc3_readdir_3_svc dir cookie count in
      match union r with
      | inr _ => ret None
      | inl ok =>
          if rdd_eof ok then ret (Some (rdd_entries ok)) else
          let! rest := list_pages fuel' dir (List.last (map e_cookie (rdd_entries ok)) cookie) count in
          ret (option_map (fun l => rdd_entries ok ++ l) rest)
      end
  end.

(** The entry a reply holds for the [n]-th entry of the directory, from 1. *)
Definition entry_of (n : Z) (e : dirent) : entry3 :=
  Entry3 (u64 (d_ino e)) (take 255 (d_name e)) n.
Fixpoint entries_from (n : Z) (l : list dirent) : list entry3 :=
  match l with
  | [] => []
  | e :: l' => entry_of n e :: entries_from (n + 1) l'
  end.

Context {full : cstr} {ents : list dirent} {D : ReadsDir full ents}.

Lemma root_sys c : frame export_root (sys c).
Proof. intros s. unfold sys. by destruct (os_step _ _). Qed.
Hint Resolve root_sys : frame.

Lemma readdir_loop_spec d mx cookie : forall rest fuel seq es s,
  stream (os s) d rest -> 0 <= seq -> seq + Z.of_nat (length rest) < 2 ^ 64 -> 0 <= mx ->
  Z.of_nat (length es) <= mx -> (seq < cookie -> es = []) ->
  (Z.to_nat (cookie - seq) + (Z.to_nat mx - length es) < fuel)%nat ->
  let more := drop (Z.to_nat (cookie - seq)) rest in
  let room := (Z.to_nat mx - length es)%nat in
  exists s', readdir_loop fuel d mx cookie seq es s =
    (Some (es ++ entries_from (Z.max seq cookie + 1) (take room more), (length more <=? room)%nat), s') /\
    export_root s' = export_root s.
Proof.
  induction rest as [|e rest IH]; intros fuel seq es s Hst Hs Hlim Hmx Hes Hskip Hf more room;
    (destruct fuel as [|fuel]; [lia|]); cbn [readdir_loop]; unfold bind at 1, sys at 1.
  - pose proof (stream_end _ _ Hst) as Hn. destruct (os_step _ _) as [a o]. cbn [fst] in Hn. rewrite Hn.
    unfold more. rewrite drop_nil, take_nil, app_nil_r. by eexists.
  - pose proof (stream_next _ _ _ _ Hst) as Hn. destruct (os_step _ _) as [a o]. destruct Hn as [-> Hst'].
    cbn [length] in Hlim. assert (Hu : u64 (seq + 1) = seq + 1) by (unfold u64; rewrite Z.mod_small; lia).
    rewrite Hu. set (s1 := Server _ _ _ _ _ _). destruct (Z.leb_spec (seq + 1) cookie) as [Hk|Hk].
    + assert (es = []) as -> by (apply Hskip; lia). cbn [length] in *.
      destruct (IH fuel (seq + 1) [] s1) as (s' & -> & Hr); try done; try lia; try (cbn [length]; lia).
      exists s'. split; [|done]. unfold more, room. replace (Z.to_nat (cookie - seq)) with (S (Z.to_nat (cookie - (seq + 1)))) by lia.
      cbn [skipn]. replace (Z.max (seq + 1) cookie) with (Z.max seq cookie) by lia. done.
    + unfold more, room. replace (Z.to_nat (cookie - seq)) with O by lia. rewrite drop_0.
      replace (Z.max seq cookie) with seq by lia.
      destruct (Z.eqb_spec (Z.of_nat (length es)) mx) as [Hm|Hm].
      * exists s1. split; [|done]. replace (Z.to_nat mx - length es)%nat with O by lia.
        by rewrite take_0, app_nil_r.
      * change (snprintf (NFS3_MAXNAMLEN + 1) (d_name e)) with (Z.of_nat (length (d_name e)), take 255 (d_name e)).
        cbv iota. change (Entry3 _ _ (seq + 1)) with (entry_of (seq + 1) e).
        destruct (IH fuel (seq + 1) (es ++ [entry_of (seq + 1) e]) s1) as (s' & Hrun & Hr);
          rewrite ?length_app; cbn [length]; try done; try lia.
        rewrite Hrun. exists s'. split; [|done]. rewrite length_app. cbn [length].
        replace (Z.to_nat mx - length es)%nat with (S (Z.to_nat mx - (length es + 1)))%nat by lia.
        replace (Z.to_nat (cookie - (seq + 1))) with O by lia. rewrite drop_0.
        replace (Z.max (seq + 1) cookie) with (seq + 1) by lia.
        cbn [take firstn entries_from length]. rewrite <- app_assoc. done.
Qed.

Lemma readdir_max_pos count : 0 <= count -> 1 <= readdir_max count <= 256.
Proof.
  intros H. unfold readdir_max. pose proof (Z.div_pos count 32 H ltac:(lia)).
  destruct (Z.eqb_spec (count / 32) 0); [done|]. destruct (Z.ltb_spec 256 (count / 32)); lia.
Qed.

(** One page. *)
Lemma readdir_page s fh rel cookie count :
  nfsfh_to_relpath fh UNFS_MAX_PATH = (0, Some rel) ->
  unfs_join_export_path (Some (export_root s)) (Some rel) PATH_MAX = (0, full) ->
  0 <= cookie -> 0 <= count -> Z.of_nat (length ents) < 2 ^ 64 ->
  let more := drop (Z.to_nat cookie) ents in
  let room := Z.to_nat (readdir_max count) in
  exists s' attr, nfsproc3_readdir_3_svc fh cookie count s =
    (Res NFS3_OK (inl (ReaddirOk attr (replicate 8 0) (entries_from (cookie + 1) (take room more))
                         (length more <=? room)%nat)), s') /\
    export_root s' = export_root s.
Proof.
  intros Hr Hj Hk Hc Hlim more room. unfold nfsproc3_readdir_3_svc, bind at 1.
  rewrite (fullpath_run _ _ _ _ Hr Hj). cbn [Z.ltb Z.compare]. unfold bind at 1, sys at 1.
  pose proof (stream_open (os s)) as Ho. destruct (os_step _ _) as [a o]. destruct Ho as [Ha Hst].
  destruct (Z.ltb_spec (a_ret a) 0) as [|_]; [lia|]. set (s1 := Server _ _ _ _ _ _).
  pose proof (readdir_max_pos count Hc) as Hmx.
  destruct (readdir_loop_spec (a_ret a) (readdir_max count) cookie ents (Z.to_nat (cookie + readdir_max count + 1))
    0 [] s1) as (s2 & Hrun & Hroot); try done; try (cbn [length]; lia).
  cbv zeta. unfold bind at 1. rewrite Hrun. cbn [default id app length].
  replace (Z.max 0 cookie) with cookie by lia. rewrite Z.sub_0_r, Nat.sub_0_r.
  unfold bind, fill_post_attr, bind, ret. step_sys x. step_sys y.
  eexists _, _. split; [reflexivity|]. done.
Qed.

Lemma entries_from_length n l : length (entries_from n l) = length l.
Proof. revert n; induction l as [|e l IH]; intros n; cbn; [done|]. by rewrite IH. Qed.

Lemma entries_from_app n a b :
  entries_from n (a ++ b) = entries_from n a ++ entries_from (n + Z.of_nat (length a)) b.
Proof.
  revert n; induction a as [|e a IH]; intros n; cbn [app entries_from length]; [by rewrite Z.add_0_r|].
  rewrite IH. do 3 f_equal. lia.
Qed.

Lemma last_cookie n l c : l <> [] -> List.last (map e_cookie (entries_from n l)) c = n + Z.of_nat (length l) - 1.
Proof.
  revert n; induction l as [|e l IH]; intros n H; [done|]. cbn [entries_from map length].
  destruct l as [|e' l]; [cbn; lia|]. transitivity (List.last (map e_cookie (entries_from (n + 1) (e' :: l))) c); [done|].
  rewrite IH by done. cbn [length]. lia.
Qed.

Lemma list_pages_spec fh rel count : forall fuel cookie s,
  nfsfh_to_relpath fh UNFS_MAX_PATH = (0, Some rel) ->
  unfs_join_export_path (Some (export_root s)) (Some rel) PATH_MAX = (0, full) ->
  0 <= cookie -> 0 <= count -> Z.of_nat (length ents) < 2 ^ 64 ->
  (length (drop (Z.to_nat cookie) ents) < fuel)%nat ->
  fst (list_pages fuel fh cookie count s) = Some (entries_from (cookie + 1) (drop (Z.to_nat cookie) ents)).
Proof.
  induction fuel as [|fuel IH]; intros cookie s Hr Hj Hk Hc Hlim Hf; [lia|].
  destruct (readdir_page s fh rel cookie count) as (s' & attr & Hrun & Hroot); try done.
  cbn [list_pages]. unfold bind at 1. rewrite Hrun. cbn [union rdd_eof rdd_entries].
  set (more := drop (Z.to_nat cookie) ents) in *. set (room := Z.to_nat (readdir_max count)) in *.
  destruct (Nat.leb_spec (length more) room) as [Hle|Hgt]; [by rewrite take_ge by lia|].
  pose proof (readdir_max_pos count Hc) as Hmx.
  assert (Hlt : length (take room more) = room) by (rewrite length_take; lia).
  rewrite last_cookie by (intros E; rewrite E in Hlt; cbn in Hlt; lia). rewrite Hlt.
  assert (Hd : drop (Z.to_nat (cookie + 1 + Z.of_nat room - 1)) ents = drop room more)
    by (unfold more; rewrite drop_drop; f_equal; lia).
  unfold bind. specialize (IH (cookie + 1 + Z.of_nat room - 1) s').
  rewrite Hd in IH. destruct (list_pages fuel fh _ count s') as [l s2]. cbn [fst] in *.
  rewrite IH; try done; try (rewrite Hroot; done); try (rewrite length_drop; lia); try lia.
  cbn. f_equal. rewrite <- (take_drop room more) at 3. rewrite entries_from_app, Hlt.
  do 2 f_equal. lia.
Qed.

End Listing.

(** C34: listing a directory through READDIR gives every entry of it exactly once and in
    order, whatever the size of the pages the client asks for: the client that repeats
    the request with the cookie of the last entry it got is told it has reached the end
    after at most one request per entry and one more. *)
Theorem readdir_pages_complete {P : Posix} (s : server) (fh : nfs_fh3) (rel full : cstr)
    (ents : list dirent) (D : ReadsDir full ents) (count : Z) :
  nfsfh_to_relpath fh UNFS_MAX_PATH = (0, Some rel) ->
  unfs_join_export_path (Some (export_root s)) (Some rel) PATH_MAX = (0, full) ->
  0 <= count -> Z.of_nat (length ents) < 2 ^ 64 ->
  fst (list_pages (S (length ents)) fh 0 count s) = Some (entries_from 1 ents).
Proof.
  intros Hr Hj Hc Hlim. apply (list_pages_spec fh rel count (S (length ents)) 0 s); try done. apply Nat.lt_succ_diag_r.
Qed.
