(* ===== verification/NfsWire.v ===== *)
(** * NfsWire: what one side writes the other side reads

    A value makes the trip over the wire when it can be written and reading gives it
    back, whatever follows it.  The messages make the trip because their parts do. *)

From Stdlib Require Import String.
From stdpp Require Import base list numbers.
From S2P Require Import Prelude CString NfsCore NfsServer NfsXdr NfsRpc NfsSpec.

Local Open Scope Z_scope.
Local Open Scope fs_scope.

Definition trips {A} (c : xdr A) (a : A) : Prop :=
  exists b, xput c a = Some b /\ forall rest, xget c (b ++ rest) = Some (a, rest).

(** What the library promises (RFC 4506): values in range make the trip, and a number that
    was read is in range. *)
Class XdrLaws {X : XdrLib} : Prop := {
  u_int_trips : forall z, 0 <= z < 2 ^ 32 -> trips xdr_u_int z;
  u_int_range : forall l z r, xget xdr_u_int l = Some (z, r) -> 0 <= z < 2 ^ 32;
  int_trips : forall z, - 2 ^ 31 <= z < 2 ^ 31 -> trips xdr_int z;
  u_quad_t_trips : forall z, 0 <= z < 2 ^ 64 -> trips xdr_u_quad_t z;
  bool_trips : forall b, trips xdr_bool b;
  enum_trips : forall z, - 2 ^ 31 <= z < 2 ^ 31 -> trips xdr_enum z;
  opaque_trips : forall n l, Z.of_nat (length l) = n -> trips (xdr_opaque n) l;
  bytes_trips : forall n l, Z.of_nat (length l) <= n < 2 ^ 32 -> trips (xdr_bytes n) l;
  string_trips : forall n s, Z.of_nat (length s) <= n < 2 ^ 32 -> trips (xdr_string n) s;
  pointer_trips : forall A (c : xdr A) o, (forall a, o = Some a -> trips c a) -> trips (xdr_pointer c) o;
  array_trips : forall A (c : xdr A) n l, Z.of_nat (length l) <= n < 2 ^ 32 -> Forall (trips c) l -> trips (xdr_array n c) l
}.

(** ** Putting messages together *)

Lemma trips_field {R A} (f : R -> A) (c : xdr A) k r : trips c (f r) -> trips (k (f r)) r -> trips (xdr_field f c k) r.
Proof.
  intros (b & Hp & Hg) (b' & Hp' & Hg'). exists (b ++ b'). cbn. rewrite Hp, Hp'. split; [done|].
  intros rest. rewrite <- app_assoc, Hg. apply Hg'.
Qed.

Lemma trips_arm {R A} (f : R -> option A) (c : xdr A) k r a :
  f r = Some a -> trips c a -> trips (k a) r -> trips (xdr_arm f c k) r.
Proof.
  intros Hf (b & Hp & Hg) (b' & Hp' & Hg'). exists (b ++ b'). cbn. rewrite Hf, Hp, Hp'. split; [done|].
  intros rest. rewrite <- app_assoc, Hg. apply Hg'.
Qed.

Lemma trips_done {R} (r : R) : trips (xdr_done r) r.
Proof. by exists []. Qed.

Create HintDb wire.
#[export] Hint Resolve trips_done bool_trips : wire.

(** Read the fields of a message. *)
Ltac fields := cbn [fst snd specdata1 specdata2 seconds nseconds type mode nlink uid gid size used rdev fsid fileid
  atime mtime ctime wcc_size wcc_mtime wcc_ctime before after dir name sa_mode sa_uid sa_gid sa_size sa_atime sa_mtime
  lk_object lk_attributes lk_dir ac_attributes ac_access rd_attributes rd_count rd_eof rd_data
  wr_wcc wr_count wr_committed wr_verf cr_obj cr_attributes cr_wcc e_fileid e_name e_cookie
  rdd_attributes rdd_verf rdd_entries rdd_eof fi_attributes rtmax rtpref rtmult wtmax wtpref wtmult dtpref
  maxfilesize time_delta properties fhandle auth_flavors aa_object aa_access ra_file ra_offset ra_count
  wa_file wa_offset wa_count wa_stable wa_data sga_object sga_new sga_guard ca_where ca_how
  rda_dir rda_cookie rda_verf rda_count rpa_dir rpa_cookie rpa_verf rpa_dircount rpa_maxcount].

(** Take a message apart. *)
Ltac wire :=
  repeat match goal with
  | |- trips (xdr_field _ _ _) _ => apply trips_field; fields
  | |- trips (xdr_done _) _ => apply trips_done
  | |- trips _ _ => solve [auto with wire]
  end.

Section Trips.
Context {X : XdrLib} {XL : XdrLaws}.

Lemma trips_u32 z : trips xdr_uint32 (u32 z).
Proof. apply u_int_trips. apply Z.mod_pos_bound. lia. Qed.
Lemma trips_u64 z : trips xdr_uint64 (u64 z).
Proof. apply u_quad_t_trips. apply Z.mod_pos_bound. lia. Qed.

Lemma trips_code {E} (code : E -> Z) all e :
  - 2 ^ 31 <= code e < 2 ^ 31 -> List.find (fun x => code x =? code e) all = Some e -> trips (xdr_code code all) e.
Proof. intros Hr Hf. apply trips_field; [by apply enum_trips|]. rewrite Hf. apply trips_done. Qed.

Lemma trips_nfsstat3 s : trips xdr_nfsstat3 s.
Proof. apply trips_code; [destruct s; cbn; lia|by destruct s]. Qed.
Lemma trips_ftype3 t : trips xdr_ftype3 t.
Proof. apply trips_code; [destruct t; cbn; lia|by destruct t]. Qed.
Lemma trips_mountstat3 s : trips xdr_mountstat3 s.
Proof. apply trips_code; [destruct s; cbn; lia|by destruct s]. Qed.
Hint Resolve trips_u32 trips_u64 trips_nfsstat3 trips_ftype3 trips_mountstat3 : wire.

Lemma trips_optional {A} (c : xdr A) o : (forall a, o = Some a -> trips c a) -> trips (xdr_optional c) o.
Proof.
  intros H. apply trips_field; [apply bool_trips|]. destruct o as [a|]; cbn.
  - apply (trips_arm _ _ _ _ a); [done|by apply H|apply trips_done].
  - apply trips_done.
Qed.

Lemma trips_ok {A B} (ok : xdr A) (failed : xdr B) a : trips ok a -> trips (xdr_result ok failed) (Res NFS3_OK (inl a)).
Proof.
  intros H. apply trips_field; [apply trips_nfsstat3|]. cbn [status].
  apply (trips_arm _ _ _ _ a); [done|done|apply trips_done].
Qed.

Lemma trips_failed {A B} (ok : xdr A) (failed : xdr B) st b :
  st <> NFS3_OK -> trips failed b -> trips (xdr_result ok failed) (Res st (inr b)).
Proof.
  intros Hs H. apply trips_field; [apply trips_nfsstat3|]. cbn [status].
  destruct st; try done; (apply (trips_arm _ _ _ _ b); [done|done|apply trips_done]).
Qed.

(** ** Attributes *)

Lemma trips_time t : trips xdr_nfstime3 (nfstime_from_stat t).
Proof. unfold xdr_nfstime3, nfstime_from_stat. wire. Qed.
Hint Resolve trips_time : wire.

Lemma trips_fattr st : trips xdr_fattr3 (fill_fattr st).
Proof.
  unfold xdr_fattr3, fill_fattr. wire. unfold xdr_specdata3.
  repeat (apply trips_field; [apply u_int_trips; cbn; lia|]). apply trips_done.
Qed.

(** Attributes the server has from [lstat] or [fstat]. *)
Definition stat_attr (o : post_op_attr) : Prop := forall f, o = Some f -> exists st, f = fill_fattr st.

Lemma trips_post o : stat_attr o -> trips xdr_post_op_attr o.
Proof. intros H. apply trips_optional. intros f E. destruct (H f E) as [st ->]. apply trips_fattr. Qed.

Lemma trips_pre b : trips xdr_pre_op_attr (match b with Some st => fill_pre_attr_from_stat st | None => None end).
Proof.
  apply trips_optional. destruct b as [st|]; [|done]. intros a [= <-]. unfold xdr_wcc_attr. wire.
Qed.

Definition stat_wcc (w : wcc_data) : Prop :=
  stat_attr (after w) /\ exists b, before w = match b with Some st => fill_pre_attr_from_stat st | None => None end.

Lemma trips_wcc w : stat_wcc w -> trips xdr_wcc_data w.
Proof.
  intros [Ha [b Hb]]. destruct w as [bf af]. cbn in *. unfold xdr_wcc_data. wire; cbn [before after].
  - rewrite Hb. apply trips_pre.
  - by apply trips_post.
Qed.

End Trips.

(** ** What the procedures return *)

(** Of the operating system: [lstat] returns 0 or fails, a call that fails says why, and
    [pread] gives no more than it was asked for. *)
Class PosixWire {P : Posix} : Prop := {
  pw_errno :: PosixErrno;
  pw_lstat : forall o p, a_ret (fst (os_step o (Lstat p))) <= 0;
  pw_pread : forall o fd n off, Z.of_nat (length (a_data (fst (os_step o (Pread fd n off))))) <= Z.max 0 n
}.

Section Results.
Context {P : Posix} {PW : PosixWire}.

Definition nwp {A} (m : M A) (Q : A -> server -> Prop) (s : server) : Prop := Q (fst (m s)) (snd (m s)).

Lemma nwp_ret {A} (a : A) Q s : Q a s -> nwp (ret a) Q s.
Proof. exact id. Qed.
Lemma nwp_bind {A B} (m : M A) (k : A -> M B) Q s : nwp m (fun a s' => nwp (k a) Q s') s -> nwp (bind m k) Q s.
Proof. unfold nwp, bind. by destruct (m s). Qed.
Lemma nwp_gets {A} (f : server -> A) Q s : Q (f s) s -> nwp (gets f) Q s.
Proof. exact id. Qed.
Lemma nwp_mono {A} (m : M A) (Q R : A -> server -> Prop) s : nwp m Q s -> (forall a s', Q a s' -> R a s') -> nwp m R s.
Proof. unfold nwp. auto. Qed.
Lemma nwp_read_buf b Q s : (forall s', (errno s <> 0 -> errno s' <> 0) -> Q tt s') -> nwp (set_read_buf b) Q s.
Proof. intros H. by apply H. Qed.

Definition call_law (c : syscall) (a : answer) : Prop :=
  match c with
  | Lstat _ => a_ret a <= 0
  | Pread _ n _ => Z.of_nat (length (a_data a)) <= Z.max 0 n
  | _ => True
  end.

Lemma nwp_sys c Q s :
  (forall a s', (a_ret a < 0 \/ errno s <> 0 -> errno s' <> 0) -> call_law c a -> Q a s') -> nwp (sys c) Q s.
Proof.
  intros H. unfold nwp, sys. pose proof (os_errno (os s) c) as He. pose proof (pw_lstat (os s)) as Hl.
  pose proof (pw_pread (os s)) as Hp. destruct (os_step (os s) c) as [a o] eqn:E. cbn in *. apply H.
  - cbn. destruct (Z.ltb_spec (a_ret a) 0); [auto|]. intros [?|?]; [lia|done].
  - destruct c; cbn; try done.
    + specialize (Hl path). by rewrite E in Hl.
    + specialize (Hp fd count offset). by rewrite E in Hp.
Qed.

Lemma errno_fails e : e <> 0 -> errno_to_nfs3 e <> NFS3_OK.
Proof. intros H E. by apply H, errno_to_nfs3_ok. Qed.

End Results.

(** Run a procedure forward. *)
Ltac nstep :=
  match goal with
  | |- nwp (bind _ _) _ _ => apply nwp_bind
  | |- nwp (ret _) _ _ => apply nwp_ret
  | |- nwp (gets _) _ _ => apply nwp_gets
  | |- nwp get_errno _ _ => apply nwp_gets
  | |- nwp (sys _) _ _ => apply nwp_sys; intros ?a ?s' ?Hn ?Hc
  | |- nwp (set_read_buf _) _ _ => apply nwp_read_buf; intros ?s' ?Hb
  | |- nwp (if ?b then _ else _) _ _ => destruct b eqn:?
  | |- nwp (let '(_, _) := ?x in _) _ _ => destruct x eqn:?
  | |- nwp (match ?x with _ => _ end) _ _ => destruct x eqn:?
  | |- nwp _ _ _ => eapply nwp_mono; [solve [eauto 2 with nwp]|]; intros ?x ?s' ?Hx; cbv beta in Hx
  end.
Ltac nsteps := repeat (nstep; cbv beta zeta).

Create HintDb nwp.

(** The error number is set, because a call failed. *)
Ltac nonzero :=
  intros; cbv beta in *; try discriminate;
  repeat match goal with
  | H : negb _ = true |- _ => apply negb_true_iff in H
  | H : negb _ = false |- _ => apply negb_false_iff in H
  | H : (_ <? 0) = true |- _ => apply Z.ltb_lt in H
  | H : (0 <=? _) = true |- _ => apply Z.leb_le in H
  | H : (0 <=? _) = false |- _ => apply Z.leb_gt in H
  | H : (if ?x <? 0 then _ else _) < 0 |- _ => destruct (Z.ltb_spec x 0)
  | H : (_ || _) = true |- _ => apply orb_true_iff in H as [H|H]
  | H : _ /\ _ |- _ => destruct H
  end; try discriminate; first [lia | auto 12].

Section Helpers.
Context {P : Posix} {PW : PosixWire}.

Lemma nwp_post path s :
  nwp (fill_post_attr path) (fun o s' => stat_attr o /\ (errno s <> 0 -> errno s' <> 0)) s.
Proof.
  unfold fill_post_attr. nsteps. split; [|auto]. intros f. destruct (_ =? _); [|done]. intros [= <-]. eauto.
Qed.
#[local] Hint Resolve nwp_post : nwp.

Lemma nwp_wcc path b s : nwp (fill_wcc path b) (fun w _ => stat_wcc w) s.
Proof. unfold fill_wcc. nsteps. split; [apply Hx|by exists b]. Qed.

Lemma nwp_before path s : nwp (stat_before path) (fun o s' => o = None -> errno s' <> 0) s.
Proof.
  unfold stat_before. nsteps. cbn in Hc. destruct (Z.eqb_spec (a_ret a) 0); [done|]. intros _. apply Hn. left. lia.
Qed.

Lemma nwp_fullpath fh s : nwp (fullpath_from_fh fh) (fun _ _ => True) s.
Proof. by unfold nwp. Qed.

Lemma nwp_sattr path n s : nwp (apply_sattr path n) (fun ok s' => ok = false -> errno s' <> 0) s.
Proof. unfold apply_sattr. nsteps; nonzero. Qed.

End Helpers.

#[export] Hint Resolve nwp_post nwp_wcc nwp_before nwp_fullpath nwp_sattr : nwp.

(** Finish with a result: an error and its attributes, or a success. *)
Ltac result :=
  match goal with
  | |- trips (xdr_result _ _) (Res NFS3_OK (inl _)) => apply trips_ok
  | |- trips (xdr_result _ _) (Res _ (inr _)) => apply trips_failed; [try first [done|apply errno_fails; nonzero]|]
  end; try solve [apply trips_post; nonzero | apply trips_wcc; nonzero | apply trips_done].

Section Procedures.
Context {P : Posix} {PW : PosixWire} {X : XdrLib} {XL : XdrLaws}.

Lemma stat_attr_none : stat_attr None.
Proof. done. Qed.
Lemma stat_attr_some st : stat_attr (Some (fill_fattr st)).
Proof. intros f [= <-]. eauto. Qed.
Lemma stat_wcc_zero : stat_wcc wcc_zero.
Proof. split; [done|by exists None]. Qed.
#[local] Hint Resolve stat_attr_none stat_attr_some stat_wcc_zero trips_u32 trips_u64 trips_fattr trips_nfsstat3 : core.

Lemma getattr_trips fh s : nwp (nfsproc3_getattr_3_svc fh) (fun r _ => trips xdr_GETATTR3res r) s.
Proof. unfold nfsproc3_getattr_3_svc, xdr_GETATTR3res. nsteps; result. apply trips_fattr. Qed.

Lemma setattr_trips fh n g s : nwp (nfsproc3_setattr_3_svc fh n g) (fun r _ => trips xdr_SETATTR3res r) s.
Proof.
  unfold nfsproc3_setattr_3_svc, xdr_SETATTR3res, xdr_SETATTR3resok, xdr_SETATTR3resfail. nsteps; result.
Qed.

Lemma lor_bound n a b : 0 <= n -> 0 <= a < 2 ^ n -> 0 <= b < 2 ^ n -> 0 <= Z.lor a b < 2 ^ n.
Proof.
  intros Hn Ha Hb. assert (E : Z.lor a b mod 2 ^ n = Z.lor a b).
  { rewrite <- Z.land_ones, Z.land_lor_distr_l, !Z.land_ones, !Z.mod_small by lia. done. }
  rewrite <- E. apply Z.mod_pos_bound. lia.
Qed.

Lemma nwp_grant path asked bit m g s : 0 <= g < 2 ^ 6 -> 0 <= bit < 2 ^ 6 ->
  nwp (grant path asked bit m g) (fun g' _ => 0 <= g' < 2 ^ 6) s.
Proof.
  intros Hg Hb. unfold grant. nsteps; [|done]. destruct (a_ret a =? 0); [|done]. by apply (lor_bound 6).
Qed.

Lemma access_trips fh a s : nwp (nfsproc3_access_3_svc fh a) (fun r _ => trips xdr_ACCESS3res r) s.
Proof.
  unfold nfsproc3_access_3_svc, xdr_ACCESS3res, xdr_ACCESS3resok, xdr_ACCESS3resfail.
  assert (H0 : 0 <= 0 < 2 ^ 6) by done. nsteps; try result.
  do 6 (eapply nwp_mono; [apply nwp_grant; [eassumption|done]|]; intros ? ? ?; cbv beta in *; try apply nwp_bind).
  nsteps. result. wire; [apply trips_post; nonzero|]. apply u_int_trips. lia.
Qed.

Lemma read_trips fh o c s : nwp (nfsproc3_read_3_svc fh o c) (fun r _ => trips xdr_READ3res r) s.
Proof.
  unfold nfsproc3_read_3_svc, xdr_READ3res, xdr_READ3resok, xdr_READ3resfail. nsteps; result.
  all: wire; try (apply trips_post; nonzero); try apply trips_u32.
  all: apply bytes_trips; rewrite length_take; cbn [call_law] in *; unfold NFS3_MAXDATA in *; destruct (Z.ltb_spec 1048576 c); lia.
Qed.

Lemma write_trips fh o c st d s : nwp (nfsproc3_write_3_svc fh o c st d) (fun r _ => trips xdr_WRITE3res r) s.
Proof.
  unfold nfsproc3_write_3_svc, xdr_WRITE3res, xdr_WRITE3resok, xdr_WRITE3resfail. nsteps; result.
  all: wire; try (apply trips_wcc; nonzero); try apply trips_u32; try (by apply opaque_trips).
  all: unfold xdr_stable_how; wire; apply enum_trips; cbn; lia.
Qed.

(** The handle of a new name fits. *)
Lemma handle_fits rel r fh : relpath_to_core_fh rel = (r, fh) -> (r <? 0) = false -> trips xdr_nfs_fh3 (set_nfsfh fh).
Proof.
  intros E Hr. apply bytes_trips. unfold NFS3_FHSIZE. split; [|done].
  unfold relpath_to_core_fh, unfs_fh_from_path in E. destruct (unfs_path_is_safe _); cbn [negb] in E; [|by injection E as <- <-].
  destruct (Z.ltb_spec UNFS_FHSIZE (UNFS_MAGIC_LEN + Z.of_nat (length rel) + 1)) as [|Hl]; [by injection E as <- <-|].
  injection E as <- <-. unfold set_nfsfh. cbn [fh_len fh_data]. rewrite length_take, Nat2Z.inj_min.
  unfold UNFS_FHSIZE, UNFS_MAGIC_LEN in *. rewrite u32_id by (unfold is_u32, U32_MAX; lia). lia.
Qed.

Lemma lookup_trips w s : nwp (nfsproc3_lookup_3_svc w) (fun r _ => trips xdr_LOOKUP3res r) s.
Proof.
  unfold nfsproc3_lookup_3_svc, xdr_LOOKUP3res, xdr_LOOKUP3resok, xdr_LOOKUP3resfail. nsteps; result.
  wire; [|by apply trips_post|apply trips_post; nonzero]. by eapply handle_fits.
Qed.

Lemma create_trips w h s : nwp (nfsproc3_create_3_svc w h) (fun r _ => trips xdr_CREATE3res r) s.
Proof.
  unfold nfsproc3_create_3_svc, xdr_CREATE3res, xdr_CREATE3resok, xdr_CREATE3resfail. nsteps; result.
  all: try (destruct (z0 <? 0) eqn:E0; [apply errno_fails; nonzero|done]).
  all: wire; [|by apply trips_post|apply trips_wcc; nonzero].
  all: apply trips_optional; intros fh [= <-]; by eapply handle_fits.
Qed.

Lemma remove_trips w s : nwp (nfsproc3_remove_3_svc w) (fun r _ => trips xdr_REMOVE3res r) s.
Proof.
  unfold nfsproc3_remove_3_svc, xdr_REMOVE3res, xdr_REMOVE3resok, xdr_REMOVE3resfail. nsteps; result.
  all: destruct (z0 <? 0) eqn:E0; [apply errno_fails; nonzero|done].
Qed.

Lemma fsinfo_trips fh s : nwp (nfsproc3_fsinfo_3_svc fh) (fun r _ => trips xdr_FSINFO3res r) s.
Proof.
  unfold nfsproc3_fsinfo_3_svc, xdr_FSINFO3res, xdr_FSINFO3resok, xdr_FSINFO3resfail. nsteps; result.
  wire; try (apply trips_post; nonzero); try (apply u_int_trips; unfold NFS3_MAXDATA; lia); try (apply u_quad_t_trips; lia).
  unfold xdr_nfstime3. wire; apply u_int_trips; lia.
Qed.

Lemma readdirplus_trips fh s : nwp (nfsproc3_readdirplus_3_svc fh) (fun r _ => trips xdr_READDIRPLUS3res r) s.
Proof. unfold nfsproc3_readdirplus_3_svc, xdr_READDIRPLUS3res, xdr_READDIRPLUS3resfail. nsteps; result. Qed.

Lemma mount_fails e : e <> 0 -> errno_to_mount3 e <> MNT3_OK.
Proof. intros H. unfold errno_to_mount3. destruct (Z.eqb_spec e 0); [done|]. by repeat case_match. Qed.

Lemma trips_mount_failed st : st <> MNT3_OK -> trips xdr_mountres3 (st, None).
Proof. intros H. apply trips_field; [apply trips_mountstat3|]. cbn [fst]. destruct st; try done; apply trips_done. Qed.

Lemma mnt_trips p s : nwp (mountproc3_mnt_3_svc p) (fun r _ => trips xdr_mountres3 r) s.
Proof.
  unfold mountproc3_mnt_3_svc. nsteps.
  - by apply trips_mount_failed.
  - apply trips_mount_failed, mount_fails. destruct (Z.eqb_spec (errno s') 0); done.
  - apply trips_mount_failed, mount_fails. nonzero.
  - apply trips_field; [apply trips_mountstat3|]. cbn [fst].
    apply (trips_arm _ _ _ _ (MountOk (set_nfsfh o) [1])); [done| |apply trips_done]. unfold xdr_mountres3_ok. wire.
    + by eapply handle_fits.
    + apply array_trips; [cbn; lia|]. repeat constructor. apply int_trips. lia.
Qed.

(** ** The entries of a directory *)

Definition entry_fits (e : entry3) : Prop :=
  0 <= e_fileid e < 2 ^ 64 /\ Z.of_nat (length (e_name e)) <= NFS3_MAXNAMLEN /\ 0 <= e_cookie e < 2 ^ 64.

Lemma entries_trip fuel : forall es, (length es < fuel)%nat -> Forall entry_fits es -> trips (xdr_entries fuel) es.
Proof.
  induction fuel as [|fuel IH]; intros es Hf Hes; [lia|]. cbn [xdr_entries]. apply trips_field.
  - apply pointer_trips. intros a Ha. destruct es as [|e es]; [done|]. injection Ha as <-.
    inversion Hes as [|? ? (H1 & H2 & H3) Hr]; subst. unfold xdr_entry3.
    apply (trips_arm _ _ _ _ (e_fileid e)); [done|by apply u_quad_t_trips|].
    apply (trips_arm _ _ _ _ (e_name e)); [done|apply string_trips; unfold NFS3_MAXNAMLEN in *; lia|].
    apply (trips_arm _ _ _ _ (e_cookie e)); [done|by apply u_quad_t_trips|].
    apply trips_field; [apply IH; [cbn in *; lia|done]|]. destruct e. apply trips_done.
  - destruct es; apply trips_done.
Qed.

Lemma nwp_readdir_loop dir mx cookie fuel : forall seq es s,
  Forall entry_fits es -> Z.of_nat (length es) <= mx ->
  nwp (readdir_loop fuel dir mx cookie seq es)
    (fun r _ => forall l b, r = Some (l, b) -> Forall entry_fits l /\ Z.of_nat (length l) <= mx) s.
Proof.
  induction fuel as [|fuel IH]; intros seq es s Hes Hl; cbn [readdir_loop]; [by apply nwp_ret|].
  apply nwp_bind, nwp_sys. intros a s' _ _. destruct (a_dirent a) as [de|].
  2:{ apply nwp_ret. by intros l b [= <- <-]. }
  cbv zeta. destruct (_ <=? cookie); [by apply IH|].
  destruct (Z.eqb_spec (Z.of_nat (length es)) mx). { apply nwp_ret. by intros l b [= <- <-]. }
  unfold snprintf. apply IH.
  - apply Forall_app. split; [done|]. repeat constructor; cbn [e_fileid e_name e_cookie].
    + apply Z.mod_pos_bound; lia.
    + apply Z.mod_pos_bound; lia.
    + rewrite length_take. unfold NFS3_MAXNAMLEN. lia.
    + apply Z.mod_pos_bound; lia.
    + apply Z.mod_pos_bound; lia.
  - rewrite length_app. cbn [length]. lia.
Qed.

(** The loop of READDIR ends with the rounds it is given, whatever the system
    answers. *)
Lemma readdir_loop_ends dir mx cookie : 0 <= cookie -> 0 <= mx -> cookie + mx + 1 < 2 ^ 64 -> forall fuel seq es s,
  0 <= seq <= cookie + Z.of_nat (length es) -> Z.of_nat (length es) <= mx -> (seq < cookie -> es = []) ->
  (Z.to_nat (cookie - seq) + (Z.to_nat mx - length es) < fuel)%nat ->
  nwp (readdir_loop fuel dir mx cookie seq es) (fun r _ => r <> None) s.
Proof.
  intros Hc Hm Hb. induction fuel as [|fuel IH]; intros seq es s Hs Hl He Hf; [lia|]. cbn [readdir_loop].
  apply nwp_bind, nwp_sys. intros a s' _ _. destruct (a_dirent a) as [de|]; [|by apply nwp_ret]. cbv zeta.
  assert (u64 (seq + 1) = seq + 1) as -> by (unfold u64; rewrite Z.mod_small; lia).
  destruct (Z.leb_spec (seq + 1) cookie) as [Hle|Hgt].
  - assert (es = []) as -> by (apply He; lia). apply IH; cbn [length] in *; try lia; done.
  - destruct (Z.eqb_spec (Z.of_nat (length es)) mx); [by apply nwp_ret|]. unfold snprintf.
    apply IH; rewrite ?length_app; cbn [length]; lia.
Qed.

Lemma readdir_trips d k c s : 0 <= c -> nwp (nfsproc3_readdir_3_svc d k c) (fun r _ => trips xdr_READDIR3res r) s.
Proof.
  intros Hc0. unfold nfsproc3_readdir_3_svc, xdr_READDIR3res, xdr_READDIR3resok, xdr_READDIR3resfail.
  assert (Hmx : 0 <= readdir_max c <= 256).
  { unfold readdir_max. pose proof (Z.div_pos c 32 Hc0 ltac:(lia)). repeat case_match; bool_hyps; lia. }
  nsteps; try result.
  eapply nwp_mono; [apply nwp_readdir_loop; [constructor|cbn; lia]|]. intros o s2 Ho. cbv beta in Ho.
  destruct (default ([], false) o) as [es eof] eqn:E.
  assert (Hes : Forall entry_fits es /\ Z.of_nat (length es) <= 256).
  { destruct o as [[l b]|]; cbn in E; injection E as <- <-; [|by split; [constructor|cbn; lia]].
    destruct (Ho _ _ eq_refl). split; [done|lia]. }
  nsteps. result. wire; [apply trips_post; nonzero|by apply opaque_trips|].
  unfold xdr_dirlist3. wire. destruct Hes as [H1 H2]. apply entries_trip; [unfold entries_max; lia|done].
Qed.

End Procedures.

(** ** Arguments *)

Section Arguments.
Context {X : XdrLib} {XL : XdrLaws}.

Definition is_uint (bits z : Z) : Prop := 0 <= z < 2 ^ bits.
Definition fh_fits (fh : nfs_fh3) : Prop := Z.of_nat (length fh) <= NFS3_FHSIZE.
Definition name_fits (w : diropargs3) : Prop :=
  fh_fits (dir w) /\ exists n, name w = Some n /\ Z.of_nat (length n) <= NFS3_MAXNAMLEN.
Definition time_fits (t : nfstime3) : Prop := is_uint 32 (seconds t) /\ is_uint 32 (nseconds t).
Definition set_time_fits (t : set_time) : Prop :=
  match t with SET_TO_CLIENT_TIME c => time_fits c | _ => True end.
Definition all_opt {A} (Q : A -> Prop) (o : option A) : Prop := match o with Some a => Q a | None => True end.
Definition sattr_fits (a : sattr3) : Prop :=
  all_opt (is_uint 32) (sa_mode a) /\ all_opt (is_uint 32) (sa_uid a) /\ all_opt (is_uint 32) (sa_gid a) /\
  all_opt (is_uint 64) (sa_size a) /\ set_time_fits (sa_atime a) /\ set_time_fits (sa_mtime a).
Definition how_fits (h : createhow3) : Prop :=
  match h with
  | UNCHECKED a | GUARDED a => sattr_fits a
  | EXCLUSIVE v => Z.of_nat (length v) = NFS3_CREATEVERFSIZE
  end.

Lemma fh_trips fh : fh_fits fh -> trips xdr_nfs_fh3 fh.
Proof. intros H. apply bytes_trips. unfold fh_fits, NFS3_FHSIZE in *. lia. Qed.

Lemma uint32_trips z : is_uint 32 z -> trips xdr_uint32 z.
Proof. apply u_int_trips. Qed.
Lemma uint64_trips z : is_uint 64 z -> trips xdr_uint64 z.
Proof. apply u_quad_t_trips. Qed.
#[local] Hint Resolve fh_trips uint32_trips uint64_trips : wire.

Lemma trips_opt {A} (c : xdr A) Q o : (forall a, Q a -> trips c a) -> all_opt Q o -> trips (xdr_optional c) o.
Proof. intros Hc Ho. apply trips_optional. intros a ->. by apply Hc. Qed.

Lemma name_trips w : name_fits w -> trips xdr_diropargs3 w.
Proof.
  intros [H1 (n & Hn & H2)]. unfold xdr_diropargs3. wire. apply (trips_arm _ _ _ _ n); [done| |].
  - apply string_trips. unfold NFS3_MAXNAMLEN in *. lia.
  - destruct w. cbn in *. subst. apply trips_done.
Qed.

Lemma time_trips t : time_fits t -> trips xdr_nfstime3 t.
Proof. intros [H1 H2]. unfold xdr_nfstime3. wire. destruct t. apply trips_done. Qed.

Lemma set_atime_trips t : set_time_fits t -> trips xdr_set_atime t.
Proof.
  intros H. unfold xdr_set_atime. apply trips_field; [apply enum_trips; destruct t; cbn; lia|].
  destruct t as [| |c]; cbn; try apply trips_done. apply (trips_arm _ _ _ _ c); [done|by apply time_trips|apply trips_done].
Qed.
Lemma set_mtime_trips t : set_time_fits t -> trips xdr_set_mtime t.
Proof. apply set_atime_trips. Qed.

Lemma sattr_trips a : sattr_fits a -> trips xdr_sattr3 a.
Proof.
  intros (H1 & H2 & H3 & H4 & H5 & H6). unfold xdr_sattr3.
  do 3 (apply trips_field; [by eapply trips_opt; [apply uint32_trips|]|]).
  apply trips_field; [by eapply trips_opt; [apply uint64_trips|]|].
  apply trips_field; [by apply set_atime_trips|]. apply trips_field; [by apply set_mtime_trips|].
  destruct a. apply trips_done.
Qed.

Lemma how_trips h : how_fits h -> trips xdr_createhow3 h.
Proof.
  intros H. unfold xdr_createhow3. apply trips_field; [apply enum_trips; destruct h; cbn; lia|].
  destruct h as [a|a|v]; cbn [createmode3 Z.eqb].
  - apply (trips_arm _ _ _ _ a); [done|by apply sattr_trips|apply trips_done].
  - apply (trips_arm _ _ _ _ a); [done|by apply sattr_trips|apply trips_done].
  - apply (trips_arm _ _ _ _ v); [done|by apply opaque_trips|apply trips_done].
Qed.

Lemma stable_trips h : - 2 ^ 31 <= stable_how_code h < 2 ^ 31 -> stable_how_of (stable_how_code h) = h ->
  trips xdr_stable_how h.
Proof. intros Hr Hh. unfold xdr_stable_how. apply trips_field; [by apply enum_trips|]. rewrite Hh. apply trips_done. Qed.

Lemma readdir_count l a r : xget xdr_READDIR3args l = Some (a, r) -> 0 <= rda_count a.
Proof.
  cbn. intros H. repeat (case_match; simplify_eq; try done). cbn.
  match goal with H : xget xdr_uint32 _ = Some _ |- _ => apply u_int_range in H end. lia.
Qed.

End Arguments.

(** C31: arguments whose fields are in the range of their types make the trip from a client to
    the server: what the routines write for them is read back as it was, whatever
    follows in the message. *)
Theorem arguments_make_the_trip {X : XdrLib} {XL : XdrLaws} :
  (forall fh, fh_fits fh ->
     trips xdr_GETATTR3args fh /\ trips xdr_FSINFO3args fh /\ trips xdr_DUMMY3args fh) /\
  (forall w, name_fits w -> trips xdr_LOOKUP3args w /\ trips xdr_REMOVE3args w) /\
  (forall a, fh_fits (sga_object a) -> sattr_fits (sga_new a) -> all_opt time_fits (sga_guard a) ->
     trips xdr_SETATTR3args a) /\
  (forall a, fh_fits (aa_object a) -> is_uint 32 (aa_access a) -> trips xdr_ACCESS3args a) /\
  (forall a, fh_fits (ra_file a) -> is_uint 64 (ra_offset a) -> is_uint 32 (ra_count a) -> trips xdr_READ3args a) /\
  (forall a, fh_fits (wa_file a) -> is_uint 64 (wa_offset a) -> is_uint 32 (wa_count a) ->
     In (wa_stable a) [UNSTABLE; DATA_SYNC; FILE_SYNC] -> Z.of_nat (length (wa_data a)) <= NFS3_MAXDATA ->
     trips xdr_WRITE3args a) /\
  (forall a, name_fits (ca_where a) -> how_fits (ca_how a) -> trips xdr_CREATE3args a) /\
  (forall a, fh_fits (rda_dir a) -> is_uint 64 (rda_cookie a) -> Z.of_nat (length (rda_verf a)) = NFS3_COOKIEVERFSIZE ->
     is_uint 32 (rda_count a) -> trips xdr_READDIR3args a) /\
  (forall a, fh_fits (rpa_dir a) -> is_uint 64 (rpa_cookie a) -> Z.of_nat (length (rpa_verf a)) = NFS3_COOKIEVERFSIZE ->
     is_uint 32 (rpa_dircount a) -> is_uint 32 (rpa_maxcount a) -> trips xdr_READDIRPLUS3args a) /\
  (forall p, Z.of_nat (length p) <= MNTPATHLEN -> trips xdr_dirpath (Some p)).
Proof.
  split; [intros fh H; repeat split; by apply fh_trips|].
  split; [intros w H; split; by apply name_trips|].
  split; [|split; [|split; [|split; [|split; [|split; [|split]]]]]].
  - intros [o n g] H1 H2 H3. unfold xdr_SETATTR3args. wire; fields; [by apply fh_trips|by apply sattr_trips|].
    by eapply trips_opt; [apply time_trips|].
  - intros [o a] H1 H2. unfold xdr_ACCESS3args. wire; [by apply fh_trips|by apply uint32_trips].
  - intros [f o c] H1 H2 H3. unfold xdr_READ3args. wire; [by apply fh_trips|by apply uint64_trips|by apply uint32_trips].
  - intros [f o c st d] H1 H2 H3 H4 H5. cbn in *. unfold xdr_WRITE3args.
    wire; [by apply fh_trips|by apply uint64_trips|by apply uint32_trips| |].
    + apply stable_trips; destruct H4 as [<-|[<-|[<-|[]]]]; done.
    + apply bytes_trips. unfold NFS3_MAXDATA in *. lia.
  - intros [w h] H1 H2. unfold xdr_CREATE3args. wire; [by apply name_trips|by apply how_trips].
  - intros [d k v c] H1 H2 H3 H4. unfold xdr_READDIR3args.
    wire; [by apply fh_trips|by apply uint64_trips|by apply opaque_trips|by apply uint32_trips].
  - intros [d k v c m] H1 H2 H3 H4 H5. unfold xdr_READDIRPLUS3args.
    wire; [by apply fh_trips|by apply uint64_trips|by apply opaque_trips|by apply uint32_trips|by apply uint32_trips].
  - intros p H. unfold xdr_dirpath. apply (trips_arm _ _ _ _ p); [done| |apply trips_done].
    apply string_trips. unfold MNTPATHLEN in *. lia.
Qed.

(** Number [proc] of a program is the procedure [local]: arguments that can be sent
    reach it as they are, its result can be sent and is read back as it was; a body
    that holds no arguments runs nothing. *)
Definition serves {P : Posix} {A R} (program : Z -> list Z -> M rpc_reply) (argument : xdr A) (result : xdr R)
    (local : A -> M R) (proc : Z) : Prop :=
  (forall a s, trips argument a ->
     exists body b, xput argument a = Some body /\
       program proc body s = (Replied b, snd (local a s)) /\ xget result b = Some (fst (local a s), [])) /\
  (forall body s, xget argument body = None -> program proc body s = (DecodeError, s)).

Lemma serves_if {P : Posix} {A R} program (argument : xdr A) (result : xdr R) (local : A -> M R) proc :
  program proc = dispatch (Some (Procedure argument result local)) ->
  (forall a s l, xget argument l = Some (a, []) -> nwp (local a) (fun r _ => trips result r) s) ->
  serves program argument result local proc.
Proof.
  intros Hd H. split; intros.
  - destruct H0 as (body & Hp & Hg). exists body. specialize (Hg []). rewrite app_nil_r in Hg.
    destruct (H a s body Hg) as (b & Hb & Hb'). exists b. split; [done|]. specialize (Hb' []). rewrite app_nil_r in Hb'.
    split; [|done]. rewrite Hd. cbn [dispatch]. rewrite Hg. unfold bind. destruct (local a s) as [r s'].
    cbn [fst snd] in *. by rewrite Hb.
  - rewrite Hd. cbn [dispatch]. by rewrite H0.
Qed.

(** C30: the dispatch tables of both programs.  Number by number, a call with arguments
    that can be sent runs the procedure of that number on exactly those arguments, its
    result can always be sent, and the client reads from the reply exactly what the
    procedure returned: NULL, GETATTR, SETATTR, LOOKUP, ACCESS, READ, WRITE, CREATE,
    REMOVE, READDIR, READDIRPLUS and FSINFO of the NFS program, the ten procedures that
    answer NFS3ERR_NOTSUPP, and NULL, MNT and UMNT of the mount program.  A body that
    holds no arguments is refused as undecodable, any other number as unavailable, and
    neither changes anything. *)
Theorem calls_are_answered {P : Posix} {PW : PosixWire} {X : XdrLib} {XL : XdrLaws} :
  let nfs {A R} (argument : xdr A) (result : xdr R) := serves nfs_program_3 argument result in
  let mount {A R} (argument : xdr A) (result : xdr R) := serves mountprog_3 argument result in
  (nfs xdr_void xdr_void (fun _ => ret tt) 0 /\
   nfs xdr_GETATTR3args xdr_GETATTR3res nfsproc3_getattr_3_svc 1 /\
   nfs xdr_SETATTR3args xdr_SETATTR3res
     (fun a => nfsproc3_setattr_3_svc (sga_object a) (sga_new a) (sga_guard a)) 2 /\
   nfs xdr_LOOKUP3args xdr_LOOKUP3res nfsproc3_lookup_3_svc 3 /\
   nfs xdr_ACCESS3args xdr_ACCESS3res (fun a => nfsproc3_access_3_svc (aa_object a) (aa_access a)) 4 /\
   nfs xdr_READ3args xdr_READ3res (fun a => nfsproc3_read_3_svc (ra_file a) (ra_offset a) (ra_count a)) 6 /\
   nfs xdr_WRITE3args xdr_WRITE3res
     (fun a => nfsproc3_write_3_svc (wa_file a) (wa_offset a) (wa_count a) (wa_stable a) (wa_data a)) 7 /\
   nfs xdr_CREATE3args xdr_CREATE3res (fun a => nfsproc3_create_3_svc (ca_where a) (ca_how a)) 8 /\
   nfs xdr_REMOVE3args xdr_REMOVE3res nfsproc3_remove_3_svc 12 /\
   nfs xdr_READDIR3args xdr_READDIR3res
     (fun a => nfsproc3_readdir_3_svc (rda_dir a) (rda_cookie a) (rda_count a)) 16 /\
   nfs xdr_READDIRPLUS3args xdr_READDIRPLUS3res (fun a => nfsproc3_readdirplus_3_svc (rpa_dir a)) 17 /\
   nfs xdr_FSINFO3args xdr_FSINFO3res nfsproc3_fsinfo_3_svc 19 /\
   (forall proc, In proc [5; 9; 10; 11; 13; 14; 15; 18; 20; 21] ->
      nfs xdr_DUMMY3args xdr_DUMMY3res (fun _ => ret NFS3ERR_NOTSUPP) proc)) /\
  (mount xdr_void xdr_void (fun _ => ret tt) 0 /\ mount xdr_dirpath xdr_mountres3 mountproc3_mnt_3_svc 1 /\
   mount xdr_dirpath xdr_void (fun _ => ret tt) 3) /\
  (forall proc body s, ~ 0 <= proc <= 21 -> nfs_program_3 proc body s = (NoProc, s)) /\
  (forall proc body s, ~ In proc [0; 1; 3] -> mountprog_3 proc body s = (NoProc, s)).
Proof.
  intros nfs mount. split; [|split; [|split]].
  - split_and!; try (apply serves_if; [reflexivity|]; intros a s l Hl; cbv beta).
    all: try (by apply trips_done).
    all: try first [apply getattr_trips | apply setattr_trips | apply lookup_trips | apply access_trips
      | apply read_trips | apply write_trips | apply create_trips | apply remove_trips
      | apply readdirplus_trips | apply fsinfo_trips | apply readdir_trips; by eapply readdir_count].
    intros proc Hp. repeat (destruct Hp as [<-|Hp]); [..|done].
    all: apply serves_if; [reflexivity|]; intros a s l Hl; by apply trips_nfsstat3.
  - split_and!; apply serves_if; try reflexivity; intros a s l Hl; cbv beta;
      first [by apply trips_done|apply mnt_trips].
  - intros proc body s H. unfold nfs_program_3, nfs_procedures. by rewrite !(proj2 (Z.eqb_neq proc _)) by lia.
  - intros proc body s H. unfold mountprog_3, mount_procedures. cbn in H.
    by rewrite !(proj2 (Z.eqb_neq proc _)) by (intros ->; tauto).
Qed.
