(* ===== verification/NfsWitnesses.v ===== *)
(** * NfsWitnesses: the NFS server at work on a small system

    An operating system on which every call succeeds and every directory has the
    same three entries, and the XDR routines of RFC 4506. *)

From Stdlib Require Import String.
From stdpp Require Import base list numbers.
From S2P Require Import Prelude CString NfsCore NfsServer NfsXdr NfsRpc NfsSpec NfsWire.

Local Open Scope Z_scope.
Local Open Scope fs_scope.

Definition small_stat : stat := Stat 33188 1 0 0 5 8 1 7 (0, 0) (0, 0) (0, 0).
Definition small_entries : list dirent :=
  [Dirent 1 (str "."); Dirent 1 (str ".."); Dirent 7 (str "file")].

(** The state is what the directory stream still has to give. *)
Definition small_step (o : list dirent) (c : syscall) : answer * list dirent :=
  match c with
  | Opendir _ => (Answer 4 0 small_stat [] None, small_entries)
  | Readdir _ => (Answer 0 0 small_stat [] (head o), tail o)
  | Pwrite _ data _ => (Answer (Z.of_nat (length data)) 0 small_stat [] None, o)
  | Open _ _ _ => (Answer 3 0 small_stat [] None, o)
  | _ => (Answer 0 0 small_stat [] None, o)
  end.

#[local] Instance Small : Posix := {| OS := list dirent; os_step := small_step |}.

#[local] Instance small_errno : PosixErrno.
Proof. intros o c H. exfalso. revert H. destruct c; cbn; lia. Qed.

#[local] Instance small_reads : ReadsDir (str "/export/dir") small_entries.
Proof.
  refine {| stream := fun o _ l => o = l |}.
  - by intros o.
  - by intros o d e l ->.
  - by intros o d ->.
Defined.

#[local] Instance small_wire : PosixWire.
Proof. split; [apply _|done|]. intros o fd n off. cbn. lia. Qed.

(** ** XDR *)

(** Big-endian numbers of four bytes. *)
Definition be_put (z : Z) : list Z := [z / 16777216 mod 256; z / 65536 mod 256; z / 256 mod 256; z mod 256].
Definition rfc_u_int : xdr Z :=
  Xdr (fun z => Some (be_put z))
      (fun l => match l with
                | a :: b :: c :: d :: r => Some ((a * 16777216 + b * 65536 + c * 256 + d) mod 2 ^ 32, r)
                | _ => None
                end).
Definition rfc_int : xdr Z :=
  Xdr (fun z => xput rfc_u_int (z mod 2 ^ 32))
      (fun l => match xget rfc_u_int l with
                | Some (v, r) => Some (if v <? 2 ^ 31 then v else v - 2 ^ 32, r)
                | None => None
                end).
Definition rfc_u_quad : xdr Z :=
  xdr_field (fun z => z / 2 ^ 32) rfc_u_int (fun h =>
  xdr_field (fun z => z mod 2 ^ 32) rfc_u_int (fun l => xdr_done (h * 2 ^ 32 + l))).
Definition rfc_bool : xdr bool :=
  xdr_field (fun b : bool => if b then 1 else 0) rfc_u_int (fun v => xdr_done (negb (v =? 0))).

(** [n] bytes, filled up to a multiple of four. *)
Definition rfc_opaque (n : Z) : xdr (list Z) :=
  let pad := Z.to_nat ((- n) mod 4) in
  Xdr (fun l => if Z.of_nat (length l) =? n then Some (l ++ replicate pad 0) else None)
      (fun l => if Z.of_nat (length l) <? n + Z.of_nat pad then None
                else Some (take (Z.to_nat n) l, drop (Z.to_nat n + pad) l)).
Definition rfc_bytes (max : Z) : xdr (list Z) :=
  xdr_field (fun l => Z.of_nat (length l)) rfc_u_int (fun n => if max <? n then xdr_fail else rfc_opaque n).
Definition rfc_pointer {A} (c : xdr A) : xdr (option A) :=
  xdr_field (fun o => bool_decide (is_Some o)) rfc_bool (fun b =>
    if b : bool then xdr_arm (fun o => o) c (fun a => xdr_done (Some a)) else xdr_done None).
Fixpoint rfc_list {A} (n : nat) (c : xdr A) : xdr (list A) :=
  match n with
  | O => xdr_done []
  | S n' => xdr_arm head c (fun a => xdr_field tail (rfc_list n' c) (fun l => xdr_done (a :: l)))
  end.
Definition rfc_array {A} (max : Z) (c : xdr A) : xdr (list A) :=
  xdr_field (fun l => Z.of_nat (length l)) rfc_u_int (fun n => if max <? n then xdr_fail else rfc_list (Z.to_nat n) c).

#[local] Instance rfc4506 : XdrLib := {|
  xdr_u_int := rfc_u_int; xdr_int := rfc_int; xdr_u_quad_t := rfc_u_quad; xdr_quad_t := rfc_u_quad;
  xdr_bool := rfc_bool; xdr_enum := rfc_int; xdr_opaque := rfc_opaque; xdr_bytes := rfc_bytes;
  xdr_string := rfc_bytes; xdr_pointer := @rfc_pointer; xdr_array := @rfc_array |}.

Lemma rfc_u_int_trips z : 0 <= z < 2 ^ 32 -> trips rfc_u_int z.
Proof.
  intros Hz. exists (be_put z). split; [done|]. intros rest. cbn [xget rfc_u_int be_put app]. f_equal. f_equal.
  rewrite Z.mod_small; Z.to_euclidean_division_equations; lia.
Qed.

Lemma rfc_int_trips z : - 2 ^ 31 <= z < 2 ^ 31 -> trips rfc_int z.
Proof.
  intros Hz. destruct (rfc_u_int_trips (z mod 2 ^ 32)) as (b & Hp & Hg); [apply Z.mod_pos_bound; lia|].
  exists b. split; [done|]. intros rest. unfold rfc_int. cbn [xget]. rewrite Hg. f_equal. f_equal.
  destruct (Z.ltb_spec (z mod 2 ^ 32) (2 ^ 31)); Z.to_euclidean_division_equations; lia.
Qed.

Lemma rfc_bool_trips b : trips rfc_bool b.
Proof. apply trips_field; [apply rfc_u_int_trips; destruct b; lia|]. destruct b; apply trips_done. Qed.

Lemma rfc_opaque_trips n l : Z.of_nat (length l) = n -> trips (rfc_opaque n) l.
Proof.
  intros <-. set (pad := Z.to_nat ((- Z.of_nat (length l)) mod 4)). exists (l ++ replicate pad 0).
  cbn [xput xget rfc_opaque]. fold pad. rewrite Z.eqb_refl. split; [done|]. intros rest.
  destruct (Z.ltb_spec (Z.of_nat (length ((l ++ replicate pad 0) ++ rest))) (Z.of_nat (length l) + Z.of_nat pad)) as [Hl|_].
  - rewrite !length_app, length_replicate in Hl. lia.
  - rewrite Nat2Z.id, <- app_assoc, take_app_length, <- drop_drop, drop_app_length.
    by rewrite <- (length_replicate pad 0) at 1; rewrite drop_app_length.
Qed.

Lemma rfc_bytes_trips n l : Z.of_nat (length l) <= n < 2 ^ 32 -> trips (rfc_bytes n) l.
Proof.
  intros H. apply trips_field; [apply rfc_u_int_trips; lia|].
  destruct (Z.ltb_spec n (Z.of_nat (length l))); [lia|]. by apply rfc_opaque_trips.
Qed.

Lemma rfc_list_trips {A} (c : xdr A) l : Forall (trips c) l -> trips (rfc_list (length l) c) l.
Proof.
  induction 1 as [|a l Ha _ IH]; [apply trips_done|]. cbn [rfc_list length].
  apply (trips_arm _ _ _ _ a); [done|done|]. apply trips_field; [done|apply trips_done].
Qed.

#[local] Instance rfc4506_laws : XdrLaws.
Proof.
  split.
  - apply rfc_u_int_trips.
  - intros l z r H. cbn in H. repeat (case_match; simplify_eq; try done). apply Z.mod_pos_bound. lia.
  - apply rfc_int_trips.
  - intros z Hz. apply trips_field; [apply rfc_u_int_trips; Z.to_euclidean_division_equations; lia|].
    apply trips_field; [apply rfc_u_int_trips, Z.mod_pos_bound; lia|].
    rewrite Z.mul_comm, <- Z.div_mod by lia. apply trips_done.
  - apply rfc_bool_trips.
  - apply rfc_int_trips.
  - apply rfc_opaque_trips.
  - apply rfc_bytes_trips.
  - apply rfc_bytes_trips.
  - intros A c o H. apply trips_field; [apply rfc_bool_trips|]. destruct o as [a|]; cbn; [|apply trips_done].
    apply (trips_arm _ _ _ _ a); [done|by apply H|apply trips_done].
  - intros A c n l Hn Hl. apply trips_field; [apply rfc_u_int_trips; lia|].
    destruct (Z.ltb_spec n (Z.of_nat (length l))); [lia|]. rewrite Nat2Z.id. by apply rfc_list_trips.
Qed.

Definition small_server : server := Server _ (str "/export/") None 0 [] [].
Definition handle_for (p : string) : nfs_fh3 := str "UNFS" ++ str p ++ [0].
Definition long_name : cstr := replicate 60 97.

(** A call as a client sends it. *)
Definition bytes_of {A} (c : xdr A) (a : A) : list Z := default [] (xput c a).

Lemma requests_stay_below_root_witness :
  let s' := snd (serve [NfsCall 1 (bytes_of xdr_GETATTR3args (handle_for "../etc/passwd"));
                        NfsCall 6 (bytes_of xdr_READ3args (Read3Args (handle_for "dir/file") 0 100));
                        NfsCall 6 [1; 2; 3]; MountCall 1 (bytes_of xdr_dirpath (Some (str "/")));
                        NfsCall 16 (bytes_of xdr_READDIR3args (Readdir3Args (handle_for "dir") 0 (replicate 8 0) 4096))]
                       small_server) in
  length (log s') = 13%nat /\
  Forall (fun c => Forall (below (str "/export/")) (paths (fst c))) (log s') /\ held s' = [].
Proof. split; [vm_compute; reflexivity|]. by apply requests_stay_below_root. Defined.

Lemma arguments_make_the_trip_witness :
  trips xdr_WRITE3args (Write3Args (handle_for "dir/file") 10 3 FILE_SYNC [104; 105; 33]) /\
  length (bytes_of xdr_WRITE3args (Write3Args (handle_for "dir/file") 10 3 FILE_SYNC [104; 105; 33])) = 44%nat.
Proof.
  destruct arguments_make_the_trip as (_ & _ & _ & _ & _ & H & _). split; [|vm_compute; reflexivity].
  apply H; cbn; try lia; try done; try tauto; split; done.
Defined.

Lemma calls_are_answered_witness :
  exists body b, xput xdr_GETATTR3args (handle_for "dir/file") = Some body /\
    nfs_program_3 1 body small_server = (Replied b, snd (nfsproc3_getattr_3_svc (handle_for "dir/file") small_server)) /\
    xget xdr_GETATTR3res b = Some (Res NFS3_OK (inl (fill_fattr small_stat)), []).
Proof.
  destruct calls_are_answered as [(_ & [H _] & _) _]. apply (H (handle_for "dir/file") small_server).
  apply fh_trips. vm_compute. discriminate.
Defined.

Lemma write_ok_is_durable_witness :
  let x := nfsproc3_write_3_svc (handle_for "dir/file") 10 3 UNSTABLE [104; 105; 33] small_server in
  status (fst x) = NFS3_OK /\
  exists rel full wcc st o w f c st',
    nfsfh_to_relpath (handle_for "dir/file") UNFS_MAX_PATH = (0, Some rel) /\
    unfs_join_export_path (Some (str "/export/")) (Some rel) PATH_MAX = (0, full) /\
    union (fst x) = inl (WriteOk wcc (u32 (a_ret w)) FILE_SYNC (replicate 8 66)) /\
    0 <= a_ret o /\ 0 <= a_ret w /\ 0 <= a_ret f /\
    log (snd x) = [(Lstat full, st'); (Close (a_ret o), c); (Fsync (a_ret o), f);
                   (Pwrite (a_ret o) [104; 105; 33] 10, w); (Open full O_WRONLY 0, o); (Lstat full, st)] ++ [].
Proof.
  intros x. split; [reflexivity|].
  apply (write_ok_is_durable small_server (handle_for "dir/file") 10 3 UNSTABLE [104; 105; 33] (fst x) (snd x));
    reflexivity.
Defined.

Lemma reply_handles_name_the_child_witness :
  let w := Diropargs3 (handle_for "dir") (Some (str "file")) in
  let x := nfsproc3_lookup_3_svc w small_server in
  exists ok full, union (fst x) = inl ok /\ handle_of_child (str "/export/") w (lk_object ok) full.
Proof.
  intros w x. destruct (union (fst x)) as [ok|] eqn:E; [|vm_compute in E; discriminate E].
  assert (Hn : forall n, name w = Some n -> no_nul n) by (intros n [= <-]; repeat constructor; done).
  destruct (reply_handles_name_the_child small_server w (EXCLUSIVE []) Hn) as [H _].
  destruct (H (fst x) (snd x) ok (surjective_pairing x) E) as (full & a & Hh & _).
  by exists ok, full.
Defined.

Lemma create_fails_after_creating_witness :
  exists r s' flags st o c st' st'',
    nfsproc3_create_3_svc (Diropargs3 (handle_for "") (Some long_name)) (EXCLUSIVE []) small_server = (r, s') /\
    status r = NFS3ERR_NAMETOOLONG /\
    log s' = [(Lstat (str "/export"), st''); (Lstat (str "/export/" ++ long_name), st'); (Close (a_ret o), c);
              (Open (str "/export/" ++ long_name) flags DEFAULT_MODE, o); (Lstat (str "/export"), st)] ++ [] /\
    0 <= a_ret o /\ Z.land flags O_CREAT = O_CREAT.
Proof.
  apply (create_fails_after_creating small_server (Diropargs3 (handle_for "") (Some long_name)) (EXCLUSIVE [])
           [] (str "/export") long_name (str "/export/" ++ long_name)); try reflexivity; try done.
  intros o c. destruct c; cbn; lia.
Defined.

Lemma readdir_pages_complete_witness :
  fst (list_pages 4 (handle_for "dir") 0 64 small_server) = Some (entries_from 1 small_entries) /\
  map e_cookie (entries_from 1 small_entries) = [1; 2; 3].
Proof.
  split; [|reflexivity].
  apply (readdir_pages_complete small_server (handle_for "dir") (str "dir") (str "/export/dir") small_entries
           small_reads 64); try reflexivity; done.
Defined.
