(* ===== verification/VimText.v ===== *)
(** * VimText: the text of the editor and its lines (mini-vim.c)

    The text is one list of bytes, and a position is an offset into it; the functions
    here find lines and characters in it.  How bytes form characters is a matter of
    the locale: [mbrtowc] and [wcwidth] of the C library are the parameter [Locale]. *)

From stdpp Require Import base list numbers.
From S2P Require Import Prelude CString.

Local Open Scope Z_scope.

Definition NL : Z := 10.
Definition TAB : Z := 9.
Definition ESC : Z := 27.
Definition DEL : Z := 127.

(** A byte that a terminal would act upon instead of showing it. *)
Definition is_control (c : Z) : bool := (c <? 32) || (c =? DEL).

(** [mbrtowc l] is how many bytes the first character of [l] takes and its code, or
    [None] when the bytes are not a character (the results -1, -2 and 0).  [stale_wc] is
    what a wide character that was never stored holds. *)
Class Locale := {
  mbrtowc : list Z -> option (nat * Z);
  wcwidth : Z -> Z;
  stale_wc : list Z -> Z
}.

(** What the code relies on: a character takes at least one of the bytes it was given,
    and none of its bytes is a control byte when the first is not. *)
Class LocaleLaws {L : Locale} : Prop := {
  mb_some : forall l n wc, mbrtowc l = Some (n, wc) -> (1 <= n <= length l)%nat;
  mb_plain : forall c l n wc, is_control c = false -> mbrtowc (c :: l) = Some (n, wc) ->
    Forall (fun b => is_control b = false) (take n (c :: l))
}.

Section Text.
Context {L : Locale}.

(** How many bytes the first character takes, and how many columns.  A control byte is
    shown as two characters, a tab up to the next multiple of four, a byte that is no
    character as four. *)
Definition glyph (data : list Z) (column : nat) : nat * nat :=
  let c := hd 0 data in
  if (c <? 32) || (c =? DEL) then (1%nat, if c =? TAB then (4 - column mod 4)%nat else 2%nat) else
  match mbrtowc data with
  | None => (1%nat, 4%nat)
  | Some (n, wc) => (n, if wcwidth wc <? 0 then 1%nat else Z.to_nat (wcwidth wc))
  end.

(** ** Lines *)

Fixpoint line_start (text : list Z) (position : nat) : nat :=
  match position with
  | O => O
  | S p => if nth p text 0 =? NL then position else line_start text p
  end.

(** How far the next newline is, or the end. *)
Fixpoint to_newline (l : list Z) : nat :=
  match l with
  | [] => O
  | c :: l' => if c =? NL then O else S (to_newline l')
  end.

(** [while (position < len && data[position] != '\n') position++]. *)
Definition line_end (text : list Z) (position : nat) : nat :=
  (position + to_newline (drop position text))%nat.

(** ** Characters *)

(** [while (p < position) { previous = p; p += glyph(...); }] *)
Fixpoint previous_loop (fuel : nat) (text : list Z) (position p previous : nat) : nat :=
  match fuel with
  | O => previous
  | S fuel' =>
      if negb (p <? position)%nat then previous else
      let '(n, _) := glyph (take (position - p) (drop p text)) 0 in
      previous_loop fuel' text position (p + n) p
  end.

Definition previous_char (text : list Z) (position : nat) : nat :=
  let p := line_start text position in
  if (p =? position)%nat then pred position
  else previous_loop (position - p) text position p p.

Definition next_char (text : list Z) (position : nat) : nat :=
  if (length text <=? position)%nat then position
  else (position + fst (glyph (drop position text) 0))%nat.

(** The column at which [cursor] is shown. *)
Fixpoint column_loop (fuel : nat) (text : list Z) (cursor p column : nat) : nat :=
  match fuel with
  | O => column
  | S fuel' =>
      if negb (p <? cursor)%nat then column else
      let '(n, width) := glyph (take (cursor - p) (drop p text)) column in
      column_loop fuel' text cursor (p + n) (column + width)
  end.

Definition cursor_column (text : list Z) (cursor : nat) : nat :=
  let p := line_start text cursor in column_loop (cursor - p) text cursor p 0.

(** Walk along a line as far as column [target]. *)
Fixpoint seek_column (fuel : nat) (text : list Z) (target p column : nat) : nat :=
  match fuel with
  | O => p
  | S fuel' =>
      if negb (p <? length text)%nat || (nth p text 0 =? NL) then p else
      let '(n, width) := glyph (drop p text) column in
      if (target <? column + width)%nat then p
      else seek_column fuel' text target (p + n) (column + width)
  end.

(** The cursor after [move_vertical(direction)]; [up] when the direction is negative. *)
Definition move_vertical (up : bool) (text : list Z) (cursor : nat) : nat :=
  let target := cursor_column text cursor in
  let p := line_start text cursor in
  let go p := seek_column (length text - p) text target p 0 in
  if up then
    if (p =? 0)%nat then cursor else go (line_start text (p - 1))
  else
    let p := line_end text p in
    if (p =? length text)%nat then cursor else go (S p).

End Text.

(** ** The lines of a text *)

(** The text as the list of its lines, without their newlines. *)
Fixpoint lines (t : list Z) : list (list Z) :=
  match t with
  | [] => [[]]
  | c :: t' =>
      if c =? NL then [] :: lines t'
      else match lines t' with
           | l :: ls => (c :: l) :: ls
           | [] => [[c]]
           end
  end.

(** The number of the line a position is on: the newlines before it. *)
Fixpoint newlines (l : list Z) : nat :=
  match l with
  | [] => O
  | c :: l' => if c =? NL then S (newlines l') else newlines l'
  end.
Definition row_of (t : list Z) (p : nat) : nat := newlines (take p t).

Lemma lines_nonempty t : lines t <> [].
Proof. destruct t as [|c t]; [done|]. cbn. destruct (c =? NL); [done|]. by destruct (lines t). Qed.

Lemma lines_app_nl a b : lines (a ++ NL :: b) = lines a ++ lines b.
Proof.
  induction a as [|c a IH]; [done|]. cbn. rewrite IH. destruct (c =? NL); [done|].
  pose proof (lines_nonempty a). by destruct (lines a).
Qed.

Lemma lines_single t : ~ In NL t -> lines t = [t].
Proof.
  induction t as [|c t IH]; intros H; [done|]. cbn.
  destruct (Z.eqb_spec c NL) as [->|Hc]; [exfalso; apply H; by left|].
  rewrite IH; [done|]. intros ?. apply H. by right.
Qed.

Lemma newlines_app a b : newlines (a ++ b) = (newlines a + newlines b)%nat.
Proof. induction a as [|c a IH]; [done|]. cbn. rewrite IH. by destruct (c =? NL). Qed.

Lemma newlines_none a : ~ In NL a -> newlines a = O.
Proof.
  induction a as [|c a IH]; intros H; [done|]. cbn.
  destruct (Z.eqb_spec c NL) as [->|]; [exfalso; apply H; by left|]. apply IH. intros ?. apply H. by right.
Qed.

Lemma lines_length t : length (lines t) = S (newlines t).
Proof.
  induction t as [|c t IH]; [done|]. cbn. destruct (c =? NL); cbn; [by rewrite IH|].
  pose proof (lines_nonempty t). destruct (lines t); [done|]. cbn in *. done.
Qed.

(** Around any position there is a line: what is before it is empty or ends in a
    newline, what is after it is empty or begins with one. *)
Record line_at (t : list Z) (p : nat) := LineAt {
  la_before : list Z; la_left : list Z; la_right : list Z; la_after : list Z;
  la_text : t = la_before ++ la_left ++ la_right ++ la_after;
  la_pos : p = length (la_before ++ la_left);
  la_start : line_start t p = length la_before;
  la_end : line_end t p = length (la_before ++ la_left ++ la_right);
  la_no_nl : ~ In NL (la_left ++ la_right);
  la_before_nl : la_before = [] \/ exists b, la_before = b ++ [NL];
  la_after_nl : la_after = [] \/ exists a, la_after = NL :: a
}.

Lemma line_start_split t p :
  (p <= length t)%nat -> let s := line_start t p in
  (s <= p)%nat /\ ~ In NL (drop s (take p t)) /\ (take s t = [] \/ exists b, take s t = b ++ [NL]).
Proof.
  induction p as [|p IH]; intros H s.
  - unfold s. cbn. rewrite take_0, drop_nil. split; [lia|]. split; [by intros []|by left].
  - unfold s. cbn [line_start]. destruct (nth_lookup_or_length t p 0) as [Hp|]; [|lia].
    rewrite (take_S_r _ _ _ Hp).
    destruct (Z.eqb_spec (nth p t 0) NL) as [E|E].
    + split; [lia|]. split.
      * rewrite drop_ge by (rewrite length_app, length_take; cbn; lia). by intros [].
      * right. exists (take p t). by rewrite (take_S_r _ _ _ Hp), E.
    + destruct (IH ltac:(lia)) as (Hs & Hn & Hb). split; [lia|]. split; [|done].
      rewrite drop_app_le by (rewrite length_take; lia). rewrite in_app_iff. intros [?|[?|[]]]; done.
Qed.

Lemma to_newline_split l :
  ~ In NL (take (to_newline l) l) /\ (to_newline l <= length l)%nat /\
  (drop (to_newline l) l = [] \/ exists a, drop (to_newline l) l = NL :: a).
Proof.
  induction l as [|c l IH]; cbn; [split; [by intros []|split; [done|by left]]|].
  destruct (Z.eqb_spec c NL) as [->|Hc]; cbn.
  - split; [by intros []|]. split; [lia|]. right. by exists l.
  - destruct IH as (H1 & H2 & H3). split; [intros [?|?]; done|]. split; [lia|done].
Qed.

Lemma line_at_intro t p : (p <= length t)%nat -> line_at t p.
Proof.
  intros H. destruct (line_start_split t p H) as (Hs & Hn & Hb).
  destruct (to_newline_split (drop p t)) as (Hn' & Hl & Ha).
  set (s := line_start t p) in *. set (e := to_newline (drop p t)) in *.
  apply (LineAt t p (take s t) (drop s (take p t)) (take e (drop p t)) (drop e (drop p t))).
  - rewrite take_drop, app_assoc. rewrite <- (take_drop p t) at 1. f_equal.
    rewrite <- (take_drop s (take p t)) at 1. by rewrite take_take, Nat.min_l.
  - rewrite length_app, length_drop, !length_take. lia.
  - rewrite length_take. fold s. lia.
  - unfold line_end. fold e. rewrite !length_app, length_drop, !length_take. lia.
  - rewrite in_app_iff. tauto.
  - done.
  - done.
Qed.

Lemma row_of_line t p (la : line_at t p) : row_of t p = newlines (la_before _ _ la).
Proof.
  destruct la as [b l r a Ht Hp Hs He Hn Hb Ha]. cbn [la_before]. unfold row_of.
  rewrite Hp, Ht, app_assoc, take_app_length, newlines_app, (newlines_none l); [lia|].
  intros Hi. apply Hn, in_app_iff. by left.
Qed.
