(* ===== verification/Vim.v ===== *)
(** * Vim: the editor (mini-vim.c, backend-ansi.c)

    The editor's state is one global structure; what it does outside, from allocating
    memory to renaming a file, is a call to the operating system, the parameter [Tty],
    and is logged with its answer.  [exit] ends the process: the rest of the code does
    not run, which the outcome [Exited] says.  Three loops make a call again when a
    signal interrupted it, without end; [patience] is how many interruptions in a row
    the model follows, and the outcome [Retrying] says that a loop was still at it.
    The theorems hold for every [patience].
    What goes to the trace file and to stderr is left out, and so is the growth of the
    buffer a frame is collected in; the program is the one built with
    MINI_VIM_ANSI_ONLY, whose only backend is the ANSI one.

    [Resized] and [Stopped] read the flags that the signal handler sets. *)

From Stdlib Require Import String.
From stdpp Require Import base list numbers.
From S2P Require Import Prelude CString VimText.

Local Open Scope Z_scope.

(** ** The operating system *)

(** The terminal's attributes that the editor changes. *)
Record termios := Termios { c_iflag : Z; c_oflag : Z; c_cflag : Z; c_lflag : Z; c_vmin : Z; c_vtime : Z }.

Record vstat := Vstat { st_mode : Z; st_nlink : Z; st_size : Z; st_dev : Z; st_ino : Z }.

Inductive tcall :=
  | Realloc (size : Z) | Malloc | Strdup
  | OpenRead (path : cstr) | OpenExcl (path : cstr) | Fdopen (fd : Z)
  | Fstat (fd : Z) | FstatTrace | Lstat (path : cstr) | AccessW (path : cstr)
  | Read (fd count : Z) | Write (fd : Z) (data : list Z)
  | Mkstemp (template : cstr) | Fchmod (fd mode : Z) | Fsync (fd : Z) | Close (fd : Z)
  | Rename (from to : cstr) | Unlink (path : cstr)
  | Isatty (fd : Z) | Tcgetattr | Tcsetattr (t : termios) | Sigaction (signo : Z) | Atexit
  | Winsize | Poll (timeout : Z) | Resized | Stopped.

(** [t_ret] is negative when the call failed, with the error number in [t_errno]; the
    other fields are what the call filled in. *)
Record tanswer := Tanswer {
  t_ret : Z; t_errno : Z; t_bytes : list Z; t_stat : vstat; t_termios : termios; t_rows : Z; t_cols : Z
}.

Class Tty := {
  TW : Type;
  tty_step : TW -> tcall -> tanswer * TW;
  strerror : Z -> cstr;
  patience : nat
}.

(** ** The state *)

Inductive vmode := NORMAL | INSERT | COMMAND.
#[global] Instance vmode_eq_dec : EqDecision vmode.
Proof. solve_decision. Defined.

Record editor := Editor {
  text : list Z; text_cap : Z;
  cursor : nat; top : nat; left : nat;
  rows : Z; cols : Z; resizes : Z;
  mode : vmode;
  dirty : bool; quit : bool; terminal_active : bool; paste : bool;
  prefix : Z;
  command : cstr; message : cstr; path : option cstr;
  saved_termios : termios; trace : bool
}.

Record world {T : Tty} := World {
  ed : editor;
  atexit : bool;
  errno : Z;
  log : list (tcall * tanswer);
  tty : TW
}.

Definition set_text x e := Editor x (text_cap e) (cursor e) (top e) (left e) (rows e) (cols e) (resizes e) (mode e) (dirty e) (quit e) (terminal_active e) (paste e) (prefix e) (command e) (message e) (path e) (saved_termios e) (trace e).
Definition set_text_cap x e := Editor (text e) x (cursor e) (top e) (left e) (rows e) (cols e) (resizes e) (mode e) (dirty e) (quit e) (terminal_active e) (paste e) (prefix e) (command e) (message e) (path e) (saved_termios e) (trace e).
Definition set_cursor x e := Editor (text e) (text_cap e) x (top e) (left e) (rows e) (cols e) (resizes e) (mode e) (dirty e) (quit e) (terminal_active e) (paste e) (prefix e) (command e) (message e) (path e) (saved_termios e) (trace e).
Definition set_top x e := Editor (text e) (text_cap e) (cursor e) x (left e) (rows e) (cols e) (resizes e) (mode e) (dirty e) (quit e) (terminal_active e) (paste e) (prefix e) (command e) (message e) (path e) (saved_termios e) (trace e).
Definition set_left x e := Editor (text e) (text_cap e) (cursor e) (top e) x (rows e) (cols e) (resizes e) (mode e) (dirty e) (quit e) (terminal_active e) (paste e) (prefix e) (command e) (message e) (path e) (saved_termios e) (trace e).
Definition set_rows x e := Editor (text e) (text_cap e) (cursor e) (top e) (left e) x (cols e) (resizes e) (mode e) (dirty e) (quit e) (terminal_active e) (paste e) (prefix e) (command e) (message e) (path e) (saved_termios e) (trace e).
Definition set_cols x e := Editor (text e) (text_cap e) (cursor e) (top e) (left e) (rows e) x (resizes e) (mode e) (dirty e) (quit e) (terminal_active e) (paste e) (prefix e) (command e) (message e) (path e) (saved_termios e) (trace e).
Definition set_resizes x e := Editor (text e) (text_cap e) (cursor e) (top e) (left e) (rows e) (cols e) x (mode e) (dirty e) (quit e) (terminal_active e) (paste e) (prefix e) (command e) (message e) (path e) (saved_termios e) (trace e).
Definition set_mode x e := Editor (text e) (text_cap e) (cursor e) (top e) (left e) (rows e) (cols e) (resizes e) x (dirty e) (quit e) (terminal_active e) (paste e) (prefix e) (command e) (message e) (path e) (saved_termios e) (trace e).
Definition set_dirty x e := Editor (text e) (text_cap e) (cursor e) (top e) (left e) (rows e) (cols e) (resizes e) (mode e) x (quit e) (terminal_active e) (paste e) (prefix e) (command e) (message e) (path e) (saved_termios e) (trace e).
Definition set_quit x e := Editor (text e) (text_cap e) (cursor e) (top e) (left e) (rows e) (cols e) (resizes e) (mode e) (dirty e) x (terminal_active e) (paste e) (prefix e) (command e) (message e) (path e) (saved_termios e) (trace e).
Definition set_terminal_active x e := Editor (text e) (text_cap e) (cursor e) (top e) (left e) (rows e) (cols e) (resizes e) (mode e) (dirty e) (quit e) x (paste e) (prefix e) (command e) (message e) (path e) (saved_termios e) (trace e).
Definition set_paste x e := Editor (text e) (text_cap e) (cursor e) (top e) (left e) (rows e) (cols e) (resizes e) (mode e) (dirty e) (quit e) (terminal_active e) x (prefix e) (command e) (message e) (path e) (saved_termios e) (trace e).
Definition set_prefix x e := Editor (text e) (text_cap e) (cursor e) (top e) (left e) (rows e) (cols e) (resizes e) (mode e) (dirty e) (quit e) (terminal_active e) (paste e) x (command e) (message e) (path e) (saved_termios e) (trace e).
Definition set_command x e := Editor (text e) (text_cap e) (cursor e) (top e) (left e) (rows e) (cols e) (resizes e) (mode e) (dirty e) (quit e) (terminal_active e) (paste e) (prefix e) x (message e) (path e) (saved_termios e) (trace e).
Definition set_message x e := Editor (text e) (text_cap e) (cursor e) (top e) (left e) (rows e) (cols e) (resizes e) (mode e) (dirty e) (quit e) (terminal_active e) (paste e) (prefix e) (command e) x (path e) (saved_termios e) (trace e).
Definition set_path x e := Editor (text e) (text_cap e) (cursor e) (top e) (left e) (rows e) (cols e) (resizes e) (mode e) (dirty e) (quit e) (terminal_active e) (paste e) (prefix e) (command e) (message e) x (saved_termios e) (trace e).
Definition set_saved_termios x e := Editor (text e) (text_cap e) (cursor e) (top e) (left e) (rows e) (cols e) (resizes e) (mode e) (dirty e) (quit e) (terminal_active e) (paste e) (prefix e) (command e) (message e) (path e) x (trace e).
Definition set_trace x e := Editor (text e) (text_cap e) (cursor e) (top e) (left e) (rows e) (cols e) (resizes e) (mode e) (dirty e) (quit e) (terminal_active e) (paste e) (prefix e) (command e) (message e) (path e) (saved_termios e) x.

(** ** Computations that may end the process *)

Inductive outcome (A : Type) := Run (a : A) | Exited (code : Z) | Retrying.
Arguments Run {A}.
Arguments Exited {A}.
Arguments Retrying {A}.

Definition V {T : Tty} (A : Type) : Type := ST world (outcome A).

Definition vret {T : Tty} {A} (a : A) : V A := ret (Run a).
Definition vbind {T : Tty} {A B} (m : V A) (k : A -> V B) : V B :=
  bind m (fun r => match r with Run a => k a | Exited c => ret (Exited c) | Retrying => ret Retrying end).
Definition lift {T : Tty} {A} (m : ST world A) : V A := bind m (fun a => ret (Run a)).

Declare Scope vim_scope.
Delimit Scope vim_scope with vim.
Notation "'let!' x := m 'in' k" := (vbind m (fun x => k))
  (at level 10, x pattern, m at level 200, k at level 200) : vim_scope.
Notation "'run!' m 'in' k" := (vbind m (fun _ => k))
  (at level 10, m at level 200, k at level 200) : vim_scope.
Local Open Scope vim_scope.

Section Editor.
Context {T : Tty} {L : Locale}.

Definition FILE_LIMIT : Z := 8388608.
Definition PATH_MAX : Z := 4096.
Definition COMMAND_SIZE : Z := PATH_MAX + 16.
Definition MESSAGE_SIZE : Z := PATH_MAX + 128.
Definition EXIT_FAILURE : Z := 1.
Definition EINTR : Z := 4.
Definition STDIN : Z := 0.
Definition STDOUT : Z := 1.

Definition KEY_NONE : Z := 256.
Definition KEY_UP : Z := 257.
Definition KEY_DOWN : Z := 258.
Definition KEY_LEFT : Z := 259.
Definition KEY_RIGHT : Z := 260.
Definition KEY_HOME : Z := 261.
Definition KEY_END : Z := 262.
Definition KEY_DELETE : Z := 263.
Definition KEY_PASTE_BEGIN : Z := 264.
Definition KEY_PASTE_END : Z := 265.

(** The code of a character of the source. *)
Definition chr (s : string) : Z := hd 0 (str s).

Definition call (c : tcall) : ST world tanswer := fun w =>
  let '(a, t) := tty_step (tty w) c in
  (a, World _ (ed w) (atexit w) (if t_ret a <? 0 then t_errno a else errno w) ((c, a) :: log w) t).

Definition get {A} (f : editor -> A) : V A := lift (gets (fun w => f (ed w))).
Definition upd (f : editor -> editor) : ST world unit :=
  modify (fun w => World _ (f (ed w)) (atexit w) (errno w) (log w) (tty w)).
Definition put (f : editor -> editor) : V unit := lift (upd f).
Definition sys (c : tcall) : V tanswer := lift (call c).
Definition get_errno : V Z := lift (gets errno).
Definition set_errno (e : Z) : V unit :=
  lift (modify (fun w => World _ (ed w) (atexit w) e (log w) (tty w))).
Definition set_atexit : V unit :=
  lift (modify (fun w => World _ (ed w) true (errno w) (log w) (tty w))).

(** ** Output and the end of the process *)

(** The call, made again as long as a signal interrupts it. *)
Fixpoint uninterrupted (fuel : nat) (c : tcall) : V tanswer :=
  match fuel with
  | O => ret Retrying
  | S fuel' =>
      let! a := sys c in
      let! e := get_errno in
      if (t_ret a <? 0) && (e =? EINTR) then uninterrupted fuel' c else vret a
  end.

(** Every round that is not interrupted writes at least one byte, so that as many rounds
    as there are bytes are enough ([write_all_spec]). *)
Fixpoint write_all_loop (fuel : nat) (fd : Z) (data : list Z) : V Z :=
  match data, fuel with
  | [], _ => vret 0
  | _, O => ret Retrying
  | _, S fuel' =>
      let! a := uninterrupted patience (Write fd data) in
      if t_ret a <=? 0 then vret (-1)
      else write_all_loop fuel' fd (drop (Z.to_nat (t_ret a)) data)
  end.
Definition write_all (fd : Z) (data : list Z) : V Z := write_all_loop (length data) fd data.

Definition PASTE_OFF : list Z := Eval vm_compute in ESC :: str "[?2004l".
Definition PASTE_ON : list Z := Eval vm_compute in ESC :: str "[?2004h".

(** The sequences of the ANSI backend. *)
Definition ansi_start : list Z := Eval vm_compute in ESC :: str "[?1049h".
Definition ansi_stop : list Z := Eval vm_compute in
  (ESC :: str "[0m") ++ (ESC :: str "[0 q") ++ (ESC :: str "[?25h") ++ (ESC :: str "[?1049l").

Definition terminal_restore : V unit :=
  let! e := get (fun e => e) in
  if negb (terminal_active e) then vret tt else
  run! put (set_terminal_active false) in
  run! uninterrupted patience (Tcsetattr (saved_termios e)) in
  run! write_all STDOUT PASTE_OFF in
  run! write_all STDOUT ansi_stop in
  vret tt.

(** [exit(code)]: the function registered with [atexit] runs first. *)
Definition exit_ {A} (code : Z) : V A :=
  let! registered := lift (gets atexit) in
  run! (if registered : bool then terminal_restore else vret tt) in
  ret (Exited code).

Definition fatal {A} : V A := run! terminal_restore in exit_ EXIT_FAILURE.

(** ** Buffers *)

(** [while (cap < need) cap *= 2]. *)
Fixpoint grow (fuel : nat) (cap need : Z) : Z :=
  match fuel with
  | O => cap
  | S fuel' => if cap <? need then grow fuel' (u64 (cap * 2)) need else cap
  end.

(** [reserve(&editor.text, need)]. *)
Definition reserve (need : Z) : V unit :=
  let! buffer_cap := get text_cap in
  if need <=? buffer_cap then vret tt else
  let cap := grow 64 (if negb (buffer_cap =? 0) then buffer_cap else 1024) need in
  let! a := sys (Realloc cap) in
  if t_ret a <? 0 then fatal else put (set_text_cap cap).

(** [append(&editor.text, data, len)]. *)
Definition append (data : list Z) : V unit :=
  let! t := get text in
  run! reserve (Z.of_nat (length t) + Z.of_nat (length data) + 1) in
  put (set_text (t ++ data)).

(** [vsnprintf(editor.message, ...)]. *)
Definition message_ (s : cstr) : V unit := put (set_message (take (Z.to_nat (MESSAGE_SIZE - 1)) s)).

(** A number in decimal. *)
Fixpoint dec_digits (fuel : nat) (z : Z) (acc : cstr) : cstr :=
  match fuel with
  | O => acc
  | S fuel' =>
      let acc := (48 + z mod 10) :: acc in
      if z <? 10 then acc else dec_digits fuel' (z / 10) acc
  end.
Definition dec (z : Z) : cstr :=
  if z <? 0 then chr "-" :: dec_digits 20 (- z) [] else dec_digits 20 z [].

Definition insert_byte (byte : Z) : V unit :=
  let! e := get (fun e => e) in
  if FILE_LIMIT <=? Z.of_nat (length (text e)) then message_ (str "File limit: 8 MiB") else
  run! reserve (Z.of_nat (length (text e)) + 2) in
  run! put (set_text (take (cursor e) (text e) ++ byte :: drop (cursor e) (text e))) in
  run! put (set_cursor (S (cursor e))) in
  put (set_dirty true).

Definition delete_range (start end_ : nat) : V unit :=
  if (start =? end_)%nat then vret tt else
  let! t := get text in
  run! put (set_text (take start t ++ drop end_ t)) in
  run! put (set_cursor start) in
  put (set_dirty true).

(** ** The terminal *)

Definition IFLAGS_OFF : Z := 1 + 2 + 8 + 32 + 64 + 128 + 256 + 1024.
Definition OPOST : Z := 1.
Definition LFLAGS_OFF : Z := 8 + 64 + 2 + 1 + 32768.
Definition CFLAGS_OFF : Z := 48 + 256.
Definition CS8 : Z := 48.

Definition raw_of (t : termios) : termios :=
  Termios (Z.ldiff (c_iflag t) IFLAGS_OFF) (Z.ldiff (c_oflag t) OPOST)
    (Z.lor (Z.ldiff (c_cflag t) CFLAGS_OFF) CS8) (Z.ldiff (c_lflag t) LFLAGS_OFF) 1 0.

Definition SIGHUP : Z := 1.
Definition SIGINT : Z := 2.
Definition SIGQUIT : Z := 3.
Definition SIGPIPE : Z := 13.
Definition SIGTERM : Z := 15.
Definition SIGWINCH : Z := 28.

Fixpoint set_handlers (l : list Z) : V unit :=
  match l with
  | [] => vret tt
  | s :: l' => let! a := sys (Sigaction s) in if t_ret a <? 0 then fatal else set_handlers l'
  end.

(** [start] of the ANSI backend. *)
Definition backend_start : V unit :=
  let! r := write_all STDOUT ansi_start in
  if r <? 0 then fatal else vret tt.

Definition terminal_start : V unit :=
  let! i := sys (Isatty STDIN) in
  let! tty_ok := (if t_ret i =? 0 then vret false
                  else let! o := sys (Isatty STDOUT) in vret (negb (t_ret o =? 0))) in
  if negb tty_ok then exit_ EXIT_FAILURE else
  let! g := sys Tcgetattr in
  if t_ret g <? 0 then fatal else
  run! put (set_saved_termios (t_termios g)) in
  run! set_handlers [SIGWINCH; SIGINT; SIGTERM; SIGHUP; SIGQUIT; SIGPIPE] in
  let raw := raw_of (t_termios g) in
  let! a := sys Atexit in
  if negb (t_ret a =? 0) then run! set_errno ENOMEM in fatal else
  run! set_atexit in
  run! put (set_terminal_active true) in
  run! backend_start in
  let! s := sys (Tcsetattr raw) in
  if t_ret s <? 0 then fatal else
  let! r := write_all STDOUT PASTE_ON in
  if r <? 0 then fatal else vret tt.

Definition update_size (from_signal : bool) : V unit :=
  let! a := sys Winsize in
  if t_ret a <? 0 then fatal else
  run! put (set_rows (if negb (t_rows a =? 0) then t_rows a else 24)) in
  run! put (set_cols (if negb (t_cols a =? 0) then t_cols a else 80)) in
  if from_signal then put (fun e => set_resizes (u32 (resizes e + 1)) e) else vret tt.

(** ** Drawing *)

Inductive draw_style := STYLE_NORMAL | STYLE_CYAN | STYLE_STATUS.

(** What the editor asks of a backend. *)
Inductive draw :=
  | DBegin
  | DPosition (row column : Z)
  | DEraseLine
  | DEraseScreen
  | DStyle (s : draw_style)
  | DText (bytes : list Z)
  | DPresent (normal : bool).

Definition hex (n : Z) : Z := if n <? 10 then 48 + n else 87 + n.

(** What is drawn for a character that fits. *)
Definition draw_glyph (data : list Z) (n width : nat) : list draw :=
  let c := hd 0 data in
  if c =? TAB then replicate width (DText [32])
  else if (c <? 32) || (c =? DEL) then [DText [chr "^"; if c =? DEL then chr "?" else c + 64]]
  else if (width =? 4)%nat && (n =? 1)%nat && (128 <=? c) then
    [DText [chr "\"; chr "x"; hex (c / 16); hex (c mod 16)]]
  else match mbrtowc (take n data) with
       | Some (_, wc) => if wcwidth wc <? 0 then [DText [chr "?"]] else [DText (take n data)]
       | None => if wcwidth (stale_wc data) <? 0 then [DText [chr "?"]] else [DText (take n data)]
       end.

(** The loop of [draw_text] over what is left of the data. *)
Fixpoint draw_loop (fuel : nat) (data : list Z) (left columns column : nat) : list draw :=
  match fuel with
  | O => []
  | S fuel' =>
      if negb (0 <? length data)%nat || negb (column <? left + columns)%nat then [] else
      let '(n, width) := glyph data column in
      let end_ := (column + width)%nat in
      let out :=
        if (left <=? column)%nat && (end_ <=? left + columns)%nat then draw_glyph data n width
        else if (left <? end_)%nat && (column <? left + columns)%nat then
          let first := if (column <? left)%nat then left else column in
          let last := if (left + columns <? end_)%nat then (left + columns)%nat else end_ in
          replicate (last - first) (DText [32])
        else [] in
      out ++ draw_loop fuel' (drop n data) left columns end_
  end.
Definition draw_text (data : list Z) (left columns : nat) : list draw :=
  draw_loop (length data) data left columns 0.

(** [for (i = 0; i < top && p < len; i++) p = line_end(p) + 1]. *)
Fixpoint skip_lines (n : nat) (t : list Z) (p : nat) : nat :=
  match n with
  | O => p
  | S n' => if (p <? length t)%nat then skip_lines n' t (S (line_end t p)) else p
  end.

(** The lines of the window, the first of them row [y]. *)
Fixpoint draw_lines (height : nat) (y : Z) (t : list Z) (p left width : nat) : list draw :=
  match height with
  | O => []
  | S h =>
      [DPosition (y + 1) 1; DEraseLine] ++
      (if (p <=? length t)%nat then
         let end_ := line_end t p in
         draw_text (take (end_ - p) (drop p t)) left width ++ draw_lines h (y + 1) t (S end_) left width
       else [DStyle STYLE_CYAN; DText (str "~"); DStyle STYLE_NORMAL] ++ draw_lines h (y + 1) t p left width)
  end.

Definition mode_name (m : vmode) : cstr :=
  match m with INSERT => str "INSERT" | COMMAND => str "COMMAND" | NORMAL => str "NORMAL" end.

Definition status_line (e : editor) (row column : nat) : cstr :=
  take 255 (str " " ++ mode_name (mode e) ++ str " " ++ (if dirty e then str "[+]" else str "[-]") ++
            str " | ansi | " ++ dec (Z.of_nat row + 1) ++ str ":" ++ dec (Z.of_nat column + 1) ++ str " | " ++
            dec (rows e) ++ str "x" ++ dec (cols e) ++ str " | winch=" ++ dec (resizes e) ++
            str " | ICANON=0 ECHO=0 ISIG=0").

(** The scroll position that shows the cursor. *)
Definition scroll (first at_ size : nat) : nat :=
  let first := if (at_ <? first)%nat then at_ else first in
  if (first + size <=? at_)%nat then (at_ - size + 1)%nat else first.

(** [draw_screen] up to [present]: what it draws, and the new scroll position. *)
Definition draw_frame (e : editor) : list draw * editor :=
  let column := cursor_column (text e) (cursor e) in
  let row := row_of (text e) (cursor e) in
  let small := (rows e <? 3) || (cols e <? 12) in
  if small then
    (DBegin :: DPosition 1 1 :: DEraseScreen ::
       draw_text (str "Enlarge window") 0 (Z.to_nat (cols e - 1)) ++ [DPresent (bool_decide (mode e = NORMAL))], e)
  else
  let height := Z.to_nat (rows e - 2) in
  let width := Z.to_nat (cols e - 1) in
  let top' := scroll (top e) row height in
  let left' := scroll (left e) column width in
  let body := draw_lines height 0 (text e) (skip_lines top' (text e) 0) left' width in
  let status := status_line e row column in
  let foot :=
    if bool_decide (mode e = COMMAND) then
      let visible := (width - 1)%nat in
      let offset := if (visible <? length (command e))%nat then (length (command e) - visible)%nat else 0%nat in
      DText (str ":") :: draw_text (drop offset (command e)) 0 visible ++
      [DPosition (rows e) (Z.of_nat (length (command e) - offset) + 2)]
    else
      draw_text (message e) 0 width ++
      [DPosition (Z.of_nat (row - top') + 1) (Z.of_nat (column - left') + 1)] in
  (DBegin :: body ++
     [DPosition (rows e - 1) 1; DStyle STYLE_STATUS; DEraseLine] ++ draw_text status 0 width ++
     [DStyle STYLE_NORMAL; DPosition (rows e) 1; DEraseLine] ++ foot ++
     [DPresent (bool_decide (mode e = NORMAL))],
   set_left left' (set_top top' e)).

(** The bytes the ANSI backend emits. *)
Definition ansi (d : draw) : list Z :=
  match d with
  | DBegin => (ESC :: str "[?25l") ++ (ESC :: str "[0m")
  | DPosition r c => (ESC :: str "[") ++ dec r ++ str ";" ++ dec c ++ str "H"
  | DEraseLine => ESC :: str "[K"
  | DEraseScreen => ESC :: str "[2J"
  | DStyle STYLE_CYAN => ESC :: str "[36m"
  | DStyle STYLE_STATUS => ESC :: str "[7m"
  | DStyle STYLE_NORMAL => ESC :: str "[0m"
  | DText b => b
  | DPresent n => (ESC :: (if n then str "[2 q" else str "[6 q")) ++ (ESC :: str "[?25h")
  end.

Definition draw_screen : V unit :=
  let! e := get (fun e => e) in
  let '(frame, e') := draw_frame e in
  run! put (fun _ => e') in
  let! r := write_all STDOUT (flat_map ansi frame) in
  if r <? 0 then fatal else vret tt.

(** ** Input *)

Definition read_byte (timeout : Z) : V Z :=
  let! p := sys (Poll timeout) in
  if t_ret p <? 0 then
    let! e := get_errno in if e =? EINTR then vret KEY_NONE else fatal
  else if t_ret p =? 0 then vret KEY_NONE else
  let! r := sys (Read STDIN 1) in
  let! e := get_errno in
  if (t_ret r <? 0) && (e =? EINTR) then vret KEY_NONE else
  if t_ret r <? 0 then fatal else
  if t_ret r =? 0 then run! put (set_quit true) in vret KEY_NONE else
  vret (hd 0 (t_bytes r) mod 256).

(** The rest of an escape sequence, up to its final byte or 23 bytes; [None] when the
    input stops before that. *)
Fixpoint read_sequence (fuel : nat) (sequence : list Z) : V (option (list Z)) :=
  match fuel with
  | O => vret (Some sequence)
  | S fuel' =>
      let! next := read_byte 50 in
      if next =? KEY_NONE then vret None else
      let sequence := sequence ++ [next] in
      if (64 <=? next) && (next <=? 126) then vret (Some sequence)
      else read_sequence fuel' sequence
  end.

Definition key_of_sequence (sequence : list Z) : Z :=
  let s := default [] (cstr_of (sequence ++ [0])) in
  if streq s (str "A") then KEY_UP
  else if streq s (str "B") then KEY_DOWN
  else if streq s (str "C") then KEY_RIGHT
  else if streq s (str "D") then KEY_LEFT
  else if streq s (str "H") || streq s (str "1~") then KEY_HOME
  else if streq s (str "F") || streq s (str "4~") then KEY_END
  else if streq s (str "3~") then KEY_DELETE
  else if streq s (str "200~") then KEY_PASTE_BEGIN
  else if streq s (str "201~") then KEY_PASTE_END
  else KEY_NONE.

Definition read_key : V Z :=
  let! key := read_byte 100 in
  if negb (key =? ESC) then vret key else
  let! next := read_byte 50 in
  if next =? KEY_NONE then vret ESC else
  if negb (next =? chr "[") && negb (next =? chr "O") then
    run! put (set_mode NORMAL) in
    run! put (set_prefix 0) in
    vret next
  else
  let! sequence := read_sequence 23 [] in
  match sequence with
  | None => vret KEY_NONE
  | Some s => vret (key_of_sequence s)
  end.

(** ** Files *)

Definition S_ISREG (mode : Z) : bool := Z.land mode 61440 =? 32768.

(** Every round that is not interrupted appends at least one byte, and the limit ends the
    loop, so that these rounds are enough ([read_file_waits]). *)
Definition read_rounds : nat := Z.to_nat (FILE_LIMIT + 2).
Fixpoint read_file (fuel : nat) (fd : Z) : V unit :=
  match fuel with
  | O => ret Retrying
  | S fuel' =>
      let! a := uninterrupted patience (Read fd 4096) in
      if t_ret a =? 0 then vret tt else
      if t_ret a <? 0 then fatal else
      let! t := get text in
      if FILE_LIMIT <? Z.of_nat (length t) + t_ret a then run! set_errno EFBIG in fatal else
      run! append (resize (Z.to_nat (t_ret a)) 0 (t_bytes a)) in
      read_file fuel' fd
  end.

Definition load_file (p : cstr) : V unit :=
  let! d := sys Strdup in
  if t_ret d <? 0 then fatal else
  run! put (set_path (Some p)) in
  let! f := sys (OpenRead p) in
  let fd := t_ret f in
  if fd <? 0 then
    let! e := get_errno in
    if e =? ENOENT then message_ (str "New file: " ++ p) else fatal
  else
  let! st := sys (Fstat fd) in
  if t_ret st <? 0 then fatal else
  if negb (S_ISREG (st_mode (t_stat st))) || (FILE_LIMIT <? st_size (t_stat st)) then exit_ EXIT_FAILURE else
  run! read_file read_rounds fd in
  let! c := sys (Close fd) in
  if t_ret c <? 0 then fatal else vret tt.

(** [if (write_all(...) < 0 || fchmod(...) < 0 || fsync(...) < 0) error = errno]. *)
Definition write_out (fd mode : Z) (t : list Z) : V Z :=
  let! w := write_all fd t in
  let! ok := (if w <? 0 then vret false else
              let! m := sys (Fchmod fd mode) in
              if t_ret m <? 0 then vret false else
              let! s := sys (Fsync fd) in
              vret (negb (t_ret s <? 0))) in
  if ok then vret 0 else get_errno.

(** The write to the temporary file and the calls that follow it, up to the rename:
    the error number, 0 when the file was replaced. *)
Definition write_temporary (fd mode : Z) (temporary p : cstr) (t : list Z) : V Z :=
  let! error := write_out fd mode t in
  let! c := sys (Close fd) in
  let! error := (if (t_ret c <? 0) && (error =? 0) then get_errno else vret error) in
  let! error := (if error =? 0 then
                   let! r := sys (Rename temporary p) in
                   if t_ret r <? 0 then get_errno else vret error
                 else vret error) in
  if negb (error =? 0) then run! sys (Unlink temporary) in vret error else vret error.

(** What the file at [p] is: refused with a message, or the mode to save it with. *)
Definition save_check (p : cstr) : V (option Z) :=
  let! st := sys (Lstat p) in
  if t_ret st =? 0 then
    let s := t_stat st in
    if negb (S_ISREG (st_mode s)) || negb (st_nlink s =? 1) then
      run! message_ (str "Save refused: symlink, non-regular file or multiple hard links") in vret None
    else
    let! a := sys (AccessW p) in
    if t_ret a <? 0 then
      let! e := get_errno in
      run! message_ (str "Save failed: " ++ strerror e) in vret None
    else
    let! tr := get trace in
    let! same := (if tr then
                    let! ts := sys FstatTrace in
                    if t_ret ts <? 0 then fatal
                    else vret ((st_dev s =? st_dev (t_stat ts)) && (st_ino s =? st_ino (t_stat ts)))
                  else vret false) in
    if same : bool then
      run! message_ (str "Save refused: destination is the trace log") in vret None
    else vret (Some (Z.land (st_mode s) 511))
  else
  let! e := get_errno in
  if negb (e =? ENOENT) then
    run! message_ (str "Save failed: " ++ strerror e) in vret None
  else vret (Some 384).

Definition save_file (p : option cstr) : V bool :=
  match p with
  | None | Some [] => run! message_ (str "No file name. Use :w filename") in vret false
  | Some p =>
      let! m := save_check p in
      match m with
      | None => vret false
      | Some mode =>
          let! a1 := sys Malloc in
          let! a2 := sys Strdup in
          if (t_ret a1 <? 0) || (t_ret a2 <? 0) then fatal else
          let! f := sys (Mkstemp (p ++ str ".mini-vim-XXXXXX")) in
          let temporary := t_bytes f in
          let! t := get text in
          let! error := (if t_ret f <? 0 then get_errno
                         else write_temporary (t_ret f) mode temporary p t) in
          if negb (error =? 0) then
            run! message_ (str "Save failed: " ++ strerror error) in vret false
          else
          run! put (set_path (Some p)) in
          run! put (set_dirty false) in
          run! message_ (str "Written " ++ dec (Z.of_nat (length t)) ++ str " bytes: " ++ p) in
          vret true
      end
  end.

Fixpoint skip_blanks (s : cstr) : cstr :=
  match s with
  | c :: s' => if c =? 32 then skip_blanks s' else s
  | [] => []
  end.

Definition HELP : string :=
  "i/a/o insert | Esc normal | hjkl/arrows | 0/$ gg/G | x dd | :w :wq :q!".

Definition run_command : V unit :=
  let! c := get command in
  run! put (set_mode NORMAL) in
  if streq c (str "q!") then put (set_quit true)
  else if streq c (str "q") then
    let! d := get dirty in
    if d : bool then message_ (str "Unsaved changes. Use :w, :wq or :q!") else put (set_quit true)
  else if streq c (str "w") || streq c (str "wq") then
    let! p := get path in
    let! ok := save_file p in
    if ok && (nth 1 c 0 =? chr "q") then put (set_quit true) else vret tt
  else if streq (take 2 c) (str "w ") then
    let! _ := save_file (Some (skip_blanks (drop 2 c))) in vret tt
  else if streq c (str "help") then message_ (str HELP)
  else message_ (str "Unknown command: " ++ c).

(** ** Keys *)

Definition paste_key (key : Z) : V unit :=
  if (key =? 13) || (key =? NL) then insert_byte NL
  else if (key =? TAB) || ((32 <=? key) && (key <? 256) && negb (key =? DEL)) then insert_byte key
  else vret tt.

Definition command_key (key : Z) : V unit :=
  let! c := get command in
  if (key =? 13) || (key =? NL) then run_command
  else if (key =? DEL) || (key =? 8) then
    if (0 <? length c)%nat then put (set_command (take (length c - 1) c)) else put (set_mode NORMAL)
  else if (32 <=? key) && (key <? 127) && (Z.of_nat (length c) + 1 <? COMMAND_SIZE) then
    put (set_command (c ++ [key]))
  else vret tt.

(** 'i', 'a' and 'o'. *)
Definition start_insert (key : Z) : V unit :=
  let! e := get (fun e => e) in
  let t := text e in
  let cur := cursor e in
  run! (if (key =? chr "a") && (cur <? line_end t cur)%nat then put (set_cursor (next_char t cur)) else vret tt) in
  run! (if key =? chr "o" then
          run! put (fun e => set_cursor (line_end (text e) (cursor e)) e) in insert_byte NL
        else vret tt) in
  put (set_mode INSERT).

(** The second 'd' of "dd". *)
Definition delete_line : V unit :=
  let! e := get (fun e => e) in
  let t := text e in
  let start := line_start t (cursor e) in
  let end_ := line_end t (cursor e) in
  let '(start, end_) :=
    if (end_ <? length t)%nat then (start, S end_)
    else if negb (start =? 0)%nat then (pred start, end_)
    else (start, end_) in
  run! delete_range start end_ in
  put (fun e => set_cursor (line_start (text e) (cursor e)) e).

(** A key in the modes NORMAL and INSERT.  The result says whether [prefix] is cleared. *)
Definition edit_key (key : Z) : V bool :=
  let! e := get (fun e => e) in
  let t := text e in
  let cur := cursor e in
  let normal := bool_decide (mode e = NORMAL) in
  let cleared (m : V unit) := run! m in vret true in
  if (key =? KEY_UP) || (normal && (key =? chr "k")) then
    cleared (put (set_cursor (move_vertical true t cur)))
  else if (key =? KEY_DOWN) || (normal && (key =? chr "j")) then
    cleared (put (set_cursor (move_vertical false t cur)))
  else if (key =? KEY_LEFT) || (normal && (key =? chr "h")) then
    cleared (if (line_start t cur <? cur)%nat then put (set_cursor (previous_char t cur)) else vret tt)
  else if (key =? KEY_RIGHT) || (normal && (key =? chr "l")) then
    cleared (if (cur <? line_end t cur)%nat then put (set_cursor (next_char t cur)) else vret tt)
  else if (key =? KEY_HOME) || (normal && (key =? chr "0")) then
    cleared (put (set_cursor (line_start t cur)))
  else if (key =? KEY_END) || (normal && (key =? chr "$")) then
    cleared (put (set_cursor (line_end t cur)))
  else if (key =? KEY_DELETE) || (normal && (key =? chr "x")) then
    cleared (if (cur <? line_end t cur)%nat then delete_range cur (next_char t cur) else vret tt)
  else if bool_decide (mode e = INSERT) then
    cleared (if (key =? DEL) || (key =? 8) then delete_range (previous_char t cur) cur
             else if (key =? 13) || (key =? NL) then insert_byte NL
             else if (key =? TAB) || ((32 <=? key) && (key <? 256)) then insert_byte key
             else vret tt)
  else if key =? chr ":" then
    cleared (run! put (set_command []) in put (set_mode COMMAND))
  else if (key =? chr "i") || (key =? chr "a") || (key =? chr "o") then
    cleared (start_insert key)
  else if key =? chr "G" then cleared (put (set_cursor (line_start t (length t))))
  else if (key =? chr "g") && (prefix e =? chr "g") then cleared (put (set_cursor O))
  else if (key =? chr "d") && (prefix e =? chr "d") then
    cleared delete_line
  else if (key =? chr "g") || (key =? chr "d") then
    run! put (set_prefix key) in vret false
  else vret true.

Definition handle_key (key : Z) : V unit :=
  if key =? KEY_PASTE_BEGIN then
    run! put (set_paste true) in put (set_mode INSERT)
  else if key =? KEY_PASTE_END then put (set_paste false)
  else
  let! e := get (fun e => e) in
  if paste e then paste_key key
  else if (key =? 27) || (key =? 3) then
    run! put (set_mode NORMAL) in
    run! put (set_prefix 0) in
    message_ (if key =? 3 then str "Ctrl-C = byte 0x03 (ISIG=0); handled by the editor" else str "NORMAL")
  else if bool_decide (mode e = COMMAND) then command_key key
  else
  let! clear := edit_key key in
  if clear : bool then put (set_prefix 0) else vret tt.

(** ** The program *)

(** One round of the main loop; [redraw] is whether something changed. *)
Definition main_step (redraw : bool) : V bool :=
  let! r := sys Resized in
  let! redraw := (if negb (t_ret r =? 0) then run! update_size true in vret true else vret redraw) in
  run! (if redraw : bool then draw_screen else vret tt) in
  let! key := read_key in
  if negb (key =? KEY_NONE) then run! handle_key key in vret true else vret false.

(** The loop ends when the editor quits or a signal stops it; the fuel is the number
    of rounds, that is of keys and timeouts, that are looked at. *)
Fixpoint main_loop (fuel : nat) (redraw : bool) : V (option Z) :=
  let! q := get quit in
  let! s := sys Stopped in
  if (q : bool) || negb (t_ret s =? 0) then vret (Some (t_ret s)) else
  match fuel with
  | O => vret None
  | S fuel' => let! redraw := main_step redraw in main_loop fuel' redraw
  end.

(** The options of the command line, after the name of the program: what [main] returns at
    once, or the file to edit and the trace file. *)
Fixpoint parse_args (argv : list cstr) (file trace_path : option cstr) : Z + option cstr * option cstr :=
  match argv with
  | [] => inr (file, trace_path)
  | arg :: rest =>
      let other :=
        if streq arg (str "--help") then inl 0
        else if bool_decide (file = None) && negb (streq (take 2 arg) (str "--")) then
          parse_args rest (Some arg) trace_path
        else inl EXIT_FAILURE in
      match rest with
      | next :: rest' =>
          if streq arg (str "--backend") then
            if streq next (str "ansi") then parse_args rest' file trace_path else inl EXIT_FAILURE
          else if streq arg (str "--trace") && bool_decide (trace_path = None) then
            parse_args rest' file (Some next)
          else other
      | [] => other
      end
  end.

(** [main] after its options. *)
Definition session (fuel : nat) (file trace_path : option cstr) : V unit :=
  run! append [] in
  run! message_ (str "i: insert | :help: keys | :q!: quit | resize window to see SIGWINCH") in
  run! match file with Some p => load_file p | None => vret tt end in
  run! match trace_path with
       | None => vret tt
       | Some tp =>
           if bool_decide (file = Some tp) then exit_ EXIT_FAILURE else
           let! f := sys (OpenExcl tp) in
           if t_ret f <? 0 then fatal else
           let! d := sys (Fdopen (t_ret f)) in
           if t_ret d <? 0 then fatal else put (set_trace true)
       end in
  run! terminal_start in
  run! update_size false in
  let! stopped := main_loop fuel true in
  match stopped with
  | None => vret tt
  | Some signo =>
      run! terminal_restore in
      exit_ (if negb (signo =? 0) then 128 + signo else 0)
  end.

Definition main (fuel : nat) (argv : list cstr) : V unit :=
  match parse_args argv None None with
  | inl code => exit_ code
  | inr (file, trace_path) => session fuel file trace_path
  end.

End Editor.
