(* ===== verification/VimSpec.v ===== *)
(** * VimSpec: the editor keeps its buffer and loses no text

    A specification of a computation speaks of the runs that do not end the process:
    [vwp m Q w] says that [Q] holds of the result and of the state when [m] returns. *)

From Stdlib Require Import String.
From stdpp Require Import base list numbers.
From S2P Require Import Prelude CString VimText Vim.

Local Open Scope Z_scope.
Local Open Scope vim_scope.

(** ** Symbolic execution *)

Section Vwp.
Context {T : Tty}.

Definition vwp {A} (m : V A) (Q : A -> world -> Prop) (w : world) : Prop :=
  match fst (m w) with
  | Run a => Q a (snd (m w))
  | _ => True
  end.

Lemma vwp_ret {A} (a : A) Q w : Q a w -> vwp (vret a) Q w.
Proof. exact id. Qed.

Lemma vwp_bind {A B} (m : V A) (k : A -> V B) Q w :
  vwp m (fun a w' => vwp (k a) Q w') w -> vwp (vbind m k) Q w.
Proof. unfold vwp, vbind, bind. destruct (m w) as [[a|c|] w']; done. Qed.

Lemma vwp_mono {A} (m : V A) (P Q : A -> world -> Prop) w :
  vwp m P w -> (forall a w', P a w' -> Q a w') -> vwp m Q w.
Proof. unfold vwp. destruct (fst (m w)); auto. Qed.

Lemma vwp_get {A} (f : editor -> A) Q w : Q (f (ed w)) w -> vwp (get f) Q w.
Proof. exact id. Qed.

Lemma vwp_errno Q w : Q (errno w) w -> vwp get_errno Q w.
Proof. exact id. Qed.

Lemma vwp_put f Q w :
  (forall w', ed w' = f (ed w) -> log w' = log w -> Q tt w') -> vwp (put f) Q w.
Proof. intros H. by apply H. Qed.

Lemma vwp_set_errno e Q w :
  (forall w', ed w' = ed w -> log w' = log w -> Q tt w') -> vwp (set_errno e) Q w.
Proof. intros H. by apply H. Qed.

Lemma vwp_set_atexit Q w :
  (forall w', ed w' = ed w -> log w' = log w -> Q tt w') -> vwp set_atexit Q w.
Proof. intros H. by apply H. Qed.

Lemma vwp_sys c Q w :
  (forall a w', ed w' = ed w -> log w' = (c, a) :: log w ->
     errno w' = (if t_ret a <? 0 then t_errno a else errno w) -> Q a w') -> vwp (sys c) Q w.
Proof. intros H. unfold vwp, sys, lift, bind, call. destruct (tty_step _ _) as [a t]. by apply H. Qed.

(** What is said of every result holds of one. *)
Lemma vwp_all {A} (m : V A) (Q : A -> world -> Prop) w : (forall a w', Q a w') -> vwp m Q w.
Proof. intros H. unfold vwp. by destruct (fst (m w)). Qed.

Lemma vwp_exit {A} code Q w : vwp (@exit_ _ A code) Q w.
Proof. unfold exit_. apply vwp_bind, vwp_all. intros b w1. by apply vwp_bind, vwp_all. Qed.

Lemma vwp_fatal {A} Q w : vwp (@fatal _ A) Q w.
Proof. unfold fatal. apply vwp_bind, vwp_all. intros _ w1. apply vwp_exit. Qed.

(** A call that is retried, and [write_all], write to the log only. *)
Lemma vwp_uninterrupted fuel c : forall Q w,
  (forall a w', ed w' = ed w -> Q a w') -> vwp (uninterrupted fuel c) Q w.
Proof.
  induction fuel as [|fuel IH]; intros Q w H; cbn [uninterrupted]; [done|].
  apply vwp_bind, vwp_sys. intros a w1 E1 _ _. apply vwp_bind, vwp_errno.
  destruct (_ && _); [|by apply vwp_ret, H]. apply IH. intros a2 w2 E2. apply H. congruence.
Qed.

Lemma vwp_write_all fd data Q w :
  (forall r w', ed w' = ed w -> Q r w') -> vwp (write_all fd data) Q w.
Proof.
  unfold write_all. generalize (length data). intros fuel. revert data w.
  induction fuel as [|fuel IH]; intros data w H; destruct data as [|b data]; try (by apply vwp_ret, H); [done|].
  cbn [write_all_loop]. apply vwp_bind, vwp_uninterrupted. intros a w1 E1.
  destruct (t_ret a <=? 0); [by apply vwp_ret, H|]. apply IH. intros r w2 E2. apply H. congruence.
Qed.

Lemma vwp_message s Q w :
  (forall w', ed w' = set_message (take (Z.to_nat (MESSAGE_SIZE - 1)) s) (ed w) -> log w' = log w -> Q tt w') ->
  vwp (message_ s) Q w.
Proof. intros H. by apply vwp_put. Qed.

(** The code, run forward: what a computation that returns leaves to do. *)
Lemma vbind_run {A B} (m : V A) (k : A -> V B) w a w1 : m w = (Run a, w1) -> vbind m k w = k a w1.
Proof. unfold vbind, bind. by intros ->. Qed.
Lemma vbind_exited {A B} (m : V A) (k : A -> V B) w c w1 : m w = (Exited c, w1) -> vbind m k w = (Exited c, w1).
Proof. unfold vbind, bind. by intros ->. Qed.
Lemma vbind_retrying {A B} (m : V A) (k : A -> V B) w w1 : m w = (Retrying, w1) -> vbind m k w = (Retrying, w1).
Proof. unfold vbind, bind. by intros ->. Qed.
Lemma vbind_assoc {A B C} (m : V A) (k : A -> V B) (h : B -> V C) w :
  vbind (vbind m k) h w = vbind m (fun a => vbind (k a) h) w.
Proof. unfold vbind, bind. by destruct (m w) as [[a|c|] w']. Qed.
Lemma vbind_vret {A B} (a : A) (k : A -> V B) w : vbind (vret a) k w = k a w.
Proof. done. Qed.
Lemma vbind_get {A B} (f : editor -> A) (k : A -> V B) w : vbind (get f) k w = k (f (ed w)) w.
Proof. done. Qed.
Lemma vbind_errno {B} (k : Z -> V B) w : vbind get_errno k w = k (errno w) w.
Proof. done. Qed.
Lemma vbind_put {B} f (k : unit -> V B) w :
  vbind (put f) k w = k tt (World _ (f (ed w)) (atexit w) (errno w) (log w) (tty w)).
Proof. done. Qed.
Lemma vbind_if {A B} (b : bool) (m1 m2 : V A) (k : A -> V B) w :
  vbind (if b then m1 else m2) k w = if b then vbind m1 k w else vbind m2 k w.
Proof. by destruct b. Qed.

End Vwp.

Ltac vfwd := repeat first [rewrite vbind_assoc | rewrite vbind_vret | rewrite vbind_get | rewrite vbind_errno | rewrite vbind_put]; cbv beta.

(** One step of the code; the equations of the state are kept. *)
Ltac vstep :=
  match goal with
  | |- vwp (vbind _ _) _ _ => apply vwp_bind
  | |- vwp (vret _) _ _ => apply vwp_ret
  | |- vwp (get _) _ _ => apply vwp_get
  | |- vwp get_errno _ _ => apply vwp_errno
  | |- vwp (put _) _ _ => apply vwp_put; intros ?w' ?E ?G
  | |- vwp (message_ _) _ _ => apply vwp_message; intros ?w' ?E ?G
  | |- vwp (set_errno _) _ _ => apply vwp_set_errno; intros ?w' ?E ?G
  | |- vwp set_atexit _ _ => apply vwp_set_atexit; intros ?w' ?E ?G
  | |- vwp (sys _) _ _ => apply vwp_sys; intros ?a ?w' ?E ?G ?R
  | |- vwp (exit_ _) _ _ => apply vwp_exit
  | |- vwp fatal _ _ => apply vwp_fatal
  | |- vwp (write_all _ _) _ _ => apply vwp_write_all; intros ?r ?w' ?E
  | |- vwp (uninterrupted _ _) _ _ => apply vwp_uninterrupted; intros ?a ?w' ?E
  | |- vwp (match ?x with _ => _ end) _ _ => destruct x eqn:?
  | |- vwp (let '(_, _) := ?x in _) _ _ => destruct x eqn:?
  end.
Ltac vsteps := repeat (vstep; cbv beta zeta).

(** Express the final state by the first one. *)
Ltac ed_eq := repeat match goal with
  | H : ed ?w = _ |- context [ed ?w] => rewrite H
  | H : log ?w = _ |- context [log ?w] => rewrite H
  end.

(** Read the fields of an updated editor. *)
Ltac ed_cbn := cbn [text text_cap cursor top left rows cols resizes mode dirty quit terminal_active paste prefix command message path saved_termios trace
  set_text set_text_cap set_cursor set_top set_left set_rows set_cols set_resizes set_mode set_dirty set_quit set_terminal_active set_paste set_prefix set_command set_message set_path set_saved_termios set_trace].
Ltac ed_cbn_all := cbn [text text_cap cursor top left rows cols resizes mode dirty quit terminal_active paste prefix command message path saved_termios trace
  set_text set_text_cap set_cursor set_top set_left set_rows set_cols set_resizes set_mode set_dirty set_quit set_terminal_active set_paste set_prefix set_command set_message set_path set_saved_termios set_trace] in *.

(** ** Positions stay inside the text *)

Section Positions.
Context {L : Locale} {LL : LocaleLaws}.

Lemma glyph_len data column : data <> [] -> (1 <= fst (glyph data column) <= length data)%nat.
Proof.
  intros H. unfold glyph. destruct data as [|c data]; [done|]. cbn [hd].
  destruct (_ || _); [cbn; lia|]. destruct (mbrtowc (c :: data)) as [[n wc]|] eqn:E; [|cbn; lia].
  by apply mb_some in E.
Qed.

Lemma line_start_le t p : (line_start t p <= p)%nat.
Proof. induction p as [|p IH]; [done|]. cbn. destruct (_ =? _); lia. Qed.

Lemma line_end_bounds t p : (p <= length t)%nat -> (p <= line_end t p <= length t)%nat.
Proof.
  intros H. unfold line_end. destruct (to_newline_split (drop p t)) as (_ & Hl & _).
  rewrite length_drop in Hl. lia.
Qed.

(** The bytes of a character do not leave its line. *)
Lemma glyph_in_line l column : (0 < to_newline l)%nat -> (fst (glyph l column) <= to_newline l)%nat.
Proof.
  intros H. destruct l as [|c l]; [cbn in H; lia|]. unfold glyph. cbn [hd].
  destruct (_ || _) eqn:Hc; [cbn [fst]; lia|].
  destruct (mbrtowc (c :: l)) as [[n wc]|] eqn:E; [|cbn [fst]; lia]. cbn [fst].
  pose proof (mb_some _ _ _ E) as Hn. apply mb_plain in E; [|done].
  destruct (le_lt_dec n (to_newline (c :: l))) as [|Hlt]; [done|]. exfalso.
  destruct (to_newline_split (c :: l)) as (_ & Hl & [Hd|[a Hd]]).
  - apply (f_equal length) in Hd. rewrite length_drop in Hd. cbn [length] in *. lia.
  - rewrite List.Forall_forall in E. assert (Hin : In NL (take n (c :: l))).
    { rewrite <- (take_drop (to_newline (c :: l)) (c :: l)), take_app_ge by (rewrite length_take; lia).
      rewrite in_app_iff. right. rewrite length_take, Nat.min_l, Hd by lia.
      destruct (n - to_newline (c :: l))%nat eqn:En; [lia|]. by left. }
    apply E in Hin. discriminate Hin.
Qed.

Lemma next_char_line t p : (p < line_end t p)%nat -> (p < next_char t p <= line_end t p)%nat.
Proof.
  intros H. unfold line_end in *. unfold next_char.
  assert (Hp : (p < length t)%nat).
  { destruct (to_newline_split (drop p t)) as (_ & Hl & _). rewrite length_drop in Hl. lia. }
  destruct (Nat.leb_spec (length t) p); [lia|].
  pose proof (glyph_in_line (drop p t) 0 ltac:(lia)).
  pose proof (glyph_len (drop p t) 0) as Hg.
  assert (drop p t <> []) by (intros E; apply (f_equal length) in E; rewrite length_drop in E; cbn in E; lia).
  specialize (Hg H2). lia.
Qed.

Lemma previous_loop_le fuel t pos : forall p prev, (prev <= pos)%nat -> (previous_loop fuel t pos p prev <= pos)%nat.
Proof.
  induction fuel as [|fuel IH]; intros p prev H; cbn [previous_loop]; [done|].
  destruct (Nat.ltb_spec p pos); [|done]. cbn [negb]. destruct (glyph _ _). apply IH. lia.
Qed.

Lemma previous_char_le t p : (previous_char t p <= p)%nat.
Proof.
  unfold previous_char. destruct (_ =? _)%nat; [lia|]. apply previous_loop_le, line_start_le.
Qed.

(** [seek_column] stays on the line it starts on. *)
Lemma seek_column_le fuel t target : forall p column, (p <= length t)%nat ->
  (p <= seek_column fuel t target p column <= line_end t p)%nat.
Proof.
  induction fuel as [|fuel IH]; intros p column H; cbn [seek_column].
  { pose proof (line_end_bounds t p H). lia. }
  pose proof (line_end_bounds t p H) as Hb.
  destruct (Nat.ltb_spec p (length t)) as [Hp|]; [|cbn; lia]. cbn [negb orb].
  destruct (nth_lookup_or_length t p 0) as [Hn|]; [|lia].
  destruct (Z.eqb_spec (nth p t 0) NL) as [|Hnl]; [lia|].
  assert (Hd : drop p t = nth p t 0 :: drop (S p) t) by (by rewrite (drop_S _ _ _ Hn)).
  assert (Hpos : (0 < to_newline (drop p t))%nat).
  { rewrite Hd. cbn. destruct (Z.eqb_spec (nth p t 0) NL); [done|lia]. }
  pose proof (glyph_in_line (drop p t) column Hpos) as Hg.
  destruct (glyph (drop p t) column) as [n width]. cbn [fst] in Hg.
  destruct (target <? column + width)%nat; [lia|].
  assert (Hle : (p + n <= length t)%nat) by (unfold line_end in Hb; lia).
  specialize (IH (p + n)%nat (column + width)%nat Hle).
  assert (He : (line_end t (p + n) = line_end t p)%nat); [|lia].
  unfold line_end. rewrite <- drop_drop. clear -Hg.
  revert Hg. generalize (drop p t) as l. intros l. revert n. induction l as [|c l IH]; intros n Hg; cbn in *.
  - rewrite drop_nil. cbn. lia.
  - destruct (c =? NL) eqn:E; [assert (n = 0)%nat as -> by lia; cbn; rewrite E; lia|].
    destruct n as [|n]; cbn; [rewrite E; lia|]. specialize (IH n ltac:(lia)). lia.
Qed.

Lemma move_vertical_le up t p : (p <= length t)%nat -> (move_vertical up t p <= length t)%nat.
Proof.
  intros H. unfold move_vertical. pose proof (line_start_le t p).
  destruct up; [destruct (_ =? _)%nat; [done|]|destruct (Nat.eqb_spec (line_end t (line_start t p)) (length t)); [done|]].
  - pose proof (line_start_le t (line_start t p - 1)). set (q := line_start t (line_start t p - 1)) in *.
    pose proof (line_end_bounds t q ltac:(lia)).
    pose proof (seek_column_le (length t - q) t (cursor_column t p) q 0 ltac:(lia)). lia.
  - pose proof (line_end_bounds t (line_start t p) ltac:(lia)). set (q := S (line_end t (line_start t p))) in *.
    pose proof (line_end_bounds t q ltac:(lia)).
    pose proof (seek_column_le (length t - q) t (cursor_column t p) q 0 ltac:(lia)). lia.
Qed.

End Positions.

(** ** The invariant of the editor *)

(** The buffer has room for the text and the NUL behind it, the cursor is inside the
    text, and the text, the command line and the message keep their limits. *)
Record editor_ok (e : editor) : Prop := EditorOk {
  ok_cursor : (cursor e <= length (text e))%nat;
  ok_limit : Z.of_nat (length (text e)) <= FILE_LIMIT;
  ok_cap : Z.of_nat (length (text e)) < text_cap e <= 2 ^ 32;
  ok_command : Z.of_nat (length (command e)) < COMMAND_SIZE;
  ok_chars : Forall (fun c => 32 <= c < 127) (command e);
  ok_message : Z.of_nat (length (message e)) < MESSAGE_SIZE;
  ok_prefix : prefix e = 0 \/ prefix e = chr "g" \/ prefix e = chr "d"
}.

Lemma grow_enough fuel : forall cap need,
  1 <= cap -> need <= 2 ^ 31 -> need <= cap * 2 ^ Z.of_nat fuel ->
  need <= grow fuel cap need /\ (grow fuel cap need <= cap \/ grow fuel cap need <= 2 * need).
Proof.
  induction fuel as [|fuel IH]; intros cap need Hc Hn Hf.
  - cbn in *. lia.
  - cbn [grow]. destruct (Z.ltb_spec cap need) as [Hl|Hl]; [|lia].
    assert (Hu : u64 (cap * 2) = cap * 2) by (unfold u64; apply Z.mod_small; lia).
    rewrite Hu. rewrite Nat2Z.inj_succ, Z.pow_succ_r in Hf by lia.
    destruct (IH (cap * 2) need) as [H1 H2]; lia.
Qed.

Section Invariant.
Context {T : Tty} {L : Locale} {LL : LocaleLaws}.

(** [reserve] changes the capacity only, and makes it large enough. *)
Lemma vwp_reserve need Q w :
  0 <= text_cap (ed w) <= 2 ^ 32 -> 1 <= need <= 2 ^ 31 ->
  (forall cap w', need <= cap <= 2 ^ 32 -> ed w' = set_text_cap cap (ed w) -> log w' = log w \/
     (exists c a, log w' = (Realloc c, a) :: log w) -> Q tt w') ->
  vwp (reserve need) Q w.
Proof.
  intros Hc Hn H. unfold reserve. vsteps; bool_hyps.
  - apply (H (text_cap (ed w))); [lia| |by left]. by destruct (ed w).
  - set (c0 := if negb (text_cap (ed w) =? 0) then _ else _) in *.
    assert (Hc0 : 1 <= c0 <= 2 ^ 32) by (unfold c0; destruct (Z.eqb_spec (text_cap (ed w)) 0); cbn; lia).
    destruct (grow_enough 64 c0 need) as [H1' H2']; [lia|lia|change (2 ^ Z.of_nat 64) with (2 ^ 64); lia|].
    apply (H (grow 64 c0 need)); ed_eq; [lia|done|]. right. by eexists _, _.
Qed.

Definition ok (w : world) : Prop := editor_ok (ed w).

Lemma ok_update f w w' :
  ed w' = f (ed w) -> ok w -> (forall e, editor_ok e -> editor_ok (f e)) -> ok w'.
Proof. unfold ok. intros -> H Hf. by apply Hf. Qed.

Lemma ok_same w w' : ed w' = ed w -> ok w -> ok w'.
Proof. unfold ok. by intros ->. Qed.

Lemma take_message_length (s : cstr) : Z.of_nat (length (take (Z.to_nat (MESSAGE_SIZE - 1)) s)) < MESSAGE_SIZE.
Proof. rewrite length_take. unfold MESSAGE_SIZE, PATH_MAX. lia. Qed.

Lemma ok_set_message s e : editor_ok e -> editor_ok (set_message (take (Z.to_nat (MESSAGE_SIZE - 1)) s) e).
Proof. intros []. split; try done. cbn [message set_message]. apply take_message_length. Qed.

Lemma vwp_insert_byte b w : ok w -> vwp (insert_byte b) (fun _ w' => ok w') w.
Proof.
  intros Hok. pose proof Hok as [H1 H2 H3 H4 H5 H6 H7]. unfold insert_byte.
  apply vwp_bind, vwp_get. destruct (Z.leb_spec FILE_LIMIT (Z.of_nat (length (text (ed w))))) as [|Hl].
  { vsteps. by eapply ok_update; [eassumption| |apply ok_set_message]. }
  apply vwp_bind, vwp_reserve; unfold FILE_LIMIT in *; [lia|lia|]. intros cap w1 Hcap E1 _.
  vsteps. unfold ok. ed_eq.
  split; ed_cbn; try done; rewrite ?length_app; cbn [length]; rewrite ?length_take, ?length_drop;
    unfold FILE_LIMIT; lia.
Qed.

Lemma vwp_delete_range a b w : (a <= b <= length (text (ed w)))%nat -> ok w ->
  vwp (delete_range a b) (fun _ w' => ok w') w.
Proof.
  intros Hab Hok. pose proof Hok as [H1 H2 H3 H4 H5 H6 H7]. unfold delete_range.
  destruct (a =? b)%nat; [by apply vwp_ret|]. vsteps. unfold ok. ed_eq.
  split; ed_cbn; try done; rewrite ?length_app, ?length_take, ?length_drop; lia.
Qed.

(** An update that keeps the invariant. *)
Lemma vwp_put_ok f w : (editor_ok (ed w) -> editor_ok (f (ed w))) -> ok w -> vwp (put f) (fun _ w' => ok w') w.
Proof. intros Hf Hok. apply vwp_put. intros w' E G. unfold ok. rewrite E. by apply Hf. Qed.

Lemma vwp_message_ok s w : ok w -> vwp (message_ s) (fun _ w' => ok w') w.
Proof. intros H. apply vwp_put_ok; [|done]. apply ok_set_message. Qed.

(** The fields the invariant does not mention. *)
Lemma ok_set_dirty b e : editor_ok e -> editor_ok (set_dirty b e).
Proof. by intros []. Qed.
Lemma ok_set_quit b e : editor_ok e -> editor_ok (set_quit b e).
Proof. by intros []. Qed.
Lemma ok_set_mode m e : editor_ok e -> editor_ok (set_mode m e).
Proof. by intros []. Qed.
Lemma ok_set_paste b e : editor_ok e -> editor_ok (set_paste b e).
Proof. by intros []. Qed.
Lemma ok_set_path p e : editor_ok e -> editor_ok (set_path p e).
Proof. by intros []. Qed.
Lemma ok_set_rows b e : editor_ok e -> editor_ok (set_rows b e).
Proof. by intros []. Qed.
Lemma ok_set_cols b e : editor_ok e -> editor_ok (set_cols b e).
Proof. by intros []. Qed.
Lemma ok_set_resizes b e : editor_ok e -> editor_ok (set_resizes b e).
Proof. by intros []. Qed.
Lemma ok_set_trace b e : editor_ok e -> editor_ok (set_trace b e).
Proof. by intros []. Qed.
Lemma ok_set_active b e : editor_ok e -> editor_ok (set_terminal_active b e).
Proof. by intros []. Qed.
Lemma ok_set_saved b e : editor_ok e -> editor_ok (set_saved_termios b e).
Proof. by intros []. Qed.
Lemma ok_set_scroll a b e : editor_ok e -> editor_ok (set_left a (set_top b e)).
Proof. by intros []. Qed.
Lemma ok_set_prefix p e : p = 0 \/ p = chr "g" \/ p = chr "d" -> editor_ok e -> editor_ok (set_prefix p e).
Proof. intros Hp []. by split. Qed.
Lemma ok_set_cursor c e : (c <= length (text e))%nat -> editor_ok e -> editor_ok (set_cursor c e).
Proof. intros Hc []. by split. Qed.
Lemma ok_set_command c e : Z.of_nat (length c) < COMMAND_SIZE -> Forall (fun x => 32 <= x < 127) c ->
  editor_ok e -> editor_ok (set_command c e).
Proof. intros Hc Hf []. by split. Qed.

End Invariant.

Create HintDb vim_ok discriminated.
Create HintDb vim_pres.
#[export] Hint Resolve ok_set_dirty ok_set_quit ok_set_mode ok_set_paste ok_set_path ok_set_rows ok_set_cols
  ok_set_resizes ok_set_trace ok_set_active ok_set_saved ok_set_scroll ok_set_prefix ok_set_message ok_same : vim_ok.

(** Follow a computation, keeping [ok]. *)
Ltac ok_step :=
  match goal with
  | |- vwp (vbind _ _) _ _ => apply vwp_bind
  | |- vwp (vret _) _ _ => apply vwp_ret; try done
  | |- vwp (get _) _ _ => apply vwp_get
  | |- vwp get_errno _ _ => apply vwp_errno; try done
  | |- vwp (exit_ _) _ _ => apply vwp_exit
  | |- vwp fatal _ _ => apply vwp_fatal
  | |- vwp (sys _) _ _ => apply vwp_sys; let w := fresh "w" in let E := fresh in
      intros ? w E _ _; match goal with H : ok ?w0 |- _ => apply (ok_same _ _ E) in H end; clear E
  | |- vwp (set_errno _) _ _ => apply vwp_set_errno; let E := fresh in
      intros ? E _; match goal with H : ok ?w0 |- _ => apply (ok_same _ _ E) in H end; clear E
  | |- vwp (set_atexit) _ _ => apply vwp_set_atexit; let E := fresh in
      intros ? E _; match goal with H : ok ?w0 |- _ => apply (ok_same _ _ E) in H end; clear E
  | |- vwp (write_all _ _) _ _ => apply vwp_write_all; let E := fresh in
      intros ? ? E; match goal with H : ok ?w0 |- _ => apply (ok_same _ _ E) in H end; clear E
  | |- vwp (uninterrupted _ _) _ _ => apply vwp_uninterrupted; let E := fresh in
      intros ? ? E; match goal with H : ok ?w0 |- _ => apply (ok_same _ _ E) in H end; clear E
  | |- vwp (ret Retrying) _ _ => exact I
  | H : ok ?w |- vwp (put _) _ ?w => eapply vwp_mono; [apply vwp_put_ok; [auto with vim_ok|exact H]|];
      clear H; intros ? ? H; cbv beta in H; try done
  | H : ok ?w |- vwp (message_ _) _ ?w => eapply vwp_mono; [apply vwp_message_ok; exact H|];
      clear H; intros ? ? H; cbv beta in H; try done
  | H : ok ?w |- vwp (insert_byte _) _ ?w => eapply vwp_mono; [apply vwp_insert_byte; exact H|];
      clear H; intros ? ? H; cbv beta in H; try done
  | |- vwp (match ?x with _ => _ end) _ _ => destruct x eqn:?
  | |- vwp (let '(_, _) := ?x in _) _ _ => destruct x eqn:?
  | H : ok ?w |- vwp _ _ ?w => eapply vwp_mono; [solve [eauto 3 with vim_pres]|];
      clear H; intros ? ? H; cbv beta in H; try done
  end.
Ltac oks := repeat (ok_step; cbv beta zeta).

Section Preserved.
Context {T : Tty} {L : Locale} {LL : LocaleLaws}.

Lemma save_check_ok p w : ok w -> vwp (save_check p) (fun _ w' => ok w') w.
Proof. intros H. unfold save_check. oks. Qed.

Lemma write_out_ok fd m t w : ok w -> vwp (write_out fd m t) (fun _ w' => ok w') w.
Proof. intros H. unfold write_out. oks. Qed.
#[local] Hint Resolve write_out_ok : vim_pres.

Lemma write_temporary_ok fd m tmp p t w : ok w -> vwp (write_temporary fd m tmp p t) (fun _ w' => ok w') w.
Proof. intros H. unfold write_temporary. oks. Qed.

#[local] Hint Resolve save_check_ok write_temporary_ok : vim_pres.

Lemma save_file_ok p w : ok w -> vwp (save_file p) (fun _ w' => ok w') w.
Proof. intros H. unfold save_file. destruct p as [[|c p]|]; oks. Qed.
#[local] Hint Resolve save_file_ok : vim_pres.

Lemma run_command_ok w : ok w -> vwp run_command (fun _ w' => ok w') w.
Proof. intros H. unfold run_command. oks. Qed.
#[local] Hint Resolve run_command_ok : vim_pres.

Lemma paste_key_ok key w : ok w -> vwp (paste_key key) (fun _ w' => ok w') w.
Proof. intros H. unfold paste_key. oks. Qed.
#[local] Hint Resolve paste_key_ok : vim_pres.

Lemma command_key_ok key w : ok w -> vwp (command_key key) (fun _ w' => ok w') w.
Proof.
  intros H. unfold command_key. apply vwp_bind, vwp_get.
  destruct ((key =? 13) || (key =? NL)); [oks|].
  destruct ((key =? DEL) || (key =? 8)).
  - destruct (0 <? length (command (ed w)))%nat; [|oks]. apply vwp_put_ok; [|done]. intros He.
    apply ok_set_command; [|apply Forall_take, (ok_chars _ He)|done].
    rewrite length_take. pose proof (ok_command _ He). lia.
  - destruct (_ && _) eqn:E; [|oks]. bool_hyps. apply vwp_put_ok; [|done]. intros He.
    apply ok_set_command; [rewrite length_app; cbn [length]; lia| |done].
    apply Forall_app. split; [apply (ok_chars _ He)|]. by constructor; [lia|].
Qed.
#[local] Hint Resolve command_key_ok : vim_pres.

(** Moving the cursor inside the text. *)
Lemma vwp_move c w : (c <= length (text (ed w)))%nat -> ok w -> vwp (put (set_cursor c)) (fun _ w' => ok w') w.
Proof. intros Hc H. apply vwp_put_ok; [|done]. by apply ok_set_cursor. Qed.

Lemma start_insert_ok key w : ok w -> vwp (start_insert key) (fun _ w' => ok w') w.
Proof.
  intros H. pose proof (ok_cursor _ H) as Hc. unfold start_insert. apply vwp_bind, vwp_get, vwp_bind. cbv zeta.
  set (t := text (ed w)) in *. set (c := cursor (ed w)) in *.
  apply vwp_mono with (P := fun _ w' => ok w').
  - destruct ((key =? chr "a") && _) eqn:Ea; [|oks].
    apply andb_true_iff in Ea as [_ Ea]. apply Nat.ltb_lt in Ea. pose proof (next_char_line t c Ea).
    pose proof (line_end_bounds t c Hc). apply vwp_move; [fold t; lia|done].
  - intros ? w1 H1. apply vwp_bind. clear H. destruct (key =? chr "o"); [|oks].
    apply vwp_bind. eapply vwp_mono; [apply vwp_put_ok; [|exact H1]|].
    + intros He. apply ok_set_cursor; [|done]. by apply line_end_bounds, (ok_cursor _ He).
    + intros ? w2 H2. cbv beta in H2. clear H1. oks.
Qed.

Lemma delete_line_ok w : ok w -> vwp delete_line (fun _ w' => ok w') w.
Proof.
  intros H. pose proof (ok_cursor _ H) as Hc. unfold delete_line. apply vwp_bind, vwp_get. cbv zeta.
  set (t := text (ed w)) in *. set (c := cursor (ed w)) in *.
  pose proof (line_start_le t c) as Hs. pose proof (line_end_bounds t c Hc) as He.
  set (se := if (line_end t c <? length t)%nat then _ else _).
  assert (Hse : (fst se <= snd se <= length t)%nat).
  { unfold se. destruct (Nat.ltb_spec (line_end t c) (length t)); [cbn; lia|]. destruct (negb _); cbn; lia. }
  destruct se as [a b]. cbn [fst snd] in Hse. apply vwp_bind.
  eapply vwp_mono; [apply vwp_delete_range; [exact Hse|exact H]|]. intros ? w1 H1. cbv beta in H1.
  apply vwp_put_ok; [|done]. intros H2. apply ok_set_cursor; [|done].
  pose proof (line_start_le (text (ed w1)) (cursor (ed w1))). pose proof (ok_cursor _ H2). lia.
Qed.

Lemma edit_key_ok key w : ok w -> vwp (edit_key key) (fun _ w' => ok w') w.
Proof.
  intros H. pose proof (ok_cursor _ H) as Hc. unfold edit_key. apply vwp_bind, vwp_get. cbv zeta.
  set (t := text (ed w)) in *. set (c := cursor (ed w)) in *.
  pose proof (line_start_le t c) as Hs. pose proof (line_end_bounds t c Hc) as He.
  assert (Hcl : forall m : V unit, vwp m (fun _ w' => ok w') w ->
                vwp (run! m in vret true) (fun (_ : bool) w' => ok w') w).
  { intros m Hm. apply vwp_bind. eapply vwp_mono; [exact Hm|]. intros ? w' H'. by apply vwp_ret. }
  destruct (_ || _); [apply Hcl, vwp_move; [by apply move_vertical_le|done]|].
  destruct (_ || _); [apply Hcl, vwp_move; [by apply move_vertical_le|done]|].
  destruct (_ || _).
  { apply Hcl. destruct (_ <? _)%nat; [|oks]. apply vwp_move; [|done]. pose proof (previous_char_le t c). fold t. lia. }
  destruct (_ || _).
  { apply Hcl. destruct (Nat.ltb_spec c (line_end t c)) as [Hn|]; [|oks]. apply vwp_move; [|done].
    pose proof (next_char_line t c Hn). fold t. lia. }
  destruct (_ || _); [apply Hcl, vwp_move; [fold t; lia|done]|].
  destruct (_ || _); [apply Hcl, vwp_move; [fold t; lia|done]|].
  destruct (_ || _).
  { apply Hcl. destruct (Nat.ltb_spec c (line_end t c)) as [Hn|]; [|oks].
    pose proof (next_char_line t c Hn). apply vwp_delete_range; [fold t; lia|done]. }
  destruct (bool_decide (mode (ed w) = INSERT)).
  { apply Hcl. destruct (_ || _); [|oks]. pose proof (previous_char_le t c).
    apply vwp_delete_range; [fold t; lia|done]. }
  destruct (key =? chr ":").
  { apply Hcl, vwp_bind. eapply vwp_mono; [apply vwp_put_ok; [|exact H]|].
    - by apply ok_set_command; [|constructor].
    - intros ? w1 H1. cbv beta in H1. clear H. oks. }
  destruct (_ || _).
  { apply Hcl. by apply start_insert_ok. }
  destruct (key =? chr "G").
  { apply Hcl, vwp_move; [|done]. pose proof (line_start_le t (length t)). fold t. lia. }
  destruct ((key =? chr "g") && _); [apply Hcl, vwp_move; [lia|done]|].
  destruct ((key =? chr "d") && _).
  { apply Hcl. by apply delete_line_ok. }
  destruct ((key =? chr "g") || (key =? chr "d")) eqn:Ek; [|oks].
  apply vwp_bind. eapply vwp_mono; [apply vwp_put_ok; [|exact H]|].
  - apply ok_set_prefix. apply orb_true_iff in Ek as [Ek|Ek]; apply Z.eqb_eq in Ek; auto.
  - intros ? w1 H1. by apply vwp_ret.
Qed.
#[local] Hint Resolve edit_key_ok : vim_pres.

Lemma handle_key_ok key w : ok w -> vwp (handle_key key) (fun _ w' => ok w') w.
Proof. intros H. unfold handle_key. oks. Qed.

#[local] Hint Resolve handle_key_ok : vim_pres.

Lemma read_byte_ok timeout w : ok w -> vwp (read_byte timeout) (fun _ w' => ok w') w.
Proof. intros H. unfold read_byte. oks. Qed.
#[local] Hint Resolve read_byte_ok : vim_pres.

Lemma read_sequence_ok fuel : forall s w, ok w -> vwp (read_sequence fuel s) (fun _ w' => ok w') w.
Proof. induction fuel as [|fuel IH]; intros s w H; cbn [read_sequence]; oks. Qed.
#[local] Hint Resolve read_sequence_ok : vim_pres.

Lemma read_key_ok w : ok w -> vwp read_key (fun _ w' => ok w') w.
Proof. intros H. unfold read_key. oks. Qed.
#[local] Hint Resolve read_key_ok : vim_pres.

Lemma update_size_ok b w : ok w -> vwp (update_size b) (fun _ w' => ok w') w.
Proof. intros H. unfold update_size. oks. Qed.
#[local] Hint Resolve update_size_ok : vim_pres.

Lemma draw_frame_ok e : editor_ok e -> editor_ok (snd (draw_frame e)).
Proof. intros H. unfold draw_frame. destruct (_ || _); cbn [snd]; auto with vim_ok. Qed.

Lemma draw_screen_ok w : ok w -> vwp draw_screen (fun _ w' => ok w') w.
Proof.
  intros H. unfold draw_screen. apply vwp_bind, vwp_get.
  destruct (draw_frame (ed w)) as [fr e'] eqn:E. apply vwp_bind.
  eapply vwp_mono; [apply vwp_put_ok; [|exact H]|].
  - intros He. apply draw_frame_ok in He. by rewrite E in He.
  - intros ? w1 H1. cbv beta in H1. clear H. oks.
Qed.
#[local] Hint Resolve draw_screen_ok : vim_pres.

Lemma main_step_ok b w : ok w -> vwp (main_step b) (fun _ w' => ok w') w.
Proof. intros H. unfold main_step. oks. Qed.
#[local] Hint Resolve main_step_ok : vim_pres.

Lemma main_loop_ok fuel : forall b w, ok w -> vwp (main_loop fuel b) (fun _ w' => ok w') w.
Proof. induction fuel as [|fuel IH]; intros b w H; cbn [main_loop]; oks. Qed.
#[local] Hint Resolve main_loop_ok : vim_pres.

Lemma set_handlers_ok l : forall w, ok w -> vwp (set_handlers l) (fun _ w' => ok w') w.
Proof. induction l as [|s l IH]; intros w H; cbn [set_handlers]; oks. Qed.
#[local] Hint Resolve set_handlers_ok : vim_pres.

Lemma terminal_start_ok w : ok w -> vwp terminal_start (fun _ w' => ok w') w.
Proof. intros H. unfold terminal_start, backend_start. oks. Qed.
#[local] Hint Resolve terminal_start_ok : vim_pres.

(** [append] makes room first, so that it also serves the empty buffer. *)
Lemma append_ok data w :
  0 <= text_cap (ed w) <= 2 ^ 32 ->
  (forall cap, Z.of_nat (length (text (ed w))) < cap <= 2 ^ 32 -> editor_ok (set_text_cap cap (ed w))) ->
  Z.of_nat (length (text (ed w))) + Z.of_nat (length data) <= FILE_LIMIT ->
  vwp (append data) (fun _ w' => ok w') w.
Proof.
  intros Hcap H Hl. unfold append. apply vwp_bind, vwp_get, vwp_bind, vwp_reserve; [done|unfold FILE_LIMIT in *; lia|].
  intros cap w1 Hc E1 _. apply vwp_put. intros w2 E2 _. unfold ok. rewrite E2, E1.
  destruct (H cap ltac:(lia)) as [H1 H2 H3 H4 H5 H6 H7]. ed_cbn_all.
  split; ed_cbn; try done; rewrite length_app; lia.
Qed.

Lemma read_file_ok fd fuel : forall w, ok w -> vwp (read_file fuel fd) (fun _ w' => ok w') w.
Proof.
  induction fuel as [|fuel IH]; intros w H; cbn [read_file]; oks. bool_hyps.
  eapply vwp_mono; [apply append_ok|].
  - pose proof (ok_cap _ H). lia.
  - intros cap Hcap. destruct H as [H1 H2 H3 H4 H5 H6 H7]. by split.
  - rewrite length_resize. lia.
  - intros ? w1 H1. by apply IH.
Qed.
#[local] Hint Resolve read_file_ok : vim_pres.

Lemma load_file_ok p w : ok w -> vwp (load_file p) (fun _ w' => ok w') w.
Proof. intros H. unfold load_file. oks. Qed.
#[local] Hint Resolve load_file_ok : vim_pres.

End Preserved.

(** The static structure before [main], and the process with no signal pending. *)
Definition editor0 : editor :=
  Editor [] 0 0 0 0 0 0 0 NORMAL false false false false 0 [] [] None (Termios 0 0 0 0 0 0) false.
Definition world0 {T : Tty} (t : TW) : world := World _ editor0 false 0 [] t.

Lemma ok_after_start {T : Tty} {L : Locale} {LL : LocaleLaws} (t : TW) :
  vwp (append []) (fun _ w' => ok w') (world0 t).
Proof. apply append_ok; [done| |done]. intros cap Hcap. split; cbn; done || (by left). Qed.

#[local] Hint Resolve load_file_ok terminal_start_ok update_size_ok main_loop_ok : vim_pres.

Lemma session_ok {T : Tty} {L : Locale} {LL : LocaleLaws} (t : TW) (fuel : nat) (file trace_path : option cstr) :
  vwp (session fuel file trace_path) (fun _ w' => editor_ok (ed w')) (world0 t).
Proof.
  unfold session. apply vwp_bind. eapply vwp_mono; [apply ok_after_start|]. intros ? w H. cbv beta in H.
  oks; apply vwp_all; intros; apply vwp_exit.
Qed.

(** C35: whatever its arguments, however long the editor runs, whatever keys arrive and
    whatever the operating system answers: the text fits in its buffer with room for the
    NUL behind it, the cursor is inside the text, the file limit is kept, and the command
    line and the message fit in their arrays. *)
Theorem editor_stays_ok {T : Tty} {L : Locale} {LL : LocaleLaws} (t : TW) (fuel : nat) (argv : list cstr) :
  vwp (main fuel argv) (fun _ w' => editor_ok (ed w')) (world0 t).
Proof. unfold main. destruct (parse_args argv None None) as [c|[f tr]]; [apply vwp_exit|apply session_ok]. Qed.
