(* ===== verification/VimEnds.v ===== *)
(** * VimEnds: why the editor stops running

    A computation of the editor returns, ends the process, or is still retrying a call
    that signals interrupt.  This file says when the last two happen: a loop only goes on
    for ever when every one of its calls is interrupted, and a key only ends the process
    when the system refused something that the code cannot do without. *)

From Stdlib Require Import String.
From stdpp Require Import base list numbers.
From S2P Require Import Prelude CString VimText Vim VimSpec.

Local Open Scope Z_scope.
Local Open Scope vim_scope.

(** ** Retrying *)

Section Waits.
Context {T : Tty}.

(** The call [c] was interrupted by a signal. *)
Definition interrupted (c : tcall) (x : tcall * tanswer) : Prop :=
  fst x = c /\ t_ret (snd x) < 0 /\ t_errno (snd x) = EINTR.

(** The last calls, as many as [patience] allows, were one call and always interrupted. *)
Definition spinning (w : world) : Prop :=
  exists c l l0, log w = l ++ l0 /\ length l = patience /\ Forall (interrupted c) l.

Definition waits {A} (m : V A) : Prop := forall w, fst (m w) = Retrying -> spinning (snd (m w)).

Lemma waits_run {A} (m : V A) : (forall w, fst (m w) <> Retrying) -> waits m.
Proof. intros H w E. by apply H in E. Qed.

Lemma waits_vbind {A B} (m : V A) (k : A -> V B) : waits m -> (forall a, waits (k a)) -> waits (vbind m k).
Proof.
  intros Hm Hk w. specialize (Hm w). unfold vbind, bind. destruct (m w) as [[a|c|] w1]; [apply Hk|done|].
  intros _. by apply Hm.
Qed.

Lemma waits_lift {A} (m : ST world A) : waits (lift m).
Proof. intros w. unfold lift, bind. by destruct (m w). Qed.

Lemma sys_call_runs c w : exists a w1, sys c w = (Run a, w1) /\
  errno w1 = (if t_ret a <? 0 then t_errno a else errno w) /\ log w1 = (c, a) :: log w.
Proof. unfold sys, lift, bind, call. destruct (tty_step _ _) as [a t]. by eexists a, _. Qed.

Lemma uninterrupted_log fuel c : forall w, fst (uninterrupted fuel c w) = Retrying ->
  exists l, log (snd (uninterrupted fuel c w)) = l ++ log w /\ length l = fuel /\ Forall (interrupted c) l.
Proof.
  induction fuel as [|fuel IH]; intros w; cbn [uninterrupted]; [by exists []|].
  destruct (sys_call_runs c w) as (a & w1 & Hs & He & Hl1). rewrite (vbind_run _ _ _ _ _ Hs), vbind_errno, He.
  destruct ((t_ret a <? 0) && _) eqn:E; [|done]. apply andb_true_iff in E as [E1 E2]. rewrite E1 in E2. bool_hyps.
  intros Hr. destruct (IH _ Hr) as (l & Hl & Hn & Hf). exists (l ++ [(c, a)]). rewrite Hl, Hl1.
  rewrite <- app_assoc, length_app, Hn, Nat.add_1_r. split; [done|]. split; [done|].
  apply Forall_app. split; [done|]. by constructor.
Qed.

Lemma waits_uninterrupted c : waits (uninterrupted patience c).
Proof. intros w H. destruct (uninterrupted_log _ _ _ H) as (l & Hl & Hn & Hf). by exists c, l, (log w). Qed.

Lemma waits_write_all fd data : waits (write_all fd data).
Proof.
  unfold write_all. cut (forall fuel data, (length data <= fuel)%nat -> waits (write_all_loop fuel fd data)).
  { intros H. by apply H. }
  clear data. induction fuel as [|fuel IH]; intros data Hf; destruct data as [|b data]; cbn [length] in Hf; try lia;
    try (by apply waits_run).
  cbn [write_all_loop]. apply waits_vbind; [apply waits_uninterrupted|]. intros a.
  destruct (Z.leb_spec (t_ret a) 0); [by apply waits_run|]. apply IH. rewrite length_drop. cbn [length]. lia.
Qed.
End Waits.

Create HintDb waits.
#[export] Hint Resolve waits_lift waits_uninterrupted waits_write_all : waits.
#[export] Hint Extern 1 (waits (get _)) => apply waits_lift : waits.
#[export] Hint Extern 1 (waits (put _)) => apply waits_lift : waits.
#[export] Hint Extern 1 (waits (sys _)) => apply waits_lift : waits.
#[export] Hint Extern 1 (waits (message_ _)) => apply waits_lift : waits.
#[export] Hint Extern 1 (waits get_errno) => apply waits_lift : waits.
#[export] Hint Extern 1 (waits (set_errno _)) => apply waits_lift : waits.
#[export] Hint Extern 1 (waits set_atexit) => apply waits_lift : waits.
#[export] Hint Extern 1 (waits (vret _)) => by apply waits_run : waits.
#[export] Hint Extern 1 (waits (ret (Exited _))) => by apply waits_run : waits.

Ltac wait_step :=
  match goal with
  | |- waits (vbind _ _) => apply waits_vbind; [|intros ?]
  | |- waits (if ?b then _ else _) => destruct b
  | |- waits (match ?x with _ => _ end) => destruct x
  | |- waits _ => solve [auto with waits]
  end.
Ltac wait_steps := cbv zeta; repeat (wait_step; cbv beta zeta).

Section WaitsProgram.
Context {T : Tty} {L : Locale}.

Lemma waits_restore : waits terminal_restore.
Proof. unfold terminal_restore. wait_steps. Qed.
Hint Resolve waits_restore : waits.
Lemma waits_exit {A} code : waits (@exit_ _ A code).
Proof. unfold exit_. wait_steps. Qed.
Hint Resolve @waits_exit : waits.
Lemma waits_fatal {A} : waits (@fatal _ A).
Proof. unfold fatal. wait_steps. Qed.
Hint Resolve @waits_fatal : waits.
Lemma waits_reserve n : waits (reserve n).
Proof. unfold reserve. wait_steps. Qed.
Hint Resolve waits_reserve : waits.
Lemma waits_append data : waits (append data).
Proof. unfold append. wait_steps. Qed.
Lemma waits_insert b : waits (insert_byte b).
Proof. unfold insert_byte. wait_steps. Qed.
Lemma waits_delete a b : waits (delete_range a b).
Proof. unfold delete_range. wait_steps. Qed.
Lemma waits_update_size b : waits (update_size b).
Proof. unfold update_size. wait_steps. Qed.
Lemma waits_read_byte timeout : waits (read_byte timeout).
Proof. unfold read_byte. wait_steps. Qed.
Hint Resolve waits_append waits_insert waits_delete waits_update_size waits_read_byte : waits.
Lemma waits_sequence fuel : forall s, waits (read_sequence fuel s).
Proof. induction fuel as [|fuel IH]; intros s; cbn [read_sequence]; wait_steps. Qed.
Lemma waits_handlers l : waits (set_handlers l).
Proof. induction l as [|s l IH]; cbn [set_handlers]; wait_steps. Qed.
Hint Resolve waits_sequence waits_handlers : waits.
Lemma waits_read_key : waits read_key.
Proof. unfold read_key. wait_steps. Qed.
Lemma waits_save_file p : waits (save_file p).
Proof. unfold save_file, save_check, write_temporary, write_out. wait_steps. Qed.
Hint Resolve waits_read_key waits_save_file : waits.
Lemma waits_edit_key key : waits (edit_key key).
Proof. unfold edit_key, start_insert, delete_line. wait_steps. Qed.
Hint Resolve waits_edit_key : waits.
Lemma waits_handle_key key : waits (handle_key key).
Proof. unfold handle_key, paste_key, command_key, run_command. wait_steps. Qed.
Lemma waits_draw_screen : waits draw_screen.
Proof. unfold draw_screen. wait_steps. Qed.
Hint Resolve waits_handle_key waits_draw_screen : waits.
Lemma waits_main_loop fuel : forall b, waits (main_loop fuel b).
Proof. induction fuel as [|fuel IH]; intros b; cbn [main_loop]; unfold main_step; wait_steps. Qed.
Lemma waits_terminal_start : waits terminal_start.
Proof. unfold terminal_start, backend_start. wait_steps. Qed.
Hint Resolve waits_main_loop waits_terminal_start : waits.

(** The rounds given to [read_file] are enough: the text grows with each of them. *)
Lemma append_longer data w :
  vwp (append data) (fun _ w' => length (text (ed w')) = (length (text (ed w)) + length data)%nat) w.
Proof.
  unfold append. apply vwp_bind, vwp_get, vwp_bind, vwp_all. intros _ w1. apply vwp_put. intros w2 E _.
  rewrite E. ed_cbn. apply length_app.
Qed.

Lemma read_file_waits fd fuel : forall w,
  (1 <= fuel)%nat -> FILE_LIMIT + 1 < Z.of_nat (length (text (ed w))) + Z.of_nat fuel ->
  fst (read_file fuel fd w) = Retrying -> spinning (snd (read_file fuel fd w)).
Proof.
  induction fuel as [|fuel IH]; intros w H1 Hf; [lia|]. cbn [read_file].
  pose proof (waits_uninterrupted (Read fd 4096) w) as Hw.
  pose proof (vwp_uninterrupted patience (Read fd 4096) (fun _ w' => ed w' = ed w) w (fun _ _ E => E)) as He.
  unfold vwp in He. destruct (uninterrupted patience (Read fd 4096) w) as [[a|c|] w1] eqn:Hr; cbn [fst snd] in *.
  2:{ by rewrite (vbind_exited _ _ _ _ _ Hr). }
  2:{ rewrite (vbind_retrying _ _ _ _ Hr). intros _. by apply Hw. }
  rewrite (vbind_run _ _ _ _ _ Hr). destruct (Z.eqb_spec (t_ret a) 0); [done|].
  destruct (Z.ltb_spec (t_ret a) 0); [apply waits_fatal|]. rewrite vbind_get, He.
  destruct (Z.ltb_spec FILE_LIMIT (Z.of_nat (length (text (ed w))) + t_ret a)); [apply (waits_vbind (set_errno EFBIG)); [apply waits_lift|intros _; apply waits_fatal]|].
  set (data := resize _ 0 _). assert (Hd : length data = Z.to_nat (t_ret a)) by apply length_resize.
  pose proof (waits_append data w1) as Ha. pose proof (append_longer data w1) as Hl. unfold vwp in Hl.
  destruct (append data w1) as [[u|c|] w2] eqn:Hp; cbn [fst snd] in *.
  - rewrite (vbind_run _ _ _ _ _ Hp). rewrite He, Hd in Hl. apply IH; lia.
  - by rewrite (vbind_exited _ _ _ _ _ Hp).
  - rewrite (vbind_retrying _ _ _ _ Hp). exact Ha.
Qed.

Lemma waits_load_file p : waits (load_file p).
Proof.
  assert (Hf : forall fd, waits (read_file read_rounds fd)).
  { intros fd w. apply read_file_waits; unfold read_rounds, FILE_LIMIT; lia. }
  unfold load_file. wait_steps.
Qed.
Hint Resolve waits_load_file : waits.

Lemma waits_main fuel argv : waits (main fuel argv).
Proof. unfold main, session. wait_steps. Qed.

End WaitsProgram.

(** ** The end of the process *)

Section Stops.
Context {T : Tty}.

(** A call of [C] that failed. *)
Definition refused (C : tcall -> bool) (x : tcall * tanswer) : Prop := C (fst x) = true /\ t_ret (snd x) < 0.

(** [m] ends the process only with a failure, after the system refused a call of [C];
    a loop of [m] does not end only after that or in a state of [R]. *)
Definition stops (C : tcall -> bool) (R : world -> Prop) {A} (m : V A) : Prop := forall w, exists l,
  log (snd (m w)) = l ++ log w /\
  match fst (m w) with
  | Run _ => True
  | Exited c => c = EXIT_FAILURE /\ Exists (refused C) l
  | Retrying => Exists (refused C) l \/ R (snd (m w))
  end.

Context {C : tcall -> bool} {R : world -> Prop}.

Lemma stops_vret {A} (a : A) : stops C R (vret a).
Proof. intros w. by exists []. Qed.

Lemma stops_lift {A} (m : ST world A) : (forall w, log (snd (m w)) = log w) -> stops C R (lift m).
Proof. intros H w. specialize (H w). exists []. unfold lift, bind. by destruct (m w). Qed.

Lemma stops_sys c : stops C R (sys c).
Proof. intros w. destruct (sys_call_runs c w) as (a & w1 & -> & _ & Hl). by exists [(c, a)]. Qed.

Lemma stops_vbind {A B} (m : V A) (k : A -> V B) :
  stops C R m -> (forall a, stops C R (k a)) -> stops C R (vbind m k).
Proof.
  intros Hm Hk w. unfold vbind, bind. destruct (Hm w) as (l1 & H1 & K1). destruct (m w) as [[a|c|] w1]; cbn [fst snd] in *;
    [|by exists l1..]. destruct (Hk a w1) as (l2 & H2 & K2). exists (l2 ++ l1). rewrite H2, H1, app_assoc.
  split; [done|]. destruct (fst (k a w1)); [done|..]; rewrite Exists_app; tauto.
Qed.

Lemma stops_weaken C' (R' : world -> Prop) {A} (m : V A) : stops C' R' m ->
  (forall c, C' c = true -> C c = true) -> (forall w, R' w -> R w) -> stops C R m.
Proof.
  intros Hm HC HR w. destruct (Hm w) as (l & Hl & K). exists l. split; [done|].
  assert (He : Exists (refused C') l -> Exists (refused C) l).
  { apply List.Exists_impl. intros x [H1 H2]. split; [auto|done]. }
  destruct (fst (m w)); [done|..]; destruct K; auto.
Qed.

Lemma stops_uninterrupted fuel c : (forall w, fst (uninterrupted fuel c w) = Retrying -> R (snd (uninterrupted fuel c w))) ->
  stops C R (uninterrupted fuel c).
Proof.
  intros HR w. specialize (HR w). revert HR. cut (exists l, log (snd (uninterrupted fuel c w)) = l ++ log w /\
    match fst (uninterrupted fuel c w) with Exited _ => False | _ => True end).
  { intros (l & Hl & Hn) HR. exists l. split; [done|]. destruct (fst (uninterrupted fuel c w)); [done|done|]. right. by apply HR. }
  revert w. induction fuel as [|fuel IH]; intros w; cbn [uninterrupted]; [by exists []|].
  destruct (sys_call_runs c w) as (a & w1 & Hs & He & Hl1). rewrite (vbind_run _ _ _ _ _ Hs), vbind_errno.
  destruct (_ && _); [|by exists [(c, a)]]. destruct (IH w1) as (l & Hl & Hn). exists (l ++ [(c, a)]).
  rewrite Hl, Hl1, <- app_assoc. done.
Qed.

(** A computation that never ends the process. *)
Definition runs {A} (m : V A) : Prop := stops (fun _ => false) (fun _ => True) m.

Lemma runs_log {A} (m : V A) w : runs m -> exists l, log (snd (m w)) = l ++ log w /\
  match fst (m w) with Exited _ => False | _ => True end.
Proof.
  intros H. destruct (H w) as (l & Hl & K). exists l. split; [done|]. destruct (fst (m w)); [done| |done].
  destruct K as [_ K]. apply List.Exists_exists in K as (x & _ & [? _]). discriminate.
Qed.
End Stops.

Section Fatal.
Context {T : Tty}.

Lemma runs_write_all fd data : runs (write_all fd data).
Proof.
  unfold write_all. generalize (length data). intros fuel. revert data.
  induction fuel as [|fuel IH]; intros data; destruct data as [|b data]; try (by apply stops_vret).
  - intros w. exists []. split; [done|by right].
  - cbn [write_all_loop]. apply stops_vbind; [by apply stops_uninterrupted|]. intros a.
    destruct (_ <=? _); [by apply stops_vret|apply IH].
Qed.

Lemma runs_restore : runs terminal_restore.
Proof.
  apply stops_vbind; [by apply stops_lift|]. intros e. destruct (negb _); [apply stops_vret|].
  apply stops_vbind; [by apply stops_lift|]. intros _. apply stops_vbind; [by apply stops_uninterrupted|]. intros _.
  apply stops_vbind; [apply runs_write_all|]. intros _. apply stops_vbind; [apply runs_write_all|]. intros _.
  apply stops_vret.
Qed.

Lemma exit_log {A} code w : exists l, log (snd (@exit_ _ A code w)) = l ++ log w /\
  match fst (@exit_ _ A code w) with Run _ => False | Exited c => c = code | Retrying => True end.
Proof.
  unfold exit_. rewrite (vbind_run _ _ w (atexit w) w) by done. set (m := if atexit w then _ else _).
  assert (Hr : runs m) by (unfold m; destruct (atexit w); [apply runs_restore|apply stops_vret]).
  destruct (runs_log _ w Hr) as (l & Hl & K). exists l. destruct (m w) as [[u|c|] w1] eqn:E; cbn [fst snd] in *; [|done|].
  - by rewrite (vbind_run _ _ _ _ _ E).
  - by rewrite (vbind_retrying _ _ _ _ E).
Qed.

Lemma fatal_log {A} w : exists l, log (snd (@fatal _ A w)) = l ++ log w /\
  match fst (@fatal _ A w) with Run _ => False | Exited c => c = EXIT_FAILURE | Retrying => True end.
Proof.
  unfold fatal. destruct (runs_log _ w runs_restore) as (l & Hl & K).
  destruct (terminal_restore w) as [[u|c|] w1] eqn:E; cbn [fst snd] in *; [|done|].
  - rewrite (vbind_run _ _ _ _ _ E). destruct (@exit_log A EXIT_FAILURE w1) as (l1 & Hl1 & K1).
    exists (l1 ++ l). by rewrite Hl1, Hl, app_assoc.
  - rewrite (vbind_retrying _ _ _ _ E). by exists l.
Qed.

Context {C : tcall -> bool} {R : world -> Prop}.

(** What the code cannot do without. *)
Lemma stops_need {A} c (k : tanswer -> V A) : C c = true -> (forall a, stops C R (k a)) ->
  stops C R (let! a := sys c in if t_ret a <? 0 then fatal else k a).
Proof.
  intros Hc Hk w. destruct (sys_call_runs c w) as (a & w1 & Hs & _ & Hl1). rewrite (vbind_run _ _ _ _ _ Hs).
  destruct (Z.ltb_spec (t_ret a) 0) as [Ha|Ha].
  - destruct (@fatal_log A w1) as (l & Hl & K). exists (l ++ [(c, a)]). rewrite Hl, Hl1, <- app_assoc.
    assert (He : Exists (refused C) (l ++ [(c, a)])) by (apply Exists_app; right; by constructor).
    split; [done|]. destruct (fst (fatal w1)); [done|done|by left].
  - destruct (Hk a w1) as (l & Hl & K). exists (l ++ [(c, a)]). rewrite Hl, Hl1, <- app_assoc. split; [done|].
    destruct (fst (k a w1)); [done|..]; rewrite Exists_app; tauto.
Qed.

Lemma stops_need2 {A} c1 c2 (m : V A) : C c1 = true -> C c2 = true -> stops C R m ->
  stops C R (let! a1 := sys c1 in let! a2 := sys c2 in
             if (t_ret a1 <? 0) || (t_ret a2 <? 0) then fatal else m).
Proof.
  intros H1 H2 Hm w. destruct (sys_call_runs c1 w) as (a1 & w1 & Hs1 & _ & Hl1). rewrite (vbind_run _ _ _ _ _ Hs1).
  destruct (sys_call_runs c2 w1) as (a2 & w2 & Hs2 & _ & Hl2). rewrite (vbind_run _ _ _ _ _ Hs2).
  destruct (_ || _) eqn:E.
  - destruct (@fatal_log A w2) as (l & Hl & K). exists (l ++ [(c2, a2); (c1, a1)]). rewrite Hl, Hl2, Hl1, <- app_assoc.
    assert (He : Exists (refused C) (l ++ [(c2, a2); (c1, a1)])).
    { apply Exists_app. right. apply orb_true_iff in E as [E|E]; apply Z.ltb_lt in E;
        [apply Exists_cons_tl|]; by constructor. }
    split; [done|]. destruct (fst (fatal w2)); [done|done|by left].
  - destruct (Hm w2) as (l & Hl & K). exists (l ++ [(c2, a2); (c1, a1)]). rewrite Hl, Hl2, Hl1, <- app_assoc.
    split; [done|]. destruct (fst (m w2)); [done|..]; rewrite Exists_app; tauto.
Qed.
End Fatal.

Create HintDb stops.
#[export] Hint Extern 1 (stops _ _ (get _)) => by apply stops_lift : stops.
#[export] Hint Extern 1 (stops _ _ (put _)) => by apply stops_lift : stops.
#[export] Hint Extern 1 (stops _ _ (message_ _)) => by apply stops_lift : stops.
#[export] Hint Extern 1 (stops _ _ get_errno) => by apply stops_lift : stops.
#[export] Hint Resolve stops_sys stops_vret : stops.

Ltac stop_step :=
  match goal with
  | |- stops _ _ (vbind (sys _) (fun a => if t_ret a <? 0 then fatal else _)) => apply stops_need; [reflexivity|intros ?]
  | |- stops _ _ (vbind (sys _) (fun _ => vbind (sys _) _)) => apply stops_need2; [reflexivity|reflexivity|]
  | |- stops _ _ (vbind _ _) => apply stops_vbind; [|intros ?]
  | |- stops _ _ (if ?b then _ else _) => destruct b
  | |- stops _ _ (match ?x with _ => _ end) => destruct x
  | |- stops _ _ _ => solve [auto with stops]
  end.
Ltac stop_steps := cbv zeta; repeat (stop_step; cbv beta zeta).

Section StopsKeys.
Context {T : Tty} {L : Locale}.

Definition wants_memory (c : tcall) : bool := match c with Realloc _ => true | _ => false end.
Definition essential (c : tcall) : bool :=
  match c with Realloc _ | Malloc | Strdup | FstatTrace => true | _ => false end.

Lemma stops_insert b : stops wants_memory (fun _ => False) (insert_byte b).
Proof. unfold insert_byte, reserve. stop_steps. Qed.
Lemma stops_delete a b : stops wants_memory (fun _ => False) (delete_range a b).
Proof. unfold delete_range. stop_steps. Qed.
Hint Resolve stops_insert stops_delete : stops.

Lemma stops_edit_key key : stops wants_memory (fun _ => False) (edit_key key).
Proof. unfold edit_key, start_insert, delete_line. stop_steps. Qed.

Lemma stops_write_all fd data : stops essential spinning (write_all fd data).
Proof.
  intros w. destruct (runs_log _ w (runs_write_all fd data)) as (l & Hl & K). exists l. split; [done|].
  pose proof (waits_write_all fd data w) as Hw. destruct (fst (write_all fd data w)); [done|done|]. right. by apply Hw.
Qed.
Hint Resolve stops_write_all : stops.
Lemma stops_save_file p : stops essential spinning (save_file p).
Proof. unfold save_file, save_check, write_temporary, write_out. stop_steps. Qed.
Hint Resolve stops_save_file : stops.

Lemma stops_handle_key key : stops essential spinning (handle_key key).
Proof.
  assert (Hm : forall A (m : V A), stops wants_memory (fun _ => False) m -> stops essential spinning m).
  { intros A m H. eapply stops_weaken; [exact H|by intros []|done]. }
  pose proof (fun b => Hm _ _ (stops_insert b)). pose proof (fun k => Hm _ _ (stops_edit_key k)).
  unfold handle_key, paste_key, command_key, run_command. stop_steps.
Qed.
End StopsKeys.
