(* ===== verification/VimLines.v ===== *)
(** * VimLines: the commands that work on lines *)

From Stdlib Require Import String.
From stdpp Require Import base list numbers.
From S2P Require Import Prelude CString VimText Vim VimSpec VimEnds.

Local Open Scope Z_scope.
Local Open Scope vim_scope.

(** Decide the tests of a key against constants. *)
Ltac keys :=
  repeat match goal with
  | |- context [?a =? ?b] =>
      let v := eval vm_compute in (a =? b) in
      match v with
      | true => change (a =? b) with true
      | false => change (a =? b) with false
      end
  end; cbn [orb andb negb].

(** The lines before a position where a line starts. *)
Definition at_start (b : list Z) : Prop := b = [] \/ exists b', b = b' ++ [NL].
Definition lines_above (b : list Z) : list (list Z) := removelast (lines b).

Lemma lines_above_nl b : lines_above (b ++ [NL]) = lines b.
Proof. unfold lines_above. rewrite lines_app_nl. apply removelast_last. Qed.

Lemma lines_before b x : at_start b -> lines (b ++ x) = lines_above b ++ lines x.
Proof. intros [->|[b' ->]]; [done|]. rewrite lines_above_nl, <- app_assoc. apply lines_app_nl. Qed.

Lemma lines_above_length b : at_start b -> length (lines_above b) = newlines b.
Proof.
  intros [->|[b' ->]]; [done|]. rewrite lines_above_nl, lines_length, newlines_app. cbn. lia.
Qed.

(** The last line. *)
Lemma row_of_last_line b : row_of b (line_start b (length b)) = newlines b.
Proof.
  pose proof (row_of_line b (length b) (line_at_intro _ _ (le_n _))) as Hr.
  destruct (line_at_intro b (length b) (le_n _)) as [b1 l1 r1 a1 Ht1 Hp1 Hs1 He1 Hn1 Hb1 Ha1].
  cbn [la_before] in Hr. rewrite Hs1. unfold row_of in *. rewrite firstn_all in Hr.
  rewrite Ht1 at 1. by rewrite take_app_length.
Qed.

Lemma lines_of_line x a : ~ In NL x -> a = [] \/ (exists a', a = NL :: a') ->
  lines (x ++ a) = x :: (match a with [] => [] | _ :: a' => lines a' end).
Proof.
  intros Hx [->|[a' ->]]; [by rewrite app_nil_r, lines_single|]. by rewrite lines_app_nl, lines_single.
Qed.

Lemma line_start_of_start b x : at_start b -> line_start (b ++ x) (length b) = length b.
Proof.
  intros [->|[b' ->]]; [done|]. rewrite length_app, Nat.add_1_r. cbn [line_start].
  rewrite <- app_assoc. cbn [app]. by rewrite nth_middle.
Qed.

(** Deleting the line a position is on. *)
Definition without_line (t : list Z) (p : nat) : list Z * nat :=
  let start := line_start t p in
  let end_ := line_end t p in
  let '(start, end_) :=
    if (end_ <? length t)%nat then (start, S end_)
    else if negb (start =? 0)%nat then (pred start, end_)
    else (start, end_) in
  (take start t ++ drop end_ t, start).

Lemma drop_app_all {A} (a b : list A) n : n = length a -> drop n (a ++ b) = b.
Proof. intros ->. apply drop_app_length. Qed.
Lemma take_app_all {A} (a b : list A) n : n = length a -> take n (a ++ b) = a.
Proof. intros ->. apply take_app_length. Qed.

Lemma without_line_spec t p :
  (p <= length t)%nat -> let '(t', start) := without_line t p in
  lines t' = (match delete (row_of t p) (lines t) with [] => [[]] | ls => ls end) /\
  (start <= length t')%nat /\
  row_of t' (line_start t' start) = (row_of t p `min` (length (lines t') - 1))%nat.
Proof.
  intros Hp. pose proof (line_at_intro t p Hp) as la. rewrite (row_of_line t p la).
  destruct la as [b l r a Ht Hpos Hs He Hn Hb Ha]. cbn [la_before]. unfold without_line. rewrite Hs, He.
  set (x := l ++ r) in *.
  assert (Ht' : t = b ++ x ++ a) by (unfold x; by rewrite Ht, <- !app_assoc).
  replace (length (b ++ l ++ r)) with (length (b ++ x)) by done.
  clear Ht Hpos Hs He Hp p. subst t.
  rewrite (lines_before b (x ++ a) Hb), (lines_of_line x a Hn Ha), <- (lines_above_length b Hb), delete_middle.
  destruct Ha as [->|[a' ->]].
  - rewrite app_nil_r. destruct (Nat.ltb_spec (length (b ++ x)) (length (b ++ x))); [lia|].
    destruct Hb as [->|[b' ->]]; [cbn; by rewrite drop_all|]. rewrite lines_above_nl.
    rewrite length_app. cbn [length]. destruct (Nat.eqb_spec (length b' + 1) 0); [lia|]. cbn [negb].
    replace (pred (length b' + 1)) with (length b') by lia.
    rewrite drop_all, app_nil_r, <- app_assoc, (take_app_all b') by done. rewrite app_nil_r, row_of_last_line, lines_length.
    split; [|split; [done|lia]]. pose proof (lines_nonempty b'). by destruct (lines b').
  - assert (Hlt : (length (b ++ x) <? length (b ++ x ++ NL :: a'))%nat = true)
      by (apply Nat.ltb_lt; rewrite !length_app; cbn; lia).
    assert (Hd : drop (S (length (b ++ x))) (b ++ x ++ NL :: a') = a').
    { replace (b ++ x ++ NL :: a') with (((b ++ x) ++ [NL]) ++ a') by (by rewrite <- !app_assoc).
      apply drop_app_all. rewrite (length_app (b ++ x)). cbn [length]. lia. }
    rewrite Hlt, (take_app_all b), Hd, lines_before, line_start_of_start by done.
    split; [|split; [rewrite length_app; lia|]].
    + pose proof (lines_nonempty a'). destruct (lines_above b ++ lines a') eqn:E; [|done].
      by apply app_eq_nil in E as [_ ?].
    + unfold row_of. rewrite (take_app_all b) by done.
      rewrite length_app, lines_length, lines_above_length by done. lia.
Qed.

Lemma open_line_spec t p :
  (p <= length t)%nat ->
  let t' := take (line_end t p) t ++ NL :: drop (line_end t p) t in
  lines t' = take (S (row_of t p)) (lines t) ++ [] :: drop (S (row_of t p)) (lines t) /\
  row_of t' (S (line_end t p)) = S (row_of t p).
Proof.
  intros Hp. pose proof (line_at_intro t p Hp) as la. rewrite (row_of_line t p la).
  destruct la as [b l r a Ht Hpos Hs He Hn Hb Ha]. cbn [la_before]. rewrite He.
  set (x := l ++ r) in *. replace (length (b ++ l ++ r)) with (length (b ++ x)) by done.
  assert (Ht' : t = b ++ x ++ a) by (unfold x; by rewrite Ht, <- !app_assoc).
  clear Ht Hpos Hs He Hp p. subst t. rewrite <- (lines_above_length b Hb).
  rewrite (lines_before b (x ++ a) Hb), (lines_of_line x a Hn Ha), app_assoc.
  rewrite (take_app_all (b ++ x)), (drop_app_all (b ++ x)) by done. split.
  - rewrite <- app_assoc, lines_before, lines_app_nl, (lines_single x) by done.
    replace (S (length (lines_above b))) with (length (lines_above b ++ [x])) by (rewrite length_app; cbn; lia).
    set (above := lines_above b). set (rest := match a with [] => [] | _ :: a' => lines a' end).
    replace (above ++ x :: rest) with ((above ++ [x]) ++ rest) by (by rewrite <- app_assoc).
    rewrite take_app_length, drop_app_length, <- app_assoc. do 2 f_equal. by destruct Ha as [->|[a' ->]].
  - unfold row_of. change (NL :: a) with ([NL] ++ a). rewrite app_assoc, (take_app_all ((b ++ x) ++ [NL]))
      by (rewrite (length_app (b ++ x)); cbn; lia).
    rewrite !newlines_app, (newlines_none x Hn), lines_above_length by done. cbn. lia.
Qed.

Section Commands.
Context {T : Tty} {L : Locale} {LL : LocaleLaws}.

(** What [insert_byte] does below the limit. *)
Lemma vwp_insert_exact b Q w :
  ok w -> Z.of_nat (length (text (ed w))) < FILE_LIMIT ->
  (forall cap w', ed w' = set_dirty true (set_cursor (S (cursor (ed w)))
       (set_text (take (cursor (ed w)) (text (ed w)) ++ b :: drop (cursor (ed w)) (text (ed w)))
          (set_text_cap cap (ed w)))) -> Q tt w') ->
  vwp (insert_byte b) Q w.
Proof.
  intros Hok Hl H. pose proof (ok_cap _ Hok). unfold insert_byte, FILE_LIMIT in *. apply vwp_bind, vwp_get.
  destruct (Z.leb_spec 8388608 (Z.of_nat (length (text (ed w))))); [lia|].
  apply vwp_bind, vwp_reserve; [lia|lia|]. intros cap w1 Hcap E1 _. vsteps. apply (H cap). by ed_eq.
Qed.

(** "dd" makes no call, so that it cannot fail. *)
Lemma handle_key_d w :
  ok w -> paste (ed w) = false -> mode (ed w) = NORMAL -> prefix (ed w) = chr "d" ->
  exists w', handle_key (chr "d") w = (Run tt, w') /\ log w' = log w /\
    text (ed w') = fst (without_line (text (ed w)) (cursor (ed w))) /\
    cursor (ed w') = line_start (text (ed w')) (snd (without_line (text (ed w)) (cursor (ed w)))).
Proof.
  intros Hok Hp Hm Hx. pose proof (ok_cursor _ Hok) as Hc.
  unfold handle_key, edit_key, delete_line, delete_range, without_line, vbind, get, put, lift, bind, gets, upd,
    modify, ret, vret. keys. cbv beta iota zeta. rewrite Hp, Hm. cbv beta iota zeta.
  change (bool_decide (NORMAL = COMMAND)) with false. cbv beta iota zeta. rewrite Hm, Hx. change (bool_decide (NORMAL = INSERT)) with false.
  change (bool_decide (NORMAL = NORMAL)) with true. keys. cbv beta iota zeta.
  pose proof (line_start_le (text (ed w)) (cursor (ed w))) as Hs.
  pose proof (line_end_bounds (text (ed w)) (cursor (ed w)) Hc) as He.
  set (t := text (ed w)) in *. set (c := cursor (ed w)) in *.
  destruct (Nat.ltb_spec (line_end t c) (length t)) as [Hl|Hl].
  { destruct (Nat.eqb_spec (line_start t c) (S (line_end t c))); [lia|]. by eexists. }
  destruct (Nat.eqb_spec (line_start t c) 0) as [Hz|Hz]; cbn [negb].
  - destruct (Nat.eqb_spec (line_start t c) (line_end t c)) as [E|E]; [|by eexists].
    assert (length t = 0)%nat by lia. assert (Ht : t = []) by (by destruct t). assert (Hc0 : c = 0%nat) by lia.
    eexists. split; [reflexivity|]. ed_cbn. fold t c. by rewrite Ht, Hc0.
  - destruct (Nat.eqb_spec (pred (line_start t c)) (line_end t c)); [lia|]. by eexists.
Qed.

(** 'o' stops the editor only when the buffer cannot grow. *)
Lemma handle_key_o w : paste (ed w) = false -> mode (ed w) = NORMAL ->
  exists l, log (snd (handle_key (chr "o") w)) = l ++ log w /\
    match fst (handle_key (chr "o") w) with
    | Run _ => True
    | Exited code => code = EXIT_FAILURE /\ Exists (refused wants_memory) l
    | Retrying => Exists (refused wants_memory) l
    end.
Proof.
  intros Hp Hm. set (m := let! clear := edit_key (chr "o") in if clear : bool then put (set_prefix 0) else vret tt).
  assert (E : handle_key (chr "o") w = m w).
  { unfold handle_key. keys. rewrite vbind_get, Hp, Hm. done. }
  assert (Hs : stops wants_memory (fun _ => False) m).
  { pose proof (stops_edit_key (chr "o")). unfold m. stop_steps. }
  rewrite E. destruct (Hs w) as (l & Hl & K). exists l. split; [done|]. destruct (fst (m w)); [done|done|].
  by destruct K.
Qed.

(** The lines and the mode after 'o'. *)
Lemma open_line_runs w : ok w -> paste (ed w) = false -> mode (ed w) = NORMAL ->
  Z.of_nat (length (text (ed w))) < FILE_LIMIT ->
  let t := text (ed w) in
  let row := row_of t (cursor (ed w)) in
  vwp (handle_key (chr "o")) (fun _ w' =>
    mode (ed w') = INSERT /\ dirty (ed w') = true /\
    lines (text (ed w')) = take (S row) (lines t) ++ [] :: drop (S row) (lines t) /\
    row_of (text (ed w')) (cursor (ed w')) = S row) w.
Proof.
  intros Hok Hp Hm Hl t row. pose proof (ok_cursor _ Hok) as Hc.
  unfold handle_key. keys. apply vwp_bind, vwp_get. rewrite Hp, Hm.
  change (bool_decide (NORMAL = COMMAND)) with false. unfold edit_key. apply vwp_bind, vwp_bind, vwp_get. rewrite Hm.
  change (bool_decide (NORMAL = INSERT)) with false. change (bool_decide (NORMAL = NORMAL)) with true. keys.
  unfold start_insert. apply vwp_bind, vwp_bind, vwp_get. keys. apply vwp_bind, vwp_ret, vwp_bind, vwp_bind.
  apply vwp_put. intros w1 E1 _. fold t in E1.
  assert (He : (line_end t (cursor (ed w)) <= length t)%nat) by (by apply line_end_bounds).
  apply vwp_insert_exact.
  - unfold ok. rewrite E1. by apply ok_set_cursor.
  - rewrite E1. done.
  - intros cap w2 E2. vsteps. ed_eq. ed_cbn. fold t.
    destruct (open_line_spec t (cursor (ed w)) Hc) as [H1 H2]. done.
Qed.

End Commands.

(** C38: "dd" deletes exactly the line the cursor is on and, in a text below the file
    limit, 'o' opens an empty line below it and starts inserting there; every other line
    stays as it is.  After "dd" the cursor is on the line that took the deleted one's
    place, or on the last one.  "dd" always succeeds; 'o' ends the editor only with a
    failure after the system refused the memory for the longer text, and does not return
    only while the terminal is being restored after such a refusal. *)
Theorem line_commands_edit_lines {T : Tty} {L : Locale} {LL : LocaleLaws} (w : world) :
  editor_ok (ed w) -> paste (ed w) = false -> mode (ed w) = NORMAL ->
  let t := text (ed w) in
  let row := row_of t (cursor (ed w)) in
  (prefix (ed w) = chr "d" ->
   exists w', handle_key (chr "d") w = (Run tt, w') /\
     lines (text (ed w')) = (match delete row (lines t) with [] => [[]] | ls => ls end) /\
     row_of (text (ed w')) (cursor (ed w')) = (row `min` (length (lines (text (ed w'))) - 1))%nat) /\
  (Z.of_nat (length t) < FILE_LIMIT ->
   let '(o, w') := handle_key (chr "o") w in
   exists l, log w' = l ++ log w /\
   match o with
   | Run _ =>
       mode (ed w') = INSERT /\ dirty (ed w') = true /\
       lines (text (ed w')) = take (S row) (lines t) ++ [] :: drop (S row) (lines t) /\
       row_of (text (ed w')) (cursor (ed w')) = S row
   | Exited code =>
       code = EXIT_FAILURE /\ exists size a, In (Realloc size, a) l /\ t_ret a < 0
   | Retrying => exists size a, In (Realloc size, a) l /\ t_ret a < 0
   end).
Proof.
  intros Hok Hp Hm t row. pose proof (ok_cursor _ Hok) as Hc. split.
  - intros Hx. destruct (handle_key_d w Hok Hp Hm Hx) as (w' & Hrun & _ & Ht & Hcur).
    exists w'. split; [done|]. pose proof (without_line_spec t (cursor (ed w)) Hc) as Hw. fold t in Ht, Hcur.
    destruct (without_line t (cursor (ed w))) as [t' start]. destruct Hw as (H1 & _ & H2).
    cbn [fst snd] in *. by rewrite Hcur, Ht.
  - intros Hl. pose proof (open_line_runs w Hok Hp Hm Hl) as Hv. unfold vwp in Hv.
    destruct (handle_key_o w Hp Hm) as (l & Hlog & K). destruct (handle_key (chr "o") w) as [o w'].
    cbn [fst snd] in *. exists l. split; [done|].
    assert (Hr : Exists (refused wants_memory) l -> exists size a, In (Realloc size, a) l /\ t_ret a < 0).
    { intros He. apply List.Exists_exists in He as ([c a] & Hin & Hw & Hneg). destruct c; try discriminate.
      by exists size, a. }
    destruct o; [exact Hv|destruct K; auto|auto].
Qed.
