(* ===== verification/VimSave.v ===== *)
(** * VimSave: saving replaces a file or leaves it alone, and quitting loses nothing *)

From Stdlib Require Import String.
From stdpp Require Import base list numbers.
From S2P Require Import Prelude CString VimText Vim VimSpec VimEnds.

Local Open Scope Z_scope.
Local Open Scope vim_scope.

(** What the code relies on of the operating system: a call that fails says why, a write
    of some bytes does not return 0, and [mkstemp] fills in its template. *)
Class TtyLaws {T : Tty} : Prop := {
  tty_errno : forall t c, t_ret (fst (tty_step t c)) < 0 -> t_errno (fst (tty_step t c)) <> 0;
  write_nonzero : forall t fd data, data <> [] -> t_ret (fst (tty_step t (Write fd data))) <> 0;
  mkstemp_template : forall t s, 0 <= t_ret (fst (tty_step t (Mkstemp s))) ->
    length (t_bytes (fst (tty_step t (Mkstemp s)))) = length s
}.

(** A call that changes which file a path names. *)
Definition changes (p : cstr) (ca : tcall * tanswer) : Prop :=
  match fst ca with
  | Rename q r => 0 <= t_ret (snd ca) /\ (q = p \/ r = p)
  | Unlink q | OpenExcl q => q = p
  | _ => False
  end.

(** The bytes that the writes of a log put into a file, in order. *)
Fixpoint written (fd : Z) (l : list (tcall * tanswer)) : list Z :=
  match l with
  | [] => []
  | (Write f d, a) :: l' =>
      if f =? fd then written fd l' ++ take (Z.to_nat (t_ret a)) d else written fd l'
  | _ :: l' => written fd l'
  end.

Definition is_write (fd : Z) (ca : tcall * tanswer) : Prop :=
  match fst ca with Write f _ => f = fd | _ => False end.

Lemma written_app fd a b : written fd (a ++ b) = written fd b ++ written fd a.
Proof.
  induction a as [|[c x] a IH]; [by rewrite app_nil_r|]. cbn. destruct c; rewrite ?IH; try done.
  destruct (fd0 =? fd); [by rewrite app_assoc|done].
Qed.

Section Save.
Context {T : Tty} {TL : TtyLaws}.

Lemma call_spec c w : exists a w1, call c w = (a, w1) /\ ed w1 = ed w /\ log w1 = (c, a) :: log w /\
  atexit w1 = atexit w /\
  errno w1 = (if t_ret a <? 0 then t_errno a else errno w) /\ (t_ret a < 0 -> t_errno a <> 0) /\
  (match c with
   | Write _ d => d <> [] -> t_ret a <> 0
   | Mkstemp s => 0 <= t_ret a -> length (t_bytes a) = length s
   | _ => True
   end).
Proof.
  unfold call. pose proof (tty_errno (tty w) c) as H1. pose proof (fun fd d => write_nonzero (tty w) fd d) as H2.
  pose proof (fun s => mkstemp_template (tty w) s) as H3.
  destruct (tty_step (tty w) c) as [a t] eqn:E. eexists a, _. repeat split; try done.
  destruct c; try done.
  - intros Hd. specialize (H2 fd data Hd). by rewrite E in H2.
  - intros Hr. specialize (H3 template). rewrite E in H3. by apply H3.
Qed.

Lemma sys_answers c w : exists a w1, sys c w = (Run a, w1) /\ ed w1 = ed w /\ log w1 = (c, a) :: log w /\
  errno w1 = (if t_ret a <? 0 then t_errno a else errno w) /\ (t_ret a < 0 -> t_errno a <> 0) /\
  (match c with Mkstemp s => 0 <= t_ret a -> length (t_bytes a) = length s | _ => True end).
Proof.
  destruct (call_spec c w) as (a & w1 & Hc & He & Hl & _ & Hn & Hneg & Hx).
  exists a, w1. unfold sys, lift, bind. rewrite Hc. repeat split; try done. by destruct c.
Qed.

(** The answer of a call that was retried is not an interruption; every attempt is in
    the log. *)
Lemma uninterrupted_spec fuel c : forall w, exists o w1 l, uninterrupted fuel c w = (o, w1) /\
  ed w1 = ed w /\ log w1 = l ++ log w /\
  match o with
  | Run a => exists l', l = (c, a) :: l' /\ Forall (interrupted c) l' /\
      (t_ret a < 0 -> errno w1 <> 0) /\ (match c with Write _ d => d <> [] -> t_ret a <> 0 | _ => True end)
  | Exited _ => False
  | Retrying => Forall (interrupted c) l
  end.
Proof.
  induction fuel as [|fuel IH]; intros w; cbn [uninterrupted]; [by exists Retrying, w, []|].
  destruct (call_spec c w) as (a & w1 & Hc & He & Hl & _ & Hn & Hneg & Hx).
  assert (Hs : sys c w = (Run a, w1)) by (unfold sys, lift, bind; by rewrite Hc).
  rewrite (vbind_run _ _ _ _ _ Hs), vbind_errno, Hn.
  destruct (Z.ltb_spec (t_ret a) 0) as [Ha|Ha]; cbn [andb]; [destruct (Z.eqb_spec (t_errno a) EINTR) as [Hi|Hi]|].
  - destruct (IH w1) as (o & w2 & l & -> & He2 & Hl2 & K). exists o, w2, (l ++ [(c, a)]).
    split; [done|]. split; [congruence|]. split; [by rewrite Hl2, Hl, <- app_assoc|].
    assert (Hf : Forall (interrupted c) [(c, a)]) by (by repeat constructor).
    destruct o as [a2| |]; [|done|by apply Forall_app].
    destruct K as (l' & -> & K & ?). exists (l' ++ [(c, a)]). split; [done|]. split; [by apply Forall_app|done].
  - exists (Run a), w1, [(c, a)]. split; [done|]. split; [done|]. split; [done|]. exists [].
    split; [done|]. split; [done|]. rewrite Hn. destruct (Z.ltb_spec (t_ret a) 0); [|lia]. split; [auto|by destruct c].
  - exists (Run a), w1, [(c, a)]. split; [done|]. split; [done|]. split; [done|]. exists [].
    split; [done|]. split; [done|]. split; [lia|by destruct c].
Qed.

Lemma interrupted_writes fd d l : Forall (interrupted (Write fd d)) l -> Forall (is_write fd) l /\ written fd l = [].
Proof.
  induction 1 as [|[c a] l [Hc [Hr _]] _ [IH1 IH2]]; [done|]. cbn [fst snd] in *. subst c.
  split; [by constructor|]. cbn. rewrite Z.eqb_refl, IH2. by replace (Z.to_nat (t_ret a)) with O by lia.
Qed.

(** All bytes are written, or a write failed and says why, or the writes are interrupted. *)
Lemma write_all_spec fuel fd : forall data w, (length data <= fuel)%nat ->
  exists o w1 l, write_all_loop fuel fd data w = (o, w1) /\ ed w1 = ed w /\ log w1 = l ++ log w /\
    Forall (is_write fd) l /\
    match o with
    | Run r => r = 0 /\ written fd l = data \/ r = -1 /\ errno w1 <> 0
    | Exited _ => False
    | Retrying => True
    end.
Proof.
  induction fuel as [|fuel IH]; intros data w Hf; destruct data as [|b data]; cbn [length] in Hf; try lia.
  - exists (Run 0), w, []. repeat split; try done. by left.
  - exists (Run 0), w, []. repeat split; try done. by left.
  - cbn [write_all_loop].
    destruct (uninterrupted_spec patience (Write fd (b :: data)) w) as (o & w1 & l & Hu & He & Hl & K).
    destruct o as [a| |]; [|done|].
    2:{ rewrite (vbind_retrying _ _ _ _ Hu). apply interrupted_writes in K as [K _]. by exists Retrying, w1, l. }
    rewrite (vbind_run _ _ _ _ _ Hu). destruct K as (l' & -> & K & Hno & Hnz).
    specialize (Hnz ltac:(done)). apply interrupted_writes in K as [K1 K2].
    assert (Hw : Forall (is_write fd) ((Write fd (b :: data), a) :: l')) by (by constructor).
    destruct (Z.leb_spec (t_ret a) 0) as [Hle|Hgt].
    + exists (Run (-1)), w1, ((Write fd (b :: data), a) :: l'). repeat split; try done.
      right. split; [done|]. apply Hno. lia.
    + destruct (IH (drop (Z.to_nat (t_ret a)) (b :: data)) w1) as (o & w2 & l & -> & He2 & Hl2 & Hw2 & Hr).
      { rewrite length_drop. cbn [length]. lia. }
      exists o, w2, (l ++ (Write fd (b :: data), a) :: l'). split; [done|]. split; [congruence|].
      split; [by rewrite Hl2, Hl, <- app_assoc|]. split; [by apply Forall_app|].
      destruct o as [r| |]; [|done..]. destruct Hr as [[-> Hr]|Hr]; [left|by right]. split; [done|].
      rewrite written_app, Hr. cbn. rewrite Z.eqb_refl, K2. apply take_drop.
Qed.

(** What a save leaves in the log when it succeeds: the whole text written to the
    temporary file, its mode set, the file flushed and closed, and only then renamed. *)
Definition saved_log (fd m : Z) (tmp p : cstr) (t : list Z) (l : list (tcall * tanswer)) : Prop :=
  exists r c s a lw,
    l = (Rename tmp p, r) :: (Close fd, c) :: (Fsync fd, s) :: (Fchmod fd m, a) :: lw /\
    0 <= t_ret r /\ 0 <= t_ret c /\ 0 <= t_ret s /\ 0 <= t_ret a /\
    Forall (is_write fd) lw /\ written fd lw = t.

Lemma writes_change_nothing fd p l : Forall (is_write fd) l -> Forall (fun x => ~ changes p x) l.
Proof. apply Forall_impl. intros [c a] H. unfold is_write, changes in *. cbn in *. destruct c; tauto. Qed.

End Save.

(** Run the next call. *)
Ltac vcall a :=
  vfwd; match goal with |- context [vbind (sys ?c) ?k ?w] =>
    let w1 := fresh "w" in let He := fresh "He" in let Hl := fresh "Hl" in let Hn := fresh "Hn" in
    let Hneg := fresh "Hneg" in let Hr := fresh "Hr" in let Hx := fresh "Hx" in
    destruct (sys_answers c w) as (a & w1 & Hr & He & Hl & Hn & Hneg & Hx);
    rewrite (vbind_run _ _ _ _ _ Hr); clear Hr; vfwd end.

(** The log is written out, its writes aside. *)
Ltac logs := repeat match goal with H : log ?w = _ |- context [log ?w] => rewrite H end.

Section WriteTemporary.
Context {T : Tty} {TL : TtyLaws}.

(** After an error the temporary file goes and nothing else changes. *)
Lemma failed_save p tmp e w w0 l0 :
  tmp <> p -> e <> 0 -> log w = l0 ++ log w0 -> ed w = ed w0 -> Forall (fun x => ~ changes p x) l0 ->
  exists w1 l a, (if negb (e =? 0) then run! sys (Unlink tmp) in vret e else vret e) w = (Run e, w1) /\
    ed w1 = ed w0 /\ log w1 = ((Unlink tmp, a) :: l) ++ log w0 /\ Forall (fun x => ~ changes p x) l.
Proof.
  intros Hne He Hl Hed Hf. destruct (Z.eqb_spec e 0); [done|]. cbn [negb].
  vcall a. exists w1, l0, a. repeat split; try done; try congruence. by logs.
Qed.

(** The text is in the temporary file, or an error is reported. *)
Lemma write_out_spec fd m p t w :
  exists o w1 l, write_out fd m t w = (o, w1) /\ ed w1 = ed w /\ log w1 = l ++ log w /\
    Forall (fun x => ~ changes p x) l /\
    match o with
    | Run e => e = 0 ->
        exists s a lw, l = (Fsync fd, s) :: (Fchmod fd m, a) :: lw /\ 0 <= t_ret s /\ 0 <= t_ret a /\
          Forall (is_write fd) lw /\ written fd lw = t
    | Exited _ => False
    | Retrying => True
    end.
Proof.
  destruct (write_all_spec (length t) fd t w (le_n _)) as (o & w1 & lw & Hrun & He1 & Hl1 & Hw & Hr).
  pose proof (writes_change_nothing fd p lw Hw) as Hwc. unfold write_out. destruct o as [r| |]; [|done|].
  2:{ rewrite (vbind_retrying (write_all fd t) _ w w1 Hrun). by exists Retrying, w1, lw. }
  rewrite (vbind_run (write_all fd t) _ w r w1 Hrun).
  destruct Hr as [[-> Hwr]|[-> Hno]].
  2:{ change (-1 <? 0) with true. cbv iota. vfwd. by exists (Run (errno w1)), w1, lw. }
  change (0 <? 0) with false. cbv iota. vcall a. destruct (Z.ltb_spec (t_ret a) 0) as [Ha|Ha]; vfwd.
  { eexists (Run _), w0, ((Fchmod fd m, a) :: lw). split; [reflexivity|]. split; [congruence|]. split; [by logs|].
    split; [by constructor; [intros []|]|]. intros E. destruct (Hneg Ha). congruence. }
  vcall s. destruct (Z.ltb_spec (t_ret s) 0) as [Hs|Hs]; cbn [negb].
  - eexists (Run _), w2, ((Fsync fd, s) :: (Fchmod fd m, a) :: lw). split; [reflexivity|]. split; [congruence|].
    split; [by logs|]. split; [do 2 (constructor; [by intros []|]); done|]. intros E. destruct (Hneg0 Hs). congruence.
  - eexists (Run _), w2, ((Fsync fd, s) :: (Fchmod fd m, a) :: lw). split; [reflexivity|]. split; [congruence|].
    split; [by logs|]. split; [do 2 (constructor; [by intros []|]); done|]. intros _. by exists s, a, lw.
Qed.

(** Every error of the calls before the rename keeps the rename from happening. *)
Lemma write_temporary_spec fd m tmp p t w : tmp <> p ->
  exists o w1 l, write_temporary fd m tmp p t w = (o, w1) /\ ed w1 = ed w /\ log w1 = l ++ log w /\
    match o with
    | Run e =>
        e = 0 /\ saved_log fd m tmp p t l \/
        e <> 0 /\ exists a l', l = (Unlink tmp, a) :: l' /\ Forall (fun x => ~ changes p x) l'
    | Exited _ => False
    | Retrying => Forall (fun x => ~ changes p x) l
    end.
Proof.
  intros Hne.
  assert (Hfail : forall e w' l0, e <> 0 -> log w' = l0 ++ log w -> ed w' = ed w -> Forall (fun x => ~ changes p x) l0 ->
    exists o w1 l, (if negb (e =? 0) then run! sys (Unlink tmp) in vret e else vret e) w' = (o, w1) /\
      ed w1 = ed w /\ log w1 = l ++ log w /\
      match o with
      | Run e0 =>
          e0 = 0 /\ saved_log fd m tmp p t l \/
          e0 <> 0 /\ exists a l', l = (Unlink tmp, a) :: l' /\ Forall (fun x => ~ changes p x) l'
      | Exited _ => False
      | Retrying => Forall (fun x => ~ changes p x) l
      end).
  { intros e w' l0 He Hl Hed Hf. destruct (failed_save p tmp e w' w l0 Hne He Hl Hed Hf) as (w1 & l & a & -> & H1 & H2 & H3).
    exists (Run e), w1, ((Unlink tmp, a) :: l). split; [done|]. split; [done|]. split; [done|]. right. split; [done|]. by exists a, l. }
  destruct (write_out_spec fd m p t w) as (o & w1 & l & Hrun & He1 & Hl1 & Hf & Hok).
  unfold write_temporary. destruct o as [e| |]; [|done|].
  2:{ rewrite (vbind_retrying _ _ _ _ Hrun). by exists Retrying, w1, l. }
  rewrite (vbind_run _ _ _ _ _ Hrun). vcall c.
  assert (Hfc : Forall (fun x => ~ changes p x) ((Close fd, c) :: l)) by (by constructor; [intros []|]).
  destruct (Z.eqb_spec e 0) as [->|He0].
  2:{ rewrite andb_false_r. vfwd. apply Z.eqb_neq in He0 as Hz. rewrite Hz. vfwd.
      apply (Hfail e w0 ((Close fd, c) :: l)); [done|by logs|congruence|done]. }
  rewrite andb_true_r. destruct (Z.ltb_spec (t_ret c) 0) as [Hc|Hc]; vfwd.
  { specialize (Hneg Hc). rewrite Hn. apply Z.eqb_neq in Hneg as Hz. rewrite Hz. vfwd.
    apply (Hfail _ w0 ((Close fd, c) :: l)); [done|by logs|congruence|done]. }
  change (0 =? 0) with true. cbv iota. vcall r. destruct (Z.ltb_spec (t_ret r) 0) as [Hr|Hr]; vfwd.
  { specialize (Hneg0 Hr). rewrite Hn0. apply (Hfail _ w2 ((Rename tmp p, r) :: (Close fd, c) :: l));
      [done|by logs|congruence|]. constructor; [cbn; lia|done]. }
  eexists (Run 0), _, ((Rename tmp p, r) :: (Close fd, c) :: l).
  split; [reflexivity|]. split; [congruence|]. split; [by logs|]. left. split; [done|].
  destruct (Hok eq_refl) as (s & a & lw & -> & Hs & Ha & Hw & Hwr). by exists r, c, s, a, lw.
Qed.

(** ** The calls a computation makes *)

(** Every call [m] makes satisfies [C]. *)
Definition only {A} (C : tcall * tanswer -> Prop) (m : ST world A) : Prop :=
  forall w, exists l, log (snd (m w)) = l ++ log w /\ Forall C l.

Lemma only_ret {A} C (a : A) : only C (ret a).
Proof. intros w. by exists []. Qed.

Lemma only_bind {A B} C (m : ST world A) (k : A -> ST world B) :
  only C m -> (forall a, only C (k a)) -> only C (bind m k).
Proof.
  intros Hm Hk w. unfold bind. destruct (Hm w) as (l1 & H1 & F1). destruct (m w) as [a w1].
  destruct (Hk a w1) as (l2 & H2 & F2). exists (l2 ++ l1). cbn [snd] in *. rewrite H2, H1, app_assoc.
  split; [done|]. by apply Forall_app.
Qed.

Lemma only_vbind {A B} C (m : V A) (k : A -> V B) :
  only C m -> (forall a, only C (k a)) -> only C (vbind m k).
Proof. intros Hm Hk. apply only_bind; [done|]. intros [a|c|]; [done|apply only_ret..]. Qed.

Lemma only_lift {A} C (m : ST world A) : only C m -> only C (lift m).
Proof. intros H. apply only_bind; [done|intros; apply only_ret]. Qed.

Lemma only_call C c : (forall a, C (c, a)) -> only C (call c).
Proof.
  intros H w. destruct (call_spec c w) as (a & w1 & -> & _ & Hl & _). exists [(c, a)]. by split; [|constructor].
Qed.

Lemma only_gets {A} C (f : world -> A) : only C (gets f).
Proof. intros w. by exists []. Qed.

Lemma only_upd C f : only C (upd f).
Proof. intros w. by exists []. Qed.

Lemma only_write_all C fd data : (forall d a, C (Write fd d, a)) -> only C (write_all fd data).
Proof.
  intros H w. destruct (write_all_spec (length data) fd data w (le_n _)) as (o & w1 & l & Hr & _ & Hl & Hw & _).
  exists l. unfold write_all. rewrite Hr. split; [done|]. revert Hw. apply Forall_impl.
  intros [c a] Hc. unfold is_write in Hc. cbn in Hc. destruct c; try done. by subst.
Qed.

Lemma only_uninterrupted C fuel c : (forall a, C (c, a)) -> only C (uninterrupted fuel c).
Proof.
  intros H. induction fuel as [|fuel IH]; cbn [uninterrupted]; [apply only_ret|].
  apply only_vbind; [by apply only_lift, only_call|]. intros a.
  apply only_vbind; [apply only_lift, only_gets|]. intros e. destruct (_ && _); [exact IH|apply only_ret].
Qed.

Lemma only_if {A} C (b : bool) (m1 m2 : ST world A) : only C m1 -> only C m2 -> only C (if b then m1 else m2).
Proof. by destruct b. Qed.

End WriteTemporary.

Create HintDb only.
#[export] Hint Resolve only_ret only_gets only_upd : only.

(** Walk through a computation; what is left are its calls. *)
Ltac only_step :=
  match goal with
  | |- only _ (vbind _ _) => apply only_vbind; [|intros ?]
  | |- only _ (bind _ _) => apply only_bind; [|intros ?]
  | |- only _ (lift _) => apply only_lift
  | |- only _ (ret _) => apply only_ret
  | |- only _ (vret _) => apply only_ret
  | |- only _ (gets _) => apply only_gets
  | |- only _ (upd _) => apply only_upd
  | |- only _ (get _) => apply only_lift, only_gets
  | |- only _ get_errno => apply only_lift, only_gets
  | |- only _ (put _) => apply only_lift, only_upd
  | |- only _ (message_ _) => apply only_lift, only_upd
  | |- only _ (sys _) => apply only_lift, only_call; intros ?
  | |- only _ (call _) => apply only_call; intros ?
  | |- only _ (uninterrupted _ _) => apply only_uninterrupted; intros ?
  | |- only _ (write_all _ _) => apply only_write_all; intros ? ?
  | |- only _ (if ?b then _ else _) => apply only_if
  | |- only _ (match ?x with _ => _ end) => destruct x
  | |- only _ _ => solve [eauto 3 with only]
  end.
Ltac onlys := cbv zeta; repeat (only_step; cbv beta zeta).

Section SaveFile.
Context {T : Tty} {TL : TtyLaws}.

Lemma calm_restore p : only (fun x => ~ changes p x) terminal_restore.
Proof. unfold terminal_restore. onlys; by intros []. Qed.

Lemma calm_exit {A} p code : only (fun x => ~ changes p x) (@exit_ _ A code).
Proof. unfold exit_. onlys. apply calm_restore. Qed.

Lemma calm_fatal {A} p : only (fun x => ~ changes p x) (@fatal _ A).
Proof. unfold fatal. onlys; [apply calm_restore|apply calm_exit]. Qed.
Hint Resolve calm_exit calm_fatal : only.

Lemma calm_save_check p q : only (fun x => ~ changes p x) (save_check q).
Proof. unfold save_check. onlys; by intros []. Qed.

(** The fields a save that fails leaves alone. *)
Definition document (e : editor) : list Z * bool * option cstr * nat * bool := (text e, dirty e, path e, cursor e, quit e).

Lemma save_check_document p w : vwp (save_check p) (fun _ w' => document (ed w') = document (ed w)) w.
Proof. unfold save_check. vsteps; by ed_eq. Qed.

(** A result that leaves the file, and the editor's document, as they were. *)
Definition untouched (p : cstr) (w : world) (o : outcome bool) (w' : world) : Prop :=
  (exists l, log w' = l ++ log w /\ Forall (fun x => ~ changes p x) l) /\
  (o = Run false -> document (ed w') = document (ed w)).

(** A result that replaced the file by the text. *)
Definition replaced (p : cstr) (w w' : world) : Prop :=
  (exists fd m tmp l0 l, tmp <> p /\ log w' = l ++ l0 ++ log w /\
     saved_log fd m tmp p (text (ed w)) l /\ Forall (fun x => ~ changes p x) l0) /\
  document (ed w') = (text (ed w), false, Some p, cursor (ed w), quit (ed w)).

Lemma save_file_spec (p : cstr) w : p <> [] -> let '(o, w') := save_file (Some p) w in
  match o with Run true => replaced p w w' | _ => untouched p w o w' end.
Proof.
  intros Hp. destruct p as [|ch p']; [done|]. unfold save_file. cbv beta iota.
  set (p := ch :: p') in *. destruct (calm_save_check p p w) as (l0 & Hl0 & Hf0).
  pose proof (save_check_document p w) as Hd0. unfold vwp in Hd0.
  destruct (save_check p w) as [[m|c|] w0] eqn:Hc; cbn [fst snd] in *.
  2:{ rewrite (vbind_exited _ _ _ _ _ Hc). split; [by exists l0|done]. }
  2:{ rewrite (vbind_retrying _ _ _ _ Hc). split; [by exists l0|done]. }
  rewrite (vbind_run _ _ _ _ _ Hc). destruct m as [m|]; [|by split; [exists l0|]].
  vcall a1. vcall a2. set (l2 := (Strdup, a2) :: (Malloc, a1) :: l0).
  assert (HL2 : log w2 = l2 ++ log w) by (unfold l2; by logs).
  assert (HF2 : Forall (fun x => ~ changes p x) l2) by (do 2 (constructor; [by intros []|]); done).
  destruct (_ || _).
  { destruct (calm_fatal (A := bool) p w2) as (l3 & HL3 & HF3).
    destruct (fatal_log (A := bool) w2) as (_ & _ & K). destruct (@fatal _ bool w2) as [o w3]. cbn [fst snd] in *.
    assert (Hu : exists l, log w3 = l ++ log w /\ Forall (fun x => ~ changes p x) l).
    { exists (l3 ++ l2). rewrite HL3, HL2, app_assoc. split; [done|]. by apply Forall_app. }
    by destruct o; [done|split..]. }
  vcall f. set (l3 := (Mkstemp (p ++ str ".mini-vim-XXXXXX"), f) :: l2).
  assert (HL3 : log w3 = l3 ++ log w) by (unfold l3; by logs).
  assert (HF3 : Forall (fun x => ~ changes p x) l3) by (constructor; [by intros []|done]).
  assert (Hed : ed w3 = ed w0) by congruence.
  unfold document in Hd0. injection Hd0 as Ht Hdi Hpa Hcu Hqu.
  destruct (Z.ltb_spec (t_ret f) 0) as [Hf|Hf]; vfwd.
  { specialize (Hneg1 Hf). rewrite Hn1. apply Z.eqb_neq in Hneg1 as Hz. rewrite Hz. cbn [negb].
    split; [by exists l3|]. intros _. unfold message_, document. cbn. rewrite Hed. congruence. }
  assert (Hne : t_bytes f <> p).
  { intros E. specialize (Hx1 Hf). rewrite E, length_app in Hx1. cbn in Hx1. lia. }
  destruct (write_temporary_spec (t_ret f) m (t_bytes f) p (text (ed w3)) w3 Hne) as (o & w4 & l4 & Hr & HE4 & HL4 & Hcase).
  destruct o as [e| |]; [|done|].
  2:{ rewrite (vbind_retrying _ _ _ _ Hr). split; [|done]. exists (l4 ++ l3). rewrite HL4, HL3, app_assoc.
      split; [done|]. by apply Forall_app. }
  rewrite (vbind_run _ _ _ _ _ Hr). destruct Hcase as [[-> Hs]|[Hnz (a & l' & -> & HF4)]].
  - cbn [Z.eqb negb]. vfwd. unfold message_. vfwd. split.
    + exists (t_ret f), m, (t_bytes f), l3, l4. cbn [log]. rewrite HL4, HL3. repeat split; try done.
      by rewrite Hed, Ht in Hs.
    + unfold document. cbn. rewrite HE4, Hed. congruence.
  - apply Z.eqb_neq in Hnz as Hz. rewrite Hz. cbn [negb]. unfold message_. vfwd. split.
    + exists ((Unlink (t_bytes f), a) :: l' ++ l3). cbn [log]. rewrite HL4, HL3. cbn [app]. rewrite <- app_assoc.
      split; [done|]. constructor; [exact Hne|]. by apply Forall_app.
    + intros _. unfold document. cbn. rewrite HE4, Hed. congruence.
Qed.

End SaveFile.

(** C36: saving never leaves the file half written.  A save that reports success wrote the
    whole text to a temporary file, set its mode, flushed and closed it without an error,
    and only then renamed it over the destination.  A save that fails, or during which
    the process ends or keeps being interrupted, made no call that changes which file the
    name stands for; when it returns, the text and whether it is dirty are what they
    were.  The system is taken to report why a call failed, to fill in the template of
    [mkstemp], and never to answer a write of some bytes with 0, which [write_all] would
    take for an error without an error number. *)
Theorem save_is_atomic {T : Tty} {TL : TtyLaws} (p : cstr) (w w' : world) (o : outcome bool) :
  p <> [] -> save_file (Some p) w = (o, w') ->
  match o with
  | Run true =>
      exists fd m tmp l0 l, tmp <> p /\ log w' = l ++ l0 ++ log w /\
        saved_log fd m tmp p (text (ed w)) l /\ Forall (fun x => ~ changes p x) l0 /\
        text (ed w') = text (ed w) /\ dirty (ed w') = false /\ path (ed w') = Some p
  | _ =>
      (exists l, log w' = l ++ log w /\ Forall (fun x => ~ changes p x) l) /\
      (o = Run false -> text (ed w') = text (ed w) /\ dirty (ed w') = dirty (ed w) /\ path (ed w') = path (ed w))
  end.
Proof.
  intros Hp Hr. pose proof (save_file_spec p w Hp) as H. rewrite Hr in H.
  assert (Hu : untouched p w o w' ->
    (exists l, log w' = l ++ log w /\ Forall (fun x => ~ changes p x) l) /\
    (o = Run false -> text (ed w') = text (ed w) /\ dirty (ed w') = dirty (ed w) /\ path (ed w') = path (ed w))).
  { intros [Hl Hd]. split; [done|]. intros E. specialize (Hd E). unfold document in Hd. by injection Hd as -> -> -> _ _. }
  destruct o as [[|]|c|]; [|by apply Hu..].
  destruct H as [(fd & m & tmp & l0 & l & Hne & Hl & Hs & Hf) Hd]. unfold document in Hd. injection Hd as -> -> -> _ _.
  by exists fd, m, tmp, l0, l.
Qed.

(** ** Quitting *)

Section Quit.
Context {T : Tty} {L : Locale} {TL : TtyLaws}.

(** Since [w0], either the document is the same or there are changes marked as such; the
    editor was not told to quit. *)
Definition edits (w0 w : world) : Prop :=
  quit (ed w) = quit (ed w0) /\
  (dirty (ed w) = true \/ text (ed w) = text (ed w0) /\ dirty (ed w) = dirty (ed w0)).

Lemma edits_refl w : edits w w.
Proof. by split; [|right]. Qed.

Lemma edits_same w0 w w' : edits w0 w -> ed w' = ed w -> edits w0 w'.
Proof. unfold edits. by intros H ->. Qed.

(** An update of another field. *)
Lemma vwp_put_edits w0 f w :
  (forall e, document (set_path None (set_cursor O (f e))) = document (set_path None (set_cursor O e))) ->
  edits w0 w -> vwp (put f) (fun _ w' => edits w0 w') w.
Proof.
  intros Hf H. apply vwp_put. intros w' E _. unfold edits in *. rewrite E. specialize (Hf (ed w)).
  unfold document in Hf. injection Hf as Ht Hd Hq. cbn in *. by rewrite Ht, Hd, Hq.
Qed.

Lemma reserve_edits w0 n w : edits w0 w -> vwp (reserve n) (fun _ w' => edits w0 w') w.
Proof.
  intros H. unfold reserve. vsteps; [done|]. unfold edits in *. ed_eq. ed_cbn. done.
Qed.

Lemma insert_edits w0 b w : edits w0 w -> vwp (insert_byte b) (fun _ w' => edits w0 w') w.
Proof.
  intros H. unfold insert_byte. apply vwp_bind, vwp_get. destruct (_ <=? _).
  { apply vwp_put_edits; [done|exact H]. }
  apply vwp_bind. eapply vwp_mono; [by apply reserve_edits|]. intros ? w1 H1. cbv beta in H1. vsteps.
  unfold edits in *. ed_eq. ed_cbn. destruct H1 as [Hq _]. by split; [|left].
Qed.

Lemma delete_edits w0 a b w : edits w0 w -> vwp (delete_range a b) (fun _ w' => edits w0 w') w.
Proof.
  intros H. unfold delete_range. destruct (a =? b)%nat; [by apply vwp_ret|]. vsteps.
  unfold edits in *. ed_eq. ed_cbn. destruct H as [Hq _]. by split; [|left].
Qed.

End Quit.

Ltac edit_step :=
  match goal with
  | |- vwp (vbind _ _) _ _ => apply vwp_bind
  | |- vwp (vret _) _ _ => apply vwp_ret; try done
  | |- vwp (get _) _ _ => apply vwp_get
  | H : edits _ ?w |- vwp (put _) _ ?w =>
      eapply vwp_mono; [apply vwp_put_edits; [done|exact H]|]; clear H; intros ? ? H; cbv beta in H; try done
  | H : edits _ ?w |- vwp (message_ _) _ ?w =>
      eapply vwp_mono; [apply vwp_put_edits; [done|exact H]|]; clear H; intros ? ? H; cbv beta in H; try done
  | H : edits _ ?w |- vwp (insert_byte _) _ ?w =>
      eapply vwp_mono; [apply insert_edits; exact H|]; clear H; intros ? ? H; cbv beta in H; try done
  | H : edits _ ?w |- vwp (delete_range _ _) _ ?w =>
      eapply vwp_mono; [apply delete_edits; exact H|]; clear H; intros ? ? H; cbv beta in H; try done
  | |- vwp (if ?b then _ else _) _ _ => destruct b
  | |- vwp (let '(_, _) := ?x in _) _ _ => destruct x
  end.
Ltac edit_steps := repeat (edit_step; cbv beta zeta).

Section Quit2.
Context {T : Tty} {L : Locale} {TL : TtyLaws}.

Lemma edit_key_edits w0 key w : edits w0 w -> vwp (edit_key key) (fun _ w' => edits w0 w') w.
Proof. intros H. unfold edit_key, start_insert, delete_line. cbv zeta. edit_steps. Qed.

(** What one key may do to the text, as far as losing it is concerned. *)
Record keeps_text (w w' : world) : Prop := KeepsText {
  kt_marked : text (ed w') <> text (ed w) -> dirty (ed w') = true;
  kt_saved : dirty (ed w) = true -> dirty (ed w') = false ->
    text (ed w') = text (ed w) /\
    exists p fd m tmp l0 l, log w' = l ++ l0 ++ log w /\ saved_log fd m tmp p (text (ed w)) l;
  kt_quit : quit (ed w) = false -> quit (ed w') = true ->
    (command (ed w) = str "q!" \/ dirty (ed w') = false) /\ text (ed w') = text (ed w)
}.

Lemma edits_keeps w w' : edits w w' -> keeps_text w w'.
Proof.
  intros [Hq Hd]. split.
  - intros Ht. destruct Hd as [?|[? _]]; congruence.
  - intros H1 H2. destruct Hd as [?|[_ ?]]; congruence.
  - congruence.
Qed.

(** The result of a save, for the keys that start one. *)
Lemma vwp_save p w : vwp (save_file p) (fun b w' =>
  document (ed w') = document (ed w) /\ b = false \/ b = true /\ exists q, replaced q w w') w.
Proof.
  destruct p as [p|]; [destruct (decide (p = [])) as [->|Hp]|].
  - unfold save_file. vsteps. left. ed_eq. done.
  - pose proof (save_file_spec p w Hp) as H. unfold vwp. revert H.
    destruct (save_file (Some p) w) as [[[|]|code|] w']; cbn [fst snd]; intros H; [right|left|done|done].
    + split; [done|]. by exists p.
    + destruct H as [_ H]. split; [|done]. by apply H.
  - unfold save_file. vsteps. left. ed_eq. done.
Qed.

Lemma replaced_keeps w w1 w' q b :
  document (ed w1) = document (ed w) -> log w1 = log w -> replaced q w1 w' ->
  forall w2, ed w2 = set_quit b (ed w') -> log w2 = log w' -> keeps_text w w2.
Proof.
  intros Hd Hl [(fd & m & tmp & l0 & l & _ & Hlog & Hs & _) Hdoc] w2 E2 G2.
  unfold document in *. injection Hd as Ht Hdi Hp Hc Hq. injection Hdoc as Ht' Hdi' Hp' Hc' Hq'.
  split; rewrite E2; ed_cbn.
  - congruence.
  - intros _ _. split; [congruence|]. exists q, fd, m, tmp, l0, l. rewrite G2, Hlog, Hl. by rewrite <- Ht.
  - intros _ _. split; [by right|congruence].
Qed.

Lemma same_keeps w w' : document (ed w') = document (ed w) -> keeps_text w w'.
Proof. unfold document. intros [= Ht Hd Hp Hc Hq]. split; congruence. Qed.

Lemma run_command_keeps w : vwp run_command (fun _ w' => keeps_text w w') w.
Proof.
  unfold run_command. apply vwp_bind, vwp_get, vwp_bind, vwp_put. intros w1 E1 G1.
  assert (Hd1 : document (ed w1) = document (ed w)) by (by rewrite E1).
  destruct (streq _ (str "q!")) eqn:Eq.
  { apply streq_true in Eq. vsteps. split; ed_eq; ed_cbn; try done; try congruence. intros _ _. by split; [left|]. }
  destruct (streq _ (str "q")).
  { apply vwp_bind, vwp_get. destruct (dirty (ed w1)) eqn:Hdi.
    - vsteps. apply same_keeps. by ed_eq.
    - vsteps. rewrite E1 in Hdi. ed_cbn_all. split; ed_eq; ed_cbn; try done; try congruence.
      intros _ _. by split; [right|]. }
  destruct (_ || _).
  { apply vwp_bind, vwp_get, vwp_bind. eapply vwp_mono; [apply vwp_save|]. intros b w2 H2. cbv beta.
    destruct H2 as [[Hd2 ->]|[-> [q Hr]]].
    - cbn [andb]. vsteps. apply same_keeps. congruence.
    - cbn [andb]. destruct (_ =? _).
      + vsteps. by eapply (replaced_keeps w w1 w2 q true).
      + vsteps. eapply (replaced_keeps w w1 w2 q (quit (ed w2))); try done. by destruct (ed w2). }
  destruct (streq _ (str "w ")).
  { apply vwp_bind. eapply vwp_mono; [apply vwp_save|]. intros b w2 H2. vsteps.
    destruct H2 as [[Hd2 ->]|[-> [q Hr]]]; [apply same_keeps; congruence|].
    eapply (replaced_keeps w w1 w2 q (quit (ed w2))); try done. by destruct (ed w2). }
  destruct (streq _ _); vsteps; apply same_keeps; ed_eq; done.
Qed.

End Quit2.

Section Keys.
Context {T : Tty} {L : Locale} {TL : TtyLaws}.

Lemma handle_key_keeps key w : vwp (handle_key key) (fun _ w' => keeps_text w w') w.
Proof.
  assert (Hedit : forall m : V unit, vwp m (fun _ w' => edits w w') w -> vwp m (fun _ w' => keeps_text w w') w).
  { intros m Hm. eapply vwp_mono; [exact Hm|]. intros ? w1. apply edits_keeps. }
  pose proof (edits_refl w) as H0. unfold handle_key.
  destruct (key =? KEY_PASTE_BEGIN); [apply Hedit; edit_steps|].
  destruct (key =? KEY_PASTE_END); [apply Hedit; edit_steps|].
  apply vwp_bind, vwp_get. destruct (paste (ed w)); [apply Hedit; unfold paste_key; edit_steps|].
  destruct (_ || _); [apply Hedit; edit_steps|].
  destruct (bool_decide _).
  - unfold command_key. apply vwp_bind, vwp_get.
    destruct (_ || _); [apply run_command_keeps|apply Hedit; edit_steps].
  - apply Hedit. apply vwp_bind. eapply vwp_mono; [by apply edit_key_edits|]. intros b w1 H1. cbv beta in *. edit_steps.
Qed.
End Keys.

(** C37: the editor does not lose text behind the user's back.  After any key that is
    handled: a changed text is marked as unsaved; the mark only disappears because that
    very text was written out and renamed into place; and the editor is only told to quit
    when there is nothing unsaved or the command was "q!".  A key ends the process itself
    only with a failure, after the system refused the memory for the text or for the path
    or could not examine the trace file - text that was not saved is then lost - and it
    never returns only while one of its calls is interrupted every time. *)
Theorem keys_lose_no_text {T : Tty} {L : Locale} {TL : TtyLaws} (key : Z) (w : world) :
  let '(o, w') := handle_key key w in
  match o with
  | Run _ => keeps_text w w'
  | Exited code =>
      code = EXIT_FAILURE /\
      exists l c a, log w' = l ++ log w /\ In (c, a) l /\ t_ret a < 0 /\
        match c with Realloc _ | Malloc | Strdup | FstatTrace => True | _ => False end
  | Retrying => spinning w'
  end.
Proof.
  pose proof (handle_key_keeps key w) as H. pose proof (waits_handle_key key w) as Hw. unfold vwp in H.
  destruct (stops_handle_key key w) as (l & Hl & K). destruct (handle_key key w) as [o w']. cbn [fst snd] in *.
  destruct o as [u|code|]; [exact H| |by apply Hw]. destruct K as [-> K]. split; [done|].
  apply List.Exists_exists in K as ([c a] & Hin & He & Ha). exists l, c, a. split_and!; [done..|].
  unfold essential in He. by destruct c.
Qed.
