(* ===== verification/VimDraw.v ===== *)
(** * VimDraw: what the editor asks its backend to draw

    backend.h states the contract between the editor and the three backends:
    coordinates are one-based, and text is already sanitized and clipped. *)

From Stdlib Require Import String.
From stdpp Require Import base list numbers.
From S2P Require Import Prelude CString VimText Vim VimSpec.

Local Open Scope Z_scope.

(** Two more facts about characters: those of ASCII are their own codes and one column
    wide, and a character is recognised from its own bytes alone. *)
Class DisplayLaws {L : Locale} : Prop := {
  mb_ascii : forall c l, 32 <= c < 127 -> mbrtowc (c :: l) = Some (1%nat, c) /\ wcwidth c = 1;
  mb_stable : forall l n wc, mbrtowc l = Some (n, wc) -> mbrtowc (take n l) = Some (n, wc)
}.

Section Draw.
Context {L : Locale} {LL : LocaleLaws} {DL : DisplayLaws}.

Definition is_bytes (l : list Z) : Prop := Forall (fun c => 0 <= c < 256) l.
Definition plain (l : list Z) : Prop := Forall (fun c => is_control c = false) l.

(** The columns a terminal gives to some text. *)
Fixpoint width_loop (fuel : nat) (b : list Z) (column : nat) : nat :=
  match fuel, b with
  | S fuel', _ :: _ => let '(n, w) := glyph b column in (w + width_loop fuel' (drop n b) (column + w))%nat
  | _, _ => O
  end.
Definition text_width (b : list Z) : nat := width_loop (length b) b 0.

(** ** The contract *)

(** Text without control bytes, and positions on the screen. *)
Definition sane (rows cols : Z) (d : draw) : Prop :=
  match d with
  | DText b => plain b
  | DPosition r c => 1 <= r <= rows /\ 1 <= c <= cols
  | _ => True
  end.

(** No text runs past the last column; [pen] is the column the next one starts in. *)
Fixpoint clipped (cols pen : Z) (ds : list draw) : Prop :=
  match ds with
  | [] => True
  | DPosition _ c :: r => clipped cols c r
  | DText b :: r => pen + Z.of_nat (text_width b) <= cols /\ clipped cols (pen + Z.of_nat (text_width b)) r
  | _ :: r => clipped cols pen r
  end.

(** ** One character *)

Lemma glyph_ascii c l col : 32 <= c < 127 -> glyph (c :: l) col = (1%nat, 1%nat).
Proof.
  intros H. unfold glyph. cbn [hd]. destruct (Z.ltb_spec c 32); [lia|].
  destruct (Z.eqb_spec c DEL); [unfold DEL in *; lia|]. cbn [orb].
  destruct (mb_ascii c l H) as [-> ->]. done.
Qed.

Lemma width_ascii b : Forall (fun c => 32 <= c < 127) b -> forall fuel col,
  (length b <= fuel)%nat -> width_loop fuel b col = length b.
Proof.
  induction 1 as [|c b Hc _ IH]; intros fuel col Hf; destruct fuel as [|fuel]; cbn [length] in Hf; try lia; try done.
  cbn [width_loop length]. rewrite glyph_ascii by done. cbn [skipn]. rewrite IH by lia. lia.
Qed.

Lemma text_width_ascii b : Forall (fun c => 32 <= c < 127) b -> text_width b = length b.
Proof. intros H. by apply width_ascii. Qed.

Lemma plain_ascii b : Forall (fun c => 32 <= c < 127) b -> plain b.
Proof. apply Forall_impl. intros c H. unfold is_control, DEL. apply orb_false_iff. split; [apply Z.ltb_ge|apply Z.eqb_neq]; lia. Qed.

(** Draws that are texts only, [n] columns wide together. *)
Inductive texts : nat -> list draw -> Prop :=
  | texts_nil : texts 0 []
  | texts_cons b n ds : plain b -> texts n ds -> texts (text_width b + n) (DText b :: ds).

Lemma texts_app m n a b : texts m a -> texts n b -> texts (m + n) (a ++ b).
Proof. induction 1; intros Hb; [done|]. rewrite <- Nat.add_assoc. cbn [app]. constructor; auto. Qed.

Lemma texts_one b n : plain b -> text_width b = n -> texts n [DText b].
Proof. intros Hb <-. rewrite <- (Nat.add_0_r (text_width b)). by repeat constructor. Qed.

Lemma texts_ascii b : Forall (fun c => 32 <= c < 127) b -> texts (length b) [DText b].
Proof. intros H. apply texts_one; [by apply plain_ascii|by apply text_width_ascii]. Qed.

Lemma texts_spaces n : texts n (replicate n (DText [32])).
Proof.
  induction n as [|n IH]; [constructor|]. cbn [replicate].
  apply (texts_app 1 n [_]); [|done]. apply (texts_ascii [32]). by repeat constructor.
Qed.

Lemma texts_sane rows cols n ds : texts n ds -> Forall (sane rows cols) ds.
Proof. induction 1; by constructor. Qed.

Lemma texts_clipped cols n ds r : texts n ds -> forall pen,
  pen + Z.of_nat n <= cols -> (forall pen', clipped cols pen' r) -> clipped cols pen (ds ++ r).
Proof.
  induction 1 as [|b n ds Hb Ht IH]; intros pen Hp Hr; [apply Hr|]. cbn [app clipped].
  split; [lia|]. apply IH; [lia|done].
Qed.

Lemma hex_ascii n : 0 <= n < 16 -> 32 <= hex n < 127.
Proof. intros H. unfold hex. destruct (Z.ltb_spec n 10); lia. Qed.

(** A character that is drawn takes the columns [glyph] announced for it. *)
Lemma draw_glyph_texts c l column n width :
  0 <= c < 256 -> glyph (c :: l) column = (n, width) -> texts width (draw_glyph (c :: l) n width).
Proof.
  intros Hc. unfold glyph, draw_glyph. cbn [hd].
  destruct (Z.eqb_spec c TAB) as [->|Htab].
  { intros [= <- <-]. apply texts_spaces. }
  destruct ((c <? 32) || (c =? DEL)) eqn:Hctl.
  { intros [= <- <-]. apply (texts_ascii [_; _]). apply orb_true_iff in Hctl.
    destruct (Z.eqb_spec c DEL) as [->|Hd]; [by repeat constructor|].
    destruct Hctl as [Hl|]; [apply Z.ltb_lt in Hl|done]. repeat constructor; cbn; lia. }
  assert (Hx : 128 <= c -> texts 4 [DText [chr "\"; chr "x"; hex (c / 16); hex (c mod 16)]]).
  { intros Hh. apply (texts_ascii [_; _; _; _]). pose proof (Z.mod_pos_bound c 16).
    assert (0 <= c / 16 < 16) by (split; [apply Z.div_pos|apply Z.div_lt_upper_bound]; lia).
    repeat constructor; try (apply hex_ascii; lia); done. }
  pose proof Hctl as Hp. apply orb_false_iff in Hctl as [H32 Hd]. apply Z.ltb_ge in H32. apply Z.eqb_neq in Hd.
  destruct (mbrtowc (c :: l)) as [[k wc]|] eqn:E; intros [= <- <-].
  - destruct ((_ =? 4)%nat && _ && _) eqn:E4.
    { apply andb_true_iff in E4 as [E4 Hh]. apply andb_true_iff in E4 as [E4 _].
      apply Nat.eqb_eq in E4. rewrite E4. apply Hx. by apply Z.leb_le. }
    rewrite (mb_stable _ _ _ E). destruct (Z.ltb_spec (wcwidth wc) 0).
    { apply (texts_ascii [_]). by repeat constructor. }
    apply texts_one; [by apply mb_plain with wc|].
    pose proof (mb_some _ _ _ E) as Hk. unfold text_width.
    rewrite length_take, Nat.min_l by lia. destruct k as [|k]; [lia|]. cbn [take].
    cbn [width_loop]. unfold glyph. cbn [hd]. rewrite Hp. pose proof (mb_stable _ _ _ E) as Es.
    cbn [take] in Es. rewrite Es. destruct (Z.ltb_spec (wcwidth wc) 0); [lia|].
    rewrite drop_ge by (cbn [length] in *; rewrite length_take; lia). by destruct k; cbn; rewrite Nat.add_0_r.
  - cbn [Nat.eqb andb]. destruct (Z.leb_spec 128 c); [by apply Hx|].
    exfalso. destruct (mb_ascii c l) as [Ea _]; [unfold DEL in *; lia|]. by rewrite Ea in E.
Qed.

(** ** A stretch of text *)

Lemma draw_loop_texts fuel : forall data lft columns column, is_bytes data ->
  exists n, texts n (draw_loop fuel data lft columns column) /\
    (n <= lft + columns - Nat.max lft column)%nat.
Proof.
  induction fuel as [|fuel IH]; intros data lft columns column Hb; cbn [draw_loop].
  { exists O. split; [constructor|lia]. }
  destruct data as [|c l]; [exists O; split; [constructor|lia]|]. cbn [length Nat.ltb negb orb].
  change (0 <? S (length l))%nat with true. cbn [negb orb].
  destruct (Nat.ltb_spec column (lft + columns)) as [Hcol|]; [|exists O; split; [constructor|lia]].
  cbn [negb]. destruct (glyph (c :: l) column) as [n width] eqn:Eg.
  destruct (IH (drop n (c :: l)) lft columns (column + width)%nat (Forall_drop _ _ _ Hb)) as (m & Hm & Hle).
  inversion Hb as [|? ? Hc Hl']; subst.
  destruct (Nat.leb_spec lft column) as [H1|H1]; cbn [andb];
    [destruct (Nat.leb_spec (column + width) (lft + columns)) as [H2|H2]|].
  - exists (width + m)%nat. split; [apply texts_app; [by apply (draw_glyph_texts c l column)|done]|lia].
  - destruct (Nat.ltb_spec lft (column + width)); [|lia]. cbn [andb].
    destruct (Nat.ltb_spec column lft); [lia|]. destruct (Nat.ltb_spec (lft + columns) (column + width)); [|lia].
    exists (lft + columns - column + m)%nat. split; [apply texts_app; [apply texts_spaces|done]|lia].
  - destruct (Nat.ltb_spec lft (column + width)) as [H3|H3]; cbn [andb]; [|exists m; split; [done|lia]].
    destruct (Nat.ltb_spec column lft); [|lia].
    eexists. split; [apply texts_app; [apply texts_spaces|exact Hm]|].
    destruct (Nat.ltb_spec (lft + columns) (column + width)); lia.
Qed.

Lemma draw_text_texts data lft columns : is_bytes data ->
  exists n, texts n (draw_text data lft columns) /\ (n <= columns)%nat.
Proof.
  intros Hb. destruct (draw_loop_texts (length data) data lft columns 0 Hb) as (n & Hn & Hle).
  exists n. split; [done|lia].
Qed.

(** ** The frame *)

(** Part of a frame that keeps the contract, wherever the cursor was before it. *)
Definition drawable (rows cols : Z) (ds : list draw) : Prop :=
  Forall (sane rows cols) ds /\
  forall pen r, (forall pen', clipped cols pen' r) -> clipped cols pen (ds ++ r).

Lemma drawable_app rows cols a b : drawable rows cols a -> drawable rows cols b -> drawable rows cols (a ++ b).
Proof.
  intros [Ha1 Ha2] [Hb1 Hb2]. split; [by apply Forall_app|].
  intros pen r Hr. rewrite <- app_assoc. apply Ha2. intros pen'. by apply Hb2.
Qed.

Lemma drawable_nil rows cols : drawable rows cols [].
Proof. by split. Qed.

(** A draw that shows nothing. *)
Definition quiet (d : draw) : Prop :=
  match d with DText _ | DPosition _ _ => False | _ => True end.

Lemma drawable_quiet rows cols d : quiet d -> drawable rows cols [d].
Proof. intros Hd. split; [by constructor; [destruct d|constructor]|]. intros pen r Hr. destruct d; try done; apply Hr. Qed.

Lemma drawable_position rows cols r c : 1 <= r <= rows -> 1 <= c <= cols -> drawable rows cols [DPosition r c].
Proof. intros Hr Hc. split; [constructor; [done|constructor]|]. intros pen ds Hds. apply Hds. Qed.

(** A row that is written from its first column on. *)
Lemma drawable_row rows cols r pre n ds :
  1 <= r <= rows -> 1 <= cols -> Forall quiet pre -> texts n ds -> Z.of_nat n <= cols - 1 ->
  drawable rows cols (DPosition r 1 :: pre ++ ds).
Proof.
  intros Hr Hc Hpre Hds Hn. split.
  - constructor; [cbn; lia|]. apply Forall_app. split; [|by apply (texts_sane _ _ n)].
    eapply Forall_impl; [|exact Hpre]. by intros [].
  - intros pen rest Hrest. cbn [app clipped]. rewrite <- app_assoc.
    assert (H1 : clipped cols 1 (ds ++ rest)) by (apply (texts_clipped _ n); [done|lia|done]).
    revert H1. generalize (ds ++ rest). intros tl Htl.
    induction Hpre as [|d pre Hd _ IH]; [done|]. by destruct d.
Qed.

Lemma drawable_text rows cols r pre data lft columns :
  1 <= r <= rows -> 1 <= cols -> Forall quiet pre -> is_bytes data -> Z.of_nat columns <= cols - 1 ->
  drawable rows cols (DPosition r 1 :: pre ++ draw_text data lft columns).
Proof.
  intros Hr Hc Hpre Hb Hn. destruct (draw_text_texts data lft columns Hb) as (n & Ht & Hle).
  apply (drawable_row _ _ _ _ n); try done. lia.
Qed.

Lemma draw_lines_drawable rows cols t lft width : is_bytes t -> 2 <= cols -> Z.of_nat width <= cols - 1 ->
  forall height y p, 0 <= y -> y + Z.of_nat height <= rows ->
  drawable rows cols (draw_lines height y t p lft width).
Proof.
  intros Hb Hc Hw. induction height as [|h IH]; intros y p Hy Hh; cbn [draw_lines]; [apply drawable_nil|].
  destruct (p <=? length t)%nat.
  - rewrite app_assoc. apply drawable_app; [|apply IH; lia].
    apply (drawable_text _ _ _ [DEraseLine]); [lia|lia|by repeat constructor| |done].
    by apply Forall_take, Forall_drop.
  - rewrite app_assoc. apply drawable_app; [|apply IH; lia].
    apply (drawable_app _ _ [_; _; _; _] [_]); [|by apply drawable_quiet].
    apply (drawable_row _ _ _ [DEraseLine; DStyle STYLE_CYAN] 1 [_]); [lia|lia|by repeat constructor| |lia].
    apply (texts_ascii (str "~")). by repeat constructor.
Qed.

(** The scroll position shows the line, and changes only when it has to. *)
Lemma scroll_shows first at_ size : (1 <= size)%nat ->
  (scroll first at_ size <= at_ < scroll first at_ size + size)%nat /\
  ((first <= at_ < first + size)%nat -> scroll first at_ size = first).
Proof.
  intros Hs. unfold scroll. destruct (Nat.ltb_spec at_ first);
    [destruct (Nat.leb_spec (at_ + size) at_)|destruct (Nat.leb_spec (first + size) at_)]; lia.
Qed.

Lemma is_bytes_str s : is_bytes (str s).
Proof.
  unfold is_bytes, str. apply Forall_map, List.Forall_forall. intros c _. pose proof (Ascii.N_ascii_bounded c). lia.
Qed.

Lemma is_bytes_digits fuel : forall z acc, is_bytes acc -> is_bytes (dec_digits fuel z acc).
Proof.
  induction fuel as [|fuel IH]; intros z acc Ha; cbn [dec_digits]; [done|].
  assert (H : is_bytes (48 + z mod 10 :: acc)).
  { constructor; [|done]. pose proof (Z.mod_pos_bound z 10). lia. }
  destruct (z <? 10); auto.
Qed.

Lemma is_bytes_dec z : is_bytes (dec z).
Proof.
  unfold dec. destruct (z <? 0); [constructor; [cbn; lia|]|]; apply is_bytes_digits; constructor.
Qed.

Lemma is_bytes_status e row column : is_bytes (status_line e row column).
Proof.
  unfold status_line. apply Forall_take.
  repeat (apply Forall_app; split); try apply is_bytes_str; try apply is_bytes_dec.
  - destruct (mode e); apply is_bytes_str.
  - destruct (dirty e); apply is_bytes_str.
Qed.

(** The message line and the command line. *)
Lemma foot_drawable e row column top' left' height width :
  is_bytes (message e) -> Forall (fun c => 32 <= c < 127) (command e) ->
  (top' <= row < top' + height)%nat -> (left' <= column < left' + width)%nat ->
  Z.of_nat height = rows e - 2 -> Z.of_nat width = cols e - 1 -> (11 <= width)%nat ->
  let visible := (width - 1)%nat in
  let offset := if (visible <? length (command e))%nat then (length (command e) - visible)%nat else 0%nat in
  drawable (rows e) (cols e)
    ([DPosition (rows e) 1; DEraseLine] ++
     if bool_decide (mode e = COMMAND) then
       DText (str ":") :: draw_text (drop offset (command e)) 0 visible ++
       [DPosition (rows e) (Z.of_nat (length (command e) - offset) + 2)]
     else
       draw_text (message e) 0 width ++
       [DPosition (Z.of_nat (row - top') + 1) (Z.of_nat (column - left') + 1)]).
Proof.
  intros Hm Hcmd Ht Hl Hh Hw H11 visible offset. case_bool_decide.
  - rewrite app_comm_cons, app_assoc. apply drawable_app.
    + destruct (draw_text_texts (drop offset (command e)) 0 visible) as (n & Hn & Hle).
      { apply Forall_drop. eapply Forall_impl; [|exact Hcmd]. cbn. lia. }
      apply (drawable_row _ _ _ [DEraseLine] (1 + n)); [lia|lia|by repeat constructor| |lia].
      apply (texts_app 1 n [_]); [|done]. apply (texts_ascii (str ":")). by repeat constructor.
    + apply drawable_position; [lia|]. unfold offset, visible. destruct (Nat.ltb_spec (width - 1) (length (command e))); lia.
  - rewrite app_assoc. apply drawable_app; [|apply drawable_position; lia].
    apply (drawable_text _ _ _ [DEraseLine]); [lia|lia|by repeat constructor|done|lia].
Qed.

End Draw.

(** C39: the editor keeps the contract of backend.h.  Whatever bytes the text and the message
    hold, control bytes and broken characters among them, the text handed to the backend
    has no control byte in it, it never runs past the last column but one, and every
    position is on the screen; the rows and columns shown include the cursor, and the
    window only moves when the cursor would otherwise be outside. *)
Theorem draw_keeps_contract {L : Locale} {LL : LocaleLaws} {DL : DisplayLaws} (e : editor) :
  editor_ok e -> is_bytes (text e) -> is_bytes (message e) -> 1 <= rows e -> 1 <= cols e ->
  let '(frame, e') := draw_frame e in
  Forall (sane (rows e) (cols e)) frame /\ clipped (cols e) 1 frame /\
  (3 <= rows e -> 12 <= cols e ->
   let row := row_of (text e) (cursor e) in
   let column := cursor_column (text e) (cursor e) in
   let height := Z.to_nat (rows e - 2) in
   let width := Z.to_nat (cols e - 1) in
   ((top e' <= row < top e' + height)%nat /\ (left e' <= column < left e' + width)%nat) /\
   ((top e <= row < top e + height)%nat -> top e' = top e) /\
   ((left e <= column < left e + width)%nat -> left e' = left e)).
Proof.
  intros Hok Ht Hm Hr Hc. unfold draw_frame.
  set (row := row_of (text e) (cursor e)). set (column := cursor_column (text e) (cursor e)).
  assert (Hend : forall ds, drawable (rows e) (cols e) ds -> Forall (sane (rows e) (cols e)) ds /\ clipped (cols e) 1 ds).
  { intros ds [H1 H2]. split; [done|]. rewrite <- (app_nil_r ds). by apply H2. }
  destruct ((rows e <? 3) || (cols e <? 12)) eqn:Hs.
  - split; [|split; [|intros; apply orb_true_iff in Hs as [?%Z.ltb_lt|?%Z.ltb_lt]; lia]]; apply Hend.
    all: apply (drawable_app _ _ [_]); [by apply drawable_quiet|].
    all: apply (drawable_app _ _ (DPosition 1 1 :: [DEraseScreen] ++ _) [_]); [|by apply drawable_quiet].
    all: apply drawable_text; [lia|lia|by repeat constructor|apply is_bytes_str|lia].
  - apply orb_false_iff in Hs as [H3%Z.ltb_ge H12%Z.ltb_ge].
    set (height := Z.to_nat (rows e - 2)). set (width := Z.to_nat (cols e - 1)).
    destruct (scroll_shows (top e) row height) as [Htop Htop0]; [lia|].
    destruct (scroll_shows (left e) column width) as [Hleft Hleft0]; [lia|].
    set (top' := scroll (top e) row height) in *. set (left' := scroll (left e) column width) in *.
    apply and_assoc. split; [|intros _ _; ed_cbn; tauto]. apply Hend.
    apply (drawable_app _ _ [_]); [by apply drawable_quiet|].
    apply drawable_app; [apply draw_lines_drawable; [done|lia|lia|lia|lia]|].
    rewrite app_assoc. apply drawable_app.
    { apply (drawable_text _ _ _ [DStyle STYLE_STATUS; DEraseLine]); [lia|lia|by repeat constructor|apply is_bytes_status|lia]. }
    apply (drawable_app _ _ [_] (_ :: _)); [by apply drawable_quiet|].
    apply (drawable_app _ _ ([_; _] ++ _) [_]); [|by apply drawable_quiet].
    by apply (foot_drawable e row column top' left' height width); try lia; try apply (ok_chars _ Hok).
Qed.
