(* ===== verification/VimTerm.v ===== *)
(** * VimTerm: the terminal is given back as it was found *)

From Stdlib Require Import String.
From stdpp Require Import base list numbers.
From S2P Require Import Prelude CString VimText Vim VimSpec VimEnds.

Local Open Scope Z_scope.
Local Open Scope vim_scope.

Section Terminal.
Context {T : Tty}.

Definition sets_attr (c : tcall) : bool := match c with Tcsetattr _ => true | _ => false end.

(** No call of the log sets attributes. *)
Definition no_set (l : list (tcall * tanswer)) : Prop := Forall (fun x => sets_attr (fst x) = false) l.

(** [tcgetattr] gave the attributes [t], and none had been set before it. *)
Definition found (t : termios) (l : list (tcall * tanswer)) : Prop :=
  exists g after before, l = after ++ (Tcgetattr, g) :: before /\ 0 <= t_ret g /\ t_termios g = t /\ no_set before.

(** The last call that sets attributes set [t]: it succeeded, or failed for a reason
    other than a signal. *)
Definition set_last (t : termios) (l : list (tcall * tanswer)) : Prop :=
  exists a after before, l = after ++ (Tcsetattr t, a) :: before /\ no_set after /\
    (0 <= t_ret a \/ t_errno a <> EINTR).

Lemma found_app t l0 l : found t l -> found t (l0 ++ l).
Proof. intros (g & af & be & -> & H). exists g, (l0 ++ af), be. by rewrite app_assoc. Qed.

Lemma set_last_app t l0 l : no_set l0 -> set_last t l -> set_last t (l0 ++ l).
Proof.
  intros H0 (a & af & be & -> & Ha & Hr). exists a, (l0 ++ af), be. rewrite app_assoc. split; [done|].
  split; [by apply Forall_app|done].
Qed.

(** Before the function that restores the terminal is registered nothing was changed;
    once the attributes have been [read] they are kept in [saved_termios], and a
    terminal that is not marked as changed has them. *)
Record term_ok (read : bool) (w : world) : Prop := TermOk {
  to_before : atexit w = false -> terminal_active (ed w) = false /\ no_set (log w);
  to_read : atexit w = true -> read = true;
  to_saved : read = true -> found (saved_termios (ed w)) (log w);
  to_restored : terminal_active (ed w) = false -> no_set (log w) \/ set_last (saved_termios (ed w)) (log w)
}.

(** A computation that keeps this, and ends the process only with the terminal restored. *)
Definition keeps {A} (m : V A) : Prop := forall read w, term_ok read w ->
  match fst (m w) with
  | Run _ => term_ok read (snd (m w)) /\ atexit (snd (m w)) = atexit w
  | Exited _ => term_ok read (snd (m w)) /\ terminal_active (ed (snd (m w))) = false
  | Retrying => True
  end.

Lemma keeps_vret {A} (a : A) : keeps (vret a).
Proof. done. Qed.

Lemma keeps_vbind {A B} (m : V A) (k : A -> V B) : keeps m -> (forall a, keeps (k a)) -> keeps (vbind m k).
Proof.
  intros Hm Hk rd w Hw. specialize (Hm rd w Hw). unfold vbind, bind. destruct (m w) as [[a|c|] w1]; [|done..].
  cbn [fst snd] in Hm. destruct Hm as [H1 H2]. specialize (Hk a rd w1 H1).
  destruct (fst (k a w1)); [|done..]. by rewrite <- H2.
Qed.

(** A step that leaves the terminal's fields alone and sets no attributes. *)
Lemma term_ok_frame read w w' l :
  atexit w' = atexit w -> terminal_active (ed w') = terminal_active (ed w) ->
  saved_termios (ed w') = saved_termios (ed w) -> log w' = l ++ log w -> no_set l ->
  term_ok read w -> term_ok read w'.
Proof.
  intros Ha Ht Hs Hl Hla [H1 H0 H2 H3]. split; rewrite ?Ha, ?Ht, ?Hs, ?Hl; try done.
  - intros E. destruct (H1 E). split; [done|by apply Forall_app].
  - intros E. by apply found_app, H2.
  - intros E. destruct (H3 E); [left; by apply Forall_app|right; by apply set_last_app].
Qed.

Lemma keeps_get {A} (f : editor -> A) : keeps (get f).
Proof. done. Qed.

Lemma keeps_errno : keeps get_errno.
Proof. done. Qed.

Lemma keeps_set_errno e : keeps (set_errno e).
Proof. intros rd w Hw. split; [|done]. apply (term_ok_frame _ w _ []); try done; by constructor. Qed.

Lemma keeps_put f :
  (forall e, terminal_active (f e) = terminal_active e /\ saved_termios (f e) = saved_termios e) -> keeps (put f).
Proof. intros Hf rd w Hw. destruct (Hf (ed w)). split; [|done]. apply (term_ok_frame _ w _ []); try done; by constructor. Qed.

Lemma keeps_sys c : sets_attr c = false -> keeps (sys c).
Proof.
  intros Hc rd w Hw. unfold sys, lift, bind, call. destruct (tty_step (tty w) c) as [a t]. split; [|done].
  apply (term_ok_frame _ w _ [(c, a)]); try done. by constructor.
Qed.

Lemma keeps_uninterrupted fuel c : sets_attr c = false -> keeps (uninterrupted fuel c).
Proof.
  intros Hc. induction fuel as [|fuel IH]; cbn [uninterrupted]; [done|].
  apply keeps_vbind; [by apply keeps_sys|]. intros a. apply keeps_vbind; [apply keeps_errno|]. intros e.
  by destruct (_ && _).
Qed.

Lemma keeps_write_all fd data : keeps (write_all fd data).
Proof.
  unfold write_all. generalize (length data). intros fuel. revert data.
  induction fuel as [|fuel IH]; intros data; destruct data as [|b data]; try (by apply keeps_vret); [done|].
  cbn [write_all_loop]. apply keeps_vbind; [by apply keeps_uninterrupted|]. intros a. by destruct (_ <=? _).
Qed.

(** Setting attributes until no signal interrupts it. *)
Lemma set_attributes fuel t w : let '(o, w') := uninterrupted fuel (Tcsetattr t) w in
  ed w' = ed w /\ atexit w' = atexit w /\
  exists l, log w' = l ++ log w /\ (match o with Run _ => set_last t (log w') | Exited _ => False | Retrying => True end).
Proof.
  revert w. induction fuel as [|fuel IH]; intros w; cbn [uninterrupted]; [by repeat split; exists []|].
  unfold vbind at 1, bind at 1, sys, lift, bind, call. destruct (tty_step _ _) as [a y]. cbn [fst snd ret].
  rewrite vbind_errno. cbn [errno]. set (w1 := World _ _ _ _ _ _). specialize (IH w1).
  destruct (Z.ltb_spec (t_ret a) 0) as [Ha|Ha]; cbn [andb]; [destruct (Z.eqb_spec (t_errno a) EINTR) as [Hi|Hi]|].
  - destruct (uninterrupted fuel _ w1) as [o w2]. destruct IH as (H1 & H2 & l & Hl & K). split; [done|].
    split; [done|]. exists (l ++ [(Tcsetattr t, a)]). rewrite <- app_assoc. by split; [|destruct o].
  - split; [done|]. split; [done|]. exists [(Tcsetattr t, a)]. split; [done|]. exists a, [], (log w).
    split; [done|]. split; [by constructor|by right].
  - split; [done|]. split; [done|]. exists [(Tcsetattr t, a)]. split; [done|]. exists a, [], (log w).
    split; [done|]. split; [by constructor|by left].
Qed.

(** The terminal after [terminal_restore]. *)
Lemma keeps_restore : keeps terminal_restore.
Proof.
  intros rd w Hw. unfold terminal_restore. rewrite vbind_get. destruct (terminal_active (ed w)) eqn:Ha; [|done].
  cbn [negb]. rewrite vbind_put. set (w1 := World _ _ _ _ _ _).
  pose proof (set_attributes patience (saved_termios (ed w)) w1) as Hs.
  destruct (uninterrupted patience _ w1) as [[a|c|] w2] eqn:E; destruct Hs as (H1 & H2 & l & Hl & K);
    [|done|by rewrite (vbind_retrying _ _ _ _ E)].
  rewrite (vbind_run _ _ _ _ _ E). change (atexit w) with (atexit w1). rewrite <- H2.
  assert (Hat : atexit w = true) by (destruct (atexit w) eqn:Eq; [done|]; destruct (to_before _ w Hw Eq); congruence).
  assert (H3 : term_ok rd w2).
  { split; rewrite ?H2, ?H1; unfold w1; cbn [atexit ed]; ed_cbn; try congruence.
    - apply (to_read _ w Hw).
    - intros Er. rewrite Hl. apply found_app. by apply (to_saved _ w Hw).
    - intros _. by right. }
  apply keeps_vbind; [apply keeps_write_all|intros _|exact H3].
  apply keeps_vbind; [apply keeps_write_all|intros _]. apply keeps_vret.
Qed.

(** ... is not marked as changed. *)
Lemma restore_inactive w : vwp terminal_restore (fun _ w' => terminal_active (ed w') = false) w.
Proof.
  unfold terminal_restore. apply vwp_bind, vwp_get. destruct (terminal_active (ed w)) eqn:Ha; [|by apply vwp_ret].
  cbn [negb]. apply vwp_bind, vwp_put. intros w1 E1 _. apply vwp_bind, vwp_uninterrupted. intros a w2 E2.
  apply vwp_bind, vwp_write_all. intros r w3 E3. apply vwp_bind, vwp_write_all. intros r2 w4 E4.
  apply vwp_ret. rewrite E4, E3, E2, E1. done.
Qed.

Lemma keeps_exit {A} code : keeps (@exit_ _ A code).
Proof.
  intros rd w Hw. unfold exit_. rewrite (vbind_run _ _ w (atexit w) w) by done. destruct (atexit w) eqn:Ea.
  - pose proof (keeps_restore rd w Hw) as Hk. pose proof (restore_inactive w) as Hi. unfold vwp in Hi.
    destruct (terminal_restore w) as [[u|c|] w1] eqn:E; cbn [fst snd] in *.
    + rewrite (vbind_run _ _ _ _ _ E). cbn. destruct Hk. done.
    + rewrite (vbind_exited _ _ _ _ _ E). done.
    + rewrite (vbind_retrying _ _ _ _ E). done.
  - cbn. destruct (to_before _ w Hw Ea). done.
Qed.

Lemma keeps_fatal {A} : keeps (@fatal _ A).
Proof. apply keeps_vbind; [apply keeps_restore|intros; apply keeps_exit]. Qed.

End Terminal.

Create HintDb term.
#[export] Hint Resolve keeps_exit keeps_fatal keeps_restore keeps_write_all : term.

(** Walk through a computation that does not change the attributes. *)
Ltac keeps_step :=
  match goal with
  | |- keeps (vbind _ _) => apply keeps_vbind; [|intros ?]
  | |- keeps (vret _) => apply keeps_vret
  | |- keeps (get _) => apply keeps_get
  | |- keeps get_errno => apply keeps_errno
  | |- keeps (set_errno _) => apply keeps_set_errno
  | |- keeps (put _) => apply keeps_put; done
  | |- keeps (message_ _) => apply keeps_put; done
  | |- keeps (sys _) => apply keeps_sys; reflexivity
  | |- keeps (uninterrupted _ _) => apply keeps_uninterrupted; reflexivity
  | |- keeps (ret Retrying) => done
  | |- keeps (if ?b then _ else _) => destruct b
  | |- keeps (match ?x with _ => _ end) => destruct x
  | |- keeps _ => solve [auto with term]
  end.
Ltac keeps_steps := cbv zeta; repeat (keeps_step; cbv beta zeta).

Section Program.
Context {T : Tty} {L : Locale}.

Lemma keeps_append data : keeps (append data).
Proof. unfold append, reserve. keeps_steps. Qed.
Lemma keeps_insert b : keeps (insert_byte b).
Proof. unfold insert_byte, reserve. keeps_steps. Qed.
Lemma keeps_delete a b : keeps (delete_range a b).
Proof. unfold delete_range. keeps_steps. Qed.
Lemma keeps_update_size b : keeps (update_size b).
Proof. unfold update_size. keeps_steps. Qed.
Lemma keeps_read_byte timeout : keeps (read_byte timeout).
Proof. unfold read_byte. keeps_steps. Qed.
Hint Resolve keeps_append keeps_insert keeps_delete keeps_update_size keeps_read_byte : term.

Lemma keeps_sequence fuel : forall s, keeps (read_sequence fuel s).
Proof. induction fuel as [|fuel IH]; intros s; cbn [read_sequence]; keeps_steps. Qed.
Lemma keeps_read_file fd fuel : keeps (read_file fuel fd).
Proof. induction fuel as [|fuel IH]; cbn [read_file]; keeps_steps. Qed.
Lemma keeps_handlers l : keeps (set_handlers l).
Proof. induction l as [|s l IH]; cbn [set_handlers]; keeps_steps. Qed.
Hint Resolve keeps_sequence keeps_read_file keeps_handlers : term.

Lemma keeps_read_key : keeps read_key.
Proof. unfold read_key. keeps_steps. Qed.
Lemma keeps_load_file p : keeps (load_file p).
Proof. unfold load_file. keeps_steps. Qed.
Lemma keeps_save_check p : keeps (save_check p).
Proof. unfold save_check. keeps_steps. Qed.
Hint Resolve keeps_save_check : term.
Lemma keeps_save_file p : keeps (save_file p).
Proof. unfold save_file, write_temporary, write_out. keeps_steps. Qed.
Hint Resolve keeps_save_file : term.
Lemma keeps_run_command : keeps run_command.
Proof. unfold run_command. keeps_steps. Qed.
Hint Resolve keeps_run_command keeps_read_key keeps_load_file : term.

Lemma keeps_edit_key key : keeps (edit_key key).
Proof. unfold edit_key, start_insert, delete_line. keeps_steps. Qed.
Hint Resolve keeps_edit_key : term.
Lemma keeps_handle_key key : keeps (handle_key key).
Proof. unfold handle_key, paste_key, command_key. keeps_steps. Qed.

Lemma keeps_draw_screen : keeps draw_screen.
Proof.
  intros rd w Hw. unfold draw_screen. rewrite vbind_get. destruct (draw_frame (ed w)) as [frame e'] eqn:E.
  rewrite vbind_put. set (w1 := World _ _ _ _ _ _).
  assert (H1 : term_ok rd w1).
  { assert (He : terminal_active e' = terminal_active (ed w) /\ saved_termios e' = saved_termios (ed w)).
    { apply (f_equal snd) in E. cbn [snd] in E. subst e'. unfold draw_frame. by destruct (_ || _). }
    destruct He. apply (term_ok_frame _ w _ []); try done; by constructor. }
  assert (Hk : keeps (let! r := write_all STDOUT (flat_map ansi frame) in if r <? 0 then fatal else vret tt))
    by keeps_steps.
  apply (Hk rd w1 H1).
Qed.
Hint Resolve keeps_handle_key keeps_draw_screen : term.

Lemma keeps_main_loop fuel : forall b, keeps (main_loop fuel b).
Proof. induction fuel as [|fuel IH]; intros b; cbn [main_loop]; unfold main_step; keeps_steps. Qed.

Hint Resolve keeps_main_loop : term.

(** A run from [w] whose end has the terminal restored. *)
Definition ends {A} (m : V A) (w : world) : Prop :=
  match fst (m w) with
  | Run _ => exists read, term_ok read (snd (m w))
  | Exited _ => terminal_active (ed (snd (m w))) = false /\ exists read, term_ok read (snd (m w))
  | Retrying => True
  end.

Lemma ends_keeps {A} (m : V A) read w : keeps m -> term_ok read w -> ends m w.
Proof.
  intros Hm Hw. specialize (Hm read w Hw). unfold ends. destruct (fst (m w)); [|destruct Hm as [H1 H2]|done].
  - exists read. by destruct Hm.
  - split; [done|by exists read].
Qed.

(** What else is known of [m] when it returns goes into [P]. *)
Lemma ends_bind {A B} (P : A -> world -> Prop) (m : V A) (k : A -> V B) read w :
  keeps m -> term_ok read w -> vwp m P w ->
  (forall a w', term_ok read w' -> atexit w' = atexit w -> P a w' -> ends (k a) w') -> ends (vbind m k) w.
Proof.
  intros Hm Hw HP Hk. specialize (Hm read w Hw). unfold vwp in HP. unfold vbind, bind, ends.
  destruct (m w) as [[a|c|] w1]; cbn [fst snd] in *; [destruct Hm; by apply Hk| |done].
  destruct Hm. split; [done|by exists read].
Qed.

Lemma ends_then {A B} (m : V A) (k : A -> V B) w : ends m w ->
  (forall a read w', term_ok read w' -> ends (k a) w') -> ends (vbind m k) w.
Proof.
  intros Hm Hk. unfold ends in Hm. unfold vbind, bind, ends at 1. destruct (m w) as [[a|c|] w1]; cbn [fst snd] in *; [|done..].
  destruct Hm as [read Hm]. by apply (Hk a read).
Qed.

Lemma vwp_any {A} (m : V A) w : vwp m (fun _ _ => True) w.
Proof. unfold vwp. by destruct (fst (m w)). Qed.

(** Reading the attributes into [saved_termios], while nothing was changed. *)
Lemma saved_is_read w a : term_ok false w -> atexit w = false ->
  (exists l, log w = (Tcgetattr, a) :: l) -> 0 <= t_ret a ->
  term_ok true (World _ (set_saved_termios (t_termios a) (ed w)) (atexit w) (errno w) (log w) (tty w)).
Proof.
  intros Hw Ha (l & Hl) Hr. destruct (to_before _ w Hw Ha) as [H1 H2]. split; cbn [ed atexit log]; ed_cbn; try done.
  - intros _. exists a, [], l. rewrite Hl in H2 |- *. inversion H2; subst. done.
  - intros _. by left.
Qed.

(** The attributes may change once the restoring function is registered. *)
Lemma ends_raw raw w : term_ok true w -> atexit w = true -> terminal_active (ed w) = true ->
  ends (let! s := sys (Tcsetattr raw) in
        if t_ret s <? 0 then fatal else
        let! r := write_all STDOUT PASTE_ON in
        if r <? 0 then fatal else vret tt) w.
Proof.
  intros Hw Ha Hact. unfold sys, vbind at 1, lift, bind, call, ends. destruct (tty_step _ _) as [a t].
  set (w2 := World _ _ _ _ _ _). assert (H2 : term_ok true w2).
  { destruct Hw as [K1 K2 K3 K4]. split; unfold w2; cbn [ed atexit log]; try done; try congruence.
    intros E. by apply (found_app _ [_]), K3. }
  apply (ends_keeps (if t_ret a <? 0 then fatal else
        let! r := write_all STDOUT PASTE_ON in
        if r <? 0 then fatal else vret tt) true w2); [keeps_steps|done].
Qed.

Lemma keeps_backend_start : keeps backend_start.
Proof. unfold backend_start. keeps_steps. Qed.

Lemma ends_registered raw w : term_ok true w ->
  ends (run! set_atexit in
    run! put (set_terminal_active true) in
    run! backend_start in
    let! s := sys (Tcsetattr raw) in
    if t_ret s <? 0 then fatal else
    let! r := write_all STDOUT PASTE_ON in
    if r <? 0 then fatal else vret tt) w.
Proof.
  intros Hw. unfold set_atexit, ends.
  rewrite (vbind_run _ _ w tt (World _ (ed w) true (errno w) (log w) (tty w))) by done.
  rewrite vbind_put. cbn [ed atexit errno log tty]. set (w1 := World _ _ _ _ _ _).
  assert (H1 : term_ok true w1) by (split; unfold w1; cbn [ed atexit log]; ed_cbn; try done; apply (to_saved _ w Hw)).
  apply (ends_bind (fun _ w' => ed w' = ed w1) backend_start _ true w1); [apply keeps_backend_start|done| |].
  - unfold backend_start. vsteps; by ed_eq.
  - intros ? w2 H2 Ha He. apply ends_raw; [done|by rewrite Ha|by rewrite He].
Qed.

Lemma ends_terminal_start w : term_ok false w -> atexit w = false -> ends terminal_start w.
Proof.
  intros Hw Ha. unfold terminal_start.
  apply (ends_bind (fun _ _ => True) _ _ false); [keeps_steps|done|apply vwp_any|]. intros i w1 H1 A1 _. rewrite Ha in A1.
  apply (ends_bind (fun _ _ => True) _ _ false); [keeps_steps|done|apply vwp_any|]. intros b w2 H2 A2 _. rewrite A1 in A2.
  destruct b; cbn [negb]; [|apply (ends_keeps _ false); [apply keeps_exit|done]].
  apply (ends_bind (fun g w' => exists l, log w' = (Tcgetattr, g) :: l) _ _ false); [keeps_steps|done| |].
  { apply vwp_sys. intros a w3 _ -> _. by eexists. }
  intros g w3 H3 A3 Hin. rewrite A2 in A3.
  destruct (Z.ltb_spec (t_ret g) 0) as [|Hg]; [apply (ends_keeps _ false); [apply keeps_fatal|done]|].
  unfold ends. rewrite vbind_put. pose proof (saved_is_read w3 g H3 A3 Hin Hg) as H4. revert H4.
  generalize (World _ (set_saved_termios (t_termios g) (ed w3)) (atexit w3) (errno w3) (log w3) (tty w3)). intros w4 H4.
  apply (ends_bind (fun _ _ => True) (set_handlers _) _ true); [apply keeps_handlers|done|apply vwp_any|]. intros _ w5 H5 _ _.
  apply (ends_bind (fun _ _ => True) (sys Atexit) _ true); [keeps_steps|done|apply vwp_any|]. intros a w6 H6 _ _.
  destruct (negb _); [apply (ends_keeps _ true); [keeps_steps|done]|]. by apply ends_registered.
Qed.

Lemma term_ok_start t : term_ok false (world0 t).
Proof. split; try done; [intros _; split; [done|constructor]|intros _; left; constructor]. Qed.

Lemma ends_session t fuel file trace_path : ends (session fuel file trace_path) (world0 t).
Proof.
  pose proof (term_ok_start t) as H0.
  assert (Hstep : forall (m k : V unit) w, keeps m -> term_ok false w -> atexit w = false ->
    (forall w', term_ok false w' -> atexit w' = false -> ends k w') -> ends (run! m in k) w).
  { intros m k w Hm Hw Ha Hk. apply (ends_bind (fun _ _ => True) _ _ false); [done|done|apply vwp_any|].
    intros _ w' H' A' _. apply Hk; [done|congruence]. }
  unfold session. apply Hstep; [apply keeps_append|done|done|]. intros w1 H1 A1.
  apply Hstep; [keeps_steps|done|done|]. intros w2 H2 A2.
  apply Hstep; [destruct file; [apply keeps_load_file|keeps_steps]|done|done|]. intros w3 H3 A3.
  apply Hstep; [keeps_steps|done|done|]. intros w4 H4 A4.
  apply ends_then; [by apply ends_terminal_start|]. intros _ read w5 H5. apply (ends_keeps _ read); [|done].
  apply keeps_vbind; [apply keeps_update_size|intros _].
  apply keeps_vbind; [apply keeps_main_loop|intros s]. keeps_steps.
Qed.

Lemma ends_main t fuel argv : ends (main fuel argv) (world0 t).
Proof.
  unfold main. destruct (parse_args argv None None) as [c|[f tr]]; [|apply ends_session].
  apply (ends_keeps _ false); [apply keeps_exit|apply term_ok_start].
Qed.

End Program.

(** C40: whatever ends the editor - a command, the end of its input, a signal it catches, a
    failed call at any moment, memory that runs out - it leaves with the terminal marked as
    restored, and unless no attributes were ever set, the last call that set any set those
    that [tcgetattr] gave before the first such call; that call succeeded or failed for a
    reason other than a signal, on which the code gives up.  A run that does not end is
    waiting for a call that signals interrupt every time.  Signals that run no code of the
    editor, such as SIGKILL, are outside. *)
Theorem terminal_left_as_found {T : Tty} {L : Locale} (t : TW) (fuel : nat) (argv : list cstr) :
  let '(o, w') := main fuel argv (world0 t) in
  match o with
  | Run _ => True
  | Exited _ =>
      terminal_active (ed w') = false /\
      (no_set (log w') \/ exists attr, found attr (log w') /\ set_last attr (log w'))
  | Retrying => spinning w'
  end.
Proof.
  pose proof (ends_main t fuel argv) as Hends. pose proof (waits_main fuel argv (world0 t)) as Hw.
  unfold ends in Hends. destruct (main _ _ _) as [[u|c|] w']; [done| |by apply Hw]. cbn [fst snd] in Hends.
  destruct Hends as (Hact & read & Hok). split; [done|].
  destruct (to_restored _ _ Hok Hact) as [?|Hlast]; [by left|].
  destruct (atexit w') eqn:E; [|left; by destruct (to_before _ _ Hok E)].
  right. exists (saved_termios (ed w')). split; [|done]. apply (to_saved _ _ Hok), (to_read _ _ Hok E).
Qed.
