(* ===== verification/VimWitnesses.v ===== *)
(** * VimWitnesses: the editor on concrete input

    A terminal that answers every call and hands out prepared keys, and a locale with
    UTF-8 characters of one and two bytes. *)

From Stdlib Require Import String.
From stdpp Require Import base list numbers.
From S2P Require Import Prelude CString VimText Vim VimSpec VimEnds VimLines VimSave VimDraw VimTerm.

Local Open Scope Z_scope.

#[local] Instance demo_locale : Locale := {
  mbrtowc l :=
    match l with
    | c :: r =>
        if (1 <=? c) && (c <? 128) then Some (1%nat, c)
        else if (194 <=? c) && (c <? 224) then
          match r with
          | d :: _ => if (128 <=? d) && (d <? 192) then Some (2%nat, (c - 192) * 64 + (d - 128)) else None
          | [] => None
          end
        else None
    | [] => None
    end;
  wcwidth wc := if (wc <? 32) || ((127 <=? wc) && (wc <? 160)) then -1 else 1;
  stale_wc _ := 0
}.

#[local] Instance demo_locale_laws : LocaleLaws.
Proof.
  split.
  - intros [|c l] n wc; cbn; [done|]. destruct (_ && _); [intros [= <- <-]; lia|].
    destruct (_ && _); [|done]. destruct l as [|d l]; [done|]. destruct (_ && _); [|done]. intros [= <- <-]. cbn. lia.
  - intros c l n wc Hc. cbn. destruct (_ && _); [intros [= <- <-]; by repeat constructor|].
    destruct (_ && _); [|done]. destruct l as [|d l]; [done|].
    destruct ((128 <=? d) && _) eqn:Hd; [|done]. intros [= <- <-]. repeat constructor; [done|].
    apply andb_true_iff in Hd as [Hd%Z.leb_le _]. unfold is_control, DEL.
    apply orb_false_iff. split; [apply Z.ltb_ge|apply Z.eqb_neq]; lia.
Qed.

#[local] Instance demo_display_laws : DisplayLaws.
Proof.
  split.
  - intros c l Hc. cbn. destruct (Z.leb_spec 1 c), (Z.ltb_spec c 128); try lia.
    destruct (Z.ltb_spec c 32), (Z.leb_spec 127 c); try lia. done.
  - intros [|c l] n wc; cbn; [done|]. destruct (_ && _) eqn:E1; [intros [= <- <-]; cbn; by rewrite E1|].
    destruct ((194 <=? c) && _) eqn:E2; [|done]. destruct l as [|d l]; [done|].
    destruct ((128 <=? d) && _) eqn:E3; [|done]. intros [= <- <-]. cbn. by rewrite E1, E2, E3.
Qed.

Definition demo_stat : vstat := Vstat 33188 1 0 1 2.
Definition demo_attr : termios := Termios 1280 5 191 35387 1 0.
Definition answer (ret : Z) (bytes : list Z) : tanswer := Tanswer ret 0 bytes demo_stat demo_attr 24 80.

(** The state is the keys that were not read yet. *)
Definition demo_step (keys : list Z) (c : tcall) : tanswer * list Z :=
  match c with
  | Write _ data => (answer (Z.of_nat (length data)) [], keys)
  | Mkstemp s => (answer 5 s, keys)
  | Isatty _ => (answer 1 [], keys)
  | Poll _ => (answer (match keys with [] => 0 | _ => 1 end) [], keys)
  | Read _ _ => match keys with k :: r => (answer 1 [k], r) | [] => (answer 0 [], []) end
  | _ => (answer 0 [], keys)
  end.

#[local] Instance demo_tty : Tty := { TW := list Z; tty_step := demo_step; strerror := fun _ => str "error"; patience := 3 }.

#[local] Instance demo_tty_laws : TtyLaws.
Proof.
  split.
  - intros t c H. exfalso. destruct c; cbn in H; try lia; destruct t; cbn in H; lia.
  - intros t fd data H. cbn. destruct data; [done|cbn; lia].
  - done.
Qed.

(** Three lines, the second with a control byte, a broken and a two-byte character. *)
Definition demo_text : list Z := str "one" ++ [NL; ESC; 200; 195; 169; NL] ++ str "three".
Definition demo_editor (m : vmode) (pre : Z) (cmd : cstr) : editor :=
  Editor demo_text 1024 5 0 0 24 80 0 m true false true false pre cmd (str "hello") (Some (str "f")) demo_attr false.
Definition demo_world (m : vmode) (pre : Z) (cmd : cstr) : world := World demo_tty (demo_editor m pre cmd) true 0 [] [].

Lemma demo_ok m pre : pre = 0 \/ pre = chr "d" -> forall cmd, cmd = [] \/ cmd = str "wq" -> editor_ok (demo_editor m pre cmd).
Proof.
  intros Hp cmd Hc. split; try (by vm_compute); try (destruct Hc as [->| ->]; repeat constructor; by vm_compute).
  cbn. tauto.
Qed.

Definition demo_keys : @TW demo_tty := [chr "i"; chr "a"].

Lemma editor_stays_ok_witness :
  fst (main 2 [str "--backend"; str "ansi"] (world0 demo_keys)) = Run tt /\
  vwp (main 2 [str "--backend"; str "ansi"]) (fun _ w' => editor_ok (ed w')) (world0 demo_keys).
Proof. split; [by vm_compute|apply (editor_stays_ok demo_keys 2 [str "--backend"; str "ansi"])]. Defined.

Lemma line_commands_edit_lines_witness :
  (let x := handle_key (chr "o") (demo_world NORMAL 0 []) in
   fst x = Run tt /\ lines (text (ed (snd x))) = [str "one"; [ESC; 200; 195; 169]; []; str "three"]) /\
  exists w', handle_key (chr "d") (demo_world NORMAL (chr "d") []) = (Run tt, w') /\
    lines (text (ed w')) = [str "one"; str "three"] /\ row_of (text (ed w')) (cursor (ed w')) = 1%nat.
Proof.
  split.
  { pose proof (line_commands_edit_lines (demo_world NORMAL 0 [])
      (demo_ok NORMAL 0 (or_introl eq_refl) [] (or_introl eq_refl)) eq_refl eq_refl) as [_ H].
    specialize (H eq_refl). destruct (handle_key (chr "o") (demo_world NORMAL 0 [])) as [o w'] eqn:E.
    pose proof (f_equal fst E) as Ho. vm_compute in Ho. subst o. destruct H as (l & _ & _ & _ & H & _). split; [reflexivity|].
    cbn [snd]. rewrite H. by vm_compute. }
  destruct (line_commands_edit_lines (demo_world NORMAL (chr "d") [])
    (demo_ok NORMAL (chr "d") (or_intror eq_refl) [] (or_introl eq_refl)) eq_refl eq_refl) as [H _].
  destruct (H eq_refl) as (w' & Hr & Hl & Hrow). exists w'. split; [exact Hr|]. rewrite Hl in *. split; [by vm_compute|].
  rewrite Hrow. by vm_compute.
Defined.

(** A session that ends with ":q!": the attributes the terminal had are set last. *)
Example quit_restores :
  let x := main 6 [] (world0 ([chr ":"; chr "q"; chr "!"; 13] : @TW demo_tty)) in
  fst x = Exited 0 /\ set_last demo_attr (log (snd x)).
Proof.
  split; [by vm_compute|]. eexists _, [_; _], _. split; [vm_compute; reflexivity|]. split; [by repeat constructor|by left].
Qed.

(** A system that interrupts every other write: the save still succeeds. *)
Definition shaky_step (n : nat) (c : tcall) : tanswer * nat :=
  match c with
  | Write _ data =>
      (if Nat.even n then Tanswer (-1) EINTR [] demo_stat demo_attr 24 80 else answer (Z.of_nat (length data)) [], S n)
  | Mkstemp s => (answer 5 s, n)
  | _ => (answer 0 [], n)
  end.
Definition shaky_tty : Tty := {| TW := nat; tty_step := shaky_step; strerror := fun _ => []; patience := 3 |}.
Example interrupted_save_succeeds :
  fst (@save_file shaky_tty (Some (str "f")) (World shaky_tty (demo_editor NORMAL 0 []) true 0 [] 0%nat)) = Run true.
Proof. by vm_compute. Qed.

Lemma save_is_atomic_witness :
  exists w', save_file (Some (str "f")) (demo_world NORMAL 0 []) = (Run true, w') /\
    exists fd m tmp l0 l, tmp <> str "f" /\ log w' = l ++ l0 /\ saved_log fd m tmp (str "f") demo_text l.
Proof.
  destruct (save_file (Some (str "f")) (demo_world NORMAL 0 [])) as [o w'] eqn:E.
  pose proof (f_equal fst E) as Ho. vm_compute in Ho. subst o. exists w'. split; [reflexivity|].
  destruct (save_is_atomic (str "f") (demo_world NORMAL 0 []) w' (Run true) ltac:(done) E)
    as (fd & m & tmp & l0 & l & H1 & H2 & H3 & _). exists fd, m, tmp, l0, l. cbn [log demo_world] in H2.
  rewrite app_nil_r in H2. exact (conj H1 (conj H2 H3)).
Defined.

Lemma keys_lose_no_text_witness :
  exists w', handle_key 13 (demo_world COMMAND 0 (str "wq")) = (Run tt, w') /\
    quit (ed w') = true /\ dirty (ed w') = false /\ keeps_text (demo_world COMMAND 0 (str "wq")) w'.
Proof.
  destruct (handle_key 13 (demo_world COMMAND 0 (str "wq"))) as [o w'] eqn:E.
  pose proof (f_equal fst E) as Ho. vm_compute in Ho. subst o. exists w'. split; [reflexivity|].
  split; [|split].
  - apply (f_equal (fun x => quit (ed (snd x)))) in E. cbn [snd] in E. rewrite <- E. by vm_compute.
  - apply (f_equal (fun x => dirty (ed (snd x)))) in E. cbn [snd] in E. rewrite <- E. by vm_compute.
  - pose proof (keys_lose_no_text 13 (demo_world COMMAND 0 (str "wq"))) as H. rewrite E in H. exact H.
Defined.

Lemma draw_keeps_contract_witness :
  let frame := fst (draw_frame (demo_editor NORMAL 0 [])) in
  In (DText (str "^[")) frame /\ In (DText (str "\xc8")) frame /\ In (DText [195; 169]) frame /\
  Forall (sane 24 80) frame /\ clipped 80 1 frame.
Proof.
  pose proof (draw_keeps_contract (demo_editor NORMAL 0 []) (demo_ok NORMAL 0 (or_introl eq_refl) [] (or_introl eq_refl))
    ltac:(by repeat constructor) ltac:(by repeat constructor) ltac:(by vm_compute) ltac:(by vm_compute)) as H.
  destruct (draw_frame (demo_editor NORMAL 0 [])) as [frame e'] eqn:E. cbn [fst].
  destruct H as (H1 & H2 & _). apply (f_equal fst) in E. cbn [fst] in E. split; [|split; [|split; [|exact (conj H1 H2)]]].
  all: rewrite <- E; vm_compute; tauto.
Defined.
